(* ===== verification/_CoqProject ===== *)
-Q . S2P
Prelude.v
Xdr.v
XdrLaws.v
Nfs3Types.v
RpcTypes.v
MountTypes.v
PortmapTypes.v
NfsExt.v
XdrTheorems.v
Transactions.v
TransactionLaws.v
TransactionMemory.v
RpcWire.v
RpcWireLaws.v
RpcClient.v
RpcClientLaws.v
Handle.v
Vfs.v
NfsHandlers.v
NfsHandlersLaws.v
Validity.v
Connect.v
ConnectLaws.v
MountPortmap.v
Server.v
ServerLaws.v
Connection.v
ConnectionLaws.v
ServerValidity.v
Listener.v
ThresholdLogger.v
Display.v
EndToEnd.v
FsUtil.v
IteratorCache.v
Mirror.v
MirrorLaws.v
MirrorProperties.v
MirrorValid.v
MemFs.v
MemFsTree.v
MemFsLaws.v
MemFsTheorems.v
MemFsNames.v
MemFsProperties.v
MemFsValid.v
RemoteMemFs.v
Concurrent.v
MemFsConcurrent.v
RemoteConnection.v
Session.v
Programs.v
ProgramsLaws.v
ProgramsMemFs.v
RemotePrograms.v
JustClient.v
ServerMain.v
MirrorSuiteUtil.v
MirrorSuiteServer.v
MirrorSuiteReadonly.v
MirrorSuiteReadwrite.v
MirrorSuiteLaws.v
MirrorSuiteDemo.v
MirrorExample.v
MirrorExampleLaws.v
MirrorExampleProperties.v
MirrorExampleDemo.v
MirrorExampleValid.v
