(* ===== verification/Prelude.v ===== *)
(** * A verified model of the nfs3 crates

    The repository implements NFS version 3 in Rust: the XDR codec and the
    protocol types (crate [nfs3_types], with the derive macro of [nfs3_macros]),
    a server library ([nfs3_server]) over a file-system trait with an in-memory
    implementation, a client library ([nfs3_client]), and a server program
    ([cargo_nfs3_server]) that mirrors a directory of the operating system.  This
    library models these crates and proves what makes them correct.  File names
    below are under [src/crates/].

    ** How the parts interact

    A connection is a stream of record-marking fragments.  The server reassembles
    them into messages ([RpcWire.socket_read]), and serves each message by
    [Server.handle_rpc_message]: the header is unpacked, the transaction tracker
    refuses retransmissions, the program is dispatched to the NFS, MOUNT or port
    mapper procedures, and the reply is packed and written as one fragment.  The
    procedures call the methods of a file system ([Vfs.NfsFileSystem]); [MemFs],
    [Mirror] and [MirrorExample] are three.  The client packs a call, and unpacks the reply ([RpcClient.rpc_call]).

    ** Files, and the code they model

    - [Prelude]: [result] and [outcome] (what a computation that may panic
      returns), the two state monads [sres] and [prog] with their notations,
      machine integers, bytes and their big- and little-endian integers.
    - [Xdr] and [XdrLaws]: [nfs3_types/src/xdr_codec] and the code generated by
      [nfs3_macros/src/lib.rs].  A [codec] is the pair of the implementations of
      [Pack] and [Unpack] for a type; [struct_codec], [simple_enum_codec] and
      [complex_enum_codec] are the three shapes the macro generates.  The laws
      are the class [CodecOk], whose instances are found by type-class search.
    - [Nfs3Types], [RpcTypes], [MountTypes], [PortmapTypes]:
      [nfs3_types/src/nfs3.rs], [rpc.rs], [mount.rs], [portmap.rs], type by type.
    - [NfsExt]: [nfs3_server/src/nfs_ext.rs].
    - [XdrTheorems]: round trips and bounds of all the types.
    - [Transactions], [TransactionLaws], [TransactionMemory]:
      [nfs3_server/src/transaction_tracker.rs].
      The [Arc]s of the client queues are addresses in a heap of mutexes; a
      panic under a lock poisons it; [step] interleaves the operations of any
      number of connections and the cleaner, with [start_transaction] split
      where it gives up the read lock.  [TransactionMemory] says which transactions
      the tracker remembers, after each operation and along any run of them.
    - [RpcWire], [RpcWireLaws]: [nfs3_server/src/rpcwire.rs] (framing and
      [handle]) and [rpcwire/messages.rs].
    - [RpcClient], [RpcClientLaws]: [nfs3_client/src], the clients.  The
      transport delivers arbitrary chunks.
    - [Connect], [ConnectLaws]: [nfs3_client/src/connect.rs], the connection
      builder, over the network of the trait [Connector].
    - [Handle]: [nfs3_server/src/vfs/handle.rs].  The trait [FileHandle] is a
      class, its contract the class [FileHandleLaws].
    - [Vfs]: [nfs3_server/src/vfs]: the traits as classes of methods over a
      state, the iterators, the default methods and the read-only adapter.
    - [NfsHandlers], [NfsHandlersLaws]: [nfs3_server/src/nfs_handlers.rs], over
      an arbitrary file system whose methods may fail, panic and change state.
    - [Validity]: the interface [ValidFs] (the values of a file system can be
      encoded) and what every procedure gives over it.
    - [MountPortmap]: [mount_handlers.rs], [portmap_handlers.rs], [context.rs]
      and [with_export_name] of [tcp.rs].
    - [Server], [ServerLaws]: [handle_rpc_message] and [lock_transaction] of
      [rpcwire.rs].
    - [Connection], [ConnectionLaws]: [nfs3_server/src/tcp.rs], [process_socket],
      and the message loop and tasks of [rpcwire.rs]: an [action] is what one of
      the tasks of a connection does between two awaits, [run] a sequence of them.
    - [ServerValidity]: what every message and every run of a connection keeps of
      a file system.
    - [Listener]: the rest of [tcp.rs], over the calls [TcpBind] to bind.
    - [EndToEnd]: the clients and the server composed.
    - [MemFs]: [nfs3_server/src/memfs].  [MemFsTree] is its abstract state, a
      tree with push, remove and move; [MemFsLaws] proves that the table refines
      it, [MemFsTheorems] the invariant and the absence of panics, [MemFsNames]
      the effect on names, [MemFsProperties] states the claims, [MemFsValid] is
      the instance of [ValidFs].

    - [FsUtil]: the operating system as a class of calls, and
      [nfs3_server/src/fs_util].
    - [IteratorCache]: [cargo_nfs3_server/src/mirror/iterator_cache.rs], with its
      theorems.
    - [Mirror]: [cargo_nfs3_server/src/mirror]: the symbols cache, the methods of
      [Fs] and the directory iterators.  [MirrorLaws] has the invariant of the
      symbols cache and two predicates that are closed under sequencing: [safe]
      (returns, keeps the invariant, forgets no handle) and [frame] (does not
      touch the iterator cache).  [MirrorProperties] has the claims, and a small
      operating system and symbol table to run the mirror on.  [MirrorValid] is its
      instance of [ValidFs].
    - [ThresholdLogger]: [cargo_nfs3_server/src/threshold_logger.rs], the rate
      limit of the messages about the size of the mirror's tables.
    - [RemoteMemFs]: the in-memory file system called over the network.
    - [Concurrent]: a procedure among others that run between its method calls:
      [Interleaved] is the file system as the procedure sees it, and the
      procedures of [NfsHandlers] run on it unchanged.
    - [MemFsConcurrent]: the critical sections of the calls on the in-memory file
      system in any order ([world_moves]), and what its [RENAME] risks there.
    - [RemoteConnection]: a call of a client through the tasks of a connection.
    - [Session]: the calls of a client on one connection, one after the other, with
      any scheduler of its tasks ([carries]) and any network ([delivers]).
    - [Display]: the implementations of [Display] of the protocol names and of the
      errors.
    - [Programs], [ProgramsLaws]: [ls.rs] and [download_folder.rs] of
      [nfs3_client/examples], over the calls of a connection ([NfsCalls]); the
      class [Answers] is what a connection promises to them.  [ProgramsMemFs] runs
      them on the in-memory file system, [RemotePrograms] over a [Session].
    - [JustClient]: [nfs3_tests/src/just_client.rs], the client of the tests, in the
      same way.
    - [ServerMain]: [cargo_nfs3_server/src/main.rs], [memfs.rs] and [logging.rs]: from
      the arguments of the server program to what it serves.
    - [MirrorSuiteUtil], [MirrorSuiteReadonly], [MirrorSuiteReadwrite]: the
      integration suite [nfs3_tests/src/bin/test_mirror_fs], its helpers and its 48
      tests, over the calls of a connection and the disk of the host ([StdFs]).
      [MirrorSuiteServer] has the arguments it starts the server with and its loop
      of connection attempts.
      [MirrorSuiteLaws] says what the helpers check, [MirrorSuiteDemo] runs the suite
      on the mirror of a small disk, over a session.
    - [MirrorExample]: [nfs3_server/examples/mirrorfs.rs], the example file system
      of the server library.  [MirrorExampleLaws] has its invariant and a triple
      [hoare] for computations that keep it and that panic or do not end only for
      a cause of the class [Blame], with one lemma for each method; [MirrorExampleProperties] the claims, over the states that a
      server gets to ([ex_reachable]); [MirrorExampleDemo] a tree to run it on, and
      [MirrorExampleValid] its instance of [ValidFs].

    ** What the theorems show

    - Codec: every NFS, RPC, MOUNT and port mapper message survives the wire,
      decoded values can be encoded again, encodings are unambiguous.
    - Framing: messages cut into fragments in any way are reassembled, and the
      reader ends with an error on every input, never in a panic.
    - Calls: a remote call is the procedure it names, from the client's
      arguments to the result it returns; what a remote WRITE stores a remote
      READ gives back; every call is executed at most once; bad calls are
      refused before they reach a procedure.  (At most once is while the tracker
      remembers: as long as the call runs, and for the retention time after it.)
    - Connections: whatever the order of the tasks and whatever other connections
      do, each message received is served at most once and answered by whole
      fragments; every run is finite, and one that cannot go on has served all
      that was sent.
    - Concurrency: while others change the file system between its method calls, a
      procedure takes effect at one point; the in-memory file system keeps its
      invariant however its critical sections are interleaved; a client's call is
      the procedure it names also through the tasks of a connection.
    - Programs: over the network, call by call, [ls] prints every entry of a remote
      directory, [download_folder] makes a copy of a remote tree, and the client of
      the tests finds the file it made again, in its directory and with its
      contents, through any number of pages and chunks.
    - Tests: the comparison of a served file with a local one passes only when they
      are the same, and then if the local reads are full; the tests of refused calls
      pass on every read-only file system; run on one disk, the suite passes on a mirror, and each half of it panics on the
      server of the other.
    - Server program: it starts exactly when its arguments can be met, with the
      export they ask for.
    - Read-only exports: no sequence of messages changes an in-memory file system
      behind the read-only adapter.
    - Connecting: [mount] asks the port mapper for the ports that are not set and
      the MOUNT service for the path, and gives clients connected to these ports and
      the root handle of the export; the search for a privileged port is the first
      success of a list of attempts.
    - Tracker: no interleaving panics; a retransmission of a call in progress is
      always recognised, and so is one of a call just answered; the number of
      calls in progress of a client is bounded.
    - NFS procedures: what each of READDIR, READDIRPLUS, SETATTR, CREATE, WRITE
      and MNT answers in terms of the methods it calls, on every branch; writes
      are refused without the capability; foreign handles are refused; over a
      file system whose values can be encoded no call is lost to an encoding
      error; the three file systems of the repository are such.
    - In-memory file system: the table stays a tree, operations do not panic
      within the stated bounds, and the effect of each operation on names,
      attributes and contents, with everything else unchanged.
    - Mirror file system: handles stand for the same path for ever, no operation
      panics, a lookup implements a table of names, listings are complete, plain
      names stay inside the export, and the iterator cache gives streams back
      under their cookie and stays within its bound; a truncated listing cannot
      be resumed.
    - Example file system: whatever the system answers its tables agree, ids are
      not given out again, RENAME moves the handle with the file, and listings
      resume after the last cookie.  It panics only when the symbol table is full or
      the attributes of an entry cannot be read right after it was listed; its
      recursion over the children may have no end, and a run of a client that gets
      there is shown.
    - Defects: theorems named in the findings of the manifest show on concrete
      inputs or in general where the code does not do what it means to.

    ** Conventions, bounds and fuel

    Integers are [Z]; where the width matters the range is a hypothesis
    ([in_u32] and so on) or the wrap-around is written out.  The targets are
    64-bit.  Additions of [usize] that the code does not guard panic on overflow
    ([File::read]), as in builds with overflow checks.  A function that takes
    [&mut] arguments and returns a [Result] keeps what it wrote before an error.

    Loops over lists are structural.  The others carry fuel: [fill_loop] of the
    directory listings ([fill_fuel]: every entry takes 24 bytes of the budget),
    [ancestor_loop] of [rename] ([ancestor_fuel]: the ancestors of a directory
    are distinct entries), [socket_read_loop] and [list_unpack_loop] (each turn
    consumes input), and [async_read_exact] (one chunk a turn; it is the loop
    shown not to end on a closed stream).  In the example file system
    [relist_loop] has a bound on the entries of a directory as its parameter, and
    [collect_fuel] decides ([collect_fuel_decides]): a recursion that needs more
    needs an infinite stack.  The programs get as much fuel as a directory has
    entries and a file has chunks, and a turn for each thing to copy.  A session
    makes fewer than 2^32 calls, after which the xids come round, and its scheduler
    gets the number of steps that [work] says are left.  [OutOfFuel] is never reached where a
    theorem says that the code returns.

    Parameters of the model, with their documented behaviour as laws: the file
    system of a server ([NfsFileSystem]), the handles ([FileHandleLaws]), the
    byte order of the target ([Target]), where a hash set puts an element
    ([HashSetOrder]), the operating system under the mirror and the example ([Os]
    and [OsMore], and [OsValid] where the ranges of its values matter), the symbol
    table of the [intaglio] crate ([SymbolTableLaws], [CheckInterned]), the network of the
    connection builder ([Connector]), the call that binds a socket ([TcpBind]),
    the local disk of the programs ([LocalDisk]) and of the tests ([StdFs]), the
    scheduler and the network of a session ([carries], [delivers]), the text of the
    errors of the system, the clock and the transport.  What the in-memory file
    system makes needs a free id: that the next one is free is a hypothesis, as 2^64
    ids may have been drawn.

    ** Not modelled

    Log messages and [Debug]; the parsing of Rust syntax in the derive macro and of
    the command lines; the inside of tokio and smol (a socket, a pipe and a channel
    are the bytes and messages in them), the loop around [accept]; the cancellation
    of a task between two awaits; the memory limit of the process; what is compiled
    for Windows only.  A method of a file system is one step for the others, except
    in [MemFsConcurrent], where its critical sections are.  Unit tests, the tests
    that are built into [nfs3_tests/tests], the processes that the suite starts and
    stops and the other examples are out of scope. *)

From stdpp Require Export base tactics list gmap strings.
From Stdlib Require Export ZArith Lia Init.Byte.

#[export] Set Default Goal Selector "!".

(** ** Results and outcomes

    [result] is Rust's [Result]; [outcome] is what a computation that may
    panic returns.  [OutOfFuel] is produced only by the loops that carry fuel (see
    "Conventions, bounds and fuel" above); with the exceptions named there,
    each of them comes with a lemma that it never is. *)

Inductive result (A E : Type) : Type :=
| Ok (a : A)
| Err (e : E).
Arguments Ok {A E} a.
Arguments Err {A E} e.

Inductive outcome (A : Type) : Type :=
| Ret (a : A)
| Panic
| OutOfFuel.
Arguments Ret {A} a.
Arguments Panic {A}.
Arguments OutOfFuel {A}.

#[export] Instance result_eq_dec {A E} `{!EqDecision A, !EqDecision E} :
  EqDecision (result A E).
Proof. solve_decision. Defined.

#[export] Instance outcome_eq_dec {A} `{!EqDecision A} : EqDecision (outcome A).
Proof. solve_decision. Defined.

Definition is_ok {A E} (r : result A E) : bool :=
  match r with Ok _ => true | Err _ => false end.

(** [Result::map] and [Result::map_err]. *)
Definition result_map {A B E} (f : A -> B) (r : result A E) : result B E :=
  match r with Ok a => Ok (f a) | Err e => Err e end.

Definition result_map_err {A E F} (f : E -> F) (r : result A E) : result A F :=
  match r with Ok a => Ok a | Err e => Err (f e) end.

(** [Option::ok_or]. *)
Definition ok_or {A E} (o : option A) (e : E) : result A E :=
  match o with Some a => Ok a | None => Err e end.

(** ** The two monads of the development

    [sres S A E] is a computation over a state [S] that ends with a [result]:
    the state is kept when it fails, as a Rust function with [&mut] arguments
    that returns early leaves what it has already written. *)

Definition sres (S A E : Type) : Type := S -> result A E * S.

Definition sret {S A E} (a : A) : sres S A E := fun s => (Ok a, s).
Definition serr {S A E} (e : E) : sres S A E := fun s => (Err e, s).
Definition sbind {S A B E} (m : sres S A E) (k : A -> sres S B E) : sres S B E :=
  fun s => match m s with
           | (Ok a, s') => k a s'
           | (Err e, s') => (Err e, s')
           end.

(** [prog S A] is a computation over a state [S] that may panic. *)

Definition prog (S A : Type) : Type := S -> outcome A * S.

Definition pret {S A} (a : A) : prog S A := fun s => (Ret a, s).
Definition ppanic {S A} : prog S A := fun s => (Panic, s).
Definition pbind {S A B} (m : prog S A) (k : A -> prog S B) : prog S B :=
  fun s => match m s with
           | (Ret a, s') => k a s'
           | (Panic, s') => (Panic, s')
           | (OutOfFuel, s') => (OutOfFuel, s')
           end.

(** Sequencing is associative. *)
Lemma pbind_assoc {S A B C} (m : prog S A) (k : A -> prog S B) (k' : B -> prog S C) (s : S) :
  pbind (pbind m k) k' s = pbind m (fun a => pbind (k a) k') s.
Proof. unfold pbind. by destruct (m s) as [[]]. Qed.

Declare Scope nfs_scope.
Delimit Scope nfs_scope with nfs.
Notation "'let*' x ':=' m 'in' k" := (sbind m (fun x => k))
  (at level 10, x pattern, m at level 100, k at level 200) : nfs_scope.
Notation "'do*' x ':=' m 'in' k" := (pbind m (fun x => k))
  (at level 10, x pattern, m at level 100, k at level 200) : nfs_scope.

(** The [?] operator on computations that return a [Result]. *)
Definition tbind {S A B E} (m : prog S (result A E)) (k : A -> prog S (result B E)) : prog S (result B E) :=
  pbind m (fun r => match r with Ok a => k a | Err e => pret (Err e) end).
Notation "'try*' x ':=' m 'in' k" := (tbind m (fun x => k))
  (at level 10, x pattern, m at level 100, k at level 200) : nfs_scope.

(** [Result::map_err] of what a computation returns. *)
Definition map_err {S A E F} (f : E -> F) (m : prog S (result A E)) : prog S (result A F) :=
  pbind m (fun r => pret (result_map_err f r)).

(** ** Machine integers *)

Definition u16_MAX : Z := 65535.
Definition u32_MAX : Z := 4294967295.
Definition u64_MAX : Z := 18446744073709551615.
(** The targets are 64-bit: [usize] is a [u64], [isize::MAX] is [2^63 - 1]. *)
Definition usize_MAX : Z := u64_MAX.
Definition isize_MAX : Z := 9223372036854775807.

Definition in_u16 (z : Z) : Prop := (0 <= z <= u16_MAX)%Z.
Definition in_u32 (z : Z) : Prop := (0 <= z <= u32_MAX)%Z.
Definition in_u64 (z : Z) : Prop := (0 <= z <= u64_MAX)%Z.

(** [len l] is the length of a slice or vector as an integer. *)
Definition len {A} (l : list A) : Z := Z.of_nat (length l).

Lemma len_nil {A} : len (@nil A) = 0%Z.
Proof. reflexivity. Qed.
Lemma len_cons {A} (x : A) l : len (x :: l) = (1 + len l)%Z.
Proof. unfold len. cbn [length]. lia. Qed.
Lemma len_app {A} (l1 l2 : list A) : len (l1 ++ l2) = (len l1 + len l2)%Z.
Proof. unfold len. rewrite length_app. lia. Qed.
Lemma len_nonneg {A} (l : list A) : (0 <= len l)%Z.
Proof. unfold len. lia. Qed.
Lemma len_replicate {A} n (x : A) : len (replicate n x) = Z.of_nat n.
Proof. unfold len. by rewrite length_replicate. Qed.
Lemma len_map {A B} (f : A -> B) l : len (map f l) = len l.
Proof. unfold len. by rewrite length_map. Qed.

Create Rewrite HintDb len.
#[export] Hint Rewrite @len_nil @len_cons @len_app @len_replicate @len_map : len.

(** ** Bytes and their integers *)

Definition Z_of_byte (b : byte) : Z := Z.of_N (Byte.to_N b).

Definition byte_of_Z (z : Z) : byte :=
  match Byte.of_N (Z.to_N (z mod 256)) with Some b => b | None => x00 end.

(** [to_le_bytes] / [from_le_bytes] for an [n]-byte unsigned integer. *)
Fixpoint to_le_bytes (n : nat) (z : Z) : list byte :=
  match n with
  | O => []
  | S n' => byte_of_Z z :: to_le_bytes n' (z / 256)
  end.

Fixpoint from_le_bytes (l : list byte) : Z :=
  match l with
  | [] => 0
  | b :: l' => Z_of_byte b + 256 * from_le_bytes l'
  end.

Definition to_be_bytes (n : nat) (z : Z) : list byte := rev (to_le_bytes n z).
Definition from_be_bytes (l : list byte) : Z := from_le_bytes (rev l).

#[export] Instance byte_eq_dec : EqDecision byte := Byte.byte_eq_dec.

Lemma Z_of_byte_range b : (0 <= Z_of_byte b < 256)%Z.
Proof.
  unfold Z_of_byte. pose proof (Byte.to_N_bounded b). lia.
Qed.

Lemma Z_of_byte_of_Z z : Z_of_byte (byte_of_Z z) = (z mod 256)%Z.
Proof.
  unfold byte_of_Z, Z_of_byte.
  pose proof (Z.mod_pos_bound z 256 eq_refl) as Hb.
  destruct (Byte.of_N (Z.to_N (z mod 256))) as [b|] eqn:E.
  - apply Byte.to_of_N in E. rewrite E, Z2N.id; lia.
  - apply Byte.of_N_None_iff in E. lia.
Qed.

Lemma byte_of_Z_of_byte b : byte_of_Z (Z_of_byte b) = b.
Proof.
  unfold byte_of_Z. rewrite Z.mod_small by apply Z_of_byte_range.
  unfold Z_of_byte. rewrite N2Z.id, Byte.of_to_N. reflexivity.
Qed.

Lemma length_to_le_bytes n z : length (to_le_bytes n z) = n.
Proof. revert z. induction n; intros; cbn; auto. Qed.

Lemma length_to_be_bytes n z : length (to_be_bytes n z) = n.
Proof. unfold to_be_bytes. by rewrite length_rev, length_to_le_bytes. Qed.

Lemma from_to_le_bytes n z :
  from_le_bytes (to_le_bytes n z) = (z mod 256 ^ Z.of_nat n)%Z.
Proof.
  revert z. induction n as [|n IH]; intros z.
  - cbn. by rewrite Z.mod_1_r.
  - cbn [to_le_bytes from_le_bytes]. rewrite Z_of_byte_of_Z, IH.
    rewrite Nat2Z.inj_succ, Z.pow_succ_r by lia.
    rewrite Z.rem_mul_r; [done|lia|]. apply Z.pow_pos_nonneg; lia.
Qed.

Lemma from_le_bytes_range l : (0 <= from_le_bytes l < 256 ^ len l)%Z.
Proof.
  induction l as [|b l IH]; [by vm_compute|].
  rewrite len_cons, Z.pow_add_r by (pose proof (len_nonneg l); lia).
  cbn [from_le_bytes]. rewrite Z.pow_1_r. pose proof (Z_of_byte_range b). nia.
Qed.

Lemma to_from_le_bytes l : to_le_bytes (length l) (from_le_bytes l) = l.
Proof.
  induction l as [|b l IH]; [done|]. cbn [length to_le_bytes from_le_bytes].
  pose proof (Z_of_byte_range b) as Hb. f_equal.
  - unfold byte_of_Z. rewrite Z.mul_comm, Z_mod_plus_full, Z.mod_small by lia.
    unfold Z_of_byte. by rewrite N2Z.id, Byte.of_to_N.
  - rewrite Z.mul_comm, Z.div_add, Z.div_small by lia. exact IH.
Qed.

Lemma from_to_be_bytes n z :
  from_be_bytes (to_be_bytes n z) = (z mod 256 ^ Z.of_nat n)%Z.
Proof. unfold from_be_bytes, to_be_bytes. by rewrite rev_involutive, from_to_le_bytes. Qed.

Lemma to_from_be_bytes l : to_be_bytes (length l) (from_be_bytes l) = l.
Proof.
  unfold from_be_bytes, to_be_bytes.
  rewrite <- (length_rev l), to_from_le_bytes. apply rev_involutive.
Qed.

Lemma from_be_bytes_range l : (0 <= from_be_bytes l < 256 ^ len l)%Z.
Proof.
  unfold from_be_bytes. pose proof (from_le_bytes_range (rev l)) as H.
  unfold len in *. by rewrite length_rev in H.
Qed.

Lemma u32_be_bytes z : in_u32 z -> from_be_bytes (to_be_bytes 4 z) = z.
Proof.
  unfold in_u32, u32_MAX. intros. rewrite from_to_be_bytes.
  apply Z.mod_small. change (256 ^ Z.of_nat 4)%Z with 4294967296%Z. lia.
Qed.

Lemma u64_be_bytes z : in_u64 z -> from_be_bytes (to_be_bytes 8 z) = z.
Proof.
  unfold in_u64, u64_MAX. intros. rewrite from_to_be_bytes.
  apply Z.mod_small. change (256 ^ Z.of_nat 8)%Z with 18446744073709551616%Z. lia.
Qed.

(** A byte string literal, as [b"..."] in the source. *)
Definition bytes_of_string (s : string) : list byte :=
  String.list_byte_of_string s.

(** ** Tactics *)

(** Open a hypothesis of the form [match x with ... end = v] by cases on [x]. *)
Ltac break_match_in H :=
  match type of H with
  | context [match ?x with _ => _ end] =>
      lazymatch x with
      | context [match _ with _ => _ end] => fail
      | _ => let E := fresh "E" in destruct x eqn:E; try discriminate H
      end
  end.
