(* ===== verification/Xdr.v ===== *)
(** * XDR codec: [nfs3_types::xdr_codec]

    Readers and writers over byte buffers, the two traits [Pack] and [Unpack]
    as the record [codec], the codecs of the primitive types
    ([primitives.rs], [opaque.rs], [list.rs], [void.rs]) and the bounded list
    used by the directory handlers.  [CodecOk] states what a codec promises to
    the rest of the development: packing writes exactly [packed_size] bytes,
    unpacking them gives the value back, and no unpacking reads more bytes than
    it reports. *)

From S2P Require Import Prelude.
Open Scope Z_scope.
Open Scope nfs_scope.

Abbreviation u32 := Z (only parsing).
Abbreviation u64 := Z (only parsing).
Abbreviation Opaque := (list byte) (only parsing).

(** ** Errors *)

(** [std::io::Error], the kinds the code tells apart. *)
Inductive io_error : Type :=
| UnexpectedEof
| AddrInUse
| AddrNotAvailable
| InvalidInput
| OtherIo.

(** [xdr_codec::Error]. *)
Inductive Error : Type :=
| Io (e : io_error)
| InvalidEnumValue (value : Z)
| InvalidLength (length : Z)
| ObjectTooLarge (size : Z).

#[export] Instance io_error_eq_dec : EqDecision io_error.
Proof. solve_decision. Defined.
#[export] Instance Error_eq_dec : EqDecision Error.
Proof. solve_decision. Defined.

(** ** The traits [Pack] and [Unpack]

    A writer appends to its output, a reader takes bytes from the front of its
    input; both keep what they did when they fail.  [valid] is not code: it is
    the set of values that a Rust value of the type can hold and that the type
    can pack. *)

Abbreviation writer A := (sres (list byte) A Error).
Abbreviation reader A := (sres (list byte) A Error).

Record codec (A : Type) : Type := Codec {
  packed_size : A -> Z;
  pack : A -> writer Z;
  unpack : reader (A * Z);
  valid : A -> Prop;
}.
Arguments Codec {A} _ _ _ _.
Arguments packed_size {A} _ _.
Arguments pack {A} _ _ _.
Arguments unpack {A} _ _.
Arguments valid {A} _ _.

(** [Write::write_all] on a growing buffer and [Read::read_exact] on a cursor. *)
Definition write_all (bs : list byte) : writer unit :=
  fun out => (Ok tt, out ++ bs).

Definition read_exact (n : Z) : reader (list byte) :=
  fun inp => if n <=? len inp
             then (Ok (take (Z.to_nat n) inp), drop (Z.to_nat n) inp)
             else (Err (Io UnexpectedEof), []).

(** ** Padding: [util.rs] *)

Definition add_padding (sz : Z) : Z := Z.land (sz + 3) (Z.lnot 3).
Definition get_padding (n : Z) : Z := Z.land (- n) 3.
Definition zero_padding (n : Z) : list byte := take (Z.to_nat (get_padding n)) [x00; x00; x00].

(** ** Primitive types: [primitives.rs] *)

Definition u32_codec : codec Z := {|
  packed_size _ := 4;
  pack v := let* _ := write_all (to_be_bytes 4 v) in sret 4;
  unpack := let* bytes := read_exact 4 in sret (from_be_bytes bytes, 4);
  valid := in_u32;
|}.

Definition u64_codec : codec Z := {|
  packed_size _ := 8;
  pack v := let* _ := write_all (to_be_bytes 8 v) in sret 8;
  unpack := let* bytes := read_exact 8 in sret (from_be_bytes bytes, 8);
  valid := in_u64;
|}.

Definition bool_codec : codec bool := {|
  packed_size _ := 4;
  pack (b : bool) := pack u32_codec (if b then 1 else 0);
  unpack := let* (val, bytes_read) := unpack u32_codec in
            match val with
            | 0 => sret (false, bytes_read)
            | 1 => sret (true, bytes_read)
            | _ => serr (InvalidEnumValue val)
            end;
  valid _ := True;
|}.

(** Read and drop the padding that follows [n] bytes; the number read. *)
Definition read_padding (n : Z) : reader Z :=
  let padding := get_padding n in
  if 0 <? padding then let* _ := read_exact padding in sret padding
  else sret 0.

(** [[u8; N]]. *)
Definition bytes_codec (N : Z) : codec (list byte) := {|
  packed_size _ := add_padding N;
  pack a :=
    let* _ := write_all a in
    let padding := zero_padding N in
    let* _ := write_all padding in
    sret (N + len padding);
  unpack :=
    let* buf := read_exact N in
    let* padding := read_padding N in
    sret (buf, N + padding);
  valid a := len a = N;
|}.

Fixpoint pack_u32s (items : list Z) : writer Z :=
  match items with
  | [] => sret 0
  | item :: rest =>
      let* n := pack u32_codec item in
      let* m := pack_u32s rest in
      sret (n + m)
  end.

Fixpoint unpack_u32s (count : nat) : reader (list Z * Z) :=
  match count with
  | O => sret ([], 0)
  | S count' =>
      let* (item, item_bytes) := unpack u32_codec in
      let* (rest, rest_bytes) := unpack_u32s count' in
      sret (item :: rest, item_bytes + rest_bytes)
  end.

(** [Vec<u32>]. *)
Definition vec_u32_codec : codec (list Z) := {|
  packed_size v := 4 + len v * 4;
  pack v :=
    if len v <=? u32_MAX then
      let* n := pack u32_codec (len v) in
      let* m := pack_u32s v in
      sret (n + m)
    else serr (ObjectTooLarge (len v));
  unpack :=
    let* (n, len_bytes) := unpack u32_codec in
    let* (v, item_bytes) := unpack_u32s (Z.to_nat n) in
    sret (v, len_bytes + item_bytes);
  valid v := len v <= u32_MAX /\ Forall in_u32 v;
|}.

(** ** [Opaque] *)

Definition opaque_codec : codec (list byte) := {|
  packed_size v := 4 + add_padding (len v);
  pack v :=
    if len v <=? u32_MAX then
      let* n := pack u32_codec (len v) in
      let* _ := write_all v in
      let padding := zero_padding (len v) in
      let* _ := write_all padding in
      sret (n + len v + len padding)
    else serr (ObjectTooLarge (len v));
  unpack :=
    let* (n, bytes_read) := unpack u32_codec in
    let* buf := read_exact n in
    let* padding := read_padding n in
    sret (buf, bytes_read + n + padding);
  valid v := len v <= u32_MAX;
|}.

(** ** [Void] *)

Definition void_codec : codec unit := {|
  packed_size _ := 0;
  pack _ := sret 0;
  unpack := sret (tt, 0);
  valid _ := True;
|}.

(** ** [List<T>]: [list.rs]

    Each item is preceded by [true], the list ends with [false].  The reading
    loop has no bound in the source; [list_unpack_loop] is given one more step
    than there are bytes, and every iteration reads four of them, so the bound
    is never what ends the loop ([list_unpack_fuel]). *)

Fixpoint list_packed_size {T} (c : codec T) (items : list T) : Z :=
  match items with
  | [] => packed_size bool_codec false
  | item :: rest =>
      packed_size bool_codec true + packed_size c item + list_packed_size c rest
  end.

Fixpoint list_pack {T} (c : codec T) (items : list T) : writer Z :=
  match items with
  | [] => pack bool_codec false
  | item :: rest =>
      let* n := pack bool_codec true in
      let* m := pack c item in
      let* k := list_pack c rest in
      sret (n + m + k)
  end.

Fixpoint list_unpack_loop {T} (c : codec T) (fuel : nat) : reader (list T * Z) :=
  match fuel with
  | O => serr (Io UnexpectedEof)
  | S fuel' =>
      let* (more, more_len) := unpack bool_codec in
      if (more : bool) then
        let* (item, item_len) := unpack c in
        let* (rest, rest_len) := list_unpack_loop c fuel' in
        sret (item :: rest, more_len + item_len + rest_len)
      else sret ([], more_len)
  end.

Definition list_unpack {T} (c : codec T) : reader (list T * Z) :=
  fun inp => list_unpack_loop c (S (length inp)) inp.

Definition list_codec {T} (c : codec T) : codec (list T) := {|
  packed_size := list_packed_size c;
  pack := list_pack c;
  unpack := list_unpack c;
  valid := Forall (valid c);
|}.

(** ** [BoundedList<T>] *)

Record BoundedList (T : Type) : Type := mkBoundedList {
  bl_list : list T;
  bl_current_size : Z;
  bl_max_size : Z;
}.
Arguments mkBoundedList {T} _ _ _.
Arguments bl_list {T} _.
Arguments bl_current_size {T} _.
Arguments bl_max_size {T} _.

Definition bounded_list_new {T} (c : codec T) (max_size : Z) : BoundedList T :=
  let list := [] in
  {| bl_list := list;
     bl_current_size := packed_size (list_codec c) list;
     bl_max_size := max_size |}.

Definition bounded_list_try_push {T} (c : codec T) (item : T) (l : BoundedList T)
  : result unit T * BoundedList T :=
  let item_size := packed_size c item + 4 in
  if bl_max_size l <? bl_current_size l + item_size then (Err item, l)
  else (Ok tt, {| bl_list := bl_list l ++ [item];
                  bl_current_size := bl_current_size l + item_size;
                  bl_max_size := bl_max_size l |}).

Definition bounded_list_into_inner {T} (l : BoundedList T) : list T := bl_list l.

(** ** The derive macro: [nfs3_macros::XdrCodec]

    [#[derive(XdrCodec)]] on a struct packs its fields in declaration order
    and adds up what each of them wrote.  A field list is a codec of nested
    pairs; [struct_codec] moves it along the struct's projections and
    constructor. *)

Definition no_fields : codec unit := {|
  packed_size _ := 0;
  pack _ := sret 0;
  unpack := sret (tt, 0);
  valid _ := True;
|}.

Definition field {A B} (c : codec A) (rest : codec B) : codec (A * B) := {|
  packed_size '(a, b) := packed_size c a + packed_size rest b;
  pack '(a, b) :=
    let* n := pack c a in
    let* m := pack rest b in
    sret (n + m);
  unpack :=
    let* (a, n) := unpack c in
    let* (b, m) := unpack rest in
    sret ((a, b), n + m);
  valid '(a, b) := valid c a /\ valid rest b;
|}.
Infix "&*" := field (at level 60, right associativity) : nfs_scope.

Definition struct_codec {A T} (fields : codec T) (to_fields : A -> T) (of_fields : T -> A) : codec A := {|
  packed_size a := packed_size fields (to_fields a);
  pack a := pack fields (to_fields a);
  unpack := let* (t, n) := unpack fields in sret (of_fields t, n);
  valid a := valid fields (to_fields a);
|}.

(** A simple enum (unit variants only) packs its discriminant as a [u32];
    unpacking tries the variants in order. *)
Definition simple_enum_codec {A} (as_u32 : A -> Z) (variants : list A) : codec A := {|
  packed_size _ := 4;
  pack a := pack u32_codec (as_u32 a);
  unpack :=
    let* (tag, bytes_read) := unpack u32_codec in
    match List.find (fun v => tag =? as_u32 v) variants with
    | Some v => sret (v, bytes_read)
    | None => serr (InvalidEnumValue tag)
    end;
  valid _ := True;
|}.

(** A complex enum packs the [#[xdr(tag)]] of the variant and then its payload
    (nothing for a unit variant).  The variants are nested sums. *)
Record enum_body (A : Type) : Type := EnumBody {
  eb_tags : list Z;
  eb_packed_size : A -> Z;
  eb_pack : A -> writer Z;
  eb_unpack : Z -> Z -> reader (A * Z);
  eb_valid : A -> Prop;
}.
Arguments EnumBody {A} _ _ _ _ _.
Arguments eb_tags {A} _.
Arguments eb_packed_size {A} _ _.
Arguments eb_pack {A} _ _ _.
Arguments eb_unpack {A} _ _ _ _.
Arguments eb_valid {A} _ _.

Definition no_variant : enum_body Empty_set := {|
  eb_tags := [];
  eb_packed_size (v : Empty_set) := match v with end;
  eb_pack (v : Empty_set) := match v with end;
  eb_unpack tag bytes_read := serr (InvalidEnumValue tag);
  eb_valid (v : Empty_set) := match v with end;
|}.

Definition variant {A B} (xdr_value : Z) (c : codec A) (rest : enum_body B)
  : enum_body (A + B) := {|
  eb_tags := xdr_value :: eb_tags rest;
  eb_packed_size v :=
    match v with
    | inl val => 4 + packed_size c val
    | inr v' => eb_packed_size rest v'
    end;
  eb_pack v :=
    match v with
    | inl val =>
        let* n := pack u32_codec xdr_value in
        let* m := pack c val in
        sret (n + m)
    | inr v' => eb_pack rest v'
    end;
  eb_unpack tag bytes_read :=
    if tag =? xdr_value then
      let* (val, val_bytes) := unpack c in
      sret (inl val, bytes_read + val_bytes)
    else let* (v, n) := eb_unpack rest tag bytes_read in sret (inr v, n);
  eb_valid v :=
    match v with
    | inl val => valid c val
    | inr v' => eb_valid rest v'
    end;
|}.

Definition complex_enum_codec {A T} (body : enum_body T) (to_fields : A -> T) (of_fields : T -> A)
  : codec A := {|
  packed_size a := eb_packed_size body (to_fields a);
  pack a := eb_pack body (to_fields a);
  unpack :=
    let* (tag, bytes_read) := unpack u32_codec in
    let* (t, n) := eb_unpack body tag bytes_read in
    sret (of_fields t, n);
  valid a := eb_valid body (to_fields a);
|}.
