(* ===== verification/XdrLaws.v ===== *)
(** * The laws of the XDR codecs

    [encodes c a bs]: packing [a] with [c] appends exactly [bs], and unpacking
    [bs] in front of anything gives [a] back.  [CodecOk] is the interface every
    codec of the crate meets; its instances follow the shape of the codecs, so
    that the codecs of the protocol types are discharged by instance search. *)

From S2P Require Import Prelude Xdr.
Open Scope Z_scope.
Open Scope nfs_scope.

Record encodes {A} (c : codec A) (a : A) (bs : list byte) : Prop := {
  enc_pack : forall out, pack c a out = (Ok (packed_size c a), out ++ bs);
  enc_size : len bs = packed_size c a;
  enc_unpack : forall rest, unpack c (bs ++ rest) = (Ok (a, packed_size c a), rest);
}.

(** Unpacking consumed a prefix of the input, as long as it reports, which is
    the packed size of what it returns. *)
Definition consumes {A} (c : codec A) : Prop :=
  forall inp a n rest,
    unpack c inp = (Ok (a, n), rest) ->
    n = packed_size c a /\ exists used, inp = used ++ rest /\ len used = n.

Class CodecOk {A} (c : codec A) : Prop := {
  codec_encodes : forall a, valid c a -> exists bs, encodes c a bs;
  codec_aligned : forall a, packed_size c a mod 4 = 0;
  codec_consumes : consumes c;
}.

(** What is unpacked can be packed again (every type but [mknoddata3]). *)
Class DecodesValid {A} (c : codec A) : Prop :=
  decodes_valid : forall inp a n rest, unpack c inp = (Ok (a, n), rest) -> valid c a.

(** The bytes [pack] produces on an empty buffer. *)
Definition to_bytes {A} (c : codec A) (a : A) : list byte := snd (pack c a []).

Create HintDb xdr discriminated.

(** ** Steps of the reader and writer monad *)

Lemma sbind_Ok {S A B E} (m : sres S A E) (k : A -> sres S B E) s b s' :
  sbind m k s = (Ok b, s') ->
  exists a s1, m s = (Ok a, s1) /\ k a s1 = (Ok b, s').
Proof.
  unfold sbind. destruct (m s) as [[a|e] s1]; intros H; [eauto|discriminate].
Qed.

Lemma sbind_run {S A B E} (m : sres S A E) (k : A -> sres S B E) s a s1 :
  m s = (Ok a, s1) -> sbind m k s = k a s1.
Proof. unfold sbind. by intros ->. Qed.

Lemma sret_Ok {S A E} (a b : A) (s s' : S) :
  @sret S A E a s = (Ok b, s') -> a = b /\ s = s'.
Proof. unfold sret. intros H. by simplify_eq. Qed.

(** Open a successful run of a [let*] chain. *)
Ltac step_in H :=
  lazymatch type of H with
  | sbind _ _ _ = (Ok _, _) =>
      let a := fresh "v" in let s := fresh "st" in let H1 := fresh "Hrun" in
      apply sbind_Ok in H; destruct H as (a & s & H1 & H);
      lazymatch type of a with (_ * _)%type => destruct a | _ => idtac end;
      cbn beta iota zeta in H
  | sret _ _ = (Ok _, _) =>
      let H1 := fresh "Heq" in apply sret_Ok in H; destruct H as [H1 H]; simplify_eq
  | serr _ _ = (Ok _, _) => discriminate H
  end.
Ltac steps_in H := repeat step_in H.

(** Close an equation between two finished runs, up to arithmetic on the count
    and reassociation of the buffer. *)
Ltac finish_run :=
  unfold sret; rewrite <- ?(assoc_L (++));
  apply f_equal2; [f_equal; first [lia | f_equal; lia] | try done].

Lemma read_exact_app bs rest : read_exact (len bs) (bs ++ rest) = (Ok bs, rest).
Proof.
  unfold read_exact. rewrite len_app.
  pose proof (len_nonneg rest). rewrite (proj2 (Z.leb_le _ _)) by lia.
  unfold len. rewrite Nat2Z.id. by rewrite take_app_length, drop_app_length.
Qed.

Lemma read_exact_app' n bs rest :
  len bs = n -> read_exact n (bs ++ rest) = (Ok bs, rest).
Proof. intros <-. apply read_exact_app. Qed.

Lemma read_exact_Ok n inp bs rest :
  0 <= n -> read_exact n inp = (Ok bs, rest) -> inp = bs ++ rest /\ len bs = n.
Proof.
  unfold read_exact. intros Hn. destruct (n <=? len inp) eqn:E; [|done].
  intros H. simplify_eq. rewrite take_drop. split; [done|].
  unfold len in *. rewrite length_take. lia.
Qed.

(** ** Padding *)

Lemma get_padding_mod n : get_padding n = (- n) mod 4.
Proof. unfold get_padding. change 3 with (Z.ones 2). by rewrite Z.land_ones. Qed.

Lemma get_padding_range n : 0 <= get_padding n < 4.
Proof. rewrite get_padding_mod. by apply Z.mod_pos_bound. Qed.

Lemma add_padding_div n : add_padding n = 4 * ((n + 3) / 4).
Proof.
  unfold add_padding. rewrite <- Z.ldiff_land.
  change 3 with (Z.ones 2) at 2. rewrite Z.ldiff_ones_r by lia.
  rewrite Z.shiftl_mul_pow2, Z.shiftr_div_pow2 by lia.
  change (2 ^ 2) with 4. lia.
Qed.

Lemma add_padding_get n : add_padding n = n + get_padding n.
Proof. rewrite add_padding_div, get_padding_mod. Z.to_euclidean_division_equations. lia. Qed.

Lemma add_padding_aligned n : add_padding n mod 4 = 0.
Proof. rewrite add_padding_div, Z.mul_comm. apply Z_mod_mult. Qed.

Lemma len_zero_padding n : len (zero_padding n) = get_padding n.
Proof.
  unfold zero_padding, len. pose proof (get_padding_range n).
  rewrite length_take. cbn [length]. lia.
Qed.

Lemma read_padding_app n rest :
  read_padding n (zero_padding n ++ rest) = (Ok (get_padding n), rest).
Proof.
  unfold read_padding. destruct (0 <? get_padding n) eqn:E.
  - unfold sbind. by rewrite read_exact_app' by apply len_zero_padding.
  - pose proof (get_padding_range n). unfold zero_padding.
    by replace (get_padding n) with 0 by lia.
Qed.

Lemma read_padding_Ok n inp k rest :
  read_padding n inp = (Ok k, rest) ->
  k = get_padding n /\ exists pad, inp = pad ++ rest /\ len pad = k.
Proof.
  unfold read_padding. pose proof (get_padding_range n).
  destruct (0 <? get_padding n) eqn:E; intros H'.
  - steps_in H'. apply read_exact_Ok in Hrun as [-> Hl]; [|lia]. cbn. eauto.
  - steps_in H'. split; [lia|]. by exists [].
Qed.

#[export] Hint Resolve add_padding_aligned : xdr.

(** ** Primitive codecs *)

Lemma len_to_be_bytes n z : len (to_be_bytes n z) = Z.of_nat n.
Proof. unfold len. by rewrite length_to_be_bytes. Qed.
#[export] Hint Rewrite len_to_be_bytes len_zero_padding : len.

Lemma u32_encodes z : in_u32 z -> encodes u32_codec z (to_be_bytes 4 z).
Proof.
  intros Hz. constructor; [done..|].
  intros rest. cbn [unpack u32_codec]. unfold sbind.
  rewrite read_exact_app' by apply len_to_be_bytes.
  unfold sret. by rewrite u32_be_bytes.
Qed.

Lemma u64_encodes z : in_u64 z -> encodes u64_codec z (to_be_bytes 8 z).
Proof.
  intros Hz. constructor; [done..|].
  intros rest. cbn [unpack u64_codec]. unfold sbind.
  rewrite read_exact_app' by apply len_to_be_bytes.
  unfold sret. by rewrite u64_be_bytes.
Qed.

#[export] Instance u32_codec_ok : CodecOk u32_codec.
Proof.
  constructor.
  - eauto using u32_encodes.
  - done.
  - intros inp v n rest H. cbn [unpack u32_codec] in H. steps_in H.
    apply read_exact_Ok in Hrun as [-> Hl]; [|lia]. cbn. eauto.
Qed.

#[export] Instance u32_decodes_valid : DecodesValid u32_codec.
Proof.
  intros inp v n rest H. cbn [unpack u32_codec] in H. steps_in H.
  apply read_exact_Ok in Hrun as [-> Hl]; [|lia].
  pose proof (from_be_bytes_range v0) as Hr. rewrite Hl in Hr.
  change (256 ^ 4) with 4294967296 in Hr. cbn. unfold in_u32, u32_MAX. lia.
Qed.

#[export] Instance u64_codec_ok : CodecOk u64_codec.
Proof.
  constructor.
  - eauto using u64_encodes.
  - done.
  - intros inp v n rest H. cbn [unpack u64_codec] in H. steps_in H.
    apply read_exact_Ok in Hrun as [-> Hl]; [|lia]. cbn. eauto.
Qed.

#[export] Instance u64_decodes_valid : DecodesValid u64_codec.
Proof.
  intros inp v n rest H. cbn [unpack u64_codec] in H. steps_in H.
  apply read_exact_Ok in Hrun as [-> Hl]; [|lia].
  pose proof (from_be_bytes_range v0) as Hr. rewrite Hl in Hr.
  change (256 ^ 8) with 18446744073709551616 in Hr. cbn. unfold in_u64, u64_MAX. lia.
Qed.

(** Facts about a codec used as a step of a larger one. *)
Lemma codec_size_nonneg {A} (c : codec A) a bs : encodes c a bs -> 0 <= packed_size c a.
Proof. intros H. rewrite <- (enc_size _ _ _ H). apply len_nonneg. Qed.

Lemma u32_unpack_be z rest :
  in_u32 z -> unpack u32_codec (to_be_bytes 4 z ++ rest) = (Ok (z, 4), rest).
Proof. intros Hz. apply (enc_unpack _ _ _ (u32_encodes z Hz)). Qed.

Lemma u32_pack z out : pack u32_codec z out = (Ok 4, out ++ to_be_bytes 4 z).
Proof. done. Qed.

#[export] Instance bool_codec_ok : CodecOk bool_codec.
Proof.
  constructor.
  - intros b _. exists (to_be_bytes 4 (if b then 1 else 0)). constructor; [done..|].
    intros rest. cbn [unpack bool_codec]. unfold sbind.
    rewrite u32_unpack_be by (destruct b; unfold in_u32, u32_MAX; lia).
    by destruct b.
  - done.
  - intros inp b n rest H. cbn [unpack bool_codec] in H. steps_in H.
    apply codec_consumes in Hrun as [-> ?]. cbn in *.
    destruct z as [|[| |]|]; steps_in H; eauto.
Qed.

#[export] Instance bool_decodes_valid : DecodesValid bool_codec.
Proof. by intros ????. Qed.

Lemma bytes_encodes N v :
  len v = N -> encodes (bytes_codec N) v (v ++ zero_padding N).
Proof.
  intros Hv. pose proof (len_nonneg v).
  constructor; cbn [pack unpack packed_size bytes_codec].
  - intros out. unfold sbind, write_all, sret.
    by rewrite len_zero_padding, add_padding_get, (assoc_L (++)).
  - autorewrite with len. rewrite add_padding_get. lia.
  - intros rest. unfold sbind. rewrite <- (assoc_L (++)), read_exact_app' by done.
    rewrite read_padding_app. unfold sret. by rewrite add_padding_get.
Qed.

Lemma bytes_codec_ok N : 0 <= N -> CodecOk (bytes_codec N).
Proof.
  intros HN. constructor.
  - intros v Hv. eauto using bytes_encodes.
  - intros. apply add_padding_aligned.
  - intros inp v n rest H. cbn [unpack packed_size bytes_codec] in *. steps_in H.
    apply read_exact_Ok in Hrun as [-> Hl]; [|lia].
    apply read_padding_Ok in Hrun0 as [-> (pad & -> & Hpad)].
    split; [symmetry; apply add_padding_get|].
    exists (v ++ pad). rewrite (assoc_L (++)). by autorewrite with len; rewrite Hl, Hpad.
Qed.

#[export] Instance bytes8_codec_ok : CodecOk (bytes_codec 8).
Proof. by apply bytes_codec_ok. Qed.

#[export] Instance bytes8_decodes_valid : DecodesValid (bytes_codec 8).
Proof.
  intros inp v n rest H. cbn [unpack bytes_codec] in *. steps_in H.
  by apply read_exact_Ok in Hrun as [-> Hl].
Qed.

#[export] Instance void_codec_ok : CodecOk void_codec.
Proof.
  constructor; [|done|].
  - intros [] _. exists []. constructor; [|done..].
    intros out. cbn. by rewrite app_nil_r.
  - intros inp [] n rest H. cbn [unpack void_codec] in H. steps_in H.
    split; [done|]. by exists [].
Qed.

#[export] Instance void_decodes_valid : DecodesValid void_codec.
Proof. by intros ????. Qed.

(** ** [Opaque] and [Vec<u32>] *)

Lemma opaque_encodes v :
  len v <= u32_MAX ->
  encodes opaque_codec v (to_be_bytes 4 (len v) ++ v ++ zero_padding (len v)).
Proof.
  intros Hv. pose proof (len_nonneg v).
  assert (in_u32 (len v)) as Hu by (unfold in_u32; lia).
  constructor; cbn [pack unpack packed_size opaque_codec].
  - intros out. rewrite (proj2 (Z.leb_le _ _)) by done.
    unfold sbind. rewrite u32_pack. unfold write_all.
    rewrite len_zero_padding, add_padding_get. finish_run.
  - autorewrite with len. rewrite add_padding_get. lia.
  - intros rest. unfold sbind. rewrite <- !(assoc_L (++)).
    rewrite u32_unpack_be by done. rewrite read_exact_app.
    rewrite read_padding_app, add_padding_get. finish_run.
Qed.

#[export] Instance opaque_codec_ok : CodecOk opaque_codec.
Proof.
  constructor.
  - intros v Hv. eauto using opaque_encodes.
  - intros v. cbn. rewrite <- Z.add_mod_idemp_r by done. by rewrite add_padding_aligned.
  - intros inp v n rest H. cbn [unpack packed_size opaque_codec] in *. steps_in H.
    pose proof (decodes_valid _ _ _ _ Hrun) as Hr. cbn in Hr. unfold in_u32 in Hr.
    apply codec_consumes in Hrun as [-> (u & -> & Hu)]. cbn in Hu.
    apply read_exact_Ok in Hrun0 as [-> Hl]; [|lia].
    apply read_padding_Ok in Hrun1 as [-> (pad & -> & Hpad)].
    rewrite Hl, add_padding_get. cbn [packed_size u32_codec].
    split; [lia|]. exists (u ++ v ++ pad). rewrite <- !(assoc_L (++)).
    split; [done|]. autorewrite with len. lia.
Qed.

#[export] Instance opaque_decodes_valid : DecodesValid opaque_codec.
Proof.
  intros inp v n rest H. cbn [unpack opaque_codec] in *. steps_in H.
  pose proof (decodes_valid _ _ _ _ Hrun) as Hr. cbn in *. unfold in_u32 in Hr.
  apply read_exact_Ok in Hrun0 as [-> Hl]; lia.
Qed.

Lemma u32s_encode v :
  Forall in_u32 v ->
  exists bs, len bs = 4 * len v /\
    (forall out, pack_u32s v out = (Ok (4 * len v), out ++ bs)) /\
    (forall rest, unpack_u32s (length v) (bs ++ rest) = (Ok (v, 4 * len v), rest)).
Proof.
  induction 1 as [|z v Hz Hv (bs & Hl & Hp & Hu)].
  - exists []. split_and!; [done| |done]. intros out. cbn. by rewrite app_nil_r.
  - exists (to_be_bytes 4 z ++ bs). autorewrite with len. split_and!; [lia|..].
    + intros out. cbn [pack_u32s]. unfold sbind. rewrite u32_pack, Hp.
      finish_run.
    + intros rest. cbn [unpack_u32s length]. unfold sbind.
      rewrite <- (assoc_L (++)), u32_unpack_be, Hu by done.
      finish_run.
Qed.

Lemma unpack_u32s_Ok k inp v n rest :
  unpack_u32s k inp = (Ok (v, n), rest) ->
  length v = k /\ n = 4 * len v /\ Forall in_u32 v /\
  exists used, inp = used ++ rest /\ len used = n.
Proof.
  revert inp v n rest. induction k as [|k IH]; intros inp v n rest H; cbn [unpack_u32s] in H.
  - steps_in H. split_and!; [done..|constructor|]. by exists [].
  - steps_in H. pose proof (decodes_valid _ _ _ _ Hrun) as Hr.
    apply codec_consumes in Hrun as [-> (u & -> & Hu)].
    apply IH in Hrun0 as (Hlen & -> & Hf & u' & -> & Hu').
    cbn [length]. autorewrite with len. cbn [packed_size u32_codec] in *.
    split_and!; [by rewrite Hlen|lia|by constructor|].
    exists (u ++ u'). rewrite <- (assoc_L (++)). split; [done|]. autorewrite with len. lia.
Qed.

#[export] Instance vec_u32_codec_ok : CodecOk vec_u32_codec.
Proof.
  constructor.
  - intros v [Hv Hf]. pose proof (len_nonneg v).
    assert (in_u32 (len v)) as Hu by (unfold in_u32; lia).
    destruct (u32s_encode v Hf) as (bs & Hl & Hp & Hr).
    exists (to_be_bytes 4 (len v) ++ bs).
    constructor; cbn [pack unpack packed_size vec_u32_codec].
    + intros out. rewrite (proj2 (Z.leb_le _ _)) by done. unfold sbind.
      rewrite u32_pack, Hp. finish_run.
    + autorewrite with len. lia.
    + intros rest. unfold sbind. rewrite <- (assoc_L (++)), u32_unpack_be by done.
      rewrite (Nat2Z.id (length v) : Z.to_nat (len v) = _), Hr.
      finish_run.
  - intros v. cbn [packed_size vec_u32_codec].
    replace (4 + len v * 4) with ((1 + len v) * 4) by lia. apply Z_mod_mult.
  - intros inp v n rest H. cbn [unpack packed_size vec_u32_codec] in *. steps_in H.
    apply codec_consumes in Hrun as [-> (u & -> & Hu)].
    apply unpack_u32s_Ok in Hrun0 as (Hlen & -> & Hf & u' & -> & Hu').
    cbn [packed_size u32_codec] in *. split; [lia|].
    exists (u ++ u'). rewrite <- (assoc_L (++)). split; [done|]. autorewrite with len. lia.
Qed.

#[export] Instance vec_u32_decodes_valid : DecodesValid vec_u32_codec.
Proof.
  intros inp v n rest H. cbn [unpack vec_u32_codec] in *. steps_in H.
  pose proof (decodes_valid _ _ _ _ Hrun) as Hr. cbn in Hr. unfold in_u32 in Hr.
  apply unpack_u32s_Ok in Hrun0 as (Hlen & -> & Hf & _).
  cbn. split; [unfold len; lia|done].
Qed.

(** ** [List<T>] *)

Section list_laws.
Context {T : Type} (c : codec T) `{!CodecOk c}.

Lemma bool_run (b : bool) rest :
  unpack bool_codec (to_be_bytes 4 (if b then 1 else 0) ++ rest) = (Ok (b, 4), rest).
Proof.
  cbn [unpack bool_codec]. unfold sbind.
  rewrite u32_unpack_be by (destruct b; unfold in_u32, u32_MAX; lia).
  by destruct b.
Qed.

Lemma bool_pack (b : bool) out :
  pack bool_codec b out = (Ok 4, out ++ to_be_bytes 4 (if b then 1 else 0)).
Proof. done. Qed.

Lemma list_encodes_run items :
  Forall (valid c) items ->
  exists bs, len bs = list_packed_size c items /\
    (length items <= length bs)%nat /\
    (forall out, list_pack c items out = (Ok (list_packed_size c items), out ++ bs)) /\
    (forall fuel rest, (length items < fuel)%nat ->
       list_unpack_loop c fuel (bs ++ rest) = (Ok (items, list_packed_size c items), rest)).
Proof.
  induction 1 as [|a items Ha _ (bs & Hl & Hn & Hp & Hu)].
  - exists (to_be_bytes 4 0). split_and!; [done|cbn; lia|done|].
    intros fuel rest Hf. destruct fuel; [cbn in Hf; lia|]. cbn [list_unpack_loop].
    unfold sbind. by rewrite (bool_run false).
  - destruct (codec_encodes a Ha) as [abs Habs].
    pose proof (codec_size_nonneg _ _ _ Habs). pose proof (enc_size _ _ _ Habs) as Hs.
    exists (to_be_bytes 4 1 ++ abs ++ bs). cbn [list_packed_size packed_size bool_codec].
    split_and!.
    + autorewrite with len. lia.
    + rewrite !length_app, length_to_be_bytes. cbn [length]. lia.
    + intros out. cbn [list_pack]. unfold sbind.
      rewrite (bool_pack true), (enc_pack _ _ _ Habs), Hp. finish_run.
    + intros fuel rest Hf. destruct fuel; [cbn in Hf; lia|]. cbn [list_unpack_loop].
      unfold sbind. rewrite <- !(assoc_L (++)), (bool_run true).
      rewrite (enc_unpack _ _ _ Habs), Hu by (cbn in Hf; lia). finish_run.
Qed.

Lemma list_unpack_loop_Ok fuel inp items n rest :
  list_unpack_loop c fuel inp = (Ok (items, n), rest) ->
  n = list_packed_size c items /\ exists used, inp = used ++ rest /\ len used = n.
Proof.
  revert inp items n rest. induction fuel as [|fuel IH]; intros inp items n rest H;
    cbn [list_unpack_loop] in H; [discriminate H|].
  step_in H. apply codec_consumes in Hrun as [-> (u & -> & Hu)].
  destruct b; steps_in H.
  - apply codec_consumes in Hrun as [-> (u' & -> & Hu')].
    apply IH in Hrun0 as (-> & u'' & -> & Hu''). cbn [list_packed_size packed_size bool_codec] in *.
    split; [lia|]. exists (u ++ u' ++ u''). rewrite <- !(assoc_L (++)).
    split; [done|]. autorewrite with len. lia.
  - cbn in *. eauto.
Qed.

(** The loop consumes four bytes per iteration: any fuel above the number of
    bytes gives the same run, so the bound is not observable. *)
Lemma list_unpack_fuel fuel inp :
  (length inp < fuel)%nat -> list_unpack_loop c fuel inp = list_unpack c inp.
Proof.
  unfold list_unpack. intros Hf.
  assert (forall f1 f2 (i : list byte), (length i < f1)%nat -> (length i < f2)%nat ->
            list_unpack_loop c f1 i = list_unpack_loop c f2 i) as Hind; [|apply Hind; lia].
  clear fuel inp Hf. intros f1. induction f1 as [|f1 IH]; intros f2 i H1 H2; [lia|].
  destruct f2 as [|f2]; [lia|]. cbn [list_unpack_loop]. unfold sbind at 1 4.
  destruct (unpack bool_codec i) as [[[more k]|e] i1] eqn:E1; [|done].
  apply codec_consumes in E1 as [-> (u & -> & Hu)].
  destruct more; [|done]. unfold sbind at 1 3.
  destruct (unpack c i1) as [[[a m]|e] i2] eqn:E2; [|done].
  apply codec_consumes in E2 as [-> (u' & -> & Hu')].
  unfold sbind. cbn in Hu. unfold len in Hu. rewrite !length_app in *.
  rewrite (IH f2) by lia. done.
Qed.

#[export] Instance list_codec_ok : CodecOk (list_codec c).
Proof.
  constructor.
  - intros items Hv. destruct (list_encodes_run items Hv) as (bs & Hl & Hn & Hp & Hu).
    exists bs. constructor; [done..|]. intros rest. cbn [unpack list_codec].
    unfold list_unpack. apply Hu. rewrite length_app. lia.
  - intros items. cbn [packed_size list_codec].
    induction items as [|a items IH]; [done|].
    cbn [list_packed_size packed_size bool_codec].
    pose proof (codec_aligned (c := c) a). Z.to_euclidean_division_equations. lia.
  - intros inp items n rest H. by apply list_unpack_loop_Ok in H.
Qed.

#[export] Instance list_decodes_valid : DecodesValid c -> DecodesValid (list_codec c).
Proof.
  intros Hc inp items n rest H. cbn [unpack valid list_codec] in *. unfold list_unpack in H.
  revert H. generalize (S (length inp)) as fuel. intros fuel.
  revert inp items n rest. induction fuel as [|fuel IH]; intros inp items n rest H;
    cbn [list_unpack_loop] in H; [discriminate H|].
  step_in H. destruct b; steps_in H; constructor; eauto.
Qed.
End list_laws.

(** ** The derived codecs *)

(** [to_fields] and [of_fields] are inverse to each other. *)
Class FieldIso {A T} (to_fields : A -> T) (of_fields : T -> A) : Prop := {
  of_to_fields : forall a, of_fields (to_fields a) = a;
  to_of_fields : forall t, to_fields (of_fields t) = t;
}.

Arguments of_to_fields {A T} to_fields of_fields {_} a.
Arguments to_of_fields {A T} to_fields of_fields {_} t.

#[export] Hint Extern 1 (FieldIso _ _) =>
  constructor;
  [ let a := fresh in intros a; destruct a; done
  | let t := fresh in intros t;
    repeat match goal with x : (_ * _)%type |- _ => destruct x
                         | x : (_ + _)%type |- _ => destruct x
                         | x : unit |- _ => destruct x
                         | x : Empty_set |- _ => destruct x end; done ] : typeclass_instances.

#[export] Instance no_fields_ok : CodecOk no_fields.
Proof.
  constructor; [|done|].
  - intros [] _. exists []. constructor; [|done..]. intros out. cbn. by rewrite app_nil_r.
  - intros inp [] n rest H. cbn [unpack no_fields] in H. steps_in H.
    split; [done|]. by exists [].
Qed.
#[export] Instance no_fields_decodes : DecodesValid no_fields.
Proof. by intros ????. Qed.

Section derive_laws.
Context {A B T : Type}.

#[export] Instance field_ok (c : codec A) (rest : codec B) :
  CodecOk c -> CodecOk rest -> CodecOk (c &* rest).
Proof.
  intros Hc Hrest. constructor.
  - intros [a b] [Ha Hb]. destruct (codec_encodes a Ha) as [bs1 H1].
    destruct (codec_encodes b Hb) as [bs2 H2]. exists (bs1 ++ bs2).
    constructor; cbn [pack unpack packed_size field].
    + intros out. unfold sbind. rewrite (enc_pack _ _ _ H1), (enc_pack _ _ _ H2). finish_run.
    + autorewrite with len. by rewrite (enc_size _ _ _ H1), (enc_size _ _ _ H2).
    + intros r. unfold sbind.
      rewrite <- (assoc_L (++)), (enc_unpack _ _ _ H1), (enc_unpack _ _ _ H2). done.
  - intros [a b]. cbn. pose proof (codec_aligned (c := c) a).
    pose proof (codec_aligned (c := rest) b). Z.to_euclidean_division_equations. lia.
  - intros inp [a b] n r H. cbn [unpack packed_size field] in *. steps_in H.
    apply codec_consumes in Hrun as [-> (u & -> & Hu)].
    apply codec_consumes in Hrun0 as [-> (u' & -> & Hu')].
    split; [done|]. exists (u ++ u'). rewrite (assoc_L (++)). split; [done|].
    autorewrite with len. lia.
Qed.

#[export] Instance field_decodes (c : codec A) (rest : codec B) :
  DecodesValid c -> DecodesValid rest -> DecodesValid (c &* rest).
Proof.
  intros Hc Hrest inp [a b] n r H. cbn [unpack field] in H. steps_in H.
  split; eauto using decodes_valid.
Qed.

#[export] Instance struct_codec_ok (fields : codec T) (to_fields : A -> T) (of_fields : T -> A) :
  CodecOk fields -> FieldIso to_fields of_fields ->
  CodecOk (struct_codec fields to_fields of_fields).
Proof.
  intros Hf Hiso. constructor.
  - intros a Ha. destruct (codec_encodes (to_fields a) Ha) as [bs H]. exists bs.
    constructor; cbn [pack unpack packed_size struct_codec]; [apply H|apply H|].
    intros r. unfold sbind. rewrite (enc_unpack _ _ _ H). unfold sret. by rewrite (of_to_fields to_fields of_fields).
  - intros a. apply (codec_aligned (c := fields)).
  - intros inp a n r H. cbn [unpack packed_size struct_codec] in *. steps_in H.
    rewrite (to_of_fields to_fields of_fields). by apply codec_consumes in Hrun.
Qed.

#[export] Instance struct_decodes (fields : codec T) (to_fields : A -> T) (of_fields : T -> A) :
  DecodesValid fields -> FieldIso to_fields of_fields ->
  DecodesValid (struct_codec fields to_fields of_fields).
Proof.
  intros Hf Hiso inp a n r H. cbn [unpack valid struct_codec] in *. steps_in H.
  rewrite (to_of_fields to_fields of_fields). eauto using decodes_valid.
Qed.
End derive_laws.

(** A simple enum: each variant is found under its own discriminant. *)
Class SimpleEnum {A} (as_u32 : A -> Z) (variants : list A) : Prop := {
  se_u32 : forall a, in_u32 (as_u32 a);
  se_find : forall a, List.find (fun v => as_u32 a =? as_u32 v) variants = Some a;
}.

#[export] Hint Extern 1 (SimpleEnum _ _) =>
  constructor;
  [ let a := fresh in intros a; destruct a; unfold in_u32, u32_MAX; cbn; lia
  | let a := fresh in intros a; destruct a; reflexivity ] : typeclass_instances.

#[export] Instance simple_enum_ok {A} (as_u32 : A -> Z) variants :
  SimpleEnum as_u32 variants -> CodecOk (simple_enum_codec as_u32 variants).
Proof.
  intros Hse. constructor; [|done|].
  - intros a _. exists (to_be_bytes 4 (as_u32 a)). constructor; [done..|].
    intros r. cbn [unpack simple_enum_codec]. unfold sbind.
    rewrite u32_unpack_be by apply se_u32. by rewrite se_find.
  - intros inp a n r H. cbn [unpack packed_size simple_enum_codec] in *. steps_in H.
    destruct (List.find _ _); steps_in H. by apply codec_consumes in Hrun.
Qed.

#[export] Instance simple_enum_decodes {A} (as_u32 : A -> Z) variants :
  DecodesValid (simple_enum_codec as_u32 variants).
Proof. by intros ????. Qed.

(** A complex enum. *)
Class EnumBodyOk {A} (body : enum_body A) : Prop := {
  eb_encodes : forall a, eb_valid body a -> exists tag bs,
      tag ∈ eb_tags body /\ in_u32 tag /\ 4 + len bs = eb_packed_size body a /\
      (forall out, eb_pack body a out =
         (Ok (eb_packed_size body a), out ++ to_be_bytes 4 tag ++ bs)) /\
      (forall r, eb_unpack body tag 4 (bs ++ r) = (Ok (a, eb_packed_size body a), r));
  eb_aligned : forall a, eb_packed_size body a mod 4 = 0;
  eb_consumes : forall tag inp a n r,
      eb_unpack body tag 4 inp = (Ok (a, n), r) ->
      n = eb_packed_size body a /\ exists used, inp = used ++ r /\ 4 + len used = n;
}.

Class EnumBodyDecodes {A} (body : enum_body A) : Prop :=
  eb_decodes : forall tag k inp a n r,
    eb_unpack body tag k inp = (Ok (a, n), r) -> eb_valid body a.

(** The tags of an enum are distinct [u32]s. *)
Class FreshTag (tag : Z) (tags : list Z) : Prop := {
  fresh_u32 : in_u32 tag;
  fresh_not_in : tag ∉ tags;
}.
#[export] Hint Extern 1 (FreshTag _ _) =>
  constructor; [unfold in_u32, u32_MAX; lia | by apply (bool_decide_unpack _); vm_compute]
  : typeclass_instances.

#[export] Instance no_variant_ok : EnumBodyOk no_variant.
Proof. constructor; [intros []|intros []|by intros ? ? []]. Qed.
#[export] Instance no_variant_decodes : EnumBodyDecodes no_variant.
Proof. by intros ? ? ? []. Qed.

#[export] Instance variant_ok {A B} tag (c : codec A) (rest : enum_body B) :
  FreshTag tag (eb_tags rest) -> CodecOk c -> EnumBodyOk rest ->
  EnumBodyOk (variant tag c rest).
Proof.
  intros Ht Hc Hrest. constructor.
  - intros [a|b] Hv; cbn in Hv.
    + destruct (codec_encodes a Hv) as [bs H]. exists tag, bs.
      cbn [eb_tags eb_packed_size eb_pack eb_unpack variant].
      rewrite (enc_size _ _ _ H). split_and!; [left|apply fresh_u32|done|..].
      * intros out. unfold sbind. rewrite u32_pack, (enc_pack _ _ _ H). finish_run.
      * intros r. rewrite Z.eqb_refl. unfold sbind. by rewrite (enc_unpack _ _ _ H).
    + destruct (eb_encodes b Hv) as (t & bs & Hin & Hu & Hl & Hp & Hr). exists t, bs.
      cbn [eb_tags eb_packed_size eb_pack eb_unpack variant].
      split_and!; [by right|done..|]. intros r.
      pose proof (fresh_not_in (tag := tag)) as Hnot.
      destruct (t =? tag) eqn:E; [|unfold sbind; by rewrite Hr].
      apply Z.eqb_eq in E as ->. by destruct (Hnot Hin).
  - intros [a|b]; cbn; [|apply eb_aligned].
    pose proof (codec_aligned (c := c) a). Z.to_euclidean_division_equations. lia.
  - intros t inp [a|b] n r H; cbn [eb_unpack eb_packed_size variant] in *;
      destruct (t =? tag); steps_in H.
    + apply codec_consumes in Hrun as [-> (u & -> & Hu)].
      split; [done|]. exists u. split; [done|lia].
    + by apply eb_consumes in Hrun.
Qed.

#[export] Instance variant_decodes {A B} tag (c : codec A) (rest : enum_body B) :
  DecodesValid c -> EnumBodyDecodes rest -> EnumBodyDecodes (variant tag c rest).
Proof.
  intros Hc Hrest t k inp [a|b] n r H; cbn [eb_unpack eb_valid variant] in *;
    destruct (t =? tag); steps_in H; eauto using decodes_valid, eb_decodes.
Qed.

#[export] Instance complex_enum_ok {A T} (body : enum_body T) (to_fields : A -> T) of_fields :
  EnumBodyOk body -> FieldIso to_fields of_fields ->
  CodecOk (complex_enum_codec body to_fields of_fields).
Proof.
  intros Hb Hiso. constructor.
  - intros a Hv. destruct (eb_encodes (to_fields a) Hv) as (t & bs & Hin & Hu & Hl & Hp & Hr).
    exists (to_be_bytes 4 t ++ bs).
    constructor; cbn [pack unpack packed_size complex_enum_codec]; [done|..].
    + autorewrite with len. lia.
    + intros r. unfold sbind. rewrite <- (assoc_L (++)), u32_unpack_be, Hr by done.
      unfold sret. by rewrite (of_to_fields to_fields of_fields).
  - intros a. apply (eb_aligned (body := body)).
  - intros inp a n r H. cbn [unpack packed_size complex_enum_codec] in *. steps_in H.
    rewrite (to_of_fields to_fields of_fields). apply codec_consumes in Hrun as [-> (u & -> & Hu)].
    apply eb_consumes in Hrun0 as [-> (u' & -> & Hu')].
    split; [done|]. exists (u ++ u'). rewrite (assoc_L (++)). split; [done|].
    autorewrite with len. cbn in Hu. lia.
Qed.

#[export] Instance complex_enum_decodes {A T} (body : enum_body T) (to_fields : A -> T) of_fields :
  EnumBodyDecodes body -> FieldIso to_fields of_fields ->
  DecodesValid (complex_enum_codec body to_fields of_fields).
Proof.
  intros Hb Hiso inp a n r H. cbn [unpack valid complex_enum_codec] in *. steps_in H.
  rewrite (to_of_fields to_fields of_fields). eauto using eb_decodes.
Qed.
