(* ===== verification/Nfs3Types.v ===== *)
(** * NFSv3 protocol types: [nfs3_types::nfs3]

    Every struct and enum of [nfs3.rs] with its codec.  Struct [S] with field
    [f] is the record [S] with projection [S_f]; its derived codec [S_codec]
    lists the fields in declaration order.  Enum variants keep their names,
    prefixed where two enums share them ([createmode3_], [atime_], [mtime_],
    [mknod_]).  Integer fields are [Z] and their width is the one of the codec;
    newtypes over [Opaque] and byte arrays are their bytes; [Nfs3Option] is
    [option].  The [CodecOk] instance of each codec comes right after it. *)

From S2P Require Import Prelude Xdr XdrLaws.
Open Scope Z_scope.
Open Scope nfs_scope.

Abbreviation cookie3 := u64 (only parsing).
Abbreviation count3 := u32 (only parsing).
Abbreviation fileid3 := u64 (only parsing).
Abbreviation gid3 := u32 (only parsing).
Abbreviation mode3 := u32 (only parsing).
Abbreviation offset3 := u64 (only parsing).
Abbreviation size3 := u64 (only parsing).
Abbreviation uid3 := u32 (only parsing).

(** ** Constants *)

Definition NFS3_PROGRAM : u32 := 100003.
Definition NFS3_VERSION : u32 := 3.
Definition ACCESS3_READ : u32 := 1.
Definition ACCESS3_LOOKUP : u32 := 2.
Definition ACCESS3_MODIFY : u32 := 4.
Definition ACCESS3_EXTEND : u32 := 8.
Definition ACCESS3_DELETE : u32 := 16.
Definition ACCESS3_EXECUTE : u32 := 32.
Definition FSF3_LINK : u32 := 1.
Definition FSF3_SYMLINK : u32 := 2.
Definition FSF3_HOMOGENEOUS : u32 := 8.
Definition FSF3_CANSETTIME : u32 := 16.
Definition NFS3_COOKIEVERFSIZE : Z := 8.
Definition NFS3_CREATEVERFSIZE : Z := 8.
Definition NFS3_FHSIZE : Z := 64.
Definition NFS3_WRITEVERFSIZE : Z := 8.

(** ** Status codes *)

Inductive nfsstat3 : Type :=
| NFS3_OK
| NFS3ERR_PERM
| NFS3ERR_NOENT
| NFS3ERR_IO
| NFS3ERR_NXIO
| NFS3ERR_ACCES
| NFS3ERR_EXIST
| NFS3ERR_XDEV
| NFS3ERR_NODEV
| NFS3ERR_NOTDIR
| NFS3ERR_ISDIR
| NFS3ERR_INVAL
| NFS3ERR_FBIG
| NFS3ERR_NOSPC
| NFS3ERR_ROFS
| NFS3ERR_MLINK
| NFS3ERR_NAMETOOLONG
| NFS3ERR_NOTEMPTY
| NFS3ERR_DQUOT
| NFS3ERR_STALE
| NFS3ERR_REMOTE
| NFS3ERR_BADHANDLE
| NFS3ERR_NOT_SYNC
| NFS3ERR_BAD_COOKIE
| NFS3ERR_NOTSUPP
| NFS3ERR_TOOSMALL
| NFS3ERR_SERVERFAULT
| NFS3ERR_BADTYPE
| NFS3ERR_JUKEBOX.
Definition nfsstat3_as_u32 (v : nfsstat3) : u32 :=
  match v with
  | NFS3_OK => 0
  | NFS3ERR_PERM => 1
  | NFS3ERR_NOENT => 2
  | NFS3ERR_IO => 5
  | NFS3ERR_NXIO => 6
  | NFS3ERR_ACCES => 13
  | NFS3ERR_EXIST => 17
  | NFS3ERR_XDEV => 18
  | NFS3ERR_NODEV => 19
  | NFS3ERR_NOTDIR => 20
  | NFS3ERR_ISDIR => 21
  | NFS3ERR_INVAL => 22
  | NFS3ERR_FBIG => 27
  | NFS3ERR_NOSPC => 28
  | NFS3ERR_ROFS => 30
  | NFS3ERR_MLINK => 31
  | NFS3ERR_NAMETOOLONG => 63
  | NFS3ERR_NOTEMPTY => 66
  | NFS3ERR_DQUOT => 69
  | NFS3ERR_STALE => 70
  | NFS3ERR_REMOTE => 71
  | NFS3ERR_BADHANDLE => 10001
  | NFS3ERR_NOT_SYNC => 10002
  | NFS3ERR_BAD_COOKIE => 10003
  | NFS3ERR_NOTSUPP => 10004
  | NFS3ERR_TOOSMALL => 10005
  | NFS3ERR_SERVERFAULT => 10006
  | NFS3ERR_BADTYPE => 10007
  | NFS3ERR_JUKEBOX => 10008
  end.
Definition nfsstat3_codec : codec nfsstat3 :=
  simple_enum_codec nfsstat3_as_u32
    [NFS3_OK; NFS3ERR_PERM; NFS3ERR_NOENT; NFS3ERR_IO; NFS3ERR_NXIO; NFS3ERR_ACCES; NFS3ERR_EXIST; NFS3ERR_XDEV; NFS3ERR_NODEV; NFS3ERR_NOTDIR; NFS3ERR_ISDIR; NFS3ERR_INVAL; NFS3ERR_FBIG; NFS3ERR_NOSPC; NFS3ERR_ROFS; NFS3ERR_MLINK; NFS3ERR_NAMETOOLONG; NFS3ERR_NOTEMPTY; NFS3ERR_DQUOT; NFS3ERR_STALE; NFS3ERR_REMOTE; NFS3ERR_BADHANDLE; NFS3ERR_NOT_SYNC; NFS3ERR_BAD_COOKIE; NFS3ERR_NOTSUPP; NFS3ERR_TOOSMALL; NFS3ERR_SERVERFAULT; NFS3ERR_BADTYPE; NFS3ERR_JUKEBOX].
#[export] Instance nfsstat3_eq_dec : EqDecision nfsstat3.
Proof. solve_decision. Defined.
#[export] Instance nfsstat3_codec_ok : CodecOk nfsstat3_codec.
Proof. unfold nfsstat3_codec. apply _. Qed.
#[export] Instance nfsstat3_decodes : DecodesValid nfsstat3_codec.
Proof. unfold nfsstat3_codec. apply _. Qed.

(** ** [Nfs3Option] and [Nfs3Result] *)

(** [Nfs3Option<T>]: the variant [Some] has tag 1, [None] tag 0. *)
Definition Nfs3Option_codec {T} (c : codec T) : codec (option T) :=
  complex_enum_codec (variant 1 c (variant 0 void_codec no_variant))
    (fun o => match o with Some v => inl v | None => inr (inl tt) end)
    (fun t => match t with
              | inl v => Some v
              | inr (inl _) => None
              | inr (inr v) => match v : Empty_set with end
              end).
#[export] Instance Nfs3Option_codec_ok {T} (c : codec T) : CodecOk c -> CodecOk (Nfs3Option_codec c).
Proof. intros. unfold Nfs3Option_codec. apply _. Qed.
#[export] Instance Nfs3Option_decodes {T} (c : codec T) : DecodesValid c -> DecodesValid (Nfs3Option_codec c).
Proof. intros. unfold Nfs3Option_codec. apply _. Qed.

Inductive Nfs3Result (T E : Type) : Type :=
| NfsOk (val : T)
| NfsErr (code : nfsstat3) (err : E).
Arguments NfsOk {T E} val.
Arguments NfsErr {T E} code err.

(** [Err] carries a status; a value with status [NFS3_OK] there would be read
    back as [Ok], so it is not a valid one. *)
Definition Nfs3Result_codec {T E} (ct : codec T) (ce : codec E) : codec (Nfs3Result T E) := {|
  packed_size r :=
    match r with
    | NfsOk v => packed_size nfsstat3_codec NFS3_OK + packed_size ct v
    | NfsErr code err => packed_size nfsstat3_codec code + packed_size ce err
    end;
  pack r :=
    match r with
    | NfsOk v =>
        let* n := pack nfsstat3_codec NFS3_OK in
        let* m := pack ct v in
        sret (n + m)
    | NfsErr code err =>
        let* n := pack nfsstat3_codec code in
        let* m := pack ce err in
        sret (n + m)
    end;
  unpack :=
    let* (code, dsz) := unpack nfsstat3_codec in
    if decide (code = NFS3_OK) then
      let* (val, fsz) := unpack ct in
      sret (NfsOk val, dsz + fsz)
    else
      let* (val, csz) := unpack ce in
      sret (NfsErr code val, dsz + csz);
  valid r :=
    match r with
    | NfsOk v => valid ct v
    | NfsErr code err => code <> NFS3_OK /\ valid ce err
    end;
|}.

#[export] Instance Nfs3Result_codec_ok {T E} (ct : codec T) (ce : codec E) :
  CodecOk ct -> CodecOk ce -> CodecOk (Nfs3Result_codec ct ce).
Proof.
  intros Ht He. constructor.
  - intros [v|code err] Hv; cbn [valid Nfs3Result_codec] in Hv.
    + destruct (codec_encodes (c := nfsstat3_codec) NFS3_OK I) as [b1 H1].
      destruct (codec_encodes v Hv) as [b2 H2]. exists (b1 ++ b2).
      constructor; cbn [pack unpack packed_size Nfs3Result_codec].
      * intros out. unfold sbind. rewrite (enc_pack _ _ _ H1), (enc_pack _ _ _ H2). finish_run.
      * autorewrite with len. by rewrite (enc_size _ _ _ H1), (enc_size _ _ _ H2).
      * intros r. unfold sbind. rewrite <- (assoc_L (++)), (enc_unpack _ _ _ H1).
        rewrite decide_True, (enc_unpack _ _ _ H2) by done. done.
    + destruct Hv as [Hc Hv]. destruct (codec_encodes (c := nfsstat3_codec) code I) as [b1 H1].
      destruct (codec_encodes err Hv) as [b2 H2]. exists (b1 ++ b2).
      constructor; cbn [pack unpack packed_size Nfs3Result_codec].
      * intros out. unfold sbind. rewrite (enc_pack _ _ _ H1), (enc_pack _ _ _ H2). finish_run.
      * autorewrite with len. by rewrite (enc_size _ _ _ H1), (enc_size _ _ _ H2).
      * intros r. unfold sbind. rewrite <- (assoc_L (++)), (enc_unpack _ _ _ H1).
        rewrite decide_False, (enc_unpack _ _ _ H2) by done. done.
  - intros [v|code err]; cbn [packed_size Nfs3Result_codec].
    + pose proof (codec_aligned (c := ct) v). cbn. Z.to_euclidean_division_equations. lia.
    + pose proof (codec_aligned (c := ce) err). cbn. Z.to_euclidean_division_equations. lia.
  - intros inp r n rest H. cbn [unpack Nfs3Result_codec] in H. steps_in H.
    apply codec_consumes in Hrun as [-> (u & -> & Hu)].
    case_decide; steps_in H; apply codec_consumes in Hrun as [-> (u' & -> & Hu')];
      (split; [done|]; exists (u ++ u'); rewrite (assoc_L (++)); split; [done|];
       autorewrite with len; lia).
Qed.

#[export] Instance Nfs3Result_decodes {T E} (ct : codec T) (ce : codec E) :
  DecodesValid ct -> DecodesValid ce -> DecodesValid (Nfs3Result_codec ct ce).
Proof.
  intros Ht He inp r n rest H. cbn [unpack Nfs3Result_codec] in H. steps_in H.
  case_decide; steps_in H; cbn; eauto using decodes_valid.
Qed.

(** ** Data types *)

Record nfs_fh3 : Type := mk_nfs_fh3 {
  nfs_fh3_data : Opaque;
}.
Definition nfs_fh3_codec : codec nfs_fh3 :=
  struct_codec (opaque_codec &* no_fields)
    (fun s => (nfs_fh3_data s, tt))
    (fun '(data, _) => mk_nfs_fh3 data).
#[export] Instance nfs_fh3_eq_dec : EqDecision nfs_fh3.
Proof. solve_decision. Defined.
#[export] Instance nfs_fh3_codec_ok : CodecOk nfs_fh3_codec.
Proof. unfold nfs_fh3_codec. apply _. Qed.
#[export] Instance nfs_fh3_decodes : DecodesValid nfs_fh3_codec.
Proof. unfold nfs_fh3_codec. apply _. Qed.

Record ACCESS3args : Type := mk_ACCESS3args {
  ACCESS3args_object : nfs_fh3;
  ACCESS3args_access : u32;
}.
Definition ACCESS3args_codec : codec ACCESS3args :=
  struct_codec (nfs_fh3_codec &* u32_codec &* no_fields)
    (fun s => (ACCESS3args_object s, (ACCESS3args_access s, tt)))
    (fun '(object, (access, _)) => mk_ACCESS3args object access).
#[export] Instance ACCESS3args_codec_ok : CodecOk ACCESS3args_codec.
Proof. unfold ACCESS3args_codec. apply _. Qed.
#[export] Instance ACCESS3args_decodes : DecodesValid ACCESS3args_codec.
Proof. unfold ACCESS3args_codec. apply _. Qed.

Inductive ftype3 : Type :=
| NF3REG
| NF3DIR
| NF3BLK
| NF3CHR
| NF3LNK
| NF3SOCK
| NF3FIFO.
Definition ftype3_as_u32 (v : ftype3) : u32 :=
  match v with
  | NF3REG => 1
  | NF3DIR => 2
  | NF3BLK => 3
  | NF3CHR => 4
  | NF3LNK => 5
  | NF3SOCK => 6
  | NF3FIFO => 7
  end.
Definition ftype3_codec : codec ftype3 :=
  simple_enum_codec ftype3_as_u32
    [NF3REG; NF3DIR; NF3BLK; NF3CHR; NF3LNK; NF3SOCK; NF3FIFO].
#[export] Instance ftype3_eq_dec : EqDecision ftype3.
Proof. solve_decision. Defined.
#[export] Instance ftype3_codec_ok : CodecOk ftype3_codec.
Proof. unfold ftype3_codec. apply _. Qed.
#[export] Instance ftype3_decodes : DecodesValid ftype3_codec.
Proof. unfold ftype3_codec. apply _. Qed.

Record nfstime3 : Type := mk_nfstime3 {
  nfstime3_seconds : u32;
  nfstime3_nseconds : u32;
}.
Definition nfstime3_codec : codec nfstime3 :=
  struct_codec (u32_codec &* u32_codec &* no_fields)
    (fun s => (nfstime3_seconds s, (nfstime3_nseconds s, tt)))
    (fun '(seconds, (nseconds, _)) => mk_nfstime3 seconds nseconds).
#[export] Instance nfstime3_eq_dec : EqDecision nfstime3.
Proof. solve_decision. Defined.
#[export] Instance nfstime3_codec_ok : CodecOk nfstime3_codec.
Proof. unfold nfstime3_codec. apply _. Qed.
#[export] Instance nfstime3_decodes : DecodesValid nfstime3_codec.
Proof. unfold nfstime3_codec. apply _. Qed.

Record specdata3 : Type := mk_specdata3 {
  specdata3_specdata1 : u32;
  specdata3_specdata2 : u32;
}.
Definition specdata3_codec : codec specdata3 :=
  struct_codec (u32_codec &* u32_codec &* no_fields)
    (fun s => (specdata3_specdata1 s, (specdata3_specdata2 s, tt)))
    (fun '(specdata1, (specdata2, _)) => mk_specdata3 specdata1 specdata2).
#[export] Instance specdata3_eq_dec : EqDecision specdata3.
Proof. solve_decision. Defined.
#[export] Instance specdata3_codec_ok : CodecOk specdata3_codec.
Proof. unfold specdata3_codec. apply _. Qed.
#[export] Instance specdata3_decodes : DecodesValid specdata3_codec.
Proof. unfold specdata3_codec. apply _. Qed.

Record fattr3 : Type := mk_fattr3 {
  fattr3_type : ftype3;
  fattr3_mode : mode3;
  fattr3_nlink : u32;
  fattr3_uid : uid3;
  fattr3_gid : gid3;
  fattr3_size : size3;
  fattr3_used : size3;
  fattr3_rdev : specdata3;
  fattr3_fsid : u64;
  fattr3_fileid : fileid3;
  fattr3_atime : nfstime3;
  fattr3_mtime : nfstime3;
  fattr3_ctime : nfstime3;
}.
Definition fattr3_codec : codec fattr3 :=
  struct_codec (ftype3_codec &* u32_codec &* u32_codec &* u32_codec &* u32_codec &* u64_codec &* u64_codec &* specdata3_codec &* u64_codec &* u64_codec &* nfstime3_codec &* nfstime3_codec &* nfstime3_codec &* no_fields)
    (fun s => (fattr3_type s, (fattr3_mode s, (fattr3_nlink s, (fattr3_uid s, (fattr3_gid s, (fattr3_size s, (fattr3_used s, (fattr3_rdev s, (fattr3_fsid s, (fattr3_fileid s, (fattr3_atime s, (fattr3_mtime s, (fattr3_ctime s, tt))))))))))))))
    (fun '(type, (mode, (nlink, (uid, (gid, (size, (used, (rdev, (fsid, (fileid, (atime, (mtime, (ctime, _))))))))))))) => mk_fattr3 type mode nlink uid gid size used rdev fsid fileid atime mtime ctime).
#[export] Instance fattr3_eq_dec : EqDecision fattr3.
Proof. solve_decision. Defined.
#[export] Instance fattr3_codec_ok : CodecOk fattr3_codec.
Proof. unfold fattr3_codec. apply _. Qed.
#[export] Instance fattr3_decodes : DecodesValid fattr3_codec.
Proof. unfold fattr3_codec. apply _. Qed.

Abbreviation post_op_attr := (option fattr3) (only parsing).
Definition post_op_attr_codec : codec post_op_attr := Nfs3Option_codec fattr3_codec.
#[export] Instance post_op_attr_codec_ok : CodecOk post_op_attr_codec.
Proof. unfold post_op_attr_codec. apply _. Qed.
#[export] Instance post_op_attr_decodes : DecodesValid post_op_attr_codec.
Proof. unfold post_op_attr_codec. apply _. Qed.

Record ACCESS3resfail : Type := mk_ACCESS3resfail {
  ACCESS3resfail_obj_attributes : post_op_attr;
}.
Definition ACCESS3resfail_codec : codec ACCESS3resfail :=
  struct_codec (post_op_attr_codec &* no_fields)
    (fun s => (ACCESS3resfail_obj_attributes s, tt))
    (fun '(obj_attributes, _) => mk_ACCESS3resfail obj_attributes).
#[export] Instance ACCESS3resfail_codec_ok : CodecOk ACCESS3resfail_codec.
Proof. unfold ACCESS3resfail_codec. apply _. Qed.
#[export] Instance ACCESS3resfail_decodes : DecodesValid ACCESS3resfail_codec.
Proof. unfold ACCESS3resfail_codec. apply _. Qed.

Record ACCESS3resok : Type := mk_ACCESS3resok {
  ACCESS3resok_obj_attributes : post_op_attr;
  ACCESS3resok_access : u32;
}.
Definition ACCESS3resok_codec : codec ACCESS3resok :=
  struct_codec (post_op_attr_codec &* u32_codec &* no_fields)
    (fun s => (ACCESS3resok_obj_attributes s, (ACCESS3resok_access s, tt)))
    (fun '(obj_attributes, (access, _)) => mk_ACCESS3resok obj_attributes access).
#[export] Instance ACCESS3resok_codec_ok : CodecOk ACCESS3resok_codec.
Proof. unfold ACCESS3resok_codec. apply _. Qed.
#[export] Instance ACCESS3resok_decodes : DecodesValid ACCESS3resok_codec.
Proof. unfold ACCESS3resok_codec. apply _. Qed.

Record COMMIT3args : Type := mk_COMMIT3args {
  COMMIT3args_file : nfs_fh3;
  COMMIT3args_offset : offset3;
  COMMIT3args_count : count3;
}.
Definition COMMIT3args_codec : codec COMMIT3args :=
  struct_codec (nfs_fh3_codec &* u64_codec &* u32_codec &* no_fields)
    (fun s => (COMMIT3args_file s, (COMMIT3args_offset s, (COMMIT3args_count s, tt))))
    (fun '(file, (offset, (count, _))) => mk_COMMIT3args file offset count).
#[export] Instance COMMIT3args_codec_ok : CodecOk COMMIT3args_codec.
Proof. unfold COMMIT3args_codec. apply _. Qed.
#[export] Instance COMMIT3args_decodes : DecodesValid COMMIT3args_codec.
Proof. unfold COMMIT3args_codec. apply _. Qed.

Record wcc_attr : Type := mk_wcc_attr {
  wcc_attr_size : size3;
  wcc_attr_mtime : nfstime3;
  wcc_attr_ctime : nfstime3;
}.
Definition wcc_attr_codec : codec wcc_attr :=
  struct_codec (u64_codec &* nfstime3_codec &* nfstime3_codec &* no_fields)
    (fun s => (wcc_attr_size s, (wcc_attr_mtime s, (wcc_attr_ctime s, tt))))
    (fun '(size, (mtime, (ctime, _))) => mk_wcc_attr size mtime ctime).
#[export] Instance wcc_attr_eq_dec : EqDecision wcc_attr.
Proof. solve_decision. Defined.
#[export] Instance wcc_attr_codec_ok : CodecOk wcc_attr_codec.
Proof. unfold wcc_attr_codec. apply _. Qed.
#[export] Instance wcc_attr_decodes : DecodesValid wcc_attr_codec.
Proof. unfold wcc_attr_codec. apply _. Qed.

Abbreviation pre_op_attr := (option wcc_attr) (only parsing).
Definition pre_op_attr_codec : codec pre_op_attr := Nfs3Option_codec wcc_attr_codec.
#[export] Instance pre_op_attr_codec_ok : CodecOk pre_op_attr_codec.
Proof. unfold pre_op_attr_codec. apply _. Qed.
#[export] Instance pre_op_attr_decodes : DecodesValid pre_op_attr_codec.
Proof. unfold pre_op_attr_codec. apply _. Qed.

Record wcc_data : Type := mk_wcc_data {
  wcc_data_before : pre_op_attr;
  wcc_data_after : post_op_attr;
}.
Definition wcc_data_codec : codec wcc_data :=
  struct_codec (pre_op_attr_codec &* post_op_attr_codec &* no_fields)
    (fun s => (wcc_data_before s, (wcc_data_after s, tt)))
    (fun '(before, (after, _)) => mk_wcc_data before after).
#[export] Instance wcc_data_codec_ok : CodecOk wcc_data_codec.
Proof. unfold wcc_data_codec. apply _. Qed.
#[export] Instance wcc_data_decodes : DecodesValid wcc_data_codec.
Proof. unfold wcc_data_codec. apply _. Qed.

Record COMMIT3resfail : Type := mk_COMMIT3resfail {
  COMMIT3resfail_file_wcc : wcc_data;
}.
Definition COMMIT3resfail_codec : codec COMMIT3resfail :=
  struct_codec (wcc_data_codec &* no_fields)
    (fun s => (COMMIT3resfail_file_wcc s, tt))
    (fun '(file_wcc, _) => mk_COMMIT3resfail file_wcc).
#[export] Instance COMMIT3resfail_codec_ok : CodecOk COMMIT3resfail_codec.
Proof. unfold COMMIT3resfail_codec. apply _. Qed.
#[export] Instance COMMIT3resfail_decodes : DecodesValid COMMIT3resfail_codec.
Proof. unfold COMMIT3resfail_codec. apply _. Qed.

Abbreviation writeverf3 := (list byte) (only parsing).
Definition writeverf3_codec : codec writeverf3 :=
  struct_codec ((bytes_codec NFS3_WRITEVERFSIZE) &* no_fields) (fun x => (x, tt)) (fun '(x, _) => x).
#[export] Instance writeverf3_codec_ok : CodecOk writeverf3_codec.
Proof. unfold writeverf3_codec. apply _. Qed.
#[export] Instance writeverf3_decodes : DecodesValid writeverf3_codec.
Proof. unfold writeverf3_codec. apply _. Qed.

Record COMMIT3resok : Type := mk_COMMIT3resok {
  COMMIT3resok_file_wcc : wcc_data;
  COMMIT3resok_verf : writeverf3;
}.
Definition COMMIT3resok_codec : codec COMMIT3resok :=
  struct_codec (wcc_data_codec &* writeverf3_codec &* no_fields)
    (fun s => (COMMIT3resok_file_wcc s, (COMMIT3resok_verf s, tt)))
    (fun '(file_wcc, (verf, _)) => mk_COMMIT3resok file_wcc verf).
#[export] Instance COMMIT3resok_codec_ok : CodecOk COMMIT3resok_codec.
Proof. unfold COMMIT3resok_codec. apply _. Qed.
#[export] Instance COMMIT3resok_decodes : DecodesValid COMMIT3resok_codec.
Proof. unfold COMMIT3resok_codec. apply _. Qed.

Abbreviation createverf3 := (list byte) (only parsing).
Definition createverf3_codec : codec createverf3 :=
  struct_codec ((bytes_codec NFS3_CREATEVERFSIZE) &* no_fields) (fun x => (x, tt)) (fun '(x, _) => x).
#[export] Instance createverf3_codec_ok : CodecOk createverf3_codec.
Proof. unfold createverf3_codec. apply _. Qed.
#[export] Instance createverf3_decodes : DecodesValid createverf3_codec.
Proof. unfold createverf3_codec. apply _. Qed.

Inductive set_atime : Type :=
| atime_DONT_CHANGE
| atime_SET_TO_SERVER_TIME
| atime_SET_TO_CLIENT_TIME (v : nfstime3).
Definition set_atime_codec : codec set_atime :=
  complex_enum_codec (variant 0 void_codec (variant 1 void_codec (variant 2 nfstime3_codec no_variant)))
    (fun e => match e with
      | atime_DONT_CHANGE => inl tt
      | atime_SET_TO_SERVER_TIME => inr (inl tt)
      | atime_SET_TO_CLIENT_TIME v => inr (inr (inl v))
      end)
    (fun t => match t with
      | inl _ => atime_DONT_CHANGE
      | inr (inl _) => atime_SET_TO_SERVER_TIME
      | inr (inr (inl v)) => atime_SET_TO_CLIENT_TIME v
      | inr (inr (inr (v))) => match v : Empty_set with end
      end).
#[export] Instance set_atime_codec_ok : CodecOk set_atime_codec.
Proof. unfold set_atime_codec. apply _. Qed.
#[export] Instance set_atime_decodes : DecodesValid set_atime_codec.
Proof. unfold set_atime_codec. apply _. Qed.

Abbreviation set_gid3 := (option gid3) (only parsing).
Definition set_gid3_codec : codec set_gid3 := Nfs3Option_codec u32_codec.
#[export] Instance set_gid3_codec_ok : CodecOk set_gid3_codec.
Proof. unfold set_gid3_codec. apply _. Qed.
#[export] Instance set_gid3_decodes : DecodesValid set_gid3_codec.
Proof. unfold set_gid3_codec. apply _. Qed.

Abbreviation set_mode3 := (option mode3) (only parsing).
Definition set_mode3_codec : codec set_mode3 := Nfs3Option_codec u32_codec.
#[export] Instance set_mode3_codec_ok : CodecOk set_mode3_codec.
Proof. unfold set_mode3_codec. apply _. Qed.
#[export] Instance set_mode3_decodes : DecodesValid set_mode3_codec.
Proof. unfold set_mode3_codec. apply _. Qed.

Inductive set_mtime : Type :=
| mtime_DONT_CHANGE
| mtime_SET_TO_SERVER_TIME
| mtime_SET_TO_CLIENT_TIME (v : nfstime3).
Definition set_mtime_codec : codec set_mtime :=
  complex_enum_codec (variant 0 void_codec (variant 1 void_codec (variant 2 nfstime3_codec no_variant)))
    (fun e => match e with
      | mtime_DONT_CHANGE => inl tt
      | mtime_SET_TO_SERVER_TIME => inr (inl tt)
      | mtime_SET_TO_CLIENT_TIME v => inr (inr (inl v))
      end)
    (fun t => match t with
      | inl _ => mtime_DONT_CHANGE
      | inr (inl _) => mtime_SET_TO_SERVER_TIME
      | inr (inr (inl v)) => mtime_SET_TO_CLIENT_TIME v
      | inr (inr (inr (v))) => match v : Empty_set with end
      end).
#[export] Instance set_mtime_codec_ok : CodecOk set_mtime_codec.
Proof. unfold set_mtime_codec. apply _. Qed.
#[export] Instance set_mtime_decodes : DecodesValid set_mtime_codec.
Proof. unfold set_mtime_codec. apply _. Qed.

Abbreviation set_size3 := (option size3) (only parsing).
Definition set_size3_codec : codec set_size3 := Nfs3Option_codec u64_codec.
#[export] Instance set_size3_codec_ok : CodecOk set_size3_codec.
Proof. unfold set_size3_codec. apply _. Qed.
#[export] Instance set_size3_decodes : DecodesValid set_size3_codec.
Proof. unfold set_size3_codec. apply _. Qed.

Abbreviation set_uid3 := (option uid3) (only parsing).
Definition set_uid3_codec : codec set_uid3 := Nfs3Option_codec u32_codec.
#[export] Instance set_uid3_codec_ok : CodecOk set_uid3_codec.
Proof. unfold set_uid3_codec. apply _. Qed.
#[export] Instance set_uid3_decodes : DecodesValid set_uid3_codec.
Proof. unfold set_uid3_codec. apply _. Qed.

Record sattr3 : Type := mk_sattr3 {
  sattr3_mode : set_mode3;
  sattr3_uid : set_uid3;
  sattr3_gid : set_gid3;
  sattr3_size : set_size3;
  sattr3_atime : set_atime;
  sattr3_mtime : set_mtime;
}.
Definition sattr3_codec : codec sattr3 :=
  struct_codec (set_mode3_codec &* set_uid3_codec &* set_gid3_codec &* set_size3_codec &* set_atime_codec &* set_mtime_codec &* no_fields)
    (fun s => (sattr3_mode s, (sattr3_uid s, (sattr3_gid s, (sattr3_size s, (sattr3_atime s, (sattr3_mtime s, tt)))))))
    (fun '(mode, (uid, (gid, (size, (atime, (mtime, _)))))) => mk_sattr3 mode uid gid size atime mtime).
#[export] Instance sattr3_codec_ok : CodecOk sattr3_codec.
Proof. unfold sattr3_codec. apply _. Qed.
#[export] Instance sattr3_decodes : DecodesValid sattr3_codec.
Proof. unfold sattr3_codec. apply _. Qed.

Inductive createhow3 : Type :=
| UNCHECKED (v : sattr3)
| GUARDED (v : sattr3)
| EXCLUSIVE (v : createverf3).
Definition createhow3_codec : codec createhow3 :=
  complex_enum_codec (variant 0 sattr3_codec (variant 1 sattr3_codec (variant 2 createverf3_codec no_variant)))
    (fun e => match e with
      | UNCHECKED v => inl v
      | GUARDED v => inr (inl v)
      | EXCLUSIVE v => inr (inr (inl v))
      end)
    (fun t => match t with
      | inl v => UNCHECKED v
      | inr (inl v) => GUARDED v
      | inr (inr (inl v)) => EXCLUSIVE v
      | inr (inr (inr (v))) => match v : Empty_set with end
      end).
#[export] Instance createhow3_codec_ok : CodecOk createhow3_codec.
Proof. unfold createhow3_codec. apply _. Qed.
#[export] Instance createhow3_decodes : DecodesValid createhow3_codec.
Proof. unfold createhow3_codec. apply _. Qed.

Abbreviation filename3 := (Opaque) (only parsing).
Definition filename3_codec : codec filename3 :=
  struct_codec (opaque_codec &* no_fields) (fun x => (x, tt)) (fun '(x, _) => x).
#[export] Instance filename3_codec_ok : CodecOk filename3_codec.
Proof. unfold filename3_codec. apply _. Qed.
#[export] Instance filename3_decodes : DecodesValid filename3_codec.
Proof. unfold filename3_codec. apply _. Qed.

Record diropargs3 : Type := mk_diropargs3 {
  diropargs3_dir : nfs_fh3;
  diropargs3_name : filename3;
}.
Definition diropargs3_codec : codec diropargs3 :=
  struct_codec (nfs_fh3_codec &* filename3_codec &* no_fields)
    (fun s => (diropargs3_dir s, (diropargs3_name s, tt)))
    (fun '(dir, (name, _)) => mk_diropargs3 dir name).
#[export] Instance diropargs3_codec_ok : CodecOk diropargs3_codec.
Proof. unfold diropargs3_codec. apply _. Qed.
#[export] Instance diropargs3_decodes : DecodesValid diropargs3_codec.
Proof. unfold diropargs3_codec. apply _. Qed.

Record CREATE3args : Type := mk_CREATE3args {
  CREATE3args_where_ : diropargs3;
  CREATE3args_how : createhow3;
}.
Definition CREATE3args_codec : codec CREATE3args :=
  struct_codec (diropargs3_codec &* createhow3_codec &* no_fields)
    (fun s => (CREATE3args_where_ s, (CREATE3args_how s, tt)))
    (fun '(where_, (how, _)) => mk_CREATE3args where_ how).
#[export] Instance CREATE3args_codec_ok : CodecOk CREATE3args_codec.
Proof. unfold CREATE3args_codec. apply _. Qed.
#[export] Instance CREATE3args_decodes : DecodesValid CREATE3args_codec.
Proof. unfold CREATE3args_codec. apply _. Qed.

Record CREATE3resfail : Type := mk_CREATE3resfail {
  CREATE3resfail_dir_wcc : wcc_data;
}.
Definition CREATE3resfail_codec : codec CREATE3resfail :=
  struct_codec (wcc_data_codec &* no_fields)
    (fun s => (CREATE3resfail_dir_wcc s, tt))
    (fun '(dir_wcc, _) => mk_CREATE3resfail dir_wcc).
#[export] Instance CREATE3resfail_codec_ok : CodecOk CREATE3resfail_codec.
Proof. unfold CREATE3resfail_codec. apply _. Qed.
#[export] Instance CREATE3resfail_decodes : DecodesValid CREATE3resfail_codec.
Proof. unfold CREATE3resfail_codec. apply _. Qed.

Abbreviation post_op_fh3 := (option nfs_fh3) (only parsing).
Definition post_op_fh3_codec : codec post_op_fh3 := Nfs3Option_codec nfs_fh3_codec.
#[export] Instance post_op_fh3_codec_ok : CodecOk post_op_fh3_codec.
Proof. unfold post_op_fh3_codec. apply _. Qed.
#[export] Instance post_op_fh3_decodes : DecodesValid post_op_fh3_codec.
Proof. unfold post_op_fh3_codec. apply _. Qed.

Record CREATE3resok : Type := mk_CREATE3resok {
  CREATE3resok_obj : post_op_fh3;
  CREATE3resok_obj_attributes : post_op_attr;
  CREATE3resok_dir_wcc : wcc_data;
}.
Definition CREATE3resok_codec : codec CREATE3resok :=
  struct_codec (post_op_fh3_codec &* post_op_attr_codec &* wcc_data_codec &* no_fields)
    (fun s => (CREATE3resok_obj s, (CREATE3resok_obj_attributes s, (CREATE3resok_dir_wcc s, tt))))
    (fun '(obj, (obj_attributes, (dir_wcc, _))) => mk_CREATE3resok obj obj_attributes dir_wcc).
#[export] Instance CREATE3resok_codec_ok : CodecOk CREATE3resok_codec.
Proof. unfold CREATE3resok_codec. apply _. Qed.
#[export] Instance CREATE3resok_decodes : DecodesValid CREATE3resok_codec.
Proof. unfold CREATE3resok_codec. apply _. Qed.

Record FSINFO3args : Type := mk_FSINFO3args {
  FSINFO3args_fsroot : nfs_fh3;
}.
Definition FSINFO3args_codec : codec FSINFO3args :=
  struct_codec (nfs_fh3_codec &* no_fields)
    (fun s => (FSINFO3args_fsroot s, tt))
    (fun '(fsroot, _) => mk_FSINFO3args fsroot).
#[export] Instance FSINFO3args_codec_ok : CodecOk FSINFO3args_codec.
Proof. unfold FSINFO3args_codec. apply _. Qed.
#[export] Instance FSINFO3args_decodes : DecodesValid FSINFO3args_codec.
Proof. unfold FSINFO3args_codec. apply _. Qed.

Record FSINFO3resfail : Type := mk_FSINFO3resfail {
  FSINFO3resfail_obj_attributes : post_op_attr;
}.
Definition FSINFO3resfail_codec : codec FSINFO3resfail :=
  struct_codec (post_op_attr_codec &* no_fields)
    (fun s => (FSINFO3resfail_obj_attributes s, tt))
    (fun '(obj_attributes, _) => mk_FSINFO3resfail obj_attributes).
#[export] Instance FSINFO3resfail_codec_ok : CodecOk FSINFO3resfail_codec.
Proof. unfold FSINFO3resfail_codec. apply _. Qed.
#[export] Instance FSINFO3resfail_decodes : DecodesValid FSINFO3resfail_codec.
Proof. unfold FSINFO3resfail_codec. apply _. Qed.

Record FSINFO3resok : Type := mk_FSINFO3resok {
  FSINFO3resok_obj_attributes : post_op_attr;
  FSINFO3resok_rtmax : u32;
  FSINFO3resok_rtpref : u32;
  FSINFO3resok_rtmult : u32;
  FSINFO3resok_wtmax : u32;
  FSINFO3resok_wtpref : u32;
  FSINFO3resok_wtmult : u32;
  FSINFO3resok_dtpref : u32;
  FSINFO3resok_maxfilesize : size3;
  FSINFO3resok_time_delta : nfstime3;
  FSINFO3resok_properties : u32;
}.
Definition FSINFO3resok_codec : codec FSINFO3resok :=
  struct_codec (post_op_attr_codec &* u32_codec &* u32_codec &* u32_codec &* u32_codec &* u32_codec &* u32_codec &* u32_codec &* u64_codec &* nfstime3_codec &* u32_codec &* no_fields)
    (fun s => (FSINFO3resok_obj_attributes s, (FSINFO3resok_rtmax s, (FSINFO3resok_rtpref s, (FSINFO3resok_rtmult s, (FSINFO3resok_wtmax s, (FSINFO3resok_wtpref s, (FSINFO3resok_wtmult s, (FSINFO3resok_dtpref s, (FSINFO3resok_maxfilesize s, (FSINFO3resok_time_delta s, (FSINFO3resok_properties s, tt))))))))))))
    (fun '(obj_attributes, (rtmax, (rtpref, (rtmult, (wtmax, (wtpref, (wtmult, (dtpref, (maxfilesize, (time_delta, (properties, _))))))))))) => mk_FSINFO3resok obj_attributes rtmax rtpref rtmult wtmax wtpref wtmult dtpref maxfilesize time_delta properties).
#[export] Instance FSINFO3resok_codec_ok : CodecOk FSINFO3resok_codec.
Proof. unfold FSINFO3resok_codec. apply _. Qed.
#[export] Instance FSINFO3resok_decodes : DecodesValid FSINFO3resok_codec.
Proof. unfold FSINFO3resok_codec. apply _. Qed.

Record FSSTAT3args : Type := mk_FSSTAT3args {
  FSSTAT3args_fsroot : nfs_fh3;
}.
Definition FSSTAT3args_codec : codec FSSTAT3args :=
  struct_codec (nfs_fh3_codec &* no_fields)
    (fun s => (FSSTAT3args_fsroot s, tt))
    (fun '(fsroot, _) => mk_FSSTAT3args fsroot).
#[export] Instance FSSTAT3args_codec_ok : CodecOk FSSTAT3args_codec.
Proof. unfold FSSTAT3args_codec. apply _. Qed.
#[export] Instance FSSTAT3args_decodes : DecodesValid FSSTAT3args_codec.
Proof. unfold FSSTAT3args_codec. apply _. Qed.

Record FSSTAT3resfail : Type := mk_FSSTAT3resfail {
  FSSTAT3resfail_obj_attributes : post_op_attr;
}.
Definition FSSTAT3resfail_codec : codec FSSTAT3resfail :=
  struct_codec (post_op_attr_codec &* no_fields)
    (fun s => (FSSTAT3resfail_obj_attributes s, tt))
    (fun '(obj_attributes, _) => mk_FSSTAT3resfail obj_attributes).
#[export] Instance FSSTAT3resfail_codec_ok : CodecOk FSSTAT3resfail_codec.
Proof. unfold FSSTAT3resfail_codec. apply _. Qed.
#[export] Instance FSSTAT3resfail_decodes : DecodesValid FSSTAT3resfail_codec.
Proof. unfold FSSTAT3resfail_codec. apply _. Qed.

Record FSSTAT3resok : Type := mk_FSSTAT3resok {
  FSSTAT3resok_obj_attributes : post_op_attr;
  FSSTAT3resok_tbytes : size3;
  FSSTAT3resok_fbytes : size3;
  FSSTAT3resok_abytes : size3;
  FSSTAT3resok_tfiles : size3;
  FSSTAT3resok_ffiles : size3;
  FSSTAT3resok_afiles : size3;
  FSSTAT3resok_invarsec : u32;
}.
Definition FSSTAT3resok_codec : codec FSSTAT3resok :=
  struct_codec (post_op_attr_codec &* u64_codec &* u64_codec &* u64_codec &* u64_codec &* u64_codec &* u64_codec &* u32_codec &* no_fields)
    (fun s => (FSSTAT3resok_obj_attributes s, (FSSTAT3resok_tbytes s, (FSSTAT3resok_fbytes s, (FSSTAT3resok_abytes s, (FSSTAT3resok_tfiles s, (FSSTAT3resok_ffiles s, (FSSTAT3resok_afiles s, (FSSTAT3resok_invarsec s, tt)))))))))
    (fun '(obj_attributes, (tbytes, (fbytes, (abytes, (tfiles, (ffiles, (afiles, (invarsec, _)))))))) => mk_FSSTAT3resok obj_attributes tbytes fbytes abytes tfiles ffiles afiles invarsec).
#[export] Instance FSSTAT3resok_codec_ok : CodecOk FSSTAT3resok_codec.
Proof. unfold FSSTAT3resok_codec. apply _. Qed.
#[export] Instance FSSTAT3resok_decodes : DecodesValid FSSTAT3resok_codec.
Proof. unfold FSSTAT3resok_codec. apply _. Qed.

Record GETATTR3args : Type := mk_GETATTR3args {
  GETATTR3args_object : nfs_fh3;
}.
Definition GETATTR3args_codec : codec GETATTR3args :=
  struct_codec (nfs_fh3_codec &* no_fields)
    (fun s => (GETATTR3args_object s, tt))
    (fun '(object, _) => mk_GETATTR3args object).
#[export] Instance GETATTR3args_codec_ok : CodecOk GETATTR3args_codec.
Proof. unfold GETATTR3args_codec. apply _. Qed.
#[export] Instance GETATTR3args_decodes : DecodesValid GETATTR3args_codec.
Proof. unfold GETATTR3args_codec. apply _. Qed.

Record GETATTR3resok : Type := mk_GETATTR3resok {
  GETATTR3resok_obj_attributes : fattr3;
}.
Definition GETATTR3resok_codec : codec GETATTR3resok :=
  struct_codec (fattr3_codec &* no_fields)
    (fun s => (GETATTR3resok_obj_attributes s, tt))
    (fun '(obj_attributes, _) => mk_GETATTR3resok obj_attributes).
#[export] Instance GETATTR3resok_codec_ok : CodecOk GETATTR3resok_codec.
Proof. unfold GETATTR3resok_codec. apply _. Qed.
#[export] Instance GETATTR3resok_decodes : DecodesValid GETATTR3resok_codec.
Proof. unfold GETATTR3resok_codec. apply _. Qed.

Record LINK3args : Type := mk_LINK3args {
  LINK3args_file : nfs_fh3;
  LINK3args_link : diropargs3;
}.
Definition LINK3args_codec : codec LINK3args :=
  struct_codec (nfs_fh3_codec &* diropargs3_codec &* no_fields)
    (fun s => (LINK3args_file s, (LINK3args_link s, tt)))
    (fun '(file, (link, _)) => mk_LINK3args file link).
#[export] Instance LINK3args_codec_ok : CodecOk LINK3args_codec.
Proof. unfold LINK3args_codec. apply _. Qed.
#[export] Instance LINK3args_decodes : DecodesValid LINK3args_codec.
Proof. unfold LINK3args_codec. apply _. Qed.

Record LINK3resfail : Type := mk_LINK3resfail {
  LINK3resfail_file_attributes : post_op_attr;
  LINK3resfail_linkdir_wcc : wcc_data;
}.
Definition LINK3resfail_codec : codec LINK3resfail :=
  struct_codec (post_op_attr_codec &* wcc_data_codec &* no_fields)
    (fun s => (LINK3resfail_file_attributes s, (LINK3resfail_linkdir_wcc s, tt)))
    (fun '(file_attributes, (linkdir_wcc, _)) => mk_LINK3resfail file_attributes linkdir_wcc).
#[export] Instance LINK3resfail_codec_ok : CodecOk LINK3resfail_codec.
Proof. unfold LINK3resfail_codec. apply _. Qed.
#[export] Instance LINK3resfail_decodes : DecodesValid LINK3resfail_codec.
Proof. unfold LINK3resfail_codec. apply _. Qed.

Record LINK3resok : Type := mk_LINK3resok {
  LINK3resok_file_attributes : post_op_attr;
  LINK3resok_linkdir_wcc : wcc_data;
}.
Definition LINK3resok_codec : codec LINK3resok :=
  struct_codec (post_op_attr_codec &* wcc_data_codec &* no_fields)
    (fun s => (LINK3resok_file_attributes s, (LINK3resok_linkdir_wcc s, tt)))
    (fun '(file_attributes, (linkdir_wcc, _)) => mk_LINK3resok file_attributes linkdir_wcc).
#[export] Instance LINK3resok_codec_ok : CodecOk LINK3resok_codec.
Proof. unfold LINK3resok_codec. apply _. Qed.
#[export] Instance LINK3resok_decodes : DecodesValid LINK3resok_codec.
Proof. unfold LINK3resok_codec. apply _. Qed.

Record LOOKUP3args : Type := mk_LOOKUP3args {
  LOOKUP3args_what : diropargs3;
}.
Definition LOOKUP3args_codec : codec LOOKUP3args :=
  struct_codec (diropargs3_codec &* no_fields)
    (fun s => (LOOKUP3args_what s, tt))
    (fun '(what, _) => mk_LOOKUP3args what).
#[export] Instance LOOKUP3args_codec_ok : CodecOk LOOKUP3args_codec.
Proof. unfold LOOKUP3args_codec. apply _. Qed.
#[export] Instance LOOKUP3args_decodes : DecodesValid LOOKUP3args_codec.
Proof. unfold LOOKUP3args_codec. apply _. Qed.

Record LOOKUP3resfail : Type := mk_LOOKUP3resfail {
  LOOKUP3resfail_dir_attributes : post_op_attr;
}.
Definition LOOKUP3resfail_codec : codec LOOKUP3resfail :=
  struct_codec (post_op_attr_codec &* no_fields)
    (fun s => (LOOKUP3resfail_dir_attributes s, tt))
    (fun '(dir_attributes, _) => mk_LOOKUP3resfail dir_attributes).
#[export] Instance LOOKUP3resfail_codec_ok : CodecOk LOOKUP3resfail_codec.
Proof. unfold LOOKUP3resfail_codec. apply _. Qed.
#[export] Instance LOOKUP3resfail_decodes : DecodesValid LOOKUP3resfail_codec.
Proof. unfold LOOKUP3resfail_codec. apply _. Qed.

Record LOOKUP3resok : Type := mk_LOOKUP3resok {
  LOOKUP3resok_object : nfs_fh3;
  LOOKUP3resok_obj_attributes : post_op_attr;
  LOOKUP3resok_dir_attributes : post_op_attr;
}.
Definition LOOKUP3resok_codec : codec LOOKUP3resok :=
  struct_codec (nfs_fh3_codec &* post_op_attr_codec &* post_op_attr_codec &* no_fields)
    (fun s => (LOOKUP3resok_object s, (LOOKUP3resok_obj_attributes s, (LOOKUP3resok_dir_attributes s, tt))))
    (fun '(object, (obj_attributes, (dir_attributes, _))) => mk_LOOKUP3resok object obj_attributes dir_attributes).
#[export] Instance LOOKUP3resok_codec_ok : CodecOk LOOKUP3resok_codec.
Proof. unfold LOOKUP3resok_codec. apply _. Qed.
#[export] Instance LOOKUP3resok_decodes : DecodesValid LOOKUP3resok_codec.
Proof. unfold LOOKUP3resok_codec. apply _. Qed.

Record MKDIR3args : Type := mk_MKDIR3args {
  MKDIR3args_where_ : diropargs3;
  MKDIR3args_attributes : sattr3;
}.
Definition MKDIR3args_codec : codec MKDIR3args :=
  struct_codec (diropargs3_codec &* sattr3_codec &* no_fields)
    (fun s => (MKDIR3args_where_ s, (MKDIR3args_attributes s, tt)))
    (fun '(where_, (attributes, _)) => mk_MKDIR3args where_ attributes).
#[export] Instance MKDIR3args_codec_ok : CodecOk MKDIR3args_codec.
Proof. unfold MKDIR3args_codec. apply _. Qed.
#[export] Instance MKDIR3args_decodes : DecodesValid MKDIR3args_codec.
Proof. unfold MKDIR3args_codec. apply _. Qed.

Record MKDIR3resfail : Type := mk_MKDIR3resfail {
  MKDIR3resfail_dir_wcc : wcc_data;
}.
Definition MKDIR3resfail_codec : codec MKDIR3resfail :=
  struct_codec (wcc_data_codec &* no_fields)
    (fun s => (MKDIR3resfail_dir_wcc s, tt))
    (fun '(dir_wcc, _) => mk_MKDIR3resfail dir_wcc).
#[export] Instance MKDIR3resfail_codec_ok : CodecOk MKDIR3resfail_codec.
Proof. unfold MKDIR3resfail_codec. apply _. Qed.
#[export] Instance MKDIR3resfail_decodes : DecodesValid MKDIR3resfail_codec.
Proof. unfold MKDIR3resfail_codec. apply _. Qed.

Record MKDIR3resok : Type := mk_MKDIR3resok {
  MKDIR3resok_obj : post_op_fh3;
  MKDIR3resok_obj_attributes : post_op_attr;
  MKDIR3resok_dir_wcc : wcc_data;
}.
Definition MKDIR3resok_codec : codec MKDIR3resok :=
  struct_codec (post_op_fh3_codec &* post_op_attr_codec &* wcc_data_codec &* no_fields)
    (fun s => (MKDIR3resok_obj s, (MKDIR3resok_obj_attributes s, (MKDIR3resok_dir_wcc s, tt))))
    (fun '(obj, (obj_attributes, (dir_wcc, _))) => mk_MKDIR3resok obj obj_attributes dir_wcc).
#[export] Instance MKDIR3resok_codec_ok : CodecOk MKDIR3resok_codec.
Proof. unfold MKDIR3resok_codec. apply _. Qed.
#[export] Instance MKDIR3resok_decodes : DecodesValid MKDIR3resok_codec.
Proof. unfold MKDIR3resok_codec. apply _. Qed.

Record devicedata3 : Type := mk_devicedata3 {
  devicedata3_dev_attributes : sattr3;
  devicedata3_spec : specdata3;
}.
Definition devicedata3_codec : codec devicedata3 :=
  struct_codec (sattr3_codec &* specdata3_codec &* no_fields)
    (fun s => (devicedata3_dev_attributes s, (devicedata3_spec s, tt)))
    (fun '(dev_attributes, (spec, _)) => mk_devicedata3 dev_attributes spec).
#[export] Instance devicedata3_codec_ok : CodecOk devicedata3_codec.
Proof. unfold devicedata3_codec. apply _. Qed.
#[export] Instance devicedata3_decodes : DecodesValid devicedata3_codec.
Proof. unfold devicedata3_codec. apply _. Qed.

Inductive mknoddata3 : Type :=
| mknod_NF3CHR (val : devicedata3)
| mknod_NF3BLK (val : devicedata3)
| mknod_NF3SOCK (val : sattr3)
| mknod_NF3FIFO (val : sattr3)
| mknod_default.

(** Written by hand in the source: [default] packs to an error, but every
    unknown tag is read as [default]. *)
Definition mknoddata3_codec : codec mknoddata3 := {|
  packed_size v :=
    4 + match v with
        | mknod_NF3CHR val | mknod_NF3BLK val => packed_size devicedata3_codec val
        | mknod_NF3SOCK val | mknod_NF3FIFO val => packed_size sattr3_codec val
        | mknod_default => 0
        end;
  pack v :=
    match v with
    | mknod_NF3CHR val =>
        let* n := pack ftype3_codec NF3CHR in
        let* m := pack devicedata3_codec val in sret (n + m)
    | mknod_NF3BLK val =>
        let* n := pack ftype3_codec NF3BLK in
        let* m := pack devicedata3_codec val in sret (n + m)
    | mknod_NF3SOCK val =>
        let* n := pack ftype3_codec NF3SOCK in
        let* m := pack sattr3_codec val in sret (n + m)
    | mknod_NF3FIFO val =>
        let* n := pack ftype3_codec NF3FIFO in
        let* m := pack sattr3_codec val in sret (n + m)
    | mknod_default => serr (InvalidEnumValue u32_MAX)
    end;
  unpack :=
    let* (v, dsz) := unpack u32_codec in
    match v with
    | 4 => let* (val, fsz) := unpack devicedata3_codec in sret (mknod_NF3CHR val, dsz + fsz)
    | 3 => let* (val, fsz) := unpack devicedata3_codec in sret (mknod_NF3BLK val, dsz + fsz)
    | 6 => let* (val, fsz) := unpack sattr3_codec in sret (mknod_NF3SOCK val, dsz + fsz)
    | 7 => let* (val, fsz) := unpack sattr3_codec in sret (mknod_NF3FIFO val, dsz + fsz)
    | _ => sret (mknod_default, dsz)
    end;
  valid v :=
    match v with
    | mknod_NF3CHR val | mknod_NF3BLK val => valid devicedata3_codec val
    | mknod_NF3SOCK val | mknod_NF3FIFO val => valid sattr3_codec val
    | mknod_default => False
    end;
|}.
Lemma mknoddata3_arm {B} (cb : codec B) (mk : B -> mknoddata3) (ft : ftype3) (val : B) bs :
  packed_size mknoddata3_codec (mk val) = 4 + packed_size cb val ->
  pack mknoddata3_codec (mk val) =
    (let* n := pack ftype3_codec ft in let* m := pack cb val in sret (n + m)) ->
  (forall i, unpack mknoddata3_codec (to_be_bytes 4 (ftype3_as_u32 ft) ++ i) =
     sbind (unpack cb) (fun '(v, fsz) => sret (mk v, 4 + fsz)) i) ->
  encodes cb val bs ->
  exists out, encodes mknoddata3_codec (mk val) out.
Proof.
  intros Hs Hp Hu H. exists (to_be_bytes 4 (ftype3_as_u32 ft) ++ bs).
  constructor.
  - intros out. rewrite Hp, Hs. unfold sbind. cbn [pack ftype3_codec simple_enum_codec].
    rewrite u32_pack, (enc_pack _ _ _ H). finish_run.
  - rewrite Hs. autorewrite with len. by rewrite (enc_size _ _ _ H).
  - intros r. rewrite <- (assoc_L (++)), Hu, Hs. unfold sbind. by rewrite (enc_unpack _ _ _ H).
Qed.

#[export] Instance mknoddata3_codec_ok : CodecOk mknoddata3_codec.
Proof.
  assert (forall ft i, unpack u32_codec (to_be_bytes 4 (ftype3_as_u32 ft) ++ i) =
            (Ok (ftype3_as_u32 ft, 4), i)) as Hu.
  { intros ft i. apply u32_unpack_be. destruct ft; unfold in_u32, u32_MAX; cbn; lia. }
  constructor.
  - intros [val|val|val|val|] Hv; cbn [valid mknoddata3_codec] in Hv; try done;
      destruct (codec_encodes val Hv) as [bs H].
    + eapply (mknoddata3_arm _ _ NF3CHR); [done..| |done]. intros i.
      cbn [unpack mknoddata3_codec]. unfold sbind at 1. by rewrite Hu.
    + eapply (mknoddata3_arm _ _ NF3BLK); [done..| |done]. intros i.
      cbn [unpack mknoddata3_codec]. unfold sbind at 1. by rewrite Hu.
    + eapply (mknoddata3_arm _ _ NF3SOCK); [done..| |done]. intros i.
      cbn [unpack mknoddata3_codec]. unfold sbind at 1. by rewrite Hu.
    + eapply (mknoddata3_arm _ _ NF3FIFO); [done..| |done]. intros i.
      cbn [unpack mknoddata3_codec]. unfold sbind at 1. by rewrite Hu.
  - intros [val|val|val|val|]; cbn [packed_size mknoddata3_codec]; [..|done];
      match goal with |- (4 + packed_size ?c val) mod 4 = 0 =>
        pose proof (codec_aligned (c := c) val) end;
      Z.to_euclidean_division_equations; lia.
  - intros inp v n rest H. cbn [unpack mknoddata3_codec] in H. step_in H.
    apply codec_consumes in Hrun as [-> (u & -> & Hl)]. cbn in Hl.
    repeat case_match; steps_in H; cbn [packed_size mknoddata3_codec u32_codec];
      first
      [ apply codec_consumes in Hrun as [-> (u' & -> & Hu')]; split; [done|];
        exists (u ++ u'); rewrite (assoc_L (++)); split; [done|];
        autorewrite with len; lia
      | split; [done|]; exists u; split; [done|lia] ].
Qed.

Record MKNOD3args : Type := mk_MKNOD3args {
  MKNOD3args_where_ : diropargs3;
  MKNOD3args_what : mknoddata3;
}.
Definition MKNOD3args_codec : codec MKNOD3args :=
  struct_codec (diropargs3_codec &* mknoddata3_codec &* no_fields)
    (fun s => (MKNOD3args_where_ s, (MKNOD3args_what s, tt)))
    (fun '(where_, (what, _)) => mk_MKNOD3args where_ what).
#[export] Instance MKNOD3args_codec_ok : CodecOk MKNOD3args_codec.
Proof. unfold MKNOD3args_codec. apply _. Qed.

Record MKNOD3resfail : Type := mk_MKNOD3resfail {
  MKNOD3resfail_dir_wcc : wcc_data;
}.
Definition MKNOD3resfail_codec : codec MKNOD3resfail :=
  struct_codec (wcc_data_codec &* no_fields)
    (fun s => (MKNOD3resfail_dir_wcc s, tt))
    (fun '(dir_wcc, _) => mk_MKNOD3resfail dir_wcc).
#[export] Instance MKNOD3resfail_codec_ok : CodecOk MKNOD3resfail_codec.
Proof. unfold MKNOD3resfail_codec. apply _. Qed.
#[export] Instance MKNOD3resfail_decodes : DecodesValid MKNOD3resfail_codec.
Proof. unfold MKNOD3resfail_codec. apply _. Qed.

Record MKNOD3resok : Type := mk_MKNOD3resok {
  MKNOD3resok_obj : post_op_fh3;
  MKNOD3resok_obj_attributes : post_op_attr;
  MKNOD3resok_dir_wcc : wcc_data;
}.
Definition MKNOD3resok_codec : codec MKNOD3resok :=
  struct_codec (post_op_fh3_codec &* post_op_attr_codec &* wcc_data_codec &* no_fields)
    (fun s => (MKNOD3resok_obj s, (MKNOD3resok_obj_attributes s, (MKNOD3resok_dir_wcc s, tt))))
    (fun '(obj, (obj_attributes, (dir_wcc, _))) => mk_MKNOD3resok obj obj_attributes dir_wcc).
#[export] Instance MKNOD3resok_codec_ok : CodecOk MKNOD3resok_codec.
Proof. unfold MKNOD3resok_codec. apply _. Qed.
#[export] Instance MKNOD3resok_decodes : DecodesValid MKNOD3resok_codec.
Proof. unfold MKNOD3resok_codec. apply _. Qed.

Record PATHCONF3args : Type := mk_PATHCONF3args {
  PATHCONF3args_object : nfs_fh3;
}.
Definition PATHCONF3args_codec : codec PATHCONF3args :=
  struct_codec (nfs_fh3_codec &* no_fields)
    (fun s => (PATHCONF3args_object s, tt))
    (fun '(object, _) => mk_PATHCONF3args object).
#[export] Instance PATHCONF3args_codec_ok : CodecOk PATHCONF3args_codec.
Proof. unfold PATHCONF3args_codec. apply _. Qed.
#[export] Instance PATHCONF3args_decodes : DecodesValid PATHCONF3args_codec.
Proof. unfold PATHCONF3args_codec. apply _. Qed.

Record PATHCONF3resfail : Type := mk_PATHCONF3resfail {
  PATHCONF3resfail_obj_attributes : post_op_attr;
}.
Definition PATHCONF3resfail_codec : codec PATHCONF3resfail :=
  struct_codec (post_op_attr_codec &* no_fields)
    (fun s => (PATHCONF3resfail_obj_attributes s, tt))
    (fun '(obj_attributes, _) => mk_PATHCONF3resfail obj_attributes).
#[export] Instance PATHCONF3resfail_codec_ok : CodecOk PATHCONF3resfail_codec.
Proof. unfold PATHCONF3resfail_codec. apply _. Qed.
#[export] Instance PATHCONF3resfail_decodes : DecodesValid PATHCONF3resfail_codec.
Proof. unfold PATHCONF3resfail_codec. apply _. Qed.

Record PATHCONF3resok : Type := mk_PATHCONF3resok {
  PATHCONF3resok_obj_attributes : post_op_attr;
  PATHCONF3resok_linkmax : u32;
  PATHCONF3resok_name_max : u32;
  PATHCONF3resok_no_trunc : bool;
  PATHCONF3resok_chown_restricted : bool;
  PATHCONF3resok_case_insensitive : bool;
  PATHCONF3resok_case_preserving : bool;
}.
Definition PATHCONF3resok_codec : codec PATHCONF3resok :=
  struct_codec (post_op_attr_codec &* u32_codec &* u32_codec &* bool_codec &* bool_codec &* bool_codec &* bool_codec &* no_fields)
    (fun s => (PATHCONF3resok_obj_attributes s, (PATHCONF3resok_linkmax s, (PATHCONF3resok_name_max s, (PATHCONF3resok_no_trunc s, (PATHCONF3resok_chown_restricted s, (PATHCONF3resok_case_insensitive s, (PATHCONF3resok_case_preserving s, tt))))))))
    (fun '(obj_attributes, (linkmax, (name_max, (no_trunc, (chown_restricted, (case_insensitive, (case_preserving, _))))))) => mk_PATHCONF3resok obj_attributes linkmax name_max no_trunc chown_restricted case_insensitive case_preserving).
#[export] Instance PATHCONF3resok_codec_ok : CodecOk PATHCONF3resok_codec.
Proof. unfold PATHCONF3resok_codec. apply _. Qed.
#[export] Instance PATHCONF3resok_decodes : DecodesValid PATHCONF3resok_codec.
Proof. unfold PATHCONF3resok_codec. apply _. Qed.

Record READ3args : Type := mk_READ3args {
  READ3args_file : nfs_fh3;
  READ3args_offset : offset3;
  READ3args_count : count3;
}.
Definition READ3args_codec : codec READ3args :=
  struct_codec (nfs_fh3_codec &* u64_codec &* u32_codec &* no_fields)
    (fun s => (READ3args_file s, (READ3args_offset s, (READ3args_count s, tt))))
    (fun '(file, (offset, (count, _))) => mk_READ3args file offset count).
#[export] Instance READ3args_codec_ok : CodecOk READ3args_codec.
Proof. unfold READ3args_codec. apply _. Qed.
#[export] Instance READ3args_decodes : DecodesValid READ3args_codec.
Proof. unfold READ3args_codec. apply _. Qed.

Record READ3resfail : Type := mk_READ3resfail {
  READ3resfail_file_attributes : post_op_attr;
}.
Definition READ3resfail_codec : codec READ3resfail :=
  struct_codec (post_op_attr_codec &* no_fields)
    (fun s => (READ3resfail_file_attributes s, tt))
    (fun '(file_attributes, _) => mk_READ3resfail file_attributes).
#[export] Instance READ3resfail_codec_ok : CodecOk READ3resfail_codec.
Proof. unfold READ3resfail_codec. apply _. Qed.
#[export] Instance READ3resfail_decodes : DecodesValid READ3resfail_codec.
Proof. unfold READ3resfail_codec. apply _. Qed.

Record READ3resok : Type := mk_READ3resok {
  READ3resok_file_attributes : post_op_attr;
  READ3resok_count : count3;
  READ3resok_eof : bool;
  READ3resok_data : Opaque;
}.
Definition READ3resok_codec : codec READ3resok :=
  struct_codec (post_op_attr_codec &* u32_codec &* bool_codec &* opaque_codec &* no_fields)
    (fun s => (READ3resok_file_attributes s, (READ3resok_count s, (READ3resok_eof s, (READ3resok_data s, tt)))))
    (fun '(file_attributes, (count, (eof, (data, _)))) => mk_READ3resok file_attributes count eof data).
#[export] Instance READ3resok_codec_ok : CodecOk READ3resok_codec.
Proof. unfold READ3resok_codec. apply _. Qed.
#[export] Instance READ3resok_decodes : DecodesValid READ3resok_codec.
Proof. unfold READ3resok_codec. apply _. Qed.

Abbreviation cookieverf3 := (list byte) (only parsing).
Definition cookieverf3_codec : codec cookieverf3 :=
  struct_codec ((bytes_codec NFS3_COOKIEVERFSIZE) &* no_fields) (fun x => (x, tt)) (fun '(x, _) => x).
#[export] Instance cookieverf3_codec_ok : CodecOk cookieverf3_codec.
Proof. unfold cookieverf3_codec. apply _. Qed.
#[export] Instance cookieverf3_decodes : DecodesValid cookieverf3_codec.
Proof. unfold cookieverf3_codec. apply _. Qed.

Record READDIR3args : Type := mk_READDIR3args {
  READDIR3args_dir : nfs_fh3;
  READDIR3args_cookie : cookie3;
  READDIR3args_cookieverf : cookieverf3;
  READDIR3args_count : count3;
}.
Definition READDIR3args_codec : codec READDIR3args :=
  struct_codec (nfs_fh3_codec &* u64_codec &* cookieverf3_codec &* u32_codec &* no_fields)
    (fun s => (READDIR3args_dir s, (READDIR3args_cookie s, (READDIR3args_cookieverf s, (READDIR3args_count s, tt)))))
    (fun '(dir, (cookie, (cookieverf, (count, _)))) => mk_READDIR3args dir cookie cookieverf count).
#[export] Instance READDIR3args_codec_ok : CodecOk READDIR3args_codec.
Proof. unfold READDIR3args_codec. apply _. Qed.
#[export] Instance READDIR3args_decodes : DecodesValid READDIR3args_codec.
Proof. unfold READDIR3args_codec. apply _. Qed.

Record READDIR3resfail : Type := mk_READDIR3resfail {
  READDIR3resfail_dir_attributes : post_op_attr;
}.
Definition READDIR3resfail_codec : codec READDIR3resfail :=
  struct_codec (post_op_attr_codec &* no_fields)
    (fun s => (READDIR3resfail_dir_attributes s, tt))
    (fun '(dir_attributes, _) => mk_READDIR3resfail dir_attributes).
#[export] Instance READDIR3resfail_codec_ok : CodecOk READDIR3resfail_codec.
Proof. unfold READDIR3resfail_codec. apply _. Qed.
#[export] Instance READDIR3resfail_decodes : DecodesValid READDIR3resfail_codec.
Proof. unfold READDIR3resfail_codec. apply _. Qed.

Record entry3 : Type := mk_entry3 {
  entry3_fileid : fileid3;
  entry3_name : filename3;
  entry3_cookie : cookie3;
}.
Definition entry3_codec : codec entry3 :=
  struct_codec (u64_codec &* filename3_codec &* u64_codec &* no_fields)
    (fun s => (entry3_fileid s, (entry3_name s, (entry3_cookie s, tt))))
    (fun '(fileid, (name, (cookie, _))) => mk_entry3 fileid name cookie).
#[export] Instance entry3_codec_ok : CodecOk entry3_codec.
Proof. unfold entry3_codec. apply _. Qed.
#[export] Instance entry3_decodes : DecodesValid entry3_codec.
Proof. unfold entry3_codec. apply _. Qed.

Record dirlist3 : Type := mk_dirlist3 {
  dirlist3_entries : list entry3;
  dirlist3_eof : bool;
}.
Definition dirlist3_codec : codec dirlist3 :=
  struct_codec ((list_codec entry3_codec) &* bool_codec &* no_fields)
    (fun s => (dirlist3_entries s, (dirlist3_eof s, tt)))
    (fun '(entries, (eof, _)) => mk_dirlist3 entries eof).
#[export] Instance dirlist3_codec_ok : CodecOk dirlist3_codec.
Proof. unfold dirlist3_codec. apply _. Qed.
#[export] Instance dirlist3_decodes : DecodesValid dirlist3_codec.
Proof. unfold dirlist3_codec. apply _. Qed.

Record READDIR3resok : Type := mk_READDIR3resok {
  READDIR3resok_dir_attributes : post_op_attr;
  READDIR3resok_cookieverf : cookieverf3;
  READDIR3resok_reply : dirlist3;
}.
Definition READDIR3resok_codec : codec READDIR3resok :=
  struct_codec (post_op_attr_codec &* cookieverf3_codec &* dirlist3_codec &* no_fields)
    (fun s => (READDIR3resok_dir_attributes s, (READDIR3resok_cookieverf s, (READDIR3resok_reply s, tt))))
    (fun '(dir_attributes, (cookieverf, (reply, _))) => mk_READDIR3resok dir_attributes cookieverf reply).
#[export] Instance READDIR3resok_codec_ok : CodecOk READDIR3resok_codec.
Proof. unfold READDIR3resok_codec. apply _. Qed.
#[export] Instance READDIR3resok_decodes : DecodesValid READDIR3resok_codec.
Proof. unfold READDIR3resok_codec. apply _. Qed.

Record READDIRPLUS3args : Type := mk_READDIRPLUS3args {
  READDIRPLUS3args_dir : nfs_fh3;
  READDIRPLUS3args_cookie : cookie3;
  READDIRPLUS3args_cookieverf : cookieverf3;
  READDIRPLUS3args_dircount : count3;
  READDIRPLUS3args_maxcount : count3;
}.
Definition READDIRPLUS3args_codec : codec READDIRPLUS3args :=
  struct_codec (nfs_fh3_codec &* u64_codec &* cookieverf3_codec &* u32_codec &* u32_codec &* no_fields)
    (fun s => (READDIRPLUS3args_dir s, (READDIRPLUS3args_cookie s, (READDIRPLUS3args_cookieverf s, (READDIRPLUS3args_dircount s, (READDIRPLUS3args_maxcount s, tt))))))
    (fun '(dir, (cookie, (cookieverf, (dircount, (maxcount, _))))) => mk_READDIRPLUS3args dir cookie cookieverf dircount maxcount).
#[export] Instance READDIRPLUS3args_codec_ok : CodecOk READDIRPLUS3args_codec.
Proof. unfold READDIRPLUS3args_codec. apply _. Qed.
#[export] Instance READDIRPLUS3args_decodes : DecodesValid READDIRPLUS3args_codec.
Proof. unfold READDIRPLUS3args_codec. apply _. Qed.

Record READDIRPLUS3resfail : Type := mk_READDIRPLUS3resfail {
  READDIRPLUS3resfail_dir_attributes : post_op_attr;
}.
Definition READDIRPLUS3resfail_codec : codec READDIRPLUS3resfail :=
  struct_codec (post_op_attr_codec &* no_fields)
    (fun s => (READDIRPLUS3resfail_dir_attributes s, tt))
    (fun '(dir_attributes, _) => mk_READDIRPLUS3resfail dir_attributes).
#[export] Instance READDIRPLUS3resfail_codec_ok : CodecOk READDIRPLUS3resfail_codec.
Proof. unfold READDIRPLUS3resfail_codec. apply _. Qed.
#[export] Instance READDIRPLUS3resfail_decodes : DecodesValid READDIRPLUS3resfail_codec.
Proof. unfold READDIRPLUS3resfail_codec. apply _. Qed.

Record entryplus3 : Type := mk_entryplus3 {
  entryplus3_fileid : fileid3;
  entryplus3_name : filename3;
  entryplus3_cookie : cookie3;
  entryplus3_name_attributes : post_op_attr;
  entryplus3_name_handle : post_op_fh3;
}.
Definition entryplus3_codec : codec entryplus3 :=
  struct_codec (u64_codec &* filename3_codec &* u64_codec &* post_op_attr_codec &* post_op_fh3_codec &* no_fields)
    (fun s => (entryplus3_fileid s, (entryplus3_name s, (entryplus3_cookie s, (entryplus3_name_attributes s, (entryplus3_name_handle s, tt))))))
    (fun '(fileid, (name, (cookie, (name_attributes, (name_handle, _))))) => mk_entryplus3 fileid name cookie name_attributes name_handle).
#[export] Instance entryplus3_codec_ok : CodecOk entryplus3_codec.
Proof. unfold entryplus3_codec. apply _. Qed.
#[export] Instance entryplus3_decodes : DecodesValid entryplus3_codec.
Proof. unfold entryplus3_codec. apply _. Qed.

Record dirlistplus3 : Type := mk_dirlistplus3 {
  dirlistplus3_entries : list entryplus3;
  dirlistplus3_eof : bool;
}.
Definition dirlistplus3_codec : codec dirlistplus3 :=
  struct_codec ((list_codec entryplus3_codec) &* bool_codec &* no_fields)
    (fun s => (dirlistplus3_entries s, (dirlistplus3_eof s, tt)))
    (fun '(entries, (eof, _)) => mk_dirlistplus3 entries eof).
#[export] Instance dirlistplus3_codec_ok : CodecOk dirlistplus3_codec.
Proof. unfold dirlistplus3_codec. apply _. Qed.
#[export] Instance dirlistplus3_decodes : DecodesValid dirlistplus3_codec.
Proof. unfold dirlistplus3_codec. apply _. Qed.

Record READDIRPLUS3resok : Type := mk_READDIRPLUS3resok {
  READDIRPLUS3resok_dir_attributes : post_op_attr;
  READDIRPLUS3resok_cookieverf : cookieverf3;
  READDIRPLUS3resok_reply : dirlistplus3;
}.
Definition READDIRPLUS3resok_codec : codec READDIRPLUS3resok :=
  struct_codec (post_op_attr_codec &* cookieverf3_codec &* dirlistplus3_codec &* no_fields)
    (fun s => (READDIRPLUS3resok_dir_attributes s, (READDIRPLUS3resok_cookieverf s, (READDIRPLUS3resok_reply s, tt))))
    (fun '(dir_attributes, (cookieverf, (reply, _))) => mk_READDIRPLUS3resok dir_attributes cookieverf reply).
#[export] Instance READDIRPLUS3resok_codec_ok : CodecOk READDIRPLUS3resok_codec.
Proof. unfold READDIRPLUS3resok_codec. apply _. Qed.
#[export] Instance READDIRPLUS3resok_decodes : DecodesValid READDIRPLUS3resok_codec.
Proof. unfold READDIRPLUS3resok_codec. apply _. Qed.

Record READLINK3args : Type := mk_READLINK3args {
  READLINK3args_symlink : nfs_fh3;
}.
Definition READLINK3args_codec : codec READLINK3args :=
  struct_codec (nfs_fh3_codec &* no_fields)
    (fun s => (READLINK3args_symlink s, tt))
    (fun '(symlink, _) => mk_READLINK3args symlink).
#[export] Instance READLINK3args_codec_ok : CodecOk READLINK3args_codec.
Proof. unfold READLINK3args_codec. apply _. Qed.
#[export] Instance READLINK3args_decodes : DecodesValid READLINK3args_codec.
Proof. unfold READLINK3args_codec. apply _. Qed.

Record READLINK3resfail : Type := mk_READLINK3resfail {
  READLINK3resfail_symlink_attributes : post_op_attr;
}.
Definition READLINK3resfail_codec : codec READLINK3resfail :=
  struct_codec (post_op_attr_codec &* no_fields)
    (fun s => (READLINK3resfail_symlink_attributes s, tt))
    (fun '(symlink_attributes, _) => mk_READLINK3resfail symlink_attributes).
#[export] Instance READLINK3resfail_codec_ok : CodecOk READLINK3resfail_codec.
Proof. unfold READLINK3resfail_codec. apply _. Qed.
#[export] Instance READLINK3resfail_decodes : DecodesValid READLINK3resfail_codec.
Proof. unfold READLINK3resfail_codec. apply _. Qed.

Abbreviation nfspath3 := (Opaque) (only parsing).
Definition nfspath3_codec : codec nfspath3 :=
  struct_codec (opaque_codec &* no_fields) (fun x => (x, tt)) (fun '(x, _) => x).
#[export] Instance nfspath3_codec_ok : CodecOk nfspath3_codec.
Proof. unfold nfspath3_codec. apply _. Qed.
#[export] Instance nfspath3_decodes : DecodesValid nfspath3_codec.
Proof. unfold nfspath3_codec. apply _. Qed.

Record READLINK3resok : Type := mk_READLINK3resok {
  READLINK3resok_symlink_attributes : post_op_attr;
  READLINK3resok_data : nfspath3;
}.
Definition READLINK3resok_codec : codec READLINK3resok :=
  struct_codec (post_op_attr_codec &* nfspath3_codec &* no_fields)
    (fun s => (READLINK3resok_symlink_attributes s, (READLINK3resok_data s, tt)))
    (fun '(symlink_attributes, (data, _)) => mk_READLINK3resok symlink_attributes data).
#[export] Instance READLINK3resok_codec_ok : CodecOk READLINK3resok_codec.
Proof. unfold READLINK3resok_codec. apply _. Qed.
#[export] Instance READLINK3resok_decodes : DecodesValid READLINK3resok_codec.
Proof. unfold READLINK3resok_codec. apply _. Qed.

Record REMOVE3args : Type := mk_REMOVE3args {
  REMOVE3args_object : diropargs3;
}.
Definition REMOVE3args_codec : codec REMOVE3args :=
  struct_codec (diropargs3_codec &* no_fields)
    (fun s => (REMOVE3args_object s, tt))
    (fun '(object, _) => mk_REMOVE3args object).
#[export] Instance REMOVE3args_codec_ok : CodecOk REMOVE3args_codec.
Proof. unfold REMOVE3args_codec. apply _. Qed.
#[export] Instance REMOVE3args_decodes : DecodesValid REMOVE3args_codec.
Proof. unfold REMOVE3args_codec. apply _. Qed.

Record REMOVE3resfail : Type := mk_REMOVE3resfail {
  REMOVE3resfail_dir_wcc : wcc_data;
}.
Definition REMOVE3resfail_codec : codec REMOVE3resfail :=
  struct_codec (wcc_data_codec &* no_fields)
    (fun s => (REMOVE3resfail_dir_wcc s, tt))
    (fun '(dir_wcc, _) => mk_REMOVE3resfail dir_wcc).
#[export] Instance REMOVE3resfail_codec_ok : CodecOk REMOVE3resfail_codec.
Proof. unfold REMOVE3resfail_codec. apply _. Qed.
#[export] Instance REMOVE3resfail_decodes : DecodesValid REMOVE3resfail_codec.
Proof. unfold REMOVE3resfail_codec. apply _. Qed.

Record REMOVE3resok : Type := mk_REMOVE3resok {
  REMOVE3resok_dir_wcc : wcc_data;
}.
Definition REMOVE3resok_codec : codec REMOVE3resok :=
  struct_codec (wcc_data_codec &* no_fields)
    (fun s => (REMOVE3resok_dir_wcc s, tt))
    (fun '(dir_wcc, _) => mk_REMOVE3resok dir_wcc).
#[export] Instance REMOVE3resok_codec_ok : CodecOk REMOVE3resok_codec.
Proof. unfold REMOVE3resok_codec. apply _. Qed.
#[export] Instance REMOVE3resok_decodes : DecodesValid REMOVE3resok_codec.
Proof. unfold REMOVE3resok_codec. apply _. Qed.

Record RENAME3args : Type := mk_RENAME3args {
  RENAME3args_from : diropargs3;
  RENAME3args_to : diropargs3;
}.
Definition RENAME3args_codec : codec RENAME3args :=
  struct_codec (diropargs3_codec &* diropargs3_codec &* no_fields)
    (fun s => (RENAME3args_from s, (RENAME3args_to s, tt)))
    (fun '(from, (to, _)) => mk_RENAME3args from to).
#[export] Instance RENAME3args_codec_ok : CodecOk RENAME3args_codec.
Proof. unfold RENAME3args_codec. apply _. Qed.
#[export] Instance RENAME3args_decodes : DecodesValid RENAME3args_codec.
Proof. unfold RENAME3args_codec. apply _. Qed.

Record RENAME3resfail : Type := mk_RENAME3resfail {
  RENAME3resfail_fromdir_wcc : wcc_data;
  RENAME3resfail_todir_wcc : wcc_data;
}.
Definition RENAME3resfail_codec : codec RENAME3resfail :=
  struct_codec (wcc_data_codec &* wcc_data_codec &* no_fields)
    (fun s => (RENAME3resfail_fromdir_wcc s, (RENAME3resfail_todir_wcc s, tt)))
    (fun '(fromdir_wcc, (todir_wcc, _)) => mk_RENAME3resfail fromdir_wcc todir_wcc).
#[export] Instance RENAME3resfail_codec_ok : CodecOk RENAME3resfail_codec.
Proof. unfold RENAME3resfail_codec. apply _. Qed.
#[export] Instance RENAME3resfail_decodes : DecodesValid RENAME3resfail_codec.
Proof. unfold RENAME3resfail_codec. apply _. Qed.

Record RENAME3resok : Type := mk_RENAME3resok {
  RENAME3resok_fromdir_wcc : wcc_data;
  RENAME3resok_todir_wcc : wcc_data;
}.
Definition RENAME3resok_codec : codec RENAME3resok :=
  struct_codec (wcc_data_codec &* wcc_data_codec &* no_fields)
    (fun s => (RENAME3resok_fromdir_wcc s, (RENAME3resok_todir_wcc s, tt)))
    (fun '(fromdir_wcc, (todir_wcc, _)) => mk_RENAME3resok fromdir_wcc todir_wcc).
#[export] Instance RENAME3resok_codec_ok : CodecOk RENAME3resok_codec.
Proof. unfold RENAME3resok_codec. apply _. Qed.
#[export] Instance RENAME3resok_decodes : DecodesValid RENAME3resok_codec.
Proof. unfold RENAME3resok_codec. apply _. Qed.

Record RMDIR3args : Type := mk_RMDIR3args {
  RMDIR3args_object : diropargs3;
}.
Definition RMDIR3args_codec : codec RMDIR3args :=
  struct_codec (diropargs3_codec &* no_fields)
    (fun s => (RMDIR3args_object s, tt))
    (fun '(object, _) => mk_RMDIR3args object).
#[export] Instance RMDIR3args_codec_ok : CodecOk RMDIR3args_codec.
Proof. unfold RMDIR3args_codec. apply _. Qed.
#[export] Instance RMDIR3args_decodes : DecodesValid RMDIR3args_codec.
Proof. unfold RMDIR3args_codec. apply _. Qed.

Record RMDIR3resfail : Type := mk_RMDIR3resfail {
  RMDIR3resfail_dir_wcc : wcc_data;
}.
Definition RMDIR3resfail_codec : codec RMDIR3resfail :=
  struct_codec (wcc_data_codec &* no_fields)
    (fun s => (RMDIR3resfail_dir_wcc s, tt))
    (fun '(dir_wcc, _) => mk_RMDIR3resfail dir_wcc).
#[export] Instance RMDIR3resfail_codec_ok : CodecOk RMDIR3resfail_codec.
Proof. unfold RMDIR3resfail_codec. apply _. Qed.
#[export] Instance RMDIR3resfail_decodes : DecodesValid RMDIR3resfail_codec.
Proof. unfold RMDIR3resfail_codec. apply _. Qed.

Record RMDIR3resok : Type := mk_RMDIR3resok {
  RMDIR3resok_dir_wcc : wcc_data;
}.
Definition RMDIR3resok_codec : codec RMDIR3resok :=
  struct_codec (wcc_data_codec &* no_fields)
    (fun s => (RMDIR3resok_dir_wcc s, tt))
    (fun '(dir_wcc, _) => mk_RMDIR3resok dir_wcc).
#[export] Instance RMDIR3resok_codec_ok : CodecOk RMDIR3resok_codec.
Proof. unfold RMDIR3resok_codec. apply _. Qed.
#[export] Instance RMDIR3resok_decodes : DecodesValid RMDIR3resok_codec.
Proof. unfold RMDIR3resok_codec. apply _. Qed.

Abbreviation sattrguard3 := (option nfstime3) (only parsing).
Definition sattrguard3_codec : codec sattrguard3 := Nfs3Option_codec nfstime3_codec.
#[export] Instance sattrguard3_codec_ok : CodecOk sattrguard3_codec.
Proof. unfold sattrguard3_codec. apply _. Qed.
#[export] Instance sattrguard3_decodes : DecodesValid sattrguard3_codec.
Proof. unfold sattrguard3_codec. apply _. Qed.

Record SETATTR3args : Type := mk_SETATTR3args {
  SETATTR3args_object : nfs_fh3;
  SETATTR3args_new_attributes : sattr3;
  SETATTR3args_guard : sattrguard3;
}.
Definition SETATTR3args_codec : codec SETATTR3args :=
  struct_codec (nfs_fh3_codec &* sattr3_codec &* sattrguard3_codec &* no_fields)
    (fun s => (SETATTR3args_object s, (SETATTR3args_new_attributes s, (SETATTR3args_guard s, tt))))
    (fun '(object, (new_attributes, (guard, _))) => mk_SETATTR3args object new_attributes guard).
#[export] Instance SETATTR3args_codec_ok : CodecOk SETATTR3args_codec.
Proof. unfold SETATTR3args_codec. apply _. Qed.
#[export] Instance SETATTR3args_decodes : DecodesValid SETATTR3args_codec.
Proof. unfold SETATTR3args_codec. apply _. Qed.

Record SETATTR3resfail : Type := mk_SETATTR3resfail {
  SETATTR3resfail_obj_wcc : wcc_data;
}.
Definition SETATTR3resfail_codec : codec SETATTR3resfail :=
  struct_codec (wcc_data_codec &* no_fields)
    (fun s => (SETATTR3resfail_obj_wcc s, tt))
    (fun '(obj_wcc, _) => mk_SETATTR3resfail obj_wcc).
#[export] Instance SETATTR3resfail_codec_ok : CodecOk SETATTR3resfail_codec.
Proof. unfold SETATTR3resfail_codec. apply _. Qed.
#[export] Instance SETATTR3resfail_decodes : DecodesValid SETATTR3resfail_codec.
Proof. unfold SETATTR3resfail_codec. apply _. Qed.

Record SETATTR3resok : Type := mk_SETATTR3resok {
  SETATTR3resok_obj_wcc : wcc_data;
}.
Definition SETATTR3resok_codec : codec SETATTR3resok :=
  struct_codec (wcc_data_codec &* no_fields)
    (fun s => (SETATTR3resok_obj_wcc s, tt))
    (fun '(obj_wcc, _) => mk_SETATTR3resok obj_wcc).
#[export] Instance SETATTR3resok_codec_ok : CodecOk SETATTR3resok_codec.
Proof. unfold SETATTR3resok_codec. apply _. Qed.
#[export] Instance SETATTR3resok_decodes : DecodesValid SETATTR3resok_codec.
Proof. unfold SETATTR3resok_codec. apply _. Qed.

Record symlinkdata3 : Type := mk_symlinkdata3 {
  symlinkdata3_symlink_attributes : sattr3;
  symlinkdata3_symlink_data : nfspath3;
}.
Definition symlinkdata3_codec : codec symlinkdata3 :=
  struct_codec (sattr3_codec &* nfspath3_codec &* no_fields)
    (fun s => (symlinkdata3_symlink_attributes s, (symlinkdata3_symlink_data s, tt)))
    (fun '(symlink_attributes, (symlink_data, _)) => mk_symlinkdata3 symlink_attributes symlink_data).
#[export] Instance symlinkdata3_codec_ok : CodecOk symlinkdata3_codec.
Proof. unfold symlinkdata3_codec. apply _. Qed.
#[export] Instance symlinkdata3_decodes : DecodesValid symlinkdata3_codec.
Proof. unfold symlinkdata3_codec. apply _. Qed.

Record SYMLINK3args : Type := mk_SYMLINK3args {
  SYMLINK3args_where_ : diropargs3;
  SYMLINK3args_symlink : symlinkdata3;
}.
Definition SYMLINK3args_codec : codec SYMLINK3args :=
  struct_codec (diropargs3_codec &* symlinkdata3_codec &* no_fields)
    (fun s => (SYMLINK3args_where_ s, (SYMLINK3args_symlink s, tt)))
    (fun '(where_, (symlink, _)) => mk_SYMLINK3args where_ symlink).
#[export] Instance SYMLINK3args_codec_ok : CodecOk SYMLINK3args_codec.
Proof. unfold SYMLINK3args_codec. apply _. Qed.
#[export] Instance SYMLINK3args_decodes : DecodesValid SYMLINK3args_codec.
Proof. unfold SYMLINK3args_codec. apply _. Qed.

Record SYMLINK3resfail : Type := mk_SYMLINK3resfail {
  SYMLINK3resfail_dir_wcc : wcc_data;
}.
Definition SYMLINK3resfail_codec : codec SYMLINK3resfail :=
  struct_codec (wcc_data_codec &* no_fields)
    (fun s => (SYMLINK3resfail_dir_wcc s, tt))
    (fun '(dir_wcc, _) => mk_SYMLINK3resfail dir_wcc).
#[export] Instance SYMLINK3resfail_codec_ok : CodecOk SYMLINK3resfail_codec.
Proof. unfold SYMLINK3resfail_codec. apply _. Qed.
#[export] Instance SYMLINK3resfail_decodes : DecodesValid SYMLINK3resfail_codec.
Proof. unfold SYMLINK3resfail_codec. apply _. Qed.

Record SYMLINK3resok : Type := mk_SYMLINK3resok {
  SYMLINK3resok_obj : post_op_fh3;
  SYMLINK3resok_obj_attributes : post_op_attr;
  SYMLINK3resok_dir_wcc : wcc_data;
}.
Definition SYMLINK3resok_codec : codec SYMLINK3resok :=
  struct_codec (post_op_fh3_codec &* post_op_attr_codec &* wcc_data_codec &* no_fields)
    (fun s => (SYMLINK3resok_obj s, (SYMLINK3resok_obj_attributes s, (SYMLINK3resok_dir_wcc s, tt))))
    (fun '(obj, (obj_attributes, (dir_wcc, _))) => mk_SYMLINK3resok obj obj_attributes dir_wcc).
#[export] Instance SYMLINK3resok_codec_ok : CodecOk SYMLINK3resok_codec.
Proof. unfold SYMLINK3resok_codec. apply _. Qed.
#[export] Instance SYMLINK3resok_decodes : DecodesValid SYMLINK3resok_codec.
Proof. unfold SYMLINK3resok_codec. apply _. Qed.

Inductive stable_how : Type :=
| UNSTABLE
| DATA_SYNC
| FILE_SYNC.
Definition stable_how_as_u32 (v : stable_how) : u32 :=
  match v with
  | UNSTABLE => 0
  | DATA_SYNC => 1
  | FILE_SYNC => 2
  end.
Definition stable_how_codec : codec stable_how :=
  simple_enum_codec stable_how_as_u32
    [UNSTABLE; DATA_SYNC; FILE_SYNC].
#[export] Instance stable_how_eq_dec : EqDecision stable_how.
Proof. solve_decision. Defined.
#[export] Instance stable_how_codec_ok : CodecOk stable_how_codec.
Proof. unfold stable_how_codec. apply _. Qed.
#[export] Instance stable_how_decodes : DecodesValid stable_how_codec.
Proof. unfold stable_how_codec. apply _. Qed.

Record WRITE3args : Type := mk_WRITE3args {
  WRITE3args_file : nfs_fh3;
  WRITE3args_offset : offset3;
  WRITE3args_count : count3;
  WRITE3args_stable : stable_how;
  WRITE3args_data : Opaque;
}.
Definition WRITE3args_codec : codec WRITE3args :=
  struct_codec (nfs_fh3_codec &* u64_codec &* u32_codec &* stable_how_codec &* opaque_codec &* no_fields)
    (fun s => (WRITE3args_file s, (WRITE3args_offset s, (WRITE3args_count s, (WRITE3args_stable s, (WRITE3args_data s, tt))))))
    (fun '(file, (offset, (count, (stable, (data, _))))) => mk_WRITE3args file offset count stable data).
#[export] Instance WRITE3args_codec_ok : CodecOk WRITE3args_codec.
Proof. unfold WRITE3args_codec. apply _. Qed.
#[export] Instance WRITE3args_decodes : DecodesValid WRITE3args_codec.
Proof. unfold WRITE3args_codec. apply _. Qed.

Record WRITE3resfail : Type := mk_WRITE3resfail {
  WRITE3resfail_file_wcc : wcc_data;
}.
Definition WRITE3resfail_codec : codec WRITE3resfail :=
  struct_codec (wcc_data_codec &* no_fields)
    (fun s => (WRITE3resfail_file_wcc s, tt))
    (fun '(file_wcc, _) => mk_WRITE3resfail file_wcc).
#[export] Instance WRITE3resfail_codec_ok : CodecOk WRITE3resfail_codec.
Proof. unfold WRITE3resfail_codec. apply _. Qed.
#[export] Instance WRITE3resfail_decodes : DecodesValid WRITE3resfail_codec.
Proof. unfold WRITE3resfail_codec. apply _. Qed.

Record WRITE3resok : Type := mk_WRITE3resok {
  WRITE3resok_file_wcc : wcc_data;
  WRITE3resok_count : count3;
  WRITE3resok_committed : stable_how;
  WRITE3resok_verf : writeverf3;
}.
Definition WRITE3resok_codec : codec WRITE3resok :=
  struct_codec (wcc_data_codec &* u32_codec &* stable_how_codec &* writeverf3_codec &* no_fields)
    (fun s => (WRITE3resok_file_wcc s, (WRITE3resok_count s, (WRITE3resok_committed s, (WRITE3resok_verf s, tt)))))
    (fun '(file_wcc, (count, (committed, (verf, _)))) => mk_WRITE3resok file_wcc count committed verf).
#[export] Instance WRITE3resok_codec_ok : CodecOk WRITE3resok_codec.
Proof. unfold WRITE3resok_codec. apply _. Qed.
#[export] Instance WRITE3resok_decodes : DecodesValid WRITE3resok_codec.
Proof. unfold WRITE3resok_codec. apply _. Qed.

Inductive createmode3 : Type :=
| createmode3_UNCHECKED
| createmode3_GUARDED
| createmode3_EXCLUSIVE.
Definition createmode3_as_u32 (v : createmode3) : u32 :=
  match v with
  | createmode3_UNCHECKED => 0
  | createmode3_GUARDED => 1
  | createmode3_EXCLUSIVE => 2
  end.
Definition createmode3_codec : codec createmode3 :=
  simple_enum_codec createmode3_as_u32
    [createmode3_UNCHECKED; createmode3_GUARDED; createmode3_EXCLUSIVE].
#[export] Instance createmode3_eq_dec : EqDecision createmode3.
Proof. solve_decision. Defined.
#[export] Instance createmode3_codec_ok : CodecOk createmode3_codec.
Proof. unfold createmode3_codec. apply _. Qed.
#[export] Instance createmode3_decodes : DecodesValid createmode3_codec.
Proof. unfold createmode3_codec. apply _. Qed.

Inductive NFS_PROGRAM : Type :=
| NFSPROC3_NULL
| NFSPROC3_GETATTR
| NFSPROC3_SETATTR
| NFSPROC3_LOOKUP
| NFSPROC3_ACCESS
| NFSPROC3_READLINK
| NFSPROC3_READ
| NFSPROC3_WRITE
| NFSPROC3_CREATE
| NFSPROC3_MKDIR
| NFSPROC3_SYMLINK
| NFSPROC3_MKNOD
| NFSPROC3_REMOVE
| NFSPROC3_RMDIR
| NFSPROC3_RENAME
| NFSPROC3_LINK
| NFSPROC3_READDIR
| NFSPROC3_READDIRPLUS
| NFSPROC3_FSSTAT
| NFSPROC3_FSINFO
| NFSPROC3_PATHCONF
| NFSPROC3_COMMIT.
Definition NFS_PROGRAM_as_u32 (v : NFS_PROGRAM) : u32 :=
  match v with
  | NFSPROC3_NULL => 0
  | NFSPROC3_GETATTR => 1
  | NFSPROC3_SETATTR => 2
  | NFSPROC3_LOOKUP => 3
  | NFSPROC3_ACCESS => 4
  | NFSPROC3_READLINK => 5
  | NFSPROC3_READ => 6
  | NFSPROC3_WRITE => 7
  | NFSPROC3_CREATE => 8
  | NFSPROC3_MKDIR => 9
  | NFSPROC3_SYMLINK => 10
  | NFSPROC3_MKNOD => 11
  | NFSPROC3_REMOVE => 12
  | NFSPROC3_RMDIR => 13
  | NFSPROC3_RENAME => 14
  | NFSPROC3_LINK => 15
  | NFSPROC3_READDIR => 16
  | NFSPROC3_READDIRPLUS => 17
  | NFSPROC3_FSSTAT => 18
  | NFSPROC3_FSINFO => 19
  | NFSPROC3_PATHCONF => 20
  | NFSPROC3_COMMIT => 21
  end.
Definition NFS_PROGRAM_codec : codec NFS_PROGRAM :=
  simple_enum_codec NFS_PROGRAM_as_u32
    [NFSPROC3_NULL; NFSPROC3_GETATTR; NFSPROC3_SETATTR; NFSPROC3_LOOKUP; NFSPROC3_ACCESS; NFSPROC3_READLINK; NFSPROC3_READ; NFSPROC3_WRITE; NFSPROC3_CREATE; NFSPROC3_MKDIR; NFSPROC3_SYMLINK; NFSPROC3_MKNOD; NFSPROC3_REMOVE; NFSPROC3_RMDIR; NFSPROC3_RENAME; NFSPROC3_LINK; NFSPROC3_READDIR; NFSPROC3_READDIRPLUS; NFSPROC3_FSSTAT; NFSPROC3_FSINFO; NFSPROC3_PATHCONF; NFSPROC3_COMMIT].
#[export] Instance NFS_PROGRAM_eq_dec : EqDecision NFS_PROGRAM.
Proof. solve_decision. Defined.
#[export] Instance NFS_PROGRAM_codec_ok : CodecOk NFS_PROGRAM_codec.
Proof. unfold NFS_PROGRAM_codec. apply _. Qed.
#[export] Instance NFS_PROGRAM_decodes : DecodesValid NFS_PROGRAM_codec.
Proof. unfold NFS_PROGRAM_codec. apply _. Qed.

Abbreviation ACCESS3res := (Nfs3Result ACCESS3resok ACCESS3resfail) (only parsing).
Definition ACCESS3res_codec : codec ACCESS3res := Nfs3Result_codec ACCESS3resok_codec ACCESS3resfail_codec.
#[export] Instance ACCESS3res_codec_ok : CodecOk ACCESS3res_codec.
Proof. unfold ACCESS3res_codec. apply _. Qed.
#[export] Instance ACCESS3res_decodes : DecodesValid ACCESS3res_codec.
Proof. unfold ACCESS3res_codec. apply _. Qed.

Abbreviation COMMIT3res := (Nfs3Result COMMIT3resok COMMIT3resfail) (only parsing).
Definition COMMIT3res_codec : codec COMMIT3res := Nfs3Result_codec COMMIT3resok_codec COMMIT3resfail_codec.
#[export] Instance COMMIT3res_codec_ok : CodecOk COMMIT3res_codec.
Proof. unfold COMMIT3res_codec. apply _. Qed.
#[export] Instance COMMIT3res_decodes : DecodesValid COMMIT3res_codec.
Proof. unfold COMMIT3res_codec. apply _. Qed.

Abbreviation CREATE3res := (Nfs3Result CREATE3resok CREATE3resfail) (only parsing).
Definition CREATE3res_codec : codec CREATE3res := Nfs3Result_codec CREATE3resok_codec CREATE3resfail_codec.
#[export] Instance CREATE3res_codec_ok : CodecOk CREATE3res_codec.
Proof. unfold CREATE3res_codec. apply _. Qed.
#[export] Instance CREATE3res_decodes : DecodesValid CREATE3res_codec.
Proof. unfold CREATE3res_codec. apply _. Qed.

Abbreviation FSINFO3res := (Nfs3Result FSINFO3resok FSINFO3resfail) (only parsing).
Definition FSINFO3res_codec : codec FSINFO3res := Nfs3Result_codec FSINFO3resok_codec FSINFO3resfail_codec.
#[export] Instance FSINFO3res_codec_ok : CodecOk FSINFO3res_codec.
Proof. unfold FSINFO3res_codec. apply _. Qed.
#[export] Instance FSINFO3res_decodes : DecodesValid FSINFO3res_codec.
Proof. unfold FSINFO3res_codec. apply _. Qed.

Abbreviation FSSTAT3res := (Nfs3Result FSSTAT3resok FSSTAT3resfail) (only parsing).
Definition FSSTAT3res_codec : codec FSSTAT3res := Nfs3Result_codec FSSTAT3resok_codec FSSTAT3resfail_codec.
#[export] Instance FSSTAT3res_codec_ok : CodecOk FSSTAT3res_codec.
Proof. unfold FSSTAT3res_codec. apply _. Qed.
#[export] Instance FSSTAT3res_decodes : DecodesValid FSSTAT3res_codec.
Proof. unfold FSSTAT3res_codec. apply _. Qed.

Abbreviation GETATTR3res := (Nfs3Result GETATTR3resok unit) (only parsing).
Definition GETATTR3res_codec : codec GETATTR3res := Nfs3Result_codec GETATTR3resok_codec void_codec.
#[export] Instance GETATTR3res_codec_ok : CodecOk GETATTR3res_codec.
Proof. unfold GETATTR3res_codec. apply _. Qed.
#[export] Instance GETATTR3res_decodes : DecodesValid GETATTR3res_codec.
Proof. unfold GETATTR3res_codec. apply _. Qed.

Abbreviation LINK3res := (Nfs3Result LINK3resok LINK3resfail) (only parsing).
Definition LINK3res_codec : codec LINK3res := Nfs3Result_codec LINK3resok_codec LINK3resfail_codec.
#[export] Instance LINK3res_codec_ok : CodecOk LINK3res_codec.
Proof. unfold LINK3res_codec. apply _. Qed.
#[export] Instance LINK3res_decodes : DecodesValid LINK3res_codec.
Proof. unfold LINK3res_codec. apply _. Qed.

Abbreviation LOOKUP3res := (Nfs3Result LOOKUP3resok LOOKUP3resfail) (only parsing).
Definition LOOKUP3res_codec : codec LOOKUP3res := Nfs3Result_codec LOOKUP3resok_codec LOOKUP3resfail_codec.
#[export] Instance LOOKUP3res_codec_ok : CodecOk LOOKUP3res_codec.
Proof. unfold LOOKUP3res_codec. apply _. Qed.
#[export] Instance LOOKUP3res_decodes : DecodesValid LOOKUP3res_codec.
Proof. unfold LOOKUP3res_codec. apply _. Qed.

Abbreviation MKDIR3res := (Nfs3Result MKDIR3resok MKDIR3resfail) (only parsing).
Definition MKDIR3res_codec : codec MKDIR3res := Nfs3Result_codec MKDIR3resok_codec MKDIR3resfail_codec.
#[export] Instance MKDIR3res_codec_ok : CodecOk MKDIR3res_codec.
Proof. unfold MKDIR3res_codec. apply _. Qed.
#[export] Instance MKDIR3res_decodes : DecodesValid MKDIR3res_codec.
Proof. unfold MKDIR3res_codec. apply _. Qed.

Abbreviation MKNOD3res := (Nfs3Result MKNOD3resok MKNOD3resfail) (only parsing).
Definition MKNOD3res_codec : codec MKNOD3res := Nfs3Result_codec MKNOD3resok_codec MKNOD3resfail_codec.
#[export] Instance MKNOD3res_codec_ok : CodecOk MKNOD3res_codec.
Proof. unfold MKNOD3res_codec. apply _. Qed.
#[export] Instance MKNOD3res_decodes : DecodesValid MKNOD3res_codec.
Proof. unfold MKNOD3res_codec. apply _. Qed.

Abbreviation PATHCONF3res := (Nfs3Result PATHCONF3resok PATHCONF3resfail) (only parsing).
Definition PATHCONF3res_codec : codec PATHCONF3res := Nfs3Result_codec PATHCONF3resok_codec PATHCONF3resfail_codec.
#[export] Instance PATHCONF3res_codec_ok : CodecOk PATHCONF3res_codec.
Proof. unfold PATHCONF3res_codec. apply _. Qed.
#[export] Instance PATHCONF3res_decodes : DecodesValid PATHCONF3res_codec.
Proof. unfold PATHCONF3res_codec. apply _. Qed.

Abbreviation READ3res := (Nfs3Result READ3resok READ3resfail) (only parsing).
Definition READ3res_codec : codec READ3res := Nfs3Result_codec READ3resok_codec READ3resfail_codec.
#[export] Instance READ3res_codec_ok : CodecOk READ3res_codec.
Proof. unfold READ3res_codec. apply _. Qed.
#[export] Instance READ3res_decodes : DecodesValid READ3res_codec.
Proof. unfold READ3res_codec. apply _. Qed.

Abbreviation READDIR3res := (Nfs3Result READDIR3resok READDIR3resfail) (only parsing).
Definition READDIR3res_codec : codec READDIR3res := Nfs3Result_codec READDIR3resok_codec READDIR3resfail_codec.
#[export] Instance READDIR3res_codec_ok : CodecOk READDIR3res_codec.
Proof. unfold READDIR3res_codec. apply _. Qed.
#[export] Instance READDIR3res_decodes : DecodesValid READDIR3res_codec.
Proof. unfold READDIR3res_codec. apply _. Qed.

Abbreviation READDIRPLUS3res := (Nfs3Result READDIRPLUS3resok READDIRPLUS3resfail) (only parsing).
Definition READDIRPLUS3res_codec : codec READDIRPLUS3res := Nfs3Result_codec READDIRPLUS3resok_codec READDIRPLUS3resfail_codec.
#[export] Instance READDIRPLUS3res_codec_ok : CodecOk READDIRPLUS3res_codec.
Proof. unfold READDIRPLUS3res_codec. apply _. Qed.
#[export] Instance READDIRPLUS3res_decodes : DecodesValid READDIRPLUS3res_codec.
Proof. unfold READDIRPLUS3res_codec. apply _. Qed.

Abbreviation READLINK3res := (Nfs3Result READLINK3resok READLINK3resfail) (only parsing).
Definition READLINK3res_codec : codec READLINK3res := Nfs3Result_codec READLINK3resok_codec READLINK3resfail_codec.
#[export] Instance READLINK3res_codec_ok : CodecOk READLINK3res_codec.
Proof. unfold READLINK3res_codec. apply _. Qed.
#[export] Instance READLINK3res_decodes : DecodesValid READLINK3res_codec.
Proof. unfold READLINK3res_codec. apply _. Qed.

Abbreviation REMOVE3res := (Nfs3Result REMOVE3resok REMOVE3resfail) (only parsing).
Definition REMOVE3res_codec : codec REMOVE3res := Nfs3Result_codec REMOVE3resok_codec REMOVE3resfail_codec.
#[export] Instance REMOVE3res_codec_ok : CodecOk REMOVE3res_codec.
Proof. unfold REMOVE3res_codec. apply _. Qed.
#[export] Instance REMOVE3res_decodes : DecodesValid REMOVE3res_codec.
Proof. unfold REMOVE3res_codec. apply _. Qed.

Abbreviation RENAME3res := (Nfs3Result RENAME3resok RENAME3resfail) (only parsing).
Definition RENAME3res_codec : codec RENAME3res := Nfs3Result_codec RENAME3resok_codec RENAME3resfail_codec.
#[export] Instance RENAME3res_codec_ok : CodecOk RENAME3res_codec.
Proof. unfold RENAME3res_codec. apply _. Qed.
#[export] Instance RENAME3res_decodes : DecodesValid RENAME3res_codec.
Proof. unfold RENAME3res_codec. apply _. Qed.

Abbreviation RMDIR3res := (Nfs3Result RMDIR3resok RMDIR3resfail) (only parsing).
Definition RMDIR3res_codec : codec RMDIR3res := Nfs3Result_codec RMDIR3resok_codec RMDIR3resfail_codec.
#[export] Instance RMDIR3res_codec_ok : CodecOk RMDIR3res_codec.
Proof. unfold RMDIR3res_codec. apply _. Qed.
#[export] Instance RMDIR3res_decodes : DecodesValid RMDIR3res_codec.
Proof. unfold RMDIR3res_codec. apply _. Qed.

Abbreviation SETATTR3res := (Nfs3Result SETATTR3resok SETATTR3resfail) (only parsing).
Definition SETATTR3res_codec : codec SETATTR3res := Nfs3Result_codec SETATTR3resok_codec SETATTR3resfail_codec.
#[export] Instance SETATTR3res_codec_ok : CodecOk SETATTR3res_codec.
Proof. unfold SETATTR3res_codec. apply _. Qed.
#[export] Instance SETATTR3res_decodes : DecodesValid SETATTR3res_codec.
Proof. unfold SETATTR3res_codec. apply _. Qed.

Abbreviation SYMLINK3res := (Nfs3Result SYMLINK3resok SYMLINK3resfail) (only parsing).
Definition SYMLINK3res_codec : codec SYMLINK3res := Nfs3Result_codec SYMLINK3resok_codec SYMLINK3resfail_codec.
#[export] Instance SYMLINK3res_codec_ok : CodecOk SYMLINK3res_codec.
Proof. unfold SYMLINK3res_codec. apply _. Qed.
#[export] Instance SYMLINK3res_decodes : DecodesValid SYMLINK3res_codec.
Proof. unfold SYMLINK3res_codec. apply _. Qed.

Abbreviation WRITE3res := (Nfs3Result WRITE3resok WRITE3resfail) (only parsing).
Definition WRITE3res_codec : codec WRITE3res := Nfs3Result_codec WRITE3resok_codec WRITE3resfail_codec.
#[export] Instance WRITE3res_codec_ok : CodecOk WRITE3res_codec.
Proof. unfold WRITE3res_codec. apply _. Qed.
#[export] Instance WRITE3res_decodes : DecodesValid WRITE3res_codec.
Proof. unfold WRITE3res_codec. apply _. Qed.

(** ** Procedure numbers: [TryFrom<u32> for NFS_PROGRAM] *)

Definition NFS_PROGRAM_try_from (value : u32) : result NFS_PROGRAM Error :=
  match value with
  | 0 => Ok NFSPROC3_NULL
  | 1 => Ok NFSPROC3_GETATTR
  | 2 => Ok NFSPROC3_SETATTR
  | 3 => Ok NFSPROC3_LOOKUP
  | 4 => Ok NFSPROC3_ACCESS
  | 5 => Ok NFSPROC3_READLINK
  | 6 => Ok NFSPROC3_READ
  | 7 => Ok NFSPROC3_WRITE
  | 8 => Ok NFSPROC3_CREATE
  | 9 => Ok NFSPROC3_MKDIR
  | 10 => Ok NFSPROC3_SYMLINK
  | 11 => Ok NFSPROC3_MKNOD
  | 12 => Ok NFSPROC3_REMOVE
  | 13 => Ok NFSPROC3_RMDIR
  | 14 => Ok NFSPROC3_RENAME
  | 15 => Ok NFSPROC3_LINK
  | 16 => Ok NFSPROC3_READDIR
  | 17 => Ok NFSPROC3_READDIRPLUS
  | 18 => Ok NFSPROC3_FSSTAT
  | 19 => Ok NFSPROC3_FSINFO
  | 20 => Ok NFSPROC3_PATHCONF
  | 21 => Ok NFSPROC3_COMMIT
  | _ => Err (InvalidEnumValue value)
  end.
