(* ===== verification/RpcTypes.v ===== *)
(** * RPC messages: [nfs3_types::rpc]

    The fragment header of record marking and the call and reply messages of
    ONC RPC, with their codecs.  The variants of [accept_stat_data],
    [rejected_reply], [reply_body] and [msg_body] are prefixed [data_],
    [rejected_], [reply_] and [body_]. *)

From S2P Require Import Prelude Xdr XdrLaws.
Open Scope Z_scope.
Open Scope nfs_scope.

Definition RPC_VERSION_2 : u32 := 2.

Record fragment_header : Type := mk_fragment_header {
  fragment_header_header : u32;
}.
Definition fragment_header_codec : codec fragment_header :=
  struct_codec (u32_codec &* no_fields)
    (fun s => (fragment_header_header s, tt))
    (fun '(header, _) => mk_fragment_header header).
#[export] Instance fragment_header_eq_dec : EqDecision fragment_header.
Proof. solve_decision. Defined.
#[export] Instance fragment_header_codec_ok : CodecOk fragment_header_codec.
Proof. unfold fragment_header_codec. apply _. Qed.
#[export] Instance fragment_header_decodes : DecodesValid fragment_header_codec.
Proof. unfold fragment_header_codec. apply _. Qed.

Definition EOF_FLAG : u32 := 2147483648.
Definition MASK : u32 := 2147483647.

(** [fragment_header::new] asserts that the length fits in 31 bits. *)
Definition fragment_header_new (length : u32) (eof : bool) : outcome fragment_header :=
  if length <=? MASK then
    let header := length in
    let header := if eof then Z.lor header EOF_FLAG else header in
    Ret (mk_fragment_header header)
  else Panic.

Definition fragment_header_eof (h : fragment_header) : bool :=
  negb (Z.land (fragment_header_header h) EOF_FLAG =? 0).

Definition fragment_header_fragment_length (h : fragment_header) : u32 :=
  Z.land (fragment_header_header h) MASK.

Definition fragment_header_into_xdr_buf (h : fragment_header) : list byte :=
  to_be_bytes 4 (fragment_header_header h).

(** [From<[u8; 4]>]. *)
Definition fragment_header_from (bytes : list byte) : fragment_header :=
  mk_fragment_header (from_be_bytes bytes).

(** The header word: length in the low 31 bits, the flag in the top one. *)
Lemma fragment_header_value length eof h :
  0 <= length -> fragment_header_new length eof = Ret h ->
  length <= MASK /\
  fragment_header_header h = (if eof then length + EOF_FLAG else length).
Proof.
  unfold fragment_header_new, MASK, EOF_FLAG. intros Hp H. case_match; [|done].
  simplify_eq. cbn. split; [lia|]. destruct eof; [|done].
  rewrite <- Z.add_lor_land.
  enough (Z.land length 2147483648 = 0) as -> by lia.
  change 2147483648 with (2 ^ 31). apply Z.bits_inj'. intros n Hn.
  rewrite Z.land_spec, Z.bits_0, Z.pow2_bits_eqb by lia.
  destruct (Z.eqb_spec 31 n) as [<-|]; [|by rewrite andb_false_r].
  rewrite andb_true_r. apply Z.bits_above_log2; [lia|].
  destruct (decide (length = 0)) as [->|]; [by vm_compute|].
  apply Z.log2_lt_pow2; lia.
Qed.

Lemma fragment_header_length_spec h :
  fragment_header_fragment_length h = fragment_header_header h mod 2 ^ 31.
Proof. unfold fragment_header_fragment_length. change MASK with (Z.ones 31). by rewrite Z.land_ones. Qed.

Lemma fragment_header_eof_spec h :
  in_u32 (fragment_header_header h) ->
  fragment_header_eof h = (2 ^ 31 <=? fragment_header_header h).
Proof.
  unfold in_u32, u32_MAX, fragment_header_eof, EOF_FLAG. intros Hh.
  set (x := fragment_header_header h) in *.
  change 2147483648 with (2 ^ 31).
  assert (Z.land x (2 ^ 31) = if Z.testbit x 31 then 2 ^ 31 else 0) as ->.
  { apply Z.bits_inj'. intros n Hn. rewrite Z.land_spec, Z.pow2_bits_eqb by lia.
    destruct (Z.eqb_spec 31 n) as [<-|Hne].
    - destruct (Z.testbit x 31); [by vm_compute|by vm_compute].
    - rewrite andb_false_r. destruct (Z.testbit x 31).
      + rewrite Z.pow2_bits_eqb by lia. symmetry. by apply Z.eqb_neq.
      + by rewrite Z.bits_0. }
  rewrite Z.testbit_eqb by lia.
  destruct (Z.leb_spec (2 ^ 31) x).
  - replace (x / 2 ^ 31) with 1; [done|]. apply Z.div_unique with (x - 2 ^ 31); lia.
  - rewrite Z.div_small by lia. done.
Qed.

Lemma fragment_header_new_spec length eof :
  0 <= length <= MASK -> exists h, fragment_header_new length eof = Ret h /\
    in_u32 (fragment_header_header h) /\
    fragment_header_eof h = eof /\ fragment_header_fragment_length h = length.
Proof.
  intros Hl.
  destruct (fragment_header_new length eof) as [h| |] eqn:E; cycle 1.
  { unfold fragment_header_new in E. by rewrite (proj2 (Z.leb_le _ _)) in E by lia. }
  { unfold fragment_header_new in E. by rewrite (proj2 (Z.leb_le _ _)) in E by lia. }
  exists h. apply fragment_header_value in E as [_ Hv]; [|lia].
  assert (in_u32 (fragment_header_header h)) as Hu.
  { rewrite Hv. unfold in_u32, u32_MAX, EOF_FLAG, MASK in *. destruct eof; lia. }
  split; [reflexivity|]. split; [exact Hu|].
  rewrite fragment_header_length_spec, (fragment_header_eof_spec _ Hu), Hv.
  unfold EOF_FLAG, MASK in *. clear Hv Hu. destruct eof; split.
  - apply Z.leb_le. lia.
  - symmetry. apply Z.mod_unique with 1; lia.
  - apply Z.leb_gt. lia.
  - apply Z.mod_small. lia.
Qed.

Inductive msg_type : Type :=
| CALL
| REPLY.
Definition msg_type_as_u32 (v : msg_type) : u32 :=
  match v with
  | CALL => 0
  | REPLY => 1
  end.
Definition msg_type_codec : codec msg_type :=
  simple_enum_codec msg_type_as_u32
    [CALL; REPLY].
#[export] Instance msg_type_eq_dec : EqDecision msg_type.
Proof. solve_decision. Defined.
#[export] Instance msg_type_codec_ok : CodecOk msg_type_codec.
Proof. unfold msg_type_codec. apply _. Qed.
#[export] Instance msg_type_decodes : DecodesValid msg_type_codec.
Proof. unfold msg_type_codec. apply _. Qed.

Inductive reply_stat : Type :=
| MSG_ACCEPTED
| MSG_DENIED.
Definition reply_stat_as_u32 (v : reply_stat) : u32 :=
  match v with
  | MSG_ACCEPTED => 0
  | MSG_DENIED => 1
  end.
Definition reply_stat_codec : codec reply_stat :=
  simple_enum_codec reply_stat_as_u32
    [MSG_ACCEPTED; MSG_DENIED].
#[export] Instance reply_stat_eq_dec : EqDecision reply_stat.
Proof. solve_decision. Defined.
#[export] Instance reply_stat_codec_ok : CodecOk reply_stat_codec.
Proof. unfold reply_stat_codec. apply _. Qed.
#[export] Instance reply_stat_decodes : DecodesValid reply_stat_codec.
Proof. unfold reply_stat_codec. apply _. Qed.

Inductive accept_stat : Type :=
| SUCCESS
| PROG_UNAVAIL
| PROG_MISMATCH
| PROC_UNAVAIL
| GARBAGE_ARGS
| SYSTEM_ERR.
Definition accept_stat_as_u32 (v : accept_stat) : u32 :=
  match v with
  | SUCCESS => 0
  | PROG_UNAVAIL => 1
  | PROG_MISMATCH => 2
  | PROC_UNAVAIL => 3
  | GARBAGE_ARGS => 4
  | SYSTEM_ERR => 5
  end.
Definition accept_stat_codec : codec accept_stat :=
  simple_enum_codec accept_stat_as_u32
    [SUCCESS; PROG_UNAVAIL; PROG_MISMATCH; PROC_UNAVAIL; GARBAGE_ARGS; SYSTEM_ERR].
#[export] Instance accept_stat_eq_dec : EqDecision accept_stat.
Proof. solve_decision. Defined.
#[export] Instance accept_stat_codec_ok : CodecOk accept_stat_codec.
Proof. unfold accept_stat_codec. apply _. Qed.
#[export] Instance accept_stat_decodes : DecodesValid accept_stat_codec.
Proof. unfold accept_stat_codec. apply _. Qed.

Inductive reject_stat : Type :=
| RPC_MISMATCH
| AUTH_ERROR.
Definition reject_stat_as_u32 (v : reject_stat) : u32 :=
  match v with
  | RPC_MISMATCH => 0
  | AUTH_ERROR => 1
  end.
Definition reject_stat_codec : codec reject_stat :=
  simple_enum_codec reject_stat_as_u32
    [RPC_MISMATCH; AUTH_ERROR].
#[export] Instance reject_stat_eq_dec : EqDecision reject_stat.
Proof. solve_decision. Defined.
#[export] Instance reject_stat_codec_ok : CodecOk reject_stat_codec.
Proof. unfold reject_stat_codec. apply _. Qed.
#[export] Instance reject_stat_decodes : DecodesValid reject_stat_codec.
Proof. unfold reject_stat_codec. apply _. Qed.

Inductive auth_stat : Type :=
| AUTH_OK
| AUTH_BADCRED
| AUTH_REJECTEDCRED
| AUTH_BADVERF
| AUTH_REJECTEDVERF
| AUTH_TOOWEAK
| AUTH_INVALIDRESP
| AUTH_FAILED.
Definition auth_stat_as_u32 (v : auth_stat) : u32 :=
  match v with
  | AUTH_OK => 0
  | AUTH_BADCRED => 1
  | AUTH_REJECTEDCRED => 2
  | AUTH_BADVERF => 3
  | AUTH_REJECTEDVERF => 4
  | AUTH_TOOWEAK => 5
  | AUTH_INVALIDRESP => 6
  | AUTH_FAILED => 7
  end.
Definition auth_stat_codec : codec auth_stat :=
  simple_enum_codec auth_stat_as_u32
    [AUTH_OK; AUTH_BADCRED; AUTH_REJECTEDCRED; AUTH_BADVERF; AUTH_REJECTEDVERF; AUTH_TOOWEAK; AUTH_INVALIDRESP; AUTH_FAILED].
#[export] Instance auth_stat_eq_dec : EqDecision auth_stat.
Proof. solve_decision. Defined.
#[export] Instance auth_stat_codec_ok : CodecOk auth_stat_codec.
Proof. unfold auth_stat_codec. apply _. Qed.
#[export] Instance auth_stat_decodes : DecodesValid auth_stat_codec.
Proof. unfold auth_stat_codec. apply _. Qed.

Inductive auth_flavor : Type :=
| AUTH_NULL
| AUTH_UNIX
| AUTH_SHORT
| AUTH_DES.
Definition auth_flavor_as_u32 (v : auth_flavor) : u32 :=
  match v with
  | AUTH_NULL => 0
  | AUTH_UNIX => 1
  | AUTH_SHORT => 2
  | AUTH_DES => 3
  end.
Definition auth_flavor_codec : codec auth_flavor :=
  simple_enum_codec auth_flavor_as_u32
    [AUTH_NULL; AUTH_UNIX; AUTH_SHORT; AUTH_DES].
#[export] Instance auth_flavor_eq_dec : EqDecision auth_flavor.
Proof. solve_decision. Defined.
#[export] Instance auth_flavor_codec_ok : CodecOk auth_flavor_codec.
Proof. unfold auth_flavor_codec. apply _. Qed.
#[export] Instance auth_flavor_decodes : DecodesValid auth_flavor_codec.
Proof. unfold auth_flavor_codec. apply _. Qed.

Record opaque_auth : Type := mk_opaque_auth {
  opaque_auth_flavor : auth_flavor;
  opaque_auth_body : Opaque;
}.
Definition opaque_auth_codec : codec opaque_auth :=
  struct_codec (auth_flavor_codec &* opaque_codec &* no_fields)
    (fun s => (opaque_auth_flavor s, (opaque_auth_body s, tt)))
    (fun '(flavor, (body, _)) => mk_opaque_auth flavor body).
#[export] Instance opaque_auth_eq_dec : EqDecision opaque_auth.
Proof. solve_decision. Defined.
#[export] Instance opaque_auth_codec_ok : CodecOk opaque_auth_codec.
Proof. unfold opaque_auth_codec. apply _. Qed.
#[export] Instance opaque_auth_decodes : DecodesValid opaque_auth_codec.
Proof. unfold opaque_auth_codec. apply _. Qed.

(** [Default for opaque_auth]. *)
Definition opaque_auth_default : opaque_auth := mk_opaque_auth AUTH_NULL [].

Record auth_unix : Type := mk_auth_unix {
  auth_unix_stamp : u32;
  auth_unix_machinename : Opaque;
  auth_unix_uid : u32;
  auth_unix_gid : u32;
  auth_unix_gids : list u32;
}.
Definition auth_unix_codec : codec auth_unix :=
  struct_codec (u32_codec &* opaque_codec &* u32_codec &* u32_codec &* vec_u32_codec &* no_fields)
    (fun s => (auth_unix_stamp s, (auth_unix_machinename s, (auth_unix_uid s, (auth_unix_gid s, (auth_unix_gids s, tt))))))
    (fun '(stamp, (machinename, (uid, (gid, (gids, _))))) => mk_auth_unix stamp machinename uid gid gids).
#[export] Instance auth_unix_eq_dec : EqDecision auth_unix.
Proof. solve_decision. Defined.
#[export] Instance auth_unix_codec_ok : CodecOk auth_unix_codec.
Proof. unfold auth_unix_codec. apply _. Qed.
#[export] Instance auth_unix_decodes : DecodesValid auth_unix_codec.
Proof. unfold auth_unix_codec. apply _. Qed.

(** [Default for auth_unix]. *)
Definition auth_unix_default : auth_unix := mk_auth_unix 0 [] 0 0 [].

(** [opaque_auth::auth_unix]; it panics when the credentials cannot be packed. *)
Definition opaque_auth_auth_unix (auth : auth_unix) : outcome opaque_auth :=
  match pack auth_unix_codec auth [] with
  | (Ok _, out) => Ret (mk_opaque_auth AUTH_UNIX out)
  | (Err _, _) => Panic
  end.

Record call_body : Type := mk_call_body {
  call_body_rpcvers : u32;
  call_body_prog : u32;
  call_body_vers : u32;
  call_body_proc : u32;
  call_body_cred : opaque_auth;
  call_body_verf : opaque_auth;
}.
Definition call_body_codec : codec call_body :=
  struct_codec (u32_codec &* u32_codec &* u32_codec &* u32_codec &* opaque_auth_codec &* opaque_auth_codec &* no_fields)
    (fun s => (call_body_rpcvers s, (call_body_prog s, (call_body_vers s, (call_body_proc s, (call_body_cred s, (call_body_verf s, tt)))))))
    (fun '(rpcvers, (prog, (vers, (proc, (cred, (verf, _)))))) => mk_call_body rpcvers prog vers proc cred verf).
#[export] Instance call_body_eq_dec : EqDecision call_body.
Proof. solve_decision. Defined.
#[export] Instance call_body_codec_ok : CodecOk call_body_codec.
Proof. unfold call_body_codec. apply _. Qed.
#[export] Instance call_body_decodes : DecodesValid call_body_codec.
Proof. unfold call_body_codec. apply _. Qed.

(** The payload of an accepted reply.  The procedure's result is not part of
    it: the server packs it after the message (see [RpcWire]). *)
Inductive accept_stat_data : Type :=
| data_SUCCESS
| data_PROG_UNAVAIL
| data_PROG_MISMATCH (low high : u32)
| data_PROC_UNAVAIL
| data_GARBAGE_ARGS
| data_SYSTEM_ERR.

Definition accept_stat_data_codec : codec accept_stat_data := {|
  packed_size d :=
    4 + match d with
        | data_SUCCESS | data_PROG_UNAVAIL | data_PROC_UNAVAIL
        | data_GARBAGE_ARGS | data_SYSTEM_ERR => 0
        | data_PROG_MISMATCH _ _ => 8
        end;
  pack d :=
    match d with
    | data_SUCCESS => pack accept_stat_codec SUCCESS
    | data_PROG_UNAVAIL => pack accept_stat_codec PROG_UNAVAIL
    | data_PROG_MISMATCH low high =>
        let* n := pack accept_stat_codec PROG_MISMATCH in
        let* m := pack u32_codec low in
        let* k := pack u32_codec high in
        sret (n + m + k)
    | data_PROC_UNAVAIL => pack accept_stat_codec PROC_UNAVAIL
    | data_GARBAGE_ARGS => pack accept_stat_codec GARBAGE_ARGS
    | data_SYSTEM_ERR => pack accept_stat_codec SYSTEM_ERR
    end;
  unpack :=
    let* (stat, len) := unpack accept_stat_codec in
    let* (body, body_len) :=
      match stat with
      | SUCCESS => sret (data_SUCCESS, 0)
      | PROG_MISMATCH =>
          let* (low, low_len) := unpack u32_codec in
          let* (high, high_len) := unpack u32_codec in
          sret (data_PROG_MISMATCH low high, low_len + high_len)
      | PROG_UNAVAIL => sret (data_PROG_UNAVAIL, 0)
      | PROC_UNAVAIL => sret (data_PROC_UNAVAIL, 0)
      | GARBAGE_ARGS => sret (data_GARBAGE_ARGS, 0)
      | SYSTEM_ERR => sret (data_SYSTEM_ERR, 0)
      end in
    sret (body, len + body_len);
  valid d :=
    match d with
    | data_PROG_MISMATCH low high => in_u32 low /\ in_u32 high
    | _ => True
    end;
|}.

#[export] Instance accept_stat_data_eq_dec : EqDecision accept_stat_data.
Proof. solve_decision. Defined.

#[export] Instance accept_stat_data_codec_ok : CodecOk accept_stat_data_codec.
Proof.
  constructor.
  - assert (forall a, unpack accept_stat_codec =
              unpack accept_stat_codec /\ encodes accept_stat_codec a
                (to_be_bytes 4 (accept_stat_as_u32 a))) as He.
    { intros a. split; [done|]. destruct (codec_encodes (c := accept_stat_codec) a I) as [bs H].
      pose proof (enc_pack _ _ _ H []) as Hp. cbn [pack accept_stat_codec simple_enum_codec] in Hp.
      rewrite u32_pack in Hp. by simplify_eq. }
    intros d Hd. destruct d as [| |low high| | |];
      match goal with
      | |- context [data_PROG_MISMATCH] => idtac
      | |- context [data_SUCCESS] => exists (to_be_bytes 4 (accept_stat_as_u32 SUCCESS))
      | |- context [data_PROG_UNAVAIL] => exists (to_be_bytes 4 (accept_stat_as_u32 PROG_UNAVAIL))
      | |- context [data_PROC_UNAVAIL] => exists (to_be_bytes 4 (accept_stat_as_u32 PROC_UNAVAIL))
      | |- context [data_GARBAGE_ARGS] => exists (to_be_bytes 4 (accept_stat_as_u32 GARBAGE_ARGS))
      | |- context [data_SYSTEM_ERR] => exists (to_be_bytes 4 (accept_stat_as_u32 SYSTEM_ERR))
      end;
      try (constructor; [done|done|]; intros r;
           cbn [unpack accept_stat_data_codec]; unfold sbind at 1;
           by rewrite (enc_unpack _ _ _ (proj2 (He _)))).
    destruct Hd as [Hl Hh].
    exists (to_be_bytes 4 2 ++ to_be_bytes 4 low ++ to_be_bytes 4 high).
    constructor; cbn [pack packed_size unpack accept_stat_data_codec].
    + intros out. unfold sbind. rewrite (enc_pack _ _ _ (proj2 (He PROG_MISMATCH))), !u32_pack.
      cbn [accept_stat_as_u32]. finish_run.
    + by autorewrite with len.
    + intros r. unfold sbind at 1. rewrite <- !(assoc_L (++)).
      rewrite (enc_unpack _ _ _ (proj2 (He PROG_MISMATCH))). unfold sbind.
      rewrite !u32_unpack_be by done. done.
  - by intros [].
  - intros inp d n rest H. cbn [unpack accept_stat_data_codec] in H. step_in H. step_in H.
    apply codec_consumes in Hrun as [-> (u & -> & Hu)]. cbn [packed_size accept_stat_codec simple_enum_codec] in *.
    step_in H. destruct a; steps_in Hrun0; cbn [packed_size accept_stat_data_codec];
      try (split; [done|]; exists u; split; [done|lia]).
    apply codec_consumes in Hrun as [-> (u1 & -> & Hu1)].
    apply codec_consumes in Hrun1 as [-> (u2 & -> & Hu2)]. cbn [packed_size u32_codec] in *.
    split; [done|]. exists (u ++ u1 ++ u2). rewrite <- !(assoc_L (++)). split; [done|].
    autorewrite with len. lia.
Qed.

#[export] Instance accept_stat_data_decodes : DecodesValid accept_stat_data_codec.
Proof.
  intros inp d n rest H. cbn [unpack accept_stat_data_codec] in H. steps_in H.
  destruct a; steps_in Hrun0; cbn; try done.
  split; eapply (decodes_valid (c := u32_codec)); eassumption.
Qed.

Record accepted_reply : Type := mk_accepted_reply {
  accepted_reply_verf : opaque_auth;
  accepted_reply_reply_data : accept_stat_data;
}.
Definition accepted_reply_codec : codec accepted_reply :=
  struct_codec (opaque_auth_codec &* accept_stat_data_codec &* no_fields)
    (fun s => (accepted_reply_verf s, (accepted_reply_reply_data s, tt)))
    (fun '(verf, (reply_data, _)) => mk_accepted_reply verf reply_data).
#[export] Instance accepted_reply_eq_dec : EqDecision accepted_reply.
Proof. solve_decision. Defined.
#[export] Instance accepted_reply_codec_ok : CodecOk accepted_reply_codec.
Proof. unfold accepted_reply_codec. apply _. Qed.
#[export] Instance accepted_reply_decodes : DecodesValid accepted_reply_codec.
Proof. unfold accepted_reply_codec. apply _. Qed.

Inductive rejected_reply : Type :=
| rejected_RPC_MISMATCH (low high : u32)
| rejected_AUTH_ERROR (stat : auth_stat).

Definition rpc_mismatch (low high : u32) : rejected_reply := rejected_RPC_MISMATCH low high.
Definition auth_error (stat : auth_stat) : rejected_reply := rejected_AUTH_ERROR stat.

Definition rejected_reply_codec : codec rejected_reply := {|
  packed_size r :=
    4 + match r with
        | rejected_RPC_MISMATCH _ _ => 8
        | rejected_AUTH_ERROR _ => 4
        end;
  pack r :=
    match r with
    | rejected_RPC_MISMATCH low high =>
        let* n := pack reject_stat_codec RPC_MISMATCH in
        let* m := pack u32_codec low in
        let* k := pack u32_codec high in
        sret (n + m + k)
    | rejected_AUTH_ERROR stat =>
        let* n := pack reject_stat_codec AUTH_ERROR in
        let* m := pack auth_stat_codec stat in
        sret (n + m)
    end;
  unpack :=
    let* (stat, len) := unpack reject_stat_codec in
    let* (body, body_len) :=
      match stat with
      | RPC_MISMATCH =>
          let* (low, low_len) := unpack u32_codec in
          let* (high, high_len) := unpack u32_codec in
          sret (rejected_RPC_MISMATCH low high, low_len + high_len)
      | AUTH_ERROR =>
          let* (auth, auth_len) := unpack auth_stat_codec in
          sret (rejected_AUTH_ERROR auth, auth_len)
      end in
    sret (body, len + body_len);
  valid r :=
    match r with
    | rejected_RPC_MISMATCH low high => in_u32 low /\ in_u32 high
    | rejected_AUTH_ERROR _ => True
    end;
|}.

#[export] Instance rejected_reply_eq_dec : EqDecision rejected_reply.
Proof. solve_decision. Defined.

#[export] Instance rejected_reply_codec_ok : CodecOk rejected_reply_codec.
Proof.
  constructor.
  - intros [low high|stat] Hd; cbn [valid rejected_reply_codec] in Hd.
    + destruct Hd as [Hl Hh]. destruct (codec_encodes (c := reject_stat_codec) RPC_MISMATCH I) as [b Hb].
      exists (b ++ to_be_bytes 4 low ++ to_be_bytes 4 high).
      constructor; cbn [pack packed_size unpack rejected_reply_codec].
      * intros out. unfold sbind. rewrite (enc_pack _ _ _ Hb), !u32_pack. finish_run.
      * autorewrite with len. by rewrite (enc_size _ _ _ Hb).
      * intros r. unfold sbind at 1. rewrite <- !(assoc_L (++)), (enc_unpack _ _ _ Hb).
        unfold sbind. rewrite !u32_unpack_be by done. done.
    + destruct (codec_encodes (c := reject_stat_codec) AUTH_ERROR I) as [b Hb].
      destruct (codec_encodes (c := auth_stat_codec) stat I) as [b2 Hb2].
      exists (b ++ b2). constructor; cbn [pack packed_size unpack rejected_reply_codec].
      * intros out. unfold sbind. rewrite (enc_pack _ _ _ Hb), (enc_pack _ _ _ Hb2). finish_run.
      * autorewrite with len. by rewrite (enc_size _ _ _ Hb), (enc_size _ _ _ Hb2).
      * intros r. unfold sbind at 1. rewrite <- !(assoc_L (++)), (enc_unpack _ _ _ Hb).
        unfold sbind. by rewrite (enc_unpack _ _ _ Hb2).
  - by intros [].
  - intros inp d n rest H. cbn [unpack rejected_reply_codec] in H. step_in H. step_in H.
    apply codec_consumes in Hrun as [-> (u & -> & Hu)]. cbn [packed_size reject_stat_codec simple_enum_codec] in *.
    step_in H. destruct r; steps_in Hrun0; cbn [packed_size rejected_reply_codec].
    + apply codec_consumes in Hrun as [-> (u1 & -> & Hu1)].
      apply codec_consumes in Hrun1 as [-> (u2 & -> & Hu2)]. cbn [packed_size u32_codec] in *.
      split; [done|]. exists (u ++ u1 ++ u2). rewrite <- !(assoc_L (++)). split; [done|].
      autorewrite with len. lia.
    + apply codec_consumes in Hrun as [-> (u1 & -> & Hu1)]. cbn [packed_size auth_stat_codec simple_enum_codec] in *.
      split; [done|]. exists (u ++ u1). rewrite <- !(assoc_L (++)). split; [done|].
      autorewrite with len. lia.
Qed.

#[export] Instance rejected_reply_decodes : DecodesValid rejected_reply_codec.
Proof.
  intros inp d n rest H. cbn [unpack rejected_reply_codec] in H. steps_in H.
  destruct r; steps_in Hrun0; cbn; [|done].
  split; eapply (decodes_valid (c := u32_codec)); eassumption.
Qed.

Inductive reply_body : Type :=
| reply_MSG_ACCEPTED (v : accepted_reply)
| reply_MSG_DENIED (v : rejected_reply).
Definition reply_body_codec : codec reply_body :=
  complex_enum_codec (variant 0 accepted_reply_codec (variant 1 rejected_reply_codec no_variant))
    (fun e => match e with
      | reply_MSG_ACCEPTED v => inl v
      | reply_MSG_DENIED v => inr (inl v)
      end)
    (fun t => match t with
      | inl v => reply_MSG_ACCEPTED v
      | inr (inl v) => reply_MSG_DENIED v
      | inr (inr (v)) => match v : Empty_set with end
      end).
#[export] Instance reply_body_eq_dec : EqDecision reply_body.
Proof. solve_decision. Defined.
#[export] Instance reply_body_codec_ok : CodecOk reply_body_codec.
Proof. unfold reply_body_codec. apply _. Qed.
#[export] Instance reply_body_decodes : DecodesValid reply_body_codec.
Proof. unfold reply_body_codec. apply _. Qed.

Inductive msg_body : Type :=
| body_CALL (v : call_body)
| body_REPLY (v : reply_body).
Definition msg_body_codec : codec msg_body :=
  complex_enum_codec (variant 0 call_body_codec (variant 1 reply_body_codec no_variant))
    (fun e => match e with
      | body_CALL v => inl v
      | body_REPLY v => inr (inl v)
      end)
    (fun t => match t with
      | inl v => body_CALL v
      | inr (inl v) => body_REPLY v
      | inr (inr (v)) => match v : Empty_set with end
      end).
#[export] Instance msg_body_eq_dec : EqDecision msg_body.
Proof. solve_decision. Defined.
#[export] Instance msg_body_codec_ok : CodecOk msg_body_codec.
Proof. unfold msg_body_codec. apply _. Qed.
#[export] Instance msg_body_decodes : DecodesValid msg_body_codec.
Proof. unfold msg_body_codec. apply _. Qed.

Record rpc_msg : Type := mk_rpc_msg {
  rpc_msg_xid : u32;
  rpc_msg_body : msg_body;
}.
Definition rpc_msg_codec : codec rpc_msg :=
  struct_codec (u32_codec &* msg_body_codec &* no_fields)
    (fun s => (rpc_msg_xid s, (rpc_msg_body s, tt)))
    (fun '(xid, (body, _)) => mk_rpc_msg xid body).
#[export] Instance rpc_msg_eq_dec : EqDecision rpc_msg.
Proof. solve_decision. Defined.
#[export] Instance rpc_msg_codec_ok : CodecOk rpc_msg_codec.
Proof. unfold rpc_msg_codec. apply _. Qed.
#[export] Instance rpc_msg_decodes : DecodesValid rpc_msg_codec.
Proof. unfold rpc_msg_codec. apply _. Qed.

