(* ===== verification/MountTypes.v ===== *)
(** * MOUNT version 3: [nfs3_types::mount]

    The data of the MOUNT protocol with its codecs. *)

From S2P Require Import Prelude Xdr XdrLaws.
Open Scope Z_scope.
Open Scope nfs_scope.

Definition MOUNT_PROGRAM_NUMBER : u32 := 100005.
Definition MOUNT_VERSION : u32 := 3.
Definition MNTPATHLEN : Z := 1024.
Definition MNTNAMLEN : Z := 255.
Definition FHSIZE3 : Z := 64.

Abbreviation fhandle3 := (Opaque) (only parsing).
Definition fhandle3_codec : codec fhandle3 :=
  struct_codec (opaque_codec &* no_fields) (fun x => (x, tt)) (fun '(x, _) => x).
#[export] Instance fhandle3_codec_ok : CodecOk fhandle3_codec.
Proof. unfold fhandle3_codec. apply _. Qed.
#[export] Instance fhandle3_decodes : DecodesValid fhandle3_codec.
Proof. unfold fhandle3_codec. apply _. Qed.

Abbreviation dirpath := (Opaque) (only parsing).
Definition dirpath_codec : codec dirpath :=
  struct_codec (opaque_codec &* no_fields) (fun x => (x, tt)) (fun '(x, _) => x).
#[export] Instance dirpath_codec_ok : CodecOk dirpath_codec.
Proof. unfold dirpath_codec. apply _. Qed.
#[export] Instance dirpath_decodes : DecodesValid dirpath_codec.
Proof. unfold dirpath_codec. apply _. Qed.

Inductive mountstat3 : Type :=
| MNT3_OK
| MNT3ERR_PERM
| MNT3ERR_NOENT
| MNT3ERR_IO
| MNT3ERR_ACCES
| MNT3ERR_NOTDIR
| MNT3ERR_INVAL
| MNT3ERR_NAMETOOLONG
| MNT3ERR_NOTSUPP
| MNT3ERR_SERVERFAULT.
Definition mountstat3_as_u32 (v : mountstat3) : u32 :=
  match v with
  | MNT3_OK => 0
  | MNT3ERR_PERM => 1
  | MNT3ERR_NOENT => 2
  | MNT3ERR_IO => 5
  | MNT3ERR_ACCES => 13
  | MNT3ERR_NOTDIR => 20
  | MNT3ERR_INVAL => 22
  | MNT3ERR_NAMETOOLONG => 63
  | MNT3ERR_NOTSUPP => 10004
  | MNT3ERR_SERVERFAULT => 10006
  end.
Definition mountstat3_codec : codec mountstat3 :=
  simple_enum_codec mountstat3_as_u32
    [MNT3_OK; MNT3ERR_PERM; MNT3ERR_NOENT; MNT3ERR_IO; MNT3ERR_ACCES; MNT3ERR_NOTDIR; MNT3ERR_INVAL; MNT3ERR_NAMETOOLONG; MNT3ERR_NOTSUPP; MNT3ERR_SERVERFAULT].
#[export] Instance mountstat3_eq_dec : EqDecision mountstat3.
Proof. solve_decision. Defined.
#[export] Instance mountstat3_codec_ok : CodecOk mountstat3_codec.
Proof. unfold mountstat3_codec. apply _. Qed.
#[export] Instance mountstat3_decodes : DecodesValid mountstat3_codec.
Proof. unfold mountstat3_codec. apply _. Qed.

Record mountres3_ok : Type := mk_mountres3_ok {
  mountres3_ok_fhandle : fhandle3;
  mountres3_ok_auth_flavors : list u32;
}.
Definition mountres3_ok_codec : codec mountres3_ok :=
  struct_codec (fhandle3_codec &* vec_u32_codec &* no_fields)
    (fun s => (mountres3_ok_fhandle s, (mountres3_ok_auth_flavors s, tt)))
    (fun '(fhandle, (auth_flavors, _)) => mk_mountres3_ok fhandle auth_flavors).
#[export] Instance mountres3_ok_codec_ok : CodecOk mountres3_ok_codec.
Proof. unfold mountres3_ok_codec. apply _. Qed.
#[export] Instance mountres3_ok_decodes : DecodesValid mountres3_ok_codec.
Proof. unfold mountres3_ok_codec. apply _. Qed.

Abbreviation name := (Opaque) (only parsing).
Definition name_codec : codec name :=
  struct_codec (opaque_codec &* no_fields) (fun x => (x, tt)) (fun '(x, _) => x).
#[export] Instance name_codec_ok : CodecOk name_codec.
Proof. unfold name_codec. apply _. Qed.
#[export] Instance name_decodes : DecodesValid name_codec.
Proof. unfold name_codec. apply _. Qed.

Record mountbody : Type := mk_mountbody {
  mountbody_ml_hostname : name;
  mountbody_ml_directory : dirpath;
}.
Definition mountbody_codec : codec mountbody :=
  struct_codec (name_codec &* dirpath_codec &* no_fields)
    (fun s => (mountbody_ml_hostname s, (mountbody_ml_directory s, tt)))
    (fun '(ml_hostname, (ml_directory, _)) => mk_mountbody ml_hostname ml_directory).
#[export] Instance mountbody_codec_ok : CodecOk mountbody_codec.
Proof. unfold mountbody_codec. apply _. Qed.
#[export] Instance mountbody_decodes : DecodesValid mountbody_codec.
Proof. unfold mountbody_codec. apply _. Qed.

Record export_node : Type := mk_export_node {
  export_node_ex_dir : dirpath;
  export_node_ex_groups : list name;
}.
Definition export_node_codec : codec export_node :=
  struct_codec (dirpath_codec &* (list_codec name_codec) &* no_fields)
    (fun s => (export_node_ex_dir s, (export_node_ex_groups s, tt)))
    (fun '(ex_dir, (ex_groups, _)) => mk_export_node ex_dir ex_groups).
#[export] Instance export_node_codec_ok : CodecOk export_node_codec.
Proof. unfold export_node_codec. apply _. Qed.
#[export] Instance export_node_decodes : DecodesValid export_node_codec.
Proof. unfold export_node_codec. apply _. Qed.

Inductive MOUNT_PROGRAM : Type :=
| MOUNTPROC3_NULL
| MOUNTPROC3_MNT
| MOUNTPROC3_DUMP
| MOUNTPROC3_UMNT
| MOUNTPROC3_UMNTALL
| MOUNTPROC3_EXPORT.
Definition MOUNT_PROGRAM_as_u32 (v : MOUNT_PROGRAM) : u32 :=
  match v with
  | MOUNTPROC3_NULL => 0
  | MOUNTPROC3_MNT => 1
  | MOUNTPROC3_DUMP => 2
  | MOUNTPROC3_UMNT => 3
  | MOUNTPROC3_UMNTALL => 4
  | MOUNTPROC3_EXPORT => 5
  end.
Definition MOUNT_PROGRAM_codec : codec MOUNT_PROGRAM :=
  simple_enum_codec MOUNT_PROGRAM_as_u32
    [MOUNTPROC3_NULL; MOUNTPROC3_MNT; MOUNTPROC3_DUMP; MOUNTPROC3_UMNT; MOUNTPROC3_UMNTALL; MOUNTPROC3_EXPORT].
#[export] Instance MOUNT_PROGRAM_eq_dec : EqDecision MOUNT_PROGRAM.
Proof. solve_decision. Defined.
#[export] Instance MOUNT_PROGRAM_codec_ok : CodecOk MOUNT_PROGRAM_codec.
Proof. unfold MOUNT_PROGRAM_codec. apply _. Qed.
#[export] Instance MOUNT_PROGRAM_decodes : DecodesValid MOUNT_PROGRAM_codec.
Proof. unfold MOUNT_PROGRAM_codec. apply _. Qed.

(** [mountres3]; its variants are [Ok] and [Err] in the source. *)
Inductive mountres3 : Type :=
| mountres3_Ok (ok : mountres3_ok)
| mountres3_Err (err : mountstat3).

Definition mountres3_codec : codec mountres3 := {|
  packed_size r :=
    match r with
    | mountres3_Ok ok => packed_size mountstat3_codec MNT3_OK + packed_size mountres3_ok_codec ok
    | mountres3_Err err => packed_size mountstat3_codec err
    end;
  pack r :=
    match r with
    | mountres3_Ok ok =>
        let* n := pack mountstat3_codec MNT3_OK in
        let* m := pack mountres3_ok_codec ok in
        sret (n + m)
    | mountres3_Err err => pack mountstat3_codec err
    end;
  unpack :=
    let* (stat, len) := unpack mountstat3_codec in
    let* (res, res_len) :=
      match stat with
      | MNT3_OK =>
          let* (ok, ok_len) := unpack mountres3_ok_codec in
          sret (mountres3_Ok ok, ok_len)
      | _ => sret (mountres3_Err stat, 0)
      end in
    sret (res, len + res_len);
  valid r :=
    match r with
    | mountres3_Ok ok => valid mountres3_ok_codec ok
    | mountres3_Err err => err <> MNT3_OK
    end;
|}.

#[export] Instance mountres3_codec_ok : CodecOk mountres3_codec.
Proof.
  constructor.
  - intros [ok|err] Hv; cbn [valid mountres3_codec] in Hv.
    + destruct (codec_encodes (c := mountstat3_codec) MNT3_OK I) as [b1 H1].
      destruct (codec_encodes ok Hv) as [b2 H2]. exists (b1 ++ b2).
      constructor; cbn [pack unpack packed_size mountres3_codec].
      * intros out. unfold sbind. rewrite (enc_pack _ _ _ H1), (enc_pack _ _ _ H2). finish_run.
      * autorewrite with len. by rewrite (enc_size _ _ _ H1), (enc_size _ _ _ H2).
      * intros r. unfold sbind at 1. rewrite <- (assoc_L (++)), (enc_unpack _ _ _ H1).
        unfold sbind. by rewrite (enc_unpack _ _ _ H2).
    + destruct (codec_encodes (c := mountstat3_codec) err I) as [b1 H1]. exists b1.
      constructor; cbn [pack unpack packed_size mountres3_codec]; [apply H1|apply H1|].
      intros r. unfold sbind at 1. rewrite (enc_unpack _ _ _ H1).
      destruct err; done.
  - intros [ok|err]; cbn [packed_size mountres3_codec]; [|done].
    pose proof (codec_aligned (c := mountres3_ok_codec) ok). cbn [packed_size mountstat3_codec simple_enum_codec].
    Z.to_euclidean_division_equations. lia.
  - intros inp r n rest H. cbn [unpack mountres3_codec] in H. step_in H. step_in H.
    apply codec_consumes in Hrun as [-> (u & -> & Hu)]. cbn [packed_size mountstat3_codec simple_enum_codec] in Hu.
    step_in H. destruct m; steps_in Hrun0; cbn [packed_size mountres3_codec mountstat3_codec simple_enum_codec];
      try (split; [done|]; exists u; split; [done|lia]).
    apply codec_consumes in Hrun as [-> (u1 & -> & Hu1)]. split; [done|].
    exists (u ++ u1). rewrite <- (assoc_L (++)). split; [done|]. autorewrite with len. lia.
Qed.

#[export] Instance mountres3_decodes : DecodesValid mountres3_codec.
Proof.
  intros inp r n rest H. cbn [unpack mountres3_codec] in H. steps_in H.
  destruct m; steps_in Hrun0; cbn [valid mountres3_codec]; try done.
  eapply (decodes_valid (c := mountres3_ok_codec)); eassumption.
Qed.

Abbreviation mountlist := (list mountbody) (only parsing).
Definition mountlist_codec : codec mountlist := list_codec mountbody_codec.
#[export] Instance mountlist_codec_ok : CodecOk mountlist_codec.
Proof. unfold mountlist_codec. apply _. Qed.
#[export] Instance mountlist_decodes : DecodesValid mountlist_codec.
Proof. unfold mountlist_codec. apply _. Qed.

Abbreviation exports := (list export_node) (only parsing).
Definition exports_codec : codec exports := list_codec export_node_codec.
#[export] Instance exports_codec_ok : CodecOk exports_codec.
Proof. unfold exports_codec. apply _. Qed.
#[export] Instance exports_decodes : DecodesValid exports_codec.
Proof. unfold exports_codec. apply _. Qed.

(** [TryFrom<u32> for MOUNT_PROGRAM]. *)
Definition MOUNT_PROGRAM_try_from (value : u32) : result MOUNT_PROGRAM Error :=
  match value with
  | 0 => Ok MOUNTPROC3_NULL
  | 1 => Ok MOUNTPROC3_MNT
  | 2 => Ok MOUNTPROC3_DUMP
  | 3 => Ok MOUNTPROC3_UMNT
  | 4 => Ok MOUNTPROC3_UMNTALL
  | 5 => Ok MOUNTPROC3_EXPORT
  | _ => Err (InvalidEnumValue value)
  end.
