(* ===== verification/PortmapTypes.v ===== *)
(** * The port mapper protocol: [nfs3_types::portmap] *)

From S2P Require Import Prelude Xdr XdrLaws.
Open Scope Z_scope.
Open Scope nfs_scope.

Definition IPPROTO_TCP : u32 := 6.
Definition IPPROTO_UDP : u32 := 17.
Definition PMAP_PROGRAM_NUMBER : u32 := 100000.
Definition PMAP_VERSION : u32 := 2.
Definition PMAP_PORT : Z := 111.

Record mapping : Type := mk_mapping {
  mapping_prog : u32;
  mapping_vers : u32;
  mapping_prot : u32;
  mapping_port : u32;
}.
Definition mapping_codec : codec mapping :=
  struct_codec (u32_codec &* u32_codec &* u32_codec &* u32_codec &* no_fields)
    (fun s => (mapping_prog s, (mapping_vers s, (mapping_prot s, (mapping_port s, tt)))))
    (fun '(prog, (vers, (prot, (port, _)))) => mk_mapping prog vers prot port).
#[export] Instance mapping_codec_ok : CodecOk mapping_codec.
Proof. unfold mapping_codec. apply _. Qed.
#[export] Instance mapping_decodes : DecodesValid mapping_codec.
Proof. unfold mapping_codec. apply _. Qed.

Record call_args : Type := mk_call_args {
  call_args_prog : u32;
  call_args_vers : u32;
  call_args_proc : u32;
  call_args_args : Opaque;
}.
Definition call_args_codec : codec call_args :=
  struct_codec (u32_codec &* u32_codec &* u32_codec &* opaque_codec &* no_fields)
    (fun s => (call_args_prog s, (call_args_vers s, (call_args_proc s, (call_args_args s, tt)))))
    (fun '(prog, (vers, (proc, (args, _)))) => mk_call_args prog vers proc args).
#[export] Instance call_args_codec_ok : CodecOk call_args_codec.
Proof. unfold call_args_codec. apply _. Qed.
#[export] Instance call_args_decodes : DecodesValid call_args_codec.
Proof. unfold call_args_codec. apply _. Qed.

Record call_result : Type := mk_call_result {
  call_result_port : u32;
  call_result_res : Opaque;
}.
Definition call_result_codec : codec call_result :=
  struct_codec (u32_codec &* opaque_codec &* no_fields)
    (fun s => (call_result_port s, (call_result_res s, tt)))
    (fun '(port, (res, _)) => mk_call_result port res).
#[export] Instance call_result_codec_ok : CodecOk call_result_codec.
Proof. unfold call_result_codec. apply _. Qed.
#[export] Instance call_result_decodes : DecodesValid call_result_codec.
Proof. unfold call_result_codec. apply _. Qed.

Inductive PMAP_PROG : Type :=
| PMAPPROC_NULL
| PMAPPROC_SET
| PMAPPROC_UNSET
| PMAPPROC_GETPORT
| PMAPPROC_DUMP
| PMAPPROC_CALLIT.
Definition PMAP_PROG_as_u32 (v : PMAP_PROG) : u32 :=
  match v with
  | PMAPPROC_NULL => 0
  | PMAPPROC_SET => 1
  | PMAPPROC_UNSET => 2
  | PMAPPROC_GETPORT => 3
  | PMAPPROC_DUMP => 4
  | PMAPPROC_CALLIT => 5
  end.
Definition PMAP_PROG_codec : codec PMAP_PROG :=
  simple_enum_codec PMAP_PROG_as_u32
    [PMAPPROC_NULL; PMAPPROC_SET; PMAPPROC_UNSET; PMAPPROC_GETPORT; PMAPPROC_DUMP; PMAPPROC_CALLIT].
#[export] Instance PMAP_PROG_eq_dec : EqDecision PMAP_PROG.
Proof. solve_decision. Defined.
#[export] Instance PMAP_PROG_codec_ok : CodecOk PMAP_PROG_codec.
Proof. unfold PMAP_PROG_codec. apply _. Qed.
#[export] Instance PMAP_PROG_decodes : DecodesValid PMAP_PROG_codec.
Proof. unfold PMAP_PROG_codec. apply _. Qed.

Abbreviation pmaplist := (list mapping) (only parsing).
Definition pmaplist_codec : codec pmaplist := list_codec mapping_codec.
#[export] Instance pmaplist_codec_ok : CodecOk pmaplist_codec.
Proof. unfold pmaplist_codec. apply _. Qed.
#[export] Instance pmaplist_decodes : DecodesValid pmaplist_codec.
Proof. unfold pmaplist_codec. apply _. Qed.

(** [TryFrom<u32> for PMAP_PROG]. *)
Definition PMAP_PROG_try_from (value : u32) : result PMAP_PROG Error :=
  match value with
  | 0 => Ok PMAPPROC_NULL
  | 1 => Ok PMAPPROC_SET
  | 2 => Ok PMAPPROC_UNSET
  | 3 => Ok PMAPPROC_GETPORT
  | 4 => Ok PMAPPROC_DUMP
  | 5 => Ok PMAPPROC_CALLIT
  | _ => Err (InvalidEnumValue value)
  end.
