(* ===== verification/NfsExt.v ===== *)
(** * Cookie verifiers and bounded directory lists: [nfs3_server::nfs_ext] *)

From S2P Require Import Prelude Xdr XdrLaws Nfs3Types.
Open Scope Z_scope.

(** ** [CookieVerfExt] *)

Definition NONE_COOKIE_VERF : cookieverf3 := to_be_bytes 8 0.
(** [0xFFCC_FFCC_FFCC_FFCC]. *)
Definition SOME_COOKIE_VERF : cookieverf3 := to_be_bytes 8 18432388630850633676.

Definition cookieverf_from_attr (dir_attr : post_op_attr) : cookieverf3 :=
  match dir_attr with
  | Some attr =>
      let cvf_version := Z.lor (Z.shiftl (nfstime3_seconds (fattr3_mtime attr)) 32)
                               (nfstime3_nseconds (fattr3_mtime attr)) in
      to_be_bytes 8 cvf_version
  | None => SOME_COOKIE_VERF
  end.

Definition cookieverf_is_none (v : cookieverf3) : bool := bool_decide (v = NONE_COOKIE_VERF).
Definition cookieverf_is_some (v : cookieverf3) : bool := negb (cookieverf_is_none v).

(** ** [BoundedEntryPlusList] *)

Record BoundedEntryPlusList : Type := mkBoundedEntryPlusList {
  bepl_entries : BoundedList entryplus3;
  bepl_dircount : Z;
  bepl_accumulated_dircount : Z;
}.

Definition bounded_entry_plus_list_new (dircount maxcount : Z) : BoundedEntryPlusList :=
  mkBoundedEntryPlusList (bounded_list_new entryplus3_codec maxcount) dircount 0.

Definition entry_dircount (entry : entryplus3) : Z :=
  packed_size u64_codec (entryplus3_fileid entry) + 4 +
  packed_size filename3_codec (entryplus3_name entry) +
  packed_size u64_codec (entryplus3_cookie entry).

Definition bounded_entry_plus_list_try_push (entry : entryplus3) (l : BoundedEntryPlusList)
  : result unit entryplus3 * BoundedEntryPlusList :=
  let added_dircount := entry_dircount entry in
  if bepl_dircount l <? bepl_accumulated_dircount l + added_dircount then (Err entry, l)
  else
    let '(result, entries) := bounded_list_try_push entryplus3_codec entry (bepl_entries l) in
    let accumulated := if is_ok result then bepl_accumulated_dircount l + added_dircount
                       else bepl_accumulated_dircount l in
    (result, mkBoundedEntryPlusList entries (bepl_dircount l) accumulated).

Definition bounded_entry_plus_list_into_inner (l : BoundedEntryPlusList) : list entryplus3 :=
  bounded_list_into_inner (bepl_entries l).

(** ** Laws *)

Lemma list_packed_size_app {T} (c : codec T) l1 l2 :
  list_packed_size c (l1 ++ l2) = list_packed_size c l1 + list_packed_size c l2 - 4.
Proof.
  induction l1 as [|x l1 IH]; cbn [app list_packed_size]; [cbn; lia|]. rewrite IH. lia.
Qed.

(** What a bounded list maintains: its size is the packed size of its items,
    and stays within the bound (unless the empty list alone exceeds it). *)
Record bounded_list_wf {T} (c : codec T) (l : BoundedList T) : Prop := {
  blw_size : bl_current_size l = list_packed_size c (bl_list l);
  blw_bound : bl_list l = [] \/ bl_current_size l <= bl_max_size l;
}.

Lemma bounded_list_new_wf {T} (c : codec T) n : bounded_list_wf c (bounded_list_new c n).
Proof. constructor; [done|by left]. Qed.

Lemma bounded_list_try_push_cases {T} (c : codec T) x l :
  bounded_list_wf c l ->
  match bounded_list_try_push c x l with
  | (Ok _, l') => bounded_list_wf c l' /\ bl_list l' = bl_list l ++ [x] /\ bl_max_size l' = bl_max_size l /\
      bl_current_size l' = bl_current_size l + packed_size c x + 4
  | (Err y, l') => y = x /\ l' = l /\
      bl_max_size l < list_packed_size c (bl_list l ++ [x])
  end.
Proof.
  intros [Hs Hb]. unfold bounded_list_try_push.
  destruct (Z.ltb_spec (bl_max_size l) (bl_current_size l + (packed_size c x + 4))).
  - split_and!; [done..|]. rewrite list_packed_size_app. cbn. lia.
  - split_and!; [|done|done|cbn; lia]. constructor; cbn [bl_list bl_current_size bl_max_size].
    + rewrite list_packed_size_app. cbn. lia.
    + right. lia.
Qed.

Definition dircount_of (l : list entryplus3) : Z := foldr Z.add 0 (map entry_dircount l).

Lemma dircount_of_app l1 l2 : dircount_of (l1 ++ l2) = dircount_of l1 + dircount_of l2.
Proof. unfold dircount_of. induction l1 as [|x l1 IH]; cbn; [lia|]. rewrite IH. lia. Qed.

Record bepl_wf (l : BoundedEntryPlusList) : Prop := {
  bew_entries : bounded_list_wf entryplus3_codec (bepl_entries l);
  bew_acc : bepl_accumulated_dircount l = dircount_of (bl_list (bepl_entries l));
  bew_dircount : bl_list (bepl_entries l) = [] \/ bepl_accumulated_dircount l <= bepl_dircount l;
}.

Lemma bepl_new_wf d n : bepl_wf (bounded_entry_plus_list_new d n).
Proof. constructor; [apply bounded_list_new_wf|done|by left]. Qed.

Lemma bepl_try_push_cases x l :
  bepl_wf l ->
  match bounded_entry_plus_list_try_push x l with
  | (Ok _, l') => bepl_wf l' /\
      bl_list (bepl_entries l') = bl_list (bepl_entries l) ++ [x] /\
      bepl_dircount l' = bepl_dircount l /\
      bl_max_size (bepl_entries l') = bl_max_size (bepl_entries l) /\
      bl_current_size (bepl_entries l') = bl_current_size (bepl_entries l) + packed_size entryplus3_codec x + 4
  | (Err y, l') => y = x /\ l' = l /\
      (bepl_dircount l < dircount_of (bl_list (bepl_entries l) ++ [x]) \/
       bl_max_size (bepl_entries l) < list_packed_size entryplus3_codec (bl_list (bepl_entries l) ++ [x]))
  end.
Proof.
  intros [He Ha Hd]. unfold bounded_entry_plus_list_try_push.
  destruct (Z.ltb_spec (bepl_dircount l) (bepl_accumulated_dircount l + entry_dircount x)).
  { split_and!; [done..|]. left. rewrite dircount_of_app. cbn. lia. }
  pose proof (bounded_list_try_push_cases entryplus3_codec x (bepl_entries l) He) as H'.
  destruct (bounded_list_try_push entryplus3_codec x (bepl_entries l)) as [[u|y] l'].
  - destruct H' as (Hwf & Hl & Hm & Hs). split_and!; [|done..].
    constructor; cbn [bepl_entries bepl_accumulated_dircount bepl_dircount is_ok]; [done| |right; lia].
    rewrite Hl, dircount_of_app. cbn. lia.
  - destruct H' as (-> & -> & Hlt). split_and!; [done|by destruct l|by right].
Qed.

(** A directory entry takes at least 24 bytes of a list. *)
Lemma opaque_size_min v : 4 <= packed_size opaque_codec v.
Proof. cbn. rewrite add_padding_get. pose proof (len_nonneg v). pose proof (get_padding_range (len v)). lia. Qed.

Lemma entry3_size_min e : 20 <= packed_size entry3_codec e.
Proof.
  pose proof (opaque_size_min (entry3_name e)).
  cbn -[opaque_codec]. lia.
Qed.

Lemma entryplus3_size_min e : 20 <= packed_size entryplus3_codec e.
Proof.
  pose proof (opaque_size_min (entryplus3_name e)).
  assert (forall {T} (c : codec T) o, (forall x, 0 <= packed_size c x) ->
    0 <= packed_size (Nfs3Option_codec c) o) as Hopt.
  { intros T c [x|] Hc; cbn; [|lia]. pose proof (Hc x). lia. }
  assert (0 <= packed_size post_op_attr_codec (entryplus3_name_attributes e)).
  { apply Hopt. intros x. cbn. lia. }
  assert (0 <= packed_size post_op_fh3_codec (entryplus3_name_handle e)).
  { apply Hopt. intros x. pose proof (opaque_size_min (nfs_fh3_data x)). cbn -[opaque_codec]. lia. }
  cbn -[opaque_codec post_op_attr_codec post_op_fh3_codec]. lia.
Qed.
