(* ===== verification/XdrTheorems.v ===== *)
(** * Theorems on the XDR layer

    What the codecs of the protocol types promise to the users of
    [nfs3_types]: round trips, exact sizes, bounds and rejected input. *)

From S2P Require Import Prelude Xdr XdrLaws Nfs3Types RpcTypes MountTypes PortmapTypes NfsExt.
Open Scope Z_scope.
Open Scope nfs_scope.

(** A codec is lawful when a valid value packs to exactly [packed_size] bytes, a
    multiple of four, that unpack to it in front of any other bytes, and when
    whatever unpacks has used up exactly the bytes it reports. *)
Definition lawful {A} (c : codec A) : Prop :=
  (forall a rest, valid c a ->
     (exists n, pack c a [] = (Ok n, to_bytes c a) /\ n = packed_size c a) /\
     len (to_bytes c a) = packed_size c a /\ packed_size c a mod 4 = 0 /\
     unpack c (to_bytes c a ++ rest) = (Ok (a, packed_size c a), rest)) /\
  (forall inp a n rest, unpack c inp = (Ok (a, n), rest) ->
     n = packed_size c a /\ exists used, inp = used ++ rest /\ len used = n).

Lemma codec_encodes_to_bytes {A} (c : codec A) a : CodecOk c -> valid c a -> encodes c a (to_bytes c a).
Proof.
  intros Hc Hv. destruct (codec_encodes a Hv) as [bs H].
  unfold to_bytes. by rewrite (enc_pack _ _ _ H).
Qed.

Lemma codec_lawful {A} (c : codec A) : CodecOk c -> lawful c.
Proof.
  intros Hc. split; [|apply codec_consumes]. intros a rest Hv.
  pose proof (codec_encodes_to_bytes c a Hc Hv) as H. split_and!.
  - exists (packed_size c a). by rewrite (enc_pack _ _ _ H).
  - apply (enc_size _ _ _ H).
  - apply codec_aligned.
  - apply (enc_unpack _ _ _ H).
Qed.

(** Two values with the same bytes in front are the same. *)
Lemma codec_prefix_free {A} (c : codec A) a b r1 r2 :
  CodecOk c -> valid c a -> valid c b -> to_bytes c a ++ r1 = to_bytes c b ++ r2 -> a = b /\ r1 = r2.
Proof.
  intros Hc Ha Hb E.
  pose proof (enc_unpack _ _ _ (codec_encodes_to_bytes c a Hc Ha) r1) as H1.
  pose proof (enc_unpack _ _ _ (codec_encodes_to_bytes c b Hc Hb) r2) as H2.
  rewrite E, H2 in H1. by injection H1.
Qed.

(** ** Theorems *)


(** The messages of the RPC, MOUNT and port mapper protocols survive the
    wire in the same sense. *)
Theorem rpc_mount_portmap_roundtrip :
  lawful rpc_msg_codec /\ lawful opaque_auth_codec /\ lawful auth_unix_codec /\
  lawful fragment_header_codec /\ lawful mountres3_codec /\ lawful dirpath_codec /\
  lawful exports_codec /\ lawful mountlist_codec /\ lawful mapping_codec /\
  lawful pmaplist_codec /\ lawful call_args_codec /\ lawful call_result_codec.
Proof. split_and!; apply codec_lawful; apply _. Qed.

(** What is unpacked can be packed again. A value decoded from the network
    is one the server and the client can encode: no result of a procedure is
    rejected by [pack] because of a name, a handle or a list that arrived in a
    request. *)
Theorem decoded_values_encode inp :
  (forall a n rest, unpack rpc_msg_codec inp = (Ok (a, n), rest) -> valid rpc_msg_codec a) /\
  (forall a n rest, unpack SETATTR3args_codec inp = (Ok (a, n), rest) -> valid SETATTR3args_codec a) /\
  (forall a n rest, unpack CREATE3args_codec inp = (Ok (a, n), rest) -> valid CREATE3args_codec a) /\
  (forall a n rest, unpack SYMLINK3args_codec inp = (Ok (a, n), rest) -> valid SYMLINK3args_codec a) /\
  (forall a n rest, unpack RENAME3args_codec inp = (Ok (a, n), rest) -> valid RENAME3args_codec a) /\
  (forall a n rest, unpack WRITE3args_codec inp = (Ok (a, n), rest) -> valid WRITE3args_codec a) /\
  (forall a n rest, unpack READDIRPLUS3res_codec inp = (Ok (a, n), rest) -> valid READDIRPLUS3res_codec a) /\
  (forall a n rest, unpack mountres3_codec inp = (Ok (a, n), rest) -> valid mountres3_codec a).
Proof. split_and!; intros a n rest; apply (decodes_valid (c := _)). Qed.

(** The bytes of one message determine it, and where it ends: two calls (or
    two results) whose encodings start the same are equal, whatever follows. *)
Theorem encodings_unambiguous (m1 m2 : rpc_msg) (r1 r2 : READDIRPLUS3res) rest1 rest2 :
  (valid rpc_msg_codec m1 -> valid rpc_msg_codec m2 ->
   to_bytes rpc_msg_codec m1 ++ rest1 = to_bytes rpc_msg_codec m2 ++ rest2 -> m1 = m2 /\ rest1 = rest2) /\
  (valid READDIRPLUS3res_codec r1 -> valid READDIRPLUS3res_codec r2 ->
   to_bytes READDIRPLUS3res_codec r1 ++ rest1 = to_bytes READDIRPLUS3res_codec r2 ++ rest2 ->
   r1 = r2 /\ rest1 = rest2).
Proof.
  split; intros Ha Hb E; eapply codec_prefix_free; [apply _|exact Ha|exact Hb|exact E
    |apply _|exact Ha|exact Hb|exact E].
Qed.

(** Opaque data is bounds-checked. Packing more than [u32::MAX] bytes is
    [ObjectTooLarge] and writes nothing; data of which fewer bytes are present
    than its length word announces is refused with an end-of-file error; padding
    completes it to the next multiple of four. *)
Theorem opaque_bounds v n rest out :
  (u32_MAX < len v -> pack opaque_codec v out = (Err (ObjectTooLarge (len v)), out)) /\
  (in_u32 n -> len rest < n ->
   fst (unpack opaque_codec (to_be_bytes 4 n ++ rest)) = Err (Io UnexpectedEof)) /\
  (len v <= u32_MAX ->
   to_bytes opaque_codec v = to_be_bytes 4 (len v) ++ v ++ zero_padding (len v) /\
   len (zero_padding (len v)) < 4 /\ (len v + len (zero_padding (len v))) mod 4 = 0).
Proof.
  split_and!.
  - intros Hv. cbn [pack opaque_codec]. by rewrite (proj2 (Z.leb_gt _ _)).
  - intros Hn Hr. cbn [unpack opaque_codec]. unfold sbind. rewrite u32_unpack_be by done.
    unfold read_exact. by rewrite (proj2 (Z.leb_gt _ _)).
  - intros Hv. pose proof (opaque_encodes v Hv) as H. unfold to_bytes.
    rewrite (enc_pack _ _ _ H). split_and!; [done| |].
    + rewrite len_zero_padding. apply get_padding_range.
    + rewrite len_zero_padding, <- add_padding_get. apply add_padding_aligned.
Qed.

(** A status code is read strictly: the 30 codes of the protocol decode to
    their status and encode back to it, and any other number is refused with
    [InvalidEnumValue]. *)
Theorem nfsstat3_decoding z rest :
  in_u32 z ->
  match unpack nfsstat3_codec (to_be_bytes 4 z ++ rest) with
  | (Ok (s, n), r) => nfsstat3_as_u32 s = z /\ n = 4 /\ r = rest
  | (Err e, r) => e = InvalidEnumValue z /\ r = rest /\ forall s, nfsstat3_as_u32 s <> z
  end.
Proof.
  intros Hz. cbn [unpack nfsstat3_codec simple_enum_codec]. unfold sbind.
  rewrite u32_unpack_be by done. destruct (List.find _ _) as [s|] eqn:Ef.
  - apply List.find_some in Ef as [_ Heq]. apply Z.eqb_eq in Heq. done.
  - split_and!; [done..|]. intros s Hs.
    assert (nfsstat3_codec.(unpack) (to_be_bytes 4 (nfsstat3_as_u32 s)) = (Ok (s, 4), [])) as Hd.
    { destruct s; reflexivity. }
    cbn [unpack nfsstat3_codec simple_enum_codec] in Hd. unfold sbind in Hd.
    rewrite <- (app_nil_r (to_be_bytes 4 _)), Hs, u32_unpack_be in Hd by done.
    by rewrite Ef in Hd.
Qed.

(** MKNOD data of an unknown file type is read as [default], which cannot be
    written back: it packs to [InvalidEnumValue]. *)
Theorem mknod_default_asymmetric z rest out :
  in_u32 z -> z <> 3 -> z <> 4 -> z <> 6 -> z <> 7 ->
  unpack mknoddata3_codec (to_be_bytes 4 z ++ rest) = (Ok (mknod_default, 4), rest) /\
  pack mknoddata3_codec mknod_default out = (Err (InvalidEnumValue u32_MAX), out).
Proof.
  intros Hz H3 H4 H6 H7. split; [|done]. cbn [unpack mknoddata3_codec]. unfold sbind.
  rewrite u32_unpack_be by done. repeat case_match; done.
Qed.

(** A bounded list never exceeds its budget. After any sequence of pushes
    onto a new list, the entries that were accepted pack (as a list) to the size
    it accounts for, which is within the bound; a push is refused exactly when
    it would exceed the bound, and then changes nothing. *)
Theorem bounded_list_correct {T} (c : codec T) max_size (pushes : list T) x :
  let l := fold_left (fun l x => snd (bounded_list_try_push c x l)) pushes (bounded_list_new c max_size) in
  bl_current_size l = packed_size (list_codec c) (bounded_list_into_inner l) /\
  (bounded_list_into_inner l = [] \/ packed_size (list_codec c) (bounded_list_into_inner l) <= max_size) /\
  bounded_list_try_push c x l =
  if packed_size (list_codec c) (bounded_list_into_inner l ++ [x]) <=? max_size
  then (Ok tt, mkBoundedList (bounded_list_into_inner l ++ [x])
                 (packed_size (list_codec c) (bounded_list_into_inner l ++ [x])) max_size)
  else (Err x, l).
Proof.
  intros l. assert (bounded_list_wf c l /\ bl_max_size l = max_size) as [[Hs Hb] Hm].
  { unfold l. clear l x. enough (forall l0, bounded_list_wf c l0 -> bl_max_size l0 = max_size ->
      let l := fold_left (fun l x => snd (bounded_list_try_push c x l)) pushes l0 in
      bounded_list_wf c l /\ bl_max_size l = max_size) as Hi.
    { apply Hi; [apply bounded_list_new_wf|done]. }
    induction pushes as [|y ys IH]; intros l0 Hwf Hm; [done|]. cbn [fold_left].
    pose proof (bounded_list_try_push_cases c y l0 Hwf) as H.
    destruct (bounded_list_try_push c y l0) as [[u|z] l1]; cbn [snd].
    - destruct H as (Hwf1 & _ & Hm1 & _). apply IH; [done|congruence].
    - destruct H as (_ & -> & _). by apply IH. }
  unfold bounded_list_into_inner. cbn [packed_size list_codec]. split_and!; [done| |].
  - destruct Hb as [Hb|Hb]; [by left|right]. lia.
  - unfold bounded_list_try_push. rewrite list_packed_size_app.
    cbn [list_packed_size packed_size bool_codec].
    replace (list_packed_size c (bl_list l) + (4 + packed_size c x + 4) - 4)
      with (bl_current_size l + (packed_size c x + 4)) by lia.
    rewrite Hm. destruct (Z.ltb_spec max_size (bl_current_size l + (packed_size c x + 4))).
    + by rewrite (proj2 (Z.leb_gt _ _)).
    + by rewrite (proj2 (Z.leb_le _ _)).
Qed.

(** ** Witnesses *)

Lemma opaque_bounds_witness :
  fst (unpack opaque_codec (to_be_bytes 4 5 ++ [x01; x02])) = Err (Io UnexpectedEof) /\
  (0 + len (zero_padding 0)) mod 4 = 0.
Proof.
  destruct (opaque_bounds [] 5 [x01; x02] []) as (_ & H2 & H3). split.
  - apply H2; [unfold in_u32, u32_MAX; lia|by vm_compute].
  - apply H3. vm_compute. discriminate.
Defined.

Lemma nfsstat3_decoding_witness :
  match unpack nfsstat3_codec (to_be_bytes 4 70 ++ []) with
  | (Ok (s, n), r) => nfsstat3_as_u32 s = 70 /\ n = 4 /\ r = []
  | (Err e, r) => e = InvalidEnumValue 70 /\ r = [] /\ forall s, nfsstat3_as_u32 s <> 70
  end.
Proof. exact (nfsstat3_decoding 70 [] ltac:(unfold in_u32, u32_MAX; lia)). Defined.

Lemma mknod_default_asymmetric_witness :
  unpack mknoddata3_codec (to_be_bytes 4 1 ++ []) = (Ok (mknod_default, 4), []) /\
  pack mknoddata3_codec mknod_default [] = (Err (InvalidEnumValue u32_MAX), []).
Proof.
  apply (mknod_default_asymmetric 1 [] []); [unfold in_u32, u32_MAX; lia|lia..].
Defined.

Lemma encodings_unambiguous_witness :
  let m := mk_rpc_msg 7 (body_CALL (mk_call_body 2 100003 3 0 opaque_auth_default opaque_auth_default)) in
  m = m /\ [x01] = [x01].
Proof.
  intros m. apply (proj1 (encodings_unambiguous m m (NfsErr NFS3ERR_IO (mk_READDIRPLUS3resfail None))
    (NfsErr NFS3ERR_IO (mk_READDIRPLUS3resfail None)) [x01] [x01])); [..|reflexivity];
    cbn; unfold in_u32, u32_MAX; split_and!; try lia; done.
Defined.

Lemma decoded_values_encode_witness :
  valid mountres3_codec (mountres3_Err MNT3ERR_IO).
Proof.
  destruct (decoded_values_encode (to_be_bytes 4 5)) as (_ & _ & _ & _ & _ & _ & _ & H).
  apply (H (mountres3_Err MNT3ERR_IO) 4 []). reflexivity.
Defined.
