(* ===== verification/Transactions.v ===== *)
(** * Retransmission detection: [nfs3_server::transaction_tracker]

    [ClientTransactions] is one client's queue of transactions, sorted by xid.
    [TransactionTracker] maps client addresses to shared, mutex-protected
    queues: an [Arc<Mutex<ClientTransactions>>] is an index into [tt_heap], and
    a [TransactionLock] is such an index with its xid.  A panic while a guard
    is alive poisons the lock it guards, and locking a poisoned lock panics.

    [step] interleaves the operations at the granularity of the locks: the
    check under the read lock and the insertion under the write lock are two
    steps, so that other threads may run in between.  Instants and durations
    are integers (the clock is not assumed monotonic between threads), and the
    difference of two instants saturates at zero. *)

From S2P Require Import Prelude.
Open Scope Z_scope.

(** ** Binary search: [slice::binary_search_by_key] *)

Fixpoint binary_search_loop (fuel : nat) (l : list Z) (key : Z) (base size : nat) : nat :=
  match fuel with
  | O => base
  | S fuel' =>
      if (size <=? 1)%nat then base
      else
        let half := (size / 2)%nat in
        let mid := (base + half)%nat in
        let base := match l !! mid with
                    | Some k => if key <? k then base else mid
                    | None => base
                    end in
        binary_search_loop fuel' l key base (size - half)%nat
  end.

(** [Ok] is the index of the key, [Err] the index where it can be inserted. *)
Definition binary_search_by_key (l : list Z) (key : Z) : result nat nat :=
  let base := binary_search_loop (length l) l key 0 (length l) in
  match l !! base with
  | None => Err 0%nat
  | Some k => if k =? key then Ok base else Err (if k <? key then S base else base)
  end.

(** ** [Transaction] *)

Definition Instant := Z.
Definition Duration := Z.

(** [Instant - Instant]: saturating. *)
Definition instant_sub (a b : Instant) : Duration := Z.max 0 (a - b).

Inductive TransactionError : Type := AlreadyExists | TooManyRequests.

Inductive TransactionState : Type :=
| InProgress
| Completed (at_ : Instant).

Record Transaction : Type := mkTransaction {
  tx_xid : Z;
  tx_state : TransactionState;
}.

#[export] Instance TransactionError_eq_dec : EqDecision TransactionError.
Proof. solve_decision. Defined.
#[export] Instance TransactionState_eq_dec : EqDecision TransactionState.
Proof. solve_decision. Defined.
#[export] Instance Transaction_eq_dec : EqDecision Transaction.
Proof. solve_decision. Defined.

Definition in_progress (xid : Z) : Transaction := mkTransaction xid InProgress.

Definition transaction_complete (t : Transaction) (now : Instant) : outcome Transaction :=
  match tx_state t with
  | InProgress => Ret (mkTransaction (tx_xid t) (Completed now))
  | Completed _ => Panic
  end.

Definition is_stale (t : Transaction) (now : Instant) (max_age : Duration) : bool :=
  match tx_state t with
  | InProgress => false
  | Completed tx_time => max_age <? instant_sub now tx_time
  end.

(** ** [ClientTransactions] *)

Record ClientTransactions : Type := mkClientTransactions {
  ct_transactions : list Transaction;
  ct_last_active : Instant;
  ct_active : Z;
  ct_max_active : Z;
  ct_trim_limit : Z;
}.

Definition set_transactions (l : list Transaction) (c : ClientTransactions) : ClientTransactions :=
  mkClientTransactions l (ct_last_active c) (ct_active c) (ct_max_active c) (ct_trim_limit c).
Definition set_last_active (now : Instant) (c : ClientTransactions) : ClientTransactions :=
  mkClientTransactions (ct_transactions c) now (ct_active c) (ct_max_active c) (ct_trim_limit c).
Definition set_active (n : Z) (c : ClientTransactions) : ClientTransactions :=
  mkClientTransactions (ct_transactions c) (ct_last_active c) n (ct_max_active c) (ct_trim_limit c).

Definition client_transactions_new (now : Instant) (max_active trim_limit : Z)
  : outcome ClientTransactions :=
  if max_active <? trim_limit
  then Ret (mkClientTransactions [] now 0 max_active trim_limit)
  else Panic.

Definition find_transaction (c : ClientTransactions) (xid : Z) : result nat nat :=
  let l := ct_transactions c in
  match last l with
  | Some last_tx =>
      match tx_xid last_tx ?= xid with
      | Eq => Ok (length l - 1)%nat
      | Lt => Err (length l)
      | Gt => binary_search_by_key (map tx_xid l) xid
      end
  | None => Err 0%nat
  end.

(** [VecDeque::insert]; the position is in range ([find_transaction_Err]). *)
Definition insert_at {A} (p : nat) (x : A) (l : list A) : list A :=
  take p l ++ x :: drop p l.

(** The [while] loops only pop the front: they are structural on the queue. *)
Fixpoint trim_loop (trim_limit : Z) (l : list Transaction) : list Transaction :=
  match l with
  | [] => []
  | t :: rest =>
      if trim_limit <? len l then
        match tx_state t with
        | InProgress => l
        | Completed _ => trim_loop trim_limit rest
        end
      else l
  end.

Definition trim_if_needed (c : ClientTransactions) : ClientTransactions :=
  set_transactions (trim_loop (ct_trim_limit c) (ct_transactions c)) c.

Definition add_transaction (xid : Z) (now : Instant) (c : ClientTransactions)
  : result unit TransactionError * ClientTransactions :=
  let c := set_last_active now c in
  match find_transaction c xid with
  | Ok _ => (Err AlreadyExists, c)
  | Err p =>
      if ct_max_active c <=? ct_active c then (Err TooManyRequests, c)
      else
        let c := set_active (ct_active c + 1) c in
        let c := set_transactions (insert_at p (in_progress xid) (ct_transactions c)) c in
        (Ok tt, trim_if_needed c)
  end.

Definition complete_transaction (xid : Z) (now : Instant) (c : ClientTransactions)
  : outcome unit * ClientTransactions :=
  let c := set_last_active now c in
  match find_transaction c xid with
  | Ok p =>
      match ct_transactions c !! p with
      | None => (Panic, c)
      | Some t =>
          match transaction_complete t now with
          | Ret t' =>
              let c := set_transactions (<[p := t']> (ct_transactions c)) c in
              if ct_active c =? 0 then (Panic, c)
              else (Ret tt, set_active (ct_active c - 1) c)
          | _ => (Panic, c)
          end
      end
  | Err _ => (Ret tt, c)
  end.

Fixpoint drop_stale (now : Instant) (max_age : Duration) (l : list Transaction) : list Transaction :=
  match l with
  | [] => []
  | tx :: rest => if is_stale tx now max_age then drop_stale now max_age rest else l
  end.

Definition remove_old_transactions (now : Instant) (max_age : Duration) (c : ClientTransactions)
  : ClientTransactions :=
  set_transactions (drop_stale now max_age (ct_transactions c)) c.

Definition has_active_transactions (c : ClientTransactions) (now : Instant) (max_age : Duration) : bool :=
  existsb (fun tx => negb (is_stale tx now max_age)) (ct_transactions c).

Definition is_active (c : ClientTransactions) (now : Instant) (max_age : Duration) : bool :=
  if instant_sub now (ct_last_active c) <? max_age then true
  else has_active_transactions c now max_age.

(** ** [TransactionTracker] *)

(** [Mutex<T>]. *)
Record Mutex (A : Type) : Type := mkMutex { mx_data : A; mx_poisoned : bool }.
Arguments mkMutex {A} _ _.
Arguments mx_data {A} _.
Arguments mx_poisoned {A} _.

Definition arc := nat.

Record TransactionTracker : Type := mkTracker {
  tt_retention_period : Duration;
  tt_transactions : gmap string arc;
  tt_poisoned : bool;
  tt_max_active : Z;
  tt_trim_limit : Z;
  tt_heap : list (Mutex ClientTransactions);
}.

Definition tracker_new (retention_period : Duration) (max_active trim_limit : Z) : TransactionTracker :=
  mkTracker retention_period ∅ false max_active trim_limit [].

Definition set_clients (m : gmap string arc) (t : TransactionTracker) : TransactionTracker :=
  mkTracker (tt_retention_period t) m (tt_poisoned t) (tt_max_active t) (tt_trim_limit t) (tt_heap t).
Definition set_heap (h : list (Mutex ClientTransactions)) (t : TransactionTracker) : TransactionTracker :=
  mkTracker (tt_retention_period t) (tt_transactions t) (tt_poisoned t) (tt_max_active t) (tt_trim_limit t) h.
Definition poison (t : TransactionTracker) : TransactionTracker :=
  mkTracker (tt_retention_period t) (tt_transactions t) true (tt_max_active t) (tt_trim_limit t) (tt_heap t).

(** Lock the mutex [r], run [f] on its data, unlock it. *)
Definition with_client {A} (r : arc) (f : ClientTransactions -> outcome A * ClientTransactions)
  : prog TransactionTracker A := fun t =>
  match tt_heap t !! r with
  | None => (Panic, t)
  | Some m =>
      if mx_poisoned m then (Panic, t)
      else
        match f (mx_data m) with
        | (Ret a, c) => (Ret a, set_heap (<[r := mkMutex c false]> (tt_heap t)) t)
        | (o, c) => (o, set_heap (<[r := mkMutex c true]> (tt_heap t)) t)
        end
  end.

(** A panic under the write guard poisons the [RwLock]. *)
Definition under_write {A} (m : prog TransactionTracker A) : prog TransactionTracker A := fun t =>
  if tt_poisoned t then (Panic, t)
  else match m t with
       | (Ret a, t') => (Ret a, t')
       | (o, t') => (o, poison t')
       end.

Record TransactionLock : Type := mkLock {
  tl_transactions : arc;
  tl_xid : Z;
  tl_retention_period : Duration;
}.

Open Scope nfs_scope.

(** The two lines both branches of [start_transaction] end with. *)
Definition add_and_lock (r : arc) (xid : Z) (now : Instant)
  : prog TransactionTracker (result TransactionLock TransactionError) :=
  do* res := with_client r (fun c => let '(res, c) := add_transaction xid now c in (Ret res, c)) in
  fun t => (Ret (result_map (fun _ => mkLock r xid (tt_retention_period t)) res), t).

(** First part, under the read lock: [None] when the client is not known. *)
Definition start_transaction_known (client_addr : string) (xid : Z) (now : Instant)
  : prog TransactionTracker (option (result TransactionLock TransactionError)) := fun t =>
  if tt_poisoned t then (Panic, t)
  else match tt_transactions t !! client_addr with
       | Some r => (do* res := add_and_lock r xid now in pret (Some res)) t
       | None => (Ret None, t)
       end.

(** [entry(client_addr).or_insert_with(|| self.new_client_transactions(now))]. *)
Definition entry_or_insert (client_addr : string) (now : Instant) : prog TransactionTracker arc := fun t =>
  match tt_transactions t !! client_addr with
  | Some r => (Ret r, t)
  | None =>
      match client_transactions_new now (tt_max_active t) (tt_trim_limit t) with
      | Ret c =>
          let r := length (tt_heap t) in
          (Ret r, set_clients (<[client_addr := r]> (tt_transactions t))
                    (set_heap (tt_heap t ++ [mkMutex c false]) t))
      | _ => (Panic, t)
      end
  end.

(** Second part, under the write lock. *)
Definition start_transaction_new (client_addr : string) (xid : Z) (now : Instant)
  : prog TransactionTracker (result TransactionLock TransactionError) :=
  under_write
    (do* r := entry_or_insert client_addr now in
     add_and_lock r xid now).

Definition start_transaction (client_addr : string) (xid : Z) (now : Instant)
  : prog TransactionTracker (result TransactionLock TransactionError) :=
  do* known := start_transaction_known client_addr xid now in
  match known with
  | Some res => pret res
  | None => start_transaction_new client_addr xid now
  end.

(** [HashMap::retain] visits the clients in an unspecified order; here it is
    the order of [map_to_list]. *)
Fixpoint retain_clients (now : Instant) (clients : list (string * arc)) : prog TransactionTracker unit :=
  match clients with
  | [] => pret tt
  | (addr, r) :: rest =>
      do* keep := fun t =>
        with_client r (fun c =>
          if is_active c now (tt_retention_period t)
          then (Ret true, remove_old_transactions now (tt_retention_period t) c)
          else (Ret false, c)) t in
      do* _ := fun t => (Ret tt, if (keep : bool) then t
                                 else set_clients (delete addr (tt_transactions t)) t) in
      retain_clients now rest
  end.

Definition cleanup (now : Instant) : prog TransactionTracker unit :=
  under_write (fun t => retain_clients now (map_to_list (tt_transactions t)) t).

(** [Drop for TransactionLock]. *)
Definition lock_drop (l : TransactionLock) (now : Instant) : prog TransactionTracker unit :=
  with_client (tl_transactions l) (fun c =>
    match complete_transaction (tl_xid l) now c with
    | (Ret _, c) => (Ret tt, remove_old_transactions now (tl_retention_period l) c)
    | (o, c) => (o, c)
    end).

(** ** Interleavings *)

(** A tracker with the locks that are alive and the calls to
    [start_transaction] that are between their two parts. *)
Record world : Type := mkWorld {
  w_tracker : TransactionTracker;
  w_locks : list TransactionLock;
  w_pending : list (string * Z * Instant);
}.

Definition push_lock (res : result TransactionLock TransactionError) (ls : list TransactionLock)
  : list TransactionLock :=
  match res with Ok l => l :: ls | Err _ => ls end.

(** A step of some thread; the instant is the one its operation was given. *)
Inductive timed_step : Instant -> world -> world -> Prop :=
| step_start_known : forall t ls ps addr xid now res t',
    start_transaction_known addr xid now t = (Ret (Some res), t') ->
    timed_step now (mkWorld t ls ps) (mkWorld t' (push_lock res ls) ps)
| step_start_unknown : forall t ls ps addr xid now t',
    start_transaction_known addr xid now t = (Ret None, t') ->
    timed_step now (mkWorld t ls ps) (mkWorld t' ls ((addr, xid, now) :: ps))
| step_start_new : forall t ls ps1 ps2 addr xid now res t',
    start_transaction_new addr xid now t = (Ret res, t') ->
    timed_step now (mkWorld t ls (ps1 ++ (addr, xid, now) :: ps2)) (mkWorld t' (push_lock res ls) (ps1 ++ ps2))
| step_drop : forall t ls1 ls2 ps l now t',
    lock_drop l now t = (Ret tt, t') ->
    timed_step now (mkWorld t (ls1 ++ l :: ls2) ps) (mkWorld t' (ls1 ++ ls2) ps)
| step_cleanup : forall t ls ps now t',
    cleanup now t = (Ret tt, t') ->
    timed_step now (mkWorld t ls ps) (mkWorld t' ls ps).

Definition step (w w' : world) : Prop := exists now, timed_step now w w'.

Inductive reachable (t0 : TransactionTracker) : world -> Prop :=
| reachable_init : reachable t0 (mkWorld t0 [] [])
| reachable_step : forall w w', reachable t0 w -> step w w' -> reachable t0 w'.
