(* ===== verification/TransactionLaws.v ===== *)
(** * Correctness of the transaction tracker

    [binary_search_spec] is the documented contract of the standard library's
    binary search; [find_transaction_spec] lifts it to the queue.  [ct_wf] is
    the invariant of one client's queue and [world_inv] the one of the tracker
    with its live locks: both are preserved by every step, so no interleaving
    reaches a panic. *)

From S2P Require Import Prelude Transactions.
From Stdlib Require Import Sorting.Sorted.
Open Scope Z_scope.
Open Scope nfs_scope.

(** ** Binary search *)

Lemma sorted_lookup_lt (l : list Z) i j a b :
  StronglySorted Z.lt l -> (i < j)%nat -> l !! i = Some a -> l !! j = Some b -> a < b.
Proof.
  intros Hs. revert i j. induction Hs as [|x l Hs IH Hall]; intros i j Hij Hi Hj; [done|].
  destruct j as [|j]; [lia|]. destruct i as [|i]; cbn in *; simplify_eq.
  - rewrite Forall_forall in Hall. apply Hall. by eapply list_elem_of_lookup_2.
  - eapply (IH i j); eauto; lia.
Qed.

Lemma binary_search_loop_spec l key fuel base size :
  (size <= fuel)%nat -> (1 <= size)%nat -> (base + size <= length l)%nat ->
  (base = 0%nat \/ exists k, l !! base = Some k /\ k <= key) ->
  (forall j k, l !! j = Some k -> (base + size <= j)%nat -> key < k) ->
  StronglySorted Z.lt l ->
  let r := binary_search_loop fuel l key base size in
  (r < length l)%nat /\ (r = 0%nat \/ exists k, l !! r = Some k /\ k <= key) /\
  (forall j k, l !! j = Some k -> (r < j)%nat -> key < k).
Proof.
  revert base size. induction fuel as [|fuel IH]; intros base size Hf H1 Hb Hlow Hhigh Hs; [lia|].
  cbn [binary_search_loop]. destruct (Nat.leb_spec size 1) as [Hle|Hgt].
  { split_and!; [lia|done|]. intros j k Hj Hlt. apply (Hhigh j k); [done|lia]. }
  assert (1 <= size / 2 < size)%nat as Hhalf.
  { split; [apply Nat.div_le_lower_bound; lia|apply Nat.div_lt; lia]. }
  destruct (l !! (base + size / 2)%nat) as [k|] eqn:Ek; cycle 1.
  { apply lookup_ge_None_1 in Ek. lia. }
  destruct (Z.ltb_spec key k) as [Hlt|Hge]; apply IH; try lia; try done.
  - intros j k' Hj Hle. destruct (decide (j = base + size / 2)%nat) as [->|Hne].
    + by simplify_eq.
    + assert (2 * (size / 2) <= size)%nat by (apply Nat.Div0.mul_div_le).
      destruct (decide (base + size / 2 < j)%nat).
      * etrans; [exact Hlt|]. by eapply (sorted_lookup_lt l (base + size / 2)%nat j).
      * lia.
  - right. eauto.
  - intros j k' Hj Hle. apply (Hhigh j k'); [done|lia].
Qed.

Lemma binary_search_spec l key :
  StronglySorted Z.lt l ->
  match binary_search_by_key l key with
  | Ok i => l !! i = Some key
  | Err i => (i <= length l)%nat /\
             (forall j k, l !! j = Some k -> (j < i)%nat -> k < key) /\
             (forall j k, l !! j = Some k -> (i <= j)%nat -> key < k)
  end.
Proof.
  intros Hs. unfold binary_search_by_key.
  destruct l as [|x l']; [split_and!; [done|by intros ??|by intros ??]|].
  set (l := x :: l') in *.
  destruct (binary_search_loop_spec l key (length l) 0 (length l)) as (Hlt & Hlow & Hhigh);
    [done|cbn; lia|lia|by left| |done|].
  { intros j k Hj Hle. apply lookup_lt_Some in Hj. lia. }
  set (r := binary_search_loop _ _ _ _ _) in *.
  destruct (l !! r) as [k|] eqn:Ek; [|apply lookup_ge_None_1 in Ek; lia].
  destruct (Z.eqb_spec k key) as [->|Hne]; [done|].
  destruct (Z.ltb_spec k key) as [Hk|Hk].
  - split_and!; [lia|..].
    + intros j k' Hj Hj'. destruct (decide (j = r)) as [->|]; [by simplify_eq|].
      etrans; [|exact Hk]. eapply (sorted_lookup_lt l j r); eauto. lia.
    + intros j k' Hj Hj'. apply (Hhigh j k'); [done|lia].
  - destruct Hlow as [->|(k' & Hk' & Hle)]; [|simplify_eq; lia].
    split_and!; [lia|intros; lia|].
    intros j k' Hj _. destruct (decide (j = 0%nat)) as [->|]; [simplify_eq; lia|].
    apply (Hhigh j k'); [done|lia].
Qed.

(** ** The queue of one client *)

Definition xids (l : list Transaction) : list Z := map tx_xid l.
Definition sorted_xids (l : list Transaction) : Prop := StronglySorted Z.lt (xids l).

Definition in_progress_xids (l : list Transaction) : list Z :=
  map tx_xid (filter (fun t => tx_state t = InProgress) l).
#[global] Arguments in_progress_xids : simpl never.

(** Positions of [find_transaction]. *)
Lemma find_transaction_spec c xid :
  sorted_xids (ct_transactions c) ->
  match find_transaction c xid with
  | Ok p => exists t, ct_transactions c !! p = Some t /\ tx_xid t = xid
  | Err p => (p <= length (ct_transactions c))%nat /\
             Forall (fun x => x < xid) (take p (xids (ct_transactions c))) /\
             Forall (fun x => xid < x) (drop p (xids (ct_transactions c)))
  end.
Proof.
  unfold sorted_xids, find_transaction, xids. intros Hs.
  set (l := ct_transactions c) in *.
  destruct (last l) as [tl|] eqn:El; cycle 1.
  { apply last_None in El. rewrite El. split_and!; [done|constructor..]. }
  rewrite last_lookup in El.
  pose proof (lookup_lt_Some _ _ _ El) as Hlen.
  destruct (Z.compare_spec (tx_xid tl) xid) as [Heq|Hlt|Hgt].
  - exists tl. by replace (length l - 1)%nat with (pred (length l)) by lia.
  - split_and!; [done| |by rewrite drop_ge by (rewrite length_map; lia)].
    rewrite take_ge by (rewrite length_map; lia). apply Forall_lookup_2. intros j x Hj.
    assert (map tx_xid l !! pred (length l) = Some (tx_xid tl)) as Hl.
    { rewrite list_lookup_fmap, El. done. }
    destruct (decide (j = pred (length l))) as [->|Hne]; [congruence|].
    etrans; [|exact Hlt]. eapply (sorted_lookup_lt _ j (pred (length l))); eauto.
    apply lookup_lt_Some in Hj. rewrite length_map in Hj. lia.
  - pose proof (binary_search_spec (map tx_xid l) xid Hs) as Hb.
    destruct (binary_search_by_key _ _) as [p|p].
    + rewrite list_lookup_fmap in Hb. destruct (l !! p) as [t|]; [|done].
      cbn in Hb. exists t. by simplify_eq.
    + rewrite length_map in Hb. destruct Hb as (Hp & Hlow & Hhigh). split_and!; [done|..].
      * apply Forall_lookup_2. intros j x Hj. apply lookup_take_Some in Hj as [Hj ?]. eauto.
      * apply Forall_lookup_2. intros j x Hj. rewrite lookup_drop in Hj.
        eapply Hhigh; [exact Hj|lia].
Qed.

Lemma find_transaction_found c xid :
  sorted_xids (ct_transactions c) ->
  is_ok (find_transaction c xid) = true <-> xid ∈ xids (ct_transactions c).
Proof.
  intros Hs. pose proof (find_transaction_spec c xid Hs) as H.
  destruct (find_transaction c xid) as [p|p]; cbn; (split; [intros ?|intros Hin]); try done.
  - destruct H as (t & Ht & <-). apply list_elem_of_fmap. eexists; split; [done|].
    by eapply list_elem_of_lookup_2.
  - destruct H as (_ & Hlow & Hhigh).
    rewrite <- (take_drop p (xids (ct_transactions c))) in Hin.
    apply elem_of_app in Hin as [Hin|Hin].
    + rewrite Forall_forall in Hlow. apply Hlow in Hin. lia.
    + rewrite Forall_forall in Hhigh. apply Hhigh in Hin. lia.
Qed.

Lemma sorted_app (l1 l2 : list Z) :
  StronglySorted Z.lt (l1 ++ l2) <->
  StronglySorted Z.lt l1 /\ StronglySorted Z.lt l2 /\
  (forall a b, a ∈ l1 -> b ∈ l2 -> a < b).
Proof.
  induction l1 as [|x l1 IH]; cbn.
  - split; [intros H; split_and!; [constructor|done|]|by intros (_ & ? & _)].
    intros a b Ha. by apply elem_of_nil in Ha.
  - split.
    + intros H. inversion H as [|? ? Hs Hf]; subst. apply IH in Hs as (H1 & H2 & H3).
      apply Forall_app in Hf as [Hf1 Hf2]. split_and!; [by constructor|done|].
      intros a b [->|Ha]%elem_of_cons Hb; [|eauto]. rewrite Forall_forall in Hf2. eauto.
    + intros (H1 & H2 & H3). inversion H1 as [|? ? Hs Hf]; subst. constructor.
      * apply IH. split_and!; [done..|]. intros a b Ha Hb. apply H3; [by right|done].
      * apply Forall_app. split; [done|]. apply Forall_forall. intros b Hb.
        apply H3; [by left|done].
Qed.

Lemma xids_app l1 l2 : xids (l1 ++ l2) = xids l1 ++ xids l2.
Proof. apply map_app. Qed.

Lemma insert_at_perm {A} p (x : A) l : insert_at p x l ≡ₚ x :: l.
Proof.
  unfold insert_at. rewrite <- Permutation_middle. by rewrite take_drop.
Qed.

(** Inserting an absent xid where [find_transaction] says keeps the order. *)
Lemma insert_at_sorted c xid p t :
  sorted_xids (ct_transactions c) -> find_transaction c xid = Err p -> tx_xid t = xid ->
  sorted_xids (insert_at p t (ct_transactions c)).
Proof.
  intros Hs Hf <-. pose proof (find_transaction_spec c (tx_xid t) Hs) as H. rewrite Hf in H.
  destruct H as (Hp & Hlow & Hhigh). unfold sorted_xids, insert_at in *.
  set (l := ct_transactions c) in *. unfold xids in *.
  rewrite <- fmap_take in Hlow. rewrite <- fmap_drop in Hhigh.
  rewrite <- (take_drop p l), map_app in Hs. apply sorted_app in Hs as (H1 & H2 & H3).
  rewrite map_app. cbn [map]. rewrite Forall_forall in Hlow, Hhigh. apply sorted_app.
  split_and!; [done| |].
  - constructor; [done|]. by apply Forall_forall.
  - intros a b Ha [->|Hb]%elem_of_cons; eauto.
Qed.

(** What [trim_if_needed] removes: completed transactions at the front, and
    only as long as the queue is over the limit. *)
Lemma trim_loop_spec n l :
  0 <= n ->
  exists dropped, l = dropped ++ trim_loop n l /\
    Forall (fun t => tx_state t <> InProgress) dropped /\
    (dropped = [] \/ n <= len (trim_loop n l)) /\
    (len (trim_loop n l) <= n \/
     exists t rest, trim_loop n l = t :: rest /\ tx_state t = InProgress).
Proof.
  intros Hn. induction l as [|t l (d & IH1 & IH2 & IH3 & IH4)]; cbn [trim_loop].
  { exists []. split_and!; [done|constructor|by left|by left]. }
  destruct (Z.ltb_spec n (len (t :: l))) as [Hlt|Hge]; cycle 1.
  { exists []. split_and!; [done|constructor|by left|by left]. }
  destruct (tx_state t) eqn:Et.
  { exists []. split_and!; [done|constructor|by left|right; eauto]. }
  exists (t :: d). split_and!.
  - cbn. by f_equal.
  - constructor; [congruence|done].
  - right. destruct IH3 as [->|?]; [|done]. cbn in IH1. rewrite <- IH1.
    rewrite len_cons in Hlt. lia.
  - done.
Qed.

Lemma drop_stale_spec now age l :
  exists dropped, l = dropped ++ drop_stale now age l /\
    Forall (fun t => is_stale t now age = true) dropped.
Proof.
  induction l as [|t l (d & IH1 & IH2)]; cbn [drop_stale].
  { by exists []. }
  destruct (is_stale t now age) eqn:E; [|by exists []].
  exists (t :: d). split; [cbn; by f_equal|by constructor].
Qed.

Lemma sorted_xids_app l1 l2 : sorted_xids (l1 ++ l2) -> sorted_xids l2.
Proof. unfold sorted_xids. rewrite xids_app. intros H. by apply sorted_app in H as (_ & ? & _). Qed.

Lemma in_progress_xids_app l1 l2 :
  in_progress_xids (l1 ++ l2) = in_progress_xids l1 ++ in_progress_xids l2.
Proof. unfold in_progress_xids. by rewrite filter_app, map_app. Qed.

Lemma in_progress_xids_cons t l :
  in_progress_xids (t :: l) =
  (if decide (tx_state t = InProgress) then [tx_xid t] else []) ++ in_progress_xids l.
Proof. unfold in_progress_xids. rewrite filter_cons. by case_decide. Qed.

Lemma in_progress_xids_none l :
  Forall (fun t => tx_state t <> InProgress) l -> in_progress_xids l = [].
Proof.
  induction 1 as [|t l Ht _ IH]; [done|].
  rewrite in_progress_xids_cons, decide_False by done. exact IH.
Qed.

#[export] Instance in_progress_xids_perm : Proper ((≡ₚ) ==> (≡ₚ)) in_progress_xids.
Proof.
  intros l1 l2 H. unfold in_progress_xids.
  change (map tx_xid) with (fmap tx_xid : list Transaction -> list Z). by rewrite H.
Qed.

Lemma stale_not_in_progress now age l :
  Forall (fun t => is_stale t now age = true) l -> Forall (fun t => tx_state t <> InProgress) l.
Proof.
  intros H. eapply Forall_impl; [exact H|]. intros t Ht Hp. unfold is_stale in Ht. by rewrite Hp in Ht.
Qed.

(** Dropping a prefix without in-progress transactions. *)
Lemma trim_in_progress n l : 0 <= n -> in_progress_xids (trim_loop n l) = in_progress_xids l.
Proof.
  intros Hn. destruct (trim_loop_spec n l Hn) as (d & Hd & Hf & _).
  rewrite Hd at 2. by rewrite in_progress_xids_app, (in_progress_xids_none d).
Qed.

Lemma trim_sorted n l : 0 <= n -> sorted_xids l -> sorted_xids (trim_loop n l).
Proof.
  intros Hn Hs. destruct (trim_loop_spec n l Hn) as (d & Hd & _). rewrite Hd in Hs.
  by apply sorted_xids_app in Hs.
Qed.

Lemma drop_stale_in_progress now age l :
  in_progress_xids (drop_stale now age l) = in_progress_xids l.
Proof.
  destruct (drop_stale_spec now age l) as (d & Hd & Hf). rewrite Hd at 2.
  by rewrite in_progress_xids_app, (in_progress_xids_none d) by (by eapply stale_not_in_progress).
Qed.

Lemma drop_stale_sorted now age l : sorted_xids l -> sorted_xids (drop_stale now age l).
Proof.
  intros Hs. destruct (drop_stale_spec now age l) as (d & Hd & _). rewrite Hd in Hs.
  by apply sorted_xids_app in Hs.
Qed.

Lemma in_progress_xids_In l x :
  x ∈ in_progress_xids l <-> exists t, t ∈ l /\ tx_xid t = x /\ tx_state t = InProgress.
Proof.
  unfold in_progress_xids.
  rewrite (list_elem_of_fmap tx_xid). split.
  - intros (t & -> & Ht). apply list_elem_of_filter in Ht as [? ?]. eauto.
  - intros (t & Ht & <- & Hs). exists t. split; [done|]. by apply list_elem_of_filter.
Qed.

(** In a sorted queue the state of an xid is unique. *)
Lemma sorted_xid_inj l t1 t2 :
  sorted_xids l -> t1 ∈ l -> t2 ∈ l -> tx_xid t1 = tx_xid t2 -> t1 = t2.
Proof.
  intros Hs (i & Hi)%list_elem_of_lookup_1 (j & Hj)%list_elem_of_lookup_1 Hx.
  destruct (decide (i = j)) as [->|Hne]; [congruence|].
  assert (forall i j a b, (i < j)%nat -> l !! i = Some a -> l !! j = Some b -> tx_xid a < tx_xid b) as Hlt.
  { intros i' j' a b Hij Ha Hb. eapply (sorted_lookup_lt (xids l) i' j'); [done|done|..];
      unfold xids; rewrite list_lookup_fmap; [by rewrite Ha|by rewrite Hb]. }
  destruct (Nat.lt_total i j) as [H|[H|H]]; [|done|]; eapply Hlt in H; eauto; lia.
Qed.

(** The invariant of one client's queue. *)
Record ct_wf (c : ClientTransactions) : Prop := {
  ctw_sorted : sorted_xids (ct_transactions c);
  ctw_count : ct_active c = len (in_progress_xids (ct_transactions c));
  ctw_bound : ct_active c <= ct_max_active c;
  ctw_u16 : 0 <= ct_max_active c <= u16_MAX;
  ctw_limit : ct_max_active c < ct_trim_limit c;
}.

(** What [add_transaction] does to the queue on each of its branches. *)
Lemma add_transaction_cases c xid now :
  ct_wf c ->
  let c' := snd (add_transaction xid now c) in
  ct_last_active c' = now /\
  ct_max_active c' = ct_max_active c /\ ct_trim_limit c' = ct_trim_limit c /\
  match fst (add_transaction xid now c) with
  | Err AlreadyExists =>
      (xid ∈ xids (ct_transactions c)) /\
      ct_transactions c' = ct_transactions c /\ ct_active c' = ct_active c
  | Err TooManyRequests =>
      (xid ∉ xids (ct_transactions c)) /\ ct_active c = ct_max_active c /\
      ct_transactions c' = ct_transactions c /\ ct_active c' = ct_active c
  | Ok _ =>
      (xid ∉ xids (ct_transactions c)) /\ ct_active c < ct_max_active c /\
      ct_active c' = ct_active c + 1 /\
      exists l, l ≡ₚ in_progress xid :: ct_transactions c /\ sorted_xids l /\
                ct_transactions c' = trim_loop (ct_trim_limit c) l
  end.
Proof.
  intros [Hs Hn Hb Hu Hl]. unfold add_transaction.
  pose proof (find_transaction_found (set_last_active now c) xid Hs) as Hfound.
  destruct (find_transaction (set_last_active now c) xid) as [p|p] eqn:Ef; cbn in Hfound.
  { cbn. split_and!; [done..| |done|done]. by apply Hfound. }
  assert (xid ∉ xids (ct_transactions c)) as Hnot.
  { intros Hin. by apply Hfound in Hin. }
  cbn [ct_max_active ct_active set_last_active].
  destruct (Z.leb_spec (ct_max_active c) (ct_active c)); cbn.
  { split_and!; [done..|lia|done|done]. }
  split_and!; [done..|lia|done|].
  exists (insert_at p (in_progress xid) (ct_transactions c)).
  split_and!; [apply insert_at_perm| |done].
  by apply (insert_at_sorted (set_last_active now c) xid).
Qed.

Lemma add_transaction_wf c xid now :
  ct_wf c -> ct_wf (snd (add_transaction xid now c)).
Proof.
  intros Hwf. pose proof (add_transaction_cases c xid now Hwf) as (_ & Hmax & Htrim & H).
  destruct Hwf as [Hs Hn Hb Hu Hl]. destruct (fst (add_transaction xid now c)) as [u|[|]].
  - destruct H as (Hnot & Hlt & Ha & l & Hp & Hsl & Ht).
    constructor; rewrite ?Hmax, ?Htrim, ?Ha, ?Ht; [|..|lia|done|lia].
    + by apply trim_sorted; [lia|].
    + rewrite trim_in_progress by lia. rewrite Hn. unfold len. rewrite Hp.
      rewrite in_progress_xids_cons. cbn [in_progress tx_state].
      rewrite decide_True by done. cbn [app length]. lia.
  - destruct H as (_ & Ht & Ha). constructor; rewrite ?Hmax, ?Htrim, ?Ha, ?Ht; done.
  - destruct H as (_ & _ & Ht & Ha). constructor; rewrite ?Hmax, ?Htrim, ?Ha, ?Ht; done.
Qed.

Lemma add_transaction_in_progress c xid now :
  ct_wf c ->
  in_progress_xids (ct_transactions (snd (add_transaction xid now c))) ≡ₚ
  (if is_ok (fst (add_transaction xid now c)) then [xid] else []) ++ in_progress_xids (ct_transactions c).
Proof.
  intros Hwf. pose proof (add_transaction_cases c xid now Hwf) as (_ & _ & _ & H).
  destruct (fst (add_transaction xid now c)) as [u|[|]]; cbn [is_ok app].
  - destruct H as (_ & _ & _ & l & Hp & _ & ->). destruct Hwf as [_ _ ? ? ?].
    by rewrite trim_in_progress, Hp, in_progress_xids_cons by lia.
  - by destruct H as (_ & -> & _).
  - by destruct H as (_ & _ & -> & _).
Qed.

(** Completing an xid that is in progress. *)
Lemma complete_transaction_run c xid now :
  ct_wf c -> xid ∈ in_progress_xids (ct_transactions c) ->
  exists c', complete_transaction xid now c = (Ret tt, c') /\ ct_wf c' /\
    ct_max_active c' = ct_max_active c /\ ct_trim_limit c' = ct_trim_limit c /\
    xids (ct_transactions c') = xids (ct_transactions c) /\
    mkTransaction xid (Completed now) ∈ ct_transactions c' /\
    in_progress_xids (ct_transactions c) ≡ₚ xid :: in_progress_xids (ct_transactions c').
Proof.
  intros [Hs Hn Hb Hu Hl] Hin. apply in_progress_xids_In in Hin as (t & Ht & Hx & Hst).
  unfold complete_transaction.
  pose proof (find_transaction_spec (set_last_active now c) xid Hs) as Hf.
  pose proof (find_transaction_found (set_last_active now c) xid Hs) as Hfound.
  destruct (find_transaction _ _) as [p|p]; cycle 1.
  { cbn in Hfound. exfalso. enough (false = true) by done. apply Hfound. subst xid.
    by apply list_elem_of_fmap_2. }
  destruct Hf as (t' & Ht' & Hx'). cbn [ct_transactions set_last_active] in *. rewrite Ht'.
  assert (t' = t) as ->.
  { apply (sorted_xid_inj (ct_transactions c)); [done| |done|congruence].
    by eapply list_elem_of_lookup_2. }
  unfold transaction_complete. rewrite Hst. set (t' := mkTransaction (tx_xid t) (Completed now)).
  cbn [ct_active set_transactions set_last_active].
  pose proof (take_drop_middle _ _ _ Ht') as Hsplit.
  assert (in_progress_xids (ct_transactions c) ≡ₚ xid :: in_progress_xids (<[p:=t']> (ct_transactions c))) as Hperm.
  { rewrite <- Hsplit at 1. rewrite insert_take_drop by (by eapply lookup_lt_Some).
    rewrite !in_progress_xids_app, !in_progress_xids_cons. subst t'. cbn [tx_state].
    rewrite decide_True, decide_False by done. cbn [app]. rewrite Hx.
    by rewrite <- Permutation_middle. }
  assert (xids (<[p:=t']> (ct_transactions c)) = xids (ct_transactions c)) as Hxids.
  { unfold xids. change (map tx_xid) with (fmap tx_xid : list Transaction -> list Z).
    rewrite list_fmap_insert. apply list_insert_id. rewrite list_lookup_fmap, Ht'. done. }
  assert (ct_active c = 1 + len (in_progress_xids (<[p:=t']> (ct_transactions c)))) as Hcount.
  { rewrite Hn. unfold len. rewrite Hperm. cbn [length]. lia. }
  pose proof (len_nonneg (in_progress_xids (<[p:=t']> (ct_transactions c)))).
  destruct (Z.eqb_spec (ct_active c) 0); [lia|].
  eexists. split; [reflexivity|].
  cbn [ct_max_active ct_trim_limit ct_transactions ct_active set_active set_transactions set_last_active].
  split_and!; [|reflexivity|reflexivity|exact Hxids| |exact Hperm].
  - constructor; cbn [ct_max_active ct_trim_limit ct_transactions ct_active set_active set_transactions set_last_active];
      [|lia..]. unfold sorted_xids. by rewrite Hxids.
  - subst xid. change (mkTransaction (tx_xid t) (Completed now)) with t'.
    apply list_elem_of_lookup_2 with p. apply list_lookup_insert_eq. by eapply lookup_lt_Some.
Qed.

Lemma remove_old_wf now age c : ct_wf c -> ct_wf (remove_old_transactions now age c).
Proof.
  intros [Hs Hn Hb Hu Hl]. unfold remove_old_transactions.
  constructor; cbn [ct_max_active ct_trim_limit ct_transactions ct_active set_transactions];
    [by apply drop_stale_sorted|by rewrite drop_stale_in_progress|done..].
Qed.

Lemma is_active_false c now age :
  is_active c now age = false -> in_progress_xids (ct_transactions c) = [].
Proof.
  unfold is_active, has_active_transactions. case_match; [done|]. intros Hx.
  apply in_progress_xids_none. apply Forall_forall. intros t Ht Hst.
  enough (existsb (fun tx => negb (is_stale tx now age)) (ct_transactions c) = true) by congruence.
  apply existsb_exists. exists t. split; [by apply list_elem_of_In|].
  unfold is_stale. by rewrite Hst.
Qed.

(** ** The tracker with its live locks *)

(** The xids locked on the queue [r]. *)
Definition locked_xids (ls : list TransactionLock) (r : arc) : list Z :=
  map tl_xid (filter (fun l => tl_transactions l = r) ls).
#[global] Arguments locked_xids : simpl never.

Record mutex_ok (t : TransactionTracker) (ls : list TransactionLock) (r : arc)
  (m : Mutex ClientTransactions) : Prop := {
  mok_clean : mx_poisoned m = false;
  mok_wf : ct_wf (mx_data m);
  mok_max : ct_max_active (mx_data m) = tt_max_active t;
  mok_limit : ct_trim_limit (mx_data m) = tt_trim_limit t;
  mok_locks : in_progress_xids (ct_transactions (mx_data m)) ≡ₚ locked_xids ls r;
}.

Record tracker_inv (t : TransactionTracker) (ls : list TransactionLock) : Prop := {
  ti_clean : tt_poisoned t = false;
  ti_u16 : 0 <= tt_max_active t <= u16_MAX;
  ti_limit : tt_max_active t < tt_trim_limit t;
  ti_heap : forall r m, tt_heap t !! r = Some m -> mutex_ok t ls r m;
  ti_clients : forall addr r, tt_transactions t !! addr = Some r -> (r < length (tt_heap t))%nat;
  ti_inj : forall a1 a2 r, tt_transactions t !! a1 = Some r -> tt_transactions t !! a2 = Some r -> a1 = a2;
  ti_locks : forall l, l ∈ ls -> exists addr, tt_transactions t !! addr = Some (tl_transactions l);
}.

Definition world_inv (w : world) : Prop := tracker_inv (w_tracker w) (w_locks w).

Lemma locked_xids_perm ls1 ls2 r : ls1 ≡ₚ ls2 -> locked_xids ls1 r ≡ₚ locked_xids ls2 r.
Proof.
  intros H. unfold locked_xids.
  change (map tl_xid) with (fmap tl_xid : list TransactionLock -> list Z). by rewrite H.
Qed.

Lemma locked_xids_cons l ls r :
  locked_xids (l :: ls) r = (if decide (tl_transactions l = r) then [tl_xid l] else []) ++ locked_xids ls r.
Proof. unfold locked_xids. rewrite filter_cons. by case_decide. Qed.

Lemma locked_xids_none ls r : (forall l, l ∈ ls -> tl_transactions l <> r) -> locked_xids ls r = [].
Proof.
  induction ls as [|l ls IH]; intros H; [done|].
  rewrite locked_xids_cons, decide_False by (apply H; by left). apply IH.
  intros l' Hl'. apply H. by right.
Qed.

Lemma tracker_inv_perm t ls1 ls2 : ls1 ≡ₚ ls2 -> tracker_inv t ls1 -> tracker_inv t ls2.
Proof.
  intros Hp [H1 H2 H3 H4 H5 H6 H7]. constructor; try done.
  - intros r m Hr. destruct (H4 r m Hr) as [? ? ? ? Hl]. constructor; try done.
    by rewrite Hl, (locked_xids_perm _ _ _ Hp).
  - intros l Hl. apply H7. by rewrite Hp.
Qed.

(** Running [f] on the queue of [r]: what is left to show is about that queue. *)
Lemma with_client_run {A} (f : ClientTransactions -> outcome A * ClientTransactions) t ls ls' r c a c' m :
  tracker_inv t ls -> tt_heap t !! r = Some m -> mx_data m = c -> f c = (Ret a, c') ->
  ct_wf c' -> ct_max_active c' = ct_max_active c -> ct_trim_limit c' = ct_trim_limit c ->
  in_progress_xids (ct_transactions c') ≡ₚ locked_xids ls' r ->
  (forall r', r' <> r -> locked_xids ls' r' ≡ₚ locked_xids ls r') ->
  (forall l, l ∈ ls' -> exists addr, tt_transactions t !! addr = Some (tl_transactions l)) ->
  with_client r f t = (Ret a, set_heap (<[r := mkMutex c' false]> (tt_heap t)) t) /\
  tracker_inv (set_heap (<[r := mkMutex c' false]> (tt_heap t)) t) ls'.
Proof.
  intros [H1 H2 H3 H4 H5 H6 H7] Hr <- Hf Hwf Hmax Hlim Hip Hother Hlocks.
  pose proof (H4 r m Hr) as [Hc Hw Hm Ht Hl].
  split; [unfold with_client; by rewrite Hr, Hc, Hf|].
  constructor; cbn [tt_poisoned tt_max_active tt_trim_limit tt_heap tt_transactions set_heap]; try done.
  - intros r' m' Hr'. destruct (decide (r' = r)) as [->|Hne].
    + rewrite list_lookup_insert_eq in Hr' by (by eapply lookup_lt_Some). simplify_eq.
      constructor; cbn [mx_poisoned mx_data tt_max_active tt_trim_limit set_heap]; try done; congruence.
    + rewrite list_lookup_insert_ne in Hr' by done. destruct (H4 r' m' Hr') as [? ? ? ? Hl'].
      constructor; try done. by rewrite Hl', Hother.
  - intros addr r' Ha. rewrite length_insert. eauto.
Qed.

Lemma add_and_lock_run t ls addr r xid now :
  tracker_inv t ls -> tt_transactions t !! addr = Some r ->
  exists m, tt_heap t !! r = Some m /\
    let res := result_map (fun _ => mkLock r xid (tt_retention_period t))
                 (fst (add_transaction xid now (mx_data m))) in
    let t' := set_heap (<[r := mkMutex (snd (add_transaction xid now (mx_data m))) false]> (tt_heap t)) t in
    add_and_lock r xid now t = (Ret res, t') /\ tracker_inv t' (push_lock res ls).
Proof.
  intros Hinv Haddr. pose proof (ti_clients _ _ Hinv _ _ Haddr) as Hlt.
  destruct (lookup_lt_is_Some_2 _ _ Hlt) as [m Hm]. exists m. split; [done|].
  pose proof (ti_heap _ _ Hinv r m Hm) as [Hc Hw Hmx Hl Hk].
  set (res := result_map _ _). set (t' := set_heap _ _).
  pose proof (add_transaction_in_progress _ xid now Hw) as Hip.
  pose proof (add_transaction_cases _ xid now Hw) as (_ & Hmax & Hlim & _).
  destruct (with_client_run
    (fun c => let '(res, c) := add_transaction xid now c in (Ret res, c))
    t ls (push_lock res ls) r (mx_data m) (fst (add_transaction xid now (mx_data m)))
    (snd (add_transaction xid now (mx_data m))) m) as [Hrun Hinv']; try done.
  - by destruct (add_transaction xid now (mx_data m)).
  - by apply add_transaction_wf.
  - rewrite Hip, Hk. subst res. destruct (fst _) as [?|?]; cbn; [|done].
    rewrite locked_xids_cons. cbn. by rewrite decide_True.
  - intros r' Hne. subst res. destruct (fst _) as [?|?]; cbn; [|done].
    rewrite locked_xids_cons. cbn. by rewrite decide_False.
  - intros l Hlin. subst res. destruct (fst _) as [?|?]; cbn in Hlin; [|by apply (ti_locks _ _ Hinv)].
    apply elem_of_cons in Hlin as [->|Hlin]; [by exists addr|by apply (ti_locks _ _ Hinv)].
  - split; [|exact Hinv']. unfold add_and_lock, pbind. rewrite Hrun. done.
Qed.

Lemma entry_or_insert_run t ls addr now :
  tracker_inv t ls ->
  exists r t', entry_or_insert addr now t = (Ret r, t') /\ tracker_inv t' ls /\
    tt_transactions t' !! addr = Some r.
Proof.
  intros Hinv. unfold entry_or_insert. destruct (tt_transactions t !! addr) as [r|] eqn:Ha.
  { exists r, t. done. }
  destruct Hinv as [H1 H2 H3 H4 H5 H6 H7].
  unfold client_transactions_new. rewrite (proj2 (Z.ltb_lt _ _)) by done.
  eexists _, _. split; [reflexivity|]. cbn [tt_transactions set_clients set_heap].
  split; [|by rewrite lookup_insert_eq].
  assert (forall a r, tt_transactions t !! a = Some r -> r <> length (tt_heap t)) as Hfresh.
  { intros a r Hr ->. apply H5 in Hr. lia. }
  constructor; cbn [tt_poisoned tt_max_active tt_trim_limit tt_heap tt_transactions set_heap set_clients]; try done.
  - intros r m Hr. apply lookup_app_Some in Hr as [Hr|[Hle Hr]].
    { destruct (H4 r m Hr) as [? ? ? ? ?]. by constructor. }
    destruct (r - length (tt_heap t))%nat eqn:Hd; [|by destruct n]. cbn in Hr. simplify_eq.
    assert (r = length (tt_heap t)) as -> by lia.
    constructor; try done.
    + constructor; cbn; [constructor|done|lia|done|done].
    + cbn [mx_data ct_transactions]. enough (locked_xids ls (length (tt_heap t)) = []) as -> by done.
      apply locked_xids_none. intros l Hl Heq. destruct (H7 l Hl) as [a Ha'].
      rewrite Heq in Ha'. by apply Hfresh in Ha'.
  - intros a r. rewrite length_app. cbn. rewrite lookup_insert. case_decide; intros ?; simplify_eq; [lia|].
    enough (r < length (tt_heap t))%nat by lia. eauto.
  - intros a1 a2 r. rewrite !lookup_insert. repeat case_decide; intros ? ?; simplify_eq; try done.
    + by exfalso; eapply Hfresh.
    + by exfalso; eapply Hfresh.
    + eauto.
  - intros l Hl. destruct (H7 l Hl) as [a Ha']. exists a. rewrite lookup_insert_ne; [done|congruence].
Qed.

Lemma start_transaction_known_run t ls addr xid now :
  tracker_inv t ls ->
  exists res t', start_transaction_known addr xid now t = (Ret res, t') /\
    tracker_inv t' (match res with Some r => push_lock r ls | None => ls end) /\
    (res = None <-> tt_transactions t !! addr = None).
Proof.
  intros Hinv. unfold start_transaction_known. rewrite (ti_clean _ _ Hinv).
  destruct (tt_transactions t !! addr) as [r|] eqn:Ha; [|by exists None, t].
  destruct (add_and_lock_run t ls addr r xid now Hinv Ha) as (m & Hm & Hrun & Hinv').
  eexists (Some _), _. unfold pbind. rewrite Hrun. split; [reflexivity|]. done.
Qed.

Lemma start_transaction_new_run t ls addr xid now :
  tracker_inv t ls ->
  exists res t', start_transaction_new addr xid now t = (Ret res, t') /\
    tracker_inv t' (push_lock res ls).
Proof.
  intros Hinv. unfold start_transaction_new, under_write. rewrite (ti_clean _ _ Hinv).
  destruct (entry_or_insert_run t ls addr now Hinv) as (r & t1 & He & Hinv1 & Ha).
  destruct (add_and_lock_run t1 ls addr r xid now Hinv1 Ha) as (m & Hm & Hrun & Hinv').
  unfold pbind. rewrite He, Hrun. eauto.
Qed.

Lemma lock_drop_run t l ls now :
  tracker_inv t (l :: ls) ->
  exists t', lock_drop l now t = (Ret tt, t') /\ tracker_inv t' ls.
Proof.
  intros Hinv. destruct (ti_locks _ _ Hinv l) as [addr Ha]; [by left|].
  pose proof (ti_clients _ _ Hinv _ _ Ha) as Hlt.
  destruct (lookup_lt_is_Some_2 _ _ Hlt) as [m Hm].
  pose proof (ti_heap _ _ Hinv _ m Hm) as [Hc Hw Hmx Hl Hk].
  rewrite locked_xids_cons, decide_True in Hk by done. cbn [app] in Hk.
  destruct (complete_transaction_run (mx_data m) (tl_xid l) now Hw) as
    (c' & Hcomp & Hwf' & Hmax & Hlim & _ & _ & Hip).
  { rewrite Hk. by left. }
  eexists. unfold lock_drop. eapply (with_client_run _ t (l :: ls) ls); [done|done|done|..].
  - by rewrite Hcomp.
  - by apply remove_old_wf.
  - done.
  - done.
  - cbn [ct_transactions remove_old_transactions set_transactions]. rewrite drop_stale_in_progress.
    rewrite Hk in Hip. by apply Permutation.Permutation_cons_inv in Hip.
  - intros r' Hne. rewrite locked_xids_cons, decide_False by done. done.
  - intros l' Hl'. apply (ti_locks _ _ Hinv). by right.
Qed.

Lemma with_client_retain_run t ls r now m :
  tracker_inv t ls -> tt_heap t !! r = Some m ->
  exists keep t', with_client r (fun c =>
          if is_active c now (tt_retention_period t)
          then (Ret true, remove_old_transactions now (tt_retention_period t) c)
          else (Ret false, c)) t = (Ret keep, t') /\ tracker_inv t' ls /\
    tt_transactions t' = tt_transactions t /\
    (keep = false -> locked_xids ls r = []).
Proof.
  intros Hinv Hm. pose proof (ti_heap _ _ Hinv _ m Hm) as [Hc Hw Hmx Hl Hk].
  set (f := fun c => if is_active c now _ then _ else _).
  assert (exists keep c', f (mx_data m) = (Ret keep, c') /\ ct_wf c' /\
    ct_max_active c' = ct_max_active (mx_data m) /\ ct_trim_limit c' = ct_trim_limit (mx_data m) /\
    in_progress_xids (ct_transactions c') = in_progress_xids (ct_transactions (mx_data m)) /\
    (keep = false -> in_progress_xids (ct_transactions (mx_data m)) = []))
    as (keep & c' & Hf & Hw' & Hm' & Hl' & Hip & Hkeep).
  { unfold f. destruct (is_active _ _ _) eqn:E.
    - eexists true, _. split_and!; [reflexivity|by apply remove_old_wf|done|done| |done].
      apply drop_stale_in_progress.
    - eexists false, _. split_and!; [reflexivity|done..|]. intros _. by eapply is_active_false. }
  destruct (with_client_run f t ls ls r (mx_data m) keep c' m) as [Hrun Hinv']; try done.
  - by rewrite Hip, Hk.
  - apply (ti_locks _ _ Hinv).
  - eexists keep, _. split_and!; [exact Hrun|exact Hinv'|done|].
    intros Hfalse. rewrite (Hkeep Hfalse) in Hk. symmetry in Hk. by apply Permutation_nil_r in Hk.
Qed.

Lemma tracker_inv_delete t ls addr r :
  tracker_inv t ls -> tt_transactions t !! addr = Some r -> locked_xids ls r = [] ->
  tracker_inv (set_clients (delete addr (tt_transactions t)) t) ls.
Proof.
  intros [H1 H2 H3 H4 H5 H6 H7] Ha Hnone.
  constructor; cbn [tt_poisoned tt_max_active tt_trim_limit tt_heap tt_transactions set_clients]; try done.
  - intros r' m Hr. destruct (H4 r' m Hr). by constructor.
  - intros a r' [_ Hr]%lookup_delete_Some. eauto.
  - intros a1 a2 r' [_ Hr]%lookup_delete_Some [_ Hr']%lookup_delete_Some. eauto.
  - intros l Hl. destruct (H7 l Hl) as [a Hl']. exists a.
    apply lookup_delete_Some. split; [|done]. intros ->. simplify_eq.
    enough (tl_xid l ∈ locked_xids ls (tl_transactions l)) as Hin.
    { rewrite Hnone in Hin. by apply elem_of_nil in Hin. }
    apply (list_elem_of_fmap_2 tl_xid). by apply list_elem_of_filter.
Qed.

Lemma retain_clients_run now clients t ls :
  tracker_inv t ls -> NoDup clients.*1 ->
  (forall addr r, (addr, r) ∈ clients -> tt_transactions t !! addr = Some r) ->
  exists t', retain_clients now clients t = (Ret tt, t') /\ tracker_inv t' ls.
Proof.
  revert t. induction clients as [|[addr r] clients IH]; intros t Hinv Hnd Hin; [by exists t|].
  cbn [fmap list_fmap fst] in Hnd. inversion Hnd as [|? ? Hnot Hnd']; subst.
  assert (tt_transactions t !! addr = Some r) as Ha by (apply Hin; by left).
  pose proof (ti_clients _ _ Hinv _ _ Ha) as Hlt.
  destruct (lookup_lt_is_Some_2 _ _ Hlt) as [m Hm].
  destruct (with_client_retain_run t ls r now m Hinv Hm) as (keep & t1 & Hrun & Hinv1 & Hcl & Hkeep).
  cbn [retain_clients]. unfold pbind at 1. rewrite Hrun. unfold pbind.
  assert (forall addr' r', (addr', r') ∈ clients -> addr' <> addr) as Hne.
  { intros addr' r' Hin' ->. apply Hnot. by apply (list_elem_of_fmap_2 fst) in Hin'. }
  destruct keep; apply IH; try done.
  - intros addr' r' Hin'. rewrite Hcl. apply Hin. by right.
  - eapply tracker_inv_delete; [done| |by apply Hkeep]. by rewrite Hcl.
  - intros addr' r' Hin'. cbn [tt_transactions set_clients].
    rewrite lookup_delete_ne by (apply not_eq_sym; eauto). rewrite Hcl. apply Hin. by right.
Qed.

Lemma cleanup_run t ls now :
  tracker_inv t ls -> exists t', cleanup now t = (Ret tt, t') /\ tracker_inv t' ls.
Proof.
  intros Hinv. unfold cleanup, under_write. rewrite (ti_clean _ _ Hinv).
  destruct (retain_clients_run now (map_to_list (tt_transactions t)) t ls Hinv) as (t' & Hrun & Hinv').
  - apply NoDup_fst_map_to_list.
  - intros addr r. apply elem_of_map_to_list.
  - exists t'. by rewrite Hrun.
Qed.

Lemma step_inv w w' : world_inv w -> step w w' -> world_inv w'.
Proof.
  unfold world_inv. intros Hinv [? Hstep].
  destruct Hstep as [t ls ps addr xid now res t' H|t ls ps addr xid now t' H
    |t ls ps1 ps2 addr xid now res t' H|t ls1 ls2 ps l now t' H|t ls ps now t' H]; cbn in *.
  - destruct (start_transaction_known_run t ls addr xid now Hinv) as (res' & t'' & Hr & Hi & _).
    rewrite H in Hr. by simplify_eq.
  - destruct (start_transaction_known_run t ls addr xid now Hinv) as (res' & t'' & Hr & Hi & _).
    rewrite H in Hr. by simplify_eq.
  - destruct (start_transaction_new_run t ls addr xid now Hinv) as (res' & t'' & Hr & Hi).
    rewrite H in Hr. by simplify_eq.
  - destruct (lock_drop_run t l (ls1 ++ ls2) now) as (t'' & Hr & Hi).
    { eapply tracker_inv_perm; [|done]. by rewrite Permutation_middle. }
    rewrite H in Hr. by simplify_eq.
  - destruct (cleanup_run t ls now Hinv) as (t'' & Hr & Hi).
    rewrite H in Hr. by simplify_eq.
Qed.

Lemma tracker_new_inv retention max_active trim_limit :
  0 <= max_active <= u16_MAX -> max_active < trim_limit ->
  tracker_inv (tracker_new retention max_active trim_limit) [].
Proof.
  intros H1 H2. constructor; try done.
  intros l Hl. by apply elem_of_nil in Hl.
Qed.

Lemma reachable_inv retention max_active trim_limit w :
  0 <= max_active <= u16_MAX -> max_active < trim_limit ->
  reachable (tracker_new retention max_active trim_limit) w -> world_inv w.
Proof.
  intros H1 H2. induction 1; [by apply tracker_new_inv|]. eauto using step_inv.
Qed.

(** The queue a live lock belongs to is reached through the client map. *)
Lemma live_lock_queue t ls l :
  tracker_inv t ls -> l ∈ ls ->
  exists addr m, tt_transactions t !! addr = Some (tl_transactions l) /\
    tt_heap t !! tl_transactions l = Some m /\ mutex_ok t ls (tl_transactions l) m /\
    (tl_xid l ∈ in_progress_xids (ct_transactions (mx_data m))).
Proof.
  intros Hinv Hl. destruct (ti_locks _ _ Hinv l Hl) as [addr Ha].
  pose proof (ti_clients _ _ Hinv _ _ Ha) as Hlt.
  destruct (lookup_lt_is_Some_2 _ _ Hlt) as [m Hm].
  pose proof (ti_heap _ _ Hinv _ m Hm) as Hok. exists addr, m. split_and!; [done..|].
  rewrite (mok_locks _ _ _ _ Hok). apply (list_elem_of_fmap_2 tl_xid).
  by apply list_elem_of_filter.
Qed.

Lemma add_transaction_duplicate c xid now :
  ct_wf c -> xid ∈ xids (ct_transactions c) ->
  add_transaction xid now c = (Err AlreadyExists, set_last_active now c).
Proof.
  intros [Hs _ _ _ _] Hin. unfold add_transaction.
  pose proof (find_transaction_found (set_last_active now c) xid Hs) as Hf.
  destruct (find_transaction (set_last_active now c) xid) as [p|p]; [done|].
  cbn in Hf. enough (false = true) by done. by apply Hf.
Qed.

Lemma in_progress_in_xids l x : x ∈ in_progress_xids l -> x ∈ xids l.
Proof.
  intros (t & Ht & <- & _)%in_progress_xids_In. by apply (list_elem_of_fmap_2 tx_xid).
Qed.

Lemma mutex_ok_active_bound t ls r m :
  mutex_ok t ls r m -> len (locked_xids ls r) <= tt_max_active t.
Proof.
  intros [_ [_ Hn Hb _ _] Hm _ Hk]. rewrite <- Hm.
  replace (len (locked_xids ls r)) with (ct_active (mx_data m)); [done|].
  rewrite Hn. unfold len. by rewrite Hk.
Qed.

Lemma sorted_NoDup (l : list Z) : StronglySorted Z.lt l -> NoDup l.
Proof.
  induction 1 as [|x l Hs IH Hf]; constructor; [|done].
  intros Hin. rewrite Forall_forall in Hf. apply Hf in Hin. lia.
Qed.

Lemma in_progress_NoDup l : sorted_xids l -> NoDup (in_progress_xids l).
Proof.
  intros Hs%sorted_NoDup. unfold in_progress_xids, xids in *.
  induction l as [|t l IH]; [constructor|]. cbn in Hs. inversion Hs as [|? ? Hn Hs']; subst.
  rewrite filter_cons. case_decide; [|by apply IH]. cbn. constructor; [|by apply IH].
  intros (t' & Heq & Hin)%list_elem_of_fmap. apply Hn. rewrite Heq.
  apply (list_elem_of_fmap_2 tx_xid). by apply list_elem_of_filter in Hin as [_ ?].
Qed.

Lemma drop_stale_keeps now age l t :
  t ∈ l -> is_stale t now age = false -> t ∈ drop_stale now age l.
Proof.
  intros Ht Hst. destruct (drop_stale_spec now age l) as (d & Hd & Hf).
  rewrite Hd in Ht. apply elem_of_app in Ht as [Ht|Ht]; [|done].
  rewrite Forall_forall in Hf. apply Hf in Ht. congruence.
Qed.

(** A client that is known and an xid its queue holds. *)
Lemma start_transaction_duplicate t ls addr r m xid now :
  tracker_inv t ls -> tt_transactions t !! addr = Some r -> tt_heap t !! r = Some m ->
  xid ∈ xids (ct_transactions (mx_data m)) ->
  start_transaction addr xid now t =
  (Ret (Err AlreadyExists),
   set_heap (<[r := mkMutex (set_last_active now (mx_data m)) false]> (tt_heap t)) t).
Proof.
  intros Hinv Ha Hm Hin. pose proof (mok_wf _ _ _ _ (ti_heap _ _ Hinv r m Hm)) as Hwf.
  destruct (add_and_lock_run t ls addr r xid now Hinv Ha) as (m' & Hm' & Hrun & _). simplify_eq.
  rewrite (add_transaction_duplicate _ xid now Hwf Hin) in Hrun. cbn [fst snd result_map] in Hrun.
  unfold start_transaction, start_transaction_known, pbind. rewrite (ti_clean _ _ Hinv), Ha, Hrun.
  done.
Qed.

(** A successful start: the lock is on the client's queue. *)
Lemma start_transaction_Ok t ls addr xid now l t' :
  tracker_inv t ls -> start_transaction addr xid now t = (Ret (Ok l), t') ->
  tracker_inv t' (l :: ls) /\ tt_transactions t' !! addr = Some (tl_transactions l) /\
  tl_xid l = xid /\ tl_retention_period l = tt_retention_period t.
Proof.
  intros Hinv. unfold start_transaction, start_transaction_known. unfold pbind at 1.
  rewrite (ti_clean _ _ Hinv). destruct (tt_transactions t !! addr) as [r|] eqn:Ha.
  - destruct (add_and_lock_run t ls addr r xid now Hinv Ha) as (m & Hm & Hrun & Hinv').
    unfold pbind. rewrite Hrun. unfold pret. intros ?. simplify_eq.
    destruct (fst (add_transaction xid now (mx_data m))); cbn in *; simplify_eq. done.
  - unfold start_transaction_new, under_write. rewrite (ti_clean _ _ Hinv).
    destruct (entry_or_insert_run t ls addr now Hinv) as (r & t1 & He & Hinv1 & Ha1).
    destruct (add_and_lock_run t1 ls addr r xid now Hinv1 Ha1) as (m & Hm & Hrun & Hinv').
    unfold pbind. rewrite He, Hrun. intros ?. simplify_eq.
    assert (tt_retention_period t1 = tt_retention_period t) as Hr.
    { unfold entry_or_insert in He. rewrite Ha in He. by repeat case_match; simplify_eq. }
    destruct (fst (add_transaction xid now (mx_data m))); cbn in *; simplify_eq. done.
Qed.

(** Right after the drop of a lock its xid is still known. *)
Lemma drop_then_start t ls l addr now t' now' :
  tracker_inv t (l :: ls) -> tt_transactions t !! addr = Some (tl_transactions l) ->
  0 <= tl_retention_period l -> lock_drop l now t = (Ret tt, t') ->
  tracker_inv t' ls /\
  exists t'', start_transaction addr (tl_xid l) now' t' = (Ret (Err AlreadyExists), t'').
Proof.
  intros Hinv Ha Hret Hdrop.
  destruct (live_lock_queue _ _ l Hinv) as (_ & m & _ & Hm & Hok & Hin); [by left|].
  destruct (complete_transaction_run _ _ now (mok_wf _ _ _ _ Hok) Hin) as
    (c' & Hcomp & _ & _ & _ & _ & Hcm & _).
  destruct (lock_drop_run t l ls now Hinv) as (t2 & Hrun & Hinv').
  rewrite Hdrop in Hrun. injection Hrun as <-. split; [done|].
  unfold lock_drop, with_client in Hdrop. rewrite Hm, (mok_clean _ _ _ _ Hok), Hcomp in Hdrop.
  injection Hdrop as <-. eexists. eapply start_transaction_duplicate; [exact Hinv'|exact Ha| |].
  { cbn [tt_heap set_heap]. apply list_lookup_insert_eq. by eapply lookup_lt_Some. }
  cbn [mx_data ct_transactions remove_old_transactions set_transactions].
  apply (list_elem_of_fmap_2 tx_xid _ (mkTransaction (tl_xid l) (Completed now))).
  apply drop_stale_keeps; [done|]. unfold is_stale, instant_sub. cbn. lia.
Qed.

(** ** Theorems *)

(** C11: No interleaving of the tracker's operations reaches a panic. In every
    state reachable from a tracker whose transaction limit is below its trim
    limit, a call to [start_transaction] (whole, or resumed between the read
    lock and the write lock), the drop of any live lock and the cleaner all
    return: no lock is ever poisoned, no transaction is completed twice and the
    [u16] counter of active transactions neither underflows nor overflows. *)
Theorem tracker_no_panic retention max_active trim_limit w :
  0 <= max_active <= u16_MAX -> max_active < trim_limit ->
  reachable (tracker_new retention max_active trim_limit) w ->
  (forall addr xid now, exists res t',
     start_transaction addr xid now (w_tracker w) = (Ret res, t')) /\
  (forall addr xid now, exists res t',
     start_transaction_new addr xid now (w_tracker w) = (Ret res, t')) /\
  (forall l now, l ∈ w_locks w -> exists t', lock_drop l now (w_tracker w) = (Ret tt, t')) /\
  (forall now, exists t', cleanup now (w_tracker w) = (Ret tt, t')).
Proof.
  intros H1 H2 H3. pose proof (reachable_inv _ _ _ _ H1 H2 H3) as Hinv. split_and!.
  - intros addr xid now. unfold start_transaction, pbind.
    destruct (start_transaction_known_run _ _ addr xid now Hinv) as (res & t' & -> & Hi & _).
    destruct res as [res|]; [unfold pret; eauto|].
    destruct (start_transaction_new_run _ _ addr xid now Hi) as (res & t'' & -> & _). eauto.
  - intros addr xid now.
    destruct (start_transaction_new_run _ _ addr xid now Hinv) as (res & t'' & -> & _). eauto.
  - intros l now Hl. apply list_elem_of_split in Hl as (ls1 & ls2 & Hls).
    destruct (lock_drop_run (w_tracker w) l (ls1 ++ ls2) now) as (t' & -> & _); [|eauto].
    eapply tracker_inv_perm; [|exact Hinv]. rewrite Hls. by rewrite Permutation_middle.
  - intros now. destruct (cleanup_run _ _ now Hinv) as (t' & -> & _). eauto.
Qed.

(** C10: A retransmission of a call that is still being served is always
    recognised. As long as the lock of a transaction is alive, its client is in
    the map (the cleaner has not forgotten it and no other queue has taken its
    place), and starting the same xid again for that client is refused with
    [AlreadyExists], changing nothing but the time of the last activity. *)
Theorem live_transaction_is_retransmission retention max_active trim_limit w l :
  0 <= max_active <= u16_MAX -> max_active < trim_limit ->
  reachable (tracker_new retention max_active trim_limit) w -> l ∈ w_locks w ->
  exists addr m,
    tt_transactions (w_tracker w) !! addr = Some (tl_transactions l) /\
    tt_heap (w_tracker w) !! tl_transactions l = Some m /\
    forall now, start_transaction addr (tl_xid l) now (w_tracker w) =
      (Ret (Err AlreadyExists),
       set_heap (<[tl_transactions l := mkMutex (set_last_active now (mx_data m)) false]>
                   (tt_heap (w_tracker w))) (w_tracker w)).
Proof.
  intros H1 H2 H3 Hl. pose proof (reachable_inv _ _ _ _ H1 H2 H3) as Hinv.
  destruct (live_lock_queue _ _ _ Hinv Hl) as (addr & m & Ha & Hm & Hok & Hin).
  exists addr, m. split_and!; [done..|]. intros now.
  eapply start_transaction_duplicate; [exact Hinv|done..|]. by apply in_progress_in_xids.
Qed.

(** A call that has just been answered is still remembered: after the drop
    of its lock, starting the same xid for the same client is refused with
    [AlreadyExists]. *)
Theorem completed_transaction_is_remembered retention max_active trim_limit w l now t' now' :
  0 <= max_active <= u16_MAX -> max_active < trim_limit ->
  reachable (tracker_new retention max_active trim_limit) w -> l ∈ w_locks w ->
  0 <= tl_retention_period l ->
  lock_drop l now (w_tracker w) = (Ret tt, t') ->
  exists addr t'', tt_transactions (w_tracker w) !! addr = Some (tl_transactions l) /\
    start_transaction addr (tl_xid l) now' t' = (Ret (Err AlreadyExists), t'').
Proof.
  intros H1 H2 H3 Hl Hret Hdrop. pose proof (reachable_inv _ _ _ _ H1 H2 H3) as Hinv.
  destruct (ti_locks _ _ Hinv l Hl) as [addr Ha].
  apply list_elem_of_split in Hl as (ls1 & ls2 & Hls).
  destruct (drop_then_start (w_tracker w) (ls1 ++ ls2) l addr now t' now') as (_ & t'' & Hs);
    [|done..|by eauto].
  eapply tracker_inv_perm; [|exact Hinv]. rewrite Hls. by rewrite Permutation_middle.
Qed.

(** What [add_transaction] does to a client's queue. A known xid is
    refused, and so is a new one when [max_active_transactions] are in
    progress; otherwise the xid enters the sorted queue as in progress, and
    trimming then drops only completed transactions, from the front, and only
    while the queue is longer than the trim limit. *)
Theorem add_transaction_correct c xid now :
  ct_wf c ->
  let '(res, c') := add_transaction xid now c in
  ct_wf c' /\ ct_last_active c' = now /\
  match res with
  | Err AlreadyExists =>
      xid ∈ xids (ct_transactions c) /\ ct_transactions c' = ct_transactions c
  | Err TooManyRequests =>
      (xid ∉ xids (ct_transactions c)) /\ ct_active c = ct_max_active c /\
      ct_transactions c' = ct_transactions c
  | Ok _ =>
      (xid ∉ xids (ct_transactions c)) /\ ct_active c < ct_max_active c /\
      exists dropped, dropped ++ ct_transactions c' ≡ₚ in_progress xid :: ct_transactions c /\
        sorted_xids (dropped ++ ct_transactions c') /\
        Forall (fun t => tx_state t <> InProgress) dropped /\
        (dropped = [] \/ ct_trim_limit c <= len (ct_transactions c')) /\
        (len (ct_transactions c') <= ct_trim_limit c \/
         exists t rest, ct_transactions c' = t :: rest /\ tx_state t = InProgress)
  end.
Proof.
  intros Hwf. pose proof (add_transaction_wf c xid now Hwf) as Hwf'.
  pose proof (add_transaction_cases c xid now Hwf) as (Hla & _ & _ & H).
  destruct (add_transaction xid now c) as [res c']. cbn in *.
  split_and!; [done..|]. destruct res as [u|[|]].
  - destruct H as (Hn & Hlt & _ & l & Hp & Hs & Ht). split_and!; [done..|].
    destruct Hwf as [_ _ ? ? ?].
    destruct (trim_loop_spec (ct_trim_limit c) l) as (d & Hd & Hf & H3 & H4); [lia|].
    exists d. rewrite Ht, <- Hd. done.
  - by destruct H as (? & ? & _).
  - by destruct H as (? & ? & ? & _).
Qed.

(** [find_transaction] (the shortcut on the last transaction and the binary
    search) finds the position of an xid in the sorted queue, or the position
    where inserting it keeps the queue sorted. *)
Theorem find_transaction_correct c xid t :
  sorted_xids (ct_transactions c) -> tx_xid t = xid ->
  match find_transaction c xid with
  | Ok p => exists t', ct_transactions c !! p = Some t' /\ tx_xid t' = xid
  | Err p => (xid ∉ xids (ct_transactions c)) /\ (p <= length (ct_transactions c))%nat /\
             sorted_xids (insert_at p t (ct_transactions c))
  end.
Proof.
  intros Hs Ht. pose proof (find_transaction_spec c xid Hs) as H.
  pose proof (find_transaction_found c xid Hs) as Hf.
  destruct (find_transaction c xid) as [p|p] eqn:E; [done|].
  split_and!; [|by destruct H|by eapply insert_at_sorted].
  intros Hin. apply Hf in Hin. done.
Qed.

(** A tracker configured with a transaction limit that is not below its
    trim limit answers nothing: the first call panics while it holds the write
    lock, which poisons it, and every later call and every clean-up panics. *)
Theorem tracker_misconfigured retention max_active trim_limit addr xid now :
  trim_limit <= max_active ->
  let '(res, t) := start_transaction addr xid now (tracker_new retention max_active trim_limit) in
  res = Panic /\
  (forall addr' xid' now', start_transaction addr' xid' now' t = (Panic, t)) /\
  (forall now', cleanup now' t = (Panic, t)).
Proof.
  intros H.
  assert (start_transaction_known addr xid now (tracker_new retention max_active trim_limit) =
    (Ret None, tracker_new retention max_active trim_limit)) as E1 by done.
  assert (start_transaction_new addr xid now (tracker_new retention max_active trim_limit) =
    (Panic, poison (tracker_new retention max_active trim_limit))) as E2.
  { unfold start_transaction_new, under_write, pbind, entry_or_insert, client_transactions_new.
    cbn [tt_poisoned tracker_new tt_max_active tt_trim_limit tt_transactions].
    by rewrite lookup_empty, (proj2 (Z.ltb_ge _ _)). }
  unfold start_transaction at 1. unfold pbind at 1. rewrite E1, E2. done.
Qed.

(** ** Witnesses *)

(** A tracker that serves the transaction 7 of one client. *)
Definition demo_tracker : TransactionTracker :=
  snd (start_transaction_new "10.0.0.1" 7 100 (tracker_new 60 2 4)).
Definition demo_lock : TransactionLock := mkLock 0%nat 7 60.
Definition demo_world : world := mkWorld demo_tracker [demo_lock] [].

Lemma demo_reachable : reachable (tracker_new 60 2 4) demo_world.
Proof.
  eapply reachable_step; [eapply reachable_step; [apply reachable_init|]|].
  - exists 100. apply (step_start_unknown _ [] [] "10.0.0.1" 7 100). reflexivity.
  - exists 100. apply (step_start_new (tracker_new 60 2 4) [] [] [] "10.0.0.1" 7 100 (Ok demo_lock)).
    reflexivity.
Qed.

Definition demo_queue : ClientTransactions :=
  mkClientTransactions [mkTransaction 3 (Completed 5); in_progress 9] 8 1 2 4.

Lemma demo_queue_wf : ct_wf demo_queue.
Proof.
  constructor; cbn; try (unfold u16_MAX; lia).
  - unfold sorted_xids. cbn. repeat constructor.
  - reflexivity.
Qed.

Lemma tracker_no_panic_witness : exists t', lock_drop demo_lock 101 demo_tracker = (Ret tt, t').
Proof.
  pose proof (tracker_no_panic 60 2 4 demo_world ltac:(unfold u16_MAX; lia) ltac:(lia)
    demo_reachable) as (_ & _ & H & _).
  apply (H demo_lock 101). by left.
Defined.

Lemma live_transaction_is_retransmission_witness : exists addr t',
  start_transaction addr 7 101 demo_tracker = (Ret (Err AlreadyExists), t').
Proof.
  destruct (live_transaction_is_retransmission 60 2 4 demo_world demo_lock
    ltac:(unfold u16_MAX; lia) ltac:(lia) demo_reachable ltac:(by left)) as (addr & m & _ & _ & H).
  exists addr. eexists. apply (H 101).
Defined.

Lemma completed_transaction_is_remembered_witness : exists addr t' t'',
  lock_drop demo_lock 101 demo_tracker = (Ret tt, t') /\
  start_transaction addr 7 102 t' = (Ret (Err AlreadyExists), t'').
Proof.
  destruct (completed_transaction_is_remembered 60 2 4 demo_world demo_lock 101
    (snd (lock_drop demo_lock 101 demo_tracker)) 102
    ltac:(unfold u16_MAX; lia) ltac:(lia) demo_reachable ltac:(by left)
    ltac:(cbn; lia) ltac:(reflexivity)) as (addr & t'' & _ & H).
  exists addr, (snd (lock_drop demo_lock 101 demo_tracker)), t''. split; [reflexivity|exact H].
Defined.

Lemma add_transaction_correct_witness :
  ct_wf demo_queue /\ ct_wf (snd (add_transaction 5 10 demo_queue)).
Proof.
  split; [apply demo_queue_wf|].
  exact (proj1 (add_transaction_correct demo_queue 5 10 demo_queue_wf)).
Defined.

Lemma find_transaction_correct_witness :
  find_transaction demo_queue 5 = Err 1%nat /\
  sorted_xids (insert_at 1 (in_progress 5) (ct_transactions demo_queue)).
Proof.
  split; [reflexivity|].
  exact (proj2 (proj2 (find_transaction_correct demo_queue 5 (in_progress 5)
    (ctw_sorted _ demo_queue_wf) eq_refl))).
Defined.

Lemma tracker_misconfigured_witness :
  fst (start_transaction "10.0.0.1" 7 100 (tracker_new 60 4 4)) = Panic.
Proof. exact (proj1 (tracker_misconfigured 60 4 4 "10.0.0.1" 7 100 ltac:(lia))). Defined.
