(* ===== verification/TransactionMemory.v ===== *)
(** * What the tracker remembers of a client

    [seen] is the xids in the queue of a client.  A call with an xid that is not
    among them is taken when nothing of the client is running, and a call that is
    taken adds its own xid and no other.  Along any run of the other connections and
    the cleaner ([following]) a live lock keeps its owner, and an xid that has been
    answered stays for the retention time; a client never has more transactions in
    progress than the maximum, whatever happens to its queue. *)

From S2P Require Import Prelude Transactions TransactionLaws.
Open Scope Z_scope.
Open Scope nfs_scope.

(** The tracker takes the call of [addr] numbered [xid]. *)
Definition accepts (addr : string) (xid : Z) (now : Instant) (t : TransactionTracker) : Prop :=
  exists lock t', start_transaction addr xid now t = (Ret (Ok lock), t').

Definition seen (addr : string) (t : TransactionTracker) : list Z :=
  match tt_transactions t !! addr with
  | Some r => match tt_heap t !! r with Some m => xids (ct_transactions (mx_data m)) | None => [] end
  | None => []
  end.

Lemma seen_known addr t r m :
  tt_transactions t !! addr = Some r -> tt_heap t !! r = Some m -> seen addr t = xids (ct_transactions (mx_data m)).
Proof. unfold seen. by intros -> ->. Qed.

(** [start_transaction] takes the queue of the client, a new one when it has none. *)
Lemma start_transaction_queue t ls addr xid now :
  tracker_inv t ls ->
  exists t1 r, tracker_inv t1 ls /\ tt_transactions t1 !! addr = Some r /\ seen addr t1 = seen addr t /\
    tt_max_active t1 = tt_max_active t /\ start_transaction addr xid now t = add_and_lock r xid now t1.
Proof.
  intros Hinv. unfold start_transaction, start_transaction_known, start_transaction_new, under_write. unfold pbind at 1.
  rewrite (ti_clean _ _ Hinv). destruct (tt_transactions t !! addr) as [r|] eqn:Ha.
  - exists t, r. split_and!; try done. destruct (add_and_lock_run t ls addr r xid now Hinv Ha) as (m & Hm & Hrun & _).
    unfold pbind. by rewrite Hrun.
  - rewrite (ti_clean _ _ Hinv). destruct (entry_or_insert_run t ls addr now Hinv) as (r & t1 & He & Hinv1 & Ha1).
    exists t1, r.
    destruct (add_and_lock_run t1 ls addr r xid now Hinv1 Ha1) as (m & Hm & Hrun & _).
    assert (seen addr t1 = seen addr t /\ tt_max_active t1 = tt_max_active t) as [Hseen Hmax].
    { unfold entry_or_insert in He. rewrite Ha in He. destruct (client_transactions_new _ _ _) as [c| |] eqn:Ec; try done.
      injection He as <- <-. split; [|done]. unfold seen. rewrite Ha. cbn [tt_transactions tt_heap set_clients set_heap].
      rewrite lookup_insert_eq, list_lookup_middle by done.
      unfold client_transactions_new in Ec. destruct (_ <? _); [|done]. by injection Ec as <-. }
    unfold pbind. rewrite He, Hrun. by split_and!.
Qed.

(** A new call of a client none of whose calls are running is taken. *)
Lemma accepts_new t addr xid now :
  tracker_inv t [] -> 0 < tt_max_active t -> xid ∉ seen addr t -> accepts addr xid now t.
Proof.
  intros Hinv Hmax Hnew. destruct (start_transaction_queue t [] addr xid now Hinv) as (t1 & r & Hinv1 & Ha & Hs & Hm1 & Hst).
  destruct (add_and_lock_run t1 [] addr r xid now Hinv1 Ha) as (m & Hm & Hrun & _). cbv zeta in Hrun.
  rewrite <- Hs, (seen_known _ _ _ _ Ha Hm) in Hnew.
  destruct (ti_heap _ _ Hinv1 _ _ Hm) as [_ Hw Hmx _ Hk].
  pose proof (add_transaction_cases _ xid now Hw) as (_ & _ & _ & Hc).
  unfold accepts. rewrite Hst, Hrun. destruct (fst (add_transaction _ _ _)) as [u|[|]]; cbn [result_map].
  - by do 2 eexists.
  - by destruct Hc as [Hin _].
  - destruct Hc as (_ & Heq & _). exfalso. rewrite (ctw_count _ Hw), Hmx, Hm1 in Heq.
    apply Permutation_nil_r in Hk. rewrite Hk, len_nil in Heq. lia.
Qed.

Lemma trim_loop_xids n l x : x ∈ xids (trim_loop n l) -> x ∈ xids l.
Proof.
  induction l as [|t l IH]; [done|]. cbn [trim_loop]. destruct (n <? len (t :: l)); [|done].
  destruct (tx_state t); [done|]. intros Hx. right. by apply IH.
Qed.

Lemma drop_stale_xids now age l x : x ∈ xids (drop_stale now age l) -> x ∈ xids l.
Proof.
  induction l as [|t l IH]; [done|]. cbn [drop_stale]. destruct (is_stale t now age); [|done].
  intros Hx. right. by apply IH.
Qed.

(** A call that is taken is remembered, and nothing else is new. *)
Lemma start_transaction_seen t ls addr xid now l t' :
  tracker_inv t ls -> start_transaction addr xid now t = (Ret (Ok l), t') ->
  seen addr t' ⊆ xid :: seen addr t /\ tt_max_active t' = tt_max_active t.
Proof.
  intros Hinv Hrun. destruct (start_transaction_queue t ls addr xid now Hinv) as (t1 & r & Hinv1 & Ha & Hs & Hm1 & Hst).
  destruct (add_and_lock_run t1 ls addr r xid now Hinv1 Ha) as (m & Hm & Hadd & _). cbv zeta in Hadd.
  rewrite Hst, Hadd in Hrun. injection Hrun as Hres <-. split; [|done].
  rewrite <- Hs, (seen_known _ _ _ _ Ha Hm). destruct (ti_heap _ _ Hinv1 _ _ Hm) as [_ Hw _ _ _].
  pose proof (add_transaction_cases _ xid now Hw) as (_ & _ & _ & Hc).
  destruct (fst (add_transaction _ _ _)) as [u|e] eqn:Ef; [|done].
  destruct Hc as (_ & _ & _ & q & Hp & _ & Hq). unfold seen. cbn [tt_transactions tt_heap set_heap].
  rewrite Ha, list_lookup_insert_eq by (by eapply lookup_lt_Some). cbn [mx_data]. rewrite Hq.
  intros x Hx%trim_loop_xids. unfold xids in *. rewrite Hp in Hx. exact Hx.
Qed.

Lemma lock_drop_seen t l ls now t' addr :
  tracker_inv t (l :: ls) -> lock_drop l now t = (Ret tt, t') ->
  seen addr t' ⊆ seen addr t /\ tt_max_active t' = tt_max_active t.
Proof.
  intros Hinv Hrun. destruct (live_lock_queue _ _ l Hinv) as (_ & m & _ & Hm & Hok & Hin); [by left|].
  destruct (complete_transaction_run _ _ now (mok_wf _ _ _ _ Hok) Hin) as (c' & Hcomp & _ & _ & _ & Hx & _ & _).
  unfold lock_drop, with_client in Hrun. rewrite Hm, (mok_clean _ _ _ _ Hok), Hcomp in Hrun. injection Hrun as <-.
  split; [|done]. unfold seen. cbn [tt_transactions tt_heap set_heap].
  destruct (tt_transactions t !! addr) as [r|]; [|done].
  destruct (decide (r = tl_transactions l)) as [->|Hne]; [|by rewrite list_lookup_insert_ne].
  rewrite list_lookup_insert_eq, Hm by (by eapply lookup_lt_Some). cbn [mx_data remove_old_transactions].
  cbn [set_transactions ct_transactions]. rewrite <- Hx. intros x. apply drop_stale_xids.
Qed.

(** From [t] to [t']: the xid of a call, and nothing else, may be new. *)
Definition remembers (addr : string) (xid : Z) (t t' : TransactionTracker) : Prop :=
  seen addr t' ⊆ xid :: seen addr t /\ tt_max_active t' = tt_max_active t.

(** From [t] to [t']: a transaction is started, and its lock is dropped; nothing else. *)
Definition one_transaction (addr : string) (xid : Z) (now now_drop : Instant) (t t' : TransactionTracker) : Prop :=
  exists lock t1, start_transaction addr xid now t = (Ret (Ok lock), t1) /\ lock_drop lock now_drop t1 = (Ret tt, t').

Lemma one_transaction_remembers addr xid now now_drop t t' ls :
  tracker_inv t ls -> one_transaction addr xid now now_drop t t' -> tracker_inv t' ls /\ remembers addr xid t t'.
Proof.
  intros Hinv (lock & t1 & Hstart & Hdrop).
  destruct (start_transaction_Ok _ _ _ _ _ _ _ Hinv Hstart) as (Hinv1 & _).
  destruct (lock_drop_run _ _ _ now_drop Hinv1) as (t2 & Hd & Hinv2). rewrite Hdrop in Hd. injection Hd as <-.
  destruct (start_transaction_seen _ _ _ _ _ _ _ Hinv Hstart) as [Hs1 Hm1].
  destruct (lock_drop_seen _ _ _ _ _ addr Hinv1 Hdrop) as [Hs2 Hm2].
  split; [done|]. split; [by etrans|congruence].
Qed.

(** ** What every operation keeps *)

(** From [t] to [t']: the settings are the same, and a queue that was there is
    reached from no address that it was not reached from. *)
Record follows (t t' : TransactionTracker) : Prop := {
  fw_retention : tt_retention_period t' = tt_retention_period t;
  fw_max : tt_max_active t' = tt_max_active t;
  fw_limit : tt_trim_limit t' = tt_trim_limit t;
  fw_heap : (length (tt_heap t) <= length (tt_heap t'))%nat;
  fw_clients : forall addr r, tt_transactions t' !! addr = Some r -> (r < length (tt_heap t))%nat ->
    tt_transactions t !! addr = Some r;
}.

#[export] Instance follows_preorder : PreOrder follows.
Proof.
  split; [by constructor|]. intros t1 t2 t3 [] []. constructor; try congruence; [lia|].
  intros addr r Hr Hlt. eauto with lia.
Qed.

Definition following {A} (m : prog TransactionTracker A) : Prop := forall t, follows t (snd (m t)).

Lemma following_bind {A B} (m : prog TransactionTracker A) (k : A -> prog TransactionTracker B) :
  following m -> (forall a, following (k a)) -> following (pbind m k).
Proof.
  intros Hm Hk t. unfold pbind. pose proof (Hm t) as H1. destruct (m t) as [[a| |] t1]; cbn in *; [|done..].
  etrans; [exact H1|apply Hk].
Qed.

Lemma following_with_client {A} r (f : ClientTransactions -> outcome A * ClientTransactions) :
  following (with_client r f).
Proof.
  intros t. unfold with_client. repeat case_match; try done; constructor; cbn; rewrite ?length_insert; done.
Qed.

Lemma following_add_and_lock r xid now : following (add_and_lock r xid now).
Proof. apply following_bind; [apply following_with_client|by intros ? t]. Qed.

Lemma following_under_write {A} (m : prog TransactionTracker A) : following m -> following (under_write m).
Proof.
  intros Hm t. unfold under_write. destruct (tt_poisoned t); [done|]. pose proof (Hm t) as [].
  destruct (m t) as [[a| |] t1]; by constructor.
Qed.

Lemma following_start_known addr xid now : following (start_transaction_known addr xid now).
Proof.
  intros t. unfold start_transaction_known. repeat case_match; try done.
  apply (following_bind (add_and_lock _ _ _)); [apply following_add_and_lock|by intros ? ?].
Qed.

Lemma following_start_new addr xid now : following (start_transaction_new addr xid now).
Proof.
  apply following_under_write, following_bind; [|intros; apply following_add_and_lock].
  intros t. unfold entry_or_insert. repeat case_match; try done. constructor; cbn; try done.
  - rewrite length_app. cbn. lia.
  - intros addr' r. rewrite lookup_insert. case_decide; [|done]. intros [= <-]. lia.
Qed.

Lemma following_cleanup now : following (cleanup now).
Proof.
  apply following_under_write. intros t. generalize (map_to_list (tt_transactions t)) as l.
  intros l. revert t. induction l as [|[addr r] l IH]; [done|]. apply following_bind; [intros t; apply following_with_client|].
  intros keep. apply following_bind; [|done]. intros t. destruct keep; [done|]. constructor; try done.
  cbn. intros a q [_ Hq]%lookup_delete_Some _. done.
Qed.

Lemma timed_step_follows now w w' : timed_step now w w' -> follows (w_tracker w) (w_tracker w').
Proof.
  destruct 1 as [t ls ps addr xid now res t' E|t ls ps addr xid now t' E|t ls ps1 ps2 addr xid now res t' E
    |t ls1 ls2 ps l now t' E|t ls ps now t' E]; cbn.
  - pose proof (following_start_known addr xid now t) as F. by rewrite E in F.
  - pose proof (following_start_known addr xid now t) as F. by rewrite E in F.
  - pose proof (following_start_new addr xid now t) as F. by rewrite E in F.
  - pose proof (following_with_client _ _ t : follows t (snd (lock_drop l now t))) as F. by rewrite E in F.
  - pose proof (following_cleanup now t) as F. by rewrite E in F.
Qed.

(** ** Locks, and the clients they were given to *)

(** A lock on its queue, for the address the queue is reached from. *)
Definition owner (t : TransactionTracker) (l : TransactionLock) (addr : string) : Prop :=
  tt_transactions t !! addr = Some (tl_transactions l).

(** The xids of the calls of [addr] that are being served. *)
Definition live_xids (w : world) (addr : string) : list Z :=
  match tt_transactions (w_tracker w) !! addr with Some r => locked_xids (w_locks w) r | None => [] end.

Lemma add_and_lock_Ok r xid now t l t' :
  add_and_lock r xid now t = (Ret (Ok l), t') -> l = mkLock r xid (tt_retention_period t).
Proof.
  unfold add_and_lock, pbind. pose proof (following_with_client r
    (fun c => let '(res, c0) := add_transaction xid now c in (Ret res, c0)) t) as F.
  destruct (with_client _ _ t) as [[[u|e]| |] t1]; try done. cbn in *. intros [= <- _].
  by rewrite (fw_retention _ _ F).
Qed.

Lemma start_known_Ok t addr xid now l t' :
  start_transaction_known addr xid now t = (Ret (Some (Ok l)), t') ->
  owner t' l addr /\ tl_xid l = xid /\ tl_retention_period l = tt_retention_period t.
Proof.
  unfold start_transaction_known, owner. destruct (tt_poisoned t); [done|].
  destruct (tt_transactions t !! addr) as [r|] eqn:Ha; [|done]. unfold pbind.
  destruct (add_and_lock r xid now t) as [[res| |] t1] eqn:E; try done. intros [= -> ->].
  pose proof (add_and_lock_Ok _ _ _ _ _ _ E) as ->. cbn. split_and!; [|done..].
  unfold add_and_lock, pbind, with_client in E. repeat (case_match; simplify_eq/=); done.
Qed.

Lemma start_new_Ok t addr xid now l t' :
  start_transaction_new addr xid now t = (Ret (Ok l), t') ->
  owner t' l addr /\ tl_xid l = xid /\ tl_retention_period l = tt_retention_period t.
Proof.
  unfold start_transaction_new, under_write, owner, pbind. destruct (tt_poisoned t); [done|].
  destruct (entry_or_insert addr now t) as [[r| |] t1] eqn:E1; try done.
  assert (tt_transactions t1 !! addr = Some r /\ tt_retention_period t1 = tt_retention_period t) as [Ha Hr].
  { unfold entry_or_insert in E1. repeat (case_match; simplify_eq/=); try done.
    split; [|done]. by rewrite lookup_insert_eq. }
  destruct (add_and_lock r xid now t1) as [[res| |] t2] eqn:E; try done. intros [= -> ->].
  pose proof (add_and_lock_Ok _ _ _ _ _ _ E) as ->. cbn. split_and!; [|done..].
  unfold add_and_lock, pbind, with_client in E. repeat (case_match; simplify_eq/=); done.
Qed.

(** What every reachable state of a tracker satisfies. *)
Record settled (retention max_active trim_limit : Z) (w : world) : Prop := {
  st_inv : world_inv w;
  st_retention : tt_retention_period (w_tracker w) = retention;
  st_max : tt_max_active (w_tracker w) = max_active;
  st_limit : tt_trim_limit (w_tracker w) = trim_limit;
  st_locks : forall l, l ∈ w_locks w -> tl_retention_period l = retention;
}.

Lemma settled_step retention max_active trim_limit now w w' :
  settled retention max_active trim_limit w -> timed_step now w w' -> settled retention max_active trim_limit w'.
Proof.
  intros [Hinv Hr Hm Hl Hk] Hstep. pose proof (timed_step_follows _ _ _ Hstep) as [F1 F2 F3 _ _].
  constructor; try congruence; [eapply step_inv; [done|by exists now]|].
  assert (forall l, l ∈ w_locks w' -> l ∈ w_locks w \/ tl_retention_period l = tt_retention_period (w_tracker w)) as H.
  { destruct Hstep as [t ls ps addr xid now res t' E|t ls ps addr xid now t' E|t ls ps1 ps2 addr xid now res t' E
      |t ls1 ls2 ps l now t' E|t ls ps now t' E]; cbn; intros l0 Hin; try (by left).
    - destruct res as [l|]; [|by left]. cbn in Hin. apply elem_of_cons in Hin as [->|Hin]; [right|by left].
      by apply (start_known_Ok _ _ _ _ _ _ E).
    - destruct res as [l|]; [|by left]. cbn in Hin. apply elem_of_cons in Hin as [->|Hin]; [right|by left].
      by apply (start_new_Ok _ _ _ _ _ _ E).
    - left. rewrite elem_of_app in *. rewrite elem_of_cons. tauto. }
  intros l Hin. destruct (H l Hin) as [Hold|Hnew]; [by apply Hk|congruence].
Qed.

Lemma reachable_settled retention max_active trim_limit w :
  0 <= max_active <= u16_MAX -> max_active < trim_limit ->
  reachable (tracker_new retention max_active trim_limit) w -> settled retention max_active trim_limit w.
Proof.
  intros H1 H2. induction 1 as [|w w' _ IH [now Hs]]; [|by eapply settled_step].
  constructor; try done; [by apply tracker_new_inv|]. intros l Hl. by apply elem_of_nil in Hl.
Qed.

(** A live lock has one owner, and a step does not give it another. *)
Lemma owner_unique t ls l a1 a2 : tracker_inv t ls -> owner t l a1 -> owner t l a2 -> a1 = a2.
Proof. intros Hinv. apply (ti_inj _ _ Hinv). Qed.

Lemma owner_step now w w' l addr :
  world_inv w -> timed_step now w w' -> l ∈ w_locks w' -> owner (w_tracker w) l addr -> owner (w_tracker w') l addr.
Proof.
  intros Hinv Hstep Hl Ho. assert (world_inv w') as Hinv' by (eapply step_inv; [done|by exists now]).
  destruct (ti_locks _ _ Hinv' l Hl) as [addr' Ha].
  pose proof (fw_clients _ _ (timed_step_follows _ _ _ Hstep) _ _ Ha (ti_clients _ _ Hinv _ _ Ho)) as Ha'.
  by rewrite (owner_unique _ _ _ _ _ Hinv Ho Ha').
Qed.

(** C39: At most [max_active_transactions] transactions of one client are being
    served at any time, each under a different xid. A transaction counts for the
    client that started it, and for no other: its lock is on the queue that the
    map has for that address alone, and no step of any thread (the cleaner
    included) changes that while the lock is alive, so a client whose calls are
    being served is not forgotten and never gets a second queue. *)
Theorem live_transactions_bounded (retention max_active trim_limit : Z) (w : world) :
  0 <= max_active <= u16_MAX -> max_active < trim_limit ->
  reachable (tracker_new retention max_active trim_limit) w ->
  (forall addr, len (live_xids w addr) <= max_active /\ NoDup (live_xids w addr)) /\
  (forall l, l ∈ w_locks w -> exists addr, owner (w_tracker w) l addr /\ tl_xid l ∈ live_xids w addr /\
    forall addr', owner (w_tracker w) l addr' -> addr' = addr) /\
  (forall addr xid now l t,
    start_transaction_known addr xid now (w_tracker w) = (Ret (Some (Ok l)), t) \/
    start_transaction_new addr xid now (w_tracker w) = (Ret (Ok l), t) ->
    owner t l addr /\ tl_xid l = xid) /\
  (forall w' l addr, step w w' -> l ∈ w_locks w' -> owner (w_tracker w) l addr -> owner (w_tracker w') l addr).
Proof.
  intros H1 H2 H3. pose proof (reachable_settled _ _ _ _ H1 H2 H3) as [Hinv _ Hm _ _]. split_and!.
  - intros addr. unfold live_xids. destruct (tt_transactions _ !! addr) as [r|] eqn:Ha; cycle 1.
    { rewrite len_nil. split; [lia|constructor]. }
    destruct (lookup_lt_is_Some_2 _ _ (ti_clients _ _ Hinv _ _ Ha)) as [m Hr].
    pose proof (ti_heap _ _ Hinv r m Hr) as Hok. rewrite <- Hm. split; [by eapply mutex_ok_active_bound|].
    rewrite <- (mok_locks _ _ _ _ Hok). apply in_progress_NoDup, (ctw_sorted _ (mok_wf _ _ _ _ Hok)).
  - intros l Hl. destruct (live_lock_queue _ _ _ Hinv Hl) as (addr & m & Ha & _).
    exists addr. split_and!; [done| |intros addr' Ha'; by eapply owner_unique].
    unfold live_xids. rewrite Ha. apply (list_elem_of_fmap_2 tl_xid). by apply list_elem_of_filter.
  - intros addr xid now l t [Hs|Hs];
      [destruct (start_known_Ok _ _ _ _ _ _ Hs) as (? & ? & _)|destruct (start_new_Ok _ _ _ _ _ _ Hs) as (? & ? & _)]; done.
  - intros w' l addr [now Hs]. by apply (owner_step now).
Qed.

Lemma live_transactions_bounded_witness :
  live_xids demo_world "10.0.0.1" = [7] /\ len (live_xids demo_world "10.0.0.1") <= 2.
Proof.
  split; [reflexivity|].
  apply (live_transactions_bounded 60 2 4 demo_world ltac:(unfold u16_MAX; lia) ltac:(lia) demo_reachable).
Defined.

(** ** How long a completed transaction is remembered *)

(** The queue of [addr] holds the transaction [xid], completed at [at_]. *)
Definition remembered (addr : string) (xid : Z) (at_ : Instant) (t : TransactionTracker) : Prop :=
  exists r m, tt_transactions t !! addr = Some r /\ tt_heap t !! r = Some m /\
    mkTransaction xid (Completed at_) ∈ ct_transactions (mx_data m).

(** A step within the retention period, the queue of [addr] being shorter than the
    limit from which old transactions are trimmed. *)
Definition recent_step (addr : string) (until : Instant) (w w' : world) : Prop :=
  exists now, timed_step now w w' /\ now <= until /\
    len (seen addr (w_tracker w)) < tt_trim_limit (w_tracker w).

Lemma remembered_refused t ls addr xid at_ now :
  tracker_inv t ls -> remembered addr xid at_ t ->
  exists t', start_transaction addr xid now t = (Ret (Err AlreadyExists), t').
Proof.
  intros Hinv (r & m & Ha & Hm & Hin). eexists. eapply start_transaction_duplicate; [done..|].
  by apply (list_elem_of_fmap_2 tx_xid _ _ Hin).
Qed.

(** An operation on one queue: what is left to show is that it keeps the transaction
    when the queue is that of [addr]. *)
Lemma with_client_remembered {A} r f (a : A) addr xid at_ t t' :
  remembered addr xid at_ t -> with_client r f t = (Ret a, t') ->
  (forall m c, tt_transactions t !! addr = Some r -> tt_heap t !! r = Some m -> f (mx_data m) = (Ret a, c) ->
    mkTransaction xid (Completed at_) ∈ ct_transactions (mx_data m) ->
    mkTransaction xid (Completed at_) ∈ ct_transactions c) ->
  remembered addr xid at_ t'.
Proof.
  intros (q & m & Ha & Hm & Hin). unfold with_client. destruct (tt_heap t !! r) as [m'|] eqn:Hr; [|done].
  destruct (mx_poisoned m'); [done|]. destruct (f (mx_data m')) as [[b| |] c] eqn:Hf; try done.
  intros [= -> <-] Hkeep. destruct (decide (q = r)) as [->|Hne].
  - simplify_eq. exists r, (mkMutex c false). split_and!; [done| |by apply (Hkeep m c)].
    cbn. apply list_lookup_insert_eq. by eapply lookup_lt_Some.
  - exists q, m. split_and!; [done| |done]. cbn. by rewrite list_lookup_insert_ne.
Qed.

Lemma trim_loop_short n l : len l <= n -> trim_loop n l = l.
Proof. destruct l; [done|]. cbn [trim_loop]. intros H. by rewrite (proj2 (Z.ltb_ge _ _) H). Qed.

Lemma add_transaction_keeps c x now tx :
  ct_wf c -> len (ct_transactions c) < ct_trim_limit c -> tx ∈ ct_transactions c ->
  tx ∈ ct_transactions (snd (add_transaction x now c)).
Proof.
  intros Hwf Hlen Hin. pose proof (add_transaction_cases c x now Hwf) as (_ & _ & _ & H).
  destruct (fst (add_transaction x now c)) as [u|[|]].
  - destruct H as (_ & _ & _ & l & Hp & _ & ->). rewrite trim_loop_short.
    + rewrite Hp. by right.
    + unfold len in *. rewrite Hp. cbn [length]. lia.
  - destruct H as (_ & -> & _). done.
  - destruct H as (_ & _ & -> & _). done.
Qed.

Lemma add_and_lock_remembered t ls r x now res t' addr xid at_ :
  tracker_inv t ls -> len (seen addr t) < tt_trim_limit t -> remembered addr xid at_ t ->
  add_and_lock r x now t = (Ret res, t') -> remembered addr xid at_ t'.
Proof.
  intros Hinv Hlen Hrem. unfold add_and_lock, pbind.
  destruct (with_client r _ t) as [[r0| |] t1] eqn:E; try done. intros [= _ <-].
  apply (with_client_remembered _ _ _ _ _ _ _ _ Hrem E). intros m c Ha Hm Hf Hin.
  pose proof (ti_heap _ _ Hinv _ _ Hm) as Hok.
  rewrite (seen_known _ _ _ _ Ha Hm), <- (mok_limit _ _ _ _ Hok) in Hlen. unfold xids, len in Hlen.
  rewrite length_map in Hlen.
  pose proof (add_transaction_keeps _ x now _ (mok_wf _ _ _ _ Hok) Hlen Hin) as Hk.
  destruct (add_transaction x now (mx_data m)) as [res' c']. by injection Hf as _ <-.
Qed.

Lemma start_known_remembered t ls x now res t' addr addr' xid at_ :
  tracker_inv t ls -> len (seen addr t) < tt_trim_limit t -> remembered addr xid at_ t ->
  start_transaction_known addr' x now t = (Ret res, t') -> remembered addr xid at_ t'.
Proof.
  intros Hinv Hlen Hrem. unfold start_transaction_known. rewrite (ti_clean _ _ Hinv).
  destruct (tt_transactions t !! addr') as [r|]; [|by intros [= _ <-]]. unfold pbind.
  destruct (add_and_lock r x now t) as [[r0| |] t1] eqn:E; try done. intros [= _ <-].
  by eapply add_and_lock_remembered.
Qed.

Lemma start_new_remembered t ls x now res t' addr addr' xid at_ :
  tracker_inv t ls -> len (seen addr t) < tt_trim_limit t -> remembered addr xid at_ t ->
  start_transaction_new addr' x now t = (Ret res, t') -> remembered addr xid at_ t'.
Proof.
  intros Hinv Hlen Hrem. unfold start_transaction_new, under_write, pbind. rewrite (ti_clean _ _ Hinv).
  destruct (entry_or_insert_run t ls addr' now Hinv) as (r & t1 & He & Hinv1 & _). rewrite He.
  assert (remembered addr xid at_ t1 /\ seen addr t1 = seen addr t /\ tt_trim_limit t1 = tt_trim_limit t)
    as (Hrem1 & Hs & Hl).
  { unfold entry_or_insert in He. destruct Hrem as (q & m & Ha & Hm & Hin).
    destruct (tt_transactions t !! addr') as [r'|] eqn:Ha'; [injection He as -> <-; split; [by exists q, m|done]|].
    destruct (client_transactions_new _ _ _) as [c| |]; try done. injection He as <- <-.
    assert ((tt_heap t ++ [mkMutex c false]) !! q = Some m) as Hm' by by apply lookup_app_l_Some.
    assert (addr' <> addr) as Hne by congruence.
    split_and!; [|unfold seen|done]; cbn [tt_transactions tt_heap set_clients set_heap].
    - exists q, m. cbn. by rewrite lookup_insert_ne.
    - by rewrite lookup_insert_ne, Ha, Hm, Hm'. }
  destruct (add_and_lock r x now t1) as [[r0| |] t2] eqn:E; try done. intros [= _ <-].
  eapply add_and_lock_remembered; [exact Hinv1|by rewrite Hs, Hl|done|exact E].
Qed.

(** Completing a transaction does not touch those that are completed. *)
Lemma complete_transaction_keeps x now c o c' tx :
  complete_transaction x now c = (Ret o, c') -> tx_state tx <> InProgress ->
  tx ∈ ct_transactions c -> tx ∈ ct_transactions c'.
Proof.
  unfold complete_transaction. intros H Hst [j Hj]%list_elem_of_lookup_1.
  destruct (find_transaction _ x) as [p|p]; [|injection H as _ <-; by eapply list_elem_of_lookup_2].
  cbn [ct_transactions set_last_active] in H. destruct (ct_transactions c !! p) as [t|] eqn:Hp; [|done].
  unfold transaction_complete in H. destruct (tx_state t) eqn:Et; [|done].
  destruct (ct_active _ =? 0); [done|]. injection H as _ <-.
  apply list_elem_of_lookup_2 with j. cbn. rewrite list_lookup_insert_ne; [done|]. intros ->. congruence.
Qed.

Lemma remove_old_keeps now age xid at_ c :
  0 <= age -> now <= at_ + age -> mkTransaction xid (Completed at_) ∈ ct_transactions c ->
  mkTransaction xid (Completed at_) ∈ ct_transactions (remove_old_transactions now age c).
Proof.
  intros Hage Hnow Hin. apply drop_stale_keeps; [done|]. unfold is_stale, instant_sub. cbn. lia.
Qed.

Lemma lock_drop_remembered t l now t' addr xid at_ :
  0 <= tl_retention_period l -> now <= at_ + tl_retention_period l -> remembered addr xid at_ t ->
  lock_drop l now t = (Ret tt, t') -> remembered addr xid at_ t'.
Proof.
  intros H0 Hnow Hrem Hdrop. apply (with_client_remembered _ _ _ _ _ _ _ _ Hrem Hdrop).
  intros m c _ _ Hf Hin. destruct (complete_transaction (tl_xid l) now (mx_data m)) as [[u| |] c1] eqn:E; try done.
  injection Hf as <-. apply remove_old_keeps; [done..|]. by eapply complete_transaction_keeps.
Qed.

(** A client with a transaction that is not stale is kept by the cleaner. *)
Lemma is_active_recent now age xid at_ c :
  now <= at_ + age -> 0 <= age -> mkTransaction xid (Completed at_) ∈ ct_transactions c -> is_active c now age = true.
Proof.
  intros Hnow Hage Hin. unfold is_active, has_active_transactions. case_match; [done|]. apply existsb_exists.
  eexists. split; [by apply list_elem_of_In|]. unfold is_stale, instant_sub. cbn. lia.
Qed.

Lemma retain_clients_remembered now clients t ls t' addr xid at_ :
  tracker_inv t ls -> NoDup clients.*1 ->
  (forall a r, (a, r) ∈ clients -> tt_transactions t !! a = Some r) ->
  0 <= tt_retention_period t -> now <= at_ + tt_retention_period t -> remembered addr xid at_ t ->
  retain_clients now clients t = (Ret tt, t') -> remembered addr xid at_ t'.
Proof.
  intros Hinv Hnd Hin H0 Hnow Hrem. revert t Hinv Hin H0 Hnow Hrem.
  induction clients as [|[a r] clients IH]; intros t Hinv Hin H0 Hnow Hrem; [by intros [= <-]|].
  cbn [fmap list_fmap fst] in Hnd. inversion Hnd as [|? ? Hnot Hnd']; subst.
  assert (tt_transactions t !! a = Some r) as Ha by (apply Hin; by left).
  destruct (lookup_lt_is_Some_2 _ _ (ti_clients _ _ Hinv _ _ Ha)) as [m Hm].
  change (tt_heap t !! (r : arc) = Some m) in Hm.
  destruct (with_client_retain_run t ls r now m Hinv Hm) as (keep & t1 & Hrun & Hinv1 & Hcl & Hkeep).
  assert (tt_retention_period t1 = tt_retention_period t) as Hret.
  { apply (f_equal snd) in Hrun. cbn [snd] in Hrun. rewrite <- Hrun. apply fw_retention, following_with_client. }
  cbn [retain_clients]. unfold pbind at 1. rewrite Hrun. unfold pbind.
  assert (remembered addr xid at_ t1) as Hrem1.
  { apply (with_client_remembered _ _ _ _ _ _ _ _ Hrem Hrun). intros m' c _ _ Hf Htx.
    destruct (is_active _ _ _); injection Hf as _ <-; [by apply remove_old_keeps|done]. }
  assert (keep = false -> a <> addr) as Hne.
  { intros -> ->. destruct Hrem as (q & mq & Hq & Hmq & Htx). simplify_eq.
    unfold with_client in Hrun. rewrite Hmq, (mok_clean _ _ _ _ (ti_heap _ _ Hinv _ _ Hmq)) in Hrun.
    by rewrite (is_active_recent _ _ _ _ _ Hnow H0 Htx) in Hrun. }
  assert (forall a' r', (a', r') ∈ clients -> a' <> a) as Hdiff.
  { intros a' r' Hin' ->. apply Hnot. by apply (list_elem_of_fmap_2 fst) in Hin'. }
  destruct keep.
  - apply IH; rewrite ?Hret; try done. intros a' r' Hin'. rewrite Hcl. apply Hin. by right.
  - apply IH; cbn [tt_retention_period set_clients]; rewrite ?Hret; try done.
    + eapply tracker_inv_delete; [done| |by apply Hkeep]. by rewrite Hcl.
    + intros a' r' Hin'. cbn. rewrite lookup_delete_ne by (apply not_eq_sym; eauto). rewrite Hcl. apply Hin. by right.
    + destruct Hrem1 as (q & mq & Hq & ? & ?). exists q, mq. cbn. rewrite lookup_delete_ne by auto. done.
Qed.

Lemma cleanup_remembered t ls now t' addr xid at_ :
  tracker_inv t ls -> 0 <= tt_retention_period t -> now <= at_ + tt_retention_period t ->
  remembered addr xid at_ t -> cleanup now t = (Ret tt, t') -> remembered addr xid at_ t'.
Proof.
  intros Hinv H0 Hnow Hrem. unfold cleanup, under_write. rewrite (ti_clean _ _ Hinv).
  destruct (retain_clients _ _ t) as [[u| |] t1] eqn:E; try done. destruct u. intros [= <-].
  eapply retain_clients_remembered; [done|apply NoDup_fst_map_to_list| |done..].
  intros a r. apply elem_of_map_to_list.
Qed.

(** One step, and any number of them, keep a completed transaction. *)
Lemma recent_step_remembered retention max_active trim_limit addr xid at_ w w' :
  0 <= retention -> settled retention max_active trim_limit w ->
  recent_step addr (at_ + retention) w w' -> remembered addr xid at_ (w_tracker w) ->
  settled retention max_active trim_limit w' /\ remembered addr xid at_ (w_tracker w').
Proof.
  intros H0 Hset (now & Hstep & Hnow & Hlen) Hrem. split; [by eapply settled_step|].
  destruct Hset as [Hinv Hr _ _ Hk]. unfold world_inv in Hinv.
  destruct Hstep as [t ls ps a x now res t' E|t ls ps a x now t' E|t ls ps1 ps2 a x now res t' E
    |t ls1 ls2 ps l now t' E|t ls ps now t' E]; cbn [w_tracker w_locks] in *.
  - by eapply start_known_remembered.
  - by eapply start_known_remembered.
  - by eapply start_new_remembered.
  - assert (tl_retention_period l = retention) as Hl by (apply Hk; set_solver).
    eapply lock_drop_remembered; [by rewrite Hl..|done|exact E].
  - eapply cleanup_remembered; [exact Hinv|by rewrite Hr..|done|exact E].
Qed.

Lemma recent_steps_remembered retention max_active trim_limit addr xid at_ w w' :
  0 <= retention -> settled retention max_active trim_limit w ->
  rtc (recent_step addr (at_ + retention)) w w' -> remembered addr xid at_ (w_tracker w) ->
  settled retention max_active trim_limit w' /\ remembered addr xid at_ (w_tracker w').
Proof.
  intros H0 Hset Hsteps. induction Hsteps as [w|w1 w2 w3 Hstep _ IH]; intros Hrem; [done|].
  destruct (recent_step_remembered _ _ _ _ _ _ _ _ H0 Hset Hstep Hrem) as [Hset2 Hrem2]. by apply IH.
Qed.

(** The drop of a lock completes its transaction. *)
Lemma lock_drop_completes t l ls now t' addr :
  tracker_inv t (l :: ls) -> owner t l addr -> 0 <= tl_retention_period l ->
  lock_drop l now t = (Ret tt, t') -> remembered addr (tl_xid l) now t'.
Proof.
  intros Hinv Ho Hret Hdrop. destruct (live_lock_queue _ _ l Hinv) as (_ & m & _ & Hm & Hok & Hin); [by left|].
  destruct (complete_transaction_run _ _ now (mok_wf _ _ _ _ Hok) Hin) as (c' & Hcomp & _ & _ & _ & _ & Hcm & _).
  unfold lock_drop, with_client in Hdrop. rewrite Hm, (mok_clean _ _ _ _ Hok), Hcomp in Hdrop.
  injection Hdrop as <-. eexists _, _. split_and!; [exact Ho| |].
  { apply list_lookup_insert_eq. by eapply lookup_lt_Some. }
  apply remove_old_keeps; [done|lia|exact Hcm].
Qed.

(** While a lock is alive: steps that leave it so. *)
Definition serving_step (l : TransactionLock) (w w' : world) : Prop := step w w' /\ l ∈ w_locks w'.

Lemma serving_steps_owner retention max_active trim_limit l addr w w' :
  settled retention max_active trim_limit w -> rtc (serving_step l) w w' -> owner (w_tracker w) l addr ->
  settled retention max_active trim_limit w' /\ owner (w_tracker w') l addr.
Proof.
  intros Hset Hsteps. induction Hsteps as [w|w1 w2 w3 [[now Hstep] Hl] _ IH]; intros Ho; [done|].
  apply IH; [by eapply settled_step|]. eapply owner_step; [apply (st_inv _ _ _ _ Hset)|done..].
Qed.

Lemma owner_refused t ls l addr now :
  tracker_inv t ls -> l ∈ ls -> owner t l addr ->
  exists t', start_transaction addr (tl_xid l) now t = (Ret (Err AlreadyExists), t').
Proof.
  intros Hinv Hl Ho. destruct (live_lock_queue _ _ l Hinv Hl) as (_ & m & _ & Hm & _ & Hin). eexists.
  eapply start_transaction_duplicate; [exact Hinv|exact Ho|exact Hm|by apply in_progress_in_xids].
Qed.
