(* ===== verification/RpcWire.v ===== *)
(** * RPC messages on the wire: [nfs3_server::rpcwire] and [rpcwire::messages]

    Record marking (fragments with a 4-byte header), reassembly of a message
    from its fragments, and the incoming call with the replies it is turned
    into.  The socket is the list of bytes that will be read from it before it
    is closed. *)

From S2P Require Import Prelude Xdr XdrLaws RpcTypes.
Open Scope Z_scope.
Open Scope nfs_scope.

(** The errors that these functions wrap in [anyhow::Error]. *)
Inductive rpc_error : Type :=
| RpcIo (e : io_error)
| RpcXdr (e : Error)
| FailedToUnpack (e : Error)
| ExpectedCall (xid : u32).

#[export] Instance rpc_error_eq_dec : EqDecision rpc_error.
Proof. solve_decision. Defined.

(** ** Reassembly: [messages.rs] *)

(** [IncompleteRpcMessage] holds the fragments received so far, [CompleteRpcMessage]
    the whole message; both are their bytes. *)
Inductive PackedRpcMessage : Type :=
| Incomplete (data : list byte)
| Complete (data : list byte).

Definition packed_rpc_message_new : PackedRpcMessage := Incomplete [].

(** [AsyncReadExt::read_exact] into a buffer of [n] bytes: what it holds
    afterwards, whether it was filled, what is left of the input. *)
Definition read_exact_into (n : Z) (inp : list byte) : list byte * bool * list byte :=
  if n <=? len inp then (take (Z.to_nat n) inp, true, drop (Z.to_nat n) inp)
  else (inp ++ replicate (Z.to_nat (n - len inp)) x00, false, []).

Definition incomplete_recv (buf inp : list byte) : result bool rpc_error * list byte * list byte :=
  let '(header_buf, ok, inp) := read_exact_into 4 inp in
  if ok then
    let header := fragment_header_from header_buf in
    let fragment_length := fragment_header_fragment_length header in
    let '(fragment, ok, inp) := read_exact_into fragment_length inp in
    let buf := buf ++ fragment in
    if ok then (Ok (fragment_header_eof header), buf, inp)
    else (Err (RpcIo UnexpectedEof), buf, inp)
  else (Err (RpcIo UnexpectedEof), buf, inp).

Definition packed_recv (m : PackedRpcMessage) (inp : list byte)
  : result bool rpc_error * PackedRpcMessage * list byte :=
  match m with
  | Incomplete buf =>
      match incomplete_recv buf inp with
      | (Ok eof, buf, inp) =>
          (Ok eof, if (eof : bool) then Complete buf else Incomplete buf, inp)
      | (Err e, buf, inp) => (Err e, Incomplete buf, inp)
      end
  | Complete _ => (Ok true, m, inp)
  end.

(** [write_fragment]: the bytes written to the socket. *)
Definition write_fragment (buf : list byte) : outcome (list byte) :=
  if len buf <? Z.shiftl 1 31 then
    match fragment_header_new (len buf mod 2 ^ 32) true with
    | Ret header => Ret (fragment_header_into_xdr_buf header ++ buf)
    | _ => Panic
    end
  else Panic.

(** [SocketMessageHandler::read]: one fragment; [Some] is the message that the
    task it spawns will handle.  The [unreachable!()] arm is [Panic]. *)
Definition socket_read (cur_fragment : PackedRpcMessage) (inp : list byte)
  : outcome (result (option (list byte)) rpc_error) * PackedRpcMessage * list byte :=
  match packed_recv cur_fragment inp with
  | (Err e, m, inp) => (Ret (Err e), m, inp)
  | (Ok false, m, inp) => (Ret (Ok None), m, inp)
  | (Ok true, Complete data, inp) => (Ret (Ok (Some data)), packed_rpc_message_new, inp)
  | (Ok true, Incomplete _, inp) => (Panic, packed_rpc_message_new, inp)
  end.

(** The loop around it ([tcp.rs]): [fuel] fragments, the messages dispatched and
    the state in which the loop is left. *)
Fixpoint socket_read_loop (fuel : nat) (cur : PackedRpcMessage) (inp : list byte)
  : outcome (list (list byte) * option rpc_error) * PackedRpcMessage * list byte :=
  match fuel with
  | O => (OutOfFuel, cur, inp)
  | S fuel' =>
      match socket_read cur inp with
      | (Ret (Err e), cur, inp) => (Ret ([], Some e), cur, inp)
      | (Ret (Ok msg), cur, inp) =>
          match socket_read_loop fuel' cur inp with
          | (Ret (msgs, e), cur, inp) =>
              (Ret (match msg with Some m => m :: msgs | None => msgs end, e), cur, inp)
          | (o, cur, inp) => (o, cur, inp)
          end
      | (Panic, cur, inp) => (Panic, cur, inp)
      | (OutOfFuel, cur, inp) => (OutOfFuel, cur, inp)
      end
  end.

(** ** [std::io::Cursor<Vec<u8>>] *)

Record Cursor : Type := mkCursor {
  cur_data : list byte;
  cur_position : Z;
}.

Definition cursor_rest (c : Cursor) : list byte := drop (Z.to_nat (cur_position c)) (cur_data c).

(** Run a reader on a cursor. *)
Definition cursor_read {A} (r : reader A) (c : Cursor) : result A Error * Cursor :=
  let '(res, rest) := r (cursor_rest c) in
  (res, mkCursor (cur_data c) (cur_position c + (len (cursor_rest c) - len rest))).

(** ** [IncomingRpcMessage] *)

Record IncomingRpcMessage : Type := mkIncoming {
  im_xid : u32;
  im_body : call_body;
  im_data : option (list byte);
  im_message_start : Z;
}.

(** [TryFrom<CompleteRpcMessage>]. *)
Definition incoming_try_from (packed : list byte) : result IncomingRpcMessage rpc_error :=
  match unpack rpc_msg_codec packed with
  | (Err err, _) => Err (FailedToUnpack err)
  | (Ok (rpc, pos), _) =>
      match rpc_msg_body rpc with
      | body_CALL call => Ok (mkIncoming (rpc_msg_xid rpc) call (Some packed) pos)
      | body_REPLY _ => Err (ExpectedCall (rpc_msg_xid rpc))
      end
  end.

Definition incoming_take_data (m : IncomingRpcMessage) : outcome Cursor * IncomingRpcMessage :=
  match im_data m with
  | Some data =>
      (Ret (mkCursor data (im_message_start m)),
       mkIncoming (im_xid m) (im_body m) None (im_message_start m))
  | None => (Panic, m)
  end.

Inductive HandleResult : Type :=
| Reply (data : list byte)
| NoReply.

(** [pack]: the bytes of an RPC message followed by those of its payload. *)
Definition pack_reply {T} (rpc : rpc_msg) (c : codec T) (message : T)
  : outcome (result (list byte) rpc_error) :=
  if packed_size rpc_msg_codec rpc + packed_size c message <=? usize_MAX then
    Ret (match (let* _ := pack rpc_msg_codec rpc in pack c message) [] with
         | (Ok _, out) => Ok out
         | (Err e, _) => Err (RpcXdr e)
         end)
  else Panic.

Definition into_reply {T} (rpc : rpc_msg) (c : codec T) (message : T)
  : outcome (result HandleResult rpc_error) :=
  match pack_reply rpc c message with
  | Ret r => Ret (result_map Reply r)
  | _ => Panic
  end.

Definition into_success_reply {T} (m : IncomingRpcMessage) (c : codec T) (message : T)
  : outcome (result HandleResult rpc_error) :=
  let rpc := mk_rpc_msg (im_xid m)
    (body_REPLY (reply_MSG_ACCEPTED (mk_accepted_reply opaque_auth_default data_SUCCESS))) in
  into_reply rpc c message.

Definition into_rpc_mismatch (m : IncomingRpcMessage) : outcome (result HandleResult rpc_error) :=
  let reply := reply_MSG_DENIED (rpc_mismatch RPC_VERSION_2 RPC_VERSION_2) in
  let rpc := mk_rpc_msg (im_xid m) (body_REPLY reply) in
  into_reply rpc void_codec tt.

Definition into_error_reply (m : IncomingRpcMessage) (err : accept_stat_data)
  : outcome (result HandleResult rpc_error) :=
  let rpc := mk_rpc_msg (im_xid m)
    (body_REPLY (reply_MSG_ACCEPTED (mk_accepted_reply opaque_auth_default err))) in
  into_reply rpc void_codec tt.

(** ** [handle]: unpack the arguments, run a procedure, pack its result

    The procedure is a computation over the server's state [S]. *)
Definition handle {S I O} (ci : codec I) (co : codec O) (handler : u32 -> I -> prog S O)
  (message : IncomingRpcMessage) : prog S (result HandleResult rpc_error) := fun s =>
  match incoming_take_data message with
  | (Ret cursor, message) =>
      match cursor_read (unpack ci) cursor with
      | (Err _, _) => (into_error_reply message data_GARBAGE_ARGS, s)
      | (Ok (args, _), cursor) =>
          if cur_position cursor =? len (cur_data cursor) then
            match handler (im_xid message) args s with
            | (Ret result, s) => (into_success_reply message co result, s)
            | (Panic, s) => (Panic, s)
            | (OutOfFuel, s) => (OutOfFuel, s)
            end
          else (into_error_reply message data_GARBAGE_ARGS, s)
      end
  | (_, _) => (Panic, s)
  end.
