(* ===== verification/RpcWireLaws.v ===== *)
(** * Laws of the RPC wire layer

    Record marking round trips, the replies the server builds, and what
    [handle] answers to well-formed and malformed arguments. *)

From S2P Require Import Prelude Xdr XdrLaws RpcTypes RpcWire.
Open Scope Z_scope.
Open Scope nfs_scope.

(** ** Fragments *)

(** A fragment on the wire. *)
Definition fragment_bytes (eof : bool) (payload : list byte) : list byte :=
  match fragment_header_new (len payload) eof with
  | Ret h => fragment_header_into_xdr_buf h ++ payload
  | _ => []
  end.

(** A message sent as the fragments [init] and a last one. *)
Definition message_wire (m : list (list byte) * list byte) : list byte :=
  concat (map (fragment_bytes false) m.1) ++ fragment_bytes true m.2.

Definition message_payload (m : list (list byte) * list byte) : list byte := concat m.1 ++ m.2.

Definition message_ok (m : list (list byte) * list byte) : Prop :=
  Forall (fun p => len p <= MASK) m.1 /\ len m.2 <= MASK.

Lemma read_exact_into_app bs rest : read_exact_into (len bs) (bs ++ rest) = (bs, true, rest).
Proof.
  unfold read_exact_into. rewrite len_app. pose proof (len_nonneg rest).
  rewrite (proj2 (Z.leb_le _ _)) by lia. unfold len. rewrite Nat2Z.id.
  by rewrite take_app_length, drop_app_length.
Qed.

Lemma read_exact_into_app' n bs rest :
  len bs = n -> read_exact_into n (bs ++ rest) = (bs, true, rest).
Proof. intros <-. apply read_exact_into_app. Qed.

Lemma fragment_header_from_buf h :
  in_u32 (fragment_header_header h) -> fragment_header_from (fragment_header_into_xdr_buf h) = h.
Proof.
  intros Hu. unfold fragment_header_from, fragment_header_into_xdr_buf.
  rewrite u32_be_bytes by done. by destruct h.
Qed.

Lemma incomplete_recv_fragment buf eof payload rest :
  len payload <= MASK ->
  incomplete_recv buf (fragment_bytes eof payload ++ rest) = (Ok eof, buf ++ payload, rest).
Proof.
  intros Hl. unfold fragment_bytes.
  destruct (fragment_header_new_spec (len payload) eof) as (h & -> & Hu & He & Hlen).
  { pose proof (len_nonneg payload). lia. }
  unfold incomplete_recv. rewrite <- (assoc_L (++)).
  rewrite (read_exact_into_app' 4) by apply len_to_be_bytes.
  rewrite fragment_header_from_buf, Hlen, read_exact_into_app, He by done. done.
Qed.

Lemma fragment_bytes_len eof payload :
  len payload <= MASK -> len (fragment_bytes eof payload) = 4 + len payload.
Proof.
  intros Hl. unfold fragment_bytes.
  destruct (fragment_header_new_spec (len payload) eof) as (h & -> & _).
  { pose proof (len_nonneg payload). lia. }
  unfold fragment_header_into_xdr_buf. autorewrite with len. lia.
Qed.

Lemma fragment_bytes_nonempty eof payload :
  len payload <= MASK -> (0 < length (fragment_bytes eof payload))%nat.
Proof.
  intros Hl. pose proof (fragment_bytes_len eof payload Hl) as H.
  pose proof (len_nonneg payload). unfold len in *. lia.
Qed.

Lemma socket_read_fragment buf payload rest :
  len payload <= MASK ->
  socket_read (Incomplete buf) (fragment_bytes false payload ++ rest) =
  (Ret (Ok None), Incomplete (buf ++ payload), rest).
Proof.
  intros Hl. unfold socket_read, packed_recv. by rewrite incomplete_recv_fragment.
Qed.

Lemma socket_read_last buf payload rest :
  len payload <= MASK ->
  socket_read (Incomplete buf) (fragment_bytes true payload ++ rest) =
  (Ret (Ok (Some (buf ++ payload))), packed_rpc_message_new, rest).
Proof.
  intros Hl. unfold socket_read, packed_recv. by rewrite incomplete_recv_fragment.
Qed.

(** A read consumes at least the four bytes of a header, unless it fails. *)
Lemma socket_read_progress buf inp :
  match socket_read (Incomplete buf) inp with
  | (Ret (Ok _), Incomplete _, inp') => (length inp' < length inp)%nat
  | (Ret (Err _), _, _) => True
  | _ => False
  end.
Proof.
  unfold socket_read, packed_recv, incomplete_recv.
  assert (forall n i b ok r, read_exact_into n i = (b, ok, r) ->
    (length r <= length i)%nat /\ (ok = true -> 0 < n -> (length r < length i)%nat)) as Hr.
  { intros n i b ok r. unfold read_exact_into. destruct (Z.leb_spec n (len i)); intros ?; simplify_eq.
    - rewrite length_drop. unfold len in *. split; lia.
    - cbn. split; [lia|done]. }
  destruct (read_exact_into 4 inp) as [[hb ok] i1] eqn:E1. destruct (Hr _ _ _ _ _ E1) as [_ Hlt].
  destruct ok; [|done].
  destruct (read_exact_into _ i1) as [[fr ok2] i2] eqn:E2. destruct (Hr _ _ _ _ _ E2) as [Hle _].
  destruct ok2; [|done]. destruct (fragment_header_eof _); cbn; lia.
Qed.

(** The reading loop ends, with an error, on every input: any fuel above the
    number of bytes is enough. *)
Lemma socket_read_loop_ends fuel buf inp :
  (length inp < fuel)%nat ->
  exists msgs e cur rest, socket_read_loop fuel (Incomplete buf) inp = (Ret (msgs, Some e), cur, rest).
Proof.
  revert buf inp. induction fuel as [|fuel IH]; intros buf inp Hf; [lia|].
  cbn [socket_read_loop]. pose proof (socket_read_progress buf inp) as Hp.
  destruct (socket_read _ _) as [[[[m|e]| |] cur] i]; [|eauto|done|done].
  destruct cur as [buf'|buf']; [|done].
  destruct (IH buf' i) as (msgs & e & cur & rest & ->); [lia|]. eauto.
Qed.

Lemma socket_read_loop_message m buf fuel rest :
  message_ok m ->
  socket_read_loop (length m.1 + S fuel) (Incomplete buf) (message_wire m ++ rest) =
  match socket_read_loop fuel packed_rpc_message_new rest with
  | (Ret (msgs, e), cur, inp) => (Ret ((buf ++ message_payload m) :: msgs, e), cur, inp)
  | (o, cur, inp) => (o, cur, inp)
  end.
Proof.
  destruct m as [init last]. unfold message_ok, message_wire, message_payload. cbn [fst snd].
  intros [Hinit Hlast]. revert buf. induction Hinit as [|p init Hp _ IH]; intros buf.
  - cbn [map concat app length Nat.add socket_read_loop].
    by rewrite socket_read_last.
  - cbn [map concat length Nat.add socket_read_loop]. rewrite <- !(assoc_L (++)).
    rewrite socket_read_fragment by done. rewrite (assoc_L (++)), IH.
    destruct (socket_read_loop fuel packed_rpc_message_new rest) as [[[[msgs e]| |] cur] inp]; [|done..].
    by rewrite <- !(assoc_L (++)).
Qed.

(** ** Replies *)

Lemma encodes_bind {A B} (ca : codec A) (cb : codec B) a b bs1 bs2 out :
  encodes ca a bs1 -> encodes cb b bs2 ->
  (let* _ := pack ca a in pack cb b) out = (Ok (packed_size cb b), out ++ bs1 ++ bs2).
Proof.
  intros H1 H2. unfold sbind. rewrite (enc_pack _ _ _ H1), (enc_pack _ _ _ H2).
  by rewrite <- (assoc_L (++)).
Qed.

Lemma pack_reply_run {T} (rpc : rpc_msg) (c : codec T) (message : T) bs1 bs2 :
  encodes rpc_msg_codec rpc bs1 -> encodes c message bs2 ->
  len bs1 + len bs2 <= usize_MAX ->
  pack_reply rpc c message = Ret (Ok (bs1 ++ bs2)).
Proof.
  intros H1 H2 Hl. unfold pack_reply.
  rewrite <- (enc_size _ _ _ H1), <- (enc_size _ _ _ H2), (proj2 (Z.leb_le _ _)) by done.
  by rewrite (encodes_bind _ _ _ _ _ _ _ H1 H2).
Qed.

(** The size of a reply header is a small constant. *)
Definition accepted (xid : u32) (d : accept_stat_data) : rpc_msg :=
  mk_rpc_msg xid (body_REPLY (reply_MSG_ACCEPTED (mk_accepted_reply opaque_auth_default d))).

Definition denied (xid : u32) (r : rejected_reply) : rpc_msg :=
  mk_rpc_msg xid (body_REPLY (reply_MSG_DENIED r)).

Lemma accepted_valid xid d :
  in_u32 xid -> valid accept_stat_data_codec d -> valid rpc_msg_codec (accepted xid d).
Proof.
  intros Hx Hd. cbn -[u32_MAX in_u32 accept_stat_data_codec].
  split_and!; done.
Qed.

Lemma denied_valid xid r :
  in_u32 xid -> valid rejected_reply_codec r -> valid rpc_msg_codec (denied xid r).
Proof. intros Hx Hd. cbn -[u32_MAX in_u32 rejected_reply_codec]. split_and!; done. Qed.

Lemma accepted_size xid d : packed_size rpc_msg_codec (accepted xid d) = 20 + packed_size accept_stat_data_codec d.
Proof. cbn -[accept_stat_data_codec]. change (add_padding (len [])) with 0. lia. Qed.

Lemma denied_size xid r : packed_size rpc_msg_codec (denied xid r) = 12 + packed_size rejected_reply_codec r.
Proof. cbn -[rejected_reply_codec]. lia. Qed.

Lemma void_encodes : encodes void_codec tt [].
Proof. constructor; [|done..]. intros out. cbn. by rewrite app_nil_r. Qed.

Lemma into_error_reply_run m d :
  in_u32 (im_xid m) -> valid accept_stat_data_codec d ->
  exists bs, encodes rpc_msg_codec (accepted (im_xid m) d) bs /\
    into_error_reply m d = Ret (Ok (Reply bs)).
Proof.
  intros Hx Hd. destruct (codec_encodes _ (accepted_valid _ d Hx Hd)) as [bs Hbs].
  exists bs. split; [done|]. unfold into_error_reply, into_reply. fold (accepted (im_xid m) d).
  rewrite (pack_reply_run _ _ _ _ _ Hbs void_encodes); [by rewrite app_nil_r|].
  rewrite (enc_size _ _ _ Hbs), accepted_size, len_nil.
  destruct d; cbn; unfold usize_MAX, u64_MAX; lia.
Qed.

Lemma into_rpc_mismatch_run m :
  in_u32 (im_xid m) ->
  exists bs, encodes rpc_msg_codec (denied (im_xid m) (rejected_RPC_MISMATCH 2 2)) bs /\
    into_rpc_mismatch m = Ret (Ok (Reply bs)).
Proof.
  intros Hx.
  destruct (codec_encodes _ (denied_valid (im_xid m) (rejected_RPC_MISMATCH 2 2) Hx
              ltac:(cbn; unfold in_u32, u32_MAX; lia))) as [bs Hbs].
  exists bs. split; [done|]. unfold into_rpc_mismatch, into_reply, rpc_mismatch, RPC_VERSION_2.
  fold (denied (im_xid m) (rejected_RPC_MISMATCH 2 2)).
  rewrite (pack_reply_run _ _ _ _ _ Hbs void_encodes); [by rewrite app_nil_r|].
  rewrite (enc_size _ _ _ Hbs), denied_size, len_nil. by vm_compute.
Qed.

(** A result that fits in an [Opaque]-sized buffer. *)
Lemma into_success_reply_run {T} m (c : codec T) v bs :
  in_u32 (im_xid m) -> encodes c v bs -> len bs <= isize_MAX ->
  exists hd, encodes rpc_msg_codec (accepted (im_xid m) data_SUCCESS) hd /\
    into_success_reply m c v = Ret (Ok (Reply (hd ++ bs))).
Proof.
  intros Hx Hv Hl. destruct (codec_encodes _ (accepted_valid _ data_SUCCESS Hx I)) as [hd Hhd].
  exists hd. split; [done|]. unfold into_success_reply, into_reply.
  fold (accepted (im_xid m) data_SUCCESS). rewrite (pack_reply_run _ _ _ _ _ Hhd Hv); [done|].
  rewrite (enc_size _ _ _ Hhd), accepted_size. cbn.
  unfold usize_MAX, u64_MAX, isize_MAX in *. lia.
Qed.

(** ** Calls *)

(** A complete call message: header and arguments. *)
Definition call_bytes (xid : u32) (call : call_body) (args : list byte) : list byte :=
  to_bytes rpc_msg_codec (mk_rpc_msg xid (body_CALL call)) ++ args.

Lemma encodes_to_bytes {A} (c : codec A) a : CodecOk c -> valid c a -> encodes c a (to_bytes c a).
Proof.
  intros Hc Hv. destruct (codec_encodes a Hv) as [bs H].
  unfold to_bytes. by rewrite (enc_pack _ _ _ H).
Qed.

Lemma incoming_call xid call args :
  in_u32 xid -> valid call_body_codec call ->
  exists hd, encodes rpc_msg_codec (mk_rpc_msg xid (body_CALL call)) hd /\
    call_bytes xid call args = hd ++ args /\
    incoming_try_from (call_bytes xid call args) =
    Ok (mkIncoming xid call (Some (hd ++ args)) (len hd)).
Proof.
  intros Hx Hc. assert (valid rpc_msg_codec (mk_rpc_msg xid (body_CALL call))) as Hv.
  { cbn -[in_u32 call_body_codec]. split_and!; done. }
  pose proof (encodes_to_bytes _ _ _ Hv) as H. unfold call_bytes.
  set (hd := to_bytes _ _) in *. exists hd. split_and!; [done..|].
  unfold incoming_try_from. rewrite (enc_unpack _ _ _ H). cbn [rpc_msg_body rpc_msg_xid].
  by rewrite (enc_size _ _ _ H).
Qed.

Lemma cursor_rest_app hd args : cursor_rest (mkCursor (hd ++ args) (len hd)) = args.
Proof.
  unfold cursor_rest. cbn [cur_position cur_data]. unfold len.
  by rewrite Nat2Z.id, drop_app_length.
Qed.

(** Well-formed arguments reach the procedure, and its result is the payload of
    an accepted reply with the xid of the call. *)
Lemma handle_ok {S I O} (ci : codec I) (co : codec O) (f : u32 -> I -> prog S O) xid call hd v bs s :
  CodecOk co -> in_u32 xid -> encodes ci v bs ->
  handle ci co f (mkIncoming xid call (Some (hd ++ bs)) (len hd)) s =
  match f xid v s with
  | (Ret r, s') => (into_success_reply (mkIncoming xid call None (len hd)) co r, s')
  | (Panic, s') => (Panic, s')
  | (OutOfFuel, s') => (OutOfFuel, s')
  end.
Proof.
  intros Hco Hx Hv. unfold handle. cbn [incoming_take_data im_data im_message_start].
  unfold cursor_read. rewrite cursor_rest_app.
  pose proof (enc_unpack _ _ _ Hv []) as Hu. rewrite app_nil_r in Hu. rewrite Hu.
  cbn [cur_position cur_data]. autorewrite with len.
  rewrite (proj2 (Z.eqb_eq _ _)) by lia. done.
Qed.

(** Anything else is answered with [GARBAGE_ARGS] and changes nothing. *)
Lemma handle_garbage {S I O} (ci : codec I) (co : codec O) (f : u32 -> I -> prog S O) xid call hd args s :
  (forall v n, unpack ci args <> (Ok (v, n), [])) ->
  handle ci co f (mkIncoming xid call (Some (hd ++ args)) (len hd)) s =
  (into_error_reply (mkIncoming xid call None (len hd)) data_GARBAGE_ARGS, s).
Proof.
  intros Hg. unfold handle. cbn [incoming_take_data im_data im_message_start].
  unfold cursor_read. rewrite cursor_rest_app.
  destruct (unpack ci args) as [[[v n]|e] rest] eqn:E; [|done].
  cbn [cur_position cur_data]. autorewrite with len.
  destruct (Z.eqb_spec (len hd + (len args - len rest)) (len hd + len args)) as [Heq|]; [|done].
  assert (len rest = 0) as Hr by lia. destruct rest as [|b rest]; [by edestruct Hg|].
  rewrite len_cons in Hr. pose proof (len_nonneg rest). lia.
Qed.

(** ** Theorems *)

(** Record marking round trip, whatever the fragmentation. The fragments of
    any sequence of messages, each cut into any number of fragments of at most
    2^31-1 bytes, are read back as exactly these messages, in order; the reading
    loop then stops at the end of the stream with an end-of-file error. *)
Theorem socket_reassembles msgs fuel :
  Forall message_ok msgs ->
  (length (concat (map message_wire msgs)) < fuel)%nat ->
  socket_read_loop fuel packed_rpc_message_new (concat (map message_wire msgs)) =
  (Ret (map message_payload msgs, Some (RpcIo UnexpectedEof)), packed_rpc_message_new, []).
Proof.
  intros Hok. revert fuel. induction Hok as [|m msgs Hm _ IH]; intros fuel Hf; cbn [map concat] in *.
  { destruct fuel as [|fuel]; [lia|]. done. }
  assert (length m.1 < length (message_wire m))%nat as Hwire.
  { destruct m as [init last], Hm as [Hi Hl]. unfold message_wire. cbn [fst snd] in *.
    rewrite length_app. pose proof (fragment_bytes_nonempty true last Hl).
    clear Hf. induction Hi as [|p init Hp _ IH']; cbn [map concat length]; [lia|].
    rewrite length_app. pose proof (fragment_bytes_nonempty false p Hp). lia. }
  rewrite length_app in Hf.
  replace fuel with (length m.1 + S (fuel - length m.1 - 1))%nat by lia.
  unfold packed_rpc_message_new at 1.
  rewrite socket_read_loop_message, IH by (done || lia). done.
Qed.

(** The reader of a connection is robust: on every sequence of bytes the
    loop ends with an error after dispatching finitely many messages, and never
    panics. *)
Theorem socket_read_loop_total inp :
  exists msgs e cur rest,
    socket_read_loop (S (length inp)) packed_rpc_message_new inp = (Ret (msgs, Some e), cur, rest).
Proof. apply socket_read_loop_ends. lia. Qed.

(** A reply written by [write_fragment] is one fragment with the EOF flag,
    which the reassembly reads back; [write_fragment] panics exactly on replies
    of 2 GiB and more. *)
Theorem write_fragment_correct buf rest :
  (len buf < 2 ^ 31 ->
   exists bs, write_fragment buf = Ret bs /\ len bs = 4 + len buf /\
     packed_recv packed_rpc_message_new (bs ++ rest) = (Ok true, Complete buf, rest)) /\
  (2 ^ 31 <= len buf -> write_fragment buf = Panic).
Proof.
  unfold write_fragment. change (Z.shiftl 1 31) with (2 ^ 31). split; intros Hl.
  - pose proof (len_nonneg buf). rewrite (proj2 (Z.ltb_lt _ _)), Z.mod_small by lia.
    exists (fragment_bytes true buf). unfold fragment_bytes at 1.
    assert (len buf <= MASK) as Hm by (unfold MASK; lia).
    destruct (fragment_header_new_spec (len buf) true) as (h & Hh & _); [lia|]. rewrite Hh.
    split_and!; [done|by apply fragment_bytes_len|].
    unfold packed_recv, packed_rpc_message_new. by rewrite incomplete_recv_fragment.
  - by rewrite (proj2 (Z.ltb_ge _ _)).
Qed.

(** The fragment header packs the length in the low 31 bits and the flag in
    the top bit, and [new] panics exactly on longer fragments. *)
Theorem fragment_header_correct length eof :
  in_u32 length ->
  (length <= MASK ->
   exists h, fragment_header_new length eof = Ret h /\
     fragment_header_eof h = eof /\ fragment_header_fragment_length h = length /\
     fragment_header_from (fragment_header_into_xdr_buf h) = h) /\
  (MASK < length -> fragment_header_new length eof = Panic).
Proof.
  intros [H0 _]. split; intros Hl.
  - destruct (fragment_header_new_spec length eof) as (h & Hh & Hu & He & Hlen); [lia|].
    exists h. split_and!; [done..|by apply fragment_header_from_buf].
  - unfold fragment_header_new. by rewrite (proj2 (Z.leb_gt _ _)).
Qed.

(** A procedure sees exactly the arguments the client packed, and its result
    is what follows the reply header: [handle] on a call whose arguments are
    those of [v] runs the procedure on [v] once and answers with an accepted
    reply that carries the xid of the call and the packed result. *)
Theorem handle_roundtrip {S I O} (ci : codec I) (co : codec O) (f : u32 -> I -> prog S O)
  xid call v bs s r s' :
  CodecOk co -> in_u32 xid -> valid call_body_codec call -> encodes ci v bs ->
  f xid v s = (Ret r, s') -> valid co r -> packed_size co r <= isize_MAX ->
  exists m hd rbs, incoming_try_from (call_bytes xid call bs) = Ok m /\
    encodes rpc_msg_codec (accepted xid data_SUCCESS) hd /\ encodes co r rbs /\
    handle ci co f m s = (Ret (Ok (Reply (hd ++ rbs))), s').
Proof.
  intros Hco Hx Hc Hv Hf Hr Hl.
  destruct (incoming_call xid call bs Hx Hc) as (hd & _ & _ & Him).
  destruct (codec_encodes r Hr) as [rbs Hrbs].
  destruct (into_success_reply_run (mkIncoming xid call None (len hd)) co r rbs) as (rh & Hrh & Hs);
    [done..|by rewrite (enc_size _ _ _ Hrbs)|].
  exists (mkIncoming xid call (Some (hd ++ bs)) (len hd)), rh, rbs. split_and!; [done..|].
  rewrite (handle_ok ci co f xid call hd v bs s Hco Hx Hv), Hf. by rewrite Hs.
Qed.

(** Malformed arguments never reach a procedure: when the bytes after the
    call header do not unpack, or leave bytes over, the answer is the accepted
    reply [GARBAGE_ARGS] with the xid of the call and the state is untouched. *)
Theorem handle_rejects_garbage {S I O} (ci : codec I) (co : codec O) (f : u32 -> I -> prog S O)
  xid call args s :
  in_u32 xid -> valid call_body_codec call ->
  (forall v n, unpack ci args <> (Ok (v, n), [])) ->
  exists m bs, incoming_try_from (call_bytes xid call args) = Ok m /\
    encodes rpc_msg_codec (accepted xid data_GARBAGE_ARGS) bs /\
    handle ci co f m s = (Ret (Ok (Reply bs)), s).
Proof.
  intros Hx Hc Hg.
  destruct (incoming_call xid call args Hx Hc) as (hd & _ & _ & Him).
  destruct (into_error_reply_run (mkIncoming xid call None (len hd)) data_GARBAGE_ARGS Hx Logic.I) as (bs & Hbs & Hr).
  exists (mkIncoming xid call (Some (hd ++ args)) (len hd)), bs. split_and!; [done..|].
  rewrite (handle_garbage ci co f xid call hd args s Hg). by rewrite Hr.
Qed.

(** ** Witnesses *)

Definition demo_call : call_body :=
  mk_call_body 2 100003 3 1 opaque_auth_default opaque_auth_default.

Lemma demo_call_valid : valid call_body_codec demo_call.
Proof. cbn. unfold in_u32, u32_MAX. split_and!; try lia; done. Qed.

Lemma socket_reassembles_witness :
  socket_read_loop 64 packed_rpc_message_new
    (message_wire ([[x01]; [x02; x03]], [x04]) ++ message_wire ([], [x05])) =
  (Ret ([[x01; x02; x03; x04]; [x05]], Some (RpcIo UnexpectedEof)), packed_rpc_message_new, []).
Proof.
  refine (socket_reassembles [([[x01]; [x02; x03]], [x04]); ([], [x05])] 64 _ _).
  - repeat constructor; vm_compute; discriminate.
  - vm_compute. lia.
Defined.

Lemma write_fragment_correct_witness :
  exists bs, write_fragment [x2a] = Ret bs /\ len bs = 5 /\
    packed_recv packed_rpc_message_new (bs ++ []) = (Ok true, Complete [x2a], []).
Proof. exact (proj1 (write_fragment_correct [x2a] []) ltac:(by vm_compute)). Defined.

Lemma fragment_header_correct_witness :
  fragment_header_new (MASK + 1) false = Panic.
Proof.
  exact (proj2 (fragment_header_correct (MASK + 1) false
    ltac:(unfold in_u32, u32_MAX, MASK; lia)) ltac:(unfold MASK; lia)).
Defined.

Definition demo_handler : u32 -> Z -> prog Z Z := fun xid v s => (Ret (v + 1), s + v).

Lemma demo_u32_encodes : encodes u32_codec 41 (to_be_bytes 4 41).
Proof. apply u32_encodes. unfold in_u32, u32_MAX. lia. Qed.

Lemma handle_roundtrip_witness : exists m hd rbs,
  incoming_try_from (call_bytes 7 demo_call (to_be_bytes 4 41)) = Ok m /\
  encodes rpc_msg_codec (accepted 7 data_SUCCESS) hd /\ encodes u32_codec 42 rbs /\
  handle u32_codec u32_codec demo_handler m 1 = (Ret (Ok (Reply (hd ++ rbs))), 42).
Proof.
  apply (handle_roundtrip u32_codec u32_codec demo_handler 7 demo_call 41 (to_be_bytes 4 41) 1 42 42);
    [apply _|unfold in_u32, u32_MAX; lia|apply demo_call_valid|apply demo_u32_encodes|reflexivity
    |cbn; unfold in_u32, u32_MAX; lia|cbn; unfold isize_MAX; lia].
Defined.

Lemma handle_rejects_garbage_witness : exists m bs,
  incoming_try_from (call_bytes 7 demo_call [x00; x00]) = Ok m /\
  encodes rpc_msg_codec (accepted 7 data_GARBAGE_ARGS) bs /\
  handle u32_codec u32_codec demo_handler m 1 = (Ret (Ok (Reply bs)), 1).
Proof.
  apply (handle_rejects_garbage u32_codec u32_codec demo_handler 7 demo_call [x00; x00] 1);
    [unfold in_u32, u32_MAX; lia|apply demo_call_valid|].
  intros v n. vm_compute. discriminate.
Defined.
