(* ===== verification/RpcClient.v ===== *)
(** * The client: [nfs3_client]

    [io.rs] (the reading loop), [error.rs], [rpc.rs] and the three clients built
    on it: [nfs.rs], [mount.rs] and [portmapper.rs].  A connection is the chunks
    that successive reads will return ([io_in]; a read on the empty list returns
    0 bytes, as a closed socket does) and the bytes written so far. *)

From S2P Require Import Prelude Xdr XdrLaws Nfs3Types RpcTypes MountTypes PortmapTypes RpcWire.
Open Scope Z_scope.
Open Scope nfs_scope.

(** ** Errors: [error.rs] *)

Inductive RpcError : Type :=
| UnexpectedCall
| Auth
| RpcMismatch
| WrongLength
| UnexpectedXid
| NotFullyParsed (buf : list byte) (pos : u64)
| ProgUnavail
| ProgMismatch
| ProcUnavail
| GarbageArgs
| SystemErr.

Inductive PortmapError : Type :=
| ProgramUnavailable
| InvalidPortValue (value : u32).

Inductive client_error : Type :=
| CeIo (e : io_error)
| CeXdr (e : Error)
| CeRpc (e : RpcError)
| CePortmap (e : PortmapError)
| CeMountError (e : mountstat3)
| CeNfsError (e : nfsstat3).

(** [From<rejected_reply> for RpcError]. *)
Definition rpc_error_from_rejected (e : rejected_reply) : RpcError :=
  match e with
  | rejected_RPC_MISMATCH _ _ => RpcMismatch
  | rejected_AUTH_ERROR _ => Auth
  end.

(** [TryFrom<accept_stat_data> for RpcError]. *)
Definition rpc_error_try_from (value : accept_stat_data) : result RpcError unit :=
  match value with
  | data_SUCCESS => Err tt
  | data_PROG_UNAVAIL => Ok ProgUnavail
  | data_PROG_MISMATCH _ _ => Ok ProgMismatch
  | data_PROC_UNAVAIL => Ok ProcUnavail
  | data_GARBAGE_ARGS => Ok GarbageArgs
  | data_SYSTEM_ERR => Ok SystemErr
  end.

(** ** Input and output: [io.rs] *)

(** One [async_read] into a buffer of [buf_len] bytes. *)
Definition async_read (buf_len : Z) (chunks : list (list byte)) : list byte * list (list byte) :=
  match chunks with
  | [] => ([], [])
  | c :: cs =>
      if len c <=? buf_len then (c, cs)
      else (take (Z.to_nat buf_len) c, drop (Z.to_nat buf_len) c :: cs)
  end.

(** [async_read_exact]: [fuel] reads. *)
Fixpoint async_read_exact (fuel : nat) (n : Z) (chunks : list (list byte))
  : outcome (list byte) * list (list byte) :=
  if n <=? 0 then (Ret [], chunks)
  else
    match fuel with
    | O => (OutOfFuel, chunks)
    | S fuel' =>
        let '(bs, chunks) := async_read n chunks in
        match async_read_exact fuel' (n - len bs) chunks with
        | (Ret bs', chunks) => (Ret (bs ++ bs'), chunks)
        | (o, chunks) => (o, chunks)
        end
    end.

Record Io : Type := mkIo {
  io_in : list (list byte);
  io_out : list byte;
}.

(** ** [RpcClient] *)

Record RpcClient : Type := mkRpcClient {
  rc_io : Io;
  rc_xid : u32;
  rc_credential : opaque_auth;
  rc_verifier : opaque_auth;
}.

(** [xid] is the random number the client starts with. *)
Definition rpc_client_new_with_auth (io : Io) (xid : u32) (credential verifier : opaque_auth) : RpcClient :=
  mkRpcClient io xid credential verifier.
Definition rpc_client_new (io : Io) (xid : u32) : RpcClient :=
  rpc_client_new_with_auth io xid opaque_auth_default opaque_auth_default.

(** The bytes [send_call] writes. *)
Definition send_call {C} (msg : rpc_msg) (c : codec C) (args : C) : outcome (result (list byte) client_error) :=
  let total_len := packed_size rpc_msg_codec msg + packed_size c args in
  if total_len mod 4 =? 0 then
    if total_len <=? u32_MAX then
      match fragment_header_new total_len true with
      | Ret header =>
          match (let* _ := pack fragment_header_codec header in
                 let* _ := pack rpc_msg_codec msg in
                 pack c args) [] with
          | (Ok _, buf) =>
              if len buf - 4 =? total_len then Ret (Ok buf) else Ret (Err (CeRpc WrongLength))
          | (Err e, _) => Ret (Err (CeXdr e))
          end
      | _ => Panic
      end
    else Panic
  else Ret (Err (CeRpc WrongLength)).

(** The reply part that follows [rpc_msg]: [buf] is the whole fragment. *)
Definition parse_reply {T} (c : codec T) (xid : u32) (buf : list byte)
  : outcome (result T client_error) :=
  let cursor := mkCursor buf 0 in
  match cursor_read (unpack rpc_msg_codec) cursor with
  | (Err e, _) => Ret (Err (CeXdr e))
  | (Ok (resp_msg, _), cursor) =>
      if rpc_msg_xid resp_msg =? xid then
        match rpc_msg_body resp_msg with
        | body_CALL _ => Ret (Err (CeRpc UnexpectedCall))
        | body_REPLY (reply_MSG_DENIED r) => Ret (Err (CeRpc (rpc_error_from_rejected r)))
        | body_REPLY (reply_MSG_ACCEPTED reply) =>
            match accepted_reply_reply_data reply with
            | data_SUCCESS =>
                match cursor_read (unpack c) cursor with
                | (Err e, _) => Ret (Err (CeXdr e))
                | (Ok (final_value, _), cursor) =>
                    if cur_position cursor =? len buf then Ret (Ok final_value)
                    else Ret (Err (CeRpc (NotFullyParsed buf (cur_position cursor))))
                end
            | d => match rpc_error_try_from d with
                   | Ok e => Ret (Err (CeRpc e))
                   | Err _ => Panic
                   end
            end
        end
      else Ret (Err (CeRpc UnexpectedXid))
  end.

(** [recv_reply]; it asserts that the reply is a single fragment. *)
Definition recv_reply {T} (fuel : nat) (c : codec T) (xid : u32) (chunks : list (list byte))
  : outcome (result T client_error) * list (list byte) :=
  match async_read_exact fuel 4 chunks with
  | (Ret buf, chunks) =>
      let header := fragment_header_from buf in
      if fragment_header_eof header then
        let total_len := fragment_header_fragment_length header in
        match async_read_exact fuel total_len chunks with
        | (Ret buf, chunks) => (parse_reply c xid buf, chunks)
        | (Panic, chunks) => (Panic, chunks)
        | (OutOfFuel, chunks) => (OutOfFuel, chunks)
        end
      else (Panic, chunks)
  | (Panic, chunks) => (Panic, chunks)
  | (OutOfFuel, chunks) => (OutOfFuel, chunks)
  end.

Definition rpc_call {C R} (fuel : nat) (cc : codec C) (cr : codec R) (prog_ vers proc : u32) (args : C)
  : prog RpcClient (result R client_error) := fun cl =>
  let call := mk_call_body RPC_VERSION_2 prog_ vers proc (rc_credential cl) (rc_verifier cl) in
  let msg := mk_rpc_msg (rc_xid cl) (body_CALL call) in
  let xid' := (rc_xid cl + 1) mod 2 ^ 32 in
  let with_io io := mkRpcClient io xid' (rc_credential cl) (rc_verifier cl) in
  match send_call msg cc args with
  | Ret (Ok buf) =>
      let out := io_out (rc_io cl) ++ buf in
      match recv_reply fuel cr (rpc_msg_xid msg) (io_in (rc_io cl)) with
      | (o, chunks) => (o, with_io (mkIo chunks out))
      end
  | Ret (Err e) => (Ret (Err e), with_io (rc_io cl))
  | Panic => (Panic, with_io (rc_io cl))
  | OutOfFuel => (OutOfFuel, with_io (rc_io cl))
  end.

Section clients.
Context (fuel : nat).

(** ** [Nfs3Client]: [nfs.rs] *)

Definition nfs_call {C R} (cc : codec C) (cr : codec R) (proc : NFS_PROGRAM) (args : C)
  : prog RpcClient (result R client_error) :=
  rpc_call fuel cc cr NFS3_PROGRAM NFS3_VERSION (NFS_PROGRAM_as_u32 proc) args.

Definition nfs_null : prog RpcClient (result unit client_error) :=
  nfs_call void_codec void_codec NFSPROC3_NULL tt.
Definition nfs_getattr := nfs_call GETATTR3args_codec GETATTR3res_codec NFSPROC3_GETATTR.
Definition nfs_setattr := nfs_call SETATTR3args_codec SETATTR3res_codec NFSPROC3_SETATTR.
Definition nfs_lookup := nfs_call LOOKUP3args_codec LOOKUP3res_codec NFSPROC3_LOOKUP.
Definition nfs_access := nfs_call ACCESS3args_codec ACCESS3res_codec NFSPROC3_ACCESS.
Definition nfs_readlink := nfs_call READLINK3args_codec READLINK3res_codec NFSPROC3_READLINK.
Definition nfs_read := nfs_call READ3args_codec READ3res_codec NFSPROC3_READ.
Definition nfs_write := nfs_call WRITE3args_codec WRITE3res_codec NFSPROC3_WRITE.
Definition nfs_create := nfs_call CREATE3args_codec CREATE3res_codec NFSPROC3_CREATE.
Definition nfs_mkdir := nfs_call MKDIR3args_codec MKDIR3res_codec NFSPROC3_MKDIR.
Definition nfs_symlink := nfs_call SYMLINK3args_codec SYMLINK3res_codec NFSPROC3_SYMLINK.
Definition nfs_mknod := nfs_call MKNOD3args_codec MKNOD3res_codec NFSPROC3_MKNOD.
Definition nfs_remove := nfs_call REMOVE3args_codec REMOVE3res_codec NFSPROC3_REMOVE.
Definition nfs_rmdir := nfs_call RMDIR3args_codec RMDIR3res_codec NFSPROC3_RMDIR.
Definition nfs_rename := nfs_call RENAME3args_codec RENAME3res_codec NFSPROC3_RENAME.
Definition nfs_link := nfs_call LINK3args_codec LINK3res_codec NFSPROC3_LINK.
Definition nfs_readdir := nfs_call READDIR3args_codec READDIR3res_codec NFSPROC3_READDIR.
Definition nfs_readdirplus := nfs_call READDIRPLUS3args_codec READDIRPLUS3res_codec NFSPROC3_READDIRPLUS.
Definition nfs_fsstat := nfs_call FSSTAT3args_codec FSSTAT3res_codec NFSPROC3_FSSTAT.
Definition nfs_fsinfo := nfs_call FSINFO3args_codec FSINFO3res_codec NFSPROC3_FSINFO.
Definition nfs_pathconf := nfs_call PATHCONF3args_codec PATHCONF3res_codec NFSPROC3_PATHCONF.
Definition nfs_commit := nfs_call COMMIT3args_codec COMMIT3res_codec NFSPROC3_COMMIT.

(** ** [MountClient]: [mount.rs] *)

Definition mount_call {C R} (cc : codec C) (cr : codec R) (proc : MOUNT_PROGRAM) (args : C)
  : prog RpcClient (result R client_error) :=
  rpc_call fuel cc cr MOUNT_PROGRAM_NUMBER MOUNT_VERSION (MOUNT_PROGRAM_as_u32 proc) args.

Definition mount_null : prog RpcClient (result unit client_error) :=
  mount_call void_codec void_codec MOUNTPROC3_NULL tt.
Definition mount_mnt (path : dirpath) : prog RpcClient (result mountres3_ok client_error) :=
  do* r := mount_call dirpath_codec mountres3_codec MOUNTPROC3_MNT path in
  pret (match r with
        | Ok (mountres3_Ok ok) => Ok ok
        | Ok (mountres3_Err err) => Err (CeMountError err)
        | Err e => Err e
        end).
Definition mount_dump : prog RpcClient (result mountlist client_error) :=
  mount_call void_codec mountlist_codec MOUNTPROC3_DUMP tt.
Definition mount_umnt (path : dirpath) : prog RpcClient (result unit client_error) :=
  mount_call dirpath_codec void_codec MOUNTPROC3_UMNT path.
Definition mount_umntall : prog RpcClient (result unit client_error) :=
  mount_call void_codec void_codec MOUNTPROC3_UMNTALL tt.
Definition mount_export : prog RpcClient (result exports client_error) :=
  mount_call void_codec exports_codec MOUNTPROC3_EXPORT tt.

(** ** [PortmapperClient]: [portmapper.rs] *)

Definition pmap_call {C R} (cc : codec C) (cr : codec R) (proc : PMAP_PROG) (args : C)
  : prog RpcClient (result R client_error) :=
  rpc_call fuel cc cr PMAP_PROGRAM_NUMBER PMAP_VERSION (PMAP_PROG_as_u32 proc) args.

Definition pmap_null : prog RpcClient (result unit client_error) :=
  pmap_call void_codec void_codec PMAPPROC_NULL tt.
Definition pmap_getport (prog_ vers : u32) : prog RpcClient (result Z client_error) :=
  let args := mk_mapping prog_ vers IPPROTO_TCP 0 in
  do* r := pmap_call mapping_codec u32_codec PMAPPROC_GETPORT args in
  pret (match r with
        | Ok port =>
            if port <=? u16_MAX then
              if port =? 0 then Err (CePortmap ProgramUnavailable) else Ok port
            else Err (CePortmap (InvalidPortValue port))
        | Err e => Err e
        end).
Definition pmap_dump : prog RpcClient (result pmaplist client_error) :=
  pmap_call void_codec pmaplist_codec PMAPPROC_DUMP tt.
End clients.
