(* ===== verification/RpcClientLaws.v ===== *)
(** * Laws of the client, and the round trip through the server's wire layer *)

From S2P Require Import Prelude Xdr XdrLaws Nfs3Types RpcTypes MountTypes PortmapTypes.
From S2P Require Import RpcWire RpcWireLaws RpcClient.
Open Scope Z_scope.
Open Scope nfs_scope.

(** ** The reading loop *)

Definition chunks_ok (chunks : list (list byte)) : Prop := Forall (fun c => c <> []) chunks.

Lemma len_zero_nil {A} (l : list A) : len l <= 0 -> l = [].
Proof. destruct l; [done|]. rewrite len_cons. pose proof (len_nonneg l). lia. Qed.

Lemma async_read_step n chunks :
  0 < n -> chunks_ok chunks ->
  let '(bs, chunks') := async_read n chunks in
  concat chunks = bs ++ concat chunks' /\ chunks_ok chunks' /\ len bs <= n /\
  (chunks <> [] -> bs <> []).
Proof.
  intros Hn Hok. destruct chunks as [|c cs]; cbn; [split_and!; [done..|rewrite len_nil; lia|done]|].
  inversion Hok as [|? ? Hc Hcs]; subst.
  destruct (Z.leb_spec (len c) n); [split_and!; done|]. cbn [concat].
  rewrite (assoc_L (++)), take_drop. split_and!; [done| | |].
  - constructor; [|done]. intros Hd%(f_equal length). rewrite length_drop in Hd. unfold len in *. cbn in Hd. lia.
  - unfold len. rewrite length_take. unfold len in *. lia.
  - intros _ Ht%(f_equal length). rewrite length_take in Ht. unfold len in *. cbn in Ht. lia.
Qed.

Lemma async_read_exact_ok fuel bs rest chunks :
  chunks_ok chunks -> concat chunks = bs ++ rest -> (length bs <= fuel)%nat ->
  exists chunks', async_read_exact fuel (len bs) chunks = (Ret bs, chunks') /\
    chunks_ok chunks' /\ concat chunks' = rest.
Proof.
  revert bs chunks. induction fuel as [|fuel IH]; intros bs chunks Hok Hc Hf.
  { destruct bs; [|cbn in Hf; lia]. exists chunks. done. }
  destruct bs as [|b bs0]; [exists chunks; done|]. set (bs := b :: bs0) in *.
  assert (0 < len bs) as Hn by (unfold bs; rewrite len_cons; pose proof (len_nonneg bs0); lia).
  cbn [async_read_exact]. rewrite (proj2 (Z.leb_gt _ _)) by done.
  pose proof (async_read_step (len bs) chunks Hn Hok) as Hstep.
  destruct (async_read (len bs) chunks) as [got chunks'].
  destruct Hstep as (Hcat & Hok' & Hle & Hne).
  assert (got <> []) as Hgot. { apply Hne. intros ->. cbn in Hc. done. }
  rewrite Hc in Hcat. assert (exists bs', bs = got ++ bs') as [bs' Hbs].
  { exists (drop (length got) bs). unfold len in Hle.
    rewrite <- (take_drop (length got) bs) at 1. f_equal.
    apply (f_equal (take (length got))) in Hcat.
    rewrite take_app_le, take_app_length in Hcat by lia. done. }
  rewrite Hbs in Hcat. rewrite <- (assoc_L (++)) in Hcat. apply app_inv_head in Hcat.
  assert (len bs - len got = len bs') as -> by (rewrite Hbs; autorewrite with len; lia).
  destruct (IH bs' chunks' Hok' (eq_sym Hcat)) as (cs & -> & Hcs & Hrest).
  { apply (f_equal length) in Hbs. rewrite length_app in Hbs.
    destruct got; [done|]. cbn [length] in *. lia. }
  exists cs. by rewrite Hbs.
Qed.

(** On a connection that is closed before the buffer is full, the loop never
    ends, however many times it reads. *)
Lemma async_read_exact_eof fuel n chunks :
  chunks_ok chunks -> len (concat chunks) < n ->
  fst (async_read_exact fuel n chunks) = OutOfFuel.
Proof.
  revert n chunks. induction fuel as [|fuel IH]; intros n chunks Hok Hn;
    pose proof (len_nonneg (concat chunks)); cbn [async_read_exact];
    rewrite (proj2 (Z.leb_gt _ _)) by lia; [done|].
  pose proof (async_read_step n chunks ltac:(lia) Hok) as Hstep.
  destruct (async_read n chunks) as [got chunks']. destruct Hstep as (Hcat & Hok' & _ & _).
  rewrite Hcat, len_app in Hn. specialize (IH (n - len got) chunks' Hok' ltac:(lia)).
  destruct (async_read_exact fuel (n - len got) chunks') as [[?| |] ?]; done.
Qed.

(** ** Sending *)

Lemma fragment_header_pack h out :
  pack fragment_header_codec h out = (Ok 4, out ++ fragment_header_into_xdr_buf h).
Proof. reflexivity. Qed.

Lemma send_call_run {C} (msg : rpc_msg) (c : codec C) v hd bs :
  CodecOk c -> encodes rpc_msg_codec msg hd -> encodes c v bs -> len hd + len bs <= MASK ->
  send_call msg c v = Ret (Ok (fragment_bytes true (hd ++ bs))).
Proof.
  intros Hc Hm Hv Hl. unfold send_call.
  pose proof (codec_aligned (c := rpc_msg_codec) msg) as H4.
  pose proof (codec_aligned (c := c) v) as H4'.
  rewrite <- (enc_size _ _ _ Hm), <- (enc_size _ _ _ Hv) in *.
  rewrite (proj2 (Z.eqb_eq _ _)) by (Z.to_euclidean_division_equations; lia).
  pose proof (len_nonneg hd). pose proof (len_nonneg bs).
  rewrite (proj2 (Z.leb_le _ _)) by (unfold u32_MAX, MASK in *; lia).
  unfold fragment_bytes. rewrite len_app.
  destruct (fragment_header_new_spec (len hd + len bs) true) as (h & -> & _); [lia|].
  unfold sbind. rewrite fragment_header_pack, (enc_pack _ _ _ Hm), (enc_pack _ _ _ Hv).
  cbn [app]. rewrite <- (assoc_L (++)). autorewrite with len. unfold fragment_header_into_xdr_buf.
  rewrite len_to_be_bytes. rewrite (proj2 (Z.eqb_eq _ _)) by lia. done.
Qed.

(** ** Receiving *)

Lemma recv_reply_fragment {T} (c : codec T) fuel xid payload rest chunks :
  chunks_ok chunks -> concat chunks = fragment_bytes true payload ++ rest ->
  len payload <= MASK -> (length payload + 4 <= fuel)%nat ->
  exists chunks', recv_reply fuel c xid chunks = (parse_reply c xid payload, chunks') /\
    chunks_ok chunks' /\ concat chunks' = rest.
Proof.
  intros Hok Hc Hl Hf. unfold fragment_bytes in Hc.
  destruct (fragment_header_new_spec (len payload) true) as (h & Hh & Hu & He & Hlen).
  { pose proof (len_nonneg payload). lia. }
  rewrite Hh in Hc. rewrite <- (assoc_L (++)) in Hc. unfold recv_reply.
  assert (length (fragment_header_into_xdr_buf h) = 4%nat) as H4 by apply length_to_be_bytes.
  destruct (async_read_exact_ok fuel _ _ _ Hok Hc) as (c1 & Hr & Hok1 & Hc1); [lia|].
  unfold len in Hr. rewrite H4 in Hr. change (Z.of_nat 4) with 4 in Hr. rewrite Hr.
  rewrite fragment_header_from_buf, He, Hlen by done.
  destruct (async_read_exact_ok fuel _ _ _ Hok1 Hc1) as (c2 & -> & Hok2 & Hc2); [lia|].
  eauto.
Qed.

Lemma cursor_read_app {A} (c : codec A) a bs pre rest :
  encodes c a bs ->
  cursor_read (unpack c) (mkCursor (pre ++ bs ++ rest) (len pre)) =
  (Ok (a, packed_size c a), mkCursor (pre ++ bs ++ rest) (len pre + len bs)).
Proof.
  intros H. unfold cursor_read. rewrite cursor_rest_app, (enc_unpack _ _ _ H).
  cbn [cur_data cur_position]. f_equal. f_equal. autorewrite with len. lia.
Qed.

Lemma parse_reply_success {T} (c : codec T) xid v hd bs :
  encodes rpc_msg_codec (accepted xid data_SUCCESS) hd -> encodes c v bs ->
  parse_reply c xid (hd ++ bs) = Ret (Ok v).
Proof.
  intros Hh Hv. unfold parse_reply.
  pose proof (cursor_read_app _ _ _ [] bs Hh) as H1. cbn [app] in H1. rewrite len_nil in H1.
  rewrite H1. cbn [rpc_msg_xid accepted rpc_msg_body accepted_reply_reply_data].
  rewrite Z.eqb_refl. pose proof (cursor_read_app c v bs hd [] Hv) as H2.
  rewrite app_nil_r in H2. rewrite Z.add_0_l, H2. cbn [cur_position].
  rewrite len_app, Z.eqb_refl. done.
Qed.

(** The error the client reports for each reply the server can send. *)
Lemma parse_reply_error {T} (c : codec T) xid d e hd :
  encodes rpc_msg_codec (accepted xid d) hd -> rpc_error_try_from d = Ok e ->
  parse_reply c xid hd = Ret (Err (CeRpc e)).
Proof.
  intros Hh He. unfold parse_reply.
  pose proof (cursor_read_app _ _ _ [] [] Hh) as H1. cbn [app] in H1. rewrite app_nil_r, len_nil in H1.
  rewrite H1. cbn [rpc_msg_xid accepted rpc_msg_body accepted_reply_reply_data].
  rewrite Z.eqb_refl. destruct d; cbn in He; simplify_eq; done.
Qed.

Lemma parse_reply_denied {T} (c : codec T) xid r hd :
  encodes rpc_msg_codec (denied xid r) hd ->
  parse_reply c xid hd = Ret (Err (CeRpc (rpc_error_from_rejected r))).
Proof.
  intros Hh. unfold parse_reply.
  pose proof (cursor_read_app _ _ _ [] [] Hh) as H1. cbn [app] in H1. rewrite app_nil_r, len_nil in H1.
  rewrite H1. cbn [rpc_msg_xid denied rpc_msg_body]. by rewrite Z.eqb_refl.
Qed.

Lemma parse_reply_xid {T} (c : codec T) xid msg hd rest :
  encodes rpc_msg_codec msg hd -> rpc_msg_xid msg <> xid ->
  parse_reply c xid (hd ++ rest) = Ret (Err (CeRpc UnexpectedXid)).
Proof.
  intros Hh Hx. unfold parse_reply.
  pose proof (cursor_read_app _ _ _ [] rest Hh) as H1. cbn [app] in H1. rewrite len_nil in H1.
  rewrite H1. by rewrite (proj2 (Z.eqb_neq _ _)).
Qed.

(** ** Theorems *)

(** A remote call is transparent. Whatever a procedure [f] of the server
    computes from the arguments is what the client's call returns: the client's
    request is one message for the server's reader, its header and arguments are
    decoded to the ones that were sent, the procedure runs once on them, and the
    reply, cut into chunks in any way by the network, is decoded by the client
    to the procedure's result. *)
Theorem rpc_call_transparent {S C R} (cc : codec C) (cr : codec R) (f : u32 -> C -> prog S R)
  xid call v r s s' :
  CodecOk cc -> CodecOk cr -> in_u32 xid -> valid call_body_codec call ->
  valid cc v -> valid cr r ->
  packed_size rpc_msg_codec (mk_rpc_msg xid (body_CALL call)) + packed_size cc v <= MASK ->
  24 + packed_size cr r <= MASK ->
  f xid v s = (Ret r, s') ->
  exists sent payload m reply wire,
    send_call (mk_rpc_msg xid (body_CALL call)) cc v = Ret (Ok sent) /\
    socket_read_loop (2 + length sent) packed_rpc_message_new sent =
      (Ret ([payload], Some (RpcIo UnexpectedEof)), packed_rpc_message_new, []) /\
    incoming_try_from payload = Ok m /\ im_body m = call /\ im_xid m = xid /\
    handle cc cr f m s = (Ret (Ok (Reply reply)), s') /\
    write_fragment reply = Ret wire /\
    forall chunks fuel, chunks_ok chunks -> concat chunks = wire -> (length wire <= fuel)%nat ->
      recv_reply fuel cr xid chunks = (Ret (Ok r), []).
Proof.
  intros Hcc Hcr Hx Hcall Hv Hr Hsz Hrsz Hf.
  destruct (codec_encodes v Hv) as [bs Hbs]. destruct (codec_encodes r Hr) as [rbs Hrbs].
  destruct (incoming_call xid call bs Hx Hcall) as (hd & Hhd & Hcb & Him).
  rewrite <- (enc_size _ _ _ Hhd), <- (enc_size _ _ _ Hbs) in Hsz.
  assert (len rbs <= MASK - 24) as Hrl by (rewrite (enc_size _ _ _ Hrbs); lia).
  destruct (into_success_reply_run (mkIncoming xid call None (len hd)) cr r rbs Hx Hrbs)
    as (rh & Hrh & Hreply); [unfold isize_MAX, MASK in *; lia|].
  assert (len rh = 24) as Hrh24 by (rewrite (enc_size _ _ _ Hrh), accepted_size; done).
  assert (len (rh ++ rbs) <= MASK) as Hwl by (autorewrite with len; lia).
  destruct (proj1 (write_fragment_correct (rh ++ rbs) [])) as (wire & Hwire & _);
    [unfold MASK in *; lia|].
  exists (fragment_bytes true (hd ++ bs)), (hd ++ bs), (mkIncoming xid call (Some (hd ++ bs)) (len hd)),
    (rh ++ rbs), wire.
  split_and!; [by apply send_call_run|..].
  - cbn [Nat.add]. pose proof (socket_read_loop_message ([], hd ++ bs) []
      (Datatypes.S (length (fragment_bytes true (hd ++ bs)))) []) as Hloop.
    unfold message_wire, message_payload in Hloop. cbn [map fst snd concat app length Nat.add] in Hloop.
    rewrite app_nil_r in Hloop. unfold packed_rpc_message_new at 1. rewrite Hloop; [done|].
    split; [constructor|]. cbn. autorewrite with len. lia.
  - by rewrite Hcb in Him.
  - done.
  - done.
  - rewrite (handle_ok cc cr f xid call hd v bs s Hcr Hx Hbs), Hf. by rewrite Hreply.
  - done.
  - intros chunks fuel Hok Hcat Hfuel.
    assert (wire = fragment_bytes true (rh ++ rbs)) as Hw.
    { unfold write_fragment in Hwire. change (Z.shiftl 1 31) with (2 ^ 31) in Hwire.
      pose proof (len_nonneg (rh ++ rbs)). unfold MASK in Hwl.
      rewrite (proj2 (Z.ltb_lt _ _)), Z.mod_small in Hwire by lia.
      unfold fragment_bytes. destruct (fragment_header_new _ _); by simplify_eq. }
    destruct (recv_reply_fragment cr fuel xid (rh ++ rbs) [] chunks) as (cs & -> & Hokc & Hc);
      [done|by rewrite app_nil_r, Hcat|done| |].
    { pose proof (fragment_bytes_len true (rh ++ rbs) Hwl) as Hlen. rewrite <- Hw in Hlen.
      unfold len in Hlen. lia. }
    rewrite (parse_reply_success cr xid r rh rbs Hrh Hrbs).
    destruct cs as [|c cs]; [done|]. inversion Hokc; subst. by destruct c.
Qed.

(** The client tells the server's refusals apart. The accepted replies that
    carry an error and the denied replies are reported as the error they name,
    and a reply to another call as [UnexpectedXid]; none of them is mistaken for
    a result. *)
Theorem client_reports_errors {T} (c : codec T) xid m d e bs bs' msg hd rest :
  im_xid m = xid ->
  rpc_error_try_from d = Ok e -> into_error_reply m d = Ret (Ok (Reply bs)) ->
  into_rpc_mismatch m = Ret (Ok (Reply bs')) ->
  in_u32 xid -> valid accept_stat_data_codec d ->
  encodes rpc_msg_codec msg hd -> rpc_msg_xid msg <> xid ->
  parse_reply c xid bs = Ret (Err (CeRpc e)) /\
  parse_reply c xid bs' = Ret (Err (CeRpc RpcMismatch)) /\
  parse_reply c xid (hd ++ rest) = Ret (Err (CeRpc UnexpectedXid)).
Proof.
  intros <- He Hbs Hbs' Hx Hd Hh Hne. split_and!.
  - destruct (into_error_reply_run m d Hx Hd) as (b & Hb & Hrun). rewrite Hrun in Hbs. simplify_eq.
    by apply (parse_reply_error c _ d).
  - destruct (into_rpc_mismatch_run m Hx) as (b & Hb & Hrun). rewrite Hrun in Hbs'. simplify_eq.
    by apply (parse_reply_denied c (im_xid m) (rejected_RPC_MISMATCH 2 2)).
  - by eapply parse_reply_xid.
Qed.

(** The client hangs on a closed connection. When the server closes the
    connection before the four bytes of the reply header have arrived,
    [async_read_exact] keeps reading zero bytes, and [recv_reply] does not
    return however long it runs. *)
Theorem client_hangs_on_eof {T} (c : codec T) fuel xid chunks :
  chunks_ok chunks -> len (concat chunks) < 4 ->
  fst (recv_reply fuel c xid chunks) = OutOfFuel.
Proof.
  intros Hok Hl. unfold recv_reply.
  pose proof (async_read_exact_eof fuel 4 chunks Hok Hl) as H.
  destruct (async_read_exact fuel 4 chunks) as [o ?]. cbn in H. by subst.
Qed.

(** ** Witnesses *)

Lemma rpc_call_transparent_witness : exists sent payload m reply wire,
  send_call (mk_rpc_msg 7 (body_CALL demo_call)) u32_codec 41 = Ret (Ok sent) /\
  socket_read_loop (2 + length sent) packed_rpc_message_new sent =
    (Ret ([payload], Some (RpcIo UnexpectedEof)), packed_rpc_message_new, []) /\
  incoming_try_from payload = Ok m /\ im_body m = demo_call /\ im_xid m = 7 /\
  handle u32_codec u32_codec demo_handler m 1 = (Ret (Ok (Reply reply)), 42) /\
  write_fragment reply = Ret wire /\
  forall chunks fuel, chunks_ok chunks -> concat chunks = wire -> (length wire <= fuel)%nat ->
    recv_reply fuel u32_codec 7 chunks = (Ret (Ok 42), []).
Proof.
  apply (rpc_call_transparent u32_codec u32_codec demo_handler 7 demo_call 41 42 1 42);
    [apply _|apply _|unfold in_u32, u32_MAX; lia|apply demo_call_valid
    |cbn; unfold in_u32, u32_MAX; lia|cbn; unfold in_u32, u32_MAX; lia
    |by vm_compute|by vm_compute|reflexivity].
Defined.

Definition demo_incoming : IncomingRpcMessage := mkIncoming 7 demo_call None 0.

Lemma client_reports_errors_witness : exists bs,
  into_error_reply demo_incoming data_PROC_UNAVAIL = Ret (Ok (Reply bs)) /\
  parse_reply u32_codec 7 bs = Ret (Err (CeRpc ProcUnavail)).
Proof.
  destruct (into_error_reply_run demo_incoming data_PROC_UNAVAIL
    ltac:(cbn; unfold in_u32, u32_MAX; lia) I) as (bs & _ & Hbs).
  destruct (into_rpc_mismatch_run demo_incoming ltac:(cbn; unfold in_u32, u32_MAX; lia)) as (bs' & _ & Hbs').
  exists bs. split; [exact Hbs|].
  refine (proj1 (client_reports_errors u32_codec 7 demo_incoming data_PROC_UNAVAIL ProcUnavail bs bs'
    (accepted 8 data_SUCCESS) (to_bytes rpc_msg_codec (accepted 8 data_SUCCESS)) []
    eq_refl eq_refl Hbs Hbs' _ _ _ _)).
  - unfold in_u32, u32_MAX; lia.
  - exact I.
  - apply encodes_to_bytes; [apply _|]. apply accepted_valid; [unfold in_u32, u32_MAX; lia|exact I].
  - by vm_compute.
Defined.

Lemma client_hangs_on_eof_witness :
  fst (recv_reply 1000 u32_codec 7 [[x80; x00]]) = OutOfFuel.
Proof.
  apply (client_hangs_on_eof u32_codec 1000 7 [[x80; x00]]); [by repeat constructor|by vm_compute].
Defined.
