(* ===== verification/Handle.v ===== *)
(** * File handles: [nfs3_server::vfs::handle]

    [FileHandle] is the trait of the handles a file system uses, with the laws
    the server relies on in [FileHandleLaws]; [FileHandleU64] is the 8-byte
    handle.  [FileHandleConverter] prefixes a handle with the generation number
    of the running server, so that handles of earlier runs are told apart. *)

From S2P Require Import Prelude Xdr XdrLaws Nfs3Types.
Open Scope Z_scope.

(** ** The trait *)

Class FileHandle (H : Type) : Type := {
  fh_len : H -> Z;
  fh_as_bytes : H -> list byte;
  fh_from_bytes : list byte -> option H;
}.

Class FileHandleLaws (H : Type) `{!FileHandle H} : Prop := {
  fh_len_ok : forall h, fh_len h = len (fh_as_bytes h);
  fh_roundtrip : forall h, fh_from_bytes (fh_as_bytes h) = Some h;
  fh_canonical : forall bs h, fh_from_bytes bs = Some h -> fh_as_bytes h = bs;
}.

(** ** [FileHandleU64] *)

(** The byte order of the target ([true]: big endian). *)
Class Target : Type := target_big_endian : bool.

Definition to_ne_bytes `{Target} (n : nat) (z : Z) : list byte :=
  if target_big_endian then to_be_bytes n z else to_le_bytes n z.
Definition from_ne_bytes `{Target} (bs : list byte) : Z :=
  if target_big_endian then from_be_bytes bs else from_le_bytes bs.

(** [[u8; 8]]: a list of bytes with its length. *)
Record FileHandleU64 : Type := mkFileHandleU64 {
  fh64_id : list byte;
  fh64_len : bool_decide (length fh64_id = 8%nat) = true;
}.

Definition fh64_of_bytes (bs : list byte) : option FileHandleU64 :=
  match bool_decide (length bs = 8%nat) as b return bool_decide (length bs = 8%nat) = b -> _ with
  | true => fun H => Some (mkFileHandleU64 bs H)
  | false => fun _ => None
  end eq_refl.

Lemma to_ne_bytes_length `{Target} (z : u64) :
  bool_decide (length (to_ne_bytes 8 z) = 8%nat) = true.
Proof.
  apply bool_decide_eq_true_2. unfold to_ne_bytes.
  destruct target_big_endian; [apply length_to_be_bytes|apply length_to_le_bytes].
Qed.

Definition fh64_new `{Target} (id : u64) : FileHandleU64 :=
  mkFileHandleU64 (to_ne_bytes 8 id) (to_ne_bytes_length id).

Definition fh64_as_u64 `{Target} (h : FileHandleU64) : u64 := from_ne_bytes (fh64_id h).

#[export] Instance fh64_FileHandle : FileHandle FileHandleU64 := {|
  fh_len h := len (fh64_id h);
  fh_as_bytes := fh64_id;
  fh_from_bytes := fh64_of_bytes;
|}.

(** ** [FileHandleConverter] *)

Record FileHandleConverter : Type := mkConverter {
  generation_number : u64;
  generation_number_le : list byte;
}.

(** [new]: [millis] is the time since the epoch, truncated to 64 bits. *)
Definition converter_new (millis : Z) : FileHandleConverter :=
  let generation_number := millis mod 2 ^ 64 in
  mkConverter generation_number (to_le_bytes 8 generation_number).

Section converter.
Context {H : Type} `{!FileHandle H}.

Definition fh_to_nfs (c : FileHandleConverter) (id : H) : nfs_fh3 :=
  mk_nfs_fh3 (generation_number_le c ++ fh_as_bytes id).

Definition check_handle (c : FileHandleConverter) (id : nfs_fh3) : result unit nfsstat3 :=
  let data := nfs_fh3_data id in
  if len data <? 8 then Err NFS3ERR_BADHANDLE
  else if decide (take 8 data = generation_number_le c) then Ok tt
  else
    let id_gen := from_le_bytes (take 8 data) in
    if id_gen <? generation_number c then Err NFS3ERR_STALE
    else Err NFS3ERR_BADHANDLE.

Definition fh_from_nfs (c : FileHandleConverter) (id : nfs_fh3) : result H nfsstat3 :=
  match check_handle c id with
  | Err e => Err e
  | Ok _ => ok_or (fh_from_bytes (drop 8 (nfs_fh3_data id))) NFS3ERR_BADHANDLE
  end.
End converter.

Definition converter_verf (c : FileHandleConverter) : writeverf3 := generation_number_le c.

(** ** Laws *)

#[export] Instance bool_decide_pi (P : Prop) `{Decision P} : ProofIrrel (bool_decide P = true).
Proof. apply _. Qed.

Lemma fh64_eq h1 h2 : fh64_id h1 = fh64_id h2 -> h1 = h2.
Proof.
  destruct h1 as [b1 H1], h2 as [b2 H2]. cbn. intros ->. f_equal. apply proof_irrel.
Qed.

Lemma fh64_of_bytes_Some bs h : fh64_of_bytes bs = Some h <-> fh64_id h = bs.
Proof.
  unfold fh64_of_bytes.
  enough (forall b (E : bool_decide (length bs = 8%nat) = b),
    (match b as b return bool_decide (length bs = 8%nat) = b -> option FileHandleU64 with
     | true => fun H => Some (mkFileHandleU64 bs H)
     | false => fun _ => None
     end E = Some h) <-> fh64_id h = bs) by done.
  intros [|] E; split.
  - intros ?. by simplify_eq.
  - intros Hh. f_equal. by apply fh64_eq.
  - done.
  - intros <-. destruct h as [id Hid]. cbn in E. congruence.
Qed.

#[export] Instance fh64_laws : FileHandleLaws FileHandleU64.
Proof.
  constructor; [done| |].
  - intros h. by apply fh64_of_bytes_Some.
  - intros bs h. apply fh64_of_bytes_Some.
Qed.

#[export] Instance fh64_eq_dec : EqDecision FileHandleU64.
Proof.
  intros h1 h2. destruct (decide (fh64_id h1 = fh64_id h2)) as [E|E].
  - left. by apply fh64_eq.
  - right. by intros ->.
Defined.

Lemma from_to_ne_bytes `{Target} n z : from_ne_bytes (to_ne_bytes n z) = z mod 256 ^ Z.of_nat n.
Proof.
  unfold from_ne_bytes, to_ne_bytes.
  destruct target_big_endian; [apply from_to_be_bytes|apply from_to_le_bytes].
Qed.

Lemma to_from_ne_bytes `{Target} bs : to_ne_bytes (length bs) (from_ne_bytes bs) = bs.
Proof.
  unfold from_ne_bytes, to_ne_bytes.
  destruct target_big_endian; [apply to_from_be_bytes|apply to_from_le_bytes].
Qed.

Lemma fh64_new_as_u64 `{Target} id : in_u64 id -> fh64_as_u64 (fh64_new id) = id.
Proof.
  unfold in_u64, u64_MAX, fh64_as_u64, fh64_new. intros Hid. cbn [fh64_id].
  rewrite from_to_ne_bytes. apply Z.mod_small.
  change (256 ^ Z.of_nat 8) with 18446744073709551616. lia.
Qed.

Lemma fh64_as_u64_range `{Target} h : in_u64 (fh64_as_u64 h).
Proof.
  unfold fh64_as_u64, from_ne_bytes. destruct h as [id Hid]. cbn [fh64_id].
  apply bool_decide_eq_true_1 in Hid.
  assert (len id = 8) as Hl by (unfold len; lia).
  pose proof (from_be_bytes_range id) as Hb. pose proof (from_le_bytes_range id) as Hlr.
  rewrite Hl in *. change (256 ^ 8) with 18446744073709551616 in *.
  unfold in_u64, u64_MAX. destruct target_big_endian; lia.
Qed.

Lemma fh64_new_of `{Target} h : fh64_new (fh64_as_u64 h) = h.
Proof.
  apply fh64_eq. cbn [fh64_new fh64_id]. unfold fh64_as_u64.
  destruct h as [id Hid]. cbn [fh64_id].
  pose proof (bool_decide_eq_true_1 _ Hid) as Hl. rewrite <- Hl. apply to_from_ne_bytes.
Qed.

Lemma fh64_as_u64_inj `{Target} h1 h2 : fh64_as_u64 h1 = fh64_as_u64 h2 -> h1 = h2.
Proof. intros E. rewrite <- (fh64_new_of h1), <- (fh64_new_of h2). by rewrite E. Qed.

(** A converter built by [new]. *)
Definition converter_wf (c : FileHandleConverter) : Prop :=
  in_u64 (generation_number c) /\ generation_number_le c = to_le_bytes 8 (generation_number c).

Lemma converter_new_wf millis : converter_wf (converter_new millis).
Proof.
  split; [|done]. cbn. pose proof (Z.mod_pos_bound millis (2 ^ 64) eq_refl).
  unfold in_u64, u64_MAX. lia.
Qed.

Lemma converter_le_length c : converter_wf c -> length (generation_number_le c) = 8%nat.
Proof. intros [_ ->]. apply length_to_le_bytes. Qed.

Section converter_laws.
Context {H : Type} `{!FileHandle H, !FileHandleLaws H}.

Lemma check_handle_to_nfs c (h : H) : converter_wf c -> check_handle c (fh_to_nfs c h) = Ok tt.
Proof.
  intros Hc. pose proof (converter_le_length c Hc) as Hl.
  unfold check_handle, fh_to_nfs. cbn [nfs_fh3_data].
  rewrite len_app. pose proof (len_nonneg (fh_as_bytes h)).
  rewrite (proj2 (Z.ltb_ge _ _)) by (unfold len at 1; lia).
  rewrite <- Hl, take_app_length. by rewrite decide_True.
Qed.

Lemma fh_from_to_nfs c (h : H) : converter_wf c -> fh_from_nfs c (fh_to_nfs c h) = Ok h.
Proof.
  intros Hc. unfold fh_from_nfs. rewrite check_handle_to_nfs by done.
  unfold fh_to_nfs. cbn [nfs_fh3_data].
  rewrite <- (converter_le_length c Hc), drop_app_length, fh_roundtrip. done.
Qed.

Lemma check_handle_Ok c id :
  converter_wf c -> check_handle c id = Ok tt ->
  nfs_fh3_data id = generation_number_le c ++ drop 8 (nfs_fh3_data id).
Proof.
  intros Hc. unfold check_handle. case_match; [done|]. case_decide as Ht; [|by case_match].
  intros _. by rewrite <- Ht, take_drop.
Qed.

Lemma fh_from_nfs_Ok c id (h : H) :
  converter_wf c -> fh_from_nfs c id = Ok h -> id = fh_to_nfs c h.
Proof.
  intros Hc. unfold fh_from_nfs. destruct (check_handle c id) as [[]|] eqn:E; [|done].
  apply check_handle_Ok in E; [|done].
  destruct (fh_from_bytes _) as [h'|] eqn:Eb; [|done]. cbn. intros ?. simplify_eq.
  apply fh_canonical in Eb. unfold fh_to_nfs. rewrite Eb, <- E. by destruct id.
Qed.

(** ** Theorems *)

(** C36: Handles round trip through the wire, and only genuine ones are
    accepted. A handle the server hands out decodes to itself and is eight bytes
    longer than the file system's; whatever decodes is exactly what the server
    hands out for the decoded handle. *)
Theorem handle_roundtrip_exact c (h : H) id :
  converter_wf c ->
  fh_from_nfs c (fh_to_nfs c h) = Ok h /\
  len (nfs_fh3_data (fh_to_nfs c h)) = 8 + fh_len h /\
  (fh_from_nfs c id = Ok h <-> id = fh_to_nfs c h).
Proof.
  intros Hc. split_and!.
  - by apply fh_from_to_nfs.
  - unfold fh_to_nfs. cbn [nfs_fh3_data]. rewrite len_app, fh_len_ok.
    unfold len at 1. rewrite (converter_le_length c Hc). lia.
  - split; [by apply fh_from_nfs_Ok|intros ->; by apply fh_from_to_nfs].
Qed.

(** How the server refuses a handle. One with the generation number of an
    earlier run is [NFS3ERR_STALE]; one that is too short, comes from a later
    generation, or has the right generation but no handle of the file system in
    it is [NFS3ERR_BADHANDLE]. *)
Theorem handle_refused_correct c id :
  converter_wf c ->
  let gen := from_le_bytes (take 8 (nfs_fh3_data id)) in
  match fh_from_nfs (H := H) c id with
  | Ok h => 8 <= len (nfs_fh3_data id) /\ gen = generation_number c
  | Err e =>
      (8 <= len (nfs_fh3_data id) /\ gen < generation_number c /\ e = NFS3ERR_STALE) \/
      (e = NFS3ERR_BADHANDLE /\
       (len (nfs_fh3_data id) < 8 \/ generation_number c < gen \/
        (gen = generation_number c /\ fh_from_bytes (drop 8 (nfs_fh3_data id)) = None)))
  end.
Proof.
  intros [Hu Hle] gen. unfold fh_from_nfs, check_handle.
  destruct (Z.ltb_spec (len (nfs_fh3_data id)) 8) as [Hs|Hs]; [right; auto|].
  assert (from_le_bytes (generation_number_le c) = generation_number c) as Hg.
  { rewrite Hle, from_to_le_bytes. apply Z.mod_small.
    change (256 ^ Z.of_nat 8) with 18446744073709551616. unfold in_u64, u64_MAX in Hu. lia. }
  case_decide as Ht.
  - assert (gen = generation_number c) as Hgen by (unfold gen; by rewrite Ht).
    destruct (fh_from_bytes _) as [h|] eqn:E; cbn; [done|]. right. auto.
  - assert (gen <> generation_number c) as Hne.
    { intros Heq. apply Ht. rewrite Hle, <- Heq. unfold gen.
      assert (length (take 8 (nfs_fh3_data id)) = 8%nat) as Hl8.
      { rewrite length_take. unfold len in Hs. lia. }
      rewrite <- Hl8 at 2. symmetry. apply to_from_le_bytes. }
    fold gen. destruct (Z.ltb_spec gen (generation_number c)); [left; auto|].
    right. split; [done|]. right. left. lia.
Qed.
End converter_laws.

(** The 64-bit ids of a file system and the handles made of them are in
    bijection, whatever the byte order of the host. *)
Theorem handle_u64_bijection `{Target} id h :
  in_u64 id ->
  fh64_as_u64 (fh64_new id) = id /\ fh64_new (fh64_as_u64 h) = h /\ in_u64 (fh64_as_u64 h) /\
  fh_len (fh64_new id) = 8.
Proof.
  intros Hid. split_and!; [by apply fh64_new_as_u64|apply fh64_new_of|apply fh64_as_u64_range|].
  cbn [fh_len fh64_FileHandle fh64_new fh64_id]. unfold len.
  by rewrite (bool_decide_eq_true_1 _ (to_ne_bytes_length id)).
Qed.

(** ** Witnesses *)

Definition demo_target : Target := false.

Lemma handle_roundtrip_exact_witness :
  fh_from_nfs (converter_new 1700000000000)
    (fh_to_nfs (converter_new 1700000000000) (@fh64_new demo_target 42)) =
  Ok (@fh64_new demo_target 42).
Proof.
  exact (proj1 (handle_roundtrip_exact (converter_new 1700000000000) (@fh64_new demo_target 42)
    (mk_nfs_fh3 []) (converter_new_wf 1700000000000))).
Defined.

Definition demo_fh := mk_nfs_fh3 (to_le_bytes 8 1600000000000 ++ to_le_bytes 8 42).

Lemma handle_refused_correct_witness :
  fh_from_nfs (H := FileHandleU64) (converter_new 1700000000000) demo_fh = Err NFS3ERR_STALE /\
  (let gen := from_le_bytes (take 8 (nfs_fh3_data demo_fh)) in
  match fh_from_nfs (H := FileHandleU64) (converter_new 1700000000000) demo_fh with
  | Ok h => 8 <= len (nfs_fh3_data demo_fh) /\ gen = generation_number (converter_new 1700000000000)
  | Err e =>
      (8 <= len (nfs_fh3_data demo_fh) /\ gen < generation_number (converter_new 1700000000000) /\
       e = NFS3ERR_STALE) \/
      (e = NFS3ERR_BADHANDLE /\
       (len (nfs_fh3_data demo_fh) < 8 \/ generation_number (converter_new 1700000000000) < gen \/
        (gen = generation_number (converter_new 1700000000000) /\
         fh_from_bytes (H := FileHandleU64) (drop 8 (nfs_fh3_data demo_fh)) = None)))
  end).
Proof.
  split; [reflexivity|].
  exact (handle_refused_correct (H := FileHandleU64) (converter_new 1700000000000) demo_fh
    (converter_new_wf 1700000000000)).
Defined.

Lemma handle_u64_bijection_witness : @fh64_as_u64 demo_target (@fh64_new demo_target 42) = 42.
Proof.
  exact (proj1 (@handle_u64_bijection demo_target 42 (@fh64_new demo_target 1)
    ltac:(unfold in_u64, u64_MAX; lia))).
Defined.
