(* ===== verification/Vfs.v ===== *)
(** * The file system interface: [nfs3_server::vfs]

    [NfsReadFileSystem] and [NfsFileSystem] are the traits a file system
    implements, as type classes over its state [V]: a method is a computation
    that may change the state (the file systems use interior mutability, so even
    [getattr] may) and may panic.  Nothing is assumed about the methods; a
    computation may therefore also account for what other tasks do to the file
    system while the caller awaits it.  The default methods, the directory
    iterators and the adapters of [vfs::adapters] follow. *)

From S2P Require Import Prelude Xdr XdrLaws Nfs3Types Handle.
Open Scope Z_scope.
Open Scope nfs_scope.

(** ** Directory entries and iterators: [iterator.rs] *)

(** Same as [entry3]. *)
Abbreviation DirEntry := entry3 (only parsing).

Record DirEntryPlus (H : Type) : Type := mkDirEntryPlus {
  dep_fileid : fileid3;
  dep_name : filename3;
  dep_cookie : cookie3;
  dep_name_attributes : option fattr3;
  dep_name_handle : option H;
}.
Arguments mkDirEntryPlus {H} _ _ _ _ _.
Arguments dep_fileid {H} _.
Arguments dep_name {H} _.
Arguments dep_cookie {H} _.
Arguments dep_name_attributes {H} _.
Arguments dep_name_handle {H} _.

Definition into_entry {H} `{!FileHandle H} (converter : FileHandleConverter) (e : DirEntryPlus H)
  : entryplus3 :=
  mk_entryplus3 (dep_fileid e) (dep_name e) (dep_cookie e) (dep_name_attributes e)
    (option_map (fh_to_nfs converter) (dep_name_handle e)).

Inductive NextResult (T : Type) : Type :=
| NextOk (entry : T)
| NextEof
| NextErr (stat : nfsstat3).
Arguments NextOk {T} entry.
Arguments NextEof {T}.
Arguments NextErr {T} stat.

(** An iterator type over the state [V]; [it_drop] is its [Drop]. *)
Record Iterator (V T : Type) : Type := mkIterator {
  it_state : Type;
  it_next : it_state -> prog V (NextResult T * it_state);
  it_drop : it_state -> prog V unit;
}.
Arguments mkIterator {V T} _ _ _.
Arguments it_state {V T} _.
Arguments it_next {V T} _ _.
Arguments it_drop {V T} _ _.

(** An iterator that changes what another one yields. *)
Definition map_iterator {V T U} (f : T -> U) (it : Iterator V T) : Iterator V U := {|
  it_state := it_state it;
  it_next s :=
    do* (r, s) := it_next it s in
    pret (match r with
          | NextOk e => NextOk (f e)
          | NextEof => NextEof
          | NextErr stat => NextErr stat
          end, s);
  it_drop := it_drop it;
|}.

(** ** The traits: [mod.rs] *)

Inductive VFSCapabilities : Type := ReadOnly | ReadWrite.

Abbreviation vfs_method V A := (prog V (result A nfsstat3)).

Class NfsReadFileSystem (V H : Type) : Type := {
  readdir_iter : Iterator V DirEntry;
  readdirplus_iter : Iterator V (DirEntryPlus H);
  vfs_root_dir : prog V H;
  vfs_lookup : H -> filename3 -> vfs_method V H;
  vfs_lookup_by_path : list byte -> vfs_method V H;
  vfs_getattr : H -> vfs_method V fattr3;
  vfs_read : H -> u64 -> u32 -> vfs_method V (list byte * bool);
  vfs_readdir : H -> u64 -> vfs_method V (it_state readdir_iter);
  vfs_readdirplus : H -> u64 -> vfs_method V (it_state readdirplus_iter);
  vfs_readlink : H -> vfs_method V nfspath3;
  vfs_fsinfo : H -> vfs_method V FSINFO3resok;
}.

Class NfsFileSystem (V H : Type) : Type := {
  nfs_read_fs :: NfsReadFileSystem V H;
  vfs_capabilities : prog V VFSCapabilities;
  vfs_setattr : H -> sattr3 -> vfs_method V fattr3;
  vfs_write : H -> u64 -> list byte -> vfs_method V fattr3;
  vfs_create : H -> filename3 -> sattr3 -> vfs_method V (H * fattr3);
  vfs_create_exclusive : H -> filename3 -> createverf3 -> vfs_method V H;
  vfs_mkdir : H -> filename3 -> vfs_method V (H * fattr3);
  vfs_remove : H -> filename3 -> vfs_method V unit;
  vfs_rename : H -> filename3 -> H -> filename3 -> vfs_method V unit;
  vfs_symlink : H -> filename3 -> nfspath3 -> sattr3 -> vfs_method V (H * fattr3);
}.

(** ** Default methods *)

(** [str::split('/')] on the bytes of a string: the parts between the
    separators, one more than there are. *)
Fixpoint split_slash (path : list byte) : list (list byte) :=
  match path with
  | [] => [[]]
  | b :: rest =>
      if decide (b = x2f) then [] :: split_slash rest
      else match split_slash rest with
           | part :: parts => (b :: part) :: parts
           | [] => [[b]]
           end
  end.

Section defaults.
Context {V H : Type}.

Fixpoint lookup_components (lookup : H -> filename3 -> vfs_method V H)
  (components : list (list byte)) (fid : H) : vfs_method V H :=
  match components with
  | [] => pret (Ok fid)
  | component :: rest =>
      match component with
      | [] => lookup_components lookup rest fid
      | _ =>
          do* r := lookup fid component in
          match r with
          | Ok fid => lookup_components lookup rest fid
          | Err e => pret (Err e)
          end
      end
  end.

(** [lookup_by_path]. *)
Definition lookup_by_path_default (root_dir : prog V H) (lookup : H -> filename3 -> vfs_method V H)
  (path : list byte) : vfs_method V H :=
  do* fid := root_dir in
  lookup_components lookup (split_slash path) fid.

(** [readdir] in terms of [readdirplus]: [ReadDirPlusToReadDir]. *)
Definition plus_to_entry (e : DirEntryPlus H) : DirEntry :=
  mk_entry3 (dep_fileid e) (dep_name e) (dep_cookie e).

Definition ReadDirPlusToReadDir (it : Iterator V (DirEntryPlus H)) : Iterator V DirEntry :=
  map_iterator plus_to_entry it.

Definition readdir_default (it : Iterator V (DirEntryPlus H))
  (readdirplus : H -> u64 -> vfs_method V (it_state it)) (dirid : H) (cookie : u64)
  : vfs_method V (it_state (ReadDirPlusToReadDir it)) :=
  readdirplus dirid cookie.

Definition KIBIBYTE : u32 := 1024.
Definition MEBIBYTE : u32 := 1024 * 1024.
Definition GIBIBYTE : u64 := 1024 * 1024 * 1024.
Definition TEBIBYTE : u64 := 1024 * 1024 * 1024 * 1024.

(** [Result::map_or(Nfs3Option::None, Nfs3Option::Some)]. *)
Definition nfs_option_from_result {T E} (r : result T E) : option T :=
  match r with Ok t => Some t | Err _ => None end.

Definition fsinfo_default (getattr : H -> vfs_method V fattr3) (root_fileid : H)
  : vfs_method V FSINFO3resok :=
  do* attr := getattr root_fileid in
  let dir_attr := nfs_option_from_result attr in
  pret (Ok (mk_FSINFO3resok dir_attr MEBIBYTE MEBIBYTE MEBIBYTE MEBIBYTE MEBIBYTE MEBIBYTE MEBIBYTE
    (128 * GIBIBYTE) (mk_nfstime3 0 1000000)
    (Z.lor (Z.lor FSF3_SYMLINK FSF3_HOMOGENEOUS) FSF3_CANSETTIME))).
End defaults.

(** ** [ReadOnlyAdapter]: [adapters/mod.rs] *)

(** [attr.mode &= 0o555]. *)
Definition remove_write_permissions (attr : fattr3) : fattr3 :=
  mk_fattr3 (fattr3_type attr) (Z.land (fattr3_mode attr) 365) (fattr3_nlink attr) (fattr3_uid attr)
    (fattr3_gid attr) (fattr3_size attr) (fattr3_used attr) (fattr3_rdev attr) (fattr3_fsid attr)
    (fattr3_fileid attr) (fattr3_atime attr) (fattr3_mtime attr) (fattr3_ctime attr).

Section read_only.
Context {V H : Type} (inner : NfsReadFileSystem V H).

Definition ro_entry (e : DirEntryPlus H) : DirEntryPlus H :=
  mkDirEntryPlus (dep_fileid e) (dep_name e) (dep_cookie e)
    (option_map remove_write_permissions (dep_name_attributes e)) (dep_name_handle e).

(** [ReadOnlyIterator]. *)
Definition ReadOnlyIterator : Iterator V (DirEntryPlus H) := map_iterator ro_entry readdirplus_iter.

Definition ro_getattr (id : H) : vfs_method V fattr3 :=
  do* r := vfs_getattr id in pret (result_map remove_write_permissions r).

(** The adapter implements the required methods; [lookup_by_path] and [fsinfo]
    are the trait's default ones. *)
Definition read_only_read_fs : NfsReadFileSystem V H := {|
  readdir_iter := readdir_iter;
  readdirplus_iter := ReadOnlyIterator;
  vfs_root_dir := vfs_root_dir;
  vfs_lookup := vfs_lookup;
  vfs_lookup_by_path := lookup_by_path_default vfs_root_dir vfs_lookup;
  vfs_getattr := ro_getattr;
  vfs_read := vfs_read;
  vfs_readdir := vfs_readdir;
  vfs_readdirplus := vfs_readdirplus;
  vfs_readlink := vfs_readlink;
  vfs_fsinfo := fsinfo_default ro_getattr;
|}.

Definition rofs {A} : vfs_method V A := pret (Err NFS3ERR_ROFS).

Definition ReadOnlyAdapter : NfsFileSystem V H := {|
  nfs_read_fs := read_only_read_fs;
  vfs_capabilities := pret ReadOnly;
  vfs_setattr _ _ := rofs;
  vfs_write _ _ _ := rofs;
  vfs_create _ _ _ := rofs;
  vfs_create_exclusive _ _ _ := rofs;
  vfs_mkdir _ _ := rofs;
  vfs_remove _ _ := rofs;
  vfs_rename _ _ _ _ := rofs;
  vfs_symlink _ _ _ _ := rofs;
|}.
End read_only.

(** ** Laws *)

