(* ===== verification/NfsHandlers.v ===== *)
(** * The NFSv3 procedures: [nfs3_server::nfs_handlers]

    Each [nfsproc3_*] function of [nfs_handlers.rs] over an arbitrary file system,
    and the dispatcher [handle_nfs].  Results are [NfsOk] and [NfsErr]; the
    [unwrap] and [expect] calls that can fail are panics. *)

From S2P Require Import Prelude Xdr XdrLaws Nfs3Types RpcTypes RpcWire Handle Vfs NfsExt.
Open Scope Z_scope.
Open Scope nfs_scope.

Section handlers.
Context {V H : Type} `{!FileHandle H} (fs : NfsFileSystem V H) (fhc : FileHandleConverter).

(** The macro [fh_to_id!]. *)
Definition fh_to_id {A E} (fh : nfs_fh3) (dflt : E) (k : H -> prog V (Nfs3Result A E))
  : prog V (Nfs3Result A E) :=
  match fh_from_nfs fhc fh with
  | Ok id => k id
  | Err stat => pret (NfsErr stat dflt)
  end.

Definition get_wcc_attr (object_id : H) : vfs_method V wcc_attr :=
  do* r := vfs_getattr object_id in
  pret (result_map (fun v => mk_wcc_attr (fattr3_size v) (fattr3_mtime v) (fattr3_ctime v)) r).

(** [nfs_option_from_result(context.vfs.getattr(&id).await)]. *)
Definition getattr_opt (id : H) : prog V post_op_attr :=
  do* r := vfs_getattr id in pret (nfs_option_from_result r).

(** [WccData::default()]. *)
Definition wcc_data_default : wcc_data := mk_wcc_data None None.

(** The guard the writing procedures start with. *)
Definition require_write {A E} (dflt : E) (k : prog V (Nfs3Result A E)) : prog V (Nfs3Result A E) :=
  do* cap := vfs_capabilities in
  match cap with
  | ReadWrite => k
  | ReadOnly => pret (NfsErr NFS3ERR_ROFS dflt)
  end.

Definition nfsproc3_null (xid : u32) (_ : unit) : prog V unit := pret tt.

Definition nfsproc3_getattr (xid : u32) (getattr3args : GETATTR3args) : prog V GETATTR3res :=
  fh_to_id (GETATTR3args_object getattr3args) tt (fun id =>
  do* r := vfs_getattr id in
  match r with
  | Ok obj_attributes => pret (NfsOk (mk_GETATTR3resok obj_attributes))
  | Err stat => pret (NfsErr stat tt)
  end).

Definition nfsproc3_lookup (xid : u32) (lookup3args : LOOKUP3args) : prog V LOOKUP3res :=
  let dirops := LOOKUP3args_what lookup3args in
  fh_to_id (diropargs3_dir dirops) (mk_LOOKUP3resfail None) (fun dirid =>
  do* dir_attributes := getattr_opt dirid in
  do* r := vfs_lookup dirid (diropargs3_name dirops) in
  match r with
  | Ok fid =>
      do* obj_attributes := getattr_opt fid in
      pret (NfsOk (mk_LOOKUP3resok (fh_to_nfs fhc fid) obj_attributes dir_attributes))
  | Err stat => pret (NfsErr stat (mk_LOOKUP3resfail dir_attributes))
  end).

Definition nfsproc3_read (xid : u32) (read3args : READ3args) : prog V READ3res :=
  fh_to_id (READ3args_file read3args) (mk_READ3resfail None) (fun id =>
  do* file_attributes := getattr_opt id in
  do* r := vfs_read id (READ3args_offset read3args) (READ3args_count read3args) in
  match r with
  | Ok (bytes, eof) =>
      if len bytes <=? u32_MAX
      then pret (NfsOk (mk_READ3resok file_attributes (len bytes) eof bytes))
      else ppanic
  | Err stat => pret (NfsErr stat (mk_READ3resfail file_attributes))
  end).

Definition nfsproc3_fsinfo (xid : u32) (args : FSINFO3args) : prog V FSINFO3res :=
  fh_to_id (FSINFO3args_fsroot args) (mk_FSINFO3resfail None) (fun id =>
  do* r := vfs_fsinfo id in
  match r with
  | Ok fsinfo => pret (NfsOk fsinfo)
  | Err stat => pret (NfsErr stat (mk_FSINFO3resfail None))
  end).

Definition nfsproc3_access (xid : u32) (args : ACCESS3args) : prog V ACCESS3res :=
  let access := ACCESS3args_access args in
  fh_to_id (ACCESS3args_object args) (mk_ACCESS3resfail None) (fun id =>
  do* obj_attributes := getattr_opt id in
  do* cap := vfs_capabilities in
  let access := match cap with
                | ReadWrite => access
                | ReadOnly => Z.land access (Z.lor ACCESS3_READ ACCESS3_LOOKUP)
                end in
  pret (NfsOk (mk_ACCESS3resok obj_attributes access))).

Definition nfsproc3_pathconf (xid : u32) (args : PATHCONF3args) : prog V PATHCONF3res :=
  fh_to_id (PATHCONF3args_object args) (mk_PATHCONF3resfail None) (fun id =>
  do* obj_attr := getattr_opt id in
  pret (NfsOk (mk_PATHCONF3resok obj_attr 0 32768 true true false true))).

Definition nfsproc3_fsstat (xid : u32) (args : FSSTAT3args) : prog V FSSTAT3res :=
  fh_to_id (FSSTAT3args_fsroot args) (mk_FSSTAT3resfail None) (fun id =>
  do* obj_attr := getattr_opt id in
  pret (NfsOk (mk_FSSTAT3resok obj_attr TEBIBYTE TEBIBYTE TEBIBYTE GIBIBYTE GIBIBYTE GIBIBYTE u32_MAX))).

(** The loop of the two directory handlers: pull entries until one does not fit
    ([false]), the directory ends ([true]) or fails.  [fuel] iterations. *)
Fixpoint fill_loop {T L} (it : Iterator V T) (try_push : T -> L -> bool * L) (fuel : nat)
  (iter : it_state it) (entries : L) : prog V (result (L * bool) nfsstat3 * it_state it) :=
  match fuel with
  | O => fun v => (OutOfFuel, v)
  | S fuel' =>
      do* (next, iter) := it_next it iter in
      match next with
      | NextOk entry =>
          let '(pushed, entries) := try_push entry entries in
          if pushed then fill_loop it try_push fuel' iter entries
          else pret (Ok (entries, false), iter)
      | NextEof => pret (Ok (entries, true), iter)
      | NextErr stat => pret (Err stat, iter)
      end
  end.

(** Every entry takes at least 24 bytes of the bound ([fill_loop_run]). *)
Definition fill_fuel (max_bytes : Z) : nat := S (S (Z.to_nat (max_bytes / 24))).

Definition plus_try_push (entry : DirEntryPlus H) (l : BoundedEntryPlusList) : bool * BoundedEntryPlusList :=
  let entry := into_entry fhc entry in
  let '(r, l) := bounded_entry_plus_list_try_push entry l in (is_ok r, l).

Definition nfsproc3_readdirplus (xid : u32) (args : READDIRPLUS3args) : prog V READDIRPLUS3res :=
  fh_to_id (READDIRPLUS3args_dir args) (mk_READDIRPLUS3resfail None) (fun dirid =>
  do* dir_attr_maybe := vfs_getattr dirid in
  let dir_attributes := nfs_option_from_result dir_attr_maybe in
  let dirversion := cookieverf_from_attr dir_attributes in
  let fail stat := pret (NfsErr stat (mk_READDIRPLUS3resfail dir_attributes)) in
  if READDIRPLUS3args_maxcount args <? 128 then fail NFS3ERR_TOOSMALL
  else
    let max_bytes_allowed := READDIRPLUS3args_maxcount args - 128 in
    do* iter := vfs_readdirplus dirid (READDIRPLUS3args_cookie args) in
    match iter with
    | Err stat => fail stat
    | Ok iter =>
        let entries := bounded_entry_plus_list_new (READDIRPLUS3args_dircount args) max_bytes_allowed in
        do* (r, iter) := fill_loop readdirplus_iter plus_try_push
                           (fill_fuel max_bytes_allowed) iter entries in
        do* _ := it_drop readdirplus_iter iter in
        match r with
        | Err stat => fail stat
        | Ok (entries, eof) =>
            let entries := bounded_entry_plus_list_into_inner entries in
            if bool_decide (entries = []) && negb eof then fail NFS3ERR_TOOSMALL
            else pret (NfsOk (mk_READDIRPLUS3resok dir_attributes dirversion
                                (mk_dirlistplus3 entries eof)))
        end
    end).

Definition entry_try_push (entry : DirEntry) (l : BoundedList entry3) : bool * BoundedList entry3 :=
  let '(r, l) := bounded_list_try_push entry3_codec entry l in (is_ok r, l).

Definition nfsproc3_readdir (xid : u32) (readdir3args : READDIR3args) : prog V READDIR3res :=
  fh_to_id (READDIR3args_dir readdir3args) (mk_READDIR3resfail None) (fun dirid =>
  do* dir_attr_maybe := vfs_getattr dirid in
  let dir_attributes := nfs_option_from_result dir_attr_maybe in
  let cookieverf := cookieverf_from_attr dir_attributes in
  let bad_cookie :=
    if cookieverf_is_none (READDIR3args_cookieverf readdir3args)
    then negb (READDIR3args_cookie readdir3args =? 0)
    else negb (bool_decide (READDIR3args_cookieverf readdir3args = cookieverf)) in
  if bad_cookie then pret (NfsErr NFS3ERR_BAD_COOKIE (mk_READDIR3resfail None))
  else
    let fail stat := pret (NfsErr stat (mk_READDIR3resfail dir_attributes)) in
    let resok := mk_READDIR3resok dir_attributes cookieverf (mk_dirlist3 [] false) in
    let empty_len := packed_size u32_codec xid + packed_size READDIR3resok_codec resok in
    if READDIR3args_count readdir3args <? empty_len then fail NFS3ERR_TOOSMALL
    else
      let max_bytes_allowed := READDIR3args_count readdir3args - empty_len in
      do* iter := vfs_readdir dirid (READDIR3args_cookie readdir3args) in
      match iter with
      | Err stat => fail stat
      | Ok iter =>
          let entries := bounded_list_new entry3_codec max_bytes_allowed in
          do* (r, iter) := fill_loop readdir_iter entry_try_push
                             (fill_fuel max_bytes_allowed) iter entries in
          do* _ := it_drop readdir_iter iter in
          match r with
          | Err stat => fail stat
          | Ok (entries, eof) =>
              let entries := bounded_list_into_inner entries in
              if bool_decide (entries = []) && negb eof then fail NFS3ERR_TOOSMALL
              else pret (NfsOk (mk_READDIR3resok dir_attributes cookieverf (mk_dirlist3 entries eof)))
          end
      end).

Definition nfsproc3_write (xid : u32) (write3args : WRITE3args) : prog V WRITE3res :=
  let default := mk_WRITE3resfail wcc_data_default in
  require_write default (
  if negb (len (WRITE3args_data write3args) =? WRITE3args_count write3args)
  then pret (NfsErr NFS3ERR_INVAL default)
  else
    fh_to_id (WRITE3args_file write3args) default (fun id =>
    do* before := get_wcc_attr id in
    let before := nfs_option_from_result before in
    do* r := vfs_write id (WRITE3args_offset write3args) (WRITE3args_data write3args) in
    match r with
    | Ok fattr =>
        pret (NfsOk (mk_WRITE3resok (mk_wcc_data before (Some fattr)) (WRITE3args_count write3args)
                       FILE_SYNC (converter_verf fhc)))
    | Err stat => pret (NfsErr stat (mk_WRITE3resfail (mk_wcc_data before None)))
    end)).

(** [createhow3::GUARDED(_)] and an existing name. *)
Definition guarded_exists (how : createhow3) (dirid : H) (name : filename3) : prog V bool :=
  match how with
  | GUARDED _ => do* r := vfs_lookup dirid name in pret (is_ok r)
  | _ => pret false
  end.

Definition nfsproc3_create (xid : u32) (args : CREATE3args) : prog V CREATE3res :=
  let default := mk_CREATE3resfail wcc_data_default in
  require_write default (
  let dirops := CREATE3args_where_ args in
  let createhow := CREATE3args_how args in
  fh_to_id (diropargs3_dir dirops) default (fun dirid =>
  do* before := get_wcc_attr dirid in
  match before with
  | Err stat => pret (NfsErr stat default)
  | Ok wccattr =>
      let before := Some wccattr in
      do* exists_ := guarded_exists createhow dirid (diropargs3_name dirops) in
      if exists_ then
        do* after := getattr_opt dirid in
        pret (NfsErr NFS3ERR_EXIST (mk_CREATE3resfail (mk_wcc_data before after)))
      else
        do* (fid, postopattr) :=
          match createhow with
          | EXCLUSIVE verf =>
              do* fid := vfs_create_exclusive dirid (diropargs3_name dirops) verf in
              pret (fid, None)
          | UNCHECKED target_attributes | GUARDED target_attributes =>
              do* r := vfs_create dirid (diropargs3_name dirops) target_attributes in
              pret (match r with
                    | Ok (fid, fattr) => (Ok fid, Some fattr)
                    | Err e => (Err e, None)
                    end)
          end in
        do* after := getattr_opt dirid in
        let dir_wcc := mk_wcc_data before after in
        match fid with
        | Ok fid => pret (NfsOk (mk_CREATE3resok (Some (fh_to_nfs fhc fid)) postopattr dir_wcc))
        | Err stat => pret (NfsErr stat (mk_CREATE3resfail dir_wcc))
        end
  end)).

Definition nfsproc3_setattr (xid : u32) (args : SETATTR3args) : prog V SETATTR3res :=
  let default := mk_SETATTR3resfail wcc_data_default in
  require_write default (
  fh_to_id (SETATTR3args_object args) default (fun id =>
  do* before := get_wcc_attr id in
  match before with
  | Err stat => pret (NfsErr stat default)
  | Ok wccattr =>
      let ctime := wcc_attr_ctime wccattr in
      let before := Some wccattr in
      let mismatch := match SETATTR3args_guard args with
                      | Some guard => negb (bool_decide (guard = ctime))
                      | None => false
                      end in
      if mismatch
      then pret (NfsErr NFS3ERR_NOT_SYNC (mk_SETATTR3resfail (mk_wcc_data before None)))
      else
        do* r := vfs_setattr id (SETATTR3args_new_attributes args) in
        match r with
        | Ok attr => pret (NfsOk (mk_SETATTR3resok (mk_wcc_data before (Some attr))))
        | Err stat => pret (NfsErr stat (mk_SETATTR3resfail (mk_wcc_data before None)))
        end
  end)).

Definition nfsproc3_remove (xid : u32) (args : REMOVE3args) : prog V REMOVE3res :=
  let default := mk_REMOVE3resfail wcc_data_default in
  require_write default (
  fh_to_id (diropargs3_dir (REMOVE3args_object args)) default (fun dirid =>
  do* before := get_wcc_attr dirid in
  match before with
  | Err stat => pret (NfsErr stat default)
  | Ok v =>
      let before := Some v in
      do* r := vfs_remove dirid (diropargs3_name (REMOVE3args_object args)) in
      do* after := getattr_opt dirid in
      match r with
      | Ok _ => pret (NfsOk (mk_REMOVE3resok (mk_wcc_data before after)))
      | Err stat => pret (NfsErr stat (mk_REMOVE3resfail (mk_wcc_data before after)))
      end
  end)).

Definition nfsproc3_rename (xid : u32) (args : RENAME3args) : prog V RENAME3res :=
  let default := mk_RENAME3resfail wcc_data_default wcc_data_default in
  require_write default (
  fh_to_id (diropargs3_dir (RENAME3args_from args)) default (fun from_dirid =>
  fh_to_id (diropargs3_dir (RENAME3args_to args)) default (fun to_dirid =>
  do* pre_from := get_wcc_attr from_dirid in
  match pre_from with
  | Err stat => pret (NfsErr stat default)
  | Ok pre_from_dir_attr =>
      do* pre_to := get_wcc_attr to_dirid in
      match pre_to with
      | Err stat => pret (NfsErr stat default)
      | Ok pre_to_dir_attr =>
          do* result := vfs_rename from_dirid (diropargs3_name (RENAME3args_from args))
                          to_dirid (diropargs3_name (RENAME3args_to args)) in
          do* post_from_dir_attr := getattr_opt from_dirid in
          do* post_to_dir_attr := getattr_opt to_dirid in
          let fromdir_wcc := mk_wcc_data (Some pre_from_dir_attr) post_from_dir_attr in
          let todir_wcc := mk_wcc_data (Some pre_to_dir_attr) post_to_dir_attr in
          match result with
          | Ok _ => pret (NfsOk (mk_RENAME3resok fromdir_wcc todir_wcc))
          | Err stat => pret (NfsErr stat (mk_RENAME3resfail fromdir_wcc todir_wcc))
          end
      end
  end))).

Definition nfsproc3_mkdir (xid : u32) (args : MKDIR3args) : prog V MKDIR3res :=
  let default := mk_MKDIR3resfail wcc_data_default in
  require_write default (
  fh_to_id (diropargs3_dir (MKDIR3args_where_ args)) default (fun dirid =>
  do* before := get_wcc_attr dirid in
  match before with
  | Err stat => pret (NfsErr stat default)
  | Ok v =>
      let before := Some v in
      do* result := vfs_mkdir dirid (diropargs3_name (MKDIR3args_where_ args)) in
      do* after := getattr_opt dirid in
      let dir_wcc := mk_wcc_data before after in
      match result with
      | Ok (fid, fattr) =>
          pret (NfsOk (mk_MKDIR3resok (Some (fh_to_nfs fhc fid)) (Some fattr) dir_wcc))
      | Err stat => pret (NfsErr stat (mk_MKDIR3resfail dir_wcc))
      end
  end)).

Definition nfsproc3_symlink (xid : u32) (args : SYMLINK3args) : prog V SYMLINK3res :=
  let default := mk_SYMLINK3resfail wcc_data_default in
  require_write default (
  fh_to_id (diropargs3_dir (SYMLINK3args_where_ args)) default (fun dirid =>
  do* before := get_wcc_attr dirid in
  match before with
  | Err stat => pret (NfsErr stat default)
  | Ok v =>
      let pre_dir_attr := Some v in
      do* result := vfs_symlink dirid (diropargs3_name (SYMLINK3args_where_ args))
                      (symlinkdata3_symlink_data (SYMLINK3args_symlink args))
                      (symlinkdata3_symlink_attributes (SYMLINK3args_symlink args)) in
      match result with
      | Ok (fid, fattr) =>
          do* after := getattr_opt dirid in
          pret (NfsOk (mk_SYMLINK3resok (Some (fh_to_nfs fhc fid)) (Some fattr)
                         (mk_wcc_data pre_dir_attr after)))
      | Err stat =>
          do* after := getattr_opt dirid in
          pret (NfsErr stat (mk_SYMLINK3resfail (mk_wcc_data pre_dir_attr after)))
      end
  end)).

Definition nfsproc3_readlink (xid : u32) (args : READLINK3args) : prog V READLINK3res :=
  fh_to_id (READLINK3args_symlink args) (mk_READLINK3resfail None) (fun id =>
  do* symlink_attributes := getattr_opt id in
  do* r := vfs_readlink id in
  match r with
  | Ok data => pret (NfsOk (mk_READLINK3resok symlink_attributes data))
  | Err stat => pret (NfsErr stat (mk_READLINK3resfail symlink_attributes))
  end).

(** [handle_nfs]: version and procedure checks, then the procedure. *)
Definition handle_nfs (message : IncomingRpcMessage) : prog V (result HandleResult rpc_error) :=
  let call := im_body message in
  let reply r : prog V (result HandleResult rpc_error) := fun v => (r, v) in
  if negb (call_body_vers call =? NFS3_VERSION) then
    reply (into_error_reply message (data_PROG_MISMATCH NFS3_VERSION NFS3_VERSION))
  else
    match NFS_PROGRAM_try_from (call_body_proc call) with
    | Err _ => reply (into_error_reply message data_PROC_UNAVAIL)
    | Ok proc =>
        match proc with
        | NFSPROC3_NULL => handle void_codec void_codec nfsproc3_null message
        | NFSPROC3_GETATTR => handle GETATTR3args_codec GETATTR3res_codec nfsproc3_getattr message
        | NFSPROC3_LOOKUP => handle LOOKUP3args_codec LOOKUP3res_codec nfsproc3_lookup message
        | NFSPROC3_READ => handle READ3args_codec READ3res_codec nfsproc3_read message
        | NFSPROC3_FSINFO => handle FSINFO3args_codec FSINFO3res_codec nfsproc3_fsinfo message
        | NFSPROC3_ACCESS => handle ACCESS3args_codec ACCESS3res_codec nfsproc3_access message
        | NFSPROC3_PATHCONF => handle PATHCONF3args_codec PATHCONF3res_codec nfsproc3_pathconf message
        | NFSPROC3_FSSTAT => handle FSSTAT3args_codec FSSTAT3res_codec nfsproc3_fsstat message
        | NFSPROC3_READDIR => handle READDIR3args_codec READDIR3res_codec nfsproc3_readdir message
        | NFSPROC3_READDIRPLUS =>
            handle READDIRPLUS3args_codec READDIRPLUS3res_codec nfsproc3_readdirplus message
        | NFSPROC3_WRITE => handle WRITE3args_codec WRITE3res_codec nfsproc3_write message
        | NFSPROC3_CREATE => handle CREATE3args_codec CREATE3res_codec nfsproc3_create message
        | NFSPROC3_SETATTR => handle SETATTR3args_codec SETATTR3res_codec nfsproc3_setattr message
        | NFSPROC3_REMOVE | NFSPROC3_RMDIR =>
            handle REMOVE3args_codec REMOVE3res_codec nfsproc3_remove message
        | NFSPROC3_RENAME => handle RENAME3args_codec RENAME3res_codec nfsproc3_rename message
        | NFSPROC3_MKDIR => handle MKDIR3args_codec MKDIR3res_codec nfsproc3_mkdir message
        | NFSPROC3_SYMLINK => handle SYMLINK3args_codec SYMLINK3res_codec nfsproc3_symlink message
        | NFSPROC3_READLINK => handle READLINK3args_codec READLINK3res_codec nfsproc3_readlink message
        | NFSPROC3_MKNOD | NFSPROC3_LINK | NFSPROC3_COMMIT =>
            reply (into_error_reply message data_PROC_UNAVAIL)
        end
    end.
End handlers.
