(* ===== verification/NfsHandlersLaws.v ===== *)
(** * Correctness of the NFSv3 procedures

    The procedures are proved over an arbitrary file system: what they answer
    is stated in terms of what its methods return. *)

From S2P Require Import Prelude Xdr XdrLaws Nfs3Types RpcTypes RpcWire RpcWireLaws.
From S2P Require Import Handle Vfs NfsExt NfsHandlers.
Open Scope Z_scope.
Open Scope nfs_scope.

(** ** Iterators and the filling loop *)

Section fill.
Context {V T U L : Type} (it : Iterator V T) (try_push : T -> L -> bool * L).

(** [yields s v l s' v']: starting from [s] in state [v], successive calls of
    [next] yield the entries [l] and leave [s'] and [v']. *)
Inductive yields : it_state it -> V -> list T -> it_state it -> V -> Prop :=
| yields_nil : forall s v, yields s v [] s v
| yields_cons : forall s v e s1 v1 l s2 v2,
    it_next it s v = (Ret (NextOk e, s1), v1) -> yields s1 v1 l s2 v2 ->
    yields s v (e :: l) s2 v2.

Context (conv : T -> U) (wf : L -> Prop) (items : L -> list U) (size : L -> Z) (B : Z)
  (nofit : list U -> Prop).

Context (push_ok : forall e l l', wf l -> try_push e l = (true, l') ->
           wf l' /\ items l' = items l ++ [conv e] /\ size l + 24 <= size l' /\ size l' <= B).
Context (push_no : forall e l l', wf l -> try_push e l = (false, l') ->
           l' = l /\ nofit (items l ++ [conv e])).

(** How a run of the loop ends. *)
Definition fill_post (s : it_state it) (v : V) (l : L)
  (o : outcome (result (L * bool) nfsstat3 * it_state it)) (v' : V) : Prop :=
  match o with
  | Ret (Ok (l', true), s') =>
      exists es s1 v1, yields s v es s1 v1 /\ it_next it s1 v1 = (Ret (NextEof, s'), v') /\
        wf l' /\ items l' = items l ++ map conv es
  | Ret (Ok (l', false), s') =>
      exists es e s1 v1, yields s v es s1 v1 /\ it_next it s1 v1 = (Ret (NextOk e, s'), v') /\
        wf l' /\ items l' = items l ++ map conv es /\ nofit (items l ++ map conv es ++ [conv e])
  | Ret (Err stat, s') =>
      exists es s1 v1, yields s v es s1 v1 /\ it_next it s1 v1 = (Ret (NextErr stat, s'), v')
  | Panic => exists es s1 v1, yields s v es s1 v1 /\ it_next it s1 v1 = (Panic, v')
  | OutOfFuel => exists es s1 v1, yields s v es s1 v1 /\ it_next it s1 v1 = (OutOfFuel, v')
  end.

Lemma fill_loop_run fuel s v l :
  wf l -> (1 <= fuel)%nat -> B - size l < 24 * Z.of_nat fuel ->
  fill_post s v l (fst (fill_loop it try_push fuel s l v)) (snd (fill_loop it try_push fuel s l v)).
Proof.
  revert s v l. induction fuel as [|fuel IH]; intros s v l Hwf H1 Hf; [lia|].
  cbn [fill_loop]. unfold pbind at 1 2.
  destruct (it_next it s v) as [[[next s1]| |] v1] eqn:En; cbn [fst snd fill_post].
  2, 3: exists [], s, v; split; [constructor|done].
  destruct next as [e| |stat].
  - destruct (try_push e l) as [[|] l'] eqn:Ep; cbn [fst snd].
    + destruct (push_ok _ _ _ Hwf Ep) as (Hwf' & Hi & Hs & Hb).
      specialize (IH s1 v1 l' Hwf' ltac:(lia) ltac:(lia)).
      destruct (fill_loop it try_push fuel s1 l' v1) as [[[[[l2 [|]]|stat] s2]| |] v2]; cbn [fst snd fill_post] in *.
      * destruct IH as (es & s3 & v3 & Hy & Hn & Hw & Hit).
        exists (e :: es), s3, v3. split_and!; [by econstructor|done..|].
        rewrite Hit, Hi. cbn. by rewrite <- (assoc_L (++)).
      * destruct IH as (es & e' & s3 & v3 & Hy & Hn & Hw & Hit & Hno).
        exists (e :: es), e', s3, v3. split_and!; [by econstructor|done..| |].
        -- rewrite Hit, Hi. cbn. by rewrite <- (assoc_L (++)).
        -- rewrite Hi in Hno. cbn. by rewrite <- (assoc_L (++)) in Hno.
      * destruct IH as (es & s3 & v3 & Hy & Hn). exists (e :: es), s3, v3. split; [by econstructor|done].
      * destruct IH as (es & s3 & v3 & Hy & Hn). exists (e :: es), s3, v3. split; [by econstructor|done].
      * destruct IH as (es & s3 & v3 & Hy & Hn). exists (e :: es), s3, v3. split; [by econstructor|done].
    + destruct (push_no _ _ _ Hwf Ep) as [-> Hno]. exists [], e, s, v.
      split_and!; [constructor|done|done|by rewrite app_nil_r|done].
  - exists [], s, v. split_and!; [constructor|done|done|by rewrite app_nil_r].
  - exists [], s, v. split; [constructor|done].
Qed.
End fill.

Lemma fill_fuel_enough B : 1 <= Z.of_nat (fill_fuel B) /\ B - 4 < 24 * Z.of_nat (fill_fuel B).
Proof. unfold fill_fuel. Z.to_euclidean_division_equations. lia. Qed.

(** The two instances of the loop. *)
Lemma readdir_fill {V} (it : Iterator V entry3) B s v :
  let l0 := bounded_list_new entry3_codec B in
  fill_post it (fun e => e) (fun l => bounded_list_wf entry3_codec l /\ bl_max_size l = B) bl_list
    (fun es => B < list_packed_size entry3_codec es) s v l0
    (fst (fill_loop it entry_try_push (fill_fuel B) s l0 v))
    (snd (fill_loop it entry_try_push (fill_fuel B) s l0 v)).
Proof.
  intros l0. pose proof (fill_fuel_enough B) as [Hf1 Hf2].
  apply (fill_loop_run it entry_try_push (fun e => e) _ bl_list bl_current_size B);
    [| |split; [apply bounded_list_new_wf|done]|lia|cbn; lia].
  - intros e l l' [Hwf Hm] Hp. unfold entry_try_push in Hp.
    pose proof (bounded_list_try_push_cases entry3_codec e l Hwf) as H.
    destruct (bounded_list_try_push entry3_codec e l) as [[u|y] l1]; cbn in Hp; [|discriminate Hp].
    injection Hp as <-.
    destruct H as (Hwf' & Hl & Hmax & Hs). pose proof (entry3_size_min e).
    split_and!; [done|congruence|done|lia|].
    destruct (blw_bound _ _ Hwf') as [E|E]; [|rewrite <- Hm, <- Hmax; exact E].
    rewrite Hl in E. by destruct (bl_list l).
  - intros e l l' [Hwf Hm] Hp. unfold entry_try_push in Hp.
    pose proof (bounded_list_try_push_cases entry3_codec e l Hwf) as H.
    destruct (bounded_list_try_push entry3_codec e l) as [[u|y] l1]; cbn in Hp; [discriminate Hp|].
    injection Hp as <-.
    destruct H as (-> & -> & Hlt). split; [done|]. by rewrite <- Hm.
Qed.

Section plus_fill.
Context {V H : Type} `{!FileHandle H} (fhc : FileHandleConverter).

Lemma readdirplus_fill (it : Iterator V (DirEntryPlus H)) D B s v :
  let l0 := bounded_entry_plus_list_new D B in
  fill_post it (into_entry fhc)
    (fun l => bepl_wf l /\ bepl_dircount l = D /\ bl_max_size (bepl_entries l) = B)
    (fun l => bl_list (bepl_entries l))
    (fun es => D < dircount_of es \/ B < list_packed_size entryplus3_codec es) s v l0
    (fst (fill_loop it (plus_try_push fhc) (fill_fuel B) s l0 v))
    (snd (fill_loop it (plus_try_push fhc) (fill_fuel B) s l0 v)).
Proof.
  intros l0. pose proof (fill_fuel_enough B) as [Hf1 Hf2].
  apply (fill_loop_run it (plus_try_push fhc) (into_entry fhc) _ _
    (fun l => bl_current_size (bepl_entries l)) B);
    [| |split_and!; [apply bepl_new_wf|done|done]|lia|cbn; lia].
  - intros e l l' (Hwf & HD & HB) Hp. unfold plus_try_push in Hp.
    pose proof (bepl_try_push_cases (into_entry fhc e) l Hwf) as Hc.
    destruct (bounded_entry_plus_list_try_push _ l) as [[u|y] l1]; cbn in Hp; [|discriminate Hp].
    injection Hp as <-.
    destruct Hc as (Hwf' & Hl & Hd & Hmax & Hs). pose proof (entryplus3_size_min (into_entry fhc e)).
    split_and!; [done|congruence|congruence|done|lia|].
    destruct (blw_bound _ _ (bew_entries _ Hwf')) as [E|E]; [|lia].
    rewrite Hl in E. by destruct (bl_list (bepl_entries l)).
  - intros e l l' (Hwf & HD & HB) Hp. unfold plus_try_push in Hp.
    pose proof (bepl_try_push_cases (into_entry fhc e) l Hwf) as Hc.
    destruct (bounded_entry_plus_list_try_push _ l) as [[u|y] l1]; cbn in Hp; [discriminate Hp|].
    injection Hp as <-.
    destruct Hc as (-> & -> & Hlt). split; [done|]. destruct Hlt; [left|right]; lia.
Qed.
End plus_fill.

(** ** The procedures *)

Section procedures.
Context {V H : Type} `{!FileHandle H, !FileHandleLaws H} (fs : NfsFileSystem V H)
  (fhc : FileHandleConverter).

Lemma fh_to_id_ok {A E} fh (d : E) (k : H -> prog V (Nfs3Result A E)) id :
  fh_from_nfs fhc fh = Ok id -> fh_to_id fhc fh d k = k id.
Proof. unfold fh_to_id. by intros ->. Qed.

Lemma fh_to_id_err {A E} fh (d : E) (k : H -> prog V (Nfs3Result A E)) stat :
  fh_from_nfs (H := H) fhc fh = Err stat -> fh_to_id fhc fh d k = pret (NfsErr stat d).
Proof. unfold fh_to_id. by intros ->. Qed.

Lemma fh_to_id_err_run {A E} fh (d : E) (k : H -> prog V (Nfs3Result A E)) stat v :
  fh_from_nfs (H := H) fhc fh = Err stat -> fh_to_id fhc fh d k v = (Ret (NfsErr stat d), v).
Proof. intros He. by rewrite (fh_to_id_err _ _ _ _ He). Qed.

Lemma require_write_rw {A E} (d : E) (k : prog V (Nfs3Result A E)) v :
  vfs_capabilities v = (Ret ReadWrite, v) -> require_write fs d k v = k v.
Proof. intros Hc. unfold require_write, pbind. by rewrite Hc. Qed.

Lemma require_write_ro {A E} (d : E) (k : prog V (Nfs3Result A E)) v :
  vfs_capabilities v = (Ret ReadOnly, v) -> require_write fs d k v = (Ret (NfsErr NFS3ERR_ROFS d), v).
Proof. intros Hc. unfold require_write, pbind. by rewrite Hc. Qed.

Lemma pbind_Ret {S A B} (m : prog S A) (k : A -> prog S B) s a s' :
  m s = (Ret a, s') -> pbind m k s = k a s'.
Proof. unfold pbind. by intros ->. Qed.

Lemma getattr_opt_run id v r v' :
  vfs_getattr id v = (Ret r, v') -> getattr_opt fs id v = (Ret (nfs_option_from_result r), v').
Proof. intros Hg. unfold getattr_opt. by rewrite (pbind_Ret _ _ _ _ _ Hg). Qed.

Lemma get_wcc_attr_run id v r v' :
  vfs_getattr id v = (Ret r, v') ->
  get_wcc_attr fs id v = (Ret (result_map (fun a => mk_wcc_attr (fattr3_size a) (fattr3_mtime a)
    (fattr3_ctime a)) r), v').
Proof. intros Hg. unfold get_wcc_attr. by rewrite (pbind_Ret _ _ _ _ _ Hg). Qed.

(** The size of a directory reply is that of its entries and a constant part. *)
Lemma post_op_attr_size (a : post_op_attr) : 4 <= packed_size post_op_attr_codec a <= 88.
Proof. destruct a; cbn; lia. Qed.

Lemma readdir_size attrs verf es eof :
  packed_size READDIR3res_codec (NfsOk (mk_READDIR3resok attrs verf (mk_dirlist3 es eof))) =
  16 + packed_size post_op_attr_codec attrs + list_packed_size entry3_codec es.
Proof.
  cbn -[post_op_attr_codec list_packed_size add_padding].
  change (add_padding NFS3_COOKIEVERFSIZE) with 8. lia.
Qed.

Lemma readdirplus_size attrs verf es eof :
  packed_size READDIRPLUS3res_codec (NfsOk (mk_READDIRPLUS3resok attrs verf (mk_dirlistplus3 es eof))) =
  16 + packed_size post_op_attr_codec attrs + list_packed_size entryplus3_codec es.
Proof.
  cbn -[post_op_attr_codec list_packed_size add_padding].
  change (add_padding NFS3_COOKIEVERFSIZE) with 8. lia.
Qed.

Lemma filled_size {T} (c : codec T) l B :
  bounded_list_wf c l -> bl_max_size l = B -> list_packed_size c (bl_list l) <= Z.max 4 B.
Proof. intros [Hs [Hb|Hb]] Hm; [rewrite Hb; cbn; lia|lia]. Qed.

(** Open a run [pbind m k s = (Ret _, _)]. *)
Lemma pbind_Ret_inv {S A B} (m : prog S A) (k : A -> prog S B) s b s' :
  pbind m k s = (Ret b, s') -> exists a s1, m s = (Ret a, s1) /\ k a s1 = (Ret b, s').
Proof. unfold pbind. destruct (m s) as [[a| |] s1]; [eauto|done..]. Qed.

Lemma pbind_OutOfFuel_inv {S A B} (m : prog S A) (k : A -> prog S B) s :
  fst (pbind m k s) = OutOfFuel ->
  fst (m s) = OutOfFuel \/ exists a s1, m s = (Ret a, s1) /\ fst (k a s1) = OutOfFuel.
Proof. unfold pbind. destruct (m s) as [[a| |] s1]; [eauto|done|by left]. Qed.

(** What a successful [readdir] has done. *)
Lemma readdir_ok_inv xid args v resok v' :
  nfsproc3_readdir fs fhc xid args v = (Ret (NfsOk resok), v') ->
  exists dirid attr v1 s v2 o v3,
    let attrs := nfs_option_from_result attr in
    let verf := cookieverf_from_attr attrs in
    let B := READDIR3args_count args - (20 + packed_size post_op_attr_codec attrs) in
    let l0 := bounded_list_new entry3_codec B in
    fh_from_nfs fhc (READDIR3args_dir args) = Ok dirid /\
    vfs_getattr dirid v = (Ret attr, v1) /\ 0 <= B /\
    vfs_readdir dirid (READDIR3args_cookie args) v1 = (Ret (Ok s), v2) /\
    fill_loop readdir_iter entry_try_push (fill_fuel B) s l0 v2 = (Ret (Ok o.1, o.2), v3) /\
    resok = mk_READDIR3resok attrs verf (mk_dirlist3 (bl_list o.1.1) o.1.2) /\
    (bl_list o.1.1 = [] -> o.1.2 = true) /\
    (if cookieverf_is_none (READDIR3args_cookieverf args) then READDIR3args_cookie args = 0
     else READDIR3args_cookieverf args = verf) /\
    it_drop readdir_iter o.2 v3 = (Ret tt, v').
Proof.
  intros Hr. unfold nfsproc3_readdir, fh_to_id in Hr.
  destruct (fh_from_nfs fhc (READDIR3args_dir args)) as [dirid|e] eqn:Eh; [|done].
  apply pbind_Ret_inv in Hr as (attr & v1 & Hg & Hr). cbv zeta in Hr.
  destruct (if cookieverf_is_none (READDIR3args_cookieverf args) then _ else _) eqn:Ec in Hr; [done|].
  replace (packed_size u32_codec xid + packed_size READDIR3resok_codec _) with
    (20 + packed_size post_op_attr_codec (nfs_option_from_result attr)) in Hr; cycle 1.
  { cbn -[post_op_attr_codec add_padding]. change (add_padding NFS3_COOKIEVERFSIZE) with 8. lia. }
  destruct (Z.ltb_spec (READDIR3args_count args) (20 + packed_size post_op_attr_codec (nfs_option_from_result attr)));
    [done|].
  apply pbind_Ret_inv in Hr as ([s|stat] & v2 & Hd & Hr); [|done].
  apply pbind_Ret_inv in Hr as ([r s'] & v3 & Hf & Hr).
  apply pbind_Ret_inv in Hr as ([] & v4 & Hdrop & Hr).
  destruct r as [[l eof]|stat]; [|done].
  destruct (bool_decide (bounded_list_into_inner l = []) && negb eof) eqn:Ee; [done|].
  unfold pret in Hr. injection Hr as <- <-.
  exists dirid, attr, v1, s, v2, ((l, eof), s'), v3. cbn [fst snd].
  split_and!; [done|done|lia|done|done|done| | |exact Hdrop].
  - intros El. apply andb_false_iff in Ee as [Ee|Ee].
    + apply bool_decide_eq_false in Ee. done.
    + by destruct eof.
  - destruct (cookieverf_is_none _).
    + apply negb_false_iff, Z.eqb_eq in Ec. done.
    + apply negb_false_iff, bool_decide_eq_true in Ec. done.
Qed.

Lemma readdirplus_ok_inv xid args v resok v' :
  nfsproc3_readdirplus fs fhc xid args v = (Ret (NfsOk resok), v') ->
  exists dirid attr v1 s v2 o v3,
    let attrs := nfs_option_from_result attr in
    let B := READDIRPLUS3args_maxcount args - 128 in
    let l0 := bounded_entry_plus_list_new (READDIRPLUS3args_dircount args) B in
    fh_from_nfs fhc (READDIRPLUS3args_dir args) = Ok dirid /\
    vfs_getattr dirid v = (Ret attr, v1) /\ 0 <= B /\
    vfs_readdirplus dirid (READDIRPLUS3args_cookie args) v1 = (Ret (Ok s), v2) /\
    fill_loop readdirplus_iter (plus_try_push fhc) (fill_fuel B) s l0 v2 = (Ret (Ok o.1, o.2), v3) /\
    resok = mk_READDIRPLUS3resok attrs (cookieverf_from_attr attrs)
      (mk_dirlistplus3 (bl_list (bepl_entries o.1.1)) o.1.2) /\
    (bl_list (bepl_entries o.1.1) = [] -> o.1.2 = true).
Proof.
  intros Hr. unfold nfsproc3_readdirplus, fh_to_id in Hr.
  destruct (fh_from_nfs fhc (READDIRPLUS3args_dir args)) as [dirid|e] eqn:Eh; [|done].
  apply pbind_Ret_inv in Hr as (attr & v1 & Hg & Hr). cbv zeta in Hr.
  destruct (Z.ltb_spec (READDIRPLUS3args_maxcount args) 128); [done|].
  apply pbind_Ret_inv in Hr as ([s|stat] & v2 & Hd & Hr); [|done].
  apply pbind_Ret_inv in Hr as ([r s'] & v3 & Hf & Hr).
  apply pbind_Ret_inv in Hr as ([] & v4 & _ & Hr).
  destruct r as [[l eof]|stat]; [|done].
  destruct (bool_decide (bounded_entry_plus_list_into_inner l = []) && negb eof) eqn:Ee; [done|].
  unfold pret in Hr. injection Hr as <- <-.
  exists dirid, attr, v1, s, v2, ((l, eof), s'), v3. cbn [fst snd].
  split_and!; [done|done|lia|done|done|done|].
  intros El. apply andb_false_iff in Ee as [Ee|Ee].
  - apply bool_decide_eq_false in Ee. done.
  - by destruct eof.
Qed.

(** ** Theorems *)

(** C23: READDIR keeps to the client's budget and returns what the file system
    lists. Its entries are the first ones the directory iterator yields from the
    requested cookie, all of them exactly when [eof] is set, and otherwise at least
    one and the next one is over the budget. The budget is [count] less four bytes (the
    end marker of the list is counted twice): a reply with entries packs to at most
    [count] - 4 bytes, and with the next entry it would pack to more than that; a reply
    without entries packs to at most [count]. *)
Theorem readdir_correct xid args v resok v' :
  nfsproc3_readdir fs fhc xid args v = (Ret (NfsOk resok), v') ->
  packed_size READDIR3res_codec (NfsOk resok) <= READDIR3args_count args /\
  (dirlist3_entries (READDIR3resok_reply resok) = [] \/
   4 + packed_size READDIR3res_codec (NfsOk resok) <= READDIR3args_count args) /\
  exists dirid attr v1 s v2 s1 v3,
    fh_from_nfs fhc (READDIR3args_dir args) = Ok dirid /\
    vfs_getattr dirid v = (Ret attr, v1) /\
    vfs_readdir dirid (READDIR3args_cookie args) v1 = (Ret (Ok s), v2) /\
    yields readdir_iter s v2 (dirlist3_entries (READDIR3resok_reply resok)) s1 v3 /\
    if dirlist3_eof (READDIR3resok_reply resok)
    then exists s2 v4, it_next readdir_iter s1 v3 = (Ret (NextEof, s2), v4)
    else dirlist3_entries (READDIR3resok_reply resok) <> [] /\
      exists e s2 v4, it_next readdir_iter s1 v3 = (Ret (NextOk e, s2), v4) /\
        READDIR3args_count args < 4 + packed_size READDIR3res_codec (NfsOk
          (mk_READDIR3resok (READDIR3resok_dir_attributes resok) (READDIR3resok_cookieverf resok)
             (mk_dirlist3 (dirlist3_entries (READDIR3resok_reply resok) ++ [e]) false))).
Proof.
  intros Hr. destruct (readdir_ok_inv _ _ _ _ _ Hr) as
    (dirid & attr & v1 & s & v2 & [[l eof] s'] & v3 & Hh & Hg & HB & Hd & Hf & -> & Hne & _).
  cbn [fst snd] in *. set (attrs := nfs_option_from_result attr) in *.
  set (B := READDIR3args_count args - _) in *.
  pose proof (readdir_fill readdir_iter B s v2) as Hfill. cbv zeta in Hfill. rewrite Hf in Hfill.
  cbn [fst snd fill_post] in Hfill. rewrite readdir_size. cbn [dirlist3_entries dirlist3_eof READDIR3resok_reply].
  assert (bounded_list_wf entry3_codec l /\ bl_max_size l = B) as [Hwf Hmax].
  { destruct eof; [by destruct Hfill as (es & s1 & v4 & _ & _ & ? & _)|by destruct Hfill as (es & e & s1 & v4 & _ & _ & ? & _)]. }
  pose proof (filled_size _ _ _ Hwf Hmax). split; [lia|]. split.
  { destruct Hwf as [Hs [Hb|Hb]]; [by left|right; lia]. }
  exists dirid, attr, v1, s, v2. destruct eof.
  - destruct Hfill as (es & s1 & v4 & Hy & Hn & _ & Hit). exists s1, v4.
    rewrite Hit. cbn. rewrite map_id. split_and!; [done..|eauto].
  - destruct Hfill as (es & e & s1 & v4 & Hy & Hn & _ & Hit & Hno). exists s1, v4.
    cbn [bl_list bounded_list_new] in *. rewrite map_id in *. cbn [app] in *.
    rewrite Hit. split_and!; [done..|intros E; rewrite <- Hit in E; specialize (Hne E); done|].
    exists e. eexists _, _. split; [done|].
    cbn [READDIR3resok_dir_attributes READDIR3resok_cookieverf]. rewrite readdir_size. lia.
Qed.

(** An entry of a reply, for what the iterator yielded: the fields are the same, and the
    handle, if there is one, is one that the server takes for the same object. *)
Definition lists_entry (e : DirEntryPlus H) (x : entryplus3) : Prop :=
  entryplus3_fileid x = dep_fileid e /\ entryplus3_name x = dep_name e /\ entryplus3_cookie x = dep_cookie e /\
  entryplus3_name_attributes x = dep_name_attributes e /\
  match dep_name_handle e, entryplus3_name_handle x with
  | Some h, Some fh => fh_from_nfs fhc fh = Ok h
  | None, None => True
  | _, _ => False
  end.

Lemma into_entry_lists e : converter_wf fhc -> lists_entry e (into_entry fhc e).
Proof.
  intros Hwf. unfold lists_entry. destruct e as [? ? ? ? [h|]]; cbn; split_and!; try done. by apply fh_from_to_nfs.
Qed.

(** C24: READDIRPLUS keeps to both budgets of the client. A successful reply
    packs to at most [maxcount] bytes. Its entries are the first ones the iterator
    yields, with the same fields, and each handle is one that the server decodes to
    the handle that the iterator gave: all of them exactly when [eof] is set, and
    otherwise at least one. The entries account for at most [dircount] bytes of
    directory information and, as a list, take at most [maxcount] - 128 bytes; with the
    next entry one of the two would be exceeded. *)
Theorem readdirplus_correct xid args v resok v' :
  converter_wf fhc -> nfsproc3_readdirplus fs fhc xid args v = (Ret (NfsOk resok), v') ->
  let entries := dirlistplus3_entries (READDIRPLUS3resok_reply resok) in
  packed_size READDIRPLUS3res_codec (NfsOk resok) <= READDIRPLUS3args_maxcount args /\
  (entries = [] \/ dircount_of entries <= READDIRPLUS3args_dircount args /\
     list_packed_size entryplus3_codec entries <= READDIRPLUS3args_maxcount args - 128) /\
  exists dirid attr v1 s v2 es s1 v3,
    fh_from_nfs fhc (READDIRPLUS3args_dir args) = Ok dirid /\
    vfs_getattr dirid v = (Ret attr, v1) /\
    vfs_readdirplus dirid (READDIRPLUS3args_cookie args) v1 = (Ret (Ok s), v2) /\
    yields readdirplus_iter s v2 es s1 v3 /\ Forall2 lists_entry es entries /\
    if dirlistplus3_eof (READDIRPLUS3resok_reply resok)
    then exists s2 v4, it_next readdirplus_iter s1 v3 = (Ret (NextEof, s2), v4)
    else entries <> [] /\ exists e x s2 v4, it_next readdirplus_iter s1 v3 = (Ret (NextOk e, s2), v4) /\ lists_entry e x /\
      (READDIRPLUS3args_dircount args < dircount_of (entries ++ [x]) \/
       READDIRPLUS3args_maxcount args - 128 < list_packed_size entryplus3_codec (entries ++ [x])).
Proof.
  intros Hconv Hr. destruct (readdirplus_ok_inv _ _ _ _ _ Hr) as
    (dirid & attr & v1 & s & v2 & [[l eof] s'] & v3 & Hh & Hg & HB & Hd & Hf & -> & Hne).
  cbn [fst snd] in *. set (attrs := nfs_option_from_result attr) in *.
  set (B := READDIRPLUS3args_maxcount args - 128) in *.
  pose proof (readdirplus_fill fhc readdirplus_iter (READDIRPLUS3args_dircount args) B s v2) as Hfill.
  cbv zeta in Hfill. rewrite Hf in Hfill. cbn [fst snd fill_post] in Hfill.
  rewrite readdirplus_size. cbn [dirlistplus3_entries dirlistplus3_eof READDIRPLUS3resok_reply].
  pose proof (post_op_attr_size attrs) as Ha.
  assert (bepl_wf l /\ bepl_dircount l = READDIRPLUS3args_dircount args /\ bl_max_size (bepl_entries l) = B ->
    16 + packed_size post_op_attr_codec attrs + list_packed_size entryplus3_codec (bl_list (bepl_entries l))
      <= READDIRPLUS3args_maxcount args /\
    (bl_list (bepl_entries l) = [] \/ dircount_of (bl_list (bepl_entries l)) <= READDIRPLUS3args_dircount args /\
     list_packed_size entryplus3_codec (bl_list (bepl_entries l)) <= B))
    as Hbound.
  { intros ([Hl Hacc Hdc] & HD & Hm). pose proof (filled_size _ _ _ Hl Hm). split; [lia|].
    destruct Hdc, (blw_bound _ _ Hl); [by left..|]. right. rewrite <- (blw_size _ _ Hl). lia. }
  assert (forall es, Forall2 lists_entry es (map (into_entry fhc) es)) as Hlists.
  { intros es. induction es; constructor; [by apply into_entry_lists|done]. }
  destruct eof.
  - destruct Hfill as (es & s1 & v4 & Hy & Hn & Hwf & Hit). destruct (Hbound Hwf) as [Hb1 Hb2].
    split_and!; [done..|]. exists dirid, attr, v1, s, v2, es, s1, v4. split_and!; [done..|by rewrite Hit|eauto].
  - destruct Hfill as (es & e & s1 & v4 & Hy & Hn & Hwf & Hit & Hno). destruct (Hbound Hwf) as [Hb1 Hb2].
    split_and!; [done..|]. exists dirid, attr, v1, s, v2, es, s1, v4.
    split_and!; [done..|by rewrite Hit|by intros E%Hne|].
    exists e, (into_entry fhc e), s', v3. split; [done|]. split; [by apply into_entry_lists|]. rewrite Hit.
    cbn [bounded_entry_plus_list_new bepl_entries bounded_list_new bl_list app] in *. exact Hno.
Qed.

(** The directory handlers terminate: their loop ends whenever the methods
    of the file system do, however many entries the directory has. *)
Theorem readdir_terminates xid args1 args2 v :
  (forall id v, fst (vfs_getattr id v) <> OutOfFuel) ->
  (forall id c v, fst (vfs_readdir id c v) <> OutOfFuel) ->
  (forall id c v, fst (vfs_readdirplus id c v) <> OutOfFuel) ->
  (forall s v, fst (it_next readdir_iter s v) <> OutOfFuel) ->
  (forall s v, fst (it_next readdirplus_iter s v) <> OutOfFuel) ->
  (forall s v, fst (it_drop readdir_iter s v) <> OutOfFuel) ->
  (forall s v, fst (it_drop readdirplus_iter s v) <> OutOfFuel) ->
  fst (nfsproc3_readdir fs fhc xid args1 v) <> OutOfFuel /\
  fst (nfsproc3_readdirplus fs fhc xid args2 v) <> OutOfFuel.
Proof.
  intros Hg Hd Hdp Hn Hnp Hdr Hdrp. split; intros Hr.
  - unfold nfsproc3_readdir, fh_to_id in Hr.
    destruct (fh_from_nfs fhc (READDIR3args_dir args1)) as [dirid|e]; [|done].
    apply pbind_OutOfFuel_inv in Hr as [Hr|(attr & v1 & _ & Hr)]; [by apply Hg in Hr|].
    cbv zeta in Hr. destruct (if cookieverf_is_none _ then _ else _) in Hr; [done|].
    destruct (READDIR3args_count args1 <? _) in Hr; [done|].
    apply pbind_OutOfFuel_inv in Hr as [Hr|([s|stat] & v2 & _ & Hr)]; [by apply Hd in Hr| |done].
    set (B := READDIR3args_count args1 - _) in Hr.
    apply pbind_OutOfFuel_inv in Hr as [Hr|([r s'] & v3 & _ & Hr)].
    + pose proof (readdir_fill readdir_iter B s v2) as Hf. cbv zeta in Hf. rewrite Hr in Hf.
      destruct Hf as (es & s1 & v4 & _ & Hf). apply (Hn s1 v4). by rewrite Hf.
    + apply pbind_OutOfFuel_inv in Hr as [Hr|([] & v4 & _ & Hr)]; [by apply Hdr in Hr|].
      destruct r as [[l eof]|stat]; [|done]. by case_match.
  - unfold nfsproc3_readdirplus, fh_to_id in Hr.
    destruct (fh_from_nfs fhc (READDIRPLUS3args_dir args2)) as [dirid|e]; [|done].
    apply pbind_OutOfFuel_inv in Hr as [Hr|(attr & v1 & _ & Hr)]; [by apply Hg in Hr|].
    cbv zeta in Hr. destruct (READDIRPLUS3args_maxcount args2 <? _) in Hr; [done|].
    apply pbind_OutOfFuel_inv in Hr as [Hr|([s|stat] & v2 & _ & Hr)]; [by apply Hdp in Hr| |done].
    set (B := READDIRPLUS3args_maxcount args2 - _) in Hr.
    apply pbind_OutOfFuel_inv in Hr as [Hr|([r s'] & v3 & _ & Hr)].
    + pose proof (readdirplus_fill fhc readdirplus_iter (READDIRPLUS3args_dircount args2) B s v2) as Hf.
      cbv zeta in Hf. rewrite Hr in Hf.
      destruct Hf as (es & s1 & v4 & _ & Hf). apply (Hnp s1 v4). by rewrite Hf.
    + apply pbind_OutOfFuel_inv in Hr as [Hr|([] & v4 & _ & Hr)]; [by apply Hdrp in Hr|].
      destruct r as [[l eof]|stat]; [|done]. by case_match.
Qed.

(** A file system without the write capability is never written to. Every
    modifying procedure answers [NFS3ERR_ROFS], whatever its arguments, before it
    resolves a handle, and leaves the file system as it is. *)
Theorem read_only_refuses_writes xid v :
  vfs_capabilities v = (Ret ReadOnly, v) ->
  (forall a, nfsproc3_write fs fhc xid a v =
     (Ret (NfsErr NFS3ERR_ROFS (mk_WRITE3resfail wcc_data_default)), v)) /\
  (forall a, nfsproc3_create fs fhc xid a v =
     (Ret (NfsErr NFS3ERR_ROFS (mk_CREATE3resfail wcc_data_default)), v)) /\
  (forall a, nfsproc3_setattr fs fhc xid a v =
     (Ret (NfsErr NFS3ERR_ROFS (mk_SETATTR3resfail wcc_data_default)), v)) /\
  (forall a, nfsproc3_remove fs fhc xid a v =
     (Ret (NfsErr NFS3ERR_ROFS (mk_REMOVE3resfail wcc_data_default)), v)) /\
  (forall a, nfsproc3_rename fs fhc xid a v =
     (Ret (NfsErr NFS3ERR_ROFS (mk_RENAME3resfail wcc_data_default wcc_data_default)), v)) /\
  (forall a, nfsproc3_mkdir fs fhc xid a v =
     (Ret (NfsErr NFS3ERR_ROFS (mk_MKDIR3resfail wcc_data_default)), v)) /\
  (forall a, nfsproc3_symlink fs fhc xid a v =
     (Ret (NfsErr NFS3ERR_ROFS (mk_SYMLINK3resfail wcc_data_default)), v)).
Proof. intros Hc. split_and!; intros a; by apply require_write_ro. Qed.

(** A handle the server does not accept is refused in the same way by every
    procedure that takes one: the status of [fh_from_nfs], no attributes, and
    the file system is not consulted. *)
Theorem bad_handle_uniform xid fh stat v :
  fh_from_nfs (H := H) fhc fh = Err stat ->
  vfs_capabilities v = (Ret ReadWrite, v) ->
  nfsproc3_getattr fs fhc xid (mk_GETATTR3args fh) v = (Ret (NfsErr stat tt), v) /\
  (forall name, nfsproc3_lookup fs fhc xid (mk_LOOKUP3args (mk_diropargs3 fh name)) v =
     (Ret (NfsErr stat (mk_LOOKUP3resfail None)), v)) /\
  (forall o c, nfsproc3_read fs fhc xid (mk_READ3args fh o c) v =
     (Ret (NfsErr stat (mk_READ3resfail None)), v)) /\
  nfsproc3_fsinfo fs fhc xid (mk_FSINFO3args fh) v = (Ret (NfsErr stat (mk_FSINFO3resfail None)), v) /\
  (forall a, nfsproc3_access fs fhc xid (mk_ACCESS3args fh a) v =
     (Ret (NfsErr stat (mk_ACCESS3resfail None)), v)) /\
  nfsproc3_pathconf fs fhc xid (mk_PATHCONF3args fh) v =
     (Ret (NfsErr stat (mk_PATHCONF3resfail None)), v) /\
  nfsproc3_fsstat fs fhc xid (mk_FSSTAT3args fh) v = (Ret (NfsErr stat (mk_FSSTAT3resfail None)), v) /\
  (forall k vf c, nfsproc3_readdir fs fhc xid (mk_READDIR3args fh k vf c) v =
     (Ret (NfsErr stat (mk_READDIR3resfail None)), v)) /\
  (forall k vf d c, nfsproc3_readdirplus fs fhc xid (mk_READDIRPLUS3args fh k vf d c) v =
     (Ret (NfsErr stat (mk_READDIRPLUS3resfail None)), v)) /\
  nfsproc3_readlink fs fhc xid (mk_READLINK3args fh) v =
     (Ret (NfsErr stat (mk_READLINK3resfail None)), v) /\
  (forall o c st d, len d = c -> nfsproc3_write fs fhc xid (mk_WRITE3args fh o c st d) v =
     (Ret (NfsErr stat (mk_WRITE3resfail wcc_data_default)), v)) /\
  (forall name how, nfsproc3_create fs fhc xid (mk_CREATE3args (mk_diropargs3 fh name) how) v =
     (Ret (NfsErr stat (mk_CREATE3resfail wcc_data_default)), v)) /\
  (forall a g, nfsproc3_setattr fs fhc xid (mk_SETATTR3args fh a g) v =
     (Ret (NfsErr stat (mk_SETATTR3resfail wcc_data_default)), v)) /\
  (forall name, nfsproc3_remove fs fhc xid (mk_REMOVE3args (mk_diropargs3 fh name)) v =
     (Ret (NfsErr stat (mk_REMOVE3resfail wcc_data_default)), v)) /\
  (forall name to, nfsproc3_rename fs fhc xid (mk_RENAME3args (mk_diropargs3 fh name) to) v =
     (Ret (NfsErr stat (mk_RENAME3resfail wcc_data_default wcc_data_default)), v)) /\
  (forall name a, nfsproc3_mkdir fs fhc xid (mk_MKDIR3args (mk_diropargs3 fh name) a) v =
     (Ret (NfsErr stat (mk_MKDIR3resfail wcc_data_default)), v)) /\
  (forall name s, nfsproc3_symlink fs fhc xid (mk_SYMLINK3args (mk_diropargs3 fh name) s) v =
     (Ret (NfsErr stat (mk_SYMLINK3resfail wcc_data_default)), v)).
Proof.
  intros He Hc. split_and!; intros;
    try (unfold nfsproc3_write, nfsproc3_create, nfsproc3_setattr, nfsproc3_remove, nfsproc3_rename,
           nfsproc3_mkdir, nfsproc3_symlink;
         rewrite (require_write_rw _ _ _ Hc));
    try (subst; cbn [WRITE3args_data WRITE3args_count]; rewrite Z.eqb_refl; cbn [negb]);
    exact (fh_to_id_err_run _ _ _ _ _ He).
Qed.

(** C37: SETATTR with a guard is a compare-and-set on the object's ctime: on a
    mismatch it answers [NFS3ERR_NOT_SYNC] and the attributes are not set; on a
    match (or without a guard) the new attributes reach the file system once. *)
Theorem setattr_guard_correct xid args id v a v1 :
  vfs_capabilities v = (Ret ReadWrite, v) ->
  fh_from_nfs fhc (SETATTR3args_object args) = Ok id ->
  vfs_getattr id v = (Ret (Ok a), v1) ->
  let before := Some (mk_wcc_attr (fattr3_size a) (fattr3_mtime a) (fattr3_ctime a)) in
  (forall g, SETATTR3args_guard args = Some g -> g <> fattr3_ctime a ->
     nfsproc3_setattr fs fhc xid args v =
     (Ret (NfsErr NFS3ERR_NOT_SYNC (mk_SETATTR3resfail (mk_wcc_data before None))), v1)) /\
  ((SETATTR3args_guard args = None \/ SETATTR3args_guard args = Some (fattr3_ctime a)) ->
   forall r v2, vfs_setattr id (SETATTR3args_new_attributes args) v1 = (Ret r, v2) ->
     nfsproc3_setattr fs fhc xid args v =
     (Ret (match r with
           | Ok attr => NfsOk (mk_SETATTR3resok (mk_wcc_data before (Some attr)))
           | Err stat => NfsErr stat (mk_SETATTR3resfail (mk_wcc_data before None))
           end), v2)).
Proof.
  intros Hc Hh Hg before. unfold nfsproc3_setattr.
  rewrite (require_write_rw _ _ _ Hc), (fh_to_id_ok _ _ _ _ Hh).
  rewrite (pbind_Ret _ _ _ _ _ (get_wcc_attr_run _ _ _ _ Hg)). cbn [result_map wcc_attr_ctime].
  split.
  - intros g -> Hne. by rewrite bool_decide_eq_false_2.
  - intros Hguard r v2 Hs.
    replace (match SETATTR3args_guard args with Some _ => _ | None => _ end) with false; cycle 1.
    { destruct Hguard as [->| ->]; [done|]. by rewrite bool_decide_eq_true_2. }
    rewrite (pbind_Ret _ _ _ _ _ Hs). by destruct r.
Qed.

(** A guarded CREATE of a name that exists answers [NFS3ERR_EXIST] with the
    directory's attributes before and after, and nothing is created; if the name
    does not exist the file is created with the given attributes, and the reply
    carries its handle and its attributes. *)
Theorem guarded_create_correct xid args attrs dirid v a v1 :
  vfs_capabilities v = (Ret ReadWrite, v) ->
  CREATE3args_how args = GUARDED attrs ->
  fh_from_nfs fhc (diropargs3_dir (CREATE3args_where_ args)) = Ok dirid ->
  vfs_getattr dirid v = (Ret (Ok a), v1) ->
  let name := diropargs3_name (CREATE3args_where_ args) in
  let before := Some (mk_wcc_attr (fattr3_size a) (fattr3_mtime a) (fattr3_ctime a)) in
  (forall h v2 after v3, vfs_lookup dirid name v1 = (Ret (Ok h), v2) ->
     vfs_getattr dirid v2 = (Ret after, v3) ->
     nfsproc3_create fs fhc xid args v =
     (Ret (NfsErr NFS3ERR_EXIST (mk_CREATE3resfail
             (mk_wcc_data before (nfs_option_from_result after)))), v3)) /\
  (forall e v2 h b v3 after v4, vfs_lookup dirid name v1 = (Ret (Err e), v2) ->
     vfs_create dirid name attrs v2 = (Ret (Ok (h, b)), v3) ->
     vfs_getattr dirid v3 = (Ret after, v4) ->
     nfsproc3_create fs fhc xid args v =
     (Ret (NfsOk (mk_CREATE3resok (Some (fh_to_nfs fhc h)) (Some b)
             (mk_wcc_data before (nfs_option_from_result after)))), v4)).
Proof.
  intros Hc Hhow Hh Hg name before. unfold nfsproc3_create.
  rewrite (require_write_rw _ _ _ Hc), (fh_to_id_ok _ _ _ _ Hh).
  rewrite (pbind_Ret _ _ _ _ _ (get_wcc_attr_run _ _ _ _ Hg)). cbn [result_map].
  rewrite Hhow. fold name. unfold guarded_exists. split.
  - intros h v2 after v3 Hl Hg2. unfold pbind at 1 2. rewrite Hl. cbn [is_ok pret].
    unfold pret at 1. by rewrite (pbind_Ret _ _ _ _ _ (getattr_opt_run _ _ _ _ Hg2)).
  - intros e v2 h b v3 after v4 Hl Hcr Hg2. unfold pbind at 1 2. rewrite Hl. unfold pret at 1. cbn [is_ok].
    unfold pbind at 1 2. rewrite Hcr. unfold pret at 1.
    by rewrite (pbind_Ret _ _ _ _ _ (getattr_opt_run _ _ _ _ Hg2)).
Qed.

(** WRITE refuses data whose length is not the announced one with
    [NFS3ERR_INVAL], without touching the file; otherwise the data reaches the
    file system at the given offset, and a successful reply commits to all of it
    (FILE_SYNC) with the write verifier of this run of the server. *)
Theorem write_correct xid args id v r1 v1 r2 v2 :
  vfs_capabilities v = (Ret ReadWrite, v) ->
  fh_from_nfs fhc (WRITE3args_file args) = Ok id ->
  vfs_getattr id v = (Ret r1, v1) ->
  vfs_write id (WRITE3args_offset args) (WRITE3args_data args) v1 = (Ret r2, v2) ->
  let before := nfs_option_from_result (result_map
    (fun a => mk_wcc_attr (fattr3_size a) (fattr3_mtime a) (fattr3_ctime a)) r1) in
  nfsproc3_write fs fhc xid args v =
  if decide (len (WRITE3args_data args) = WRITE3args_count args) then
    (Ret (match r2 with
          | Ok attr => NfsOk (mk_WRITE3resok (mk_wcc_data before (Some attr))
                         (len (WRITE3args_data args)) FILE_SYNC (generation_number_le fhc))
          | Err stat => NfsErr stat (mk_WRITE3resfail (mk_wcc_data before None))
          end), v2)
  else (Ret (NfsErr NFS3ERR_INVAL (mk_WRITE3resfail wcc_data_default)), v).
Proof.
  intros Hc Hh Hg Hw before. unfold nfsproc3_write. rewrite (require_write_rw _ _ _ Hc).
  case_decide as Hl.
  - rewrite (proj2 (Z.eqb_eq _ _) Hl). cbn [negb]. rewrite (fh_to_id_ok _ _ _ _ Hh).
    rewrite (pbind_Ret _ _ _ _ _ (get_wcc_attr_run _ _ _ _ Hg)).
    rewrite (pbind_Ret _ _ _ _ _ Hw). rewrite Hl. by destruct r2.
  - by rewrite (proj2 (Z.eqb_neq _ _) Hl).
Qed.

(** The dispatcher refuses what the server does not implement. Another
    version of the program, an unknown procedure number and the procedures
    MKNOD, LINK and COMMIT are answered with the accepted-but-failed reply that
    names the reason, carrying the xid of the call; no procedure runs. *)
Theorem handle_nfs_refuses (m : IncomingRpcMessage) v :
  in_u32 (im_xid m) ->
  let vers := call_body_vers (im_body m) in
  let proc := call_body_proc (im_body m) in
  exists reason,
    (vers <> 3 -> reason = data_PROG_MISMATCH 3 3) /\
    (vers = 3 -> reason = data_PROC_UNAVAIL) /\
    ((vers <> 3 \/ proc < 0 \/ 21 < proc \/ proc = 11 \/ proc = 15 \/ proc = 21) ->
     exists bs, encodes rpc_msg_codec (accepted (im_xid m) reason) bs /\
       handle_nfs fs fhc m v = (Ret (Ok (Reply bs)), v)).
Proof.
  intros Hx vers proc. unfold handle_nfs. fold vers. unfold NFS3_VERSION.
  destruct (Z.eqb_spec vers 3) as [Hv|Hv]; cbn [negb].
  - exists data_PROC_UNAVAIL. split_and!; [done|done|]. intros Hp.
    destruct (into_error_reply_run m data_PROC_UNAVAIL Hx I) as (bs & Hbs & Hr).
    exists bs. split; [done|]. fold proc. rewrite Hr.
    unfold NFS_PROGRAM_try_from. repeat case_match; done || (exfalso; lia).
  - exists (data_PROG_MISMATCH 3 3). split_and!; [done|done|]. intros _.
    destruct (into_error_reply_run m (data_PROG_MISMATCH 3 3) Hx) as (bs & Hbs & Hr).
    { split; unfold in_u32, u32_MAX; lia. }
    exists bs. split; [done|]. by rewrite Hr.
Qed.
End procedures.

(** ** Witnesses *)

(** A file system of one directory; its state counts the modifications. *)
Module DemoFs.
#[export] Instance target : Target := false.

Definition attr : fattr3 :=
  mk_fattr3 NF3DIR 493 1 0 0 0 0 (mk_specdata3 0 0) 0 1
    (mk_nfstime3 10 0) (mk_nfstime3 20 0) (mk_nfstime3 30 0).

Definition list_iter (T : Type) : Iterator Z T := {|
  it_state := list T;
  it_next l := pret (match l with [] => (NextEof, []) | x :: l => (NextOk x, l) end);
  it_drop _ := pret tt;
|}.

Definition root : FileHandleU64 := fh64_new 1.
Definition name_a : list byte := [x61].
Definition name_b : list byte := [x62].
Definition entries : list (DirEntryPlus FileHandleU64) :=
  [mkDirEntryPlus 2 name_a 1 (Some attr) (Some (fh64_new 2));
   mkDirEntryPlus 3 name_b 2 (Some attr) None].

Definition read_fs : NfsReadFileSystem Z FileHandleU64 := {|
  readdir_iter := ReadDirPlusToReadDir (list_iter _);
  readdirplus_iter := list_iter _;
  vfs_root_dir := pret root;
  vfs_lookup _ name := pret (if decide (name = name_a) then Ok (fh64_new 2) else Err NFS3ERR_NOENT);
  vfs_lookup_by_path _ := pret (Ok root);
  vfs_getattr _ := pret (Ok attr);
  vfs_read _ _ _ := pret (Ok ([x2a], true));
  vfs_readdir _ _ := pret (Ok entries);
  vfs_readdirplus _ _ := pret (Ok entries);
  vfs_readlink _ := pret (Err NFS3ERR_INVAL);
  vfs_fsinfo := fsinfo_default (fun _ => pret (Ok attr));
|}.

Definition fs (cap : VFSCapabilities) : NfsFileSystem Z FileHandleU64 := {|
  nfs_read_fs := read_fs;
  vfs_capabilities := pret cap;
  vfs_setattr _ _ n := (Ret (Ok attr), n + 1);
  vfs_write _ _ _ n := (Ret (Ok attr), n + 1);
  vfs_create _ _ _ n := (Ret (Ok (fh64_new 4, attr)), n + 1);
  vfs_create_exclusive _ _ _ n := (Ret (Ok (fh64_new 4)), n + 1);
  vfs_mkdir _ _ n := (Ret (Ok (fh64_new 4, attr)), n + 1);
  vfs_remove _ _ n := (Ret (Ok tt), n + 1);
  vfs_rename _ _ _ _ n := (Ret (Ok tt), n + 1);
  vfs_symlink _ _ _ _ n := (Ret (Ok (fh64_new 4, attr)), n + 1);
|}.

Definition fhc : FileHandleConverter := converter_new 1700000000000.
Definition fh : nfs_fh3 := fh_to_nfs fhc root.

Lemma fh_ok : fh_from_nfs fhc fh = Ok root.
Proof. apply fh_from_to_nfs, converter_new_wf. Qed.

Definition readdir_args : READDIR3args := mk_READDIR3args fh 0 NONE_COOKIE_VERF 140.
Definition readdirplus_args : READDIRPLUS3args := mk_READDIRPLUS3args fh 0 NONE_COOKIE_VERF 40 512.

Definition ok_of {A E} (d : A) (r : Nfs3Result A E) : A := match r with NfsOk a => a | _ => d end.
Definition run {A} (d : A) (o : outcome A) : A := match o with Ret a => a | _ => d end.

Definition readdir_resok : READDIR3resok :=
  ok_of (mk_READDIR3resok None [] (mk_dirlist3 [] false))
    (run (NfsErr NFS3ERR_IO (mk_READDIR3resfail None)) (fst (nfsproc3_readdir (fs ReadWrite) fhc 7 readdir_args 0))).
Definition readdirplus_resok : READDIRPLUS3resok :=
  ok_of (mk_READDIRPLUS3resok None [] (mk_dirlistplus3 [] false))
    (run (NfsErr NFS3ERR_IO (mk_READDIRPLUS3resfail None))
       (fst (nfsproc3_readdirplus (fs ReadWrite) fhc 7 readdirplus_args 0))).
End DemoFs.

Lemma readdir_correct_witness :
  map entry3_name (dirlist3_entries (READDIR3resok_reply DemoFs.readdir_resok)) = [DemoFs.name_a] /\
  packed_size READDIR3res_codec (NfsOk DemoFs.readdir_resok) <= 140.
Proof.
  split; [vm_compute; reflexivity|].
  refine (proj1 (readdir_correct (DemoFs.fs ReadWrite) DemoFs.fhc 7 DemoFs.readdir_args 0
    DemoFs.readdir_resok 0 _)).
  vm_compute. reflexivity.
Defined.

Lemma readdirplus_correct_witness :
  map entryplus3_name (dirlistplus3_entries (READDIRPLUS3resok_reply DemoFs.readdirplus_resok)) = [DemoFs.name_a] /\
  packed_size READDIRPLUS3res_codec (NfsOk DemoFs.readdirplus_resok) <= 512.
Proof.
  split; [vm_compute; reflexivity|].
  refine (proj1 (readdirplus_correct (DemoFs.fs ReadWrite) DemoFs.fhc 7 DemoFs.readdirplus_args 0
    DemoFs.readdirplus_resok 0 (converter_new_wf _) _)).
  vm_compute. reflexivity.
Defined.

Lemma readdir_terminates_witness :
  fst (nfsproc3_readdir (DemoFs.fs ReadWrite) DemoFs.fhc 7 DemoFs.readdir_args 0) <> OutOfFuel.
Proof.
  refine (proj1 (readdir_terminates (DemoFs.fs ReadWrite) DemoFs.fhc 7 DemoFs.readdir_args
    DemoFs.readdirplus_args 0 _ _ _ _ _ _ _));
    first [done | intros [|x l] v; vm_compute; discriminate].
Defined.

Lemma read_only_refuses_writes_witness :
  nfsproc3_remove (DemoFs.fs ReadOnly) DemoFs.fhc 7
    (mk_REMOVE3args (mk_diropargs3 DemoFs.fh DemoFs.name_a)) 0 =
  (Ret (NfsErr NFS3ERR_ROFS (mk_REMOVE3resfail wcc_data_default)), 0).
Proof. apply (read_only_refuses_writes (DemoFs.fs ReadOnly) DemoFs.fhc 7 0 eq_refl). Defined.

Lemma bad_handle_uniform_witness :
  nfsproc3_getattr (DemoFs.fs ReadWrite) DemoFs.fhc 7 (mk_GETATTR3args demo_fh) 0 =
  (Ret (NfsErr NFS3ERR_STALE tt), 0).
Proof.
  exact (proj1 (bad_handle_uniform (DemoFs.fs ReadWrite) DemoFs.fhc 7 demo_fh NFS3ERR_STALE 0
    ltac:(vm_compute; reflexivity) eq_refl)).
Defined.

Definition demo_sattr : sattr3 := mk_sattr3 None None None None atime_DONT_CHANGE mtime_DONT_CHANGE.

Lemma setattr_guard_correct_witness :
  snd (nfsproc3_setattr (DemoFs.fs ReadWrite) DemoFs.fhc 7
    (mk_SETATTR3args DemoFs.fh demo_sattr (Some (mk_nfstime3 31 0))) 0) = 0.
Proof.
  rewrite (proj1 (setattr_guard_correct (DemoFs.fs ReadWrite) DemoFs.fhc 7
    (mk_SETATTR3args DemoFs.fh demo_sattr (Some (mk_nfstime3 31 0))) DemoFs.root 0 DemoFs.attr 0
    eq_refl DemoFs.fh_ok eq_refl) (mk_nfstime3 31 0) eq_refl ltac:(done)).
  reflexivity.
Defined.

Lemma guarded_create_correct_witness :
  snd (nfsproc3_create (DemoFs.fs ReadWrite) DemoFs.fhc 7
    (mk_CREATE3args (mk_diropargs3 DemoFs.fh DemoFs.name_a) (GUARDED demo_sattr)) 0) = 0.
Proof.
  rewrite (proj1 (guarded_create_correct (DemoFs.fs ReadWrite) DemoFs.fhc 7
    (mk_CREATE3args (mk_diropargs3 DemoFs.fh DemoFs.name_a) (GUARDED demo_sattr)) demo_sattr
    DemoFs.root 0 DemoFs.attr 0 eq_refl eq_refl DemoFs.fh_ok eq_refl)
    (fh64_new 2) 0 (Ok DemoFs.attr) 0 eq_refl eq_refl).
  reflexivity.
Defined.

Lemma write_correct_witness :
  nfsproc3_write (DemoFs.fs ReadWrite) DemoFs.fhc 7
    (mk_WRITE3args DemoFs.fh 0 2 UNSTABLE [x2a]) 0 =
  (Ret (NfsErr NFS3ERR_INVAL (mk_WRITE3resfail wcc_data_default)), 0).
Proof.
  exact (write_correct (DemoFs.fs ReadWrite) DemoFs.fhc 7
    (mk_WRITE3args DemoFs.fh 0 2 UNSTABLE [x2a]) DemoFs.root 0 (Ok DemoFs.attr) 0 (Ok DemoFs.attr) 1
    eq_refl DemoFs.fh_ok eq_refl eq_refl).
Defined.

Lemma handle_nfs_refuses_witness : exists bs,
  encodes rpc_msg_codec (accepted 7 data_PROC_UNAVAIL) bs /\
  handle_nfs (DemoFs.fs ReadWrite) DemoFs.fhc
    (mkIncoming 7 (mk_call_body 2 100003 3 21 opaque_auth_default opaque_auth_default) (Some []) 0) 0 =
  (Ret (Ok (Reply bs)), 0).
Proof.
  destruct (handle_nfs_refuses (DemoFs.fs ReadWrite) DemoFs.fhc
    (mkIncoming 7 (mk_call_body 2 100003 3 21 opaque_auth_default opaque_auth_default) (Some []) 0) 0
    ltac:(cbn; unfold in_u32, u32_MAX; lia)) as (reason & _ & Hreason & H).
  rewrite (Hreason eq_refl) in H. apply H. right. right. right. right. right. reflexivity.
Defined.
