(* ===== verification/Validity.v ===== *)
(** * What a file system promises to the protocol: values that can be encoded

    The interface [ValidFs] says that the methods of a file system keep an
    invariant of its state and give values that have an encoding: attributes,
    names and handles within the widths of the protocol, and no error with the
    status [NFS3_OK].  Against it every NFS procedure gives a result that can be
    encoded. *)

From S2P Require Import Prelude Xdr XdrLaws Nfs3Types RpcTypes RpcWire RpcWireLaws Handle Vfs NfsExt NfsHandlers.
Open Scope Z_scope.
Open Scope nfs_scope.

Create HintDb valid.

(** ** Computations that keep an invariant *)

(** If [m] returns from a state in [P], the result is in [Q]; [P] holds after it
    in any case. *)
Definition post {S A} (P : S -> Prop) (Q : A -> Prop) (m : prog S A) : Prop :=
  forall s, P s -> P (snd (m s)) /\ match fst (m s) with Ret a => Q a | _ => True end.

Lemma post_pret {S A} (P : S -> Prop) (Q : A -> Prop) a : Q a -> post P Q (pret a).
Proof. by intros H s. Qed.

Lemma post_ppanic {S A} (P : S -> Prop) (Q : A -> Prop) : post P Q ppanic.
Proof. by intros s. Qed.

Lemma post_bind {S A B} (P : S -> Prop) (Q : A -> Prop) (R : B -> Prop) m (k : A -> prog S B) :
  post P Q m -> (forall a, Q a -> post P R (k a)) -> post P R (pbind m k).
Proof.
  intros Hm Hk s Hs. unfold pbind. destruct (Hm s Hs) as [H1 H2].
  destruct (m s) as [[a| |] s']; cbn in *; [by apply Hk|done..].
Qed.

Lemma post_mono {S A} (P : S -> Prop) (Q R : A -> Prop) (m : prog S A) :
  post P Q m -> (forall a, Q a -> R a) -> post P R m.
Proof. intros Hm HQ s Hs. destruct (Hm s Hs) as [H1 H2]. split; [done|]. destruct (fst (m s)); auto. Qed.

Lemma in_u32_land a b : in_u32 a -> in_u32 b -> in_u32 (Z.land a b).
Proof.
  unfold in_u32, u32_MAX. intros Ha Hb. rewrite <- (Z.mod_small b (2 ^ 32)), <- Z.land_ones, Z.land_assoc, Z.land_ones by lia.
  pose proof (Z.mod_pos_bound (Z.land a b) (2 ^ 32) eq_refl). lia.
Qed.

(** The result of a method: a value in [Q], or an error that is one. *)
Definition on_ok {A} (Q : A -> Prop) (r : result A nfsstat3) : Prop :=
  match r with Ok a => Q a | Err e => e <> NFS3_OK end.

(** The operators [?] and [map_err]. *)
Lemma post_try {S A B} (P : S -> Prop) (Q : A -> Prop) (R : B -> Prop) m (k : A -> prog S (result B nfsstat3)) :
  post P (on_ok Q) m -> (forall a, Q a -> post P (on_ok R) (k a)) -> post P (on_ok R) (tbind m k).
Proof. intros Hm Hk. eapply post_bind; [exact Hm|]. intros [a|e] Ha; [by apply Hk|by apply post_pret]. Qed.

Lemma post_any {S A} (P : S -> Prop) (Q : A -> Prop) m : post P Q m -> post P (fun _ => True) m.
Proof. intros Hm. by eapply post_mono. Qed.

(** ** The interface *)

Definition handle_valid {H} `{!FileHandle H} (h : H) : Prop := len (fh_as_bytes h) <= 64.

Lemma handle_u64_valid `{Target} id : handle_valid (fh64_new id).
Proof.
  unfold handle_valid. cbn. pose proof (to_ne_bytes_length id) as Hl%bool_decide_eq_true. unfold len. rewrite Hl. lia.
Qed.

(** A listing whose entries are in [Q], as long as the state of the iterator is
    one that it can be in. *)
Definition iterates {V T} (P : V -> Prop) (Q : T -> Prop) (it : Iterator V T)
  (start : vfs_method V (it_state it)) : Prop :=
  exists ok : it_state it -> Prop,
    post P (on_ok ok) start /\
    (forall i, ok i -> post P (fun r => ok r.2 /\
      match r.1 with NextOk e => Q e | NextEof => True | NextErr stat => stat <> NFS3_OK end) (it_next it i)) /\
    (forall i, ok i -> post P (fun _ => True) (it_drop it i)).

Definition plus_valid {H} `{!FileHandle H} (e : DirEntryPlus H) : Prop :=
  valid entry3_codec (plus_to_entry e) /\ valid post_op_attr_codec (dep_name_attributes e) /\
  match dep_name_handle e with Some h => handle_valid h | None => True end.

Class ValidReadFs {V H} `{!FileHandle H} (fs : NfsReadFileSystem V H) (P : V -> Prop) : Prop := {
  vf_root_dir : post P handle_valid vfs_root_dir;
  vf_lookup_by_path : forall path, post P (on_ok handle_valid) (vfs_lookup_by_path path);
  vf_lookup : forall id name, post P (on_ok handle_valid) (vfs_lookup id name);
  vf_getattr : forall id, post P (on_ok (valid fattr3_codec)) (vfs_getattr id);
  vf_read : forall id offset count, post P (on_ok (fun _ => True)) (vfs_read id offset count);
  vf_readdir : forall id cookie, valid u64_codec cookie ->
    iterates P (valid entry3_codec) readdir_iter (vfs_readdir id cookie);
  vf_readdirplus : forall id cookie, valid u64_codec cookie ->
    iterates P plus_valid readdirplus_iter (vfs_readdirplus id cookie);
  vf_readlink : forall id, post P (on_ok (valid nfspath3_codec)) (vfs_readlink id);
  vf_fsinfo : forall id, post P (on_ok (valid FSINFO3resok_codec)) (vfs_fsinfo id);
}.

Class ValidFs {V H} `{!FileHandle H} (fs : NfsFileSystem V H) (P : V -> Prop) : Prop := {
  vf_read_fs :: ValidReadFs nfs_read_fs P;
  vf_capabilities : post P (fun _ => True) vfs_capabilities;
  vf_setattr : forall id attr, valid sattr3_codec attr ->
    post P (on_ok (valid fattr3_codec)) (vfs_setattr id attr);
  vf_write : forall id offset data, valid u64_codec offset -> valid opaque_codec data ->
    post P (on_ok (valid fattr3_codec)) (vfs_write id offset data);
  vf_create : forall id name attr, valid filename3_codec name -> valid sattr3_codec attr ->
    post P (on_ok (fun r => handle_valid r.1 /\ valid fattr3_codec r.2)) (vfs_create id name attr);
  vf_create_exclusive : forall id name verf, valid filename3_codec name -> valid createverf3_codec verf ->
    post P (on_ok handle_valid) (vfs_create_exclusive id name verf);
  vf_mkdir : forall id name, valid filename3_codec name ->
    post P (on_ok (fun r => handle_valid r.1 /\ valid fattr3_codec r.2)) (vfs_mkdir id name);
  vf_remove : forall id name, valid filename3_codec name -> post P (on_ok (fun _ => True)) (vfs_remove id name);
  vf_rename : forall id1 name1 id2 name2, valid filename3_codec name1 -> valid filename3_codec name2 ->
    post P (on_ok (fun _ => True)) (vfs_rename id1 name1 id2 name2);
  vf_symlink : forall id name path attr, valid filename3_codec name -> valid nfspath3_codec path ->
    valid sattr3_codec attr ->
    post P (on_ok (fun r => handle_valid r.1 /\ valid fattr3_codec r.2)) (vfs_symlink id name path attr);
}.

(** The default methods and the read-only adapter keep the promise. *)
Section adapter.
Context {V H : Type} `{!FileHandle H} (P : V -> Prop).

Lemma map_iterator_iterates {T U} (f : T -> U) (it : Iterator V T) (QT : T -> Prop) (QU : U -> Prop)
  (start : vfs_method V (it_state it)) :
  iterates P QT it start -> (forall e, QT e -> QU (f e)) -> iterates P QU (map_iterator f it) start.
Proof.
  intros (ok & Hs & Hn & Hd) Hf. exists ok. split; [done|]. split; [|done]. intros i Hi.
  eapply post_bind; [by apply Hn|]. intros [next i'] Hq. apply post_pret. cbn in *. destruct Hq as [? Hq].
  split; [done|]. destruct next; auto.
Qed.

Lemma lookup_components_post (lookup : H -> filename3 -> vfs_method V H) components fid :
  (forall id name, post P (on_ok handle_valid) (lookup id name)) -> handle_valid fid ->
  post P (on_ok handle_valid) (lookup_components lookup components fid).
Proof.
  intros Hl. revert fid. induction components as [|[|b name] rest IH]; intros fid Hfid; cbn [lookup_components];
    [by apply post_pret|by apply IH|]. eapply post_bind; [apply Hl|]. intros [id|e] Hid; [by apply IH|by apply post_pret].
Qed.

Lemma fsinfo_default_post (getattr : H -> vfs_method V fattr3) id :
  post P (on_ok (valid fattr3_codec)) (getattr id) ->
  post P (on_ok (valid FSINFO3resok_codec)) (fsinfo_default getattr id).
Proof.
  intros Hg. eapply post_bind; [exact Hg|]. intros r Hr. apply post_pret. cbn -[in_u32 in_u64 fattr3_codec].
  destruct r; split_and!; try done; unfold in_u32, in_u64; vm_compute; split; discriminate.
Qed.

Lemma remove_write_valid a : valid fattr3_codec a -> valid fattr3_codec (remove_write_permissions a).
Proof.
  destruct a. cbn -[in_u32 in_u64]. intros Ha. destruct_and!. split_and!; try done.
  apply in_u32_land; [done|]. unfold in_u32. vm_compute. split; discriminate.
Qed.

Lemma ro_entry_valid (e : DirEntryPlus H) : plus_valid e -> plus_valid (ro_entry e).
Proof.
  intros (He & Ha & Hh). split_and!; [done| |done].
  destruct e as [? ? ? [a|] ?]; [|done]. exact (remove_write_valid a Ha).
Qed.

#[export] Instance ReadOnlyAdapter_valid fs : ValidReadFs fs P -> ValidFs (ReadOnlyAdapter fs) P.
Proof.
  intros Hfs.
  assert (forall id, post P (on_ok (valid fattr3_codec)) (ro_getattr fs id)) as Hg.
  { intros id. eapply post_bind; [apply vf_getattr|]. intros [a|e] Ha; apply post_pret; [by apply remove_write_valid|done]. }
  split; [split|..]; intros; try (by apply post_pret).
  - apply (vf_root_dir (ValidReadFs := Hfs)).
  - eapply post_bind; [apply (vf_root_dir (ValidReadFs := Hfs))|]. intros id Hid. apply lookup_components_post; [apply (vf_lookup (ValidReadFs := Hfs))|done].
  - apply (vf_lookup (ValidReadFs := Hfs)).
  - apply Hg.
  - apply (vf_read (ValidReadFs := Hfs)).
  - by apply (vf_readdir (ValidReadFs := Hfs)).
  - eapply map_iterator_iterates; [by apply (vf_readdirplus (ValidReadFs := Hfs))|]. apply ro_entry_valid.
  - apply (vf_readlink (ValidReadFs := Hfs)).
  - by apply fsinfo_default_post.
Qed.
End adapter.

(** ** The procedures *)

Section procedures.
Context {V H : Type} `{!FileHandle H} (fs : NfsFileSystem V H) (fhc : FileHandleConverter).

(** The function that implements a procedure, with the codecs of its arguments
    and its result. *)
Inductive implements : forall {C R}, NFS_PROGRAM -> codec C -> codec R -> (u32 -> C -> prog V R) -> Prop :=
| impl_null : implements NFSPROC3_NULL void_codec void_codec nfsproc3_null
| impl_getattr : implements NFSPROC3_GETATTR GETATTR3args_codec GETATTR3res_codec (nfsproc3_getattr fs fhc)
| impl_setattr : implements NFSPROC3_SETATTR SETATTR3args_codec SETATTR3res_codec (nfsproc3_setattr fs fhc)
| impl_lookup : implements NFSPROC3_LOOKUP LOOKUP3args_codec LOOKUP3res_codec (nfsproc3_lookup fs fhc)
| impl_access : implements NFSPROC3_ACCESS ACCESS3args_codec ACCESS3res_codec (nfsproc3_access fs fhc)
| impl_readlink : implements NFSPROC3_READLINK READLINK3args_codec READLINK3res_codec (nfsproc3_readlink fs fhc)
| impl_read : implements NFSPROC3_READ READ3args_codec READ3res_codec (nfsproc3_read fs fhc)
| impl_write : implements NFSPROC3_WRITE WRITE3args_codec WRITE3res_codec (nfsproc3_write fs fhc)
| impl_create : implements NFSPROC3_CREATE CREATE3args_codec CREATE3res_codec (nfsproc3_create fs fhc)
| impl_mkdir : implements NFSPROC3_MKDIR MKDIR3args_codec MKDIR3res_codec (nfsproc3_mkdir fs fhc)
| impl_symlink : implements NFSPROC3_SYMLINK SYMLINK3args_codec SYMLINK3res_codec (nfsproc3_symlink fs fhc)
| impl_remove : implements NFSPROC3_REMOVE REMOVE3args_codec REMOVE3res_codec (nfsproc3_remove fs fhc)
| impl_rmdir : implements NFSPROC3_RMDIR REMOVE3args_codec REMOVE3res_codec (nfsproc3_remove fs fhc)
| impl_rename : implements NFSPROC3_RENAME RENAME3args_codec RENAME3res_codec (nfsproc3_rename fs fhc)
| impl_readdir : implements NFSPROC3_READDIR READDIR3args_codec READDIR3res_codec (nfsproc3_readdir fs fhc)
| impl_readdirplus :
    implements NFSPROC3_READDIRPLUS READDIRPLUS3args_codec READDIRPLUS3res_codec (nfsproc3_readdirplus fs fhc)
| impl_fsstat : implements NFSPROC3_FSSTAT FSSTAT3args_codec FSSTAT3res_codec (nfsproc3_fsstat fs fhc)
| impl_fsinfo : implements NFSPROC3_FSINFO FSINFO3args_codec FSINFO3res_codec (nfsproc3_fsinfo fs fhc)
| impl_pathconf : implements NFSPROC3_PATHCONF PATHCONF3args_codec PATHCONF3res_codec (nfsproc3_pathconf fs fhc).

Lemma implements_handle_nfs {C R} proc (cc : codec C) (cr : codec R) f m :
  implements proc cc cr f -> call_body_vers (im_body m) = NFS3_VERSION ->
  call_body_proc (im_body m) = NFS_PROGRAM_as_u32 proc ->
  handle_nfs fs fhc m = handle cc cr f m.
Proof.
  intros Hi Hv Hp. unfold handle_nfs. rewrite Hv, Hp, Z.eqb_refl. cbn [negb].
  by destruct Hi.
Qed.

Lemma implements_codecs {C R} proc (cc : codec C) (cr : codec R) f :
  implements proc cc cr f -> CodecOk cc /\ CodecOk cr /\ DecodesValid cc.
Proof. intros Hi. destruct Hi; split_and!; apply _. Qed.

(** ** Their results *)

Context (P : V -> Prop) (Hfs : ValidFs fs P) (Hfhc : converter_wf fhc).

Lemma fh_valid (h : H) : handle_valid h -> valid nfs_fh3_codec (fh_to_nfs fhc h).
Proof.
  unfold handle_valid. intros Hh. cbn. rewrite len_app. unfold len at 1.
  rewrite (converter_le_length _ Hfhc). unfold u32_MAX. split; lia.
Qed.

Lemma getattr_opt_post id : post P (valid post_op_attr_codec) (getattr_opt fs id).
Proof.
  eapply post_bind; [apply vf_getattr|]. intros [a|e] Ha; by apply post_pret.
Qed.

Lemma get_wcc_attr_post id : post P (on_ok (valid wcc_attr_codec)) (get_wcc_attr fs id).
Proof.
  eapply post_bind; [apply vf_getattr|]. intros [a|e] Ha; apply post_pret; [|done].
  cbn -[in_u32 in_u64] in Ha |- *. by destruct_and!.
Qed.

Lemma fh_to_id_post {A E} (Q : Nfs3Result A E -> Prop) fh dflt k :
  (forall e, e <> NFS3_OK -> Q (NfsErr e dflt)) -> (forall id, post P Q (k id)) -> post P Q (fh_to_id fhc fh dflt k).
Proof.
  intros He Hk. unfold fh_to_id. destruct (fh_from_nfs fhc fh) as [id|e] eqn:Efh; [done|]. apply post_pret, He.
  unfold fh_from_nfs, check_handle, ok_or in Efh. by repeat case_match; simplify_eq.
Qed.

Lemma require_write_post {A E} (Q : Nfs3Result A E -> Prop) dflt k :
  Q (NfsErr NFS3ERR_ROFS dflt) -> post P Q k -> post P Q (require_write fs dflt k).
Proof.
  intros He Hk. eapply post_bind; [apply vf_capabilities|]. intros [|] _; [by apply post_pret|done].
Qed.

End procedures.

#[export] Hint Resolve vf_read_fs vf_root_dir vf_lookup_by_path vf_lookup vf_getattr vf_read vf_readlink vf_fsinfo vf_capabilities vf_setattr vf_write vf_create
  vf_create_exclusive vf_mkdir vf_remove vf_rename vf_symlink getattr_opt_post get_wcc_attr_post fh_valid : valid.

Section results.
Context {V H : Type} `{!FileHandle H} (fs : NfsFileSystem V H) (fhc : FileHandleConverter).
Context (P : V -> Prop) (Hfs : ValidFs fs P) (Hfhc : converter_wf fhc).

(** One step of a procedure. *)
Ltac post_step :=
  match goal with
  | |- post _ _ (fh_to_id _ _ _ _) => apply fh_to_id_post; [intros ? ?|intros ?]
  | |- post _ _ (require_write _ _ _) => apply require_write_post; [done| |]
  | |- post _ _ (pret _) => apply post_pret
  | |- post _ _ ppanic => apply post_ppanic
  | |- post _ _ (pbind _ _) => eapply post_bind; [solve [eauto with valid]|intros ? ?]
  | |- post _ _ (match ?r with _ => _ end) => destruct r eqn:?
  | |- post _ _ (if ?r then _ else _) => destruct r eqn:?
  end.


Lemma post_op_attr_some a : valid fattr3_codec a -> valid post_op_attr_codec (Some a).
Proof. done. Qed.
Lemma post_op_attr_none : valid post_op_attr_codec None.
Proof. done. Qed.
Lemma pre_op_attr_some a : valid wcc_attr_codec a -> valid pre_op_attr_codec (Some a).
Proof. done. Qed.
Lemma pre_op_attr_none : valid pre_op_attr_codec None.
Proof. done. Qed.
Lemma post_op_fh3_some h : handle_valid h -> valid post_op_fh3_codec (Some (fh_to_nfs fhc h)).
Proof. apply fh_valid, Hfhc. Qed.
Lemma post_op_attr_result r : on_ok (valid fattr3_codec) r -> valid post_op_attr_codec (nfs_option_from_result r).
Proof. by destruct r. Qed.
Lemma pre_op_attr_result r : on_ok (valid wcc_attr_codec) r -> valid pre_op_attr_codec (nfs_option_from_result r).
Proof. by destruct r. Qed.
Lemma writeverf_valid : valid writeverf3_codec (converter_verf fhc).
Proof. pose proof (converter_le_length _ Hfhc) as Hl. split; [|done]. change (len (generation_number_le fhc) = 8). unfold len. by rewrite Hl. Qed.

#[local] Hint Resolve post_op_attr_some post_op_attr_none pre_op_attr_some pre_op_attr_none post_op_fh3_some
  post_op_attr_result pre_op_attr_result writeverf_valid : valid.

(** Take a valid value apart, down to the values that are parts of many. *)
Ltac open_valid :=
  cbn -[filename3_codec nfspath3_codec sattr3_codec createverf3_codec opaque_codec u32_codec u64_codec fattr3_codec
        wcc_attr_codec post_op_attr_codec pre_op_attr_codec post_op_fh3_codec nfs_fh3_codec writeverf3_codec
        cookieverf3_codec FSINFO3resok_codec entry3_codec entryplus3_codec] in *; destruct_and?; split_and?.

Ltac procedure :=
  repeat post_step; open_valid; cbn [on_ok] in *; destruct_and?; try done; eauto with valid.

Lemma nfsproc3_getattr_post xid args :
  valid GETATTR3args_codec args -> post P (valid GETATTR3res_codec) (nfsproc3_getattr fs fhc xid args).
Proof. intros Ha. unfold nfsproc3_getattr. open_valid. procedure. Qed.

Lemma nfsproc3_setattr_post xid args :
  valid SETATTR3args_codec args -> post P (valid SETATTR3res_codec) (nfsproc3_setattr fs fhc xid args).
Proof. intros Ha. unfold nfsproc3_setattr. open_valid. procedure. Qed.

Lemma nfsproc3_lookup_post xid args :
  valid LOOKUP3args_codec args -> post P (valid LOOKUP3res_codec) (nfsproc3_lookup fs fhc xid args).
Proof. intros Ha. unfold nfsproc3_lookup. open_valid. procedure. Qed.

Lemma nfsproc3_access_post xid args :
  valid ACCESS3args_codec args -> post P (valid ACCESS3res_codec) (nfsproc3_access fs fhc xid args).
Proof.
  intros Ha. unfold nfsproc3_access. open_valid. procedure. destruct a0; [|done].
  apply in_u32_land; [done|]. vm_compute. split; discriminate.
Qed.

Lemma nfsproc3_readlink_post xid args :
  valid READLINK3args_codec args -> post P (valid READLINK3res_codec) (nfsproc3_readlink fs fhc xid args).
Proof. intros Ha. unfold nfsproc3_readlink. open_valid. procedure. Qed.

Lemma nfsproc3_read_post xid args :
  valid READ3args_codec args -> post P (valid READ3res_codec) (nfsproc3_read fs fhc xid args).
Proof.
  intros Ha. unfold nfsproc3_read. open_valid.
  procedure; match goal with H : (_ <=? _) = true |- _ => apply Z.leb_le in H end; [|done].
  split; [apply len_nonneg|done].
Qed.

Lemma nfsproc3_write_post xid args :
  valid WRITE3args_codec args -> post P (valid WRITE3res_codec) (nfsproc3_write fs fhc xid args).
Proof. intros Ha. unfold nfsproc3_write. open_valid. procedure. Qed.

Lemma guarded_exists_post how id name : post P (fun _ => True) (guarded_exists fs how id name).
Proof. unfold guarded_exists. repeat post_step; done. Qed.

#[local] Hint Resolve guarded_exists_post : valid.

Lemma nfsproc3_create_post xid args :
  valid CREATE3args_codec args -> post P (valid CREATE3res_codec) (nfsproc3_create fs fhc xid args).
Proof.
  intros Ha. unfold nfsproc3_create. destruct args as [where_ how]. open_valid. repeat post_step.
  4: { apply (post_bind _ (fun r => on_ok handle_valid r.1 /\ valid post_op_attr_codec r.2)).
    - destruct how; open_valid; procedure; by destruct a2 as [[]|]; cbn in *; destruct_and?.
    - intros [fid attr] [Hfid Hattr]. cbn [fst snd] in *. procedure. }
  all: procedure.
Qed.

Lemma nfsproc3_mkdir_post xid args :
  valid MKDIR3args_codec args -> post P (valid MKDIR3res_codec) (nfsproc3_mkdir fs fhc xid args).
Proof. intros Ha. unfold nfsproc3_mkdir. open_valid. procedure. Qed.

Lemma nfsproc3_symlink_post xid args :
  valid SYMLINK3args_codec args -> post P (valid SYMLINK3res_codec) (nfsproc3_symlink fs fhc xid args).
Proof. intros Ha. unfold nfsproc3_symlink. open_valid. procedure. Qed.

Lemma nfsproc3_remove_post xid args :
  valid REMOVE3args_codec args -> post P (valid REMOVE3res_codec) (nfsproc3_remove fs fhc xid args).
Proof. intros Ha. unfold nfsproc3_remove. open_valid. procedure. Qed.

Lemma nfsproc3_rename_post xid args :
  valid RENAME3args_codec args -> post P (valid RENAME3res_codec) (nfsproc3_rename fs fhc xid args).
Proof. intros Ha. unfold nfsproc3_rename. open_valid. procedure. Qed.

Lemma nfsproc3_fsstat_post xid args :
  valid FSSTAT3args_codec args -> post P (valid FSSTAT3res_codec) (nfsproc3_fsstat fs fhc xid args).
Proof. intros Ha. unfold nfsproc3_fsstat. open_valid. procedure. Qed.

Lemma nfsproc3_fsinfo_post xid args :
  valid FSINFO3args_codec args -> post P (valid FSINFO3res_codec) (nfsproc3_fsinfo fs fhc xid args).
Proof. intros Ha. unfold nfsproc3_fsinfo. open_valid. procedure. Qed.

Lemma nfsproc3_pathconf_post xid args :
  valid PATHCONF3args_codec args -> post P (valid PATHCONF3res_codec) (nfsproc3_pathconf fs fhc xid args).
Proof. intros Ha. unfold nfsproc3_pathconf. open_valid. procedure. Qed.
(** ** Directory listings *)

Lemma fill_loop_post {T L} (it : Iterator V T) (push : T -> L -> bool * L) (QT : T -> Prop) (QL : L -> Prop) ok fuel :
  (forall i, ok i -> post P (fun r => ok r.2 /\
     match r.1 with NextOk e => QT e | NextEof => True | NextErr stat => stat <> NFS3_OK end) (it_next it i)) ->
  (forall e l, QT e -> QL l -> QL (push e l).2) ->
  forall i l, ok i -> QL l -> post P (fun r => ok r.2 /\ on_ok (fun r => QL r.1) r.1) (fill_loop it push fuel i l).
Proof.
  intros Hn Hp. induction fuel as [|fuel IH]; intros i l Hi Hl; [by intros v Hv|].
  cbn [fill_loop]. eapply post_bind; [by apply Hn|]. intros [next i'] [Hi' Hnext]. cbn [fst snd] in *.
  destruct next as [e| |stat]; [|by apply post_pret..].
  pose proof (Hp e l Hnext Hl) as Hl'. destruct (push e l) as [[|] l']; [by apply IH|by apply post_pret].
Qed.

(** A listing: start, fill, drop. *)
Lemma listing_post {T L R} (it : Iterator V T) start (push : T -> L -> bool * L) (QT : T -> Prop) (QL : L -> Prop)
  (QR : R -> Prop) fuel l0 (fail : nfsstat3 -> prog V R) (done_ : L -> bool -> prog V R) :
  iterates P QT it start -> (forall e l, QT e -> QL l -> QL (push e l).2) -> QL l0 ->
  (forall stat, stat <> NFS3_OK -> post P QR (fail stat)) ->
  (forall l eof, QL l -> post P QR (done_ l eof)) ->
  post P QR (do* iter := start in
    match iter with
    | Err stat => fail stat
    | Ok iter =>
        do* (r, iter) := fill_loop it push fuel iter l0 in
        do* _ := it_drop it iter in
        match r with Err stat => fail stat | Ok (l, eof) => done_ l eof end
    end).
Proof.
  intros (ok & Hs & Hn & Hd) Hp Hl Hfail Hdone. eapply post_bind; [exact Hs|]. intros [i|e] Hi; [|by apply Hfail].
  eapply post_bind; [by apply (fill_loop_post it push QT QL ok fuel Hn Hp i l0)|]. intros [r i'] [Hi' Hr]. cbn [fst snd] in *.
  eapply post_bind; [by apply Hd|]. intros _ _. destruct r as [[l eof]|stat]; [by apply Hdone|by apply Hfail].
Qed.

Lemma entry_push_valid e l :
  valid entry3_codec e -> Forall (valid entry3_codec) (bl_list l) ->
  Forall (valid entry3_codec) (bl_list (entry_try_push e l).2).
Proof.
  intros He Hl. unfold entry_try_push, bounded_list_try_push. destruct (_ <? _); cbn; [done|].
  apply Forall_app. split; [done|]. by apply Forall_singleton.
Qed.

Lemma plus_push_valid e l :
  plus_valid e -> Forall (valid entryplus3_codec) (bl_list (bepl_entries l)) ->
  Forall (valid entryplus3_codec) (bl_list (bepl_entries (plus_try_push fhc e l).2)).
Proof.
  intros (He & Ha & Hh) Hl. unfold plus_try_push, bounded_entry_plus_list_try_push, bounded_list_try_push.
  assert (valid entryplus3_codec (into_entry fhc e)) as Hv.
  { destruct e as [id name cookie attrs handle].
    cbn -[post_op_attr_codec nfs_fh3_codec u64_codec opaque_codec] in *. destruct_and?. split_and!; try done.
    destruct handle; [by apply fh_valid|done]. }
  repeat case_match; simplify_eq; cbn; try done; apply Forall_app; (split; [done|]); by apply Forall_singleton.
Qed.

Lemma cookieverf_valid attr : valid cookieverf3_codec (cookieverf_from_attr attr).
Proof. split; [|done]. destruct attr; apply len_to_be_bytes. Qed.

#[local] Hint Resolve cookieverf_valid : valid.

Lemma nfsproc3_readdir_post xid args :
  valid READDIR3args_codec args -> post P (valid READDIR3res_codec) (nfsproc3_readdir fs fhc xid args).
Proof.
  intros Ha. open_valid. unfold nfsproc3_readdir. apply fh_to_id_post; [by intros|intros id].
  eapply post_bind; [apply vf_getattr|]. intros attr Hattr.
  match goal with |- post _ _ (if ?b then _ else _) => destruct b end; [by apply post_pret|].
  destruct (_ <? _); [apply post_pret; open_valid; eauto with valid|].
  apply (listing_post _ _ _ (valid entry3_codec) (fun l => Forall (valid entry3_codec) (bl_list l)));
    [by apply vf_readdir|apply entry_push_valid|constructor|..].
  - intros stat Hstat. apply post_pret. open_valid; eauto with valid.
  - intros l eof Hl. procedure.
Qed.

Lemma nfsproc3_readdirplus_post xid args :
  valid READDIRPLUS3args_codec args -> post P (valid READDIRPLUS3res_codec) (nfsproc3_readdirplus fs fhc xid args).
Proof.
  intros Ha. open_valid. unfold nfsproc3_readdirplus. apply fh_to_id_post; [by intros|intros id].
  eapply post_bind; [apply vf_getattr|]. intros attr Hattr.
  destruct (_ <? 128); [apply post_pret; open_valid; eauto with valid|].
  apply (listing_post _ _ _ plus_valid (fun l => Forall (valid entryplus3_codec) (bl_list (bepl_entries l))));
    [by apply vf_readdirplus|apply plus_push_valid|constructor|..].
  - intros stat Hstat. apply post_pret. open_valid; eauto with valid.
  - intros l eof Hl. procedure.
Qed.

(** The result of every procedure has an encoding. *)
Lemma implements_post {C R} proc (cc : codec C) (cr : codec R) f xid args :
  implements fs fhc proc cc cr f -> valid cc args -> post P (valid cr) (f xid args).
Proof.
  intros Hi Ha. destruct Hi; [by apply post_pret|..].
  - by apply nfsproc3_getattr_post.
  - by apply nfsproc3_setattr_post.
  - by apply nfsproc3_lookup_post.
  - by apply nfsproc3_access_post.
  - by apply nfsproc3_readlink_post.
  - by apply nfsproc3_read_post.
  - by apply nfsproc3_write_post.
  - by apply nfsproc3_create_post.
  - by apply nfsproc3_mkdir_post.
  - by apply nfsproc3_symlink_post.
  - by apply nfsproc3_remove_post.
  - by apply nfsproc3_remove_post.
  - by apply nfsproc3_rename_post.
  - by apply nfsproc3_readdir_post.
  - by apply nfsproc3_readdirplus_post.
  - by apply nfsproc3_fsstat_post.
  - by apply nfsproc3_fsinfo_post.
  - by apply nfsproc3_pathconf_post.
Qed.

(** ** Replies *)

(** The answer to a call: an accepted reply with its xid. *)
Definition replied_to (m : IncomingRpcMessage) (r : result HandleResult rpc_error) : Prop :=
  exists d hd tl, encodes rpc_msg_codec (accepted (im_xid m) d) hd /\ r = Ok (Reply (hd ++ tl)).

Lemma into_success_reply_valid {T} m (c : codec T) v r :
  CodecOk c -> in_u32 (im_xid m) -> valid c v -> into_success_reply m c v = Ret r -> replied_to m r.
Proof.
  intros Hc Hx Hv. destruct (codec_encodes _ (accepted_valid _ data_SUCCESS Hx I)) as [hd Hhd].
  destruct (codec_encodes v Hv) as [bs Hbs]. unfold into_success_reply, into_reply, pack_reply.
  fold (accepted (im_xid m) data_SUCCESS). destruct (_ <=? _); [|done].
  rewrite (encodes_bind _ _ _ _ _ _ [] Hhd Hbs). intros [= <-]. by exists data_SUCCESS, hd, bs.
Qed.

Lemma error_reply_post m m' d :
  in_u32 (im_xid m) -> im_xid m' = im_xid m -> valid accept_stat_data_codec d ->
  post P (replied_to m) (fun v => (into_error_reply m' d, v)).
Proof.
  intros Hx Hm Hd v Hv. split; [done|]. destruct (into_error_reply_run m' d) as (bs & Hbs & ->); [by rewrite Hm|done|].
  exists d, bs, []. by rewrite app_nil_r, <- Hm.
Qed.

Lemma handle_post {C R} (cc : codec C) (cr : codec R) f m :
  DecodesValid cc -> CodecOk cr -> in_u32 (im_xid m) ->
  (forall args, valid cc args -> post P (valid cr) (f (im_xid m) args)) ->
  post P (replied_to m) (handle cc cr f m).
Proof.
  intros Hdec Hcr Hx Hf v Hv. unfold handle. destruct (incoming_take_data m) as [[cur| |] m'] eqn:Em; [|done..].
  assert (im_xid m' = im_xid m) as Hm' by (unfold incoming_take_data in Em; by case_match; simplify_eq).
  unfold cursor_read. destruct (unpack cc (cursor_rest cur)) as [[[args n]|e] rest] eqn:Eu; [|by apply error_reply_post].
  cbn [cur_position cur_data]. destruct (_ =? _); [|by apply error_reply_post].
  assert (valid cc args) as Ha by (by eapply decodes_valid). rewrite Hm'. destruct (Hf args Ha v Hv) as [HP HQ].
  destruct (f (im_xid m) args v) as [[r| |] v']; [|done..]. cbn [fst snd] in *. split; [done|].
  destruct (into_success_reply m' cr r) as [r'| |] eqn:Er; [|done..].
  destruct (into_success_reply_valid m' cr r r' Hcr) as (d & hd & tl & Hhd & ->); [by rewrite Hm'|done..|].
  exists d, hd, tl. by rewrite <- Hm'.
Qed.

Lemma handle_nfs_post m : in_u32 (im_xid m) -> post P (replied_to m) (handle_nfs fs fhc m).
Proof.
  intros Hx. unfold handle_nfs.
  destruct (_ =? _); cbn [negb]; [|by apply error_reply_post].
  assert (forall {C R} proc (cc : codec C) (cr : codec R) f, implements fs fhc proc cc cr f ->
    post P (replied_to m) (handle cc cr f m)) as Hh.
  { intros C R proc cc cr f Hi. destruct (implements_codecs _ _ _ _ _ _ Hi) as (_ & Hcr & Hdec).
    apply handle_post; [done..|]. intros args. by apply (implements_post proc cc cr). }
  destruct (NFS_PROGRAM_try_from _) as [proc|]; [|by apply error_reply_post].
  destruct proc; first [by apply error_reply_post | eapply Hh; constructor].
Qed.

(** C25: No call is lost to an encoding error. Over any file system that keeps its
    side of [ValidFs], whatever the bytes of an NFS call hold, [handle_nfs] never
    returns an error: it answers with an accepted reply that carries the xid of
    the call. The result of each procedure on the arguments that were decoded
    (attributes, handles, names, directory entries, statuses, verifiers) is within
    what the protocol can encode, and the invariant of the file system holds
    again, even when the handler panics. *)
Theorem nfs_results_valid m v :
  in_u32 (im_xid m) -> P v ->
  P (snd (handle_nfs fs fhc m v)) /\
  match fst (handle_nfs fs fhc m v) with
  | Ret r => exists d hd tl, encodes rpc_msg_codec (accepted (im_xid m) d) hd /\ r = Ok (Reply (hd ++ tl))
  | _ => True
  end.
Proof. intros Hx. exact (handle_nfs_post m Hx v). Qed.
End results.
