(* ===== verification/Connect.v ===== *)
(** * The connection builder: [nfs3_client/src/connect.rs]

    [Nfs3ConnectionBuilder] finds the ports of the two services, connects to
    them and mounts the exported directory.  The network is a state [N] with the
    two operations of the trait [Connector] ([net.rs]); a connection is the bytes
    its peer will send and those written on it, as in [RpcClient], and what was
    written on a connection that is dropped stays in a log.  Addresses are opaque:
    the builder only passes on what the standard library parsed from the host name.
    [random] is the sequence of the random numbers that [RpcClient] starts with. *)

From S2P Require Import Prelude Xdr XdrLaws Nfs3Types RpcTypes MountTypes PortmapTypes RpcWire RpcClient.
Open Scope Z_scope.
Open Scope nfs_scope.

Abbreviation u16 := Z (only parsing).

(** The trait [Connector]. *)
Class Connector (N Ip : Type) : Type := {
  connector_connect : Ip * u16 -> N -> result Io io_error * N;
  connector_connect_with_port : Ip * u16 -> u16 -> N -> result Io io_error * N;
}.

Record Nfs3Connection : Type := mkNfs3Connection {
  conn_host : string;
  conn_mount_port : u16;
  conn_mount_path : dirpath;
  conn_mount_client : RpcClient;
  conn_mount_resok : mountres3_ok;
  conn_nfs3_port : u16;
  conn_nfs3_client : RpcClient;
}.

Definition root_nfs_fh3 (c : Nfs3Connection) : nfs_fh3 := mk_nfs_fh3 (mountres3_ok_fhandle (conn_mount_resok c)).

Definition into_nfs3_client (c : Nfs3Connection) : RpcClient := conn_nfs3_client c.

(** [unmount] drops the connection; the client is what has been sent. *)
Definition unmount (fuel : nat) (c : Nfs3Connection) : outcome (result unit client_error) * RpcClient :=
  mount_umnt fuel (conn_mount_path c) (conn_mount_client c).

Record Nfs3ConnectionBuilder : Type := mkBuilder {
  cb_host : string;
  cb_privileged : bool;
  cb_portmapper_port : u16;
  cb_mount_port : option u16;
  cb_nfs3_port : option u16;
  cb_mount_path : dirpath;
  cb_credential : opaque_auth;
  cb_verifier : opaque_auth;
}.

Definition builder_new (host : string) (mount_path : list byte) : Nfs3ConnectionBuilder :=
  mkBuilder host true PMAP_PORT None None mount_path opaque_auth_default opaque_auth_default.

Definition builder_connect_from_privileged_port (connect : bool) (b : Nfs3ConnectionBuilder) :=
  mkBuilder (cb_host b) connect (cb_portmapper_port b) (cb_mount_port b) (cb_nfs3_port b)
    (cb_mount_path b) (cb_credential b) (cb_verifier b).
Definition builder_portmapper_port (port : u16) (b : Nfs3ConnectionBuilder) :=
  mkBuilder (cb_host b) (cb_privileged b) port (cb_mount_port b) (cb_nfs3_port b)
    (cb_mount_path b) (cb_credential b) (cb_verifier b).
Definition builder_mount_port (port : u16) (b : Nfs3ConnectionBuilder) :=
  mkBuilder (cb_host b) (cb_privileged b) (cb_portmapper_port b) (Some port) (cb_nfs3_port b)
    (cb_mount_path b) (cb_credential b) (cb_verifier b).
Definition builder_nfs3_port (port : u16) (b : Nfs3ConnectionBuilder) :=
  mkBuilder (cb_host b) (cb_privileged b) (cb_portmapper_port b) (cb_mount_port b) (Some port)
    (cb_mount_path b) (cb_credential b) (cb_verifier b).
Definition builder_credential (credential : opaque_auth) (b : Nfs3ConnectionBuilder) :=
  mkBuilder (cb_host b) (cb_privileged b) (cb_portmapper_port b) (cb_mount_port b) (cb_nfs3_port b)
    (cb_mount_path b) credential (cb_verifier b).
Definition builder_verifier (verifier : opaque_auth) (b : Nfs3ConnectionBuilder) :=
  mkBuilder (cb_host b) (cb_privileged b) (cb_portmapper_port b) (cb_mount_port b) (cb_nfs3_port b)
    (cb_mount_path b) (cb_credential b) verifier.

Definition MIN_PORT : u16 := 300.
Definition MAX_PORT : u16 := 1023.

(** What the process has besides the builder: the network, the static
    [PORT_INDEX], how many random numbers it has drawn, and what it has written on
    each connection that it has dropped. *)
Record Net (N : Type) : Type := mkNet {
  net_state : N;
  net_port_index : u16;
  net_draws : nat;
  net_closed : list (list byte);
}.
Arguments mkNet {N} _ _ _ _.
Arguments net_state {N} _.
Arguments net_port_index {N} _.
Arguments net_draws {N} _.
Arguments net_closed {N} _.

Section connect.
Context {N Ip : Type} `{!Connector N Ip} (parse_ip : string -> option Ip) (random : nat -> u32) (fuel : nat).

Definition on_network {A} (c : N -> A * N) : prog (Net N) A := fun n =>
  let '(a, s) := c (net_state n) in (Ret a, mkNet s (net_port_index n) (net_draws n) (net_closed n)).

(** [PORT_INDEX.fetch_add(1)]. *)
Definition next_port_index : prog (Net N) u16 := fun n =>
  (Ret (net_port_index n),
   mkNet (net_state n) ((net_port_index n + 1) mod 2 ^ 16) (net_draws n) (net_closed n)).

(** The loop over the privileged ports, [tries] more times. *)
Fixpoint try_ports (tries : nat) (addr : Ip * u16) : prog (Net N) (result Io io_error) :=
  match tries with
  | O => pret (Err OtherIo)
  | S tries' =>
      do* index := next_port_index in
      let local_port := MIN_PORT + index mod (MAX_PORT - MIN_PORT) in
      do* result := on_network (connector_connect_with_port addr local_port) in
      match result with
      | Err AddrInUse => try_ports tries' addr
      | _ => pret result
      end
  end.

Definition connect_from_privileged_port (addr : Ip * u16) : prog (Net N) (result Io io_error) :=
  try_ports (Z.to_nat (MAX_PORT - MIN_PORT + 1)) addr.

Definition host_addr (b : Nfs3ConnectionBuilder) : result Ip io_error := ok_or (parse_ip (cb_host b)) InvalidInput.

Definition builder_connect (b : Nfs3ConnectionBuilder) (port : u16) : prog (Net N) (result Io io_error) :=
  match host_addr b with
  | Err e => pret (Err e)
  | Ok addr =>
      if cb_privileged b then connect_from_privileged_port (addr, port)
      else on_network (connector_connect (addr, port))
  end.

(** [fastrand::u32(..)] in [RpcClient::new]. *)
Definition draw : prog (Net N) u32 := fun n =>
  (Ret (random (net_draws n)), mkNet (net_state n) (net_port_index n) (S (net_draws n)) (net_closed n)).

(** A client goes out of scope, and its connection with it. *)
Definition drop_client (cl : RpcClient) (n : Net N) : Net N :=
  mkNet (net_state n) (net_port_index n) (net_draws n) (net_closed n ++ [io_out (rc_io cl)]).

(** A call on a client, which is a local variable; the [?] of an error drops it. *)
Definition on_client {A} (cl : RpcClient) (m : prog RpcClient (result A client_error))
  : prog (Net N) (result (A * RpcClient) client_error) := fun n =>
  match m cl with
  | (Ret (Ok a), cl) => (Ret (Ok (a, cl)), n)
  | (Ret (Err e), cl) => (Ret (Err e), drop_client cl n)
  | (Panic, _) => (Panic, n)
  | (OutOfFuel, _) => (OutOfFuel, n)
  end.

(** The port that was set, or the one the portmapper gives. *)
Definition resolve_port (set : option u16) (prog_ vers : u32) (portmapper : RpcClient)
  : prog (Net N) (result (u16 * RpcClient) client_error) :=
  match set with
  | Some port => pret (Ok (port, portmapper))
  | None => on_client portmapper (pmap_getport fuel prog_ vers)
  end.

(** The rest of [resolve_ports], when a port is not set. *)
Definition ask_portmapper (b : Nfs3ConnectionBuilder) : prog (Net N) (result (u16 * u16) client_error) :=
  match host_addr b with
  | Err e => pret (Err (CeIo e))
  | Ok addr =>
      try* io := map_err CeIo (on_network (connector_connect (addr, cb_portmapper_port b))) in
      do* xid := draw in
      let portmapper := rpc_client_new io xid in
      try* (mount_port, portmapper) :=
        resolve_port (cb_mount_port b) MOUNT_PROGRAM_NUMBER MOUNT_VERSION portmapper in
      try* (nfs3_port, portmapper) :=
        resolve_port (cb_nfs3_port b) NFS3_PROGRAM NFS3_VERSION portmapper in
      fun n => (Ret (Ok (mount_port, nfs3_port)), drop_client portmapper n)
  end.

Definition resolve_ports (b : Nfs3ConnectionBuilder) : prog (Net N) (result (u16 * u16) client_error) :=
  match cb_mount_port b, cb_nfs3_port b with
  | Some mount_port, Some nfs3_port => pret (Ok (mount_port, nfs3_port))
  | _, _ => ask_portmapper b
  end.

Definition builder_mount (b : Nfs3ConnectionBuilder) : prog (Net N) (result Nfs3Connection client_error) :=
  try* (mount_port, nfs3_port) := resolve_ports b in
  try* io := map_err CeIo (builder_connect b mount_port) in
  do* xid := draw in
  let mount_client := rpc_client_new_with_auth io xid (cb_credential b) (cb_verifier b) in
  try* (mount_resok, mount_client) := on_client mount_client (mount_mnt fuel (cb_mount_path b)) in
  do* connected := map_err CeIo (builder_connect b nfs3_port) in
  match connected with
  | Err e => fun n => (Ret (Err e), drop_client mount_client n)
  | Ok io =>
      do* xid := draw in
      let nfs3_client := rpc_client_new_with_auth io xid (cb_credential b) (cb_verifier b) in
      pret (Ok (mkNfs3Connection (cb_host b) mount_port (cb_mount_path b) mount_client mount_resok
                  nfs3_port nfs3_client))
  end.
End connect.
