(* ===== verification/ConnectLaws.v ===== *)
(** * Laws of the connection builder

    The search for a privileged port, calls that are answered, and what mounting
    sends, on each connection, and returns. *)

From S2P Require Import Prelude Xdr XdrLaws Nfs3Types RpcTypes MountTypes PortmapTypes RpcWire RpcWireLaws.
From S2P Require Import RpcClient RpcClientLaws Connect.
Open Scope Z_scope.
Open Scope nfs_scope.

(** ** Steps of a computation that may fail *)

Lemma tbind_ok {S A B E} (m : prog S (result A E)) (k : A -> prog S (result B E)) s a s' :
  m s = (Ret (Ok a), s') -> tbind m k s = k a s'.
Proof. intros H. unfold tbind, pbind. by rewrite H. Qed.

Lemma tbind_err {S A B E} (m : prog S (result A E)) (k : A -> prog S (result B E)) s e s' :
  m s = (Ret (Err e), s') -> tbind m k s = (Ret (Err e), s').
Proof. intros H. unfold tbind, pbind. by rewrite H. Qed.

Lemma map_err_ret {S A E F} (f : E -> F) (m : prog S (result A E)) s r s' :
  m s = (Ret r, s') -> map_err f m s = (Ret (result_map_err f r), s').
Proof. intros H. unfold map_err, pbind. by rewrite H. Qed.

Lemma pbind_ret {S A B} (m : prog S A) (k : A -> prog S B) s a s' : m s = (Ret a, s') -> pbind m k s = k a s'.
Proof. intros H. unfold pbind. by rewrite H. Qed.

(** ** Privileged ports *)

(** The ports that [n] turns of the loop try. *)
Definition port_seq (index : u16) (n : nat) : list Z :=
  map (fun k => MIN_PORT + (index + Z.of_nat k) mod 2 ^ 16 mod (MAX_PORT - MIN_PORT)) (seq 0 n).

(** The first of the ports from which the address can be connected to, or for
    which the connection fails for another reason than the port being in use. *)
Fixpoint first_free {N Ip} `{!Connector N Ip} (addr : Ip * Z) (ports : list Z) (s : N) : result Io io_error * N :=
  match ports with
  | [] => (Err OtherIo, s)
  | port :: ports =>
      match connector_connect_with_port addr port s with
      | (Err AddrInUse, s) => first_free addr ports s
      | r => r
      end
  end.

Lemma port_seq_cons index n :
  port_seq index (S n) = MIN_PORT + index mod 2 ^ 16 mod (MAX_PORT - MIN_PORT) :: port_seq ((index + 1) mod 2 ^ 16) n.
Proof.
  unfold port_seq. rewrite <- cons_seq. cbn [map]. rewrite Z.add_0_r. f_equal.
  rewrite <- seq_shift, map_map. apply map_ext. intros k.
  do 2 f_equal. rewrite Zplus_mod_idemp_l. f_equal. lia.
Qed.

Section laws.
Context {N Ip : Type} `{!Connector N Ip}.
Implicit Types n : Net N.

Lemma try_ports_run tries addr n :
  in_u16 (net_port_index n) ->
  exists i, try_ports tries addr n =
    (Ret (fst (first_free addr (port_seq (net_port_index n) tries) (net_state n))),
     mkNet (snd (first_free addr (port_seq (net_port_index n) tries) (net_state n))) i (net_draws n) (net_closed n)) /\ in_u16 i.
Proof.
  revert n. induction tries as [|tries IH]; intros [s index draws closed] Hi; cbn [net_port_index] in Hi.
  { exists index. done. }
  assert (in_u16 ((index + 1) mod 2 ^ 16)) as Hi'.
  { pose proof (Z.mod_pos_bound (index + 1) (2 ^ 16) eq_refl). unfold in_u16, u16_MAX. lia. }
  cbn [net_port_index net_state net_draws net_closed]. rewrite port_seq_cons.
  rewrite (Z.mod_small index (2 ^ 16)) by (unfold in_u16, u16_MAX in Hi; lia).
  cbn [try_ports first_free]. unfold next_port_index, on_network, pbind. cbn [net_port_index net_state net_draws net_closed].
  destruct (connector_connect_with_port addr _ s) as [[io|[]] s']; try by exists ((index + 1) mod 2 ^ 16).
  exact (IH (mkNet s' ((index + 1) mod 2 ^ 16) draws closed) Hi').
Qed.

(** C27: The search for a privileged port is the search for the first free port in
    the sequence of ports from the shared index on, when no other search runs at the
    same time: it returns the first result that is not "address in use" and stops
    there, and fails with an error of its own if all are in use. Every port tried is
    in 300-1022, and if the 16-bit index does not wrap on the way each of them is tried. *)
Theorem privileged_port_search addr n :
  in_u16 (net_port_index n) ->
  let ports := port_seq (net_port_index n) 724 in
  (exists i, connect_from_privileged_port addr n =
     (Ret (fst (first_free addr ports (net_state n))),
      mkNet (snd (first_free addr ports (net_state n))) i (net_draws n) (net_closed n))) /\
  fst (first_free addr ports (net_state n)) <> Err AddrInUse /\
  (forall port, port ∈ ports -> 300 <= port <= 1022) /\
  (net_port_index n + 724 <= 2 ^ 16 -> forall port, 300 <= port <= 1022 -> port ∈ ports).
Proof.
  intros Hi ports. split_and!.
  - destruct (try_ports_run 724 addr n Hi) as (i & E & _). by exists i.
  - generalize (net_state n). induction ports as [|port ports IH]; intros s; [done|]. cbn.
    destruct (connector_connect_with_port addr port s) as [[io|[]] s'] eqn:E; cbn; done.
  - intros port (k & <- & _)%list_elem_of_In%in_map_iff. unfold MIN_PORT, MAX_PORT.
    pose proof (Z.mod_pos_bound ((net_port_index n + Z.of_nat k) mod 2 ^ 16) (1023 - 300) eq_refl). lia.
  - intros Hw port Hp. apply list_elem_of_In, in_map_iff.
    set (index := net_port_index n) in *. exists (Z.to_nat ((port - 300 - index) mod 723)).
    pose proof (Z.mod_pos_bound (port - 300 - index) 723 eq_refl) as Hk. unfold in_u16 in Hi.
    split; [|apply in_seq; lia]. rewrite Z2Nat.id by lia. rewrite (Z.mod_small _ (2 ^ 16)) by lia.
    unfold MIN_PORT, MAX_PORT. change (1023 - 300) with 723. rewrite Z.add_mod_idemp_r by lia.
    replace (index + (port - 300 - index)) with (port - 300) by lia. rewrite Z.mod_small by lia. lia.
Qed.
End laws.

(** ** Calls that are answered *)

(** The bytes of a successful reply. *)
Definition reply_payload {R} (xid : u32) (c : codec R) (r : R) : list byte :=
  to_bytes rpc_msg_codec (accepted xid data_SUCCESS) ++ to_bytes c r.

Definition reply_wire {R} (xid : u32) (c : codec R) (r : R) : list byte :=
  fragment_bytes true (reply_payload xid c r).

Lemma reply_payload_eq {R} xid (c : codec R) r :
  reply_payload xid c r = to_bytes rpc_msg_codec (accepted xid data_SUCCESS) ++ to_bytes c r.
Proof. reflexivity. Qed.

Lemma reply_wire_eq {R} xid (c : codec R) r :
  reply_wire xid c r = fragment_bytes true (to_bytes rpc_msg_codec (accepted xid data_SUCCESS) ++ to_bytes c r).
Proof. reflexivity. Qed.

(** What the peer of a client will send. *)
Definition peer_sends (cl : RpcClient) (bytes : list byte) : Prop :=
  chunks_ok (io_in (rc_io cl)) /\ concat (io_in (rc_io cl)) = bytes.

Definition auth_ok (a : opaque_auth) : Prop := len (opaque_auth_body a) <= 400.

(** [cl'] is [cl] after a call: the next number, the same credentials. *)
Definition called (cl cl' : RpcClient) : Prop :=
  rc_xid cl' = (rc_xid cl + 1) mod 2 ^ 32 /\ rc_credential cl' = rc_credential cl /\
  rc_verifier cl' = rc_verifier cl.

Lemma auth_ok_valid a : auth_ok a -> valid opaque_auth_codec a /\ packed_size opaque_auth_codec a <= 412.
Proof.
  unfold auth_ok. intros Ha. cbn -[add_padding]. rewrite add_padding_div.
  split; [|Z.to_euclidean_division_equations; lia]. split_and!; try done; unfold u32_MAX; lia.
Qed.

(** The header of a call is small. *)
Lemma call_header cl prog_ vers proc :
  in_u32 prog_ -> in_u32 vers -> in_u32 proc -> in_u32 (rc_xid cl) ->
  auth_ok (rc_credential cl) -> auth_ok (rc_verifier cl) ->
  let msg := mk_rpc_msg (rc_xid cl)
    (body_CALL (mk_call_body RPC_VERSION_2 prog_ vers proc (rc_credential cl) (rc_verifier cl))) in
  valid rpc_msg_codec msg /\ packed_size rpc_msg_codec msg <= 1000.
Proof.
  intros Hp Hv Hpr Hx [Hc1 Hc2]%auth_ok_valid [Hv1 Hv2]%auth_ok_valid msg. split.
  - cbn -[in_u32 opaque_auth_codec]. by split_and!.
  - cbn -[opaque_auth_codec]. lia.
Qed.

Lemma reply_payload_len {R} xid (c : codec R) (r : R) :
  CodecOk c -> in_u32 xid -> valid c r -> packed_size c r <= 1000000 -> len (reply_payload xid c r) <= MASK.
Proof.
  intros Hc Hx Hr Hs. unfold reply_payload. rewrite len_app, (enc_size _ _ _ (encodes_to_bytes _ _ _ Hr)),
    (enc_size _ _ _ (encodes_to_bytes _ _ _ (accepted_valid xid data_SUCCESS Hx I))), accepted_size.
  assert (packed_size accept_stat_data_codec data_SUCCESS = 4) as -> by reflexivity. unfold MASK. lia.
Qed.

Lemma fragment_bytes_length payload :
  len payload <= MASK -> length (fragment_bytes true payload) = (length payload + 4)%nat.
Proof. intros Hl. pose proof (fragment_bytes_len true _ Hl) as H. unfold len in H. lia. Qed.

(** A call in terms of what is sent and received. *)
Lemma rpc_call_run {C R} fuel (cc : codec C) (cr : codec R) prog_ vers proc args r rest cl cs buf :
  let msg := mk_rpc_msg (rc_xid cl)
    (body_CALL (mk_call_body RPC_VERSION_2 prog_ vers proc (rc_credential cl) (rc_verifier cl))) in
  send_call msg cc args = Ret (Ok buf) ->
  recv_reply fuel cr (rc_xid cl) (io_in (rc_io cl)) = (Ret (Ok r), cs) -> concat cs = rest -> chunks_ok cs ->
  exists cl', rpc_call fuel cc cr prog_ vers proc args cl = (Ret (Ok r), cl') /\ called cl cl' /\ peer_sends cl' rest /\
    io_out (rc_io cl') = io_out (rc_io cl) ++ buf.
Proof.
  intros msg Hsend E H1 H2. eexists. split.
  { unfold rpc_call. fold msg. rewrite Hsend. cbn [rpc_msg_xid msg]. rewrite E. reflexivity. }
  split; [by split_and!|by split].
Qed.

(** The same, of any encodings of the request and the reply. *)
Lemma rpc_call_encodes {C R} fuel (cc : codec C) (cr : codec R) prog_ vers proc args mb ab r hd bs rest cl :
  let msg := mk_rpc_msg (rc_xid cl)
    (body_CALL (mk_call_body RPC_VERSION_2 prog_ vers proc (rc_credential cl) (rc_verifier cl))) in
  CodecOk cc -> CodecOk cr -> encodes rpc_msg_codec msg mb -> encodes cc args ab -> len (mb ++ ab) <= MASK ->
  encodes rpc_msg_codec (accepted (rc_xid cl) data_SUCCESS) hd -> encodes cr r bs -> len (hd ++ bs) <= MASK ->
  peer_sends cl (fragment_bytes true (hd ++ bs) ++ rest) -> (length (fragment_bytes true (hd ++ bs)) <= fuel)%nat ->
  exists cl', rpc_call fuel cc cr prog_ vers proc args cl = (Ret (Ok r), cl') /\ called cl cl' /\ peer_sends cl' rest /\
    io_out (rc_io cl') = io_out (rc_io cl) ++ fragment_bytes true (mb ++ ab).
Proof.
  intros msg Hcc Hcr Hmb Hab Hsent Hhd Hbs Hlen [Hok Hin] Hfuel. rewrite len_app in Hsent.
  rewrite (fragment_bytes_length _ Hlen) in Hfuel.
  destruct (recv_reply_fragment cr fuel (rc_xid cl) _ rest (io_in (rc_io cl)) Hok Hin Hlen Hfuel)
    as (cs & E & Hcs & Hrest).
  rewrite (parse_reply_success _ _ _ _ _ Hhd Hbs) in E.
  exact (rpc_call_run fuel cc cr prog_ vers proc args r rest cl cs _ (send_call_run _ cc args mb ab Hcc Hmb Hab Hsent) E Hrest Hcs).
Qed.

(** A call of the client, as it goes over the wire. *)
Definition call_wire {C} (cl : RpcClient) (cc : codec C) (prog_ vers proc : u32) (args : C) : list byte :=
  message_wire ([], call_bytes (rc_xid cl) (mk_call_body 2 prog_ vers proc (rc_credential cl) (rc_verifier cl)) (to_bytes cc args)).

(** A call whose reply the peer sends is written once and returns what the reply holds. *)
Lemma rpc_call_reply {C R} fuel (cc : codec C) (cr : codec R) prog_ vers proc args r rest cl :
  CodecOk cc -> CodecOk cr -> in_u32 prog_ -> in_u32 vers -> in_u32 proc -> in_u32 (rc_xid cl) ->
  auth_ok (rc_credential cl) -> auth_ok (rc_verifier cl) ->
  valid cc args -> packed_size cc args <= 1000000 -> valid cr r -> packed_size cr r <= 1000000 ->
  peer_sends cl (reply_wire (rc_xid cl) cr r ++ rest) -> (length (reply_wire (rc_xid cl) cr r) <= fuel)%nat ->
  exists cl', rpc_call fuel cc cr prog_ vers proc args cl = (Ret (Ok r), cl') /\ called cl cl' /\ peer_sends cl' rest /\
    io_out (rc_io cl') = io_out (rc_io cl) ++ call_wire cl cc prog_ vers proc args.
Proof.
  intros Hcc Hcr Hp Hv Hpr Hx Hc Hve Hargs Hsize Hr Hrsize Hpeer Hf.
  rewrite reply_wire_eq in Hpeer, Hf. pose proof (reply_payload_len (rc_xid cl) cr r Hcr Hx Hr Hrsize) as Hlen.
  rewrite reply_payload_eq in Hlen.
  destruct (call_header cl prog_ vers proc Hp Hv Hpr Hx Hc Hve) as [Hm Hms].
  pose proof (encodes_to_bytes _ _ _ Hm) as Hmb. pose proof (encodes_to_bytes _ _ _ Hargs) as Hab.
  exact (rpc_call_encodes fuel cc cr prog_ vers proc args _ _ r
    (to_bytes rpc_msg_codec (accepted (rc_xid cl) data_SUCCESS)) (to_bytes cr r) rest cl Hcc Hcr Hmb Hab
    ltac:(rewrite len_app, (enc_size _ _ _ Hmb), (enc_size _ _ _ Hab); unfold MASK; lia)
    (encodes_to_bytes _ _ _ (accepted_valid (rc_xid cl) data_SUCCESS Hx I)) (encodes_to_bytes _ _ _ Hr)
    Hlen Hpeer Hf).
Qed.

(** ** Mounting *)

Section mounting.
Context {N Ip : Type} `{!Connector N Ip} (parse_ip : string -> option Ip) (random : nat -> u32) (fuel : nat).
Implicit Types n : Net N.

Lemma pmap_getport_reply prog_ vers port rest cl :
  in_u32 prog_ -> in_u32 vers -> in_u32 (rc_xid cl) -> auth_ok (rc_credential cl) -> auth_ok (rc_verifier cl) ->
  1 <= port <= u16_MAX ->
  peer_sends cl (reply_wire (rc_xid cl) u32_codec port ++ rest) ->
  (length (reply_wire (rc_xid cl) u32_codec port) <= fuel)%nat ->
  exists cl', pmap_getport fuel prog_ vers cl = (Ret (Ok port), cl') /\ called cl cl' /\ peer_sends cl' rest /\
    io_out (rc_io cl') = io_out (rc_io cl) ++ call_wire cl mapping_codec 100000 2 3 (mk_mapping prog_ vers 6 0).
Proof.
  intros Hp Hv Hx Hc Hve Hport Hpeer Hf. unfold u16_MAX in Hport.
  destruct (rpc_call_reply fuel mapping_codec u32_codec PMAP_PROGRAM_NUMBER PMAP_VERSION
    (PMAP_PROG_as_u32 PMAPPROC_GETPORT) (mk_mapping prog_ vers IPPROTO_TCP 0) port rest cl)
    as (cl' & E & Hcl & Hrest & Hout); try done; try apply _;
    try (cbn; unfold in_u32, u32_MAX, PMAP_PROGRAM_NUMBER, PMAP_VERSION, IPPROTO_TCP in *; split_and!; lia).
  exists cl'. unfold pmap_getport, pmap_call, pbind. rewrite E. split; [|done]. unfold pret, u16_MAX.
  by rewrite (proj2 (Z.leb_le _ _)), (proj2 (Z.eqb_neq _ _)) by lia.
Qed.

Lemma mount_mnt_reply path res rest cl :
  len path <= 1024 -> valid mountres3_codec res -> packed_size mountres3_codec res <= 1000000 ->
  in_u32 (rc_xid cl) -> auth_ok (rc_credential cl) -> auth_ok (rc_verifier cl) ->
  peer_sends cl (reply_wire (rc_xid cl) mountres3_codec res ++ rest) ->
  (length (reply_wire (rc_xid cl) mountres3_codec res) <= fuel)%nat ->
  exists cl', mount_mnt fuel path cl =
    (Ret (match res with mountres3_Ok ok => Ok ok | mountres3_Err e => Err (CeMountError e) end), cl') /\
    called cl cl' /\ peer_sends cl' rest /\
    io_out (rc_io cl') = io_out (rc_io cl) ++ call_wire cl dirpath_codec 100005 3 1 path.
Proof.
  intros Hpath Hr Hrs Hx Hc Hv Hpeer Hf.
  destruct (rpc_call_reply fuel dirpath_codec mountres3_codec MOUNT_PROGRAM_NUMBER MOUNT_VERSION
    (MOUNT_PROGRAM_as_u32 MOUNTPROC3_MNT) path res rest cl) as (cl' & E & Hcl & Hrest & Hout);
    try done; try apply _.
  - cbn. unfold u32_MAX. lia.
  - cbn -[add_padding]. rewrite add_padding_div. Z.to_euclidean_division_equations. lia.
  - exists cl'. unfold mount_mnt, mount_call, pbind. rewrite E. by destruct res.
Qed.

(** What the portmapper sends for the ports that were not set. *)
Definition pmap_wire (b : Nfs3ConnectionBuilder) (xid mount_port nfs3_port : Z) : list byte :=
  match cb_mount_port b with Some _ => [] | None => reply_wire xid u32_codec mount_port end ++
  match cb_nfs3_port b with
  | Some _ => []
  | None =>
      reply_wire (match cb_mount_port b with Some _ => xid | None => (xid + 1) mod 2 ^ 32 end) u32_codec nfs3_port
  end.

(** A port that was set, or one that the portmapper may give. *)
Definition port_of (set : option u16) (port : Z) : Prop :=
  match set with Some p => port = p | None => 1 <= port <= u16_MAX end.

Definition drawn (n : Net N) : Net N := mkNet (net_state n) (net_port_index n) (S (net_draws n)) (net_closed n).

(** GETPORT of version 3 of a program over TCP, with no credentials. *)
Definition getport_wire (xid prog_ : u32) : list byte :=
  message_wire ([], call_bytes xid (mk_call_body 2 100000 2 3 opaque_auth_default opaque_auth_default)
    (to_bytes mapping_codec (mk_mapping prog_ 3 6 0))).

(** The requests to the portmapper: for the port of MOUNT, then for that of NFS. *)
Definition asked_ports (b : Nfs3ConnectionBuilder) (xid : u32) : list byte :=
  match cb_mount_port b with Some _ => [] | None => getport_wire xid 100005 end ++
  match cb_nfs3_port b with
  | Some _ => []
  | None => getport_wire (match cb_mount_port b with Some _ => xid | None => (xid + 1) mod 2 ^ 32 end) 100003
  end.

(** What has been written on the connection to the portmapper, if there was one. *)
Definition portmapper_log (b : Nfs3ConnectionBuilder) (n : Net N) : list (list byte) :=
  if bool_decide (is_Some (cb_mount_port b) /\ is_Some (cb_nfs3_port b)) then []
  else [asked_ports b (random (net_draws n))].

(** MNT of the path of the builder, with its credentials. *)
Definition mnt_wire (b : Nfs3ConnectionBuilder) (xid : u32) : list byte :=
  message_wire ([], call_bytes xid (mk_call_body 2 100005 3 1 (cb_credential b) (cb_verifier b))
    (to_bytes dirpath_codec (cb_mount_path b))).

Lemma draw_run {A} (k : u32 -> prog (Net N) A) n : pbind (draw random) k n = k (random (net_draws n)) (drawn n).
Proof. reflexivity. Qed.

(** The ports the builder is to use, and the network after finding them: either
    both were set and nothing happened, or the portmapper was asked. *)
Definition ports_found (b : Nfs3ConnectionBuilder) (n : Net N) (mount_port nfs3_port : Z) (n' : Net N) : Prop :=
  port_of (cb_mount_port b) mount_port /\ port_of (cb_nfs3_port b) nfs3_port /\
  if bool_decide (is_Some (cb_mount_port b) /\ is_Some (cb_nfs3_port b)) then n' = n
  else exists ip io s,
    parse_ip (cb_host b) = Some ip /\
    connector_connect (ip, cb_portmapper_port b) (net_state n) = (Ok io, s) /\
    io_out io = [] /\
    n' = drawn (mkNet s (net_port_index n) (net_draws n) (net_closed n ++ [asked_ports b (random (net_draws n))])) /\
    in_u32 (random (net_draws n)) /\
    (length (pmap_wire b (random (net_draws n)) mount_port nfs3_port) <= fuel)%nat /\
    peer_sends (rpc_client_new io (random (net_draws n))) (pmap_wire b (random (net_draws n)) mount_port nfs3_port).

Lemma in_u32_succ x : in_u32 ((x + 1) mod 2 ^ 32).
Proof. pose proof (Z.mod_pos_bound (x + 1) (2 ^ 32) eq_refl). unfold in_u32, u32_MAX. lia. Qed.

Lemma resolve_port_run set prog_ vers port rest cl xid n :
  in_u32 prog_ -> in_u32 vers -> rc_xid cl = xid -> in_u32 xid -> auth_ok (rc_credential cl) -> auth_ok (rc_verifier cl) ->
  port_of set port ->
  let wire := match set with Some _ => [] | None => reply_wire xid u32_codec port end in
  peer_sends cl (wire ++ rest) -> (length wire <= fuel)%nat ->
  exists cl', resolve_port fuel set prog_ vers cl n = (Ret (Ok (port, cl')), n) /\ peer_sends cl' rest /\
    match set with Some _ => cl' = cl | None => called cl cl' end /\
    io_out (rc_io cl') = io_out (rc_io cl) ++
      match set with Some _ => [] | None => call_wire cl mapping_codec 100000 2 3 (mk_mapping prog_ vers 6 0) end.
Proof.
  intros Hp Hv <- Hx Hc Hve Hport wire Hpeer Hf. destruct set as [p|]; cbn in Hport.
  { subst. exists cl. by rewrite app_nil_r. }
  destruct (pmap_getport_reply prog_ vers port rest cl) as (cl' & E & Hcl & Hrest & Hout); try done.
  exists cl'. cbn [resolve_port]. unfold on_client. by rewrite E.
Qed.

Lemma auth_ok_default : auth_ok opaque_auth_default.
Proof. done. Qed.

Lemma resolve_ports_run b n mount_port nfs3_port n' :
  ports_found b n mount_port nfs3_port n' ->
  resolve_ports parse_ip random fuel b n = (Ret (Ok (mount_port, nfs3_port)), n').
Proof.
  intros (Hm & Hn & Hfound). case_bool_decide as Hset.
  { destruct Hset as [[p Hp] [q Hq]]. unfold resolve_ports. rewrite Hp, Hq in *. by cbn in *; subst. }
  destruct Hfound as (ip & io & s & Hip & Hconn & Hio & -> & Hx & Hf & Hpeer).
  unfold pmap_wire in Hf, Hpeer. rewrite length_app in Hf.
  assert (resolve_ports parse_ip random fuel b = ask_portmapper parse_ip random fuel b) as ->.
  { unfold resolve_ports. destruct (cb_mount_port b), (cb_nfs3_port b); naive_solver. }
  unfold ask_portmapper, host_addr, ok_or. rewrite Hip.
  rewrite (tbind_ok _ _ _ io (mkNet s (net_port_index n) (net_draws n) (net_closed n)))
    by (unfold map_err, pbind, on_network; by rewrite Hconn).
  set (n1 := mkNet s (net_port_index n) (S (net_draws n)) (net_closed n)). set (c0 := rpc_client_new io (random (net_draws n))).
  destruct (resolve_port_run (cb_mount_port b) MOUNT_PROGRAM_NUMBER MOUNT_VERSION mount_port _ c0 _ n1
    ltac:(done) ltac:(done) eq_refl Hx auth_ok_default auth_ok_default Hm Hpeer ltac:(cbn; lia)) as (c1 & E1 & Hpeer1 & Hc1 & Ho1).
  rewrite draw_run. cbv zeta. fold c0. change (drawn (mkNet _ _ _ (net_closed n))) with n1. rewrite (tbind_ok _ _ _ _ _ E1).
  assert (in_u32 (rc_xid c1) /\ rc_credential c1 = opaque_auth_default /\ rc_verifier c1 = opaque_auth_default /\
    rc_xid c1 = match cb_mount_port b with Some _ => random (net_draws n)
                | None => (random (net_draws n) + 1) mod 2 ^ 32 end) as (Hx1 & Hcr & Hve & Heq).
  { destruct (cb_mount_port b); [by subst|]. destruct Hc1 as (-> & -> & ->). split_and!; try done. apply in_u32_succ. }
  rewrite <- Heq in Hf, Hpeer1.
  destruct (resolve_port_run (cb_nfs3_port b) NFS3_PROGRAM NFS3_VERSION nfs3_port [] c1 _ n1
    ltac:(done) ltac:(done) eq_refl Hx1) as (c2 & E2 & _ & _ & Ho2); rewrite ?Hcr, ?Hve, ?app_nil_r;
    auto using auth_ok_default; [lia|].
  rewrite (tbind_ok _ _ _ _ _ E2). unfold drop_client, drawn. cbn [net_state net_port_index net_draws net_closed].
  assert (io_out (rc_io c2) = asked_ports b (random (net_draws n))) as ->; [|done].
  rewrite Ho2, Ho1. cbn [c0 rpc_client_new rpc_client_new_with_auth rc_io]. rewrite Hio. unfold asked_ports, call_wire. by rewrite Hcr, Hve, Heq.
Qed.

Lemma on_client_run {A} cl (m : prog RpcClient (result A client_error)) r cl' n :
  m cl = (Ret r, cl') ->
  on_client cl m n = match r with
                     | Ok a => (Ret (Ok (a, cl')), n)
                     | Err e => (Ret (Err e), drop_client cl' n)
                     end.
Proof. intros H. unfold on_client. rewrite H. by destruct r. Qed.

Lemma builder_connect_closed b port n o n' : builder_connect parse_ip b port n = (o, n') -> net_closed n' = net_closed n.
Proof.
  unfold builder_connect, host_addr, on_network. destruct (parse_ip (cb_host b)) as [ip|]; cbn [ok_or]; [|by intros [= _ <-]].
  destruct (cb_privileged b); [|destruct (connector_connect _ _); by intros [= _ <-]].
  unfold connect_from_privileged_port. generalize (Z.to_nat (MAX_PORT - MIN_PORT + 1)) as tries. intros tries. revert n.
  induction tries as [|tries IH]; intros n; [by intros [= _ <-]|]. cbn [try_ports].
  unfold next_port_index, on_network, pbind. cbn [net_state net_port_index net_draws net_closed].
  destruct (connector_connect_with_port _ _ _) as [[io|[]] s]; try (by intros [= _ <-]). by intros ->%IH.
Qed.

Lemma ports_found_closed b n mount_port nfs3_port n' :
  ports_found b n mount_port nfs3_port n' -> net_closed n' = net_closed n ++ portmapper_log b n.
Proof.
  intros (_ & _ & Hf). unfold portmapper_log. case_bool_decide; [subst; by rewrite app_nil_r|].
  by destruct Hf as (? & ? & ? & _ & _ & _ & -> & _).
Qed.

(** C35: Mounting asks for the right ports and the right path. For the ports that were
    not set, and only for those, the builder sends GETPORT of MOUNT version 3 and then
    of NFS version 3 over a connection of its own to the portmapper, and closes it; it
    connects to the MOUNT port and sends one call there, MNT of its path with its
    credentials. If the service refuses, its error is returned and no connection to
    the NFS service is made; if it grants the path, the connection to the NFS service
    follows, an error of it is returned, and otherwise the result holds both clients,
    with the builder's credentials, the ports and the root handle the service gave.
    Connections start with nothing written, the replies are well-formed and in range,
    and the path has at most 1024 bytes. *)
Theorem mount_connects b n mount_port nfs3_port n1 io n2 res :
  ports_found b n mount_port nfs3_port n1 ->
  builder_connect parse_ip b mount_port n1 = (Ret (Ok io), n2) -> io_out io = [] ->
  in_u32 (random (net_draws n2)) -> auth_ok (cb_credential b) -> auth_ok (cb_verifier b) ->
  len (cb_mount_path b) <= 1024 ->
  valid mountres3_codec res -> packed_size mountres3_codec res <= 1000000 ->
  let xid := random (net_draws n2) in
  let wire := reply_wire xid mountres3_codec res in
  peer_sends (rpc_client_new io xid) wire -> (length wire <= fuel)%nat ->
  match res with
  | mountres3_Err e => exists n',
      builder_mount parse_ip random fuel b n = (Ret (Err (CeMountError e)), n') /\ net_state n' = net_state n2 /\
      net_closed n' = net_closed n ++ portmapper_log b n ++ [mnt_wire b xid]
  | mountres3_Ok ok =>
      (forall e n3, builder_connect parse_ip b nfs3_port (drawn n2) = (Ret (Err e), n3) -> exists n',
         builder_mount parse_ip random fuel b n = (Ret (Err (CeIo e)), n') /\ net_state n' = net_state n3 /\
         net_closed n' = net_closed n ++ portmapper_log b n ++ [mnt_wire b xid]) /\
      (forall nfs_io n3, builder_connect parse_ip b nfs3_port (drawn n2) = (Ret (Ok nfs_io), n3) ->
         exists conn,
           builder_mount parse_ip random fuel b n = (Ret (Ok conn), drawn n3) /\
           net_closed (drawn n3) = net_closed n ++ portmapper_log b n /\
           io_out (rc_io (conn_mount_client conn)) = mnt_wire b xid /\
           conn_host conn = cb_host b /\ conn_mount_path conn = cb_mount_path b /\
           conn_mount_port conn = mount_port /\ conn_nfs3_port conn = nfs3_port /\
           nfs_fh3_data (root_nfs_fh3 conn) = mountres3_ok_fhandle ok /\
           rc_xid (conn_mount_client conn) = (xid + 1) mod 2 ^ 32 /\
           rc_credential (conn_mount_client conn) = cb_credential b /\
           into_nfs3_client conn =
             rpc_client_new_with_auth nfs_io (random (net_draws n3)) (cb_credential b) (cb_verifier b))
  end.
Proof.
  intros Hports Hconn Hio Hx Hc Hv Hpath Hres Hsize xid wire Hpeer Hf.
  destruct (mount_mnt_reply (cb_mount_path b) res [] (rpc_client_new_with_auth io xid (cb_credential b) (cb_verifier b)))
    as (cl & E & (Hxid & Hcred & _) & _ & Hout); rewrite ?app_nil_r; try done.
  pose proof (on_client_run _ _ _ _ (drawn n2) E) as Hmnt.
  cbn [rpc_client_new_with_auth rc_io] in Hout. rewrite Hio in Hout. change (io_out (rc_io cl) = mnt_wire b xid) in Hout.
  pose proof (builder_connect_closed _ _ _ _ _ Hconn) as Hn2. rewrite (ports_found_closed _ _ _ _ _ Hports) in Hn2.
  unfold builder_mount. rewrite (tbind_ok _ _ _ _ _ (resolve_ports_run _ _ _ _ _ Hports)).
  rewrite (tbind_ok _ _ _ _ _ (map_err_ret CeIo _ _ _ _ Hconn)).
  rewrite draw_run. cbv zeta. fold xid. destruct res as [ok|e]; cycle 1.
  { rewrite (tbind_err _ _ _ _ _ Hmnt). eexists. split; [done|]. split; [done|]. cbn. by rewrite Hout, Hn2, <- app_assoc. }
  rewrite (tbind_ok _ _ _ _ _ Hmnt). split; intros r n3 Hnfs; pose proof (builder_connect_closed _ _ _ _ _ Hnfs) as Hn3;
    cbn [drawn net_closed] in Hn3; rewrite Hn2 in Hn3; rewrite (pbind_ret _ _ _ _ _ (map_err_ret CeIo _ _ _ _ Hnfs)); cbn [result_map_err].
  - eexists. split; [done|]. split; [done|]. cbn. by rewrite Hout, Hn3, <- app_assoc.
  - by eexists.
Qed.
End mounting.

(** ** A network *)

Module DemoConnect.
Definition resok : mountres3_ok := mk_mountres3_ok (to_be_bytes 8 7) [1].
Definition random (k : nat) : u32 := 10 + Z.of_nat k.
Definition host : string := "127.0.0.1".
Definition parse_ip (h : string) : option string := if decide (h = host) then Some h else None.

(** A portmapper on port 111 and a MOUNT service on port 635; the local port 305
    is in use. The state is the log of the ports connected to and from. *)
Definition peer (port : Z) : list byte :=
  if port =? 111 then reply_wire 10 u32_codec 635 ++ reply_wire 11 u32_codec 2049
  else if port =? 635 then reply_wire 11 mountres3_codec (mountres3_Ok resok)
  else [].
#[export] Instance network : Connector (list (Z * Z)) string := {|
  connector_connect addr log := (Ok (mkIo [peer addr.2] []), log ++ [(addr.2, 0)]);
  connector_connect_with_port addr local_port log :=
    if local_port =? 305 then (Err AddrInUse, log)
    else (Ok (mkIo [peer addr.2] []), log ++ [(addr.2, local_port)]);
|}.

Definition builder : Nfs3ConnectionBuilder := builder_new host (to_be_bytes 4 795373363).
Definition start : Net (list (Z * Z)) := mkNet [] 5 0 [].

(** The MOUNT connection leaves from port 306 and the NFS one from 307. *)
Example mounts :
  net_state (snd (builder_mount parse_ip random 1000 builder start)) = [(111, 0); (635, 306); (2049, 307)].
Proof. vm_compute. reflexivity. Qed.
Example portmapper_not_asked :
  net_state (snd (builder_mount parse_ip random 1000 (builder_mount_port 635 (builder_nfs3_port 2049 builder)) start)) =
  [(635, 306)].
Proof. vm_compute. reflexivity. Qed.

End DemoConnect.

Import DemoConnect.

Lemma mount_connects_witness :
  ports_found parse_ip random 1000 builder start 635 2049 (mkNet [(111, 0)] 5 1 [asked_ports builder 10]) /\
  exists conn, builder_mount parse_ip random 1000 builder start =
    (Ret (Ok conn), mkNet [(111, 0); (635, 306); (2049, 307)] 8 3 [asked_ports builder 10]) /\
    nfs_fh3_data (root_nfs_fh3 conn) = to_be_bytes 8 7 /\ io_out (rc_io (conn_mount_client conn)) = mnt_wire builder 11.
Proof.
  assert (ports_found parse_ip random 1000 builder start 635 2049 (mkNet [(111, 0)] 5 1 [asked_ports builder 10])) as Hp.
  { split_and!; [done|done|]. exists host, (mkIo [peer 111] []), [(111, 0)].
    split_and!; try reflexivity; try (vm_compute; lia); try done.
    split; [by repeat constructor|vm_compute; reflexivity]. }
  split; [exact Hp|].
  destruct (mount_connects parse_ip random 1000 builder start 635 2049 _ (mkIo [peer 635] [])
    (mkNet [(111, 0); (635, 306)] 7 1 [asked_ports builder 10]) (mountres3_Ok resok) Hp) as [_ H].
  - vm_compute. reflexivity.
  - done.
  - done.
  - exact auth_ok_default.
  - exact auth_ok_default.
  - vm_compute. discriminate.
  - cbn -[in_u32]. unfold len, u32_MAX. cbn [length]. split_and!; try done; try lia. by repeat constructor.
  - vm_compute. discriminate.
  - split; [by repeat constructor|vm_compute; reflexivity].
  - vm_compute. lia.
  - destruct (H (mkIo [peer 2049] []) (mkNet [(111, 0); (635, 306); (2049, 307)] 8 2 [asked_ports builder 10]))
      as (conn & E & _ & Hs & _ & _ & _ & _ & Hroot & _).
    { vm_compute. reflexivity. }
    exists conn. split; [exact E|]. split; [exact Hroot|exact Hs].
Defined.

Lemma privileged_port_search_witness :
  in_u16 (net_port_index start) /\
  exists i, connect_from_privileged_port (host, 635) start =
    (Ret (Ok (mkIo [peer 635] [])), mkNet [(635, 306)] i 0 []).
Proof.
  assert (in_u16 (net_port_index start)) as Hi by done. split; [exact Hi|].
  destruct (privileged_port_search (host, 635) start Hi) as [[i H] _].
  exists i. rewrite H. vm_compute. reflexivity.
Defined.
