(* ===== verification/MountPortmap.v ===== *)
(** * The MOUNT and port mapper procedures

    [nfs3_server::mount_handlers] and [portmap_handlers], and the state the
    server's procedures share.  Strings are their UTF-8 bytes; the functions of
    [str] that the mount path goes through are modelled on them. *)

From S2P Require Import Prelude Xdr XdrLaws Nfs3Types RpcTypes MountTypes PortmapTypes RpcWire Handle Vfs.
From S2P Require Import Transactions.
Open Scope Z_scope.
Open Scope nfs_scope.

(** ** The server's state and the context of a connection: [context.rs] *)

(** The file system, the transaction tracker and what was sent on the mount
    signal channel. *)
Record ServerState (V : Type) : Type := mkServerState {
  ss_vfs : V;
  ss_tracker : TransactionTracker;
  ss_signals : list bool;
}.
Arguments mkServerState {V} _ _ _.
Arguments ss_vfs {V} _.
Arguments ss_tracker {V} _.
Arguments ss_signals {V} _.

Record RPCContext : Type := mkContext {
  ctx_local_port : Z;
  ctx_client_addr : string;
  ctx_auth : auth_unix;
  ctx_mount_signal : bool;
  ctx_export_name : list byte;
  ctx_file_handle_converter : FileHandleConverter;
}.

Definition on_vfs {V A} (m : prog V A) : prog (ServerState V) A := fun s =>
  let '(o, v) := m (ss_vfs s) in (o, mkServerState v (ss_tracker s) (ss_signals s)).

Definition on_tracker {V A} (m : prog TransactionTracker A) : prog (ServerState V) A := fun s =>
  let '(o, t) := m (ss_tracker s) in (o, mkServerState (ss_vfs s) t (ss_signals s)).

(** [if let Some(ref chan) = context.mount_signal { let _ = chan.send(b).await; }] *)
Definition send_mount_signal {V} (ctx : RPCContext) (b : bool) : prog (ServerState V) unit := fun s =>
  (Ret tt, if ctx_mount_signal ctx
           then mkServerState (ss_vfs s) (ss_tracker s) (ss_signals s ++ [b])
           else s).

(** ** Strings *)

Definition in_byte_range (lo hi : Z) (b : byte) : bool := (lo <=? Z_of_byte b) && (Z_of_byte b <=? hi).
Definition is_continuation : byte -> bool := in_byte_range 128 191.

(** [std::str::from_utf8] succeeds. *)
Fixpoint utf8_valid (bs : list byte) : bool :=
  match bs with
  | [] => true
  | b0 :: r0 =>
      if in_byte_range 0 127 b0 then utf8_valid r0
      else
        match r0 with
        | [] => false
        | b1 :: r1 =>
            if in_byte_range 194 223 b0 then is_continuation b1 && utf8_valid r1
            else
              match r1 with
              | [] => false
              | b2 :: r2 =>
                  let three :=
                    (in_byte_range 224 224 b0 && in_byte_range 160 191 b1)
                    || (in_byte_range 225 236 b0 && is_continuation b1)
                    || (in_byte_range 237 237 b0 && in_byte_range 128 159 b1)
                    || (in_byte_range 238 239 b0 && is_continuation b1) in
                  if three then is_continuation b2 && utf8_valid r2
                  else
                    match r2 with
                    | [] => false
                    | b3 :: r3 =>
                        let four :=
                          (in_byte_range 240 240 b0 && in_byte_range 144 191 b1)
                          || (in_byte_range 241 243 b0 && is_continuation b1)
                          || (in_byte_range 244 244 b0 && in_byte_range 128 143 b1) in
                        four && is_continuation b2 && is_continuation b3 && utf8_valid r3
                    end
              end
        end
  end.

(** [str::strip_prefix]. *)
Fixpoint strip_prefix (prefix bs : list byte) : option (list byte) :=
  match prefix, bs with
  | [], _ => Some bs
  | p :: prefix, b :: bs => if decide (p = b) then strip_prefix prefix bs else None
  | _ :: _, [] => None
  end.

(** [trim_start_matches('/')] and [trim_end_matches('/')]. *)
Fixpoint trim_start_slash (bs : list byte) : list byte :=
  match bs with
  | b :: rest => if decide (b = x2f) then trim_start_slash rest else bs
  | [] => []
  end.
Definition trim_end_slash (bs : list byte) : list byte := rev (trim_start_slash (rev bs)).

(** The characters with the Unicode property [White_Space], encoded. *)
Definition white_space : list (list byte) :=
  [[x09]; [x0a]; [x0b]; [x0c]; [x0d]; [x20]; [xc2; x85]; [xc2; xa0]; [xe1; x9a; x80];
   [xe2; x80; x80]; [xe2; x80; x81]; [xe2; x80; x82]; [xe2; x80; x83]; [xe2; x80; x84];
   [xe2; x80; x85]; [xe2; x80; x86]; [xe2; x80; x87]; [xe2; x80; x88]; [xe2; x80; x89];
   [xe2; x80; x8a]; [xe2; x80; xa8]; [xe2; x80; xa9]; [xe2; x80; xaf]; [xe2; x81; x9f];
   [xe3; x80; x80]].

Fixpoint strip_any (prefixes : list (list byte)) (bs : list byte) : option (list byte) :=
  match prefixes with
  | [] => None
  | p :: ps => match strip_prefix p bs with Some r => Some r | None => strip_any ps bs end
  end.

(** Each step drops a character; [fuel] is the length. *)
Fixpoint trim_loop_ws (fuel : nat) (spaces : list (list byte)) (bs : list byte) : list byte :=
  match fuel with
  | O => bs
  | S fuel' => match strip_any spaces bs with
               | Some rest => trim_loop_ws fuel' spaces rest
               | None => bs
               end
  end.

(** [str::trim]. *)
Definition trim_start (bs : list byte) : list byte := trim_loop_ws (length bs) white_space bs.
Definition trim_end (bs : list byte) : list byte :=
  rev (trim_loop_ws (length bs) (map (@rev byte) white_space) (rev bs)).
Definition trim (bs : list byte) : list byte := trim_end (trim_start bs).

(** [NFSTcpListener::with_export_name]: the export name that is stored. *)
Definition with_export_name (export_name : list byte) : list byte :=
  x2f :: trim_start_slash (trim_end_slash export_name).

(** ** The procedures *)

Section mount.
Context {V H : Type} `{!FileHandle H} (fs : NfsFileSystem V H) (ctx : RPCContext).
Abbreviation server_prog A := (prog (ServerState V) A).

Definition mountproc3_null (_ : u32) (_ : unit) : server_prog unit := pret tt.

(** The path below the export, or [None]. *)
Definition export_path (utf8path : list byte) : option (list byte) :=
  match strip_prefix (ctx_export_name ctx) utf8path with
  | Some path => Some (trim (trim_end_slash (trim_start_slash path)))
  | None => None
  end.

Definition mountproc3_mnt (xid : u32) (path : dirpath) : server_prog mountres3 :=
  if utf8_valid path then
    match export_path path with
    | None => pret (mountres3_Err MNT3ERR_NOENT)
    | Some path =>
        do* r := on_vfs (vfs_lookup_by_path path) in
        match r with
        | Ok fileid =>
            let root := fh_to_nfs (ctx_file_handle_converter ctx) fileid in
            let response := mk_mountres3_ok (nfs_fh3_data root)
                              [auth_flavor_as_u32 AUTH_NULL; auth_flavor_as_u32 AUTH_UNIX] in
            do* _ := send_mount_signal ctx true in
            pret (mountres3_Ok response)
        | Err _ => pret (mountres3_Err MNT3ERR_NOENT)
        end
    end
  else pret (mountres3_Err MNT3ERR_INVAL).

Definition mountproc3_export (_ : u32) (_ : unit) : server_prog exports :=
  pret [mk_export_node (ctx_export_name ctx) []].

Definition mountproc3_umnt (xid : u32) (path : dirpath) : server_prog unit :=
  if utf8_valid path then send_mount_signal ctx false else pret tt.

Definition mountproc3_umnt_all (xid : u32) (_ : unit) : server_prog unit :=
  send_mount_signal ctx false.

Definition handle_mount (message : IncomingRpcMessage) : server_prog (result HandleResult rpc_error) :=
  let call := im_body message in
  let reply r : server_prog (result HandleResult rpc_error) := fun s => (r, s) in
  if negb (call_body_vers call =? MOUNT_VERSION) then
    reply (into_error_reply message (data_PROG_MISMATCH MOUNT_VERSION MOUNT_VERSION))
  else
    match MOUNT_PROGRAM_try_from (call_body_proc call) with
    | Err _ => reply (into_error_reply message data_PROC_UNAVAIL)
    | Ok proc =>
        match proc with
        | MOUNTPROC3_NULL => handle void_codec void_codec mountproc3_null message
        | MOUNTPROC3_MNT => handle dirpath_codec mountres3_codec mountproc3_mnt message
        | MOUNTPROC3_UMNT => handle dirpath_codec void_codec mountproc3_umnt message
        | MOUNTPROC3_UMNTALL => handle void_codec void_codec mountproc3_umnt_all message
        | MOUNTPROC3_EXPORT => handle void_codec exports_codec mountproc3_export message
        | MOUNTPROC3_DUMP => reply (into_error_reply message data_PROC_UNAVAIL)
        end
    end.

Definition pmapproc_null (_ : u32) (_ : unit) : server_prog unit := pret tt.

(** The server answers for any program with its own port. *)
Definition pmapproc_getport (_ : u32) (_ : mapping) : server_prog u32 := pret (ctx_local_port ctx).

Definition handle_portmap (message : IncomingRpcMessage) : server_prog (result HandleResult rpc_error) :=
  let call := im_body message in
  let reply r : server_prog (result HandleResult rpc_error) := fun s => (r, s) in
  if negb (call_body_vers call =? PMAP_VERSION) then
    reply (into_error_reply message (data_PROG_MISMATCH PMAP_VERSION PMAP_VERSION))
  else
    match PMAP_PROG_try_from (call_body_proc call) with
    | Ok PMAPPROC_NULL => handle void_codec void_codec pmapproc_null message
    | Ok PMAPPROC_GETPORT => handle mapping_codec u32_codec pmapproc_getport message
    | _ => reply (into_error_reply message data_PROC_UNAVAIL)
    end.
End mount.
