(* ===== verification/Server.v ===== *)
(** * Serving a call: [nfs3_server::rpcwire] and [tcp]

    [handle_rpc_message] checks a call, registers it with the transaction
    tracker and dispatches it to the program it names; the transaction's lock is
    dropped when the handler is done, also when it panics.  The two instants are
    those read at the start and at the drop. *)

From S2P Require Import Prelude Xdr XdrLaws Nfs3Types RpcTypes MountTypes PortmapTypes.
From S2P Require Import RpcWire Handle Vfs NfsHandlers Transactions MountPortmap.
Open Scope Z_scope.
Open Scope nfs_scope.

Definition NFS_ACL_PROGRAM : u32 := 100227.
Definition NFS_ID_MAP_PROGRAM : u32 := 100270.
Definition NFS_METADATA_PROGRAM : u32 := 200024.

(** [lock_transaction]. *)
Definition lock_transaction (client_addr : string) (xid : u32) (now : Instant)
  : prog TransactionTracker (result TransactionLock (option accept_stat_data)) :=
  do* transaction := start_transaction client_addr xid now in
  pret (match transaction with
        | Ok lock => Ok lock
        | Err AlreadyExists => Err None
        | Err TooManyRequests => Err (Some data_SYSTEM_ERR)
        end).

Section server.
Context {V H : Type} `{!FileHandle H} (fs : NfsFileSystem V H).

(** The drop of the lock at the end of the scope of [body]: after it, and also
    when it panics. *)
Definition with_lock {A} (lock : TransactionLock) (now : Instant) (body : prog (ServerState V) A)
  : prog (ServerState V) A := fun s =>
  let '(o, s) := body s in
  match on_tracker (lock_drop lock now) s with
  | (Ret _, s) => (o, s)
  | (_, s) => (Panic, s)
  end.

(** The dispatch on the program number. *)
Definition dispatch (ctx : RPCContext) (message : IncomingRpcMessage)
  : prog (ServerState V) (result HandleResult rpc_error) :=
  let prog_ := call_body_prog (im_body message) in
  if prog_ =? PMAP_PROGRAM_NUMBER then handle_portmap ctx message
  else if prog_ =? MOUNT_PROGRAM_NUMBER then handle_mount fs ctx message
  else if prog_ =? NFS3_PROGRAM then on_vfs (handle_nfs fs (ctx_file_handle_converter ctx) message)
  else fun s => (into_error_reply message data_PROG_UNAVAIL, s).

(** [context.auth = auth_unix::unpack(...)?] *)
Definition with_auth (ctx : RPCContext) (cred : opaque_auth) : result RPCContext rpc_error :=
  if decide (opaque_auth_flavor cred = AUTH_UNIX) then
    match unpack auth_unix_codec (opaque_auth_body cred) with
    | (Ok (auth, _), _) =>
        Ok (mkContext (ctx_local_port ctx) (ctx_client_addr ctx) auth (ctx_mount_signal ctx)
              (ctx_export_name ctx) (ctx_file_handle_converter ctx))
    | (Err e, _) => Err (RpcXdr e)
    end
  else Ok ctx.

Definition handle_rpc_message (ctx : RPCContext) (packed : list byte) (now now_drop : Instant)
  : prog (ServerState V) (result HandleResult rpc_error) :=
  match incoming_try_from packed with
  | Err e => pret (Err e)
  | Ok message =>
      let xid := im_xid message in
      let call := im_body message in
      if negb (call_body_rpcvers call =? RPC_VERSION_2) then fun s => (into_rpc_mismatch message, s)
      else
        match with_auth ctx (call_body_cred call) with
        | Err e => pret (Err e)
        | Ok ctx =>
            do* transaction := on_tracker (lock_transaction (ctx_client_addr ctx) xid now) in
            match transaction with
            | Err (Some err) => fun s => (into_error_reply message err, s)
            | Err None => pret (Ok NoReply)
            | Ok lock => with_lock lock now_drop (dispatch ctx message)
            end
        end
  end.
End server.

(** [new_transaction_tracker]. *)
Definition TRANSACTION_LIFETIME : Duration := 60 * 1000000000.
Definition MAX_ACTIVE_TRANSACTIONS : Z := 256.
Definition TRANSACTION_TRIM_THRESHOLD : Z := 2048.

Definition new_transaction_tracker : TransactionTracker :=
  tracker_new TRANSACTION_LIFETIME MAX_ACTIVE_TRANSACTIONS TRANSACTION_TRIM_THRESHOLD.
