(* ===== verification/ServerLaws.v ===== *)
(** * Correctness of the server: mounting, and serving each call at most once *)

From S2P Require Import Prelude Xdr XdrLaws Nfs3Types RpcTypes MountTypes PortmapTypes.
From S2P Require Import RpcWire RpcWireLaws Handle Vfs NfsHandlers NfsHandlersLaws.
From S2P Require Import Transactions TransactionLaws TransactionMemory MountPortmap Server.
Open Scope Z_scope.
Open Scope nfs_scope.

(** ** Mounting *)

Section mount_laws.
Context {V H : Type} `{!FileHandle H, !FileHandleLaws H} (fs : NfsFileSystem V H) (ctx : RPCContext).

Lemma on_vfs_run {A} (m : prog V A) s o v :
  m (ss_vfs s) = (o, v) -> on_vfs m s = (o, mkServerState v (ss_tracker s) (ss_signals s)).
Proof. unfold on_vfs. by intros ->. Qed.

(** MNT hands out a handle that the NFS procedures accept. Mounting a path
    of the export looks its remainder up once; on success the reply carries the
    file system's handle for it, which decodes to that handle again, the
    flavours AUTH_NULL and AUTH_UNIX, and one [true] is sent to the mount
    listener; any failure is reported without a signal, and a path outside the
    export or not in UTF-8 is refused without consulting the file system. *)
Theorem mnt_correct xid path s :
  converter_wf (ctx_file_handle_converter ctx) ->
  (utf8_valid path = false ->
   mountproc3_mnt fs ctx xid path s = (Ret (mountres3_Err MNT3ERR_INVAL), s)) /\
  (utf8_valid path = true -> export_path ctx path = None ->
   mountproc3_mnt fs ctx xid path s = (Ret (mountres3_Err MNT3ERR_NOENT), s)) /\
  (forall rest r v, utf8_valid path = true -> export_path ctx path = Some rest ->
   vfs_lookup_by_path rest (ss_vfs s) = (Ret r, v) ->
   match r with
   | Ok fileid => exists fh,
       mountproc3_mnt fs ctx xid path s =
       (Ret (mountres3_Ok (mk_mountres3_ok fh [0; 1])),
        mkServerState v (ss_tracker s)
          (ss_signals s ++ if ctx_mount_signal ctx then [true] else [])) /\
       fh_from_nfs (ctx_file_handle_converter ctx) (mk_nfs_fh3 fh) = Ok fileid
   | Err _ =>
       mountproc3_mnt fs ctx xid path s =
       (Ret (mountres3_Err MNT3ERR_NOENT), mkServerState v (ss_tracker s) (ss_signals s))
   end).
Proof.
  intros Hc. unfold mountproc3_mnt. split_and!.
  - by intros ->.
  - by intros -> ->.
  - intros rest r v -> -> Hl. rewrite (pbind_Ret _ _ _ _ _ (on_vfs_run _ _ _ _ Hl)).
    destruct r as [fileid|e]; [|done].
    exists (nfs_fh3_data (fh_to_nfs (ctx_file_handle_converter ctx) fileid)). split.
    + unfold pbind, send_mount_signal, pret. cbn [ss_signals ss_vfs ss_tracker auth_flavor_as_u32].
      destruct (ctx_mount_signal ctx); [done|]. by rewrite app_nil_r.
    + pose proof (fh_from_to_nfs (ctx_file_handle_converter ctx) fileid Hc) as Hf.
      by destruct (fh_to_nfs _ _).
Qed.
End mount_laws.

(** ** At most once *)

Section once.
Context {V H : Type} `{!FileHandle H} (fs : NfsFileSystem V H).

(** A handled call only touches its transaction in the tracker. *)
Lemma on_vfs_tracker {A} (m : prog V A) s : ss_tracker (snd (on_vfs m s)) = ss_tracker s.
Proof. unfold on_vfs. by destruct (m (ss_vfs s)). Qed.

Definition keeps_tracker {A} (m : prog (ServerState V) A) : Prop :=
  forall s, ss_tracker (snd (m s)) = ss_tracker s.

Lemma keeps_tracker_bind {A B} (m : prog (ServerState V) A) (k : A -> prog (ServerState V) B) :
  keeps_tracker m -> (forall a, keeps_tracker (k a)) -> keeps_tracker (pbind m k).
Proof.
  intros Hm Hk s. unfold pbind. pose proof (Hm s) as H1.
  destruct (m s) as [[a| |] s1]; cbn in *; [rewrite (Hk a s1)|..]; done.
Qed.

Lemma keeps_tracker_signal ctx b : keeps_tracker (send_mount_signal ctx b).
Proof. intros s. unfold send_mount_signal. cbn. by destruct (ctx_mount_signal ctx). Qed.

Lemma keeps_tracker_handle {I O} (ci : codec I) (co : codec O) f m :
  (forall xid a, keeps_tracker (f xid a)) -> keeps_tracker (handle ci co f m).
Proof.
  intros Hf s. unfold handle. destruct (incoming_take_data m) as [[cur| |] m']; [|done..].
  destruct (cursor_read (unpack ci) cur) as [[[arg n]|e] cur']; [|done].
  destruct (cur_position cur' =? len (cur_data cur')); [|done].
  pose proof (Hf (im_xid m') arg s) as H1. by destruct (f (im_xid m') arg s) as [[r| |] s'].
Qed.

Lemma keeps_tracker_pret {A} (a : A) : keeps_tracker (pret a).
Proof. done. Qed.

Lemma dispatch_keeps_tracker ctx m : keeps_tracker (dispatch fs ctx m).
Proof.
  intros s. unfold dispatch. repeat case_match; try done.
  - unfold handle_portmap. repeat case_match; try done; apply keeps_tracker_handle; done.
  - unfold handle_mount. repeat case_match; try done; apply keeps_tracker_handle; intros xid arg; try done.
    + unfold mountproc3_mnt. repeat case_match; try done.
      apply keeps_tracker_bind; [intros ?; apply on_vfs_tracker|].
      intros [fid|e]; [|done]. apply keeps_tracker_bind; [apply keeps_tracker_signal|done].
    + unfold mountproc3_umnt. case_match; [apply keeps_tracker_signal|done].
    + apply keeps_tracker_signal.
  - apply on_vfs_tracker.
Qed.

(** Whatever call numbered [xid] comes from [addr] (the RPC version is right and its
    credentials can be decoded), nothing is executed and no reply is sent. *)
Definition refuses (addr : string) (xid : Z) (t : TransactionTracker) : Prop :=
  forall ctx packed m ctx' now now_drop v signals,
    ctx_client_addr ctx = addr -> incoming_try_from packed = Ok m -> im_xid m = xid ->
    call_body_rpcvers (im_body m) = RPC_VERSION_2 -> with_auth ctx (call_body_cred (im_body m)) = Ok ctx' ->
    exists t', handle_rpc_message fs ctx packed now now_drop (mkServerState v t signals) =
      (Ret (Ok NoReply), mkServerState v t' signals).

Lemma with_auth_addr ctx cred ctx' : with_auth ctx cred = Ok ctx' -> ctx_client_addr ctx' = ctx_client_addr ctx.
Proof. unfold with_auth. intros Hauth. repeat case_match; by simplify_eq. Qed.

Lemma refuses_known addr xid t :
  (forall now, exists t', start_transaction addr xid now t = (Ret (Err AlreadyExists), t')) -> refuses addr xid t.
Proof.
  intros Hs ctx packed m ctx' now now_drop v signals Ha Hm Hx Hv Hauth. destruct (Hs now) as (t' & Ht').
  exists t'. unfold handle_rpc_message. rewrite Hm, Hv, Z.eqb_refl. cbn [negb]. rewrite Hauth.
  unfold pbind, on_tracker, lock_transaction, pbind. cbn [ss_tracker].
  by rewrite (with_auth_addr _ _ _ Hauth), Ha, Hx, Ht'.
Qed.

Lemma following_start addr xid now : following (start_transaction addr xid now).
Proof.
  apply following_bind; [apply following_start_known|]. intros [r|]; [done|apply following_start_new].
Qed.

(** A call that is taken: [handle_rpc_message] starts the transaction, runs the
    procedure, and drops the lock. *)
Lemma handle_rpc_message_drops ctx packed m ctx' lock t now now_drop s ls o s1 :
  tracker_inv (ss_tracker s) ls ->
  incoming_try_from packed = Ok m -> call_body_rpcvers (im_body m) = RPC_VERSION_2 ->
  with_auth ctx (call_body_cred (im_body m)) = Ok ctx' ->
  start_transaction (ctx_client_addr ctx) (im_xid m) now (ss_tracker s) = (Ret (Ok lock), t) ->
  handle_rpc_message fs ctx packed now now_drop s = (o, s1) ->
  lock_drop lock now_drop t = (Ret tt, ss_tracker s1).
Proof.
  intros Hinv Hm Hv Hauth Hstart Hrun.
  destruct (start_transaction_Ok _ _ _ _ _ _ _ Hinv Hstart) as (Hinv' & _).
  unfold handle_rpc_message in Hrun. rewrite Hm, Hv, Z.eqb_refl in Hrun. cbn [negb] in Hrun.
  rewrite Hauth in Hrun. unfold pbind, on_tracker at 1, lock_transaction, pbind in Hrun.
  rewrite (with_auth_addr _ _ _ Hauth), Hstart in Hrun. unfold pret in Hrun. unfold with_lock in Hrun.
  set (s0 := mkServerState (ss_vfs s) t (ss_signals s)) in *.
  pose proof (dispatch_keeps_tracker ctx' m s0) as Hkeep.
  destruct (dispatch fs ctx' m s0) as [o1 s1']. cbn [fst snd] in *.
  unfold on_tracker in Hrun. rewrite Hkeep in Hrun. cbn [ss_tracker s0] in Hrun.
  destruct (lock_drop_run _ _ _ now_drop Hinv') as (t2 & Hd & _). rewrite Hd in Hrun. by injection Hrun as <- <-.
Qed.

(** C2: A call is executed at most once, for as long as the tracker remembers it.
    From any reachable tracker, a call gets its transaction, its procedure runs
    (whatever the outcome, a panic included) and its lock is dropped. Any call with
    the same xid that arrives from the same client while it is being served executes
    nothing: the file system and the mount listener are left alone and no reply is
    sent. So does one that arrives after it has been served, until the retention
    period (60 s) is over, as long as the queue of the client stays below the
    trimming limit. Other threads may take any steps in between, the cleaner and
    other calls of the same client included. Later, or when the queue was
    trimmed, the call may be executed again. *)
Theorem call_executed_at_most_once retention max_active trim_limit ctx packed m ctx' lock t now now_drop s ls ps o s1 :
  0 <= max_active <= u16_MAX -> max_active < trim_limit -> 0 <= retention ->
  reachable (tracker_new retention max_active trim_limit) (mkWorld (ss_tracker s) ls ps) ->
  incoming_try_from packed = Ok m -> call_body_rpcvers (im_body m) = RPC_VERSION_2 ->
  with_auth ctx (call_body_cred (im_body m)) = Ok ctx' ->
  start_transaction (ctx_client_addr ctx) (im_xid m) now (ss_tracker s) = (Ret (Ok lock), t) ->
  handle_rpc_message fs ctx packed now now_drop s = (o, s1) ->
  lock_drop lock now_drop t = (Ret tt, ss_tracker s1) /\
  forall w1, rtc (serving_step lock) (mkWorld t (lock :: ls) ps) w1 ->
    refuses (ctx_client_addr ctx) (im_xid m) (w_tracker w1) /\
    forall now1 ls1 ls2 t2 w2,
      w_locks w1 = ls1 ++ lock :: ls2 -> lock_drop lock now1 (w_tracker w1) = (Ret tt, t2) ->
      rtc (recent_step (ctx_client_addr ctx) (now1 + retention)) (mkWorld t2 (ls1 ++ ls2) (w_pending w1)) w2 ->
      refuses (ctx_client_addr ctx) (im_xid m) (w_tracker w2).
Proof.
  intros H1 H2 H3 Hreach Hm Hv Hauth Hstart Hrun.
  pose proof (reachable_settled _ _ _ _ H1 H2 Hreach) as [Hinv Hr Hmx Hl Hk]. cbn [w_tracker w_locks] in *.
  split; [by eapply handle_rpc_message_drops|].
  destruct (start_transaction_Ok _ _ _ _ _ _ _ Hinv Hstart) as (Hinv' & Ha & Hx & Hlr).
  pose proof (following_start (ctx_client_addr ctx) (im_xid m) now (ss_tracker s)) as F. rewrite Hstart in F.
  destruct F as [F1 F2 F3 _ _]. cbn [snd w_tracker w_locks] in *.
  assert (settled retention max_active trim_limit (mkWorld t (lock :: ls) ps)) as Hset.
  { constructor; cbn; try congruence; [done|].
    intros l [->|Hin]%elem_of_cons; [congruence|by apply Hk]. }
  intros w1 Hsteps. destruct (serving_steps_owner _ _ _ _ _ _ _ Hset Hsteps Ha) as [Hset1 Ho1].
  assert (lock ∈ w_locks w1) as Hlock.
  { clear -Hsteps. apply rtc_inv_r in Hsteps as [<-|(w & _ & _ & ?)]; [by left|done]. }
  rewrite <- Hx. split.
  { apply refuses_known. intros now1. by eapply owner_refused; [apply (st_inv _ _ _ _ Hset1)|..]. }
  intros now1 ls1 ls2 t2 w2 Hls Hdrop Hsteps2.
  assert (tracker_inv (w_tracker w1) (lock :: ls1 ++ ls2)) as Hinv1.
  { eapply tracker_inv_perm; [|apply (st_inv _ _ _ _ Hset1)]. by rewrite Hls, Permutation_middle. }
  assert (settled retention max_active trim_limit (mkWorld t2 (ls1 ++ ls2) (w_pending w1))) as Hset2.
  { eapply (settled_step _ _ _ now1 w1); [done|]. destruct w1. cbn in Hls |- *. subst. by apply step_drop. }
  pose proof (lock_drop_completes _ _ _ _ _ _ Hinv1 Ho1 ltac:(by rewrite (st_locks _ _ _ _ Hset1 _ Hlock)) Hdrop) as Hrem.
  destruct (recent_steps_remembered _ _ _ _ _ _ _ _ H3 Hset2 Hsteps2 Hrem) as [Hset3 Hrem3].
  apply refuses_known. intros now2. eapply remembered_refused; [apply (st_inv _ _ _ _ Hset3)|exact Hrem3].
Qed.

(** C38: What is answered before a call is dispatched. A message with another RPC
    version is denied with [RPC_MISMATCH], one over the client's transaction
    limit is answered [SYSTEM_ERR]; neither reaches a procedure, and the first
    does not even enter the tracker. *)
Theorem call_refused_before_dispatch ctx packed m now now_drop s :
  incoming_try_from packed = Ok m -> in_u32 (im_xid m) ->
  (call_body_rpcvers (im_body m) <> RPC_VERSION_2 ->
   exists bs, encodes rpc_msg_codec (denied (im_xid m) (rejected_RPC_MISMATCH 2 2)) bs /\
     handle_rpc_message fs ctx packed now now_drop s = (Ret (Ok (Reply bs)), s)) /\
  (forall ctx' t, call_body_rpcvers (im_body m) = RPC_VERSION_2 ->
   with_auth ctx (call_body_cred (im_body m)) = Ok ctx' ->
   start_transaction (ctx_client_addr ctx) (im_xid m) now (ss_tracker s) =
     (Ret (Err TooManyRequests), t) ->
   exists bs, encodes rpc_msg_codec (accepted (im_xid m) data_SYSTEM_ERR) bs /\
     handle_rpc_message fs ctx packed now now_drop s =
     (Ret (Ok (Reply bs)), mkServerState (ss_vfs s) t (ss_signals s))).
Proof.
  intros Hm Hx. split.
  - intros Hv. destruct (into_rpc_mismatch_run m Hx) as (bs & Hbs & Hr). exists bs. split; [done|].
    unfold handle_rpc_message. rewrite Hm, (proj2 (Z.eqb_neq _ _) Hv). cbn [negb]. by rewrite Hr.
  - intros ctx' t Hv Hauth Hs.
    pose proof (with_auth_addr _ _ _ Hauth) as Hctx.
    destruct (into_error_reply_run m data_SYSTEM_ERR Hx I) as (bs & Hbs & Hr).
    exists bs. split; [done|]. unfold handle_rpc_message. rewrite Hm, Hv, Z.eqb_refl. cbn [negb].
    rewrite Hauth. unfold pbind, on_tracker, lock_transaction, pbind. rewrite Hctx, Hs.
    unfold pret. by rewrite Hr.
Qed.

(** The programs a server does not serve (the NFS side protocols among
    them) are answered [PROG_UNAVAIL], and nothing changes. *)
Theorem unknown_program_refused ctx m s :
  in_u32 (im_xid m) ->
  let p := call_body_prog (im_body m) in
  p <> PMAP_PROGRAM_NUMBER -> p <> MOUNT_PROGRAM_NUMBER -> p <> NFS3_PROGRAM ->
  exists bs, encodes rpc_msg_codec (accepted (im_xid m) data_PROG_UNAVAIL) bs /\
    dispatch fs ctx m s = (Ret (Ok (Reply bs)), s).
Proof.
  intros Hx p H1 H2 H3. destruct (into_error_reply_run m data_PROG_UNAVAIL Hx Logic.I) as (bs & Hbs & Hr).
  exists bs. split; [done|]. unfold dispatch. fold p.
  rewrite (proj2 (Z.eqb_neq _ _) H1), (proj2 (Z.eqb_neq _ _) H2), (proj2 (Z.eqb_neq _ _) H3).
  by rewrite Hr.
Qed.
End once.

(** The export name is compared as a string, not by path components: with
    the export [/foo], mounting [/foobar] is the same as mounting [/foo/bar]. *)
Theorem mnt_matches_string_prefix {V H} `{!FileHandle H} (fs : NfsFileSystem V H) ctx xid s :
  ctx_export_name ctx = with_export_name (bytes_of_string "foo") ->
  mountproc3_mnt fs ctx xid (bytes_of_string "/foobar") s =
  mountproc3_mnt fs ctx xid (bytes_of_string "/foo/bar") s.
Proof. intros He. unfold mountproc3_mnt, export_path. rewrite He. reflexivity. Qed.

(** ** Witnesses *)

Module DemoServer.
Import DemoFs.

Definition ctx : RPCContext :=
  mkContext 2049 "10.0.0.1:700" auth_unix_default true (bytes_of_string "/") fhc.
Definition state : ServerState Z := mkServerState 0 new_transaction_tracker [].

(** A REMOVE call. *)
Definition call : call_body := mk_call_body 2 100003 3 12 opaque_auth_default opaque_auth_default.
Definition packed : list byte :=
  call_bytes 7 call (to_bytes REMOVE3args_codec (mk_REMOVE3args (mk_diropargs3 fh name_a))).
Definition message : IncomingRpcMessage :=
  match incoming_try_from packed with Ok m => m | Err _ => mkIncoming 0 call None 0 end.
Definition bad_version : IncomingRpcMessage :=
  mkIncoming 7 (mk_call_body 2 100227 3 0 opaque_auth_default opaque_auth_default) (Some []) 0.
End DemoServer.

Lemma tracker_inv_initial : tracker_inv new_transaction_tracker [].
Proof. apply tracker_new_inv; unfold MAX_ACTIVE_TRANSACTIONS, TRANSACTION_TRIM_THRESHOLD, u16_MAX; lia. Qed.

Lemma mnt_correct_witness : exists fh,
  mountproc3_mnt (DemoFs.fs ReadWrite) DemoServer.ctx 7 (bytes_of_string "/") DemoServer.state =
  (Ret (mountres3_Ok (mk_mountres3_ok fh [0; 1])),
   mkServerState 0 new_transaction_tracker [true]) /\
  fh_from_nfs DemoFs.fhc (mk_nfs_fh3 fh) = Ok DemoFs.root.
Proof.
  exact (proj2 (proj2 (mnt_correct (DemoFs.fs ReadWrite) DemoServer.ctx 7 (bytes_of_string "/")
    DemoServer.state (converter_new_wf _))) [] (Ok DemoFs.root) 0 eq_refl eq_refl eq_refl).
Defined.

(** A REMOVE is served; another call of the client is then taken, and the cleaner runs. *)
Lemma call_executed_at_most_once_witness :
  let s1 := snd (handle_rpc_message (DemoFs.fs ReadWrite) DemoServer.ctx DemoServer.packed 1 2 DemoServer.state) in
  let t2 := snd (cleanup 50 (snd (start_transaction_known "10.0.0.1:700" 8 40 (ss_tracker s1)))) in
  ss_vfs s1 = 1 /\
  exists t3, handle_rpc_message (DemoFs.fs ReadWrite) DemoServer.ctx DemoServer.packed 51 52 (mkServerState 1 t2 []) =
    (Ret (Ok NoReply), mkServerState 1 t3 []).
Proof.
  intros s1 t2. split; [vm_compute; reflexivity|].
  destruct (call_executed_at_most_once (DemoFs.fs ReadWrite) TRANSACTION_LIFETIME MAX_ACTIVE_TRANSACTIONS
    TRANSACTION_TRIM_THRESHOLD DemoServer.ctx DemoServer.packed
    DemoServer.message DemoServer.ctx (mkLock 0%nat 7 TRANSACTION_LIFETIME)
    (snd (start_transaction "10.0.0.1:700" 7 1 new_transaction_tracker)) 1 2 DemoServer.state [] []
    (fst (handle_rpc_message (DemoFs.fs ReadWrite) DemoServer.ctx DemoServer.packed 1 2 DemoServer.state)) s1)
    as (Hd & H).
  1-4: try (vm_compute; intuition discriminate); apply reachable_init.
  1-4: vm_compute; reflexivity.
  - apply surjective_pairing.
  - destruct (H _ (rtc_refl _ _)) as [_ H2].
    apply (H2 2 [] [] (ss_tracker s1) (mkWorld t2 [mkLock 0%nat 8 TRANSACTION_LIFETIME] []) eq_refl Hd)
      with (m := DemoServer.message) (ctx' := DemoServer.ctx); [|vm_compute; reflexivity..].
    eapply rtc_l; [exists 40; split; [|vm_compute; split; [discriminate|reflexivity]]|].
    { apply (step_start_known _ [] [] "10.0.0.1:700" 8 40 (Ok (mkLock 0%nat 8 TRANSACTION_LIFETIME))
        (snd (start_transaction_known "10.0.0.1:700" 8 40 (ss_tracker s1)))). vm_compute. reflexivity. }
    eapply rtc_once. exists 50. split; [|vm_compute; split; [discriminate|reflexivity]].
    apply step_cleanup. vm_compute. reflexivity.
Defined.

Lemma call_refused_before_dispatch_witness : exists bs,
  encodes rpc_msg_codec (denied 7 (rejected_RPC_MISMATCH 2 2)) bs /\
  handle_rpc_message (DemoFs.fs ReadWrite) DemoServer.ctx
    (call_bytes 7 (mk_call_body 3 100003 3 12 opaque_auth_default opaque_auth_default) []) 1 2
    DemoServer.state = (Ret (Ok (Reply bs)), DemoServer.state).
Proof.
  destruct (incoming_call 7 (mk_call_body 3 100003 3 12 opaque_auth_default opaque_auth_default) [])
    as (hd & _ & _ & Him); [unfold in_u32, u32_MAX; lia| |].
  { cbn. unfold in_u32, u32_MAX. split_and!; try lia; done. }
  exact (proj1 (call_refused_before_dispatch (DemoFs.fs ReadWrite) DemoServer.ctx _ _ 1 2 DemoServer.state
    Him ltac:(cbn; unfold in_u32, u32_MAX; lia)) ltac:(discriminate)).
Defined.

Lemma unknown_program_refused_witness : exists bs,
  encodes rpc_msg_codec (accepted 7 data_PROG_UNAVAIL) bs /\
  dispatch (DemoFs.fs ReadWrite) DemoServer.ctx DemoServer.bad_version DemoServer.state =
  (Ret (Ok (Reply bs)), DemoServer.state).
Proof.
  apply (unknown_program_refused (DemoFs.fs ReadWrite) DemoServer.ctx DemoServer.bad_version DemoServer.state);
    [cbn; unfold in_u32, u32_MAX; lia|discriminate..].
Defined.

Lemma mnt_matches_string_prefix_witness :
  mountproc3_mnt (DemoFs.fs ReadWrite)
    (mkContext 2049 "10.0.0.1:700" auth_unix_default true (bytes_of_string "/foo") DemoFs.fhc) 7
    (bytes_of_string "/foobar") DemoServer.state =
  mountproc3_mnt (DemoFs.fs ReadWrite)
    (mkContext 2049 "10.0.0.1:700" auth_unix_default true (bytes_of_string "/foo") DemoFs.fhc) 7
    (bytes_of_string "/foo/bar") DemoServer.state.
Proof. apply mnt_matches_string_prefix. reflexivity. Defined.
