(* ===== verification/Connection.v ===== *)
(** * A connection of the server: [tcp::process_socket] and [SocketMessageHandler]

    Serving a connection takes a task that moves bytes between the socket and a
    pipe ([process_socket]), a task that reads fragments from the pipe (the
    message loop), and a task per message ([handle_rpc_message]) which sends its
    reply through a channel back to the first.  The state of all of them is a
    [Connection]; an [action] is what one of them does between two points where
    it can be suspended, and [act] says when it can happen and what it changes.
    The state of the server is shared with other connections, which may change
    it at any time ([AOther]). *)

From S2P Require Import Prelude Xdr XdrLaws RpcTypes RpcWire Handle Vfs Transactions MountPortmap Server.
Open Scope Z_scope.
Open Scope nfs_scope.

(** The size of the buffer of [process_socket] and of the pipe. *)
Definition READ_SIZE : Z := 128 * KIBIBYTE.
Definition PIPE_SIZE : Z := 256 * KIBIBYTE.

(** The errors [process_socket] returns. *)
Inductive socket_error : Type :=
| SocketRead (e : io_error)
| ErrorHandlingMessage
| UnexpectedTermination.

(** What is sent through the reply channel: [SocketMessageType]. *)
Definition SocketMessageType : Type := result (list byte) unit.

Record Connection (V : Type) : Type := mkConnection {
  (** the state shared by all connections *)
  cn_server : ServerState V;
  (** what the peer sends and has not been read from the socket yet *)
  cn_peer : list byte;
  (** what [process_socket] has read and not written to the pipe yet *)
  cn_pending : list byte;
  (** what the pipe holds *)
  cn_pipe : list byte;
  (** the message loop: whether it runs, what it has read of a fragment, the
      fragments it has read of a message *)
  cn_looping : bool;
  cn_fragment : list byte;
  cn_cur_fragment : PackedRpcMessage;
  (** the messages whose task has not ended *)
  cn_tasks : list (list byte);
  (** the reply channel *)
  cn_replies : list SocketMessageType;
  (** what was written to the socket, a string of bytes for each reply *)
  cn_written : list (list byte);
  (** how [process_socket] ended *)
  cn_result : option (outcome (result unit socket_error));
}.
Arguments mkConnection {V} _ _ _ _ _ _ _ _ _ _ _.
Arguments cn_server {V} _.
Arguments cn_peer {V} _.
Arguments cn_pending {V} _.
Arguments cn_pipe {V} _.
Arguments cn_looping {V} _.
Arguments cn_fragment {V} _.
Arguments cn_cur_fragment {V} _.
Arguments cn_tasks {V} _.
Arguments cn_replies {V} _.
Arguments cn_written {V} _.
Arguments cn_result {V} _.

(** [SocketMessageHandler::new], for a peer that will send [input]. *)
Definition connection_new {V} (s : ServerState V) (input : list byte) : Connection V :=
  mkConnection s input [] [] true [] packed_rpc_message_new [] [] [] None.

(** How many bytes the current [read_exact] of the message loop still takes: of
    the header, and then of the fragment. *)
Definition wanted (fragment : list byte) : Z :=
  if len fragment <? 4 then 4 - len fragment
  else 4 + fragment_header_fragment_length (fragment_header_from (take 4 fragment)) - len fragment.

Inductive action (V : Type) : Type :=
(** [process_socket]: the socket gives bytes, has been closed, or fails *)
| AReceive (n : Z)
| APeerClosed
| ASocketError (e : io_error)
(** [process_socket]: [write_all] writes bytes to the pipe, or finds it closed *)
| APush (n : Z)
| APipeClosed
(** [process_socket]: a message comes from the channel, and writing the reply to
    the socket succeeds or fails after some bytes; or the channel is closed *)
| AReply
| AReplyFails (n : Z)
| AErrorReply
| AChannelClosed
(** The message loop: bytes come from the pipe, a fragment is complete, or the
    pipe is closed *)
| APull (n : Z)
| AFragment
| AEndOfPipe
(** The task of the [i]-th message, with the instants it reads *)
| AServe (i : nat) (now now_drop : Instant)
(** Another connection, or the cleaner *)
| AOther (s : ServerState V).
Arguments AReceive {V} _.
Arguments APeerClosed {V}.
Arguments ASocketError {V} _.
Arguments APush {V} _.
Arguments APipeClosed {V}.
Arguments AReply {V}.
Arguments AReplyFails {V} _.
Arguments AErrorReply {V}.
Arguments AChannelClosed {V}.
Arguments APull {V} _.
Arguments AFragment {V}.
Arguments AEndOfPipe {V}.
Arguments AServe {V} _ _ _.
Arguments AOther {V} _.

(** What an observer sees. *)
Inductive event : Type :=
| Dispatched (message : list byte)
| Served (message : list byte) (o : outcome (result HandleResult rpc_error))
| Replied (reply : list byte)
| ReplyFailed (reply : list byte).

Section connection.
Context {V H : Type} `{!FileHandle H} (fs : NfsFileSystem V H) (ctx : RPCContext).
Implicit Types c : Connection V.

(** What the task of a message sends through the channel: the result of
    [handle_rpc_message], unless there is nothing to reply or the task panicked. *)
Definition task_sends (o : outcome (result HandleResult rpc_error)) : list SocketMessageType :=
  match o with
  | Ret (Ok (Reply reply)) => [Ok reply]
  | Ret (Ok NoReply) => []
  | Ret (Err _) => [Err tt]
  | _ => []
  end.

(** The guard of [process_socket]'s [select!]: it is waiting there. *)
Definition selecting (pending : list byte) (res : option (outcome (result unit socket_error))) : bool :=
  bool_decide (res = None) && bool_decide (pending = []).

Definition between (a n b : Z) : bool := (a <=? n) && (n <=? b).

(** The actions of [process_socket]. *)
Definition act_socket (a : action V) c : option (Connection V * list event) :=
  let '(mkConnection s peer pending pipe looping fragment cur tasks replies written res) := c in
  let finish r :=
    Some (mkConnection s peer pending pipe looping fragment cur tasks replies written (Some r), []) in
  match a with
  | AReceive n =>
      if selecting pending res && between 1 n (Z.min READ_SIZE (len peer)) then
        Some (mkConnection s (drop (Z.to_nat n) peer) (take (Z.to_nat n) peer) pipe looping fragment cur
                tasks replies written res, [])
      else None
  | APeerClosed =>
      if selecting pending res && bool_decide (peer = []) then finish (Ret (Ok tt)) else None
  | ASocketError e => if selecting pending res then finish (Ret (Err (SocketRead e))) else None
  | APush n =>
      if bool_decide (res = None) && looping && between 1 n (Z.min (len pending) (PIPE_SIZE - len pipe)) then
        Some (mkConnection s peer (drop (Z.to_nat n) pending) (pipe ++ take (Z.to_nat n) pending)
                looping fragment cur tasks replies written res, [])
      else None
  | APipeClosed =>
      if bool_decide (res = None) && negb looping && negb (bool_decide (pending = [])) then
        Some (mkConnection s peer [] pipe looping fragment cur tasks replies written res, [])
      else None
  | AReply =>
      match replies with
      | Ok reply :: replies' =>
          if selecting pending res then
            match write_fragment reply with
            | Ret bytes =>
                Some (mkConnection s peer pending pipe looping fragment cur tasks replies' (written ++ [bytes]) res,
                      [Replied reply])
            | _ =>
                Some (mkConnection s peer pending pipe looping fragment cur tasks replies' written (Some Panic), [])
            end
          else None
      | _ => None
      end
  | AReplyFails n =>
      match replies with
      | Ok reply :: replies' =>
          if selecting pending res then
            match write_fragment reply with
            | Ret bytes =>
                if between 0 n (len bytes - 1) then
                  Some (mkConnection s peer pending pipe looping fragment cur tasks replies'
                          (written ++ [take (Z.to_nat n) bytes]) res, [ReplyFailed reply])
                else None
            | _ => None
            end
          else None
      | _ => None
      end
  | AErrorReply =>
      match replies with
      | Err _ :: replies' =>
          if selecting pending res then
            Some (mkConnection s peer pending pipe looping fragment cur tasks replies' written
                    (Some (Ret (Err ErrorHandlingMessage))), [])
          else None
      | _ => None
      end
  | AChannelClosed =>
      if selecting pending res && negb looping && bool_decide (tasks = []) && bool_decide (replies = []) then
        finish (Ret (Err UnexpectedTermination))
      else None
  | _ => None
  end.

(** The actions of the message loop. When [process_socket] has ended, the pipe
    is closed once it is empty. *)
Definition act_loop (a : action V) c : option (Connection V * list event) :=
  let '(mkConnection s peer pending pipe looping fragment cur tasks replies written res) := c in
  let break := mkConnection s peer pending pipe false fragment cur tasks replies written res in
  match a with
  | APull n =>
      if looping && between 1 n (Z.min (wanted fragment) (len pipe)) then
        Some (mkConnection s peer pending (drop (Z.to_nat n) pipe) looping (fragment ++ take (Z.to_nat n) pipe) cur
                tasks replies written res, [])
      else None
  | AFragment =>
      if looping && (wanted fragment =? 0) then
        match socket_read cur fragment with
        | (Ret (Ok msg), cur, fragment) =>
            Some (mkConnection s peer pending pipe looping fragment cur
                    (tasks ++ match msg with Some m => [m] | None => [] end) replies written res,
                  match msg with Some m => [Dispatched m] | None => [] end)
        | _ => Some (break, [])
        end
      else None
  | AEndOfPipe =>
      if looping && (0 <? wanted fragment) && bool_decide (pipe = []) && negb (bool_decide (res = None)) then
        Some (break, [])
      else None
  | _ => None
  end.

(** The end of a task. What it sends after [process_socket] has ended is lost. *)
Definition act_task (i : nat) (now now_drop : Instant) c : option (Connection V * list event) :=
  let '(mkConnection s peer pending pipe looping fragment cur tasks replies written res) := c in
  match tasks !! i with
  | Some message =>
      match handle_rpc_message fs ctx message now now_drop s with
      | (OutOfFuel, _) => None
      | (o, s) =>
          Some (mkConnection s peer pending pipe looping fragment cur (delete i tasks)
                  (if bool_decide (res = None) then replies ++ task_sends o else replies) written res,
                [Served message o])
      end
  | None => None
  end.

Definition act (a : action V) c : option (Connection V * list event) :=
  match a with
  | APull _ | AFragment | AEndOfPipe => act_loop a c
  | AServe i now now_drop => act_task i now now_drop c
  | AOther s =>
      Some (mkConnection s (cn_peer c) (cn_pending c) (cn_pipe c) (cn_looping c) (cn_fragment c)
              (cn_cur_fragment c) (cn_tasks c) (cn_replies c) (cn_written c) (cn_result c), [])
  | _ => act_socket a c
  end.

(** A run: the actions that happen, one after the other. *)
Fixpoint run (acts : list (action V)) c : option (Connection V * list event) :=
  match acts with
  | [] => Some (c, [])
  | a :: acts =>
      match act a c with
      | Some (c, evs) =>
          match run acts c with
          | Some (c, evs') => Some (c, evs ++ evs')
          | None => None
          end
      | None => None
      end
  end.
End connection.
