(* ===== verification/ConnectionLaws.v ===== *)
(** * Laws of a connection

    Every run of the tasks of a connection dispatches the messages of its input
    in their order, serves each of them once, and writes the replies as whole
    fragments in the order in which they were sent; it is finite, and it only
    stops when there is nothing left to do. *)

From stdpp Require Import sorting.
From S2P Require Import Prelude Xdr XdrLaws RpcTypes RpcWire RpcWireLaws Handle Vfs Transactions MountPortmap.
From S2P Require Import NfsHandlersLaws Server ServerLaws Connection.
Open Scope Z_scope.
Open Scope nfs_scope.

(** ** The messages in a stream of bytes *)

Lemma socket_read_loop_fuel f1 f2 buf inp :
  (length inp < f1)%nat -> (length inp < f2)%nat ->
  socket_read_loop f1 (Incomplete buf) inp = socket_read_loop f2 (Incomplete buf) inp.
Proof.
  revert f2 buf inp. induction f1 as [|f1 IH]; intros f2 buf inp H1 H2; [lia|].
  destruct f2 as [|f2]; [lia|]. cbn [socket_read_loop].
  pose proof (socket_read_progress buf inp) as Hp.
  destruct (socket_read (Incomplete buf) inp) as [[[[m|e]| |] cur] i]; try done.
  destruct cur as [buf'|]; [|done]. by rewrite (IH f2 buf' i) by lia.
Qed.

(** The messages that [inp] completes after the fragments [buf]. *)
Definition messages_from (buf inp : list byte) : list (list byte) :=
  match socket_read_loop (S (length inp)) (Incomplete buf) inp with
  | (Ret (msgs, _), _, _) => msgs
  | _ => []
  end.

Definition messages (inp : list byte) : list (list byte) := messages_from [] inp.

(** The messages that a peer which sends [msgs] sends. *)
Lemma messages_wire msgs :
  Forall message_ok msgs -> messages (concat (map message_wire msgs)) = map message_payload msgs.
Proof.
  intros Hok. unfold messages, messages_from.
  pose proof (socket_reassembles msgs (S (length (concat (map message_wire msgs)))) Hok) as H.
  unfold packed_rpc_message_new in H. by rewrite H by lia.
Qed.

(** ** Fragments *)

Lemma fragment_length_nonneg fragment :
  0 <= fragment_header_fragment_length (fragment_header_from (take 4 fragment)).
Proof.
  unfold fragment_header_fragment_length. apply Z.land_nonneg. right. unfold MASK. lia.
Qed.

(** A complete fragment is read as it is, whatever follows it. *)
Lemma read_complete_fragment buf fragment :
  wanted fragment = 0 ->
  exists msg buf', (4 <= length fragment)%nat /\
    forall rest, socket_read (Incomplete buf) (fragment ++ rest) = (Ret (Ok msg), Incomplete buf', rest).
Proof.
  unfold wanted. intros Hw. destruct (Z.ltb_spec (len fragment) 4) as [Hl|Hl]; [lia|].
  set (h := fragment_header_from (take 4 fragment)) in *.
  assert (fragment = take 4 fragment ++ drop 4 fragment) as Hf by by rewrite take_drop.
  assert (len (take 4 fragment) = 4) as Ht by (unfold len in *; rewrite length_take; lia).
  assert (len (drop 4 fragment) = fragment_header_fragment_length h) as Hd.
  { unfold len in *. rewrite length_drop. lia. }
  destruct (fragment_header_eof h) eqn:Heof.
  - exists (Some (buf ++ drop 4 fragment)), []. split; [unfold len in Hl; lia|]. intros rest.
    unfold socket_read, packed_recv, incomplete_recv. rewrite Hf, <- (assoc_L (++)) at 1.
    rewrite (read_exact_into_app' 4 _ _ Ht). fold h.
    by rewrite (read_exact_into_app' _ _ rest Hd), Heof.
  - exists None, (buf ++ drop 4 fragment). split; [unfold len in Hl; lia|]. intros rest.
    unfold socket_read, packed_recv, incomplete_recv. rewrite Hf, <- (assoc_L (++)) at 1.
    rewrite (read_exact_into_app' 4 _ _ Ht). fold h.
    by rewrite (read_exact_into_app' _ _ rest Hd), Heof.
Qed.

Lemma messages_from_fragment buf fragment msg buf' rest :
  wanted fragment = 0 -> (4 <= length fragment)%nat ->
  (forall r, socket_read (Incomplete buf) (fragment ++ r) = (Ret (Ok msg), Incomplete buf', r)) ->
  messages_from buf (fragment ++ rest) = option_list msg ++ messages_from buf' rest.
Proof.
  intros Hw Hl Hr. unfold messages_from at 1. cbn [socket_read_loop]. rewrite Hr.
  rewrite (socket_read_loop_fuel _ (S (length rest)) buf' rest) by (rewrite ?length_app; lia).
  unfold messages_from.
  destruct (socket_read_loop_ends (S (length rest)) buf' rest) as (msgs & e & cur & i & ->); [lia|].
  by destruct msg.
Qed.

(** Nothing is complete while the message loop waits for bytes. *)
Lemma messages_from_waiting buf fragment : 0 < wanted fragment -> messages_from buf fragment = [].
Proof.
  intros Hw. unfold messages_from. cbn [socket_read_loop].
  assert (exists e cur i, socket_read (Incomplete buf) fragment = (Ret (Err e), cur, i)) as (e & cur & i & ->); [|done].
  unfold wanted in Hw. unfold socket_read, packed_recv, incomplete_recv, read_exact_into.
  destruct (Z.ltb_spec (len fragment) 4) as [Hl|Hl].
  { rewrite (proj2 (Z.leb_gt 4 _)) by lia. eauto. }
  rewrite (proj2 (Z.leb_le 4 _)) by lia. change (Z.to_nat 4) with 4%nat.
  rewrite (proj2 (Z.leb_gt _ _)); [eauto|]. unfold len in *. rewrite length_drop. lia.
Qed.

Lemma wanted_app fragment bs :
  0 <= wanted fragment -> len bs <= wanted fragment -> 0 <= wanted (fragment ++ bs).
Proof.
  intros H1 H2. unfold wanted in *. rewrite len_app.
  destruct (Z.ltb_spec (len fragment) 4) as [Hl|Hl].
  - destruct (Z.ltb_spec (len fragment + len bs) 4); [lia|].
    pose proof (fragment_length_nonneg (fragment ++ bs)). lia.
  - pose proof (len_nonneg bs). rewrite (proj2 (Z.ltb_ge _ _)) by lia.
    rewrite take_app_le by (unfold len in Hl; lia). lia.
Qed.

(** ** What a run has done *)

Definition dispatched (evs : list event) : list (list byte) :=
  omap (fun e => match e with Dispatched m => Some m | _ => None end) evs.
Definition served (evs : list event) : list (list byte * outcome (result HandleResult rpc_error)) :=
  omap (fun e => match e with Served m o => Some (m, o) | _ => None end) evs.
(** The replies that were taken from the channel, and whether all of them went out. *)
Definition replied (evs : list event) : list (list byte * bool) :=
  omap (fun e => match e with Replied r => Some (r, true) | ReplyFailed r => Some (r, false) | _ => None end) evs.

(** What the tasks that have ended sent. *)
Definition sent (evs : list event) : list SocketMessageType :=
  concat (map (fun x => task_sends x.2) (served evs)).

(** The bytes written for a reply. *)
Definition reply_written (x : list byte * bool) (bytes : list byte) : Prop :=
  exists wire, write_fragment x.1 = Ret wire /\ if x.2 then bytes = wire else bytes `prefix_of` wire.

Lemma dispatched_app e1 e2 : dispatched (e1 ++ e2) = dispatched e1 ++ dispatched e2.
Proof. apply omap_app. Qed.
Lemma served_app e1 e2 : served (e1 ++ e2) = served e1 ++ served e2.
Proof. apply omap_app. Qed.
Lemma replied_app e1 e2 : replied (e1 ++ e2) = replied e1 ++ replied e2.
Proof. apply omap_app. Qed.
Lemma sent_app e1 e2 : sent (e1 ++ e2) = sent e1 ++ sent e2.
Proof. unfold sent. by rewrite served_app, map_app, concat_app. Qed.

Create Rewrite HintDb events.
#[export] Hint Rewrite dispatched_app served_app replied_app sent_app map_app (@app_nil_r (list byte))
  (@app_nil_r (list byte * bool)) (@app_nil_r SocketMessageType)
  (@app_nil_r (list byte * outcome (result HandleResult rpc_error))) : events.

(** ** Guards *)

Lemma selecting_true pending res : selecting pending res = true -> pending = [] /\ res = None.
Proof. unfold selecting. intros [H1 H2]%andb_true_iff. by case_bool_decide; case_bool_decide. Qed.

Lemma between_true a n b : between a n b = true -> a <= n <= b.
Proof. unfold between. lia. Qed.

(** Case analysis on the guard of an action that happened. *)
Ltac guards :=
  repeat match goal with
  | H : (if ?g then _ else None) = Some _ |- _ => destruct g eqn:?; [|done]
  | H : (match ?r with [] => None | _ => _ end) = Some _ |- _ => destruct r as [|[?|?] ?]; try done
  | H : _ && _ = true |- _ => apply andb_true_iff in H as [? ?]
  | H : selecting _ _ = true |- _ => apply selecting_true in H as [-> ->]
  | H : between _ _ _ = true |- _ => apply between_true in H
  | H : bool_decide _ = true |- _ => apply bool_decide_eq_true in H
  | H : negb _ = true |- _ => apply negb_true_iff in H
  | H : bool_decide _ = false |- _ => apply bool_decide_eq_false in H
  end.

Section connection.
Context {V H : Type} `{!FileHandle H} (fs : NfsFileSystem V H) (ctx : RPCContext).
Implicit Types c : Connection V.

(** What is true of every state of a connection whose peer sends [input], after
    the events [evs]. *)
Record conn_inv (input : list byte) (evs : list event) c : Prop := {
  (** the message loop is in the middle of a fragment of an incomplete message
      and has not taken more than it wants; it only ends after [process_socket] *)
  ci_wanted : 0 <= wanted (cn_fragment c);
  ci_looping : cn_looping c = false -> cn_result c <> None;
  (** what it has dispatched and what is in flight are the messages of the input *)
  ci_dispatched : exists buf, cn_cur_fragment c = Incomplete buf /\
    messages input = dispatched evs ++
      messages_from buf (cn_fragment c ++ cn_pipe c ++ cn_pending c ++ cn_peer c);
  (** the messages that were dispatched are served or have a task *)
  ci_tasks : dispatched evs ≡ₚ map fst (served evs) ++ cn_tasks c;
  (** what the tasks sent was taken from the channel or is in it *)
  ci_replies : cn_result c = None -> sent evs = map (fun x => Ok x.1) (replied evs) ++ cn_replies c;
  ci_prefix : map (fun x => Ok x.1) (replied evs) `prefix_of` sent evs;
  ci_written : Forall2 reply_written (replied evs) (cn_written c);
  ci_result : cn_result c <> Some (Ret (Err UnexpectedTermination));
}.

Lemma conn_inv_initial s input : conn_inv input [] (connection_new s input).
Proof.
  split; cbn.
  - done.
  - done.
  - by exists [].
  - done.
  - done.
  - done.
  - constructor.
  - done.
Qed.

(** The parts of the invariant that an action does not touch. *)
Ltac keep_inv buf :=
  simplify_eq; split; cbn in *; autorewrite with events;
  try solve [done|by exists buf|by auto using Forall2_app].

Lemma act_socket_inv input evs a c c' evs' :
  conn_inv input evs c -> act_socket a c = Some (c', evs') -> conn_inv input (evs ++ evs') c'.
Proof.
  intros [Hw Hl (buf & Hcur & Hd) Ht Hr Hpre Hwr Hres] Hact. unfold act_socket in Hact.
  destruct c as [s peer pending pipe looping fragment cur tasks replies written res]. cbn in *.
  destruct a; try done; guards.
  - keep_inv buf. exists buf. by rewrite take_drop.
  - keep_inv buf.
  - keep_inv buf.
  - keep_inv buf. exists buf. split; [done|]. by rewrite <- (assoc_L (++) pipe), (assoc_L (++) (take _ _)), take_drop.
  - subst. by destruct (Hl eq_refl).
  - destruct (write_fragment _) eqn:E; keep_inv buf.
    + intros _. rewrite Hr by done. by rewrite <- (assoc_L (++)).
    + rewrite Hr by done. eexists. by rewrite <- (assoc_L (++)).
    + apply Forall2_app; [done|]. constructor; [|done]. by eexists.
  - destruct (write_fragment _) as [bytes| |] eqn:E; try done. guards. keep_inv buf.
    + intros _. rewrite Hr by done. by rewrite <- (assoc_L (++)).
    + rewrite Hr by done. eexists. by rewrite <- (assoc_L (++)).
    + apply Forall2_app; [done|]. constructor; [|done]. exists bytes. split; [done|]. apply prefix_take.
  - keep_inv buf.
  - subst. by destruct (Hl eq_refl).
Qed.

Lemma act_loop_inv input evs a c c' evs' :
  conn_inv input evs c -> act_loop a c = Some (c', evs') -> conn_inv input (evs ++ evs') c'.
Proof.
  intros [Hw Hl (buf & Hcur & Hd) Ht Hr Hpre Hwr Hres] Hact. unfold act_loop in Hact.
  destruct c as [s peer pending pipe looping fragment cur tasks replies written res]. cbn in *.
  destruct a; try done; guards.
  - keep_inv buf.
    + apply wanted_app; [done|]. unfold len in *. rewrite length_take. lia.
    + exists buf. split; [done|]. by rewrite <- (assoc_L (++) fragment), (assoc_L (++) (take _ _)), take_drop.
  - subst cur. destruct (read_complete_fragment buf fragment) as (msg & buf' & H4 & Hread); [by apply Z.eqb_eq|].
    pose proof (Hread []) as E. rewrite app_nil_r in E. rewrite E in Hact.
    rewrite (messages_from_fragment _ _ _ _ _ ltac:(by apply Z.eqb_eq) H4 Hread) in Hd.
    destruct msg as [m|]; keep_inv buf; [..|by exists buf'].
    + exists buf'. split; [done|]. by rewrite Hd, <- (assoc_L (++)).
    + by rewrite Ht, <- (assoc_L (++)).
  - keep_inv buf.
Qed.

Lemma act_task_inv input evs i now now_drop c c' evs' :
  conn_inv input evs c -> act_task fs ctx i now now_drop c = Some (c', evs') -> conn_inv input (evs ++ evs') c'.
Proof.
  intros [Hw Hl (buf & Hcur & Hd) Ht Hr Hpre Hwr Hres] Hact. unfold act_task in Hact.
  destruct c as [s peer pending pipe looping fragment cur tasks replies written res]. cbn in *.
  destruct (tasks !! i) as [m|] eqn:Hi; [|done].
  assert (forall o, dispatched (evs ++ [Served m o]) ≡ₚ map fst (served (evs ++ [Served m o])) ++ delete i tasks) as Ht'.
  { intros o. autorewrite with events. rewrite <- (assoc_L (++)), Ht. f_equiv. by apply delete_Permutation. }
  assert (forall o s', conn_inv input (evs ++ [Served m o])
    (mkConnection s' peer pending pipe looping fragment cur (delete i tasks)
       (if bool_decide (res = None) then replies ++ task_sends o else replies) written res)) as Hinv.
  { intros o s'. split; cbn; [done|done| |apply Ht'|..]; autorewrite with events; cbn.
    - by exists buf.
    - intros ->. cbn. rewrite Hr by done. unfold sent. cbn. by rewrite app_nil_r, <- (assoc_L (++)).
    - by apply prefix_app_r.
    - done.
    - done. }
  destruct (handle_rpc_message fs ctx m now now_drop s) as [[r| |] s'] eqn:E; simplify_eq; apply Hinv.
Qed.

Lemma act_inv input evs a c c' evs' :
  conn_inv input evs c -> act fs ctx a c = Some (c', evs') -> conn_inv input (evs ++ evs') c'.
Proof.
  intros Hi Hact. destruct a; cbn [act] in Hact; eauto using act_socket_inv, act_loop_inv, act_task_inv.
  destruct Hi, c. by simplify_eq; rewrite app_nil_r.
Qed.

Lemma run_inv input acts evs c c' evs' :
  conn_inv input evs c -> run fs ctx acts c = Some (c', evs') -> conn_inv input (evs ++ evs') c'.
Proof.
  revert evs c evs'. induction acts as [|a acts IH]; intros evs c evs' Hi Hrun; cbn [run] in Hrun.
  { simplify_eq. by rewrite app_nil_r. }
  destruct (act fs ctx a c) as [[c1 e1]|] eqn:Ha; [|done].
  destruct (run fs ctx acts c1) as [[c2 e2]|] eqn:Hr; [|done]. simplify_eq.
  rewrite (assoc_L (++)). eauto using act_inv.
Qed.

(** What was served is what [handle_rpc_message] answered. *)
Definition served_by (x : list byte * outcome (result HandleResult rpc_error)) : Prop :=
  exists now now_drop s, fst (handle_rpc_message fs ctx x.1 now now_drop s) = x.2.

Lemma act_served a c c' evs : act fs ctx a c = Some (c', evs) -> Forall served_by (served evs).
Proof.
  intros Hact. destruct c as [s peer pending pipe looping fragment cur tasks replies written res].
  destruct a; cbn in Hact; unfold selecting in Hact;
    repeat case_match; simplify_eq; try constructor; try constructor;
    (eexists _, _, _; cbn; by match goal with E : handle_rpc_message _ _ _ _ _ _ = _ |- _ => rewrite E end).
Qed.

Lemma run_served acts c c' evs : run fs ctx acts c = Some (c', evs) -> Forall served_by (served evs).
Proof.
  revert c evs. induction acts as [|a acts IH]; intros c evs Hrun; cbn [run] in Hrun; [by simplify_eq|].
  destruct (act fs ctx a c) as [[c1 e1]|] eqn:Ha; [|done].
  destruct (run fs ctx acts c1) as [[c2 e2]|] eqn:Hr; [|done]. simplify_eq.
  rewrite served_app, Forall_app. eauto using act_served.
Qed.

(** ** Progress *)

(** What a connection can still do, at most. *)
Definition work c : nat :=
  (4 * length (cn_peer c) + 3 * length (cn_pending c) + 2 * length (cn_pipe c) + length (cn_fragment c) +
   3 * length (cn_tasks c) + length (cn_replies c) +
   (if cn_looping c then 1 else 0) + match cn_result c with None => 1 | Some _ => 0 end)%nat.

Definition is_other (a : action V) : bool := match a with AOther _ => true | _ => false end.

Lemma task_sends_len o : (length (task_sends o) <= 1)%nat.
Proof. by destruct o as [[[]|]| |]; cbn; lia. Qed.

Lemma act_work input evs a c c' evs' :
  conn_inv input evs c -> act fs ctx a c = Some (c', evs') ->
  (work c' + (if is_other a then 0 else 1) <= work c)%nat.
Proof.
  intros [Hw Hl (buf & Hcur & Hd) Ht Hr Hpre Hwr Hres] Hact.
  destruct c as [s peer pending pipe looping fragment cur tasks replies written res]. cbn in *.
  destruct a; cbn in Hact; guards.
  11: { subst cur. destruct (read_complete_fragment buf fragment) as (msg & buf' & H4 & Hread); [by apply Z.eqb_eq|].
    specialize (Hread []). rewrite app_nil_r in Hread. rewrite Hread in Hact. simplify_eq.
    destruct msg; cbn; rewrite ?length_app; cbn; lia. }
  12: { destruct (tasks !! i) as [m|] eqn:Hi; [|done].
    assert (length tasks = S (length (delete i tasks))) as Hlen.
    { apply delete_Permutation in Hi as Hp. by rewrite Hp at 1. }
    destruct (handle_rpc_message fs ctx m now now_drop s) as [o s'] eqn:E; pose proof (task_sends_len o);
      destruct o; simplify_eq; cbn; rewrite Hlen; destruct res; cbn; rewrite ?length_app; cbn in *; lia. }
  all: repeat case_match; simplify_eq; cbn;
    rewrite ?length_app, ?length_drop, ?length_take; unfold len, READ_SIZE, KIBIBYTE in *;
    first [lia|by destruct (Hl eq_refl)].
Qed.

Lemma run_work input evs acts c c' evs' :
  conn_inv input evs c -> run fs ctx acts c = Some (c', evs') ->
  (work c' + length (filter (fun a => is_other a = false) acts) <= work c)%nat.
Proof.
  revert evs c evs'. induction acts as [|a acts IH]; intros evs c evs' Hi Hrun; cbn [run] in Hrun.
  { simplify_eq. cbn. lia. }
  destruct (act fs ctx a c) as [[c1 e1]|] eqn:Ha; [|done].
  destruct (run fs ctx acts c1) as [[c2 e2]|] eqn:Hr; [|done]. simplify_eq.
  pose proof (act_work _ _ _ _ _ _ Hi Ha) as Hw.
  pose proof (IH _ _ _ (act_inv _ _ _ _ _ _ Hi Ha) Hr) as IHw.
  rewrite filter_cons. destruct (is_other a); case_decide; try done; cbv beta iota in Hw; cbn [length]; lia.
Qed.

(** An action that does not come from outside. *)
Definition internal (a : action V) : Prop :=
  match a with APeerClosed | ASocketError _ | AOther _ => False | _ => True end.

Definition quiescent c : Prop := forall a, internal a -> act fs ctx a c = None.

(** A task that does not end, whenever it runs. *)
Definition task_hangs c (m : list byte) : Prop :=
  forall now now_drop, fst (handle_rpc_message fs ctx m now now_drop (cn_server c)) = OutOfFuel.

Lemma guard_none {A} (g : bool) (x : A) : (if g then Some x else None) = None -> g = false.
Proof. by destruct g. Qed.

Lemma len_pos_nil {A} (l : list A) : len l < 1 -> l = [].
Proof. destruct l; [done|]. rewrite len_cons. pose proof (len_nonneg l). lia. Qed.

Lemma quiescent_done input evs c :
  conn_inv input evs c -> quiescent c ->
  Forall (task_hangs c) (cn_tasks c) /\
  match cn_result c with
  | Some _ => cn_looping c = false
  | None => dispatched evs = messages input /\ cn_replies c = [] /\ cn_peer c = []
  end.
Proof.
  intros [Hw Hl (buf & Hcur & Hd) Ht Hr Hpre Hwr Hres] Hq.
  destruct c as [s peer pending pipe looping fragment cur tasks replies written res]. cbn in *.
  split.
  { apply Forall_lookup. intros i m Hi now now_drop. pose proof (Hq (AServe i now now_drop) I) as Ha.
    cbn in Ha. rewrite Hi in Ha. cbn. by destruct (handle_rpc_message fs ctx m now now_drop s) as [[]]. }
  assert (looping = true -> 0 < wanted fragment /\ pipe = []) as Hloop.
  { intros ->. assert (0 < wanted fragment) as Hw0.
    { pose proof (Hq AFragment I) as Ha. cbn in Ha.
      destruct (Z.eqb_spec (wanted fragment) 0) as [Hz|Hz]; [|lia]. by repeat case_match. }
    split; [done|]. apply len_pos_nil. pose proof (guard_none _ _ (Hq (APull 1) I)) as Ha. cbn -[between] in Ha. unfold between in Ha. lia. }
  destruct res as [r|].
  { destruct looping; [|done]. destruct (Hloop eq_refl) as [Hw0 ->].
    pose proof (guard_none _ _ (Hq AEndOfPipe I)) as Ha. cbn in Ha. rewrite (proj2 (Z.ltb_lt _ _)) in Ha by lia. done. }
  destruct looping; [|by destruct (Hl eq_refl)]. destruct (Hloop eq_refl) as [Hw0 ->].
  assert (pending = []) as ->.
  { apply len_pos_nil. pose proof (guard_none _ _ (Hq (APush 1) I)) as Ha. cbn in Ha. unfold between in Ha.
    rewrite len_nil in Ha. unfold PIPE_SIZE, KIBIBYTE in Ha. lia. }
  assert (peer = []) as ->.
  { apply len_pos_nil. pose proof (guard_none _ _ (Hq (AReceive 1) I)) as Ha. cbn in Ha. unfold between in Ha.
    unfold READ_SIZE, KIBIBYTE in Ha. lia. }
  split_and!; [|..|done].
  - rewrite Hd. cbn [app]. by rewrite app_nil_r, (messages_from_waiting _ _ Hw0), app_nil_r.
  - destruct replies as [|[r|u] replies]; [done|..].
    + pose proof (Hq AReply I) as Ha. cbn in Ha. by destruct (write_fragment r).
    + by pose proof (Hq AErrorReply I).
Qed.

(** An idle connection is quiescent. *)
Lemma quiescent_idle c :
  cn_peer c = [] -> cn_pending c = [] -> cn_pipe c = [] -> cn_tasks c = [] -> cn_replies c = [] ->
  cn_looping c = true -> cn_result c = None -> 0 < wanted (cn_fragment c) -> quiescent c.
Proof.
  destruct c as [s peer pending pipe looping fragment cur tasks replies written res]. cbn.
  intros -> -> -> -> -> -> -> Hw a Ha. destruct a; cbn in *; try done.
  - destruct (between 1 n _) eqn:E; [|done]. apply between_true in E. unfold READ_SIZE, KIBIBYTE, len in E. cbn in E. lia.
  - destruct (between 1 n _) eqn:E; [|done]. apply between_true in E. unfold len in E. cbn in E. lia.
  - destruct (between 1 n _) eqn:E; [|done]. apply between_true in E. unfold len in E. cbn in E. lia.
  - by rewrite (proj2 (Z.eqb_neq _ _)) by lia.
  - by rewrite andb_false_r.
Qed.

(** C12: A connection serves each message once and answers with whole replies.
    However the tasks of a connection are interleaved with each other and with
    other connections, and whatever the peer sends: the messages dispatched are
    the first messages of the stream, in order; each has one task and is passed
    to [handle_rpc_message] at most once; the replies taken from the channel are
    the first ones the tasks sent, in the order in which the tasks ended; and
    each is written to the socket as one fragment that no other write
    interrupts, or as a beginning of it when the socket fails. The message loop
    does not end before the socket, so the channel is never found closed. *)
Theorem connection_safe s input acts c evs :
  run fs ctx acts (connection_new s input) = Some (c, evs) ->
  dispatched evs `prefix_of` messages input /\
  dispatched evs ≡ₚ map fst (served evs) ++ cn_tasks c /\
  Forall served_by (served evs) /\
  map (fun x => Ok x.1) (replied evs) `prefix_of` sent evs /\
  Forall2 reply_written (replied evs) (cn_written c) /\
  cn_result c <> Some (Ret (Err UnexpectedTermination)).
Proof.
  intros Hrun. pose proof (run_served _ _ _ _ Hrun) as Hs.
  destruct (run_inv input _ _ _ _ _ (conn_inv_initial s input) Hrun) as [_ _ (buf & _ & Hd) ? ? ? ? ?].
  split_and!; try done. rewrite Hd. by apply prefix_app_r.
Qed.

End connection.

(** ** A connection *)

Module DemoConnection.
Import DemoFs DemoServer.

(** A scheduler that does the first action that can happen. *)
Definition next (c : Connection Z) : list (action Z) :=
  [AFragment; APull (Z.min (wanted (cn_fragment c)) (len (cn_pipe c)));
   APush (Z.min (len (cn_pending c)) 50); AReceive (Z.min 70 (len (cn_peer c))); AReply; AServe 0 1 2].

Fixpoint schedule (fuel : nat) (c : Connection Z) : list (action Z) :=
  match fuel with
  | O => []
  | S fuel =>
      match list_find (fun a => is_Some (act (fs ReadWrite) ctx a c)) (next c) with
      | Some (_, a) =>
          match act (fs ReadWrite) ctx a c with
          | Some (c, _) => a :: schedule fuel c
          | None => []
          end
      | None => []
      end
  end.

(** A call in two fragments and its retransmission in one. *)
Definition msgs : list (list (list byte) * list byte) :=
  [([take 30 packed], drop 30 packed); ([], packed)].
Definition start : Connection Z := connection_new state (concat (map message_wire msgs)).
Definition acts : list (action Z) := schedule 100 start.
Definition final : Connection Z * list event :=
  match Connection.run (fs ReadWrite) ctx acts start with Some r => r | None => (start, []) end.

(** The call is served once and answered with one reply. *)
Example served_twice : map fst (served final.2) = [packed; packed].
Proof. vm_compute. reflexivity. Qed.
Example replied_once : (length (replied final.2), ss_vfs (cn_server final.1), map len (cn_written final.1)) = (1%nat, 1, [4 + 144]).
Proof. vm_compute. reflexivity. Qed.

Lemma run_final : Connection.run (fs ReadWrite) ctx acts (connection_new state (concat (map message_wire msgs))) =
  Some (final.1, final.2).
Proof. vm_compute. reflexivity. Qed.
Lemma msgs_ok : Forall message_ok msgs.
Proof. repeat constructor; vm_compute; discriminate. Qed.
End DemoConnection.

Lemma connection_safe_witness :
  Forall2 reply_written (replied DemoConnection.final.2) (cn_written DemoConnection.final.1) /\
  length (cn_written DemoConnection.final.1) = 1%nat.
Proof.
  split; [|vm_compute; reflexivity].
  exact (proj1 (proj2 (proj2 (proj2 (proj2 (connection_safe (DemoFs.fs ReadWrite) DemoServer.ctx DemoServer.state
    (concat (map message_wire DemoConnection.msgs)) DemoConnection.acts DemoConnection.final.1
    DemoConnection.final.2 DemoConnection.run_final)))))).
Defined.

