(* ===== verification/ServerValidity.v ===== *)
(** * The server over a file system that keeps its promise

    [Validity] lifted to the whole server: a property of the file system that its
    methods keep is kept by every message, MOUNT and port mapper calls included,
    and by a connection with all its tasks, and every call gets a reply of its own
    unless it is a retransmission or its procedure fails ([answered]).  A file
    system exported through the read-only adapter does not change at all. *)

From S2P Require Import Prelude Xdr XdrLaws Nfs3Types RpcTypes RpcWire RpcWireLaws MountTypes PortmapTypes Handle Vfs.
From S2P Require Import NfsHandlers Transactions TransactionLaws MountPortmap Server ServerLaws Connection ConnectionLaws Validity.
Open Scope Z_scope.
Open Scope nfs_scope.

(** What a context of the server is made of. *)
Record context_ok (ctx : RPCContext) : Prop := {
  co_port : in_u32 (ctx_local_port ctx);
  co_export : valid opaque_codec (ctx_export_name ctx);
  co_converter : converter_wf (ctx_file_handle_converter ctx);
}.

(** The errors of [handle_rpc_message]: a message that is not a call, and
    credentials that cannot be decoded. *)
Definition not_a_call (ctx : RPCContext) (packed : list byte) (e : rpc_error) : Prop :=
  incoming_try_from packed = Err e \/
  exists m, incoming_try_from packed = Ok m /\ with_auth ctx (call_body_cred (im_body m)) = Err e.

Section server.
Context {V H : Type} `{!FileHandle H} (fs : NfsFileSystem V H) (P : V -> Prop).
Context (Hfs : ValidFs fs P).

Definition on_server (s : ServerState V) : Prop := P (ss_vfs s).

Lemma on_vfs_post {A} (Q : A -> Prop) (m : prog V A) : post P Q m -> post on_server Q (on_vfs m).
Proof.
  intros Hm s Hs. unfold on_vfs. destruct (Hm (ss_vfs s) Hs) as [H1 H2]. by destruct (m (ss_vfs s)).
Qed.

Lemma send_mount_signal_post ctx b : post on_server (fun _ => True) (send_mount_signal ctx b).
Proof. intros s Hs. unfold send_mount_signal. split; [|done]. by destruct (ctx_mount_signal ctx). Qed.

Section context.
Context (ctx : RPCContext) (Hctx : context_ok ctx).

Lemma auth_flavors_valid : valid vec_u32_codec [0; 1].
Proof. split; [discriminate|]. repeat constructor; discriminate. Qed.

Lemma mountproc3_mnt_post xid path : post on_server (valid mountres3_codec) (mountproc3_mnt fs ctx xid path).
Proof.
  unfold mountproc3_mnt. destruct (utf8_valid path); [|by apply post_pret].
  destruct (export_path ctx path) as [p|]; [|by apply post_pret].
  eapply post_bind; [apply on_vfs_post, vf_lookup_by_path|]. intros [id|e] Hid; [|by apply post_pret].
  eapply post_bind; [apply send_mount_signal_post|]. intros _ _. apply post_pret. cbn -[in_u32 opaque_codec vec_u32_codec fh_to_nfs].
  refine (conj (conj _ I) (conj auth_flavors_valid I)).
  pose proof (fh_valid _ (co_converter _ Hctx) id Hid) as Hv. cbn -[opaque_codec fh_to_nfs] in Hv. by destruct Hv.
Qed.

Lemma handle_mount_post m : in_u32 (im_xid m) -> post on_server (replied_to m) (handle_mount fs ctx m).
Proof.
  intros Hx. unfold handle_mount. destruct (_ =? _); cbn [negb]; [|by apply error_reply_post].
  destruct (MOUNT_PROGRAM_try_from _) as [proc|]; [|by apply error_reply_post].
  destruct proc; try (by apply error_reply_post); (apply handle_post; [apply _|apply _|done|]; intros args Ha).
  - by apply post_pret.
  - apply mountproc3_mnt_post.
  - unfold mountproc3_umnt. destruct (utf8_valid args); [|by apply post_pret].
    eapply post_mono; [apply send_mount_signal_post|done].
  - eapply post_mono; [apply send_mount_signal_post|done].
  - apply post_pret. pose proof (co_export _ Hctx). by repeat constructor.
Qed.

Lemma handle_portmap_post m : in_u32 (im_xid m) -> post on_server (replied_to m) (handle_portmap ctx m).
Proof.
  intros Hx. unfold handle_portmap. destruct (_ =? _); cbn [negb]; [|by apply error_reply_post].
  destruct (PMAP_PROG_try_from _) as [[]|]; try (by apply error_reply_post);
    (apply handle_post; [apply _|apply _|done|]; intros args Ha); apply post_pret; [done|].
  exact (co_port _ Hctx).
Qed.

Lemma dispatch_post m : in_u32 (im_xid m) -> post on_server (replied_to m) (dispatch fs ctx m).
Proof.
  intros Hx. unfold dispatch. destruct (_ =? _); [by apply handle_portmap_post|].
  destruct (_ =? _); [by apply handle_mount_post|]. destruct (_ =? _); [|by apply error_reply_post].
  apply on_vfs_post, handle_nfs_post; [done|apply Hctx|done].
Qed.

End context.

Lemma with_auth_ok ctx ctx' cred : with_auth ctx cred = Ok ctx' -> context_ok ctx -> context_ok ctx'.
Proof. unfold with_auth. intros Ha [Hp He Hc]. repeat case_match; by simplify_eq. Qed.

Lemma incoming_xid packed m : incoming_try_from packed = Ok m -> in_u32 (im_xid m).
Proof.
  unfold incoming_try_from. destruct (unpack rpc_msg_codec packed) as [[[rpc pos]|e] rest] eqn:E; [|done].
  destruct rpc as [xid [call|reply]]; cbn; intros [= <-]. apply decodes_valid in E. cbn -[in_u32 call_body_codec] in E.
  by destruct_and?.
Qed.

(** ** Serving a message *)

(** What becomes of the message [packed], served at [now] in the state [s]. A call gets a
    reply that carries its xid: an accepted one, or a denied one when it is of another
    RPC version. It gets none when its xid is that of a transaction of its client that
    the tracker has ([AlreadyExists]), or when the procedure it names panics. What
    remains is not a call. *)
Inductive answered (ctx : RPCContext) (packed : list byte) (now : Instant) (s : ServerState V)
  : outcome (result HandleResult rpc_error) -> Prop :=
| answered_accepted m d hd tl :
    incoming_try_from packed = Ok m -> encodes rpc_msg_codec (accepted (im_xid m) d) hd ->
    answered ctx packed now s (Ret (Ok (Reply (hd ++ tl))))
| answered_denied m bs :
    incoming_try_from packed = Ok m -> call_body_rpcvers (im_body m) <> RPC_VERSION_2 ->
    encodes rpc_msg_codec (denied (im_xid m) (rejected_RPC_MISMATCH 2 2)) bs ->
    answered ctx packed now s (Ret (Ok (Reply bs)))
| answered_retransmission m t :
    incoming_try_from packed = Ok m ->
    start_transaction (ctx_client_addr ctx) (im_xid m) now (ss_tracker s) = (Ret (Err AlreadyExists), t) ->
    answered ctx packed now s (Ret (Ok NoReply))
| answered_not_a_call e :
    not_a_call ctx packed e -> answered ctx packed now s (Ret (Err e))
| answered_failed m ctx' lock t o :
    incoming_try_from packed = Ok m -> with_auth ctx (call_body_cred (im_body m)) = Ok ctx' ->
    start_transaction (ctx_client_addr ctx) (im_xid m) now (ss_tracker s) = (Ret (Ok lock), t) ->
    fst (dispatch fs ctx' m (mkServerState (ss_vfs s) t (ss_signals s))) = o -> o = Panic \/ o = OutOfFuel ->
    answered ctx packed now s o.

(** A state of the server between two calls. *)
Definition serving (s : ServerState V) : Prop := P (ss_vfs s) /\ exists ls, tracker_inv (ss_tracker s) ls.

Lemma start_transaction_run t ls addr xid now :
  tracker_inv t ls -> exists res t', start_transaction addr xid now t = (Ret res, t') /\ tracker_inv t' (push_lock res ls).
Proof.
  intros Hinv. unfold start_transaction, pbind.
  destruct (start_transaction_known_run t ls addr xid now Hinv) as (res & t1 & -> & Hinv1 & _).
  destruct res as [res|]; [by exists res, t1|]. by apply start_transaction_new_run.
Qed.

(** A message that gets as far as the tracker. *)
Lemma handle_rpc_message_started ctx packed m ctx' now now_drop s res t :
  incoming_try_from packed = Ok m -> call_body_rpcvers (im_body m) = RPC_VERSION_2 ->
  with_auth ctx (call_body_cred (im_body m)) = Ok ctx' ->
  start_transaction (ctx_client_addr ctx) (im_xid m) now (ss_tracker s) = (Ret res, t) ->
  let s1 := mkServerState (ss_vfs s) t (ss_signals s) in
  handle_rpc_message fs ctx packed now now_drop s =
  match res with
  | Ok lock => with_lock lock now_drop (dispatch fs ctx' m) s1
  | Err AlreadyExists => (Ret (Ok NoReply), s1)
  | Err TooManyRequests => (into_error_reply m data_SYSTEM_ERR, s1)
  end.
Proof.
  intros Em Hv Ea Hstart s1. unfold handle_rpc_message. rewrite Em, Hv, Z.eqb_refl. cbn [negb]. rewrite Ea.
  unfold pbind, on_tracker, lock_transaction, pbind. rewrite (with_auth_addr _ _ _ Ea), Hstart.
  by destruct res as [lock|[|]].
Qed.

Lemma handle_rpc_message_answers ctx packed now now_drop s :
  context_ok ctx -> serving s ->
  let r := handle_rpc_message fs ctx packed now now_drop s in
  serving (snd r) /\ answered ctx packed now s (fst r).
Proof.
  intros Hctx Hs r. pose proof Hs as [HP [ls Hinv]]. destruct (incoming_try_from packed) as [m|e] eqn:Em; cycle 1.
  { subst r. unfold handle_rpc_message. rewrite Em. split; [done|]. apply answered_not_a_call. by left. }
  pose proof (incoming_xid _ _ Em) as Hx.
  destruct (Z.eqb_spec (call_body_rpcvers (im_body m)) RPC_VERSION_2) as [Hv|Hv]; cycle 1.
  { subst r. unfold handle_rpc_message. rewrite Em, (proj2 (Z.eqb_neq _ _) Hv).
    destruct (into_rpc_mismatch_run m Hx) as (bs & Hbs & Hr). cbn [negb]. rewrite Hr. split; [done|]. by eapply answered_denied. }
  destruct (with_auth ctx (call_body_cred (im_body m))) as [ctx'|e] eqn:Ea; cycle 1.
  { subst r. unfold handle_rpc_message. rewrite Em, Hv, Z.eqb_refl. cbn [negb]. rewrite Ea.
    split; [done|]. apply answered_not_a_call. right. by exists m. }
  destruct (start_transaction_run _ _ (ctx_client_addr ctx) (im_xid m) now Hinv) as (res & t & Hstart & Hinv1).
  subst r. rewrite (handle_rpc_message_started _ _ _ _ _ _ _ _ _ Em Hv Ea Hstart).
  set (s1 := mkServerState (ss_vfs s) t (ss_signals s)). destruct res as [lock|[|]]; cbn [push_lock] in Hinv1.
  - unfold with_lock. destruct (dispatch_post ctx' (with_auth_ok _ _ _ Ea Hctx) m Hx s1 HP) as [HP2 Hrep].
    pose proof (dispatch_keeps_tracker fs ctx' m s1) as Hkeep. change (ss_tracker s1) with t in Hkeep.
    destruct (dispatch fs ctx' m s1) as [o s2] eqn:Ed. cbn [fst snd] in *.
    unfold on_tracker. rewrite Hkeep. destruct (lock_drop_run _ _ _ now_drop Hinv1) as (t2 & -> & Hinv2).
    split; [by split; [|exists ls]|]. cbn [fst]. destruct o as [r| |].
    + destruct Hrep as (d & hd & tl & Hhd & ->). by eapply answered_accepted.
    + eapply answered_failed; [done..| |by left]. unfold s1 in Ed. by rewrite Ed.
    + eapply answered_failed; [done..| |by right]. unfold s1 in Ed. by rewrite Ed.
  - split; [by split; [|exists ls]|]. by eapply answered_retransmission.
  - split; [by split; [|exists ls]|].
    destruct (into_error_reply_run m data_SYSTEM_ERR Hx I) as (bs & Hbs & Hr). cbn [fst]. rewrite Hr.
    rewrite <- (app_nil_r bs). by eapply answered_accepted.
Qed.

(** ** A connection *)

Context (ctx : RPCContext) (Hctx : context_ok ctx).

(** The other connections keep the property too. *)
Definition others_keep (acts : list (action V)) : Prop :=
  Forall (fun a => match a with AOther s => serving s | _ => True end) acts.

(** A message and its outcome, with the state in which it was served. *)
Definition served_well (x : list byte * outcome (result HandleResult rpc_error)) : Prop :=
  exists s now now_drop, serving s /\ x.2 = fst (handle_rpc_message fs ctx x.1 now now_drop s) /\
    answered ctx x.1 now s x.2.

Lemma act_keeps a c c' evs :
  act fs ctx a c = Some (c', evs) -> match a with AOther s => serving s | _ => True end ->
  serving (cn_server c) -> serving (cn_server c') /\ Forall served_well (served evs).
Proof.
  intros Hact Ha Hc. destruct c as [s peer pending pipe looping fragment cur tasks replies written res]. cbn in Hc.
  destruct a; cbn in Hact; unfold selecting in Hact; try (repeat case_match; simplify_eq; (split; [done|by apply Forall_nil_2])).
  destruct (tasks !! i) as [m|]; [|done].
  destruct (handle_rpc_message_answers ctx m now now_drop s Hctx Hc) as [H1 H2].
  destruct (handle_rpc_message fs ctx m now now_drop s) as [o s'] eqn:E. cbn [fst snd] in *.
  assert (served_well (m, o)) as Hw by (exists s, now, now_drop; cbn [fst snd]; by rewrite E).
  destruct o as [r| |]; simplify_eq; (split; [exact H1|]); (constructor; [|by constructor]); done.
Qed.

Lemma run_keeps acts c c' evs :
  run fs ctx acts c = Some (c', evs) -> others_keep acts -> serving (cn_server c) ->
  serving (cn_server c') /\ Forall served_well (served evs).
Proof.
  revert c evs. induction acts as [|a acts IH]; intros c evs Hrun Ho Hc; cbn [run] in Hrun; [by simplify_eq|].
  apply Forall_cons in Ho as [Ha Ho].
  destruct (act fs ctx a c) as [[c1 e1]|] eqn:Hact; [|done].
  destruct (run fs ctx acts c1) as [[c2 e2]|] eqn:Hr; [|done]. simplify_eq.
  destruct (act_keeps _ _ _ _ Hact Ha Hc) as [H1 H2]. destruct (IH _ _ Hr Ho H1) as [H3 H4].
  split; [done|]. rewrite served_app. by apply Forall_app.
Qed.

(** What is served next, whatever it is and at whatever time, comes to an answer too. *)
Lemma run_answers acts c c' evs :
  run fs ctx acts c = Some (c', evs) -> others_keep acts -> serving (cn_server c) ->
  serving (cn_server c') /\ Forall served_well (served evs) /\
  forall packed now now_drop, answered ctx packed now (cn_server c')
    (fst (handle_rpc_message fs ctx packed now now_drop (cn_server c'))).
Proof.
  intros Hrun Ho Hc. destruct (run_keeps _ _ _ _ Hrun Ho Hc) as [H1 H2]. split_and!; [done..|].
  intros packed now now_drop. by apply handle_rpc_message_answers.
Qed.
End server.

(** ** Read-only exports *)

