(* ===== verification/Listener.v ===== *)
(** * The listener: [nfs3_server::tcp]

    [NFSTcpListener::bind] reads an address of the form [ip:port]; with the ip
    [auto] it looks for a loopback address that is free.  The operating system's
    [bind] is the class [TcpBind]: it is given the address as a string and
    returns the port it bound.  Every connection that is accepted gets a context
    that shares the listener's state. *)

From Stdlib Require Import Ascii.
From stdpp Require Import pretty.
From S2P Require Import Prelude Xdr RpcTypes Handle Vfs Transactions MountPortmap Server.
Open Scope Z_scope.
Open Scope nfs_scope.

Class TcpBind (N : Type) : Type := tcp_bind : string -> N -> result Z io_error * N.

(** ** Addresses *)

(** [u16] to its decimal digits: the [Display] of integers. *)
Definition show_int (z : Z) : string := pretty (Z.to_N z).

Definition generate_host_ip (hostnum : Z) : string :=
  "127.88." +:+ show_int (Z.land (Z.shiftr hostnum 8) 255) +:+ "." +:+ show_int (Z.land hostnum 255).

(** [str::split_once]. *)
Fixpoint split_once (c : Ascii.ascii) (s : string) : option (string * string) :=
  match s with
  | EmptyString => None
  | String c' s' =>
      if decide (c = c') then Some ("", s')
      else match split_once c s' with
           | Some (s1, s2) => Some (String c' s1, s2)
           | None => None
           end
  end.

(** [u16::from_str]: an optional [+] and digits, checked for overflow. *)
Definition digit (c : Ascii.ascii) : option Z :=
  let d := Z.of_nat (Ascii.nat_of_ascii c) - 48 in
  if (0 <=? d) && (d <=? 9) then Some d else None.

Fixpoint parse_digits (acc : Z) (s : string) : option Z :=
  match s with
  | EmptyString => Some acc
  | String c s' =>
      match digit c with
      | Some d => if acc * 10 + d <=? u16_MAX then parse_digits (acc * 10 + d) s' else None
      | None => None
      end
  end.

Definition parse_u16 (s : string) : option Z :=
  match s with
  | EmptyString => None
  | String "+"%char EmptyString => None
  | String "+"%char s' => parse_digits 0 s'
  | _ => parse_digits 0 s
  end.

(** ** [NFSTcpListener] *)

Record NFSTcpListener : Type := mkListener {
  ls_port : Z;
  ls_mount_signal : bool;
  ls_export_name : list byte;
  ls_file_handle_converter : FileHandleConverter;
}.

(** The states a listener shares with its connections. *)
Definition listener_state {V} (vfs : V) : ServerState V := mkServerState vfs new_transaction_tracker [].

Section bind.
Context {N : Type} `{!TcpBind N}.

(** [started] is the time at which the converter of file handles is made. *)
Definition bind_internal (started : Z) (ip : string) (port : Z) : prog N (result NFSTcpListener io_error) := fun n =>
  match tcp_bind (ip +:+ ":" +:+ show_int port) n with
  | (Ok port, n) => (Ret (Ok (mkListener port false (bytes_of_string "/") (converter_new started))), n)
  | (Err e, n) => (Ret (Err e), n)
  end.

(** The loop over the addresses [127.88.0.1], [127.88.0.2] and so on. *)
Fixpoint bind_auto (num_tries_left : nat) (started try_ip port : Z) : prog N (result NFSTcpListener io_error) :=
  do* result := bind_internal started (generate_host_ip try_ip) port in
  match result, num_tries_left with
  | Err e, S num_tries_left => bind_auto num_tries_left started (try_ip + 1) port
  | _, _ => pret result
  end.

Definition bind (started : Z) (ipstr : string) : prog N (result NFSTcpListener io_error) :=
  match split_once ":"%char ipstr with
  | None => pret (Err AddrNotAvailable)
  | Some (ip, port) =>
      match parse_u16 port with
      | None => pret (Err AddrNotAvailable)
      | Some port =>
          if decide (ip = "auto") then bind_auto 32 started 1 port
          else bind_internal started ip port
      end
  end.
End bind.

Definition listener_with_export_name (export_name : list byte) (l : NFSTcpListener) : NFSTcpListener :=
  mkListener (ls_port l) (ls_mount_signal l) (with_export_name export_name) (ls_file_handle_converter l).

Definition set_mount_listener (l : NFSTcpListener) : NFSTcpListener :=
  mkListener (ls_port l) true (ls_export_name l) (ls_file_handle_converter l).

(** The context of a connection that [handle_forever] accepts. *)
Definition accept_context (l : NFSTcpListener) (client_addr : string) : RPCContext :=
  mkContext (ls_port l) client_addr auth_unix_default (ls_mount_signal l) (ls_export_name l)
    (ls_file_handle_converter l).

(** ** Laws *)

Lemma split_once_app c s1 s2 :
  split_once c s1 = None -> split_once c (s1 +:+ String c s2) = Some (s1, s2).
Proof.
  induction s1 as [|c' s1 IH]; intros Hs.
  { change ("" +:+ String c s2) with (String c s2). cbn. by destruct (decide (c = c)). }
  change (String c' s1 +:+ String c s2) with (String c' (s1 +:+ String c s2)). cbn in *.
  destruct (decide (c = c')); [done|]. by destruct (split_once c s1) as [[]|]; [|rewrite IH].
Qed.

(** Digits that are printed are read back. *)
Lemma parse_digits_app acc s1 s2 v :
  parse_digits acc s1 = Some v -> parse_digits acc (s1 +:+ s2) = parse_digits v s2.
Proof.
  revert acc. induction s1 as [|c s1 IH]; intros acc; [by intros [= ->]|].
  change (String c s1 +:+ s2) with (String c (s1 +:+ s2)). cbn. destruct (digit c); [|done]. destruct (_ <=? _); [|done]. apply IH.
Qed.

Lemma digit_char d : (d < 10)%N -> digit (pretty_N_char d) = Some (Z.of_N d).
Proof.
  intros Hd.
  assert (d = 0 \/ d = 1 \/ d = 2 \/ d = 3 \/ d = 4 \/ d = 5 \/ d = 6 \/ d = 7 \/ d = 8 \/ d = 9)%N as Hc by lia.
  by repeat destruct Hc as [->|Hc]; subst.
Qed.

Lemma pretty_go_parse x s :
  Z.of_N x <= u16_MAX -> parse_digits 0 (pretty_N_go x s) = parse_digits (Z.of_N x) s.
Proof.
  revert s. induction (N.lt_wf_0 x) as [x _ IH]; intros s Hx.
  destruct (decide (x = 0%N)) as [->|Hn]; [done|].
  rewrite pretty_N_go_step by lia. rewrite IH; [|apply N.div_lt; lia|].
  - cbn [parse_digits]. rewrite digit_char by (apply N.mod_lt; lia).
    rewrite N2Z.inj_div, N2Z.inj_mod. change (Z.of_N 10) with 10.
    replace (Z.of_N x / 10 * 10 + Z.of_N x mod 10) with (Z.of_N x) by (Z.to_euclidean_division_equations; lia).
    by rewrite (proj2 (Z.leb_le _ _)).
  - rewrite N2Z.inj_div. change (Z.of_N 10) with 10. Z.to_euclidean_division_equations; lia.
Qed.

(** The first character of a number is a digit. *)
Lemma pretty_go_head x s c s' : pretty_N_go x s = String c s' -> (exists d, c = pretty_N_char d) \/ s = String c s'.
Proof.
  revert s. induction (N.lt_wf_0 x) as [x _ IH]; intros s.
  destruct (decide (x = 0%N)) as [->|Hn]; [by right|].
  rewrite pretty_N_go_step by lia. intros [Hd|Hd]%IH; [by left|..|apply N.div_lt; lia].
  simplify_eq. eauto.
Qed.

Lemma plus_not_digit d : pretty_N_char d <> "+"%char.
Proof. unfold pretty_N_char. by repeat case_match. Qed.

Lemma parse_show_int port : in_u16 port -> parse_u16 (show_int port) = Some port.
Proof.
  intros Hp. unfold in_u16 in Hp. unfold show_int, pretty, pretty_N.
  case_decide as Hz; [assert (port = 0) by lia; by subst|].
  pose proof (pretty_go_parse (Z.to_N port) "" ltac:(lia)) as Hparse. cbn [parse_digits] in Hparse.
  rewrite Z2N.id in Hparse by lia. rewrite <- Hparse.
  destruct (pretty_N_go (Z.to_N port) "") as [|c s'] eqn:E.
  - cbn in Hparse. simplify_eq.
  - destruct (pretty_go_head _ _ _ _ E) as [[d ->]|]; [|done].
    pose proof (plus_not_digit d) as Hc. revert Hc. generalize (pretty_N_char d). intros c Hc.
    by destruct c as [[] [] [] [] [] [] [] []].
Qed.

Section laws.
Context {N : Type} `{!TcpBind N}.
Implicit Types n : N.

(** The first of the addresses that can be bound, or the error of the last. *)
Fixpoint first_bound (started port : Z) (ips : list string) : prog N (result NFSTcpListener io_error) :=
  match ips with
  | [] => pret (Err AddrNotAvailable)
  | [ip] => bind_internal started ip port
  | ip :: ips =>
      do* result := bind_internal started ip port in
      match result with
      | Ok l => pret (Ok l)
      | Err _ => first_bound started port ips
      end
  end.

(** [k] loopback addresses from the [i]-th on. *)
Definition loopbacks (i : Z) (k : nat) : list string := map (fun j => generate_host_ip (i + Z.of_nat j)) (seq 0 k).

Lemma bind_internal_ret started ip port n : exists r n', bind_internal started ip port n = (Ret r, n').
Proof. unfold bind_internal. destruct (tcp_bind _ n) as [[p|e] n']; eauto. Qed.

Lemma bind_auto_first tries started i port n :
  bind_auto tries started i port n = first_bound started port (loopbacks i (S tries)) n.
Proof.
  revert i n. induction tries as [|tries IH]; intros i n.
  - cbn [bind_auto loopbacks seq map first_bound]. rewrite Z.add_0_r. unfold pbind.
    destruct (bind_internal_ret started (generate_host_ip i) port n) as ([l|e] & n' & ->); done.
  - assert (loopbacks i (S (S tries)) = generate_host_ip i :: loopbacks (i + 1) (S tries)) as ->.
    { unfold loopbacks. rewrite <- cons_seq. cbn [map]. rewrite Z.add_0_r. f_equal.
      rewrite <- seq_shift, map_map. apply map_ext. intros j. f_equal. lia. }
    cbn [bind_auto]. specialize (IH (i + 1)).
    destruct (loopbacks (i + 1) (S tries)) as [|ip ips] eqn:El; [discriminate El|].
    unfold pbind. destruct (bind_internal_ret started (generate_host_ip i) port n) as (r & n' & E).
    cbn [first_bound]. unfold pbind. rewrite E. destruct r; [done|]. exact (IH n').
Qed.

(** The listener binds the address it is given. An address [ip:port] is split
    at its colon, and the operating system is asked for the same ip and port; for
    the ip [auto] it is asked for 127.88.0.1, 127.88.0.2 and so on up to
    127.88.0.33, and the first that can be bound is used. *)
Theorem bind_correct started ip port n :
  in_u16 port -> split_once ":"%char ip = None ->
  bind started (ip +:+ String ":" (show_int port)) n =
  (if decide (ip = "auto") then first_bound started port (loopbacks 1 33) n
   else bind_internal started ip port n).
Proof.
  intros Hp Hip. unfold bind. rewrite split_once_app, parse_show_int by done.
  case_decide; [|done]. apply bind_auto_first.
Qed.
End laws.

(** The addresses that are tried, and an IPv6 address, which is taken apart at
    its first colon. *)
Example loopbacks_tried :
  (head (loopbacks 1 33), last (loopbacks 1 33)) = (Some "127.88.0.1", Some "127.88.0.33").
Proof. vm_compute. reflexivity. Qed.
Example ipv6_refused {N} `{!TcpBind N} started n : bind started "[::1]:2049" n = (Ret (Err AddrNotAvailable), n).
Proof. reflexivity. Qed.

(** An operating system where only the ports in the list are in use. *)
Module DemoBind.
#[export] Instance bind_log : TcpBind (list string) := fun addr log =>
  if decide (addr = "127.88.0.1:2049") then (Err AddrInUse, log) else (Ok 2049, addr :: log).
End DemoBind.

Import DemoBind.

Lemma bind_correct_witness :
  split_once ":"%char "auto" = None /\
  snd (bind 0 ("auto" +:+ String ":" (show_int 2049)) ([] : list string)) = ["127.88.0.2:2049"].
Proof.
  split; [reflexivity|]. rewrite (bind_correct 0 "auto" 2049 []); [vm_compute; reflexivity| |reflexivity].
  unfold in_u16, u16_MAX. lia.
Defined.
