(* ===== verification/ThresholdLogger.v ===== *)
(** * The threshold logger: [cargo_nfs3_server/src/threshold_logger.rs]

    A logger holds the size at which it speaks next, in an atomic integer.
    [check_and_log] loads it and, when the size has reached it, tries to exchange
    it for the end of the range of the size; between the two another thread may
    come in.  [logger_step] interleaves the calls of any number of threads.  The
    theorem is that the logger does what it is for: at most one message a range.

    [format_number] prints a size for the message, in part through binary64
    division, which is that of [SpecFloat]. *)

From S2P Require Import Prelude Listener.
From Stdlib Require Import Floats.SpecFloat Sorting.Sorted.
Open Scope Z_scope.
Open Scope nfs_scope.

Definition BILLION : Z := 1000000000.

(** [Range<usize>]. *)
Record Range : Type := mkRange { range_start : Z; range_end : Z }.

Definition range_contains (r : Range) (n : Z) : bool := (range_start r <=? n) && (n <? range_end r).

Definition PREDEFINED_RANGES : list Range := [
  mkRange 0 10000;
  mkRange 10000 20000;
  mkRange 20000 50000;
  mkRange 50000 100000;
  mkRange 100000 200000;
  mkRange 200000 500000;
  mkRange 500000 1000000;
  mkRange 1000000 2000000;
  mkRange 2000000 5000000;
  mkRange 5000000 10000000;
  mkRange 10000000 20000000;
  mkRange 20000000 50000000;
  mkRange 50000000 100000000;
  mkRange 100000000 200000000;
  mkRange 200000000 500000000;
  mkRange 500000000 750000000;
  mkRange 750000000 1000000000].

Definition billion_bounds (size : Z) : Range :=
  if size <? BILLION then mkRange 0 BILLION
  else
    let current := size / BILLION * BILLION in
    let next := Z.min (current + BILLION) usize_MAX in
    mkRange current next.

Definition calculate_threshold (size : Z) : Range :=
  match List.find (fun entry => range_contains entry size) PREDEFINED_RANGES with
  | Some entry => entry
  | None => billion_bounds size
  end.

(** ** The logger *)

Record ThresholdLogger : Type := mkLogger {
  tl_name : string;
  tl_next_threshold : Z;
}.

Definition threshold_logger_new (name : string) : ThresholdLogger :=
  mkLogger name (match PREDEFINED_RANGES with r :: _ => range_end r | [] => 0 end).

(** The first half of [check_and_log]: the threshold that was loaded, if the size
    has reached it. *)
Definition load_threshold (current_size : Z) (l : ThresholdLogger) : option Z :=
  let threshold := tl_next_threshold l in
  if current_size <? threshold then None else Some threshold.

(** The second half: [compare_exchange], and whether a message is logged. *)
Definition exchange_threshold (current_size threshold : Z) (l : ThresholdLogger) : bool * ThresholdLogger :=
  let new_range := calculate_threshold current_size in
  if tl_next_threshold l =? threshold then (true, mkLogger (tl_name l) (range_end new_range))
  else (false, l).

(** A call that no other comes between. *)
Definition check_and_log (current_size : Z) (l : ThresholdLogger) : bool * ThresholdLogger :=
  match load_threshold current_size l with
  | Some threshold => exchange_threshold current_size threshold l
  | None => (false, l)
  end.

(** Threads that have loaded the threshold and not exchanged it yet, with their
    sizes, and the sizes that were logged, the latest first. *)
Record Logging : Type := mkLogging {
  lg_logger : ThresholdLogger;
  lg_waiting : list (Z * Z);
  lg_logged : list Z;
}.

Definition logging_new (name : string) : Logging := mkLogging (threshold_logger_new name) [] [].

Inductive logger_step : Logging -> Logging -> Prop :=
| step_below l waiting logged size :
    load_threshold size l = None ->
    logger_step (mkLogging l waiting logged) (mkLogging l waiting logged)
| step_load l waiting logged size threshold :
    load_threshold size l = Some threshold -> 0 <= size <= isize_MAX ->
    logger_step (mkLogging l waiting logged) (mkLogging l ((size, threshold) :: waiting) logged)
| step_exchange l waiting1 waiting2 logged size threshold ok l' :
    exchange_threshold size threshold l = (ok, l') ->
    logger_step (mkLogging l (waiting1 ++ (size, threshold) :: waiting2) logged)
      (mkLogging l' (waiting1 ++ waiting2) (if ok then size :: logged else logged)).

(** ** [format_number] *)

(** [n as f64] and the division of two [f64]s. *)
Definition f64_of (n : Z) : spec_float := binary_normalize 53 1024 n 0 false.
Definition f64_div (x y : spec_float) : spec_float := SFdiv 53 1024 x y.

Definition show_padded (digits : nat) (n : Z) : string :=
  let s := show_int n in
  Nat.iter (digits - String.length s) (fun s => "0" +:+ s) s.

(** [{:.digits}] of a nonnegative [f64]: the exact value, rounded to the nearest
    decimal, and to the even one of two. *)
Definition show_f64 (digits : nat) (x : spec_float) : string :=
  match x with
  | S754_zero _ => "0." +:+ show_padded digits 0
  | S754_finite _ m e =>
      let scale := 10 ^ Z.of_nat digits in
      let num := Zpos m * scale * 2 ^ Z.max e 0 in
      let den := 2 ^ Z.max (- e) 0 in
      let q := num / den in
      let r := num mod den in
      let q := if (den <? 2 * r) || ((2 * r =? den) && Z.odd q) then q + 1 else q in
      show_int (q / scale) +:+ "." +:+ show_padded digits (q mod scale)
  | S754_infinity _ => "inf"
  | S754_nan => "NaN"
  end.

Definition format_number (n : Z) : string :=
  if n <=? 999999 then show_int n
  else if n <=? 9999999 then
    if n mod 1000 =? 0 then show_int (n / 1000) +:+ "K"
    else show_f64 2 (f64_div (f64_of n) (f64_of 1000)) +:+ "K"
  else if n <=? 99999999 then
    if n mod 1000000 =? 0 then show_int (n / 1000000) +:+ "M"
    else show_f64 2 (f64_div (f64_of n) (f64_of 1000000)) +:+ "M"
  else if n <=? 999999999 then
    if n mod 1000000 =? 0 then show_int (n / 1000000) +:+ "M"
    else show_f64 1 (f64_div (f64_of n) (f64_of 1000000)) +:+ "M"
  else if n <=? 9999999999 then
    if n mod 1000000000 =? 0 then show_int (n / 1000000000) +:+ "B"
    else show_f64 2 (f64_div (f64_of n) (f64_of 1000000000)) +:+ "B"
  else if n <=? 99999999999 then
    if n mod 1000000000 =? 0 then show_int (n / 1000000000) +:+ "B"
    else show_f64 1 (f64_div (f64_of n) (f64_of 1000000000)) +:+ "B"
  else show_int (n / 1000000000) +:+ "B".

(** What the tests of the module expect, and a number that is printed with nine
    characters, two more than the documentation says. *)
Example format_number_examples :
  map format_number [0; 9999; 999999; 1000000; 1001001; 1234567; 10100000; 99900000; 100100000; 999900000;
    1050000000; 9990000000; 10100000000; 99900000000; 5000000000000] =
  ["0"; "9999"; "999999"; "1000K"; "1001.00K"; "1234.57K"; "10.10M"; "99.90M"; "100.1M"; "999.9M";
   "1.05B"; "9.99B"; "10.1B"; "99.9B"; "5000B"].
Proof. vm_compute. reflexivity. Qed.

Example format_number_long : format_number 9999999 = "10000.00K".
Proof. vm_compute. reflexivity. Qed.

(** ** Ranges *)

(** How many ranges end at or below a size, and lists of ranges where each starts
    where the one before ends. *)
Definition ended (size : Z) (l : list Range) : Z := len (filter (fun r => range_end r <= size) l).

Fixpoint chain (lo : Z) (l : list Range) (hi : Z) : Prop :=
  match l with
  | [] => lo = hi
  | r :: l => range_start r = lo /\ lo < range_end r /\ chain (range_end r) l hi
  end.

Lemma ended_cons size r l : ended size (r :: l) = (if decide (range_end r <= size) then 1 else 0) + ended size l.
Proof. unfold ended. rewrite filter_cons. case_decide; unfold len; cbn [length]; lia. Qed.

Lemma chain_ended lo l hi size : chain lo l hi -> size <= lo -> ended size l = 0.
Proof.
  revert lo. induction l as [|r l IH]; intros lo Hc Hs; [done|]. destruct Hc as (_ & Hlo & Hc).
  rewrite ended_cons, decide_False, (IH _ Hc) by lia. done.
Qed.

Lemma chain_find lo l hi size :
  chain lo l hi -> lo <= size ->
  match List.find (fun entry => range_contains entry size) l with
  | Some r => size < range_end r <= hi /\ ended (range_end r) l = ended size l + 1
  | None => hi <= size
  end.
Proof.
  revert lo. induction l as [|r l IH]; intros lo Hc Hs; cbn; [by cbn in Hc; lia|]. destruct Hc as (Hr & Hlo & Hc).
  assert (range_end r <= hi) as Hhi.
  { clear -Hc. revert r Hc. induction l as [|r' l IH]; intros r Hc; cbn in Hc; [lia|]. pose proof (IH r'). intuition lia. }
  unfold range_contains at 1. rewrite Hr, (proj2 (Z.leb_le _ _) Hs). cbn [andb].
  destruct (Z.ltb_spec size (range_end r)); [rewrite !ended_cons|].
  - rewrite (chain_ended _ _ _ (range_end r) Hc), (chain_ended _ _ _ size Hc) by lia. repeat case_decide; lia.
  - specialize (IH _ Hc ltac:(lia)).
    destruct (List.find _ l) as [r'|]; [|done]. rewrite !ended_cons.
    destruct IH as [Hr' He]. rewrite He. repeat case_decide; lia.
Qed.

(** The number of ranges that end at or below a size, the last ones being the
    billions. *)
Definition rank (size : Z) : Z :=
  ended size PREDEFINED_RANGES + Z.max 0 (size / BILLION - 1).

Lemma rank_mono a b : a <= b -> rank a <= rank b.
Proof.
  intros Hab. unfold rank. apply Z.add_le_mono.
  - generalize PREDEFINED_RANGES as l. induction l as [|r l IH]; [done|]. rewrite !ended_cons. repeat case_decide; lia.
  - pose proof (Z.div_le_mono a b BILLION eq_refl Hab). lia.
Qed.

Lemma rank_bound size : 0 <= size -> rank size <= 17 + size / BILLION.
Proof.
  intros Hs. unfold rank. pose proof (length_filter (fun r => range_end r <= size) PREDEFINED_RANGES) as Hl.
  pose proof (Z.div_pos size BILLION Hs eq_refl). unfold ended, len.
  change (length PREDEFINED_RANGES) with 17%nat in Hl. lia.
Qed.

Lemma predefined_chain : chain 0 PREDEFINED_RANGES BILLION.
Proof. cbn. unfold BILLION. lia. Qed.

(** The range of a size ends above it, and no other range ends in between. *)
Lemma calculate_threshold_spec size :
  0 <= size <= isize_MAX ->
  size < range_end (calculate_threshold size) /\ rank (range_end (calculate_threshold size)) = rank size + 1.
Proof.
  intros Hs. unfold calculate_threshold. pose proof (chain_find _ _ _ size predefined_chain ltac:(lia)) as Hf.
  destruct (List.find _ _) as [r|]; unfold rank.
  - destruct Hf as [Hr He]. rewrite He. split; [lia|].
    assert (range_end r / BILLION <= 1) by (apply Z.div_le_upper_bound; unfold BILLION in *; lia).
    assert (size / BILLION <= 1) by (apply Z.div_le_upper_bound; unfold BILLION in *; lia). lia.
  - unfold billion_bounds. rewrite (proj2 (Z.ltb_ge _ _) Hf). cbn [range_end].
    assert (ended size PREDEFINED_RANGES = 17 /\ forall n, size <= n -> ended n PREDEFINED_RANGES = 17) as [He1 He2].
    { split; [|intros n Hn]; unfold PREDEFINED_RANGES; rewrite !ended_cons; cbn [range_end]; unfold BILLION in Hf;
        repeat (rewrite decide_True by lia); done. }
    rewrite Z.min_l by (unfold BILLION, usize_MAX, u64_MAX, isize_MAX in *; Z.to_euclidean_division_equations; lia).
    rewrite He1, He2 by (unfold BILLION; Z.to_euclidean_division_equations; lia).
    replace (size / BILLION * BILLION + BILLION) with ((size / BILLION + 1) * BILLION) by ring.
    rewrite Z.div_mul by done. unfold BILLION in *. Z.to_euclidean_division_equations; lia.
Qed.

(** ** What is logged *)

Record logging_inv (s : Logging) : Prop := {
  li_rank : len (lg_logged s) + 1 <= rank (tl_next_threshold (lg_logger s));
  li_reached : forall m, Forall (fun size => size <= m) (lg_logged s) ->
    rank (tl_next_threshold (lg_logger s)) <= Z.max 1 (rank m + 1);
  li_sorted : StronglySorted (fun later earlier => range_end (calculate_threshold earlier) <= later) (lg_logged s);
  li_ends : Forall (fun size => range_end (calculate_threshold size) <= tl_next_threshold (lg_logger s)) (lg_logged s);
  li_waiting : Forall (fun w => w.2 <= w.1 /\ 0 <= w.1 <= isize_MAX) (lg_waiting s);
}.

Lemma logging_new_inv name : logging_inv (logging_new name).
Proof. split; [by vm_compute| |constructor..]. intros m _.
  assert (rank (tl_next_threshold (threshold_logger_new name)) = 1) as Hr by (by vm_compute). cbn -[rank] in *. rewrite Hr. lia. Qed.

Lemma logger_step_inv s s' : logger_step s s' -> logging_inv s -> logging_inv s'.
Proof.
  intros Hstep [Hrank Hreached Hsorted Hends Hwaiting].
  destruct Hstep as [|l w lg size t Hl Hs|l w1 w2 lg size t ok l' He]; cbn [lg_logger lg_waiting lg_logged] in *; [done| |].
  - split; try done. cbn. constructor; [|done]. unfold load_threshold in Hl.
    destruct (Z.ltb_spec size (tl_next_threshold l)); [done|]. injection Hl as <-. done.
  - assert (Forall (fun w => w.2 <= w.1 /\ 0 <= w.1 <= isize_MAX) (w1 ++ w2) /\ t <= size /\ 0 <= size <= isize_MAX) as (Hw & Ht & Hs).
    { apply Forall_app in Hwaiting as [H1 H2]. apply Forall_cons in H2 as [H2 H3]. split; [by apply Forall_app|done]. }
    unfold exchange_threshold in He. destruct (Z.eqb_spec (tl_next_threshold l) t) as [Heq|]; injection He as <- <-; [|done].
    rewrite Heq in *. destruct (calculate_threshold_spec size Hs) as [Hend Hr]. pose proof (rank_mono _ _ Ht).
    split; cbn [lg_logger lg_waiting lg_logged tl_next_threshold]; [rewrite len_cons; lia| | | |done].
    + intros m [Hm _]%Forall_cons. pose proof (rank_mono _ _ Hm). lia.
    + constructor; [done|]. eapply Forall_impl; [exact Hends|]. intros e He. cbn in He. lia.
    + constructor; [done|]. eapply Forall_impl; [exact Hends|]. intros e He. cbn in He. lia.
Qed.

Lemma logging_reachable name s : rtc logger_step (logging_new name) s -> logging_inv s.
Proof.
  revert s. apply rtc_ind_r; [apply logging_new_inv|]. intros s1 s2 _ H1 H2. by eapply logger_step_inv.
Qed.

(** The threshold logger speaks at most once for each range of sizes. However the
    calls of the threads are interleaved, the sizes that were logged lie in
    different ranges, each above the one before, so that there are at most 17
    messages and one more for each billion; and a call that no other comes between
    logs exactly the sizes that have reached the threshold, and leaves the threshold
    above its size. *)
Theorem logger_bounded name s :
  rtc logger_step (logging_new name) s ->
  StronglySorted (fun later earlier => range_end (calculate_threshold earlier) <= later) (lg_logged s) /\
  (forall m, 0 <= m -> Forall (fun size => size <= m) (lg_logged s) -> len (lg_logged s) <= 17 + m / BILLION) /\
  forall size, 0 <= size <= isize_MAX ->
    (check_and_log size (lg_logger s)).1 = negb (size <? tl_next_threshold (lg_logger s)) /\
    size < tl_next_threshold (check_and_log size (lg_logger s)).2.
Proof.
  intros Hs. destruct (logging_reachable _ _ Hs) as [Hrank Hreached Hsorted Hends Hwaiting]. split_and!; [done| |].
  - intros m Hm Hl. pose proof (Hreached m Hl). pose proof (rank_bound m Hm). pose proof (Z.div_pos m BILLION Hm eq_refl). lia.
  - intros size Hsize. unfold check_and_log, load_threshold.
    destruct (Z.ltb_spec size (tl_next_threshold (lg_logger s))); [done|].
    unfold exchange_threshold. rewrite Z.eqb_refl. split; [done|]. by apply calculate_threshold_spec.
Qed.

Lemma logger_bounded_witness : exists s,
  rtc logger_step (logging_new "symbols_table") s /\ lg_logged s = [25000] /\ len (lg_logged s) <= 17 + 25000 / BILLION.
Proof.
  pose (s := mkLogging (mkLogger "symbols_table" 50000) [(12000, 10000)] [25000]). exists s.
  assert (rtc logger_step (logging_new "symbols_table") s) as Hs.
  { apply (rtc_l _ _ (mkLogging (threshold_logger_new "symbols_table") [(12000, 10000)] [])).
    { apply (step_load _ _ _ 12000 10000); [reflexivity|unfold isize_MAX; lia]. }
    apply (rtc_l _ _ (mkLogging (threshold_logger_new "symbols_table") [(25000, 10000); (12000, 10000)] [])).
    { apply (step_load _ _ _ 25000 10000); [reflexivity|unfold isize_MAX; lia]. }
    apply rtc_once. by apply (step_exchange (threshold_logger_new "symbols_table") [] [(12000, 10000)] [] 25000 10000 true (mkLogger "symbols_table" 50000)). }
  split; [exact Hs|]. split; [reflexivity|]. apply (logger_bounded "symbols_table" s Hs); [lia|]. by repeat constructor.
Defined.
