(* ===== verification/Display.v ===== *)
(** * How errors and names are printed

    The implementations of [Display] of the protocol enums, of the errors of the
    codec, of the client and of the tracker, and of the handles.  A program can look
    at the text: the integration suite of the mirror recognises an error of the
    client by it.  The text of an error of the system is a parameter. *)

From S2P Require Import Prelude Xdr Nfs3Types MountTypes PortmapTypes RpcTypes Transactions Handle RpcClient Listener.
From stdpp Require Import pretty.
Open Scope Z_scope.
Open Scope nfs_scope.

(** ** Names *)

Definition ftype3_fmt (v : ftype3) : string :=
  match v with
  | NF3REG => "NF3REG"
  | NF3DIR => "NF3DIR"
  | NF3BLK => "NF3BLK"
  | NF3CHR => "NF3CHR"
  | NF3LNK => "NF3LNK"
  | NF3SOCK => "NF3SOCK"
  | NF3FIFO => "NF3FIFO"
  end.

Definition nfsstat3_fmt (v : nfsstat3) : string :=
  match v with
  | NFS3_OK => "NFS3_OK"
  | NFS3ERR_PERM => "NFS3ERR_PERM"
  | NFS3ERR_NOENT => "NFS3ERR_NOENT"
  | NFS3ERR_IO => "NFS3ERR_IO"
  | NFS3ERR_NXIO => "NFS3ERR_NXIO"
  | NFS3ERR_ACCES => "NFS3ERR_ACCES"
  | NFS3ERR_EXIST => "NFS3ERR_EXIST"
  | NFS3ERR_XDEV => "NFS3ERR_XDEV"
  | NFS3ERR_NODEV => "NFS3ERR_NODEV"
  | NFS3ERR_NOTDIR => "NFS3ERR_NOTDIR"
  | NFS3ERR_ISDIR => "NFS3ERR_ISDIR"
  | NFS3ERR_INVAL => "NFS3ERR_INVAL"
  | NFS3ERR_FBIG => "NFS3ERR_FBIG"
  | NFS3ERR_NOSPC => "NFS3ERR_NOSPC"
  | NFS3ERR_ROFS => "NFS3ERR_ROFS"
  | NFS3ERR_MLINK => "NFS3ERR_MLINK"
  | NFS3ERR_NAMETOOLONG => "NFS3ERR_NAMETOOLONG"
  | NFS3ERR_NOTEMPTY => "NFS3ERR_NOTEMPTY"
  | NFS3ERR_DQUOT => "NFS3ERR_DQUOT"
  | NFS3ERR_STALE => "NFS3ERR_STALE"
  | NFS3ERR_REMOTE => "NFS3ERR_REMOTE"
  | NFS3ERR_BADHANDLE => "NFS3ERR_BADHANDLE"
  | NFS3ERR_NOT_SYNC => "NFS3ERR_NOT_SYNC"
  | NFS3ERR_BAD_COOKIE => "NFS3ERR_BAD_COOKIE"
  | NFS3ERR_NOTSUPP => "NFS3ERR_NOTSUPP"
  | NFS3ERR_TOOSMALL => "NFS3ERR_TOOSMALL"
  | NFS3ERR_SERVERFAULT => "NFS3ERR_SERVERFAULT"
  | NFS3ERR_BADTYPE => "NFS3ERR_BADTYPE"
  | NFS3ERR_JUKEBOX => "NFS3ERR_JUKEBOX"
  end.

Definition NFS_PROGRAM_fmt (v : NFS_PROGRAM) : string :=
  match v with
  | NFSPROC3_NULL => "NFSPROC3_NULL"
  | NFSPROC3_GETATTR => "NFSPROC3_GETATTR"
  | NFSPROC3_SETATTR => "NFSPROC3_SETATTR"
  | NFSPROC3_LOOKUP => "NFSPROC3_LOOKUP"
  | NFSPROC3_ACCESS => "NFSPROC3_ACCESS"
  | NFSPROC3_READLINK => "NFSPROC3_READLINK"
  | NFSPROC3_READ => "NFSPROC3_READ"
  | NFSPROC3_WRITE => "NFSPROC3_WRITE"
  | NFSPROC3_CREATE => "NFSPROC3_CREATE"
  | NFSPROC3_MKDIR => "NFSPROC3_MKDIR"
  | NFSPROC3_SYMLINK => "NFSPROC3_SYMLINK"
  | NFSPROC3_MKNOD => "NFSPROC3_MKNOD"
  | NFSPROC3_REMOVE => "NFSPROC3_REMOVE"
  | NFSPROC3_RMDIR => "NFSPROC3_RMDIR"
  | NFSPROC3_RENAME => "NFSPROC3_RENAME"
  | NFSPROC3_LINK => "NFSPROC3_LINK"
  | NFSPROC3_READDIR => "NFSPROC3_READDIR"
  | NFSPROC3_READDIRPLUS => "NFSPROC3_READDIRPLUS"
  | NFSPROC3_FSSTAT => "NFSPROC3_FSSTAT"
  | NFSPROC3_FSINFO => "NFSPROC3_FSINFO"
  | NFSPROC3_PATHCONF => "NFSPROC3_PATHCONF"
  | NFSPROC3_COMMIT => "NFSPROC3_COMMIT"
  end.

Definition mountstat3_fmt (v : mountstat3) : string :=
  match v with
  | MNT3_OK => "MNT3_OK"
  | MNT3ERR_PERM => "MNT3ERR_PERM"
  | MNT3ERR_NOENT => "MNT3ERR_NOENT"
  | MNT3ERR_IO => "MNT3ERR_IO"
  | MNT3ERR_ACCES => "MNT3ERR_ACCES"
  | MNT3ERR_NOTDIR => "MNT3ERR_NOTDIR"
  | MNT3ERR_INVAL => "MNT3ERR_INVAL"
  | MNT3ERR_NAMETOOLONG => "MNT3ERR_NAMETOOLONG"
  | MNT3ERR_NOTSUPP => "MNT3ERR_NOTSUPP"
  | MNT3ERR_SERVERFAULT => "MNT3ERR_SERVERFAULT"
  end.

Definition MOUNT_PROGRAM_fmt (v : MOUNT_PROGRAM) : string :=
  match v with
  | MOUNTPROC3_NULL => "MOUNTPROC3_NULL"
  | MOUNTPROC3_MNT => "MOUNTPROC3_MNT"
  | MOUNTPROC3_DUMP => "MOUNTPROC3_DUMP"
  | MOUNTPROC3_UMNT => "MOUNTPROC3_UMNT"
  | MOUNTPROC3_UMNTALL => "MOUNTPROC3_UMNTALL"
  | MOUNTPROC3_EXPORT => "MOUNTPROC3_EXPORT"
  end.

Definition PMAP_PROG_fmt (v : PMAP_PROG) : string :=
  match v with
  | PMAPPROC_NULL => "PMAPPROC_NULL"
  | PMAPPROC_SET => "PMAPPROC_SET"
  | PMAPPROC_UNSET => "PMAPPROC_UNSET"
  | PMAPPROC_GETPORT => "PMAPPROC_GETPORT"
  | PMAPPROC_DUMP => "PMAPPROC_DUMP"
  | PMAPPROC_CALLIT => "PMAPPROC_CALLIT"
  end.

(** ** Errors *)

(** [u64] of a handle. *)
Definition FileHandleU64_fmt `{Target} (h : FileHandleU64) : string := show_int (fh64_as_u64 h).

Definition TransactionError_fmt (e : TransactionError) : string :=
  match e with
  | AlreadyExists => "transaction already exists"
  | TooManyRequests => "too many requests"
  end.

Definition RpcError_fmt (e : RpcError) : string :=
  match e with
  | UnexpectedCall => "Unexpected CALL request"
  | Auth => "Authentication error"
  | RpcMismatch => "RPC version mismatch"
  | WrongLength => "Wrong length in RPC message"
  | UnexpectedXid => "Unexpected XID in RPC reply"
  | NotFullyParsed _ _ => "Not fully parsed"
  | ProgUnavail => "Program unavailable"
  | ProgMismatch => "Program mismatch"
  | ProcUnavail => "Procedure unavailable"
  | GarbageArgs => "Garbage arguments"
  | SystemErr => "System error"
  end.

Definition PortmapError_fmt (e : PortmapError) : string :=
  match e with
  | ProgramUnavailable => "Program unavailable"
  | InvalidPortValue value => "Invalid port value: " +:+ show_int value
  end.

(** [str::contains]. *)
Fixpoint contains (needle s : string) : bool :=
  String.prefix needle s ||
  match s with
  | EmptyString => false
  | String _ s => contains needle s
  end.

Lemma contains_head c needle s : contains (String c needle) s = true -> exists a b, s = (a +:+ String c b)%string.
Proof.
  induction s as [|d s IH]; cbn [contains String.prefix].
  { by intros [=]. }
  destruct (Ascii.ascii_dec c d) as [->|Hne]; [intros _; by exists "", s|].
  cbn [orb]. intros (a & b & ->)%IH. by exists (String d a), b.
Qed.

(** The characters of a string. *)
Fixpoint chars (s : string) : list Ascii.ascii := match s with EmptyString => [] | String c s => c :: chars s end.

Lemma chars_app s t : chars (s +:+ t) = chars s ++ chars t.
Proof. induction s as [|c s IH]; [done|]. exact (f_equal (cons c) IH). Qed.

Lemma string_app_nil (s : string) : (s +:+ "" = s)%string.
Proof. induction s as [|c s IH]; [done|]. exact (f_equal (String c) IH). Qed.

Lemma contains_not c needle s : c ∉ chars s -> contains (String c needle) s = false.
Proof.
  intros Hc. destruct (contains (String c needle) s) eqn:E; [|done]. apply contains_head in E as (a & b & ->).
  destruct Hc. rewrite chars_app. apply elem_of_app. right. left.
Qed.

Lemma contains_skip c needle pre s : c ∉ chars pre -> contains (String c needle) (pre +:+ s) = contains (String c needle) s.
Proof.
  induction pre as [|d pre IH]; [done|]. cbn [chars]. rewrite not_elem_of_cons. intros [Hne Hc].
  change (contains (String c needle) (String d (pre +:+ s)) = contains (String c needle) s).
  cbn [contains String.prefix]. destruct (Ascii.ascii_dec c d) as [->|_]; [done|]. by apply IH.
Qed.

(** A number has digits only. *)
Lemma digits_only n s c : c ∈ chars (pretty_N_go n s) -> c ∈ chars s \/ c ∈ chars "0123456789".
Proof.
  revert s. induction (N.lt_wf_0 n) as [n _ IH]; intros s. destruct (decide (0 < n)%N) as [Hn|Hn]; cycle 1.
  { assert (n = 0%N) as -> by lia. rewrite pretty_N_go_0. by left. }
  rewrite pretty_N_go_step by done. intros [Hc|Hc]%IH; [|by right|by apply N.div_lt].
  cbn [chars] in Hc. apply elem_of_cons in Hc as [->|Hc]; [right|by left].
  unfold pretty_N_char. repeat case_match; apply (bool_decide_unpack _); by vm_compute.
Qed.

Lemma show_int_chars z c : c ∈ chars (show_int z) -> c ∈ chars "0123456789".
Proof.
  unfold show_int, pretty, pretty_N. case_decide; [intros Hc; cbn in Hc|].
  - apply elem_of_cons in Hc as [->|Hc%elem_of_nil]; [left|done].
  - intros [Hc|Hc]%digits_only; [by apply elem_of_nil in Hc|done].
Qed.

Section errors.
(** The text of an error of the system. *)
Context (io_text : io_error -> string).

Definition Error_fmt (e : Error) : string :=
  match e with
  | Xdr.Io e => "I/O error: " +:+ io_text e
  | InvalidEnumValue value => "Invalid enum value: " +:+ show_int value
  | InvalidLength length => "Invalid length: " +:+ show_int length
  | ObjectTooLarge size => "Object too large: " +:+ show_int size +:+ " bytes"
  end.

Definition client_error_fmt (e : client_error) : string :=
  match e with
  | CeIo e => io_text e
  | CeXdr e => Error_fmt e
  | CeRpc e => RpcError_fmt e
  | CePortmap e => PortmapError_fmt e
  | CeMountError e => show_int (mountstat3_as_u32 e)
  | CeNfsError e => show_int (nfsstat3_as_u32 e)
  end.
End errors.

(** Two values of an enum, and two errors of the protocol, never look the same. *)
Theorem names_distinct :
  Inj (=) (=) ftype3_fmt /\ Inj (=) (=) nfsstat3_fmt /\ Inj (=) (=) NFS_PROGRAM_fmt /\
  Inj (=) (=) mountstat3_fmt /\ Inj (=) (=) MOUNT_PROGRAM_fmt /\ Inj (=) (=) PMAP_PROG_fmt.
Proof. split_and!; intros x y; destruct x, y; done. Qed.

(** The first letter of the text that the tests look for. *)
Definition P : Ascii.ascii := Ascii.ascii_of_N 80.

(** Only a procedure that is not there is printed as one, as long as the system does
    not print that text. *)
Lemma procedure_unavailable_text io_text e :
  (forall e, contains "Procedure unavailable" (io_text e) = false) ->
  contains "Procedure unavailable" (client_error_fmt io_text e) = true <-> e = CeRpc ProcUnavail.
Proof.
  intros Hio. split; [|by intros ->]. intros H.
  assert (forall pre z post, bool_decide (P ∈ chars pre) = false -> bool_decide (P ∈ chars post) = false ->
    contains "Procedure unavailable" (pre +:+ show_int z +:+ post) = false) as Hnum.
  { intros pre z post Hpre%bool_decide_eq_false_1 Hpost%bool_decide_eq_false_1. apply contains_not.
    rewrite !chars_app, !not_elem_of_app. split_and!; [done| |done].
    intros Hc%show_int_chars. revert Hc. by apply (bool_decide_eq_false_1 _). }
  assert (forall pre z, bool_decide (P ∈ chars pre) = false -> contains "Procedure unavailable" (pre +:+ show_int z) = false) as Hnum'.
  { intros pre z Hpre. specialize (Hnum pre z "" Hpre eq_refl). by rewrite string_app_nil in Hnum. }
  destruct e as [e|[e|v|v|v]|[]|[|v]|e|e]; try done; cbn [client_error_fmt Error_fmt PortmapError_fmt] in H.
  - by rewrite Hio in H.
  - rewrite contains_skip, Hio in H; [done|]. by apply (bool_decide_eq_false_1 _).
  - by rewrite Hnum' in H.
  - by rewrite Hnum' in H.
  - by rewrite Hnum in H.
  - by rewrite Hnum' in H.
  - rewrite (Hnum' "" (mountstat3_as_u32 e) eq_refl : contains "Procedure unavailable" (show_int (mountstat3_as_u32 e)) = false) in H. done.
  - rewrite (Hnum' "" (nfsstat3_as_u32 e) eq_refl : contains "Procedure unavailable" (show_int (nfsstat3_as_u32 e)) = false) in H. done.
Qed.
