(* ===== verification/EndToEnd.v ===== *)
(** * Remote calls: the client and the server together

    [remote] says what a call of the NFS client gives when its request is served
    by [handle_rpc_message] and the reply comes back: it composes the client, the
    wire, the transaction tracker, the dispatcher, a procedure and a file system.
    [ConnectionLaws] shows that a connection serves the request that was sent. *)

From S2P Require Import Prelude Xdr XdrLaws Nfs3Types RpcTypes RpcWire RpcWireLaws RpcClient RpcClientLaws ConnectLaws.
From S2P Require Import MountTypes PortmapTypes Handle Vfs NfsHandlers NfsHandlersLaws Transactions TransactionLaws TransactionMemory MountPortmap Server.
From S2P Require Import Validity.
Open Scope Z_scope.
Open Scope nfs_scope.

(** ** Serving a call *)

Section remote.
Context {V H : Type} `{!FileHandle H} (fs : NfsFileSystem V H) (ctx : RPCContext).

Lemma with_auth_same ctx' cred :
  with_auth ctx cred = Ok ctx' ->
  ctx_client_addr ctx' = ctx_client_addr ctx /\
  ctx_file_handle_converter ctx' = ctx_file_handle_converter ctx.
Proof. unfold with_auth. intros ?. by repeat case_match; simplify_eq. Qed.

(** A call that the tracker takes is dispatched once, between the start and the
    end of its transaction. *)
Lemma accepted_call packed m ctx' now now_drop s ls :
  tracker_inv (ss_tracker s) ls -> incoming_try_from packed = Ok m ->
  call_body_rpcvers (im_body m) = RPC_VERSION_2 -> with_auth ctx (call_body_cred (im_body m)) = Ok ctx' ->
  accepts (ctx_client_addr ctx) (im_xid m) now (ss_tracker s) ->
  exists t t', forall o s1, dispatch fs ctx' m (mkServerState (ss_vfs s) t (ss_signals s)) = (o, s1) ->
    ss_tracker s1 = t ->
    handle_rpc_message fs ctx packed now now_drop s = (o, mkServerState (ss_vfs s1) t' (ss_signals s1)) /\
    tracker_inv t' ls /\ one_transaction (ctx_client_addr ctx) (im_xid m) now now_drop (ss_tracker s) t'.
Proof.
  intros Hinv Hm Hv Hauth (lock & t & Hstart). destruct (with_auth_same _ _ Hauth) as [Haddr _].
  destruct (start_transaction_Ok _ _ _ _ _ _ _ Hinv Hstart) as (Hinv' & _).
  destruct (lock_drop_run _ _ _ now_drop Hinv') as (t' & Hdrop & Hinv'').
  exists t, t'. intros o s1 Hd Ht. split; [|split; [done|by exists lock, t]]. unfold handle_rpc_message.
  rewrite Hm, Hv, Z.eqb_refl. cbn [negb]. rewrite Hauth.
  unfold pbind, on_tracker at 1, lock_transaction, pbind. rewrite Haddr, Hstart.
  unfold pret, with_lock. rewrite Hd. unfold on_tracker. by rewrite Ht, Hdrop.
Qed.

(** ** Remote calls *)

(** A client numbered [xid] with the credentials [cred] and [verf] calls a
    procedure on the server in state [s]: it sends [request], which the server
    serves, going to [s'], and however the reply is cut up on its way, the call
    returns [r]. *)
Definition remote {C R} (proc : NFS_PROGRAM) (cc : codec C) (cr : codec R) (args : C)
  (xid : u32) (cred verf : opaque_auth) (now now_drop : Instant) (s : ServerState V) (r : R) (s' : ServerState V) : Prop :=
  exists request reply wire,
    handle_rpc_message fs ctx request now now_drop s = (Ret (Ok (Reply reply)), s') /\
    write_fragment reply = Ret wire /\
    forall fuel cl rest,
      rc_xid cl = xid -> rc_credential cl = cred -> rc_verifier cl = verf ->
      peer_sends cl (wire ++ rest) -> (length wire <= fuel)%nat ->
      exists cl', nfs_call fuel cc cr proc args cl = (Ret (Ok r), cl') /\ called cl cl' /\ peer_sends cl' rest /\
        io_out (rc_io cl') = io_out (rc_io cl) ++ message_wire ([], request).

(** What is needed of the client: a number, credentials the server takes. *)
Record caller_ok (xid : u32) (cred verf : opaque_auth) : Prop := {
  ca_xid : in_u32 xid;
  ca_cred : auth_ok cred;
  ca_verf : auth_ok verf;
  ca_auth : is_ok (with_auth ctx cred) = true;
}.

Lemma write_fragment_reply reply :
  len reply <= MASK -> write_fragment reply = Ret (fragment_bytes true reply).
Proof.
  intros Hl. unfold write_fragment, fragment_bytes. change (Z.shiftl 1 31) with (2 ^ 31).
  pose proof (len_nonneg reply). unfold MASK in Hl. rewrite (proj2 (Z.ltb_lt _ _)), Z.mod_small by lia.
  destruct (fragment_header_new_spec (len reply) true) as (h & -> & _); [unfold MASK; lia|done].
Qed.

(** Dispatching an NFS call runs its procedure on the file system. *)
Lemma dispatch_nfs {C R} proc (cc : codec C) (cr : codec R) f ctx' m s :
  implements fs (ctx_file_handle_converter ctx') proc cc cr f ->
  call_body_prog (im_body m) = NFS3_PROGRAM -> call_body_vers (im_body m) = NFS3_VERSION ->
  call_body_proc (im_body m) = NFS_PROGRAM_as_u32 proc ->
  dispatch fs ctx' m s = on_vfs (handle cc cr f m) s.
Proof.
  intros Hi Hp Hv Hpr. unfold dispatch. rewrite Hp.
  change (NFS3_PROGRAM =? PMAP_PROGRAM_NUMBER) with false. change (NFS3_PROGRAM =? MOUNT_PROGRAM_NUMBER) with false.
  change (NFS3_PROGRAM =? NFS3_PROGRAM) with true. cbv iota.
  unfold on_vfs. by rewrite (implements_handle_nfs fs _ proc cc cr f m Hi Hv Hpr).
Qed.

Lemma NFS_PROGRAM_u32 proc : in_u32 (NFS_PROGRAM_as_u32 proc).
Proof. destruct proc; vm_compute; split; discriminate. Qed.
End remote.

Section calls.
Context {V H : Type} `{!FileHandle H} (fs : NfsFileSystem V H) (ctx : RPCContext).

(** The call of a client. *)
Definition nfs_call_body (proc : NFS_PROGRAM) (cred verf : opaque_auth) : call_body :=
  mk_call_body RPC_VERSION_2 NFS3_PROGRAM NFS3_VERSION (NFS_PROGRAM_as_u32 proc) cred verf.

Lemma nfs_call_header proc xid cred verf :
  in_u32 xid -> auth_ok cred -> auth_ok verf ->
  valid rpc_msg_codec (mk_rpc_msg xid (body_CALL (nfs_call_body proc cred verf))) /\
  packed_size rpc_msg_codec (mk_rpc_msg xid (body_CALL (nfs_call_body proc cred verf))) <= 1000.
Proof.
  intros Hx Hc Hv.
  exact (call_header (rpc_client_new_with_auth (mkIo [] []) xid cred verf) NFS3_PROGRAM NFS3_VERSION
    (NFS_PROGRAM_as_u32 proc) ltac:(done) ltac:(done) (NFS_PROGRAM_u32 proc) Hx Hc Hv).
Qed.

(** The server's side of a call. *)
Lemma serve_nfs_call {C R} proc (cc : codec C) (cr : codec R) f args xid cred verf now now_drop s ls r v' ab :
  implements fs (ctx_file_handle_converter ctx) proc cc cr f ->
  caller_ok ctx xid cred verf ->
  tracker_inv (ss_tracker s) ls -> accepts (ctx_client_addr ctx) xid now (ss_tracker s) ->
  encodes cc args ab -> f xid args (ss_vfs s) = (Ret r, v') ->
  valid cr r -> 24 + packed_size cr r <= MASK ->
  exists mb rh rbs s',
    encodes rpc_msg_codec (mk_rpc_msg xid (body_CALL (nfs_call_body proc cred verf))) mb /\
    encodes rpc_msg_codec (accepted xid data_SUCCESS) rh /\ encodes cr r rbs /\ len (rh ++ rbs) <= MASK /\
    handle_rpc_message fs ctx (mb ++ ab) now now_drop s = (Ret (Ok (Reply (rh ++ rbs))), s') /\
    ss_vfs s' = v' /\ ss_signals s' = ss_signals s /\ tracker_inv (ss_tracker s') ls /\
    one_transaction (ctx_client_addr ctx) xid now now_drop (ss_tracker s) (ss_tracker s').
Proof.
  intros Hi [Hx Hc Hve Hauth] Hinv Hacc Hab Hf Hr Hrsize.
  destruct (implements_codecs _ _ _ _ _ _ Hi) as (Hcc & Hcr & _).
  assert (valid call_body_codec (nfs_call_body proc cred verf)) as Hcall.
  { destruct (nfs_call_header proc xid cred verf Hx Hc Hve) as [Hv _].
    cbn -[call_body_codec u32_codec] in Hv. by destruct_and!. }
  destruct (incoming_call xid _ ab Hx Hcall) as (mb & Hmb & Hbytes & Him). rewrite Hbytes in Him.
  destruct (with_auth ctx cred) as [ctx'|] eqn:Hctx; [|done].
  destruct (accepted_call fs ctx _ _ ctx' now now_drop s ls Hinv Him eq_refl Hctx Hacc) as (t & t' & Hserve).
  destruct (codec_encodes r Hr) as [rbs Hrbs].
  assert (len rbs <= isize_MAX) as Hrl.
  { rewrite (enc_size _ _ _ Hrbs). unfold isize_MAX, MASK in *. lia. }
  destruct (into_success_reply_run (mkIncoming xid (nfs_call_body proc cred verf) None (len mb)) cr r rbs Hx Hrbs Hrl)
    as (rh & Hrh & Hreply).
  assert (dispatch fs ctx' (mkIncoming xid (nfs_call_body proc cred verf) (Some (mb ++ ab)) (len mb))
    (mkServerState (ss_vfs s) t (ss_signals s)) =
    (Ret (Ok (Reply (rh ++ rbs))), mkServerState v' t (ss_signals s))) as Hd.
  { destruct (with_auth_same _ _ _ Hctx) as [_ Hfhc]. rewrite <- Hfhc in Hi.
    rewrite (dispatch_nfs fs proc cc cr f ctx'
      (mkIncoming xid (nfs_call_body proc cred verf) (Some (mb ++ ab)) (len mb)) _ Hi eq_refl eq_refl eq_refl). unfold on_vfs. cbn [ss_vfs].
    rewrite (handle_ok cc cr f xid _ mb args ab (ss_vfs s) Hcr Hx Hab), Hf. by rewrite Hreply. }
  destruct (Hserve _ _ Hd eq_refl) as (Hrun & Hinv' & Hrem).
  exists mb, rh, rbs, (mkServerState v' t' (ss_signals s)). split_and!; try done.
  rewrite len_app, (enc_size _ _ _ Hrh), (enc_size _ _ _ Hrbs), accepted_size.
  change (packed_size accept_stat_data_codec data_SUCCESS) with 4. lia.
Qed.

Lemma remote_call_run {C R} proc (cc : codec C) (cr : codec R) f args xid cred verf now now_drop s ls r v' :
  implements fs (ctx_file_handle_converter ctx) proc cc cr f ->
  caller_ok ctx xid cred verf ->
  tracker_inv (ss_tracker s) ls -> accepts (ctx_client_addr ctx) xid now (ss_tracker s) ->
  valid cc args -> packed_size cc args <= MASK - 1000 ->
  f xid args (ss_vfs s) = (Ret r, v') ->
  valid cr r -> 24 + packed_size cr r <= MASK ->
  exists s', remote fs ctx proc cc cr args xid cred verf now now_drop s r s' /\
    ss_vfs s' = v' /\ ss_signals s' = ss_signals s /\ tracker_inv (ss_tracker s') ls.
Proof.
  intros Hi Hcaller Hinv Hacc Hargs Hsize Hf Hr Hrsize. destruct Hcaller as [Hx Hc Hve Hauth] eqn:Heq. clear Heq.
  destruct (implements_codecs _ _ _ _ _ _ Hi) as (Hcc & Hcr & _). destruct (codec_encodes args Hargs) as [ab Hab].
  destruct (serve_nfs_call proc cc cr f args xid cred verf now now_drop s ls r v' ab Hi Hcaller Hinv Hacc Hab Hf Hr Hrsize)
    as (mb & rh & rbs & s' & Hmb & Hrh & Hrbs & Hl & Hrun & Hv & Hsig & Hinv' & _).
  exists s'. split; [|done]. exists (mb ++ ab), (rh ++ rbs), (fragment_bytes true (rh ++ rbs)).
  split; [done|]. split; [by apply write_fragment_reply|]. intros fuel cl rest <- <- <- Hpeer Hfuel.
  destruct (nfs_call_header proc _ _ _ Hx Hc Hve) as [_ Hms].
  exact (rpc_call_encodes fuel cc cr NFS3_PROGRAM NFS3_VERSION (NFS_PROGRAM_as_u32 proc) args mb ab r rh rbs rest cl
    Hcc Hcr Hmb Hab ltac:(rewrite len_app, (enc_size _ _ _ Hmb), (enc_size _ _ _ Hab); lia) Hrh Hrbs Hl Hpeer Hfuel).
Qed.

(** C3: A remote call is the procedure it names. Over any file system that keeps
    its side of [ValidFs], whatever a procedure of the server computes from the
    arguments on the state of the file system is what the client's call returns,
    and the state it leaves is what the server is left in: the bytes the client
    sends are one message, the tracker takes it, the header and the arguments are
    decoded to what was sent, the procedure runs once, between the start and the
    end of its transaction, its result has an encoding, and the reply, cut up in
    any way, is decoded to that result, with whatever follows it left for the next
    call. The bounds are those of a fragment: arguments and result shorter than
    2^31 - 1 bytes with their headers. *)
Theorem remote_call {C R} (P : V -> Prop) proc (cc : codec C) (cr : codec R) f args xid cred verf now now_drop s ls r v' :
  ValidFs fs P -> converter_wf (ctx_file_handle_converter ctx) ->
  implements fs (ctx_file_handle_converter ctx) proc cc cr f ->
  caller_ok ctx xid cred verf ->
  tracker_inv (ss_tracker s) ls -> accepts (ctx_client_addr ctx) xid now (ss_tracker s) ->
  P (ss_vfs s) -> valid cc args -> packed_size cc args <= MASK - 1000 ->
  f xid args (ss_vfs s) = (Ret r, v') -> 24 + packed_size cr r <= MASK ->
  exists request reply wire s',
    handle_rpc_message fs ctx request now now_drop s = (Ret (Ok (Reply reply)), s') /\
    write_fragment reply = Ret wire /\
    (forall fuel cl rest,
      rc_xid cl = xid -> rc_credential cl = cred -> rc_verifier cl = verf ->
      peer_sends cl (wire ++ rest) -> (length wire <= fuel)%nat ->
      exists cl', nfs_call fuel cc cr proc args cl = (Ret (Ok r), cl') /\ called cl cl' /\ peer_sends cl' rest /\
        io_out (rc_io cl') = io_out (rc_io cl) ++ message_wire ([], request)) /\
    ss_vfs s' = v' /\ P v' /\ ss_signals s' = ss_signals s /\ tracker_inv (ss_tracker s') ls.
Proof.
  intros Hfs Hwf Hi Hcaller Hinv Hacc HP Hargs Hsize Hf Hrsize.
  destruct (implements_post fs _ P Hfs Hwf proc cc cr f xid args Hi Hargs _ HP) as [HP' Hr].
  rewrite Hf in HP', Hr. cbn [fst snd] in HP', Hr.
  destruct (remote_call_run proc cc cr f args xid cred verf now now_drop s ls r v' Hi Hcaller Hinv Hacc Hargs Hsize Hf Hr Hrsize)
    as (s' & (request & reply & wire & Hserve & Hwire & Hcall) & Hv & Hsig & Ht).
  by exists request, reply, wire, s'.
Qed.
End calls.
