(* ===== verification/FsUtil.v ===== *)
(** * The operating system and [nfs3_server::fs_util]

    What the mirror file system uses of the operating system ([tokio::fs],
    [std::fs], the [filetime] crate and the clocks) is the class [Os] over its
    state: a call returns what the library documents and may change the state,
    but does not panic.  Nothing is assumed about what the calls return, so other
    processes may change files between two of them.

    Paths are those of Unix: byte strings with the rules of [PathBuf::push];
    the Windows branches of the code are not modelled. *)

From S2P Require Import Prelude Xdr XdrLaws Nfs3Types.
Open Scope Z_scope.
Open Scope nfs_scope.

(** ** Paths *)

Abbreviation path := (list byte) (only parsing).

Definition is_absolute (p : path) : bool := match p with b :: _ => bool_decide (b = x2f) | [] => false end.

(** [PathBuf::push] and [Path::join]: an absolute name replaces the path. *)
Definition path_push (p name : path) : path :=
  if is_absolute name then name
  else match last p with
       | Some b => if decide (b = x2f) then p ++ name else p ++ x2f :: name
       | None => name
       end.

(** ** System calls *)

Inductive ErrorKind : Type :=
| NotFound | PermissionDenied | AlreadyExistsKind | IsADirectory | NotADirectory
| ReadOnlyFilesystem | Unsupported | CrossesDevices | OtherKind.

Inductive FileType : Type := FtFile | FtDir | FtSymlink | FtBlock | FtChar | FtFifo | FtSocket | FtOther.
#[export] Instance FileType_eq_dec : EqDecision FileType.
Proof. solve_decision. Defined.

(** Times are nanoseconds since the epoch; [None] is a time the platform does
    not give. *)
Record Metadata : Type := mkMetadata {
  md_file_type : FileType;
  md_mode : u32;
  md_nlink : u64;
  md_uid : u32;
  md_gid : u32;
  md_len : u64;
  md_accessed : option Z;
  md_modified : option Z;
  md_created : option Z;
  (** the inode, and the seconds of the last change *)
  md_ino : u64;
  md_mtime : Z;
}.

Definition metadata_is_dir (m : Metadata) : bool := match md_file_type m with FtDir => true | _ => false end.
Definition metadata_is_file (m : Metadata) : bool := match md_file_type m with FtFile => true | _ => false end.

(** [File::open], [File::create] and the [OpenOptions] the code builds:
    write; read and write; write and create_new. *)
Inductive OpenOptions : Type := OpenRead | OpenCreate | OpenWrite | OpenReadWrite | OpenCreateNew.

(** A call on the system [OS], and one that may fail. *)
Abbreviation call OS A := (OS -> A * OS) (only parsing).
Abbreviation io OS A := (OS -> result A ErrorKind * OS) (only parsing).

(** [RD] is an open directory stream, [F] an open file. *)
Class Os (OS RD F : Type) : Type := {
  os_exists : path -> call OS bool;
  os_symlink_metadata : path -> io OS Metadata;
  os_open : OpenOptions -> path -> io OS F;
  os_file_len : F -> io OS u64;
  os_seek : F -> u64 -> io OS unit;
  os_read_exact : F -> u64 -> io OS (list byte);
  os_write_all : F -> list byte -> io OS unit;
  os_flush : F -> io OS unit;
  os_set_len : F -> u64 -> io OS unit;
  os_file_set_permissions : F -> u32 -> io OS unit;
  os_read_dir : path -> io OS RD;
  os_next_entry : RD -> call OS (result (option path) ErrorKind * RD);
  os_create_dir : path -> io OS unit;
  os_remove_dir : path -> io OS unit;
  os_remove_file : path -> io OS unit;
  os_rename : path -> path -> io OS unit;
  os_symlink : path -> path -> io OS unit;
  os_read_link : path -> io OS path;
  os_set_permissions : path -> u32 -> io OS unit;
  os_set_file_atime : path -> Z * Z -> io OS unit;
  os_set_file_mtime : path -> Z * Z -> io OS unit;
  os_filetime_now : call OS (Z * Z);
  os_instant_now : call OS Z;
}.

Definition sys {OS A} (c : call OS A) : prog OS A := fun os => let '(a, os) := c os in (Ret a, os).

(** ** [fs_util/mod.rs] and [fs_util/metadata_ext.rs] *)

(** [TryFrom<SystemTime> for nfstime3]. *)
Definition nfstime3_try_from (time : Z) : result nfstime3 unit :=
  if 0 <=? time
  then Ok (mk_nfstime3 (Z.min (time / 1000000000) u32_MAX) (time mod 1000000000))
  else Err tt.

Definition nfstime3_default : nfstime3 := mk_nfstime3 0 0.

Definition to_nfstime3 (time : option Z) : nfstime3 :=
  match time with
  | Some time => match nfstime3_try_from time with Ok t => t | Err _ => nfstime3_default end
  | None => nfstime3_default
  end.

(** [(mode | 0x80) & 0x1FF]. *)
Definition mode_unmask (mode : u32) : u32 := Z.land (Z.lor mode 128) 511.

Definition metadata_nlink (m : Metadata) : u32 := if md_nlink m <=? u32_MAX then md_nlink m else u32_MAX.

Definition metadata_file_type (m : Metadata) : ftype3 :=
  match md_file_type m with
  | FtFile => NF3REG
  | FtDir => NF3DIR
  | FtSymlink => NF3LNK
  | FtBlock => NF3BLK
  | FtChar => NF3CHR
  | FtFifo => NF3FIFO
  | FtSocket => NF3SOCK
  | FtOther => NF3REG
  end.

Definition metadata_to_fattr3 (fileid : fileid3) (meta : Metadata) : fattr3 :=
  let size := md_len meta in
  let mode := mode_unmask (md_mode meta) in
  mk_fattr3 (metadata_file_type meta) mode (metadata_nlink meta) (md_uid meta) (md_gid meta)
    size size (mk_specdata3 0 0) 0 fileid
    (to_nfstime3 (md_accessed meta)) (to_nfstime3 (md_modified meta)) (to_nfstime3 (md_created meta)).

Definition metadata_differ (lhs rhs : Metadata) : bool :=
  negb (md_ino lhs =? md_ino rhs) ||
  negb (md_mtime lhs =? md_mtime rhs) ||
  negb (md_len lhs =? md_len rhs) ||
  negb (bool_decide (md_file_type lhs = md_file_type rhs)).

Definition fattr3_differ (lhs rhs : fattr3) : bool :=
  negb (fattr3_fileid lhs =? fattr3_fileid rhs) ||
  negb (bool_decide (fattr3_mtime lhs = fattr3_mtime rhs)) ||
  negb (fattr3_size lhs =? fattr3_size rhs) ||
  negb (bool_decide (fattr3_type lhs = fattr3_type rhs)).

Section path_functions.
Context {OS RD F : Type} `{!Os OS RD F}.

Definition exists_no_traverse (p : path) : prog OS bool :=
  do* r := sys (os_symlink_metadata p) in pret (is_ok r).

(** [FileTime::from_unix_time]. *)
Definition file_time (t : nfstime3) : Z * Z := (nfstime3_seconds t, nfstime3_nseconds t).

(** The three parts of [path_setattr] that touch the system; errors of the
    first two are ignored, as are the uid and the gid. *)
Definition path_set_atime (p : path) (how : set_atime) : prog OS unit :=
  match how with
  | atime_SET_TO_SERVER_TIME =>
      do* now := sys os_filetime_now in
      do* _ := sys (os_set_file_atime p now) in pret tt
  | atime_SET_TO_CLIENT_TIME time =>
      do* _ := sys (os_set_file_atime p (file_time time)) in pret tt
  | atime_DONT_CHANGE => pret tt
  end.

Definition path_set_mtime (p : path) (how : set_mtime) : prog OS unit :=
  match how with
  | mtime_SET_TO_SERVER_TIME =>
      do* now := sys os_filetime_now in
      do* _ := sys (os_set_file_mtime p now) in pret tt
  | mtime_SET_TO_CLIENT_TIME time =>
      do* _ := sys (os_set_file_mtime p (file_time time)) in pret tt
  | mtime_DONT_CHANGE => pret tt
  end.

Definition path_set_mode (p : path) (how : set_mode3) : prog OS unit :=
  match how with
  | Some mode => do* _ := sys (os_set_permissions p (mode_unmask mode)) in pret tt
  | None => pret tt
  end.

Definition path_set_size (p : path) (how : set_size3) : prog OS (result unit nfsstat3) :=
  match how with
  | Some size3 =>
      try* file := map_err (fun _ => NFS3ERR_IO) (sys (os_open OpenReadWrite p)) in
      try* _ := map_err (fun _ => NFS3ERR_IO) (sys (os_set_len file size3)) in
      pret (Ok tt)
  | None => pret (Ok tt)
  end.

Definition path_setattr (p : path) (setattr : sattr3) : prog OS (result unit nfsstat3) :=
  do* _ := path_set_atime p (sattr3_atime setattr) in
  do* _ := path_set_mtime p (sattr3_mtime setattr) in
  do* _ := path_set_mode p (sattr3_mode setattr) in
  path_set_size p (sattr3_size setattr).

(** [file_setattr]: on an open file; an error of the first part is ignored. *)
Definition file_set_mode (f : F) (how : set_mode3) : prog OS unit :=
  match how with
  | Some mode => do* _ := sys (os_file_set_permissions f (mode_unmask mode)) in pret tt
  | None => pret tt
  end.

Definition file_setattr (f : F) (setattr : sattr3) : prog OS (result unit nfsstat3) :=
  do* _ := file_set_mode f (sattr3_mode setattr) in
  match sattr3_size setattr with
  | Some size3 =>
      try* _ := map_err (fun _ => NFS3ERR_IO) (sys (os_set_len f size3)) in
      pret (Ok tt)
  | None => pret (Ok tt)
  end.
End path_functions.
