(* ===== verification/IteratorCache.v ===== *)
(** * The iterator cache of the mirror file system: [mirror/iterator_cache.rs]

    Directory streams of unfinished listings, kept by directory and cookie until
    the client asks for more.  A stream [RD] is opaque, times are points of a
    monotonic clock.  The lock is held for one operation at a time; the timer
    task of [IteratorCacheCleaner] only calls [cleanup]. *)

From Stdlib Require Import Sorting.Sorted.
From S2P Require Import Prelude Xdr.
Open Scope Z_scope.
Open Scope nfs_scope.

(** ** State and operations *)

Record CachedIteratorInfo (RD : Type) : Type := mkCached {
  ci_cookie : u64;
  ci_cached_at : Z;
  ci_read_dir : RD;
}.
Arguments mkCached {RD} _ _ _.
Arguments ci_cookie {RD} _.
Arguments ci_cached_at {RD} _.
Arguments ci_read_dir {RD} _.

Record IteratorCache (RD : Type) : Type := mkIteratorCache {
  ic_retention_period : Z;
  ic_cache : gmap Z (list (CachedIteratorInfo RD));
  ic_max_cached_per_dir : Z;
  ic_cookie_counter : u32;
}.
Arguments mkIteratorCache {RD} _ _ _ _.
Arguments ic_retention_period {RD} _.
Arguments ic_cache {RD} _.
Arguments ic_max_cached_per_dir {RD} _.
Arguments ic_cookie_counter {RD} _.

Section iterator_cache.
Context {RD : Type}.
Implicit Types c : IteratorCache RD.

Definition ic_set_cache (m : gmap Z (list (CachedIteratorInfo RD))) c : IteratorCache RD :=
  mkIteratorCache (ic_retention_period c) m (ic_max_cached_per_dir c) (ic_cookie_counter c).

Definition iterator_cache_new (retention_period max_cached_per_dir : Z) : IteratorCache RD :=
  mkIteratorCache retention_period ∅ max_cached_per_dir 0.

Definition generate_base_cookie c : u64 * IteratorCache RD :=
  let counter := ic_cookie_counter c in
  (Z.shiftl counter 32,
   mkIteratorCache (ic_retention_period c) (ic_cache c) (ic_max_cached_per_dir c) ((counter + 1) mod 2 ^ 32)).

(** [iter().position(|info| info.cookie == cookie)]. *)
Fixpoint position (cookie : u64) (l : list (CachedIteratorInfo RD)) : option nat :=
  match l with
  | [] => None
  | info :: rest => if ci_cookie info =? cookie then Some 0%nat else option_map S (position cookie rest)
  end.

(** [Vec::swap_remove] of an index of the vector. *)
Definition swap_remove {A} (i : nat) (l : list A) : option (A * list A) :=
  match l !! i, last l with
  | Some x, Some y => Some (x, take (length l - 1) (<[i := y]> l))
  | _, _ => None
  end.

Definition pop_state (dir_id : Z) (cookie : u64) c : option (CachedIteratorInfo RD) * IteratorCache RD :=
  match ic_cache c !! dir_id with
  | None => (None, c)
  | Some iterators =>
      match position cookie iterators with
      | None => (None, c)
      | Some index =>
          match swap_remove index iterators with
          | Some (info, iterators) => (Some info, ic_set_cache (<[dir_id := iterators]> (ic_cache c)) c)
          | None => (None, c)
          end
      end
  end.

(** [sort_by_key(|info| info.cached_at)], a stable sort. *)
Fixpoint insert_by_age (x : CachedIteratorInfo RD) (l : list (CachedIteratorInfo RD))
  : list (CachedIteratorInfo RD) :=
  match l with
  | [] => [x]
  | y :: rest => if ci_cached_at x <=? ci_cached_at y then x :: l else y :: insert_by_age x rest
  end.

Fixpoint sort_by_age (l : list (CachedIteratorInfo RD)) : list (CachedIteratorInfo RD) :=
  match l with
  | [] => []
  | x :: rest => insert_by_age x (sort_by_age rest)
  end.

Definition trim_iterators (max : Z) (iterators : list (CachedIteratorInfo RD)) : list (CachedIteratorInfo RD) :=
  if max <? len iterators then
    let iterators := sort_by_age iterators in
    drop (Z.to_nat (len iterators - max)) iterators
  else iterators.

Definition trim_cache_for_dir (dir_id : Z) c : IteratorCache RD :=
  match ic_cache c !! dir_id with
  | Some iterators => ic_set_cache (<[dir_id := trim_iterators (ic_max_cached_per_dir c) iterators]> (ic_cache c)) c
  | None => c
  end.

Definition cache_state (dir_id : Z) (cookie : u64) (read_dir : RD) (now : Z) c : IteratorCache RD :=
  let info := mkCached cookie now read_dir in
  let iterators := default [] (ic_cache c !! dir_id) in
  trim_cache_for_dir dir_id (ic_set_cache (<[dir_id := iterators ++ [info]]> (ic_cache c)) c).

(** [now - cached_at] saturates at zero. *)
Definition ic_fresh (now : Z) c (info : CachedIteratorInfo RD) : bool :=
  Z.max 0 (now - ci_cached_at info) <=? ic_retention_period c.

Definition ic_cleanup (now : Z) c : IteratorCache RD :=
  ic_set_cache
    (omap (fun iterators =>
             let iterators := List.filter (ic_fresh now c) iterators in
             match iterators with [] => None | _ => Some iterators end) (ic_cache c)) c.
End iterator_cache.


(** ** Laws *)

Section laws.
Context {RD : Type}.
Implicit Types (c : IteratorCache RD) (l : list (CachedIteratorInfo RD)).

(** The streams kept for a directory. *)
Definition cached c (dir_id : Z) : list (CachedIteratorInfo RD) := default [] (ic_cache c !! dir_id).

Definition ic_wf c : Prop :=
  0 <= ic_max_cached_per_dir c /\ in_u32 (ic_cookie_counter c) /\
  forall dir_id, len (cached c dir_id) <= ic_max_cached_per_dir c.

Lemma cached_set m c dir_id : cached (ic_set_cache m c) dir_id = default [] (m !! dir_id).
Proof. done. Qed.

Lemma position_Some cookie l i :
  position cookie l = Some i -> exists info, l !! i = Some info /\ ci_cookie info = cookie.
Proof.
  revert i. induction l as [|x l IH]; cbn; [done|]. intros i.
  destruct (Z.eqb_spec (ci_cookie x) cookie) as [E|E]; [intros [= <-]; by exists x|].
  destruct (position cookie l) as [j|]; [|done]. intros [= <-]. by apply IH.
Qed.

Lemma position_None cookie l :
  position cookie l = None <-> forall info, info ∈ l -> ci_cookie info <> cookie.
Proof.
  induction l as [|x l IH]; cbn; [split; [intros _ info Hi; by apply elem_of_nil in Hi|done]|].
  destruct (Z.eqb_spec (ci_cookie x) cookie) as [E|E].
  - split; [done|]. intros H. destruct (H x); [left|done].
  - rewrite fmap_None, IH. split; [intros H info [->|Hi]%elem_of_cons; auto|].
    intros H info Hi. apply H. by right.
Qed.

Lemma position_app_new cookie l info :
  (forall x, x ∈ l -> ci_cookie x <> cookie) -> ci_cookie info = cookie ->
  position cookie (l ++ [info]) = Some (length l).
Proof.
  intros H E. induction l as [|x l IH]; cbn.
  - by rewrite E, Z.eqb_refl.
  - destruct (Z.eqb_spec (ci_cookie x) cookie) as [E'|_]; [destruct (H x); [left|done]|].
    rewrite IH; [done|]. intros y Hy. apply H. by right.
Qed.

Lemma swap_remove_is_Some {A} i (l : list A) : (i < length l)%nat -> is_Some (swap_remove i l).
Proof.
  intros Hi. unfold swap_remove. destruct (lookup_lt_is_Some_2 _ _ Hi) as [x ->].
  destruct (last l) eqn:E; [eauto|]. apply last_None in E as ->. cbn in Hi. lia.
Qed.

Lemma swap_remove_perm {A} i (l : list A) x (l' : list A) : swap_remove i l = Some (x, l') -> l ≡ₚ x :: l'.
Proof.
  unfold swap_remove. destruct (l !! i) as [x'|] eqn:Ei; [|done].
  destruct (last l) as [y|] eqn:El; [|done]. intros [= -> <-].
  apply last_Some in El as [l0 ->]. rewrite length_app. cbn. replace (length l0 + 1 - 1)%nat with (length l0) by lia.
  destruct (decide (i < length l0)%nat) as [Hi|Hi].
  - rewrite lookup_app_l in Ei by done. rewrite insert_app_l by done.
    rewrite take_app_le, take_ge by (rewrite ?length_insert; done).
    rewrite <- (take_drop_middle l0 i x Ei) at 1. rewrite (insert_take_drop l0 i y Hi).
    rewrite <- !app_assoc. cbn. rewrite <- Permutation_middle. f_equiv. solve_Permutation.
  - apply lookup_lt_Some in Ei as Hl. rewrite length_app in Hl. cbn in Hl.
    assert (i = length l0) as -> by lia. rewrite list_lookup_middle in Ei by done. injection Ei as ->.
    rewrite (insert_app_r_alt _ _ (length l0)) by lia. rewrite take_app_length. solve_Permutation.
Qed.

Lemma swap_remove_last {A} (l : list A) x : swap_remove (length l) (l ++ [x]) = Some (x, l).
Proof.
  unfold swap_remove. rewrite list_lookup_middle, last_snoc by done.
  rewrite length_app. cbn. replace (length l + 1 - 1)%nat with (length l) by lia.
  rewrite (insert_app_r_alt _ _ (length l)) by lia. by rewrite take_app_length.
Qed.

Lemma insert_by_age_perm x l : insert_by_age x l ≡ₚ x :: l.
Proof.
  induction l as [|y l IH]; cbn; [done|]. destruct (ci_cached_at x <=? ci_cached_at y); [done|].
  rewrite IH. solve_Permutation.
Qed.

Lemma sort_by_age_perm l : sort_by_age l ≡ₚ l.
Proof. induction l as [|x l IH]; cbn; [done|]. by rewrite insert_by_age_perm, IH. Qed.

Definition older (x y : CachedIteratorInfo RD) : Prop := ci_cached_at x <= ci_cached_at y.

Lemma sort_by_age_sorted l : StronglySorted older (sort_by_age l).
Proof.
  induction l as [|x l IH]; cbn; [constructor|]. induction IH as [|y l' Hs IH' Hy]; cbn; [repeat constructor|].
  destruct (Z.leb_spec (ci_cached_at x) (ci_cached_at y)) as [Hle|Hlt].
  - constructor; [by constructor|]. constructor; [done|].
    eapply Forall_impl; [exact Hy|]. unfold older. cbn. intros. lia.
  - constructor; [done|]. rewrite insert_by_age_perm. constructor; [unfold older; lia|done].
Qed.

(** Sorting is stable: what is not older than the rest stays last. *)
Lemma sort_by_age_newest l info :
  Forall (fun x => older x info) l -> sort_by_age (l ++ [info]) = sort_by_age l ++ [info].
Proof.
  induction 1 as [|x l Hx _ IH]; cbn; [done|]. rewrite IH. clear IH.
  induction (sort_by_age l) as [|y s IH]; cbn.
  - unfold older in Hx. by rewrite (proj2 (Z.leb_le _ _) Hx).
  - destruct (ci_cached_at x <=? ci_cached_at y); [done|]. by rewrite IH.
Qed.

Lemma trim_iterators_sub max l :
  exists dropped, l ≡ₚ dropped ++ trim_iterators max l /\
    forall x y, x ∈ dropped -> y ∈ trim_iterators max l -> older x y.
Proof.
  unfold trim_iterators. destruct (max <? len l);
    [|exists []; split; [done|intros x y Hx; by apply elem_of_nil in Hx]].
  set (k := Z.to_nat _). exists (take k (sort_by_age l)). rewrite take_drop, sort_by_age_perm.
  split; [done|]. intros x y Hx Hy. pose proof (sort_by_age_sorted l) as Hs.
  rewrite <- (take_drop k (sort_by_age l)) in Hs. revert Hs Hx Hy.
  generalize (take k (sort_by_age l)) (drop k (sort_by_age l)). intros l1 l2.
  induction l1 as [|z l1 IH]; cbn; [intros _ Hx; by apply elem_of_nil in Hx|].
  intros Hs Hx Hy. inversion_clear Hs as [|? ? Hs' Hf]. apply elem_of_cons in Hx as [->|Hx]; [|by apply IH].
  rewrite Forall_forall in Hf. apply Hf. apply elem_of_app. by right.
Qed.

Lemma trim_iterators_len max l : 0 <= max -> len (trim_iterators max l) <= max.
Proof.
  intros Hm. unfold trim_iterators. destruct (Z.ltb_spec max (len l)) as [H|H]; [|done].
  unfold len in *. rewrite length_drop, (Permutation_length (sort_by_age_perm l)). lia.
Qed.

Lemma trim_iterators_keeps_newest max l info :
  1 <= max -> Forall (fun x => older x info) l ->
  exists l', trim_iterators max (l ++ [info]) = l' ++ [info] /\ exists dropped, l ≡ₚ dropped ++ l'.
Proof.
  intros Hm Hl. unfold trim_iterators. destruct (Z.ltb_spec max (len (l ++ [info]))) as [H|H].
  - rewrite sort_by_age_newest by done. unfold len in *. rewrite length_app in *. cbn in *.
    set (k := Z.to_nat _). assert (k <= length (sort_by_age l))%nat as Hk.
    { subst k. rewrite (Permutation_length (sort_by_age_perm l)). cbn. lia. }
    rewrite drop_app_le by done. exists (drop k (sort_by_age l)). split; [done|].
    exists (take k (sort_by_age l)). by rewrite take_drop, sort_by_age_perm.
  - exists l. split; [done|]. by exists [].
Qed.

Lemma cached_cache_state dir_id cookie read_dir now c d :
  cached (cache_state dir_id cookie read_dir now c) d =
    if decide (d = dir_id)
    then trim_iterators (ic_max_cached_per_dir c) (cached c dir_id ++ [mkCached cookie now read_dir])
    else cached c d.
Proof.
  unfold cache_state, trim_cache_for_dir, cached. cbn. rewrite lookup_insert_eq. cbn.
  case_decide as Hd; [subst; by rewrite lookup_insert_eq|].
  by rewrite !lookup_insert_ne by done.
Qed.

Lemma cached_pop_state dir_id cookie c :
  match pop_state dir_id cookie c with
  | (Some info, c') => ci_cookie info = cookie /\ cached c dir_id ≡ₚ info :: cached c' dir_id /\
                       forall d, d <> dir_id -> cached c' d = cached c d
  | (None, c') => c' = c /\ forall info, info ∈ cached c dir_id -> ci_cookie info <> cookie
  end.
Proof.
  unfold pop_state, cached. destruct (ic_cache c !! dir_id) as [l|] eqn:El; cbn;
    [|split; [done|intros info Hi; by apply elem_of_nil in Hi]].
  destruct (position cookie l) as [i|] eqn:Ei; [|split; [done|by apply position_None]].
  destruct (position_Some _ _ _ Ei) as (info & Hi & Hc).
  destruct (swap_remove_is_Some i l) as [[info' l'] Hs]; [by eapply lookup_lt_Some|]. rewrite Hs. cbn.
  assert (info' = info) as ->.
  { unfold swap_remove in Hs. rewrite Hi in Hs. destruct (last l); congruence. }
  split; [done|]. rewrite lookup_insert_eq. cbn. split; [by apply swap_remove_perm in Hs|].
  intros d Hd. by rewrite lookup_insert_ne by done.
Qed.

Lemma cached_cleanup now c d : cached (ic_cleanup now c) d = List.filter (ic_fresh now c) (cached c d).
Proof.
  unfold ic_cleanup, cached. cbn. rewrite lookup_omap. destruct (ic_cache c !! d) as [l|]; cbn; [|done].
  by destruct (List.filter (ic_fresh now c) l).
Qed.

(** The operations on the cache: [IcGenerate] and [IcPop] when a listing starts
    or resumes, [IcCache] when an iterator is dropped, [IcCleanup] by the timer. *)
Inductive ic_step : IteratorCache RD -> IteratorCache RD -> Prop :=
| IcGenerate : forall c, ic_step c (snd (generate_base_cookie c))
| IcPop : forall c dir_id cookie, ic_step c (snd (pop_state dir_id cookie c))
| IcCache : forall c dir_id cookie read_dir now, ic_step c (cache_state dir_id cookie read_dir now c)
| IcCleanup : forall c now, ic_step c (ic_cleanup now c).

Lemma ic_step_max c c' : ic_step c c' -> ic_max_cached_per_dir c' = ic_max_cached_per_dir c.
Proof.
  destruct 1 as [c|c d k|c d k rd now|c now]; try done.
  - unfold pop_state. repeat case_match; done.
  - unfold cache_state, trim_cache_for_dir. case_match; done.
Qed.

Lemma length_filter_le {A} (f : A -> bool) (l : list A) : len (List.filter f l) <= len l.
Proof. unfold len. pose proof (List.filter_length_le f l). lia. Qed.

Lemma ic_step_wf c c' : ic_wf c -> ic_step c c' -> ic_wf c'.
Proof.
  intros (Hm & Hc & Hl) Hs. pose proof (ic_step_max _ _ Hs) as Em. unfold ic_wf. rewrite Em. clear Em.
  destruct Hs as [c|c d k|c d k rd now|c now].
  - split_and!; [done| |done]. cbn -[Z.pow]. pose proof (Z.mod_pos_bound (ic_cookie_counter c + 1) (2 ^ 32) eq_refl).
    unfold in_u32, u32_MAX. lia.
  - pose proof (cached_pop_state d k c) as Hp.
    assert (ic_cookie_counter (snd (pop_state d k c)) = ic_cookie_counter c) as ->
      by (unfold pop_state; repeat case_match; done).
    split_and!; [done..|]. intros d'. destruct (pop_state d k c) as [[info|] c']; cbn.
    + destruct Hp as (_ & Hp & Hd). destruct (decide (d' = d)) as [->|]; [|by rewrite Hd].
      specialize (Hl d). apply Permutation_length in Hp. unfold len in *. cbn [length] in Hp. lia.
    + by destruct Hp as [-> _].
  - assert (ic_cookie_counter (cache_state d k rd now c) = ic_cookie_counter c) as ->
      by (unfold cache_state, trim_cache_for_dir; case_match; done).
    split_and!; [done..|]. intros d'. rewrite cached_cache_state. case_decide; [|done].
    by apply trim_iterators_len.
  - split_and!; [done..|]. intros d. rewrite cached_cleanup.
    pose proof (length_filter_le (ic_fresh now c) (cached c d)). specialize (Hl d). lia.
Qed.

(** ** Theorems *)

(** However listings start, resume, stop and time out, no directory has more
    than the configured number of streams kept for it; a cleanup keeps exactly
    the streams within the retention period; and when a stream is added to a
    full directory, what is dropped is never younger than what stays. *)
Theorem iterator_cache_bounded retention max c :
  0 <= max -> rtc ic_step (iterator_cache_new retention max) c ->
  (forall dir_id, len (cached c dir_id) <= max) /\
  (forall now dir_id info, info ∈ cached (ic_cleanup now c) dir_id <->
     info ∈ cached c dir_id /\ Z.max 0 (now - ci_cached_at info) <= ic_retention_period c) /\
  (forall dir_id cookie read_dir now, exists dropped,
     let info := mkCached cookie now read_dir in
     let c' := cache_state dir_id cookie read_dir now c in
     info :: cached c dir_id ≡ₚ dropped ++ cached c' dir_id /\
     (forall x y, x ∈ dropped -> y ∈ cached c' dir_id -> ci_cached_at x <= ci_cached_at y) /\
     (forall d, d <> dir_id -> cached c' d = cached c d)).
Proof.
  intros Hm Hr.
  assert (ic_wf c /\ ic_max_cached_per_dir c = max) as [Hwf <-].
  { revert Hr. remember (iterator_cache_new retention max) as c0 eqn:E0.
    assert (ic_wf c0 /\ ic_max_cached_per_dir c0 = max) as H0.
    { subst. split; [|done]. split; [done|]. split; [split; cbn; unfold u32_MAX; lia|done]. }
    clear E0. induction 1 as [|c0 c1 c2 Hs _ IH]; [done|]. apply IH. destruct H0 as [H0 <-].
    split; [by eapply ic_step_wf|by apply ic_step_max]. }
  split; [apply Hwf|split].
  - intros now d info. rewrite cached_cleanup. unfold ic_fresh.
    rewrite !list_elem_of_In, filter_In, Z.leb_le. done.
  - intros d k rd now. destruct (trim_iterators_sub (ic_max_cached_per_dir c)
      (cached c d ++ [mkCached k now rd])) as (dropped & Hp & Ho).
    exists dropped. cbn. rewrite cached_cache_state, decide_True by done. split_and!.
    + rewrite <- Hp. apply Permutation_cons_append.
    + exact Ho.
    + intros d' Hd. by rewrite cached_cache_state, decide_False.
Qed.

(** C31: A listing resumes where it stopped: a stream kept under a cookie that no
    other stream of the directory has, at a time not before the others, is the
    one the cookie gives back, as it was kept; and it is then gone. *)
Theorem iterator_cache_resumes dir_id cookie read_dir now c :
  1 <= ic_max_cached_per_dir c ->
  (forall info, info ∈ cached c dir_id -> ci_cookie info <> cookie /\ ci_cached_at info <= now) ->
  exists c', pop_state dir_id cookie (cache_state dir_id cookie read_dir now c) =
               (Some (mkCached cookie now read_dir), c') /\
    (exists dropped, cached c dir_id ≡ₚ dropped ++ cached c' dir_id) /\
    fst (pop_state dir_id cookie c') = None.
Proof.
  intros Hm Hi. set (c1 := cache_state dir_id cookie read_dir now c).
  set (info := mkCached cookie now read_dir).
  destruct (trim_iterators_keeps_newest (ic_max_cached_per_dir c) (cached c dir_id) info)
    as (l' & Hl' & dropped & Hd); [done| |].
  { apply Forall_forall. intros x Hx. apply (Hi x Hx). }
  assert (cached c1 dir_id = l' ++ [info]) as E1.
  { unfold c1. rewrite cached_cache_state, decide_True by done. exact Hl'. }
  assert (forall x, x ∈ l' -> ci_cookie x <> cookie) as Hn.
  { intros x Hx. apply Hi. rewrite Hd. apply elem_of_app. by right. }
  assert (ic_cache c1 !! dir_id = Some (l' ++ [info])) as E2.
  { revert E1. unfold cached. destruct (ic_cache c1 !! dir_id) as [l|]; cbn; [by intros ->|].
    by destruct l'. }
  unfold pop_state. rewrite E2, (position_app_new cookie l' info) by done. rewrite swap_remove_last.
  eexists. split; [reflexivity|]. cbn. rewrite !lookup_insert_eq. cbn. split.
  - exists dropped. unfold cached. cbn. by rewrite lookup_insert_eq.
  - by rewrite (proj2 (position_None cookie l') Hn).
Qed.
End laws.

(** ** Witnesses *)

(** A cache of two streams per directory, kept for ten units of time; the
    streams are numbers. *)
Definition demo_cache : IteratorCache nat :=
  cache_state 7 3 30%nat 2 (cache_state 7 2 20%nat 1 (cache_state 7 1 10%nat 0 (iterator_cache_new 10 2))).

Lemma iterator_cache_bounded_witness :
  cached demo_cache 7 = [mkCached 2 1 20%nat; mkCached 3 2 30%nat] /\
  len (cached demo_cache 7) <= 2.
Proof.
  split; [vm_compute; reflexivity|].
  apply (proj1 (iterator_cache_bounded 10 2 demo_cache ltac:(done)
    (rtc_l _ _ _ _ (IcCache _ 7 1 10%nat 0) (rtc_l _ _ _ _ (IcCache _ 7 2 20%nat 1) (rtc_once _ _ (IcCache _ 7 3 30%nat 2)))))).
Defined.

Lemma iterator_cache_resumes_witness :
  exists c', pop_state 7 4 (cache_state 7 4 40%nat 3 demo_cache) = (Some (mkCached 4 3 40%nat), c').
Proof.
  destruct (iterator_cache_resumes 7 4 40%nat 3 demo_cache) as (c' & E & _).
  - vm_compute. discriminate.
  - intros info Hi. change (cached demo_cache 7) with [mkCached 2 1 20%nat; mkCached 3 2 30%nat] in Hi.
    apply elem_of_cons in Hi as [->|Hi]; [split; [discriminate|vm_compute; discriminate]|].
    apply elem_of_cons in Hi as [->|Hi]; [split; [discriminate|vm_compute; discriminate]|].
    by apply elem_of_nil in Hi.
  - by exists c'.
Defined.
