(* ===== verification/Mirror.v ===== *)
(** * The mirror file system: [cargo_nfs3_server::mirror]

    A directory of the operating system served over NFS.  The symbols cache
    gives each path that clients have seen its handle, the iterator cache keeps
    the directory streams of unfinished listings, and the methods of [Fs] are
    sequences of system calls between them.

    The symbol table of the [intaglio] crate is the class [SymbolTable], with its
    documented behaviour as the laws [SymbolTableLaws]; the operating system is
    [FsUtil.Os].  On Unix [string_ext.rs] only reinterprets the bytes of a name.
    A panic under the write lock of the symbols cache poisons it.  The two
    [ThresholdLogger]s only log: they are modelled on their own, in
    [ThresholdLogger], and left out of the state here. *)

From S2P Require Import Prelude Xdr XdrLaws Nfs3Types Handle Vfs FsUtil IteratorCache.
Open Scope Z_scope.
Open Scope nfs_scope.

Definition map_io_error (err : ErrorKind) : nfsstat3 :=
  match err with
  | NotFound => NFS3ERR_NOENT
  | PermissionDenied => NFS3ERR_ACCES
  | AlreadyExistsKind => NFS3ERR_EXIST
  | IsADirectory => NFS3ERR_ISDIR
  | NotADirectory => NFS3ERR_NOTDIR
  | ReadOnlyFilesystem => NFS3ERR_ROFS
  | Unsupported => NFS3ERR_NOTSUPP
  | CrossesDevices => NFS3ERR_XDEV
  | OtherKind => NFS3ERR_IO
  end.

(** ** The symbols cache: [symbols_cache] *)

(** [intaglio::osstr::SymbolTable]. *)
Class SymbolTable (T Sym : Type) : Type := {
  st_new : T;
  st_intern : path -> T -> option (Sym * T);
  st_get : T -> Sym -> option path;
}.

(** Its documented behaviour: interning returns the symbol of the name, the
    same one for the same name, and keeps the other symbols. *)
Class SymbolTableLaws (T Sym : Type) `{SymbolTable T Sym} : Type := {
  st_ok : T -> Prop;
  st_new_ok : st_ok st_new;
  st_intern_ok t name s t' : st_ok t -> st_intern name t = Some (s, t') -> st_ok t';
  st_intern_get t name s t' : st_ok t -> st_intern name t = Some (s, t') -> st_get t' s = Some name;
  st_intern_keeps t name s t' s2 n2 :
    st_ok t -> st_intern name t = Some (s, t') -> st_get t s2 = Some n2 -> st_get t' s2 = Some n2;
  st_get_inj t s1 s2 n : st_ok t -> st_get t s1 = Some n -> st_get t s2 = Some n -> s1 = s2;
}.

Section mirror.
Context {T Sym OS RD F : Type} `{!SymbolTable T Sym} `{Countable Sym} `{!Os OS RD F}.

Definition SymbolsPath : Type := list Sym.
Definition symbols_path_join (p : SymbolsPath) (s : Sym) : SymbolsPath := p ++ [s].

(** [SymbolsCache::ROOT_ID]. *)
Definition MIRROR_ROOT_ID : Z := 1.

Record SymbolsCacheInner : Type := mkSymbolsCacheInner {
  sc_symbols : T;
  sc_path_to_id : gmap (list Sym) Z;
  sc_id_to_path : gmap Z (list Sym);
  sc_next_id : u64;
}.

Definition symbols_cache_new : SymbolsCacheInner :=
  mkSymbolsCacheInner st_new {[ [] := MIRROR_ROOT_ID ]} {[ MIRROR_ROOT_ID := [] ]} (MIRROR_ROOT_ID + 1).

(** [resolve_path]: the names of the symbols, pushed one by one. *)
Fixpoint resolve_path_from (t : T) (acc : path) (p : SymbolsPath) : outcome path :=
  match p with
  | [] => Ret acc
  | s :: rest =>
      match st_get t s with
      | Some node => resolve_path_from t (path_push acc node) rest
      | None => Panic
      end
  end.

Definition resolve_path (t : T) (p : SymbolsPath) : outcome path := resolve_path_from t [] p.

(** ** The file system *)

Record MirrorFs : Type := mkMirrorFs {
  mr_root : path;
  mr_cache : SymbolsCacheInner;
  mr_poisoned : bool;
  mr_iterator_cache : IteratorCache RD;
  mr_os : OS;
}.

Definition mr_set_cache (c : SymbolsCacheInner) (m : MirrorFs) : MirrorFs :=
  mkMirrorFs (mr_root m) c (mr_poisoned m) (mr_iterator_cache m) (mr_os m).
Definition mr_set_iterators (c : IteratorCache RD) (m : MirrorFs) : MirrorFs :=
  mkMirrorFs (mr_root m) (mr_cache m) (mr_poisoned m) c (mr_os m).
Definition mr_set_os (os : OS) (m : MirrorFs) : MirrorFs :=
  mkMirrorFs (mr_root m) (mr_cache m) (mr_poisoned m) (mr_iterator_cache m) os.
Definition mr_poison (m : MirrorFs) : MirrorFs :=
  mkMirrorFs (mr_root m) (mr_cache m) true (mr_iterator_cache m) (mr_os m).

(** [Fs::new], on the system [os]. *)
Definition mirror_new (root : path) (os : OS) : MirrorFs :=
  mkMirrorFs root symbols_cache_new false (iterator_cache_new 60000000000 20) os.

Definition on_os {A} (m : prog OS A) : prog MirrorFs A := fun fs =>
  let '(o, os) := m (mr_os fs) in (o, mr_set_os os fs).

Definition on_sys {A} (c : OS -> A * OS) : prog MirrorFs A := on_os (sys c).

(** [inner.read().expect(..)]. *)
Definition with_cache {A} (k : SymbolsCacheInner -> outcome A) : prog MirrorFs A := fun m =>
  if mr_poisoned m then (Panic, m) else (k (mr_cache m), m).

(** [SymbolsCacheInner::lookup]. *)
Definition cache_lookup_inner (parent : SymbolsPath) (name : path) (check_path : bool)
  : prog MirrorFs (result Z nfsstat3) := fun m =>
  let inner := mr_cache m in
  match st_intern name (sc_symbols inner) with
  | None => (Panic, m)
  | Some (symbol, symbols) =>
      let m := mr_set_cache (mkSymbolsCacheInner symbols (sc_path_to_id inner) (sc_id_to_path inner)
                               (sc_next_id inner)) m in
      let item := symbols_path_join parent symbol in
      match sc_path_to_id inner !! item with
      | Some id => (Ret (Ok id), m)
      | None =>
          (do* checked :=
             if check_path then
               match resolve_path symbols parent with
               | Ret test_path_parent =>
                   let test_path := path_push (mr_root m) test_path_parent in
                   do* e := on_sys (os_exists test_path) in
                   if negb e then pret (Err NFS3ERR_BADHANDLE)
                   else
                     do* e := on_sys (os_exists (path_push test_path name)) in
                     pret (if negb e then Err NFS3ERR_NOENT else Ok tt)
               | _ => ppanic
               end
             else pret (Ok tt) in
           match checked with
           | Err stat => pret (Err stat)
           | Ok _ => fun m =>
               let id := sc_next_id inner in
               (Ret (Ok id),
                mr_set_cache (mkSymbolsCacheInner symbols (<[item := id]> (sc_path_to_id inner))
                                (<[id := item]> (sc_id_to_path inner)) ((id + 1) mod 2 ^ 64)) m)
           end) m
      end
  end.

(** [SymbolsCache::lookup]: under the write lock. *)
Definition cache_lookup (parent : SymbolsPath) (name : path) (check_path : bool)
  : vfs_method MirrorFs Z := fun m =>
  if mr_poisoned m then (Panic, m)
  else
    let '(o, m) := cache_lookup_inner parent name check_path m in
    match o with
    | Ret r => (Ret r, m)
    | o => (o, mr_poison m)
    end.

Definition symbols_path (id : Z) : vfs_method MirrorFs SymbolsPath :=
  with_cache (fun inner => Ret (ok_or (sc_id_to_path inner !! id) NFS3ERR_BADHANDLE)).

Definition handle_to_path (id : Z) : vfs_method MirrorFs path :=
  with_cache (fun inner =>
    match sc_id_to_path inner !! id with
    | None => Ret (Err NFS3ERR_BADHANDLE)
    | Some p => match resolve_path (sc_symbols inner) p with
                | Ret p => Ret (Ok p)
                | _ => Panic
                end
    end).

Definition lookup_by_id (parent_id : Z) (name : path) (check_path : bool) : vfs_method MirrorFs Z :=
  try* parent := symbols_path parent_id in
  cache_lookup parent name check_path.

(** [Fs::path]. *)
Definition mirror_path (id : Z) : vfs_method MirrorFs path := fun m =>
  (try* relative_path := handle_to_path id in
   pret (Ok (path_push (mr_root m) relative_path))) m.

(** The inherent method [Fs::read]. *)
Definition mirror_read_path (p : path) (start count : Z) : prog MirrorFs (result (list byte * bool) ErrorKind) :=
  try* f := on_sys (os_open OpenRead p) in
  try* len := on_sys (os_file_len f) in
  if (len <=? start) || (count =? 0) then pret (Ok ([], len <=? count))
  else
    let count := Z.min count (len - start) in
    try* _ := on_sys (os_seek f start) in
    try* buf := on_sys (os_read_exact f count) in
    pret (Ok (buf, len <=? start + count)).

Definition iterators {A} (k : IteratorCache RD -> A * IteratorCache RD) : prog MirrorFs A := fun m =>
  let '(a, c) := k (mr_iterator_cache m) in (Ret a, mr_set_iterators c m).

Definition initialize_read_dir (dirid : Z) (cookie : u64) : vfs_method MirrorFs (RD * u64) :=
  try* dir_path := mirror_path dirid in
  if cookie =? 0 then
    try* metadata := map_err (fun _ => NFS3ERR_NOENT) (on_sys (os_symlink_metadata dir_path)) in
    if negb (metadata_is_dir metadata) then pret (Err NFS3ERR_NOTDIR)
    else
      try* read_dir := map_err (fun _ => NFS3ERR_IO) (on_sys (os_read_dir dir_path)) in
      do* base := iterators generate_base_cookie in
      pret (Ok (read_dir, base))
  else
    do* cached := iterators (pop_state dirid cookie) in
    match cached with
    | Some info => pret (Ok (ci_read_dir info, ci_cookie info))
    | None => pret (Err NFS3ERR_BAD_COOKIE)
    end.

(** ** The directory iterator: [iterator.rs] *)

Record MirrorFsIterator : Type := mkMirrorFsIterator {
  mi_dirid : Z;
  mi_read_dir : option RD;
  mi_cookie : u64;
}.

Definition get_or_create_iterator (dirid : Z) (cookie : u64) : vfs_method MirrorFs MirrorFsIterator :=
  try* (read_dir, cookie_value) := initialize_read_dir dirid cookie in
  pret (Ok (mkMirrorFsIterator dirid (Some read_dir) cookie_value)).

(** [cookie += 1] is a checked addition on [u64]. *)
Definition next_entry_common (it : MirrorFsIterator)
  : prog MirrorFs (NextResult (Z * path * u64) * MirrorFsIterator) :=
  match mi_read_dir it with
  | None => pret (NextEof, it)
  | Some read_dir =>
      do* (r, read_dir) := on_sys (os_next_entry read_dir) in
      let it := mkMirrorFsIterator (mi_dirid it) (Some read_dir) (mi_cookie it) in
      match r with
      | Ok (Some name) =>
          do* handle := try* parent_symbols := symbols_path (mi_dirid it) in
                        cache_lookup parent_symbols name false in
          match handle with
          | Err e => pret (NextErr e, it)
          | Ok handle =>
              if mi_cookie it + 1 <=? u64_MAX then
                let cookie := mi_cookie it + 1 in
                pret (NextOk (handle, name, cookie), mkMirrorFsIterator (mi_dirid it) (mi_read_dir it) cookie)
              else ppanic
          end
      | Ok None => pret (NextEof, mkMirrorFsIterator (mi_dirid it) None (mi_cookie it))
      | Err _ => pret (NextErr NFS3ERR_IO, it)
      end
  end.

(** [Drop]: an unfinished stream goes to the cache. *)
Definition mirror_iter_drop (it : MirrorFsIterator) : prog MirrorFs unit :=
  match mi_read_dir it with
  | None => pret tt
  | Some read_dir =>
      do* now := on_sys os_instant_now in
      iterators (fun c => (tt, cache_state (mi_dirid it) (mi_cookie it) read_dir now c))
  end.

Definition mirror_readdir_iter : Iterator MirrorFs DirEntry := {|
  it_state := MirrorFsIterator;
  it_next it :=
    do* (r, it) := next_entry_common it in
    pret (match r with
          | NextOk (handle, name, cookie) => NextOk (mk_entry3 handle name cookie)
          | NextEof => NextEof
          | NextErr e => NextErr e
          end, it);
  it_drop := mirror_iter_drop;
|}.

(** One turn of the loop of [ReadDirPlusIterator::next]; [None] is its
    [continue], for a handle that the cache does not know. *)
Definition readdirplus_turn (it : MirrorFsIterator)
  : prog MirrorFs (option (NextResult (DirEntryPlus Z)) * MirrorFsIterator) :=
  do* (r, it) := next_entry_common it in
  match r with
  | NextOk (handle, name, cookie) =>
      do* p := mirror_path handle in
      match p with
      | Err _ => pret (None, it)
      | Ok p =>
          do* metadata := on_sys (os_symlink_metadata p) in
          let fattr := match metadata with Ok m => Some (metadata_to_fattr3 handle m) | Err _ => None end in
          pret (Some (NextOk (mkDirEntryPlus handle name cookie fattr (Some handle))), it)
      end
  | NextErr e => pret (Some (NextErr e), it)
  | NextEof => pret (Some NextEof, it)
  end.

Fixpoint readdirplus_next (fuel : nat) (it : MirrorFsIterator)
  : prog MirrorFs (NextResult (DirEntryPlus Z) * MirrorFsIterator) :=
  match fuel with
  | O => fun m => (OutOfFuel, m)
  | S fuel' =>
      do* (r, it) := readdirplus_turn it in
      match r with
      | Some r => pret (r, it)
      | None => readdirplus_next fuel' it
      end
  end.

(** One turn is enough: the handle of an entry was just looked up
    ([MirrorLaws.readdirplus_next_total]). *)
Definition readdirplus_fuel : nat := 1.

(** ** The methods, on ids *)

Definition mirror_lookup (dirid : Z) (filename : filename3) : vfs_method MirrorFs Z :=
  lookup_by_id dirid filename true.

Definition mirror_getattr (id : Z) : vfs_method MirrorFs fattr3 :=
  try* p := mirror_path id in
  try* metadata := map_err map_io_error (on_sys (os_symlink_metadata p)) in
  pret (Ok (metadata_to_fattr3 id metadata)).

Definition mirror_read (id : Z) (offset : u64) (count : u32) : vfs_method MirrorFs (list byte * bool) :=
  try* p := mirror_path id in
  map_err map_io_error (mirror_read_path p offset count).

Definition mirror_readlink (id : Z) : vfs_method MirrorFs nfspath3 :=
  try* p := mirror_path id in
  do* r := on_sys (os_read_link p) in
  match r with
  | Ok target => pret (Ok target)
  | Err NotFound => pret (Err NFS3ERR_NOENT)
  | Err _ => pret (Err NFS3ERR_BADTYPE)
  end.

Definition mirror_setattr (id : Z) (setattr : sattr3) : vfs_method MirrorFs fattr3 :=
  try* p := mirror_path id in
  try* _ := on_os (path_setattr p setattr) in
  mirror_getattr id.

(** The [async] block of [write]. *)
Definition write_at (p : path) (offset : u64) (data : list byte) : prog MirrorFs (result unit ErrorKind) :=
  try* file := on_sys (os_open OpenWrite p) in
  try* _ := on_sys (os_seek file offset) in
  try* _ := on_sys (os_write_all file data) in
  on_sys (os_flush file).

Definition mirror_write (id : Z) (offset : u64) (data : list byte) : vfs_method MirrorFs fattr3 :=
  try* p := mirror_path id in
  try* metadata := map_err map_io_error (on_sys (os_symlink_metadata p)) in
  if negb (metadata_is_file metadata) then pret (Err NFS3ERR_INVAL)
  else
    try* _ := map_err map_io_error (write_at p offset data) in
    mirror_getattr id.

(** The [async] block of [create]. *)
Definition create_file (p : path) (size : set_size3) : prog MirrorFs (result unit ErrorKind) :=
  try* file := on_sys (os_open OpenCreate p) in
  match size with
  | Some size => try* _ := on_sys (os_set_len file size) in pret (Ok tt)
  | None => pret (Ok tt)
  end.

Definition mirror_create (dirid : Z) (filename : filename3) (attr : sattr3) : vfs_method MirrorFs (Z * fattr3) :=
  try* dir_path := mirror_path dirid in
  let file_path := path_push dir_path filename in
  try* _ := map_err map_io_error (create_file file_path (sattr3_size attr)) in
  try* file_id := lookup_by_id dirid filename true in
  try* fattr := mirror_setattr file_id attr in
  pret (Ok (file_id, fattr)).

Definition mirror_create_exclusive (dirid : Z) (filename : filename3) (_createverf : createverf3)
  : vfs_method MirrorFs Z :=
  try* dir_path := mirror_path dirid in
  let file_path := path_push dir_path filename in
  try* _ := map_err map_io_error (on_sys (os_open OpenCreateNew file_path)) in
  lookup_by_id dirid filename true.

Definition mirror_mkdir (dirid : Z) (dirname : filename3) : vfs_method MirrorFs (Z * fattr3) :=
  try* dir_path := mirror_path dirid in
  let new_dir_path := path_push dir_path dirname in
  try* _ := map_err map_io_error (on_sys (os_create_dir new_dir_path)) in
  try* new_dir_id := lookup_by_id dirid dirname true in
  try* fattr := mirror_getattr new_dir_id in
  pret (Ok (new_dir_id, fattr)).

Definition mirror_remove (dirid : Z) (filename : filename3) : vfs_method MirrorFs unit :=
  try* dir_path := mirror_path dirid in
  let file_path := path_push dir_path filename in
  map_err map_io_error
    (try* metadata := on_sys (os_symlink_metadata file_path) in
     if metadata_is_dir metadata then on_sys (os_remove_dir file_path)
     else on_sys (os_remove_file file_path)).

Definition is_dot_name (name : filename3) : bool :=
  bool_decide (name = [x2e]) || bool_decide (name = [x2e; x2e]).

(** The checks of [rename] on an existing target. *)
Definition rename_check_target (from_metadata : Metadata) (to_path : path) : vfs_method MirrorFs unit :=
  do* to_metadata := on_sys (os_symlink_metadata to_path) in
  match to_metadata with
  | Err _ => pret (Ok tt)
  | Ok to_metadata =>
      if negb (Bool.eqb (metadata_is_dir from_metadata) (metadata_is_dir to_metadata))
      then pret (Err NFS3ERR_EXIST)
      else if metadata_is_dir to_metadata then
        try* read_dir := map_err map_io_error (on_sys (os_read_dir to_path)) in
        do* (entry, _) := on_sys (os_next_entry read_dir) in
        match entry with
        | Err e => pret (Err (map_io_error e))
        | Ok (Some _) => pret (Err NFS3ERR_NOTEMPTY)
        | Ok None => pret (Ok tt)
        end
      else pret (Ok tt)
  end.

Definition mirror_rename (from_dirid : Z) (from_filename : filename3) (to_dirid : Z) (to_filename : filename3)
  : vfs_method MirrorFs unit :=
  if is_dot_name from_filename || is_dot_name to_filename then pret (Err NFS3ERR_INVAL)
  else
    try* from_dir_path := mirror_path from_dirid in
    let from_path := path_push from_dir_path from_filename in
    try* to_dir_path := mirror_path to_dirid in
    let to_path := path_push to_dir_path to_filename in
    if (from_dirid =? to_dirid) && bool_decide (from_filename = to_filename) then pret (Ok tt)
    else
      try* from_metadata := map_err map_io_error (on_sys (os_symlink_metadata from_path)) in
      try* _ := rename_check_target from_metadata to_path in
      try* _ := map_err map_io_error (on_sys (os_rename from_path to_path)) in
      do* _ := lookup_by_id from_dirid from_filename false in
      do* _ := lookup_by_id to_dirid to_filename false in
      pret (Ok tt).

Definition mirror_symlink (dirid : Z) (linkname : filename3) (symlink : nfspath3) (attr : sattr3)
  : vfs_method MirrorFs (Z * fattr3) :=
  try* dir_path := mirror_path dirid in
  let link_path := path_push dir_path linkname in
  try* _ := map_err map_io_error (on_sys (os_symlink symlink link_path)) in
  try* link_id := lookup_by_id dirid linkname true in
  do* _ :=
    match sattr3_mode attr, sattr3_uid attr, sattr3_gid attr with
    | None, None, None => pret tt
    | _, _, _ => do* _ := mirror_setattr link_id attr in pret tt
    end in
  try* fattr := mirror_getattr link_id in
  pret (Ok (link_id, fattr)).

(** ** The instance of [NfsFileSystem] *)

Context `{Target}.

Definition mirror_readdirplus_iter : Iterator MirrorFs (DirEntryPlus FileHandleU64) := {|
  it_state := MirrorFsIterator;
  it_next it :=
    do* (r, it) := readdirplus_next readdirplus_fuel it in
    pret (match r with
          | NextOk e => NextOk (mkDirEntryPlus (dep_fileid e) (dep_name e) (dep_cookie e)
                                  (dep_name_attributes e) (option_map fh64_new (dep_name_handle e)))
          | NextEof => NextEof
          | NextErr e => NextErr e
          end, it);
  it_drop := mirror_iter_drop;
|}.

Definition with_handle {A} (r : result Z A) : result FileHandleU64 A := result_map fh64_new r.
Definition with_handle_attr {A B} (r : result (Z * A) B) : result (FileHandleU64 * A) B :=
  result_map (fun '(id, a) => (fh64_new id, a)) r.

Definition mirror_read_fs : NfsReadFileSystem MirrorFs FileHandleU64 := {|
  readdir_iter := mirror_readdir_iter;
  readdirplus_iter := mirror_readdirplus_iter;
  vfs_root_dir := pret (fh64_new MIRROR_ROOT_ID);
  vfs_lookup dirid filename :=
    do* r := mirror_lookup (fh64_as_u64 dirid) filename in pret (with_handle r);
  vfs_lookup_by_path :=
    lookup_by_path_default (pret (fh64_new MIRROR_ROOT_ID))
      (fun dirid filename => do* r := mirror_lookup (fh64_as_u64 dirid) filename in pret (with_handle r));
  vfs_getattr id := mirror_getattr (fh64_as_u64 id);
  vfs_read id offset count := mirror_read (fh64_as_u64 id) offset count;
  vfs_readdir dirid cookie := get_or_create_iterator (fh64_as_u64 dirid) cookie;
  vfs_readdirplus dirid cookie := get_or_create_iterator (fh64_as_u64 dirid) cookie;
  vfs_readlink id := mirror_readlink (fh64_as_u64 id);
  vfs_fsinfo := fsinfo_default (fun id => mirror_getattr (fh64_as_u64 id));
|}.

Definition mirror_file_system : NfsFileSystem MirrorFs FileHandleU64 := {|
  nfs_read_fs := mirror_read_fs;
  vfs_capabilities := pret ReadWrite;
  vfs_setattr id setattr := mirror_setattr (fh64_as_u64 id) setattr;
  vfs_write id offset data := mirror_write (fh64_as_u64 id) offset data;
  vfs_create dirid filename attr :=
    do* r := mirror_create (fh64_as_u64 dirid) filename attr in pret (with_handle_attr r);
  vfs_create_exclusive dirid filename verf :=
    do* r := mirror_create_exclusive (fh64_as_u64 dirid) filename verf in pret (with_handle r);
  vfs_mkdir dirid dirname :=
    do* r := mirror_mkdir (fh64_as_u64 dirid) dirname in pret (with_handle_attr r);
  vfs_remove dirid filename := mirror_remove (fh64_as_u64 dirid) filename;
  vfs_rename from_dirid from_filename to_dirid to_filename :=
    mirror_rename (fh64_as_u64 from_dirid) from_filename (fh64_as_u64 to_dirid) to_filename;
  vfs_symlink dirid linkname symlink attr :=
    do* r := mirror_symlink (fh64_as_u64 dirid) linkname symlink attr in pret (with_handle_attr r);
|}.
End mirror.
