(* ===== verification/MirrorLaws.v ===== *)
(** * Laws of the mirror file system: the symbols cache and the methods

    The symbols cache is a table of handles, each with the list of names that
    leads to it from the root of the export ([handle_names]).  [mirror_inv] is
    its invariant; [safe n m] says that [m] returns, keeps the invariant, forgets
    no handle and gives out at most [n] new ones. *)

From S2P Require Import Prelude Xdr XdrLaws Nfs3Types Handle Vfs FsUtil IteratorCache Mirror NfsHandlersLaws.
Open Scope Z_scope.
Open Scope nfs_scope.

Section laws.
Context {T Sym OS RD F : Type} `{!SymbolTable T Sym} `{Countable Sym} `{!Os OS RD F}.
Context `{!SymbolTableLaws T Sym}.
Local Abbreviation Inner := (@SymbolsCacheInner T Sym _ _).
Local Abbreviation MState := (@MirrorFs T Sym OS RD _ _).
Implicit Types (c : Inner) (fs : MState) (ns : list (list byte)) (p : list Sym).

(** ** The symbols cache as a table of names *)

Definition names_of (t : T) p : option (list (list byte)) := mapM (st_get t) p.

Definition handle_names fs (id : Z) : option (list (list byte)) :=
  match sc_id_to_path (mr_cache fs) !! id with
  | Some p => names_of (sc_symbols (mr_cache fs)) p
  | None => None
  end.

Record cache_wf c : Prop := {
  cw_symbols : st_ok (sc_symbols c);
  cw_inverse : forall p id, sc_path_to_id c !! p = Some id <-> sc_id_to_path c !! id = Some p;
  cw_root : sc_id_to_path c !! MIRROR_ROOT_ID = Some [];
  cw_known : forall id p, sc_id_to_path c !! id = Some p ->
    1 <= id < sc_next_id c /\ is_Some (names_of (sc_symbols c) p);
  cw_next : sc_next_id c <= u64_MAX;
}.

Definition mirror_inv fs : Prop := cache_wf (mr_cache fs) /\ mr_poisoned fs = false.

(** What no operation takes back. *)
Record grows fs fs' : Prop := {
  gr_root : mr_root fs' = mr_root fs;
  gr_ids : sc_id_to_path (mr_cache fs) ⊆ sc_id_to_path (mr_cache fs');
  gr_get : forall s n, st_get (sc_symbols (mr_cache fs)) s = Some n ->
                       st_get (sc_symbols (mr_cache fs')) s = Some n;
}.

#[export] Instance grows_preorder : PreOrder grows.
Proof.
  split; [by split|]. intros a b d [R1 I1 G1] [R2 I2 G2]. split; [congruence|by etrans|eauto].
Qed.

Lemma grows_os fs fs' os : grows fs fs' -> grows fs (mr_set_os os fs').
Proof. intros [R I G]. by split. Qed.

Lemma names_of_keeps t t' p ns :
  (forall s n, st_get t s = Some n -> st_get t' s = Some n) ->
  names_of t p = Some ns -> names_of t' p = Some ns.
Proof.
  intros Ht. unfold names_of. rewrite !mapM_Some. intros Hf. by eapply Forall2_impl; [exact Hf|auto].
Qed.

Lemma handle_names_grows fs fs' id ns :
  grows fs fs' -> handle_names fs id = Some ns -> handle_names fs' id = Some ns.
Proof.
  intros [_ Hi Hg]. unfold handle_names. destruct (_ !! id) as [p|] eqn:E; [|done].
  rewrite (lookup_weaken _ _ _ _ E Hi). by apply names_of_keeps.
Qed.

Lemma names_of_app t p s ns n :
  names_of t p = Some ns -> st_get t s = Some n -> names_of t (p ++ [s]) = Some (ns ++ [n]).
Proof.
  unfold names_of. rewrite !mapM_Some. intros Hp Hs. apply Forall2_app; [done|]. by constructor.
Qed.

Lemma names_of_inj t p1 p2 ns :
  st_ok t -> names_of t p1 = Some ns -> names_of t p2 = Some ns -> p1 = p2.
Proof.
  intros Ht. unfold names_of. rewrite !mapM_Some. intros H1. revert p2.
  induction H1 as [|s n p1 ns Hs _ IH]; intros p2 H2; inversion_clear H2 as [|s2 ? p2' ? Hs2 H2']; [done|].
  f_equal; [by eapply st_get_inj|by apply IH].
Qed.

(** A handle is known exactly when it has names. *)
Lemma handle_names_known fs id :
  mirror_inv fs -> is_Some (handle_names fs id) <-> is_Some (sc_id_to_path (mr_cache fs) !! id).
Proof.
  intros [Hw _]. unfold handle_names. destruct (_ !! id) as [p|] eqn:E; [|done].
  split; [done|]. intros _. by apply (cw_known _ Hw id).
Qed.

Lemma handle_names_inj fs id1 id2 ns :
  mirror_inv fs -> handle_names fs id1 = Some ns -> handle_names fs id2 = Some ns -> id1 = id2.
Proof.
  intros [Hw _]. unfold handle_names. destruct (_ !! id1) as [p1|] eqn:E1; [|done].
  destruct (_ !! id2) as [p2|] eqn:E2; [|done]. intros H1 H2.
  assert (p1 = p2) as -> by (eapply names_of_inj; eauto; apply cw_symbols, Hw).
  apply (cw_inverse _ Hw) in E1, E2. congruence.
Qed.

(** The path of a list of names: each is pushed on the path so far. *)
Definition join_names ns : list byte := foldl path_push [] ns.

Lemma resolve_path_names t p ns : names_of t p = Some ns -> resolve_path t p = Ret (join_names ns).
Proof.
  unfold names_of, resolve_path, join_names. rewrite mapM_Some. intros Hp. generalize (@nil byte) as acc.
  induction Hp as [|s n p ns Hs _ IH]; intros acc; cbn; [done|]. by rewrite Hs, IH.
Qed.

Lemma mirror_path_names fs id :
  mirror_inv fs ->
  mirror_path id fs =
    (Ret (match handle_names fs id with
          | Some ns => Ok (path_push (mr_root fs) (join_names ns))
          | None => Err NFS3ERR_BADHANDLE
          end), fs).
Proof.
  intros [Hw Hp]. unfold mirror_path, tbind, pbind, handle_to_path, with_cache, handle_names. rewrite Hp.
  destruct (_ !! id) as [p|] eqn:E; [|done].
  destruct (proj2 (cw_known _ Hw _ _ E)) as [ns Hn]. by rewrite Hn, (resolve_path_names _ _ _ Hn).
Qed.

Lemma mirror_new_inv root (os : OS) : mirror_inv (mirror_new root os).
Proof.
  split; [|done]. split; cbn [mr_cache mirror_new symbols_cache_new sc_symbols sc_path_to_id sc_id_to_path sc_next_id].
  - apply st_new_ok.
  - intros p id. rewrite !lookup_singleton_Some. naive_solver.
  - apply lookup_singleton_eq.
  - intros id p. rewrite lookup_singleton_Some. intros [<- <-]. split; [unfold MIRROR_ROOT_ID; lia|by eexists].
  - done.
Qed.

Lemma path_push_absolute (q n : list byte) : is_absolute n = true -> path_push q n = n.
Proof. intros En. unfold path_push. by rewrite En. Qed.

(** How a relative name extends a path: after a separator if there is none. *)
Definition with_slash (q : list byte) : list byte :=
  match last q with
  | Some b => if decide (b = x2f) then q else q ++ [x2f]
  | None => []
  end.

Lemma path_push_relative (q n : list byte) : is_absolute n = false -> path_push q n = with_slash q ++ n.
Proof.
  intros En. unfold path_push, with_slash. rewrite En. destruct (last q); [|done].
  case_decide; [done|]. by rewrite <- app_assoc.
Qed.

Lemma with_slash_app (q j : list byte) : j <> [] -> with_slash (q ++ j) = q ++ with_slash j.
Proof.
  intros Hj. unfold with_slash. rewrite last_app. destruct (last j) as [b|] eqn:El.
  - case_decide; [done|]. by rewrite app_assoc.
  - by apply last_None in El.
Qed.

Lemma with_slash_absolute (q n : list byte) : is_absolute (with_slash q ++ n) = is_absolute q \/ q = [].
Proof.
  destruct q as [|x q]; [by right|left]. unfold with_slash.
  destruct (last (x :: q)) eqn:El; [by case_decide|]. by apply last_None in El.
Qed.

Lemma with_slash_idemp (q : list byte) : with_slash (with_slash q) = with_slash q.
Proof.
  unfold with_slash at 2 3. destruct (last q) as [b|] eqn:El; [|done]. case_decide as Hb.
  - unfold with_slash. rewrite El. by rewrite decide_True.
  - rewrite with_slash_app by done. done.
Qed.

(** [push] is associative, so the path checked by [lookup] is the path of the
    handle it gives out. *)
Lemma path_push_assoc (r j n : list byte) : path_push (path_push r j) n = path_push r (path_push j n).
Proof.
  destruct (is_absolute n) eqn:En; [by rewrite !(path_push_absolute _ n) by done|].
  rewrite !(path_push_relative _ n) by done. destruct (with_slash_absolute j n) as [Hj| ->].
  - destruct (is_absolute j) eqn:Ej; [by rewrite !path_push_absolute|].
    rewrite !path_push_relative by done. destruct j as [|x j]; [|by rewrite with_slash_app, <- app_assoc].
    by rewrite app_nil_r, with_slash_idemp.
  - change (with_slash [] ++ n) with n. by rewrite !path_push_relative, app_nil_r, with_slash_idemp.
Qed.

Lemma join_names_snoc ns n : join_names (ns ++ [n]) = path_push (join_names ns) n.
Proof. unfold join_names. by rewrite foldl_app. Qed.

(** ** Interning a name and inserting a handle *)

Definition intern_cache (t : T) c : Inner :=
  mkSymbolsCacheInner t (sc_path_to_id c) (sc_id_to_path c) (sc_next_id c).

Definition insert_cache (item : list Sym) c : Inner :=
  mkSymbolsCacheInner (sc_symbols c) (<[item := sc_next_id c]> (sc_path_to_id c))
    (<[sc_next_id c := item]> (sc_id_to_path c)) ((sc_next_id c + 1) mod 2 ^ 64).

Lemma intern_inv fs name s t :
  mirror_inv fs -> st_intern name (sc_symbols (mr_cache fs)) = Some (s, t) ->
  let fs' := mr_set_cache (intern_cache t (mr_cache fs)) fs in
  mirror_inv fs' /\ grows fs fs' /\ st_get t s = Some name /\
  forall id, handle_names fs' id = handle_names fs id.
Proof.
  intros [Hw Hp] Hi fs'. pose proof (cw_symbols _ Hw) as Ht.
  assert (forall s2 n2, st_get (sc_symbols (mr_cache fs)) s2 = Some n2 -> st_get t s2 = Some n2) as Hk
    by (intros; by eapply st_intern_keeps).
  assert (grows fs fs') as Hg by (split; [done|done|exact Hk]).
  assert (forall id p, sc_id_to_path (mr_cache fs) !! id = Some p ->
    names_of t p = names_of (sc_symbols (mr_cache fs)) p) as Hn.
  { intros id p E. destruct (proj2 (cw_known _ Hw _ _ E)) as [ns En]. rewrite En. by eapply names_of_keeps. }
  split_and!; [|done|by eapply st_intern_get|].
  - split; [|done]. split; cbn; [by eapply st_intern_ok|exact (cw_inverse _ Hw)|exact (cw_root _ Hw)| |exact (cw_next _ Hw)].
    intros id p E. rewrite (Hn id p E). by apply (cw_known _ Hw).
  - intros id. unfold handle_names. cbn. destruct (_ !! id) as [p|] eqn:E; [|done]. by eapply Hn.
Qed.

Lemma insert_inv fs item ns :
  mirror_inv fs -> sc_path_to_id (mr_cache fs) !! item = None ->
  names_of (sc_symbols (mr_cache fs)) item = Some ns -> sc_next_id (mr_cache fs) < u64_MAX ->
  let fs' := mr_set_cache (insert_cache item (mr_cache fs)) fs in
  let id := sc_next_id (mr_cache fs) in
  mirror_inv fs' /\ grows fs fs' /\ sc_next_id (mr_cache fs') = id + 1 /\ handle_names fs id = None /\
  forall id', handle_names fs' id' = if decide (id' = id) then Some ns else handle_names fs id'.
Proof.
  intros [Hw Hp] Hitem Hns Hlt fs' id.
  assert (1 < id) as Hid.
  { pose proof (cw_known _ Hw _ _ (cw_root _ Hw)) as [? _]. unfold MIRROR_ROOT_ID in *. subst id. lia. }
  assert (sc_id_to_path (mr_cache fs) !! id = None) as Hfresh.
  { destruct (_ !! id) as [p|] eqn:E; [|done]. apply (cw_known _ Hw) in E. subst id. lia. }
  assert (sc_next_id (mr_cache fs') = id + 1) as Hnext.
  { cbn -[Z.pow]. apply Z.mod_small. unfold u64_MAX in Hlt. subst id. lia. }
  split_and!; [|split; cbn; [done|by apply insert_subseteq|done]|done|unfold handle_names; by rewrite Hfresh|].
  - split; [|done]. split; [exact (cw_symbols _ Hw)|..].
    + intros p i. cbn. destruct (decide (p = item)) as [->|Hpi], (decide (i = id)) as [->|Hi];
        rewrite ?lookup_insert_eq, ?(lookup_insert_ne _ item p), ?(lookup_insert_ne _ _ i) by done.
      * done.
      * split; [intros [=]; done|]. intros E. apply (cw_inverse _ Hw) in E. congruence.
      * split; [|intros [=]; done]. intros E. apply (cw_inverse _ Hw) in E. congruence.
      * exact (cw_inverse _ Hw p i).
    + cbn. rewrite lookup_insert_ne by (unfold MIRROR_ROOT_ID; subst id; lia). exact (cw_root _ Hw).
    + intros i p. rewrite Hnext. cbn. destruct (decide (i = id)) as [->|Hi].
      * rewrite lookup_insert_eq. intros [= <-]. split; [lia|]. by exists ns.
      * rewrite lookup_insert_ne by done. intros E. apply (cw_known _ Hw) in E as [? ?]. split; [subst id; lia|done].
    + rewrite Hnext. subst id. lia.
  - intros i. unfold handle_names. cbn. case_decide as Ei; [subst i; by rewrite lookup_insert_eq|].
    by rewrite lookup_insert_ne.
Qed.

(** ** Lookup *)

(** What the checks of a first lookup find, and the system after them. *)
Definition lookup_checks (check_path : bool) (dir_path name : list byte) (os : OS) : result unit nfsstat3 * OS :=
  if check_path then
    let '(e1, os) := os_exists dir_path os in
    if e1 then
      let '(e2, os) := os_exists (path_push dir_path name) os in
      (if e2 then Ok tt else Err NFS3ERR_NOENT, os)
    else (Err NFS3ERR_BADHANDLE, os)
  else (Ok tt, os).

(** What a lookup below the names [ns] does to the table of handles: a known
    name has its handle, a new one gets the next handle if the checks succeed. *)
Definition lookup_names ns (name : list byte) (check_path : bool) fs (r : result Z nfsstat3) fs' : Prop :=
  (exists id, handle_names fs id = Some (ns ++ [name]) /\ r = Ok id /\ mr_os fs' = mr_os fs /\
     forall i, handle_names fs' i = handle_names fs i) \/
  (forall id, handle_names fs id <> Some (ns ++ [name])) /\
  let '(checked, os) := lookup_checks check_path (path_push (mr_root fs) (join_names ns)) name (mr_os fs) in
  mr_os fs' = os /\
  match checked with
  | Err e => r = Err e /\ forall i, handle_names fs' i = handle_names fs i
  | Ok _ => exists id, r = Ok id /\ handle_names fs id = None /\
              forall i, handle_names fs' i = if decide (i = id) then Some (ns ++ [name]) else handle_names fs i
  end.

Definition lookup_post (dirid : Z) (name : list byte) (check_path : bool) fs (r : result Z nfsstat3) fs' : Prop :=
  match handle_names fs dirid with
  | None => r = Err NFS3ERR_BADHANDLE /\ fs' = fs
  | Some ns => lookup_names ns name check_path fs r fs'
  end.

(** What an operation leaves when it gives out at most [n] handles. *)
Record after (n : nat) fs fs' : Prop := {
  af_inv : mirror_inv fs';
  af_grows : grows fs fs';
  af_next : sc_next_id (mr_cache fs') <= sc_next_id (mr_cache fs) + Z.of_nat n;
}.

Lemma item_known fs parent ns name s t :
  mirror_inv fs -> names_of (sc_symbols (mr_cache fs)) parent = Some ns ->
  st_intern name (sc_symbols (mr_cache fs)) = Some (s, t) ->
  (exists id, handle_names fs id = Some (ns ++ [name])) <->
  is_Some (sc_path_to_id (mr_cache fs) !! (parent ++ [s])).
Proof.
  intros Hinv Hn Hi. destruct (intern_inv fs name s t Hinv Hi) as ([Hw' _] & [_ _ Hg] & Hs & Hh).
  assert (names_of t (parent ++ [s]) = Some (ns ++ [name])) as Hitem
    by (apply names_of_app; [by eapply names_of_keeps|done]).
  split.
  - intros [id Hid]. rewrite <- Hh in Hid. unfold handle_names in Hid. cbn in Hid.
    destruct (_ !! id) as [p|] eqn:E; [|done].
    assert (p = parent ++ [s]) as -> by exact (names_of_inj t _ _ _ (cw_symbols _ Hw') Hid Hitem).
    exists id. by apply (cw_inverse _ (proj1 Hinv)).
  - intros [id Hid]. exists id. rewrite <- Hh. unfold handle_names. cbn.
    apply (cw_inverse _ (proj1 Hinv)) in Hid. by rewrite Hid.
Qed.

(** The state after a first lookup that gave out a handle. *)
Lemma insert_after fs t parent s ns name os :
  let fs1 := mr_set_cache (intern_cache t (mr_cache fs)) fs in
  let fs' := mr_set_cache (insert_cache (parent ++ [s]) (intern_cache t (mr_cache fs))) (mr_set_os os fs1) in
  mirror_inv fs1 -> grows fs fs1 -> (forall id, handle_names fs1 id = handle_names fs id) ->
  sc_path_to_id (mr_cache fs) !! (parent ++ [s]) = None -> names_of t parent = Some ns ->
  st_get t s = Some name -> sc_next_id (mr_cache fs) < u64_MAX ->
  after 1 fs fs' /\ handle_names fs (sc_next_id (mr_cache fs)) = None /\
  forall i, handle_names fs' i =
    if decide (i = sc_next_id (mr_cache fs)) then Some (ns ++ [name]) else handle_names fs i.
Proof.
  intros fs1 fs' Hinv1 Hg1 Hh1 Hitem Hpar Hs Hlt.
  destruct (insert_inv (mr_set_os os fs1) (parent ++ [s]) (ns ++ [name])) as (Hi2 & Hg2 & Hn2 & Hf2 & Hh2);
    [exact Hinv1|done|by apply names_of_app|done|].
  split; [|split].
  - split; [exact Hi2|etrans; [by apply grows_os, Hg1|exact Hg2]|].
    change (sc_next_id (mr_cache fs') <= sc_next_id (mr_cache fs) + 1).
    etrans; [apply Z.eq_le_incl, Hn2|done].
  - rewrite <- Hh1. exact Hf2.
  - intros i. etrans; [apply Hh2|]. cbn. case_decide; [done|]. apply Hh1.
Qed.

(** [cache_lookup] below a known path. *)
Lemma cache_lookup_spec parent ns name check_path fs s t :
  mirror_inv fs -> sc_next_id (mr_cache fs) < u64_MAX ->
  names_of (sc_symbols (mr_cache fs)) parent = Some ns ->
  st_intern name (sc_symbols (mr_cache fs)) = Some (s, t) ->
  exists r fs', cache_lookup parent name check_path fs = (Ret r, fs') /\ after 1 fs fs' /\
    mr_iterator_cache fs' = mr_iterator_cache fs /\ lookup_names ns name check_path fs r fs'.
Proof.
  intros Hinv Hlt Hd Ei. pose proof Hinv as [Hw Hp].
  unfold cache_lookup. rewrite Hp. unfold cache_lookup_inner. rewrite Ei. unfold symbols_path_join, SymbolsPath.
  destruct (intern_inv fs name s t Hinv Ei) as (Hinv1 & Hg1 & Hs & Hh1).
  pose proof (item_known fs parent ns name s t Hinv Hd Ei) as Hitem.
  assert (names_of t parent = Some ns) as Hpar by (eapply names_of_keeps; [apply Hg1|exact Hd]).
  change (mkSymbolsCacheInner t (sc_path_to_id (mr_cache fs)) (sc_id_to_path (mr_cache fs)) (sc_next_id (mr_cache fs)))
    with (intern_cache t (mr_cache fs)).
  set (fs1 := mr_set_cache (intern_cache t (mr_cache fs)) fs) in *.
  assert (forall os, after 1 fs (mr_set_os os fs1)) as Hsame
    by (intros os; split; [exact Hinv1|by apply grows_os|cbn; lia]).
  destruct (sc_path_to_id (mr_cache fs) !! (parent ++ [s])) as [id|] eqn:Eitem.
  { eexists _, _. split; [reflexivity|]. split; [exact (Hsame (mr_os fs))|]. split; [done|]. left. exists id.
    split_and!; [|done..|exact Hh1]. rewrite <- Hh1. unfold handle_names. cbn.
    apply (cw_inverse _ Hw) in Eitem. rewrite Eitem. by apply names_of_app. }
  assert (forall id, handle_names fs id <> Some (ns ++ [name])) as Hnew.
  { intros id Hid. destruct (proj1 Hitem) as [? ?]; [by exists id|done]. }
  pose proof (fun os => insert_after fs t parent s ns name os Hinv1 Hg1 Hh1 Eitem Hpar Hs Hlt) as Hins.
  unfold lookup_names, lookup_checks, on_sys, on_os, sys, pbind.
  destruct check_path; [rewrite (resolve_path_names _ _ _ Hpar); cbn -[Z.pow];
    destruct (os_exists _ (mr_os fs)) as [[] os1] eqn:E1; cbn -[Z.pow];
    [destruct (os_exists _ os1) as [[] os2] eqn:E2; cbn -[Z.pow]|]|cbn -[Z.pow]].
  - eexists _, _. split; [reflexivity|]. destruct (Hins os2) as (Ha & Hnone & Hh).
    split; [exact Ha|]. split; [done|]. right. split; [done|]. split; [done|]. eauto.
  - eexists _, _. split; [reflexivity|]. split; [apply (Hsame os2)|]. split; [done|]. right. by split_and!.
  - eexists _, _. split; [reflexivity|]. split; [apply (Hsame os1)|]. split; [done|]. right. by split_and!.
  - eexists _, _. split; [reflexivity|]. destruct (Hins (mr_os fs)) as (Ha & Hnone & Hh).
    split; [exact Ha|]. split; [done|]. right. split; [done|]. split; [done|]. eauto.
Qed.

Lemma lookup_by_id_spec dirid name check_path fs :
  mirror_inv fs -> sc_next_id (mr_cache fs) < u64_MAX ->
  st_intern name (sc_symbols (mr_cache fs)) <> None ->
  exists r fs', lookup_by_id dirid name check_path fs = (Ret r, fs') /\ after 1 fs fs' /\
    mr_iterator_cache fs' = mr_iterator_cache fs /\ lookup_post dirid name check_path fs r fs'.
Proof.
  intros Hinv Hlt Hfull. destruct (st_intern name (sc_symbols (mr_cache fs))) as [[s t]|] eqn:Ei; [|done].
  pose proof Hinv as [Hw Hp]. unfold lookup_by_id, lookup_post, symbols_path, with_cache, tbind, pbind, handle_names.
  rewrite Hp. destruct (sc_id_to_path (mr_cache fs) !! dirid) as [parent|] eqn:Epar; cbn.
  - destruct (proj2 (cw_known _ Hw _ _ Epar)) as [ns Hn]. rewrite Hn. by eapply cache_lookup_spec.
  - eexists _, _. split; [reflexivity|]. split; [split; [done..|lia]|]. by split.
Qed.

(** ** Methods are safe *)

Lemma after_weaken n m fs fs' : after n fs fs' -> (n <= m)%nat -> after m fs fs'.
Proof. intros [Hi Hg Hn] Hm. split; [done..|lia]. Qed.

Lemma after_trans n m fs1 fs2 fs3 : after n fs1 fs2 -> after m fs2 fs3 -> after (n + m) fs1 fs3.
Proof. intros [Hi1 Hg1 Hn1] [Hi2 Hg2 Hn2]. split; [done|by etrans|lia]. Qed.

(** The table of symbols holds [2^32] names at most; a mirror that has seen more
    panics.  The methods are safe as long as there is room. *)
Context (room : forall (t : T) name, st_ok t -> st_intern name t <> None).

Definition safe {A} (n : nat) (m : prog MState A) : Prop :=
  forall fs, mirror_inv fs -> sc_next_id (mr_cache fs) + Z.of_nat n <= u64_MAX ->
  exists a fs', m fs = (Ret a, fs') /\ after n fs fs'.

Lemma safe_pret {A} n (a : A) : safe n (pret a).
Proof. intros fs Hi _. exists a, fs. split; [done|]. split; [done..|lia]. Qed.

Lemma safe_bind {A B} n m (c : prog MState A) (k : A -> prog MState B) :
  safe n c -> (forall a, safe m (k a)) -> safe (n + m) (pbind c k).
Proof.
  intros Hc Hk fs Hi Hn. destruct (Hc fs Hi ltac:(lia)) as (a & fs1 & E1 & H1).
  destruct (Hk a fs1) as (b & fs2 & E2 & H2); [apply H1|pose proof (af_next _ _ _ H1); lia|].
  exists b, fs2. unfold pbind. rewrite E1. split; [done|]. by eapply after_trans.
Qed.

Lemma safe_bind0 {A B} m (c : prog MState A) (k : A -> prog MState B) :
  safe 0 c -> (forall a, safe m (k a)) -> safe m (pbind c k).
Proof. apply (safe_bind 0 m). Qed.

Lemma safe_bind1 {A B} m (c : prog MState A) (k : A -> prog MState B) :
  safe 1 c -> (forall a, safe m (k a)) -> safe (S m) (pbind c k).
Proof. apply (safe_bind 1 m). Qed.

Lemma safe_tbind0 {A B E} m (c : prog MState (result A E)) (k : A -> prog MState (result B E)) :
  safe 0 c -> (forall a, safe m (k a)) -> safe m (tbind c k).
Proof. intros Hc Hk. apply safe_bind0; [done|]. intros [a|e]; [done|apply safe_pret]. Qed.

Lemma safe_tbind1 {A B E} m (c : prog MState (result A E)) (k : A -> prog MState (result B E)) :
  safe 1 c -> (forall a, safe m (k a)) -> safe (S m) (tbind c k).
Proof. intros Hc Hk. apply safe_bind1; [done|]. intros [a|e]; [done|apply safe_pret]. Qed.

Lemma safe_map_err {A E E'} n (f : E -> E') (c : prog MState (result A E)) : safe n c -> safe n (map_err f c).
Proof.
  intros Hc. rewrite <- (Nat.add_0_r n). apply safe_bind; [done|]. intros r. apply safe_pret.
Qed.

(** A computation on the system that always returns. *)
Definition os_total {A} (c : prog OS A) : Prop := forall os, exists a os', c os = (Ret a, os').

Lemma safe_on_os {A} (c : prog OS A) : os_total c -> safe 0 (on_os c).
Proof.
  intros Hc fs Hi _. destruct (Hc (mr_os fs)) as (a & os & E). exists a, (mr_set_os os fs).
  unfold on_os. rewrite E. split; [done|]. split; [done|by apply grows_os|cbn; lia].
Qed.

Lemma os_total_sys {A} (c : OS -> A * OS) : os_total (sys c).
Proof. intros os. unfold sys. destruct (c os) as [a os']. by exists a, os'. Qed.

Lemma os_total_pret {A} (a : A) : os_total (pret a).
Proof. intros os. by exists a, os. Qed.

Lemma os_total_bind {A B} (c : prog OS A) (k : A -> prog OS B) :
  os_total c -> (forall a, os_total (k a)) -> os_total (pbind c k).
Proof.
  intros Hc Hk os. destruct (Hc os) as (a & os1 & E1). destruct (Hk a os1) as (b & os2 & E2).
  exists b, os2. unfold pbind. by rewrite E1.
Qed.

Lemma safe_on_sys {A} (c : OS -> A * OS) : safe 0 (on_sys c).
Proof. apply safe_on_os, os_total_sys. Qed.

Lemma safe_iterators {A} (k : IteratorCache RD -> A * IteratorCache RD) : safe 0 (iterators k).
Proof.
  intros fs Hi _. unfold iterators. destruct (k (mr_iterator_cache fs)) as [a c]. eexists _, _.
  split; [done|]. split; [done|by split|cbn; lia].
Qed.

Lemma safe_lookup_by_id dirid name check_path : safe 1 (lookup_by_id dirid name check_path).
Proof.
  intros fs Hi Hn. destruct (lookup_by_id_spec dirid name check_path fs Hi) as (r & fs' & E & Ha & _);
    [lia|apply room, Hi|]. by exists r, fs'.
Qed.

Lemma safe_mirror_path id : safe 0 (mirror_path id).
Proof.
  intros fs Hi _. eexists _, _. split; [by apply mirror_path_names|]. split; [done..|lia].
Qed.

Lemma os_total_path_setattr (q : list byte) setattr : os_total (path_setattr q setattr).
Proof.
  assert (forall A B E (c : prog OS (result A E)) (k : A -> prog OS (result B E)),
    os_total c -> (forall a, os_total (k a)) -> os_total (tbind c k)) as Ht.
  { intros A B E c k Hc Hk. apply os_total_bind; [done|]. intros [a|e]; [done|apply os_total_pret]. }
  unfold path_setattr. repeat (apply os_total_bind; [|intros]);
    unfold path_set_atime, path_set_mtime, path_set_mode, path_set_size, map_err; case_match;
    repeat first [apply Ht; [|intros] | apply os_total_bind; [|intros] | apply os_total_sys | apply os_total_pret].
Qed.
End laws.

(** Walk through a method: each call is safe, and so is what follows it. *)
Ltac safe_step :=
  match goal with
  | |- forall _, _ => intro
  | |- safe _ (match ?x with _ => _ end) => destruct x
  | |- safe _ (pret _) => apply safe_pret
  | |- safe _ (map_err _ _) => apply safe_map_err
  | |- safe _ (on_sys _) => apply safe_on_sys
  | |- safe _ (iterators _) => apply safe_iterators
  | |- safe _ (mirror_path _) => apply safe_mirror_path
  | |- safe 1 (lookup_by_id _ _ _) => by apply safe_lookup_by_id
  | |- safe _ (tbind (lookup_by_id _ _ _) _) => apply safe_tbind1
  | |- safe _ (pbind (lookup_by_id _ _ _) _) => apply safe_bind1
  | |- safe _ (tbind _ _) => apply safe_tbind0
  | |- safe _ (pbind _ _) => apply safe_bind0
  end.
Ltac safe_method := repeat (cbv zeta; safe_step).

Section methods.
Context {T Sym OS RD F : Type} `{!SymbolTable T Sym} `{Countable Sym} `{!Os OS RD F}.
Context `{!SymbolTableLaws T Sym}.
Context (room : forall (t : T) name, st_ok t -> st_intern name t <> None).
Local Abbreviation MState := (@MirrorFs T Sym OS RD _ _).

Lemma safe_getattr id : safe 0 (mirror_getattr id : prog MState _).
Proof. unfold mirror_getattr. safe_method. Qed.

Lemma safe_setattr id setattr : safe 0 (mirror_setattr id setattr : prog MState _).
Proof.
  unfold mirror_setattr. safe_method; [apply safe_on_os, os_total_path_setattr|apply safe_getattr].
Qed.

Lemma safe_create_file (p : list byte) size : safe 0 (create_file p size : prog MState _).
Proof. unfold create_file. safe_method. Qed.

Lemma safe_write_at (p : list byte) offset data : safe 0 (write_at p offset data : prog MState _).
Proof. unfold write_at. safe_method. Qed.

Lemma safe_read_path (p : list byte) offset count : safe 0 (mirror_read_path p offset count : prog MState _).
Proof. unfold mirror_read_path. safe_method. Qed.

Lemma safe_rename_check_target m (p : list byte) : safe 0 (rename_check_target m p : prog MState _).
Proof. unfold rename_check_target. safe_method. Qed.

(** ** The directory iterators *)

Implicit Types fs : MState.

Lemma next_entry_unfold (it : @MirrorFsIterator RD) rd :
  mi_read_dir it = Some rd ->
  next_entry_common it =
    (do* (r, read_dir) := on_sys (os_next_entry rd) in
     let it := @mkMirrorFsIterator RD (mi_dirid it) (Some read_dir) (mi_cookie it) in
     match r with
     | Ok (Some name) =>
         do* handle := lookup_by_id (mi_dirid it) name false in
         match handle with
         | Err e => pret (NextErr e, it)
         | Ok handle =>
             if mi_cookie it + 1 <=? u64_MAX then
               let cookie := mi_cookie it + 1 in
               pret (NextOk (handle, name, cookie), mkMirrorFsIterator (mi_dirid it) (mi_read_dir it) cookie)
             else ppanic
         end
     | Ok None => pret (NextEof, mkMirrorFsIterator (mi_dirid it) None (mi_cookie it))
     | Err _ => pret (NextErr NFS3ERR_IO, it)
     end : prog MState _).
Proof. intros E. unfold next_entry_common. by rewrite E. Qed.

(** What [next] returns: an entry has the next cookie and a handle that is
    known from then on. *)
Definition next_post (it : @MirrorFsIterator RD) fs' (r : NextResult (Z * list byte * u64))
  (it' : @MirrorFsIterator RD) : Prop :=
  match r with
  | NextOk (id, name, cookie) =>
      cookie = mi_cookie it + 1 /\ mi_cookie it' = cookie /\ is_Some (mi_read_dir it') /\
      is_Some (handle_names fs' id)
  | NextEof => mi_read_dir it' = None
  | NextErr _ => mi_read_dir it' <> None /\ mi_cookie it' = mi_cookie it
  end.

Lemma safe_next_entry (it : @MirrorFsIterator RD) fs :
  mirror_inv fs -> sc_next_id (mr_cache fs) < u64_MAX -> mi_cookie it < u64_MAX ->
  exists r it' fs', next_entry_common it fs = (Ret (r, it'), fs') /\ after 1 fs fs' /\
    mr_iterator_cache fs' = mr_iterator_cache fs /\ mi_dirid it' = mi_dirid it /\ next_post it fs' r it'.
Proof.
  intros Hi Hn Hc. destruct (mi_read_dir it) as [rd|] eqn:E; cycle 1.
  { unfold next_entry_common. rewrite E. exists NextEof, it, fs. by split_and!; [|split; [done..|lia]|..]. }
  rewrite (next_entry_unfold it rd E). unfold on_sys, on_os, sys, pbind at 1.
  destruct (os_next_entry rd (mr_os fs)) as [[r rd'] os] eqn:En.
  assert (after 0 fs (mr_set_os os fs)) as Ha0 by (split; [done|by apply grows_os|cbn; lia]).
  destruct r as [[name|]|e]; cbn -[u64_MAX].
  2: { eexists _, _, _. split; [reflexivity|]. by split_and!; [eapply after_weaken; [exact Ha0|lia]|..]. }
  2: { eexists _, _, _. split; [reflexivity|]. by split_and!; [eapply after_weaken; [exact Ha0|lia]|..]. }
  destruct (lookup_by_id_spec (mi_dirid it) name false (mr_set_os os fs)) as (r & fs' & El & Ha & Hic & Hp);
    [done|done|by apply room, Hi|].
  unfold pbind. rewrite El. assert (after 1 fs fs') as Ha1 by exact (after_trans 0 1 _ _ _ Ha0 Ha).
  destruct r as [id|e].
  - rewrite (proj2 (Z.leb_le _ _)) by lia. eexists _, _, _. split; [reflexivity|]. split_and!; [done..|].
    assert (is_Some (handle_names fs' id)) as Hk; [|by split_and!; [..|by eexists|]].
    unfold lookup_post in Hp. destruct (handle_names _ (mi_dirid it)) as [ns|]; [|by destruct Hp].
    destruct Hp as [(id' & Hk & [= ->] & _ & Hh)|(_ & Hp)].
    + rewrite Hh. by eexists.
    + cbn in Hp. destruct Hp as (_ & id' & [= ->] & _ & Hh). rewrite Hh, decide_True by done. by eexists.
  - eexists _, _, _. split; [reflexivity|]. by split_and!.
Qed.

(** The loop of READDIRPLUS makes one turn: the handle of an entry is known. *)
Lemma readdirplus_next_total (it : @MirrorFsIterator RD) fs :
  mirror_inv fs -> sc_next_id (mr_cache fs) < u64_MAX -> mi_cookie it < u64_MAX ->
  exists r it' fs', readdirplus_next readdirplus_fuel it fs = (Ret (r, it'), fs') /\ after 1 fs fs'.
Proof.
  intros Hi Hn Hc. destruct (safe_next_entry it fs Hi Hn Hc) as (r & it' & fs' & E & Ha & _ & _ & Hp).
  unfold readdirplus_fuel, readdirplus_next, readdirplus_turn, pbind. rewrite E.
  destruct r as [[[id name] cookie]| |e]; cbn; [|by eexists _, _, _..].
  destruct Hp as (_ & _ & _ & ns & Hns). rewrite mirror_path_names by apply Ha. rewrite Hns.
  destruct (safe_on_sys (os_symlink_metadata (path_push (mr_root fs') (join_names ns))) fs') as (md & fs2 & Em & Ha2);
    [apply Ha|pose proof (cw_next _ (proj1 (af_inv _ _ _ Ha))); lia|].
  rewrite Em. eexists _, _, _. split; [reflexivity|]. exact (after_trans 1 0 _ _ _ Ha Ha2).
Qed.

Lemma safe_iter_drop (it : @MirrorFsIterator RD) : safe 0 (mirror_iter_drop it : prog MState _).
Proof. unfold mirror_iter_drop. safe_method. Qed.

Lemma safe_get_or_create dirid cookie : safe 0 (get_or_create_iterator dirid cookie : prog MState _).
Proof. unfold get_or_create_iterator, initialize_read_dir. safe_method. Qed.

(** A lookup that does not check the path gives the name a handle. *)
Lemma lookup_unchecked dirid name ns fs :
  mirror_inv fs -> sc_next_id (mr_cache fs) < u64_MAX -> handle_names fs dirid = Some ns ->
  exists id fs', lookup_by_id dirid name false fs = (Ret (Ok id), fs') /\ after 1 fs fs' /\
    mr_os fs' = mr_os fs /\ handle_names fs' id = Some (ns ++ [name]).
Proof.
  intros Hi Hn Hd. destruct (lookup_by_id_spec dirid name false fs) as (r & fs' & E & Ha & _ & Hp);
    [done|done|by apply room, Hi|].
  unfold lookup_post in Hp. rewrite Hd in Hp. destruct Hp as [(id & Hk & -> & Ho & Hh)|(_ & Hp)].
  - exists id, fs'. by rewrite Hh.
  - cbn in Hp. destruct Hp as (Ho & id & -> & _ & Hh). exists id, fs'. by rewrite Hh, decide_True.
Qed.

(** An entry of the stream in full. *)
Lemma next_entry_name (it : @MirrorFsIterator RD) rd rd' os name ns fs :
  mirror_inv fs -> sc_next_id (mr_cache fs) < u64_MAX -> mi_cookie it < u64_MAX ->
  mi_read_dir it = Some rd -> os_next_entry rd (mr_os fs) = ((Ok (Some name), rd'), os) ->
  handle_names fs (mi_dirid it) = Some ns ->
  exists id fs', next_entry_common it fs =
      (Ret (NextOk (id, name, mi_cookie it + 1),
            mkMirrorFsIterator (mi_dirid it) (Some rd') (mi_cookie it + 1)), fs') /\
    after 1 fs fs' /\ mr_os fs' = os /\ handle_names fs' id = Some (ns ++ [name]).
Proof.
  intros Hi Hn Hc E En Hd. rewrite (next_entry_unfold it rd E). unfold on_sys, on_os, sys, pbind at 1.
  rewrite En. cbn -[u64_MAX].
  assert (after 0 fs (mr_set_os os fs)) as Ha0 by (split; [done|by apply grows_os|cbn; lia]).
  destruct (lookup_unchecked (mi_dirid it) name ns (mr_set_os os fs)) as (id & fs' & El & Ha & Ho & Hh); [done..|].
  unfold pbind. rewrite El, (proj2 (Z.leb_le _ _)) by lia. exists id, fs'. split; [done|].
  split; [exact (after_trans 0 1 _ _ _ Ha0 Ha)|done].
Qed.
End methods.

(** ** Computations that leave the iterator cache alone *)

Section frame.
Context {T Sym OS RD F : Type} `{!SymbolTable T Sym} `{Countable Sym} `{!Os OS RD F}.
Local Abbreviation MState := (@MirrorFs T Sym OS RD _ _).
Implicit Types fs : MState.

Definition frame {A} (m : prog MState A) : Prop := forall fs, mr_iterator_cache (snd (m fs)) = mr_iterator_cache fs.

Lemma frame_bind {A B} (m : prog MState A) (k : A -> prog MState B) :
  frame m -> (forall a, frame (k a)) -> frame (pbind m k).
Proof.
  intros Hm Hk fs. unfold pbind. specialize (Hm fs). destruct (m fs) as [[a| |] fs1]; [|done..].
  by rewrite Hk.
Qed.

Lemma frame_pret {A} (a : A) : frame (pret a).
Proof. done. Qed.

Lemma frame_on_os {A} (c : prog OS A) : frame (on_os c).
Proof. intros fs. unfold on_os. by destruct (c (mr_os fs)). Qed.

Lemma frame_with_cache {A} (k : SymbolsCacheInner -> outcome A) : frame (with_cache k).
Proof. intros fs. unfold with_cache. by case_match. Qed.

Lemma frame_cache_lookup_inner parent name check_path : frame (cache_lookup_inner parent name check_path).
Proof.
  intros fs. unfold cache_lookup_inner. destruct (st_intern _ _) as [[s t]|]; [|done].
  cbv zeta. destruct (_ !! symbols_path_join parent s); [done|].
  etrans; [apply frame_bind|done].
  - destruct check_path; [|done]. destruct (resolve_path _ _); try done. apply frame_bind; [apply frame_on_os|].
    intros []; [|done]. apply frame_bind; [apply frame_on_os|done].
  - by intros [u|e].
Qed.

Lemma frame_cache_lookup parent name check_path : frame (cache_lookup parent name check_path).
Proof.
  intros fs. unfold cache_lookup. destruct (mr_poisoned fs); [done|].
  pose proof (frame_cache_lookup_inner parent name check_path fs) as E.
  by destruct (cache_lookup_inner parent name check_path fs) as [[r| |] fs'].
Qed.

Lemma frame_mirror_path id : frame (mirror_path id).
Proof. intros fs. apply frame_bind; [apply frame_with_cache|]. by intros [p|e]. Qed.

Lemma frame_getattr id : frame (mirror_getattr id).
Proof.
  apply frame_bind; [apply frame_mirror_path|]. intros [p|e]; [|done].
  apply frame_bind; [apply frame_bind; [apply frame_on_os|done]|]. by intros [m|e].
Qed.

Lemma frame_next_entry (it : @MirrorFsIterator RD) : frame (next_entry_common it).
Proof.
  unfold next_entry_common. destruct (mi_read_dir it) as [rd|]; [|done].
  apply frame_bind; [apply frame_on_os|]. intros [[[name|]|e] rd']; [|done..].
  apply frame_bind; [apply frame_bind; [apply frame_with_cache|]|].
  - intros [p|e]; [apply frame_cache_lookup|done].
  - intros [id|e]; [|done]. cbv zeta. by case_match.
Qed.

(** An entry is the next cookie, and the iterator stays on its directory. *)
Lemma next_entry_ok_inv (it it' : @MirrorFsIterator RD) fs fs' id name cookie :
  next_entry_common it fs = (Ret (NextOk (id, name, cookie), it'), fs') ->
  cookie = mi_cookie it + 1 /\ mi_cookie it' = cookie /\ mi_dirid it' = mi_dirid it /\
  is_Some (mi_read_dir it') /\ mr_iterator_cache fs' = mr_iterator_cache fs.
Proof.
  intros E. pose proof (frame_next_entry it fs) as Hf. rewrite E in Hf. cbn in Hf. revert E.
  unfold next_entry_common. destruct (mi_read_dir it) as [rd|]; [|done]. intros E.
  apply pbind_Ret_inv in E as ([[[n|]|e] rd'] & fs1 & _ & E); [|done..].
  apply pbind_Ret_inv in E as ([id'|e] & fs2 & _ & E); [|done]. cbn -[u64_MAX] in E.
  destruct (mi_cookie it + 1 <=? u64_MAX); [|done]. injection E as -> -> <- <- <-. by split_and!; [..|eexists|].
Qed.

Lemma yields_inv (it it' : @MirrorFsIterator RD) fs fs' l :
  yields mirror_readdir_iter it fs l it' fs' ->
  mi_dirid it' = mi_dirid it /\ mr_iterator_cache fs' = mr_iterator_cache fs /\
  mi_cookie it' = default (mi_cookie it) (last (map entry3_cookie l)).
Proof.
  induction 1 as [it fs|it fs e it1 fs1 l it2 fs2 E _ IH]; [done|].
  cbn in E. apply pbind_Ret_inv in E as ([[[[id name] cookie]| |e'] it1'] & fs1' & E & E'); [|done..].
  injection E' as <- <- <-. apply next_entry_ok_inv in E as (-> & Hc & Hd & _ & Hi).
  destruct IH as (Hd2 & Hi2 & Hc2). split_and!; [congruence..|]. rewrite Hc2. cbn [map].
  destruct l as [|e2 l]; [by rewrite Hc|]. cbn [map]. rewrite !last_cons.
  by destruct (last (map entry3_cookie l)).
Qed.

(** Starting a listing adds nothing to the cache. *)
Lemma get_or_create_cached dirid cookie fs it fs' :
  get_or_create_iterator dirid cookie fs = (Ret (Ok it), fs') ->
  mi_dirid it = dirid /\
  forall d info, info ∈ cached (mr_iterator_cache fs') d -> info ∈ cached (mr_iterator_cache fs) d.
Proof.
  unfold get_or_create_iterator. intros E. apply pbind_Ret_inv in E as ([[rd c]|e] & fs1 & E & E'); [|done].
  injection E' as <- <-. split; [done|]. unfold initialize_read_dir in E.
  apply pbind_Ret_inv in E as ([p|e] & fs2 & Ep & E); [|done].
  pose proof (frame_mirror_path dirid fs) as Hf. rewrite Ep in Hf. cbn in Hf. rewrite <- Hf. clear Hf Ep.
  destruct (cookie =? 0).
  - apply pbind_Ret_inv in E as ([m|e] & fs3 & Em & E); [|done].
    pose proof (frame_bind _ _ (frame_on_os (sys (os_symlink_metadata p)))
      (fun r => frame_pret (result_map_err (fun _ => NFS3ERR_NOENT) r)) fs2) as Hf.
    unfold map_err, on_sys in Em. rewrite Em in Hf. cbn in Hf. rewrite <- Hf. clear Hf Em.
    destruct (negb (metadata_is_dir m)); [done|].
    apply pbind_Ret_inv in E as ([rd'|e] & fs4 & Er & E); [|done].
    pose proof (frame_bind _ _ (frame_on_os (sys (os_read_dir p)))
      (fun r => frame_pret (result_map_err (fun _ => NFS3ERR_IO) r)) fs3) as Hf.
    unfold map_err, on_sys in Er. rewrite Er in Hf. cbn in Hf. rewrite <- Hf. clear Hf Er.
    unfold iterators, pbind, pret in E. cbn -[Z.shiftl Z.pow] in E. by injection E as <- <- <-.
  - unfold iterators, pbind, pret in E. cbn in E. pose proof (cached_pop_state dirid cookie (mr_iterator_cache fs2)) as Hp.
    destruct (pop_state dirid cookie (mr_iterator_cache fs2)) as [[i|] c']; [|done].
    injection E as <- <- <-. cbn. destruct Hp as (_ & Hp & Hd). intros d info Hi.
    destruct (decide (d = dirid)) as [->|Hne]; [rewrite Hp; by right|by rewrite <- Hd].
Qed.

(** Resuming needs a stream under the cookie. *)
Lemma get_or_create_resumed dirid cookie fs it fs' :
  get_or_create_iterator dirid cookie fs = (Ret (Ok it), fs') -> cookie <> 0 ->
  exists info, info ∈ cached (mr_iterator_cache fs) dirid /\ ci_cookie info = cookie.
Proof.
  unfold get_or_create_iterator, initialize_read_dir. intros E Hc.
  apply pbind_Ret_inv in E as ([[rd c]|e] & fs1 & E & E'); [clear E'|done].
  apply pbind_Ret_inv in E as ([p|e] & fs2 & Ep & E); [|done].
  pose proof (frame_mirror_path dirid fs) as Hf. rewrite Ep in Hf. cbn in Hf. rewrite <- Hf.
  rewrite (proj2 (Z.eqb_neq _ _) Hc) in E. unfold iterators, pbind, pret in E. cbn in E.
  pose proof (cached_pop_state dirid cookie (mr_iterator_cache fs2)) as Hp.
  destruct (pop_state dirid cookie (mr_iterator_cache fs2)) as [[i|] c']; [|done].
  destruct Hp as (Hi & Hp & _). exists i. split; [rewrite Hp; left|done].
Qed.

(** Dropping an unfinished iterator adds its stream, under its cookie. *)
Lemma iter_drop_cached (it : @MirrorFsIterator RD) fs fs' d info :
  mirror_iter_drop it fs = (Ret tt, fs') -> info ∈ cached (mr_iterator_cache fs') d ->
  info ∈ cached (mr_iterator_cache fs) d \/ d = mi_dirid it /\ ci_cookie info = mi_cookie it.
Proof.
  unfold mirror_iter_drop. destruct (mi_read_dir it) as [rd|]; [|intros [= <-]; by left].
  unfold on_sys, on_os, sys, iterators, pbind. destruct (os_instant_now (mr_os fs)) as [now os]. cbn.
  intros [= <-]. cbn. rewrite cached_cache_state. case_decide as Hd; [subst d|by left]. intros Hi.
  destruct (trim_iterators_sub (ic_max_cached_per_dir (mr_iterator_cache fs))
    (cached (mr_iterator_cache fs) (mi_dirid it) ++ [mkCached (mi_cookie it) now rd])) as (dropped & Hp & _).
  assert (info ∈ cached (mr_iterator_cache fs) (mi_dirid it) ++ [mkCached (mi_cookie it) now rd]) as Hin
    by (rewrite Hp; apply elem_of_app; by right).
  apply elem_of_app in Hin as [Hin|Hin]; [by left|]. apply list_elem_of_singleton in Hin as ->. by right.
Qed.
End frame.
