(* ===== verification/MirrorProperties.v ===== *)
(** * Properties of the mirror file system

    [mirror_step] is one operation of a running mirror: a method, a turn or the
    end of a directory iterator, the timer, or anything another process does to
    the file system.  The theorems hold after any number of them. *)

From S2P Require Import Prelude Xdr XdrLaws Nfs3Types Handle Vfs FsUtil IteratorCache Mirror.
From S2P Require Import NfsExt NfsHandlers NfsHandlersLaws MirrorLaws.
Open Scope Z_scope.
Open Scope nfs_scope.

Section properties.
Context {T Sym OS RD F : Type} `{!SymbolTable T Sym} `{Countable Sym} `{!Os OS RD F}.
Context `{!SymbolTableLaws T Sym}.
Local Abbreviation MState := (@MirrorFs T Sym OS RD _ _).
Implicit Types (fs : MState) (ns : list (list byte)).

(** ** Operations *)

Inductive MirrorOp : Type :=
| MrLookup (dirid : Z) (name : filename3)
| MrGetattr (id : Z)
| MrRead (id : Z) (offset : u64) (count : u32)
| MrReadlink (id : Z)
| MrReaddir (dirid : Z) (cookie : u64)
| MrNext (it : @MirrorFsIterator RD)
| MrNextPlus (it : @MirrorFsIterator RD)
| MrDrop (it : @MirrorFsIterator RD)
| MrSetattr (id : Z) (attr : sattr3)
| MrWrite (id : Z) (offset : u64) (data : list byte)
| MrCreate (dirid : Z) (name : filename3) (attr : sattr3)
| MrCreateExclusive (dirid : Z) (name : filename3) (verf : createverf3)
| MrMkdir (dirid : Z) (name : filename3)
| MrRemove (dirid : Z) (name : filename3)
| MrRename (from_dirid : Z) (from_name : filename3) (to_dirid : Z) (to_name : filename3)
| MrSymlink (dirid : Z) (name : filename3) (target : nfspath3) (attr : sattr3).

Definition ignore {A} (m : prog MState A) : prog MState unit := do* _ := m in pret tt.

Definition run_mirror_op (op : MirrorOp) : prog MState unit :=
  match op with
  | MrLookup dirid name => ignore (mirror_lookup dirid name)
  | MrGetattr id => ignore (mirror_getattr id)
  | MrRead id offset count => ignore (mirror_read id offset count)
  | MrReadlink id => ignore (mirror_readlink id)
  | MrReaddir dirid cookie => ignore (get_or_create_iterator dirid cookie)
  | MrNext it => ignore (next_entry_common it)
  | MrNextPlus it => ignore (readdirplus_next readdirplus_fuel it)
  | MrDrop it => mirror_iter_drop it
  | MrSetattr id attr => ignore (mirror_setattr id attr)
  | MrWrite id offset data => ignore (mirror_write id offset data)
  | MrCreate dirid name attr => ignore (mirror_create dirid name attr)
  | MrCreateExclusive dirid name verf => ignore (mirror_create_exclusive dirid name verf)
  | MrMkdir dirid name => ignore (mirror_mkdir dirid name)
  | MrRemove dirid name => ignore (mirror_remove dirid name)
  | MrRename d1 n1 d2 n2 => ignore (mirror_rename d1 n1 d2 n2)
  | MrSymlink dirid name target attr => ignore (mirror_symlink dirid name target attr)
  end.

(** The cookie of an iterator counts the entries of its listing from a multiple
    of [2^32]; it must not reach [2^64]. *)
Definition mirror_op_ok (op : MirrorOp) : Prop :=
  match op with
  | MrNext it | MrNextPlus it => mi_cookie it < u64_MAX
  | _ => True
  end.

(** Handles are left: fewer than [2^64] paths were looked up. *)
Definition handles_left fs : Prop := sc_next_id (mr_cache fs) + 2 <= u64_MAX.

Inductive mirror_step : MState -> MState -> Prop :=
| MsOp : forall fs op, mirror_op_ok op -> handles_left fs -> mirror_step fs (snd (run_mirror_op op fs))
| MsEnvironment : forall fs os, mirror_step fs (mr_set_os os fs)
| MsCleanup : forall fs now, mirror_step fs (mr_set_iterators (ic_cleanup now (mr_iterator_cache fs)) fs).

Context (room : forall (t : T) name, st_ok t -> st_intern name t <> None).

Lemma safe_ignore {A} n (m : prog MState A) : safe n m -> safe n (ignore m).
Proof. intros Hm. rewrite <- (Nat.add_0_r n). apply safe_bind; [done|]. intros _. apply safe_pret. Qed.

Lemma safe_le {A} n n' (m : prog MState A) : safe n m -> (n <= n')%nat -> safe n' m.
Proof.
  intros Hm Hn fs Hi Hl. destruct (Hm fs Hi) as (a & fs' & E & Ha); [lia|]. exists a, fs'.
  split; [done|]. by eapply after_weaken.
Qed.

Ltac op n := apply (safe_le n); [|lia]; safe_method;
  eauto using safe_getattr, safe_setattr, safe_create_file, safe_write_at, safe_read_path,
    safe_rename_check_target, safe_lookup_by_id, safe_get_or_create, safe_iter_drop.

(** Every operation returns and keeps the invariant. *)
Lemma run_mirror_op_safe op fs :
  mirror_inv fs -> handles_left fs -> mirror_op_ok op ->
  exists fs', run_mirror_op op fs = (Ret tt, fs') /\ after 2 fs fs'.
Proof.
  intros Hi Hl Hop.
  assert (safe 2 (run_mirror_op op) -> exists fs', run_mirror_op op fs = (Ret tt, fs') /\ after 2 fs fs') as Hs.
  { intros Hs. destruct (Hs fs Hi Hl) as ([] & fs' & E & Ha). by exists fs'. }
  unfold handles_left in Hl. destruct op; cbn in Hop.
  6: { destruct (safe_next_entry room it fs Hi) as (r & it' & fs' & E & Ha & _); [lia..|]. exists fs'.
       cbn. unfold ignore, pbind. rewrite E. split; [done|]. eapply after_weaken; [done|lia]. }
  6: { destruct (readdirplus_next_total room it fs Hi) as (r & it' & fs' & E & Ha); [lia..|]. exists fs'.
       unfold run_mirror_op, ignore, pbind. rewrite E. split; [done|]. eapply after_weaken; [done|lia]. }
  all: apply Hs; unfold run_mirror_op; try apply safe_ignore.
  - op 1%nat.
  - op 0%nat.
  - unfold mirror_read. op 0%nat.
  - unfold mirror_readlink. op 0%nat.
  - op 0%nat.
  - op 0%nat.
  - op 0%nat.
  - unfold mirror_write. op 0%nat.
  - unfold mirror_create. op 1%nat.
  - unfold mirror_create_exclusive. op 1%nat.
  - unfold mirror_mkdir. op 1%nat.
  - unfold mirror_remove. op 0%nat.
  - unfold mirror_rename. op 2%nat.
  - unfold mirror_symlink. op 1%nat.
Qed.

Lemma mirror_step_inv fs fs' : mirror_inv fs -> mirror_step fs fs' -> mirror_inv fs' /\ grows fs fs'.
Proof.
  intros Hi Hs. destruct Hs as [fs op Hop Hl|fs os|fs now].
  - destruct (run_mirror_op_safe op fs Hi Hl Hop) as (fs' & E & Ha). rewrite E. split; apply Ha.
  - split; [done|by apply grows_os].
  - split; [done|by split].
Qed.

Lemma mirror_steps_inv fs fs' : mirror_inv fs -> rtc mirror_step fs fs' -> mirror_inv fs' /\ grows fs fs'.
Proof.
  intros Hi Hs. induction Hs as [fs|fs1 fs2 fs3 H1 _ IH]; [done|].
  destruct (mirror_step_inv _ _ Hi H1) as [Hi2 Hg2]. destruct (IH Hi2) as [Hi3 Hg3].
  split; [done|by etrans].
Qed.

(** ** Handles *)

(** C20: Handles are stable and unambiguous: once a handle stands for a path it
    stands for it whatever methods, listings and other processes do, no two
    handles stand for the same list of names, the root handle stands for the
    exported directory, and the path of a handle is the root with its names
    pushed one by one; other handles are refused with NFS3ERR_BADHANDLE. *)
Theorem mirror_handles_stable root os fs fs' :
  rtc mirror_step (mirror_new root os) fs -> rtc mirror_step fs fs' ->
  (forall id ns, handle_names fs id = Some ns -> handle_names fs' id = Some ns) /\
  (forall id1 id2 ns, handle_names fs' id1 = Some ns -> handle_names fs' id2 = Some ns -> id1 = id2) /\
  handle_names fs' MIRROR_ROOT_ID = Some [] /\
  forall id, mirror_path id fs' =
    (Ret (match handle_names fs' id with
          | Some ns => Ok (path_push root (join_names ns))
          | None => Err NFS3ERR_BADHANDLE
          end), fs').
Proof.
  intros H1 H2. destruct (mirror_steps_inv _ _ (mirror_new_inv root os) H1) as [Hi1 Hg1].
  destruct (mirror_steps_inv _ _ Hi1 H2) as [Hi2 Hg2]. split_and!.
  - intros id ns. by apply handle_names_grows.
  - intros id1 id2 ns. by apply handle_names_inj.
  - unfold handle_names. by rewrite (cw_root _ (proj1 Hi2)).
  - intros id. rewrite mirror_path_names by done. by rewrite (gr_root _ _ Hg2), (gr_root _ _ Hg1).
Qed.

(** C21: No operation panics or runs out of fuel: while the symbol table has room
    and handles are left, every method, every turn of an iterator and its end
    return, whatever the system calls return, in every state that methods,
    listings, the timer and other processes lead to. *)
Theorem mirror_never_panics root os fs op :
  rtc mirror_step (mirror_new root os) fs -> mirror_op_ok op -> handles_left fs ->
  exists fs', run_mirror_op op fs = (Ret tt, fs').
Proof.
  intros Hr Hop Hl. destruct (mirror_steps_inv _ _ (mirror_new_inv root os) Hr) as [Hi _].
  destruct (run_mirror_op_safe op fs Hi Hl Hop) as (fs' & E & _). by exists fs'.
Qed.

(** ** Lookup *)

(** C22: LOOKUP implements a table of handles: below a known directory a known name
    gives its handle without a system call, and a new name gets a fresh handle
    exactly if the directory and then the name exist (NFS3ERR_BADHANDLE and
    NFS3ERR_NOENT otherwise, with the table unchanged); an unknown directory is
    refused. The handle's path is the directory's path with the name pushed. *)
Theorem mirror_lookup_correct root os fs dirid name :
  rtc mirror_step (mirror_new root os) fs -> handles_left fs ->
  exists r fs', mirror_lookup dirid name fs = (Ret r, fs') /\ lookup_post dirid name true fs r fs' /\
    forall id dir_path, r = Ok id -> mirror_path dirid fs = (Ret (Ok dir_path), fs) ->
      mirror_path id fs' = (Ret (Ok (path_push dir_path name)), fs').
Proof.
  intros Hr Hl. destruct (mirror_steps_inv _ _ (mirror_new_inv root os) Hr) as [Hi _].
  destruct (lookup_by_id_spec dirid name true fs Hi) as (r & fs' & E & Ha & _ & Hp);
    [unfold handles_left in Hl; lia|apply room, Hi|].
  exists r, fs'. split_and!; [done..|]. intros id dir_path -> Hd. rewrite mirror_path_names in Hd by done.
  unfold lookup_post in Hp. destruct (handle_names fs dirid) as [ns|]; [|done].
  injection Hd as <-. rewrite mirror_path_names by apply Ha.
  assert (handle_names fs' id = Some (ns ++ [name])) as ->.
  { destruct Hp as [(id' & Hk & [= ->] & _ & Hh)|(_ & Hp)]; [by rewrite Hh|].
    destruct (lookup_checks _ _ _ _) as [[u|e] os']; destruct Hp as (_ & Hp); [|by destruct Hp].
    destruct Hp as (id' & [= ->] & _ & Hh). by rewrite Hh, decide_True. }
  by rewrite join_names_snoc, path_push_assoc, (gr_root _ _ (af_grows _ _ _ Ha)).
Qed.

(** ** Paths *)

(** A name that is one component of a path and no other. *)
Definition plain_name (name : list byte) : Prop :=
  name <> [] /\ (x2f ∉ name) /\ name <> [x2e] /\ name <> [x2e; x2e].

Lemma plain_relative name : plain_name name -> is_absolute name = false.
Proof.
  intros (Hne & Hs & _). destruct name as [|b name]; [done|]. cbn. apply bool_decide_eq_false.
  intros ->. apply Hs. left.
Qed.

Lemma plain_with_slash q name : plain_name name -> with_slash (q ++ name) = q ++ name ++ [x2f].
Proof.
  intros (Hne & Hs & _). unfold with_slash. rewrite last_app.
  destruct (last name) as [b|] eqn:El; [|by apply last_None in El].
  rewrite decide_False; [by rewrite <- app_assoc|]. intros ->. apply Hs.
  apply last_Some in El as [l ->]. apply elem_of_app. right. left.
Qed.

Lemma join_plain_names q ns :
  Forall plain_name ns ->
  foldl path_push q ns = match ns with
                         | [] => q
                         | n :: rest => with_slash q ++ n ++ concat (map (cons x2f) rest)
                         end.
Proof.
  intros Hns. revert q. induction Hns as [|n ns Hn Hns IH]; intros q; cbn [foldl]; [done|].
  rewrite IH, path_push_relative by by apply plain_relative. destruct ns as [|n2 ns]; cbn.
  - by rewrite !app_nil_r.
  - rewrite plain_with_slash by done. by rewrite <- !app_assoc.
Qed.

(** Clients that use plain names stay inside the export: the path of a handle
    reached by names without separators, none of them "." or "..", is the root
    followed by exactly these names, each after a separator. *)
Theorem mirror_path_confined root os fs id ns :
  rtc mirror_step (mirror_new root os) fs -> root <> [] -> last root <> Some x2f ->
  handle_names fs id = Some ns -> ns <> [] -> Forall plain_name ns ->
  mirror_path id fs = (Ret (Ok (root ++ concat (map (cons x2f) ns))), fs).
Proof.
  intros Hr Hroot Hlast Hid Hne Hns. destruct (mirror_steps_inv _ _ (mirror_new_inv root os) Hr) as [Hi Hg].
  rewrite mirror_path_names by done. rewrite Hid, (gr_root _ _ Hg). cbn [mr_root mirror_new].
  unfold join_names. rewrite join_plain_names by done. destruct ns as [|n ns]; [done|].
  inversion_clear Hns as [|? ? Hn _]. change (with_slash []) with (@nil byte). cbn [app map concat].
  rewrite path_push_relative; cycle 1.
  { pose proof (plain_relative n Hn). destruct Hn as (? & _). by destruct n. }
  unfold with_slash. destruct (last root) as [b|] eqn:El; [|by apply last_None in El].
  rewrite decide_False by congruence. by rewrite <- app_assoc.
Qed.

(** ** Directory listings *)

(** Successive calls of [next_entry] give the names [l]. *)
Inductive stream_yields : RD -> OS -> list (list byte) -> RD -> OS -> Prop :=
| stream_nil : forall rd os, stream_yields rd os [] rd os
| stream_cons : forall rd os name rd1 os1 l rd2 os2,
    os_next_entry rd os = ((Ok (Some name), rd1), os1) -> stream_yields rd1 os1 l rd2 os2 ->
    stream_yields rd os (name :: l) rd2 os2.

Lemma listing_run (it : @MirrorFsIterator RD) rd names rd' os' ns fs :
  mirror_inv fs -> mi_read_dir it = Some rd -> stream_yields rd (mr_os fs) names rd' os' ->
  handle_names fs (mi_dirid it) = Some ns ->
  sc_next_id (mr_cache fs) + len names <= u64_MAX -> mi_cookie it + len names <= u64_MAX ->
  exists entries fs',
    yields mirror_readdir_iter it fs entries
      (mkMirrorFsIterator (mi_dirid it) (Some rd') (mi_cookie it + len names)) fs' /\
    mirror_inv fs' /\ grows fs fs' /\ mr_os fs' = os' /\ map entry3_name entries = names /\
    map entry3_cookie entries = seqZ (mi_cookie it + 1) (len names) /\
    Forall (fun e => handle_names fs' (entry3_fileid e) = Some (ns ++ [entry3_name e])) entries.
Proof.
  intros Hi Hrd Hs. revert it Hrd. remember (mr_os fs) as os eqn:Eos. revert fs Hi Eos.
  induction Hs as [rd os|rd os name rd1 os1 l rd2 os2 En Hs IH]; intros fs Hi -> it Hrd Hd Hn Hc.
  - exists [], fs. cbn. rewrite Z.add_0_r. destruct it as [d r c]. cbn in Hrd. subst r.
    split_and!; [constructor|apply Hi..|done|done|done|done|constructor].
  - unfold len in Hn, Hc. cbn [length] in Hn, Hc.
    destruct (next_entry_name room it rd rd1 os1 name ns fs) as (id & fs1 & E & Ha & Ho & Hid); [done|lia|lia|done..|].
    pose proof (af_next _ _ _ Ha) as Hn1.
    destruct (IH fs1 (af_inv _ _ _ Ha) (eq_sym Ho) (mkMirrorFsIterator (mi_dirid it) (Some rd1) (mi_cookie it + 1)))
      as (entries & fs2 & Hy & Hi2 & Hg2 & Ho2 & Hnames & Hcookies & Hf);
      [done|eapply handle_names_grows; [apply Ha|done]|unfold len; lia|cbn; unfold len; lia|].
    cbn [mi_dirid mi_cookie] in *. exists (mk_entry3 id name (mi_cookie it + 1) :: entries), fs2.
    replace (mi_cookie it + len (name :: l)) with (mi_cookie it + 1 + len l) by (unfold len; cbn [length]; lia).
    split_and!; [|apply Hi2..|etrans; [apply Ha|done]|done|cbn; by rewrite Hnames| |].
    + econstructor; [|done]. cbn. unfold pbind. by rewrite E.
    + cbn [map entry3_cookie]. rewrite Hcookies, (seqZ_cons (mi_cookie it + 1)) by (unfold len; cbn; lia).
      f_equal. f_equal; unfold len; cbn [length]; lia.
    + constructor; [cbn; by eapply handle_names_grows|done].
Qed.

(** C29: A listing returns the directory: if the stream of the directory has the
    names [names] and then ends, the iterator yields one entry for each, in this
    order, with consecutive cookies after the one it starts from and with the
    handle of the name in the directory, and then reports the end. *)
Theorem mirror_listing_complete root os fs (it : @MirrorFsIterator RD) rd names rd' os' rd'' os'' ns :
  rtc mirror_step (mirror_new root os) fs ->
  mi_read_dir it = Some rd -> stream_yields rd (mr_os fs) names rd' os' ->
  os_next_entry rd' os' = ((Ok None, rd''), os'') ->
  handle_names fs (mi_dirid it) = Some ns ->
  sc_next_id (mr_cache fs) + len names <= u64_MAX -> mi_cookie it + len names <= u64_MAX ->
  exists entries it1 fs1 it2 fs2,
    yields mirror_readdir_iter it fs entries it1 fs1 /\
    it_next mirror_readdir_iter it1 fs1 = (Ret (NextEof, it2), fs2) /\ mi_read_dir it2 = None /\
    map entry3_name entries = names /\
    map entry3_cookie entries = seqZ (mi_cookie it + 1) (len names) /\
    Forall (fun e => handle_names fs2 (entry3_fileid e) = Some (ns ++ [entry3_name e])) entries.
Proof.
  intros Hr Hrd Hs Hend Hd Hn Hc. destruct (mirror_steps_inv _ _ (mirror_new_inv root os) Hr) as [Hi _].
  destruct (listing_run it rd names rd' os' ns fs) as (entries & fs1 & Hy & Hi1 & Hg & Ho & Hns & Hcs & Hf); [done..|].
  eexists entries, _, fs1, _, _. split; [exact Hy|]. cbn. unfold next_entry_common. cbn [mi_read_dir].
  unfold on_sys, on_os, sys, pbind. rewrite Ho, Hend. by split_and!.
Qed.

(** A truncated listing cannot be resumed. READDIR pulls the entry that does
    not fit before it stops; the iterator then keeps its stream under the cookie
    of that entry, which the client never sees. With the cookie of the last
    entry it was given, a client gets no listing: unless another stream of the
    directory happens to have that cookie, the call fails. *)
Theorem mirror_paging_lost `{Target} fhc xid args dirid resok cookie fs fs' :
  nfsproc3_readdir mirror_file_system fhc xid args fs = (Ret (NfsOk resok), fs') ->
  fh_from_nfs fhc (READDIR3args_dir args) = Ok dirid ->
  dirlist3_eof (READDIR3resok_reply resok) = false ->
  last (map entry3_cookie (dirlist3_entries (READDIR3resok_reply resok))) = Some cookie -> cookie <> 0 ->
  (forall info, info ∈ cached (mr_iterator_cache fs) (fh64_as_u64 dirid) -> ci_cookie info <> cookie) ->
  forall it fs'', vfs_readdir (NfsReadFileSystem := nfs_read_fs (NfsFileSystem := mirror_file_system)) dirid cookie fs' <>
    (Ret (Ok it), fs'').
Proof.
  intros Hr Hfh Heof Hlast Hc0 Hfree it fs''.
  destruct (readdir_ok_inv _ _ _ _ _ _ _ Hr) as
    (dirid' & attr & fs1 & s & fs2 & [[l eof] s'] & fs3 & Hh & Hg & HB & Hd & Hf & -> & _ & _ & Hdrop).
  cbn [fst snd dirlist3_eof dirlist3_entries READDIR3resok_reply] in *. subst eof.
  assert (dirid' = dirid) as -> by congruence. clear Hr Hfh Hh.
  set (B := READDIR3args_count args - _) in *.
  pose proof (readdir_fill mirror_readdir_iter B s fs2) as Hfill. cbv zeta in Hfill.
  change (readdir_iter (NfsReadFileSystem := nfs_read_fs (NfsFileSystem := mirror_file_system)))
    with (@mirror_readdir_iter T Sym OS RD F _ _ _ _) in *.
  rewrite Hf in Hfill. cbn [fst snd fill_post] in Hfill.
  destruct Hfill as (es & e & s1 & fs4 & Hy & Hn & _ & Hit & _).
  cbn [bl_list bounded_list_new] in Hit. rewrite map_id in Hit. cbn [app] in Hit. rewrite Hit in Hlast. clear Hit Hf.
  apply yields_inv in Hy as (Hd1 & Hi1 & Hc1). rewrite Hlast in Hc1. cbn in Hc1.
  cbn in Hn. apply pbind_Ret_inv in Hn as ([[[[id name] c]| |e'] s1'] & fs1' & E & E'); [|done..].
  injection E' as _ <- <-. apply next_entry_ok_inv in E as (-> & Hc & Hd2 & [rd Hrd] & Hi2).
  apply get_or_create_cached in Hd as (Hd3 & Hsub).
  assert (mr_iterator_cache fs1 = mr_iterator_cache fs) as Hi3.
  { etrans; [|apply (frame_getattr (fh64_as_u64 dirid) fs)]. f_equal.
    change (fs1 = snd (vfs_getattr (NfsReadFileSystem := nfs_read_fs (NfsFileSystem := mirror_file_system)) dirid fs)).
    by rewrite Hg. }
  intros Hres. apply get_or_create_resumed in Hres as (info & Hinfo & Hci); [|done].
  apply (iter_drop_cached _ _ _ _ _ Hdrop) in Hinfo as [Hinfo|[_ Hci2]]; [|lia].
  rewrite Hi2, Hi1 in Hinfo. apply Hsub in Hinfo. rewrite Hi3 in Hinfo. by apply (Hfree info).
Qed.

(** ** Reading and renaming *)

(** In the system [os] the open file [f] contains [data], and can be read
    anywhere within it. *)
Definition file_contains (f : F) (data : list byte) (os : OS) : Prop :=
  forall start n, 0 <= start -> 0 <= n -> start + n <= len data ->
  exists os1 os2, os_seek f start os = (Ok tt, os1) /\
    os_read_exact f n os1 = (Ok (take (Z.to_nat n) (drop (Z.to_nat start) data)), os2).

(** READ returns the part of the file the client asked for, cut at its end. The
    end of file is reported with the last byte; but a read that starts at or
    after the end, or asks for nothing, reports it only if [count] is at least
    the size of the file. *)
Theorem mirror_read_correct fs id path offset count f os1 data os2 :
  0 <= offset -> 0 <= count -> mirror_path id fs = (Ret (Ok path), fs) ->
  os_open OpenRead path (mr_os fs) = (Ok f, os1) -> os_file_len f os1 = (Ok (len data), os2) ->
  file_contains f data os2 ->
  exists fs', mirror_read id offset count fs =
    (Ret (Ok (take (Z.to_nat count) (drop (Z.to_nat offset) data),
              if (len data <=? offset) || (count =? 0) then len data <=? count
              else len data <=? offset + count)), fs') /\
    forall i, handle_names fs' i = handle_names fs i.
Proof.
  intros Ho Hc Hp Hopen Hlen Hdata.
  unfold mirror_read, mirror_read_path, map_err, tbind, on_sys, on_os, sys, pbind. rewrite Hp, Hopen. cbn.
  rewrite Hlen. cbn. destruct ((len data <=? offset) || (count =? 0)) eqn:Eb; cbn.
  - exists (mr_set_os os2 (mr_set_os os1 fs)). split; [|done]. unfold pret. do 4 f_equal. apply orb_prop in Eb as [E|E].
    + rewrite drop_ge; [by rewrite take_nil|]. apply Z.leb_le in E. unfold len in E. lia.
    + apply Z.eqb_eq in E as ->. done.
  - apply orb_false_iff in Eb as [E1 E2]. apply Z.leb_gt in E1. apply Z.eqb_neq in E2.
    destruct (Hdata offset (Z.min count (len data - offset))) as (os3 & os4 & Es & Er); [lia..|].
    rewrite Es. cbn. rewrite Er. cbn. eexists. split; [unfold pret; do 4 f_equal|by intros i]; cycle 1.
    + apply eq_true_iff_eq. rewrite !Z.leb_le. lia.
    + destruct (Z.min_spec count (len data - offset)) as [[_ ->]|[Hle ->]]; [done|].
      rewrite !take_ge; [done|rewrite length_drop; unfold len in *; lia..].
Qed.

(** What [rename] has seen of its target when it goes ahead. *)
Definition target_replaceable (m : Metadata) (to_path : list byte) (os : OS) : Prop :=
  match os_symlink_metadata to_path os with
  | (Err _, _) => True
  | (Ok m2, os1) =>
      metadata_is_dir m2 = metadata_is_dir m /\
      (metadata_is_dir m2 = true -> exists rd os2 rd' os3,
         os_read_dir to_path os1 = (Ok rd, os2) /\ os_next_entry rd os2 = ((Ok None, rd'), os3))
  end.

Lemma on_sys_inv {A} (c : OS -> A * OS) fs r fs' :
  on_sys c fs = (Ret r, fs') -> exists os, c (mr_os fs) = (r, os) /\ fs' = mr_set_os os fs.
Proof. unfold on_sys, on_os, sys. destruct (c (mr_os fs)) as [a os]. intros [= <- <-]. by eexists. Qed.

Lemma map_err_sys_inv {A} (c : OS -> result A ErrorKind * OS) (f : ErrorKind -> nfsstat3) fs (a : A) fs' :
  map_err f (on_sys c) fs = (Ret (Ok a), fs' : MState) ->
  exists os, c (mr_os fs) = (Ok a : result A ErrorKind, os) /\ fs' = mr_set_os (RD := RD) os fs.
Proof.
  intros E. apply pbind_Ret_inv in E as (r & fs1 & E & E'). destruct r as [a'|e]; [|done].
  injection E' as -> <-. by apply on_sys_inv.
Qed.

Lemma rename_check_target_inv m to_path fs fs' :
  rename_check_target m to_path fs = (Ret (Ok tt), fs') ->
  target_replaceable m to_path (mr_os fs) /\ exists os, fs' = mr_set_os os fs.
Proof.
  unfold rename_check_target, target_replaceable. intros E.
  apply pbind_Ret_inv in E as (r & fs1 & E & E'). apply on_sys_inv in E as (os1 & -> & ->).
  destruct r as [m2|e]; [|injection E' as <-; split; [done|by eexists]].
  destruct (Bool.eqb (metadata_is_dir m) (metadata_is_dir m2)) eqn:Eb; [|done]. apply eqb_prop in Eb.
  cbn in E'. destruct (metadata_is_dir m2) eqn:Ed; [|injection E' as <-; split; [split; [done|intros [=]]|by eexists]].
  apply pbind_Ret_inv in E' as ([rd|e] & fs2 & E & E'); [|done]. apply map_err_sys_inv in E as (os2 & E2 & ->).
  apply pbind_Ret_inv in E' as ([r rd'] & fs3 & E & E'). apply on_sys_inv in E as (os3 & E3 & ->).
  destruct r as [[name|]|e]; [done| |done]. injection E' as <-. split; [|by eexists].
  split; [done|]. intros _. by exists rd, os2, rd', os3.
Qed.

(** The lookups at the end of [rename]. *)
Lemma rename_lookups d1 n1 ns1 d2 n2 ns2 fs :
  mirror_inv fs -> sc_next_id (mr_cache fs) + 2 <= u64_MAX ->
  handle_names fs d1 = Some ns1 -> handle_names fs d2 = Some ns2 ->
  exists id1 id2 fs',
    (do* _ := lookup_by_id d1 n1 false in do* _ := lookup_by_id d2 n2 false in pret (Ok tt)) fs =
      (Ret (Ok tt : result unit nfsstat3), fs') /\
    grows fs fs' /\ mr_os fs' = mr_os fs /\
    handle_names fs' id1 = Some (ns1 ++ [n1]) /\ handle_names fs' id2 = Some (ns2 ++ [n2]).
Proof.
  intros Hi Hn H1 H2. destruct (lookup_unchecked room d1 n1 ns1 fs) as (id1 & fs1 & E1 & Ha1 & Ho1 & Hh1); [done|lia|done|].
  destruct (lookup_unchecked room d2 n2 ns2 fs1) as (id2 & fs2 & E2 & Ha2 & Ho2 & Hh2);
    [apply Ha1|pose proof (af_next _ _ _ Ha1); lia|eapply handle_names_grows; [apply Ha1|done]|].
  exists id1, id2, fs2. unfold pbind. rewrite E1, E2. split; [done|].
  split; [etrans; [apply Ha1|apply Ha2]|]. split; [congruence|]. split; [|done].
  eapply handle_names_grows; [apply Ha2|done].
Qed.

(** C30: RENAME refuses "." and "..", does nothing when both names are the same, and
    otherwise moves an entry only after it has found the source, and at the
    target either nothing, or something of the same kind that is, if it is a
    directory, empty. After a move every handle still stands for the path it
    stood for, so the old and the new name both have a handle, and not the same. *)
Theorem mirror_rename_correct root os fs d1 n1 d2 n2 fs' :
  rtc mirror_step (mirror_new root os) fs -> handles_left fs ->
  mirror_rename d1 n1 d2 n2 fs = (Ret (Ok tt), fs') ->
  is_dot_name n1 = false /\ is_dot_name n2 = false /\
  exists ns1 ns2, handle_names fs d1 = Some ns1 /\ handle_names fs d2 = Some ns2 /\
  let from_path := path_push root (join_names (ns1 ++ [n1])) in
  let to_path := path_push root (join_names (ns2 ++ [n2])) in
  if decide (d1 = d2 /\ n1 = n2) then fs' = fs
  else (exists m os1 os2, os_symlink_metadata from_path (mr_os fs) = (Ok m, os1) /\
          target_replaceable m to_path os1 /\ os_rename from_path to_path os2 = (Ok tt, mr_os fs')) /\
       (forall id ns, handle_names fs id = Some ns -> handle_names fs' id = Some ns) /\
       exists id1 id2, handle_names fs' id1 = Some (ns1 ++ [n1]) /\ handle_names fs' id2 = Some (ns2 ++ [n2]) /\
         id1 <> id2.
Proof.
  intros Hr Hl Hren. destruct (mirror_steps_inv _ _ (mirror_new_inv root os) Hr) as [Hi Hg]. unfold handles_left in Hl.
  unfold mirror_rename in Hren. destruct (is_dot_name n1) eqn:E1; [done|]. destruct (is_dot_name n2) eqn:E2; [done|].
  cbn [orb] in Hren. split; [done|]. split; [done|].
  unfold tbind at 1, pbind at 1 in Hren. rewrite mirror_path_names in Hren by done.
  destruct (handle_names fs d1) as [ns1|] eqn:Ed1; [|done].
  unfold tbind at 1, pbind at 1 in Hren. rewrite mirror_path_names in Hren by done.
  destruct (handle_names fs d2) as [ns2|] eqn:Ed2; [|done]. exists ns1, ns2. split; [done|]. split; [done|].
  cbv zeta in *. rewrite !path_push_assoc, <- !join_names_snoc in Hren.
  rewrite (gr_root _ _ Hg : mr_root fs = root) in Hren.
  set (src := path_push root (join_names (ns1 ++ [n1]))) in *.
  set (dst := path_push root (join_names (ns2 ++ [n2]))) in *.
  destruct (decide (d1 = d2 /\ n1 = n2)) as [[-> ->]|Hne].
  { rewrite Z.eqb_refl, bool_decide_eq_true_2 in Hren by done. by injection Hren as <-. }
  assert ((d1 =? d2) && bool_decide (n1 = n2) = false) as Ene.
  { apply andb_false_iff. rewrite Z.eqb_neq, bool_decide_eq_false.
    destruct (decide (d1 = d2)), (decide (n1 = n2)); tauto. }
  rewrite Ene in Hren. clear Ene.
  apply pbind_Ret_inv in Hren as ([m|e] & fs1 & Em & Hren); [|done]. apply map_err_sys_inv in Em as (os1 & Em & ->).
  apply pbind_Ret_inv in Hren as ([[]|e] & fs1 & Ec & Hren); [|done].
  apply rename_check_target_inv in Ec as (Htarget & os2 & ->).
  apply pbind_Ret_inv in Hren as ([[]|e] & fs1 & Er & Hren); [|done]. apply map_err_sys_inv in Er as (os3 & Er & ->).
  set (fs1 := mr_set_os os3 _) in Hren.
  destruct (rename_lookups d1 n1 ns1 d2 n2 ns2 fs1) as (id1 & id2 & fs2 & El & Hg2 & Ho & H1 & H2);
    [exact Hi|cbn; lia|done|done|]. rewrite El in Hren. injection Hren as <-.
  split; [exists m, os1, os2; by rewrite Ho|].
  assert (grows fs fs2) as Hgr by (etrans; [by apply grows_os, grows_os, grows_os|exact Hg2]).
  split; [intros id ns; by apply handle_names_grows|]. exists id1, id2. split; [done|]. split; [done|].
  intros ->. rewrite H1 in H2. injection H2 as H2. apply app_inj_tail in H2 as [-> ->].
  apply Hne. split; [|done]. by eapply handle_names_inj.
Qed.
End properties.

(** ** Attributes *)

Lemma mode_unmask_bits mode n :
  0 <= n -> Z.testbit (mode_unmask mode) n = (n <? 9) && ((n =? 7) || Z.testbit mode n).
Proof.
  intros Hn. unfold mode_unmask. rewrite Z.land_spec, Z.lor_spec.
  change 511 with (Z.ones 9). change 128 with (2 ^ 7). rewrite Z.pow2_bits_eqb, Z.testbit_ones_nonneg by lia.
  rewrite (Z.eqb_sym 7 n), andb_comm. f_equal. apply orb_comm.
Qed.

Lemma mode_unmask_range mode : 0 <= mode_unmask mode <= 511.
Proof.
  unfold mode_unmask. change (Z.land (Z.lor mode 128) 511) with (Z.land (Z.lor mode 128) (Z.ones 9)).
  rewrite Z.land_ones by lia. pose proof (Z.mod_pos_bound (Z.lor mode 128) (2 ^ 9) eq_refl). lia.
Qed.

Lemma nlink_range m : 0 <= md_nlink m -> 0 <= metadata_nlink m <= u32_MAX.
Proof. intros H. unfold metadata_nlink. destruct (Z.leb_spec (md_nlink m) u32_MAX); unfold u32_MAX in *; lia. Qed.

Lemma to_nfstime3_range t :
  0 <= nfstime3_seconds (to_nfstime3 t) <= u32_MAX /\ 0 <= nfstime3_nseconds (to_nfstime3 t) < 1000000000.
Proof.
  destruct t as [t|]; [|done]. unfold to_nfstime3, nfstime3_try_from.
  destruct (Z.leb_spec 0 t); [|done]. cbn -[Z.div Z.modulo].
  pose proof (Z.mod_pos_bound t 1000000000 eq_refl). pose proof (Z.div_pos t 1000000000).
  unfold u32_MAX. lia.
Qed.

(** What the mirror reports of a file can always be sent: for metadata in the
    ranges of its types, even with times before the epoch, beyond 2106 or
    missing, the attributes are valid; and the mode has only permission bits,
    the owner's write bit always among them, the others as the file has them. *)
Theorem metadata_to_fattr3_valid id m :
  in_u64 id -> in_u32 (md_uid m) -> in_u32 (md_gid m) -> in_u64 (md_len m) -> 0 <= md_nlink m ->
  valid fattr3_codec (metadata_to_fattr3 id m) /\
  forall n, 0 <= n -> Z.testbit (fattr3_mode (metadata_to_fattr3 id m)) n =
    (n <? 9) && ((n =? 7) || Z.testbit (md_mode m) n).
Proof.
  intros Hid Hu Hg Hl Hn. pose proof (nlink_range m Hn). split.
  - unfold metadata_to_fattr3. cbn -[mode_unmask to_nfstime3 metadata_nlink].
    pose proof (to_nfstime3_range (md_accessed m)). pose proof (to_nfstime3_range (md_modified m)).
    pose proof (to_nfstime3_range (md_created m)). pose proof (mode_unmask_range (md_mode m)).
    split_and!; try done; unfold in_u32, in_u64, u32_MAX, u64_MAX in *; lia.
  - intros n Hn0. apply mode_unmask_bits. lia.
Qed.

(** ** A mirror to run *)

Module DemoMirror.
Definition table : Type := list (list byte).

#[export] Instance vec_table : SymbolTable table nat := {|
  st_new := [];
  st_intern name t :=
    match list_find (fun n => n = name) t with
    | Some (i, _) => Some (i, t)
    | None => Some (length t, t ++ [name])
    end;
  st_get t s := t !! s;
|}.

#[export] Program Instance vec_table_laws : SymbolTableLaws table nat := {| st_ok t := NoDup t |}.
Next Obligation. constructor. Qed.
Next Obligation.
  cbn. intros t name s t' Ht. destruct (list_find _ t) as [[i n]|] eqn:E; intros [= <- <-]; [done|].
  apply NoDup_app. split; [done|]. split; [|by apply NoDup_singleton].
  intros x Hx ->%list_elem_of_singleton. apply list_find_None in E. rewrite Forall_forall in E. by apply (E name).
Qed.
Next Obligation.
  cbn. intros t name s t' Ht. destruct (list_find _ t) as [[i n]|] eqn:E; intros [= <- <-].
  - apply list_find_Some in E as (E & -> & _). done.
  - by apply list_lookup_middle.
Qed.
Next Obligation.
  cbn. intros t name s t' s2 n2 Ht. destruct (list_find _ t) as [[i n]|]; intros [= <- <-]; [done|].
  intros E. by apply lookup_app_l_Some.
Qed.
Next Obligation. cbn. intros t s1 s2 n Ht H1 H2. by eapply NoDup_lookup. Qed.

Lemma room (t : table) name : st_ok t -> st_intern name t <> None.
Proof. intros _. cbn. by destruct (list_find _ t) as [[i n]|]. Qed.

(** A flat system: the files and directories by path, and where the next read or
    write of an open file goes.  A directory stream is the names left in it. *)
Record System : Type := mkSystem { files : list (list byte * option (list byte)); pos : Z }.

(** A separator at the end of a path is ignored. *)
Definition norm (p : list byte) : list byte :=
  if decide (last p = Some x2f) then removelast p else p.

Definition find_file (p : list byte) (os : System) : option (option (list byte)) :=
  option_map (fun '(_, (_, c)) => c) (list_find (fun '(q, _) => q = norm p) (files os)).

Definition meta (c : option (list byte)) : Metadata :=
  match c with
  | Some data => mkMetadata FtFile 420 1 7 8 (len data) (Some 5000000000) (Some (-1)) None 0 0
  | None => mkMetadata FtDir 493 2 7 8 0 None (Some 5000000000) None 0 0
  end.

(** The names of the entries directly below a directory. *)
Definition children (p : list byte) (os : System) : list (list byte) :=
  omap (fun '(q, _) =>
    if decide (take (S (length p)) q = p ++ [x2f]) then
      let name := drop (S (length p)) q in
      if decide (x2f ∈ name) then None else Some name
    else None) (files os).

Definition fail_or {A} (p : list byte) (os : System) (k : option (list byte) -> A) : result A ErrorKind * System :=
  (match find_file p os with Some c => Ok (k c) | None => Err NotFound end, os).

Definition set_file (p : list byte) (c : option (list byte)) (os : System) : System :=
  mkSystem ((p, c) :: List.filter (fun '(q, _) => negb (bool_decide (q = p))) (files os)) (pos os).
Definition del_file (p : list byte) (os : System) : System :=
  mkSystem (List.filter (fun '(q, _) => negb (bool_decide (q = p))) (files os)) (pos os).
Definition content (p : list byte) (os : System) : list byte := default [] (default None (find_file p os)).

#[export] Instance system : Os System (list (list byte)) (list byte) := {|
  os_exists p os := (bool_decide (is_Some (find_file p os)), os);
  os_symlink_metadata p os := fail_or p os meta;
  os_open how p os :=
    match how, find_file p os with
    | OpenCreateNew, Some _ => (Err AlreadyExistsKind, os)
    | OpenCreate, _ | OpenCreateNew, None => (Ok p, set_file p (Some []) (mkSystem (files os) 0))
    | _, _ => fail_or p os (fun _ => p)
    end;
  os_file_len f os := (Ok (len (content f os)), os);
  os_seek f start os := (Ok tt, mkSystem (files os) start);
  os_read_exact f n os := (Ok (take (Z.to_nat n) (drop (Z.to_nat (pos os)) (content f os))), os);
  os_write_all f data os := (Ok tt, set_file f (Some (take (Z.to_nat (pos os)) (content f os) ++ data)) os);
  os_flush f os := (Ok tt, os);
  os_set_len f n os := (Ok tt, set_file f (Some (take (Z.to_nat n) (content f os))) os);
  os_file_set_permissions _ _ os := (Ok tt, os);
  os_read_dir p os := fail_or p os (fun _ => children (norm p) os);
  os_next_entry rd os := ((Ok (hd_error rd), tl rd), os);
  os_create_dir p os := (Ok tt, set_file p None os);
  os_remove_dir p os := (Ok tt, del_file p os);
  os_remove_file p os := (Ok tt, del_file p os);
  os_rename p q os :=
    match find_file p os with
    | Some c => (Ok tt, set_file q c (del_file p os))
    | None => (Err NotFound, os)
    end;
  os_symlink target p os := (Ok tt, set_file p (Some target) os);
  os_read_link p os := (Ok (content p os), os);
  os_set_permissions p mode os := (Ok tt, os);
  os_set_file_atime p t os := (Ok tt, os);
  os_set_file_mtime p t os := (Ok tt, os);
  os_filetime_now os := ((0, 0), os);
  os_instant_now os := (0, os);
|}.

Definition root : list byte := bytes_of_string "/srv".
Definition bs (s : string) : list byte := bytes_of_string s.
Definition os0 : System :=
  mkSystem [(root, None); (bs "/srv/a", Some (bs "hello")); (bs "/srv/d", None); (bs "/srv/d/b", Some []);
            (bs "/srv/..", None); (bs "/etc/passwd", Some (bs "secret"))] 0.
Definition DemoState : Type := @MirrorFs table nat System (list (list byte)) _ _.
Definition fs0 : DemoState := mirror_new root os0.

Definition run {A} (dflt : A) (o : outcome A * DemoState) : A := match fst o with Ret a => a | _ => dflt end.

Definition op_step (op : MirrorOp) (fs : DemoState) : DemoState := snd (run_mirror_op op fs).

(** After LOOKUP of [/srv/a], of [/srv/d] and of [/srv/d/b]. *)
Definition fs1 : DemoState := op_step (MrLookup 1 (bs "a")) fs0.
Definition fs2 : DemoState := op_step (MrLookup 3 (bs "b")) (op_step (MrLookup 1 (bs "d")) fs1).
(** After RENAME of [a] to [z]. *)
Definition fs3 : DemoState := op_step (MrRename 1 (bs "a") 1 (bs "z")) fs2.

Lemma step_ok op fs : mirror_op_ok op -> handles_left fs -> mirror_step fs (op_step op fs).
Proof. apply MsOp. Qed.

Lemma reach1 : rtc mirror_step fs0 fs1.
Proof. apply rtc_once, step_ok; [done|vm_compute; discriminate]. Qed.
Lemma reach2 : rtc mirror_step fs0 fs2.
Proof.
  etrans; [apply reach1|]. eapply rtc_l; [|apply rtc_once]; apply step_ok; try done; vm_compute; discriminate.
Qed.
Lemma step3 : rtc mirror_step fs2 fs3.
Proof. apply rtc_once, step_ok; [done|vm_compute; discriminate]. Qed.

Definition it0 : @MirrorFsIterator (list (list byte)) := mkMirrorFsIterator 1 (Some [bs "a"; bs "d"; bs ".."]) 0.

Definition attr : sattr3 := mk_sattr3 (Some 420) None None (Some 3) atime_DONT_CHANGE mtime_SET_TO_SERVER_TIME.

Lemma plain_db : Forall plain_name [bs "d"; bs "b"].
Proof.
  repeat constructor; try discriminate; cbn; intros Hx; apply list_elem_of_singleton in Hx; discriminate.
Qed.

(** The file [/srv/a] can be read in full. *)
Lemma a_contains : file_contains (F := list byte) (bs "/srv/a") (bs "hello") (mr_os fs2).
Proof.
  intros start n Hs Hn Hl. eexists _, _. split; [reflexivity|]. reflexivity.
Qed.

(** READDIR of the root with room for one of its three entries. *)
#[export] Instance target : Target := false.
Definition fhc : FileHandleConverter := converter_new 9.
Definition demo_file_system : NfsFileSystem DemoState FileHandleU64 := mirror_file_system.
Definition page_args : READDIR3args :=
  mk_READDIR3args (fh_to_nfs fhc (fh64_new 1)) 0 NONE_COOKIE_VERF 140.
Definition first_page : outcome READDIR3res * DemoState :=
  nfsproc3_readdir demo_file_system fhc 7 page_args fs2.
Definition truncated : READDIR3resok :=
  match fst first_page with
  | Ret (NfsOk r) => r
  | _ => mk_READDIR3resok None [] (mk_dirlist3 [] true)
  end.
End DemoMirror.

(** ** Witnesses *)

Import DemoMirror.

Lemma mirror_handles_stable_witness :
  handle_names fs3 2 = Some [bs "a"] /\
  mirror_path 2 fs3 = (Ret (Ok (bs "/srv/a")), fs3).
Proof.
  destruct (mirror_handles_stable room root os0 _ _ reach2 step3)
    as (Hs & _ & _ & Hp).
  assert (handle_names fs3 2 = Some [bs "a"]) as E by (apply Hs; vm_compute; reflexivity).
  split; [exact E|]. rewrite Hp, E. reflexivity.
Defined.

Lemma mirror_never_panics_witness :
  exists fs', run_mirror_op (MrCreate 3 (bs "new") attr) fs2 = (Ret tt, fs').
Proof.
  apply (mirror_never_panics room root os0 _ _ reach2);
    [done|vm_compute; discriminate].
Defined.

Lemma mirror_lookup_correct_witness :
  exists fs', mirror_lookup 3 (bs "b") fs2 = (Ret (Ok 4), fs') /\
    mirror_path 4 fs' = (Ret (Ok (bs "/srv/d/b")), fs').
Proof.
  destruct (mirror_lookup_correct room root os0 fs2 3 (bs "b")
    reach2) as (r & fs' & E & _ & Hp); [vm_compute; discriminate|].
  exists fs'. assert (r = Ok 4) as ->.
  { assert (fst (mirror_lookup 3 (bs "b") fs2) = Ret (Ok 4)) as Er by (vm_compute; reflexivity).
    rewrite E in Er. cbn in Er. congruence. }
  split; [exact E|]. rewrite (Hp 4 (bs "/srv/d") eq_refl); [reflexivity|vm_compute; reflexivity].
Defined.

Lemma mirror_path_confined_witness :
  mirror_path 4 fs2 = (Ret (Ok (bs "/srv/d/b")), fs2).
Proof.
  exact (mirror_path_confined room root os0 fs2 4
    [bs "d"; bs "b"] reach2 ltac:(done) ltac:(done)
    ltac:(vm_compute; reflexivity) ltac:(done) plain_db).
Defined.

Lemma mirror_listing_complete_witness :
  exists entries it1 fs1, yields mirror_readdir_iter it0 fs2 entries it1 fs1 /\
    map entry3_name entries = [bs "a"; bs "d"; bs ".."] /\
    map entry3_cookie entries = [1; 2; 3].
Proof.
  destruct (mirror_listing_complete room root os0 fs2 it0
    [bs "a"; bs "d"; bs ".."] [bs "a"; bs "d"; bs ".."]
    [] (mr_os fs2) [] (mr_os fs2) [] reach2 eq_refl) as (es & it1 & f1 & it2 & f2 & Hy & _ & _ & Hn & Hc & _).
  - do 3 (eapply stream_cons; [reflexivity|]). apply stream_nil.
  - reflexivity.
  - vm_compute. reflexivity.
  - vm_compute. discriminate.
  - vm_compute. discriminate.
  - exists es, it1, f1. split; [exact Hy|]. split; [exact Hn|exact Hc].
Defined.

Lemma mirror_paging_lost_witness :
  dirlist3_eof (READDIR3resok_reply truncated) = false /\
  forall it fs'', vfs_readdir (NfsReadFileSystem := nfs_read_fs (NfsFileSystem := demo_file_system)) (fh64_new 1) 1
    (snd first_page) <> (Ret (Ok it), fs'').
Proof.
  split; [vm_compute; reflexivity|].
  refine (mirror_paging_lost fhc 7 page_args (fh64_new 1) truncated 1 fs2 (snd first_page) _ _ _ _ _ _).
  - vm_compute. reflexivity.
  - apply fh_from_to_nfs, converter_new_wf.
  - vm_compute. reflexivity.
  - vm_compute. reflexivity.
  - discriminate.
  - intros info Hi. by apply elem_of_nil in Hi.
Defined.

Lemma mirror_read_correct_witness :
  exists fs', mirror_read 2 1 3 fs2 = (Ret (Ok (bs "ell", false)), fs').
Proof.
  destruct (mirror_read_correct fs2 2 (bs "/srv/a") 1 3
    (bs "/srv/a") (mr_os fs2) (bs "hello") (mr_os fs2)
    ltac:(done) ltac:(done)) as (fs' & E & _).
  - vm_compute. reflexivity.
  - vm_compute. reflexivity.
  - vm_compute. reflexivity.
  - exact a_contains.
  - exists fs'. exact E.
Defined.

Lemma mirror_rename_correct_witness :
  handle_names fs3 1 = Some [] /\ is_dot_name (bs "z") = false.
Proof.
  destruct (mirror_rename_correct room root os0 fs2 1 (bs "a")
    1 (bs "z") fs3 reach2) as (_ & Hz & ns1 & ns2 & H1 & _ & Hr).
  - vm_compute. discriminate.
  - vm_compute. reflexivity.
  - rewrite decide_False in Hr by (intros [_ ?]; discriminate). destruct Hr as (_ & Hs & _).
    split; [apply Hs; vm_compute; reflexivity|exact Hz].
Defined.

Lemma metadata_to_fattr3_valid_witness :
  valid fattr3_codec (metadata_to_fattr3 4 (meta None)).
Proof. apply (metadata_to_fattr3_valid 4 (meta None)); done. Defined.

(** ** What clients can do to the export *)

(** A name that is not plain leaves the export: [..] and an absolute path get
    handles as any other name does. *)
Lemma mirror_lookup_escapes :
  let up := snd (mirror_lookup 1 (bs "..") fs0) in
  let out := snd (mirror_lookup 1 (bs "/etc/passwd") fs0) in
  fst (mirror_path 2 up) = Ret (Ok (bs "/srv/..")) /\
  fst (mirror_path 2 out) = Ret (Ok (bs "/etc/passwd")) /\
  fst (mirror_read 2 0 6 out) = Ret (Ok (bs "secret", true)).
Proof. split_and!; vm_compute; reflexivity. Qed.

(** A name that was removed can still be looked up. *)
Lemma mirror_lookup_removed :
  let removed := mirror_remove 1 (bs "a") fs1 in
  fst removed = Ret (Ok tt) /\ fst (mirror_lookup 1 (bs "a") (snd removed)) = Ret (Ok 2) /\
  fst (mirror_getattr 2 (snd removed)) = Ret (Err NFS3ERR_NOENT).
Proof. split_and!; vm_compute; reflexivity. Qed.

(** A read at the end of a file does not report the end. *)
Lemma mirror_read_at_end : fst (mirror_read 2 5 3 fs1) = Ret (Ok ([], false)).
Proof. vm_compute. reflexivity. Qed.
