(* ===== verification/MirrorValid.v ===== *)
(** * The mirror gives values that can be encoded

    [mirror_ok] is the invariant of its state that the interface [ValidFs] asks
    for.  What the operating system reports is within the ranges of its own types
    and limits: that is the class [OsValid]. *)

From S2P Require Import Prelude Xdr XdrLaws Nfs3Types RpcTypes RpcWire RpcWireLaws Handle Vfs NfsHandlersLaws MountPortmap Server.
From S2P Require Import Connection ConnectionLaws ServerLaws FsUtil IteratorCache Mirror MirrorProperties Validity ServerValidity.
Open Scope Z_scope.
Open Scope nfs_scope.

(** The fields of [std::fs::Metadata] are machine integers, and names and link
    targets are shorter than the limits of the system ([NAME_MAX], [PATH_MAX]). *)
Definition metadata_ok (m : Metadata) : Prop :=
  in_u32 (md_uid m) /\ in_u32 (md_gid m) /\ in_u64 (md_len m) /\ 0 <= md_nlink m.

Class OsValid (OS RD F : Type) `{!Os OS RD F} : Prop := {
  ov_metadata p os m : (os_symlink_metadata p os).1 = Ok m -> metadata_ok m;
  ov_name rd os name : (os_next_entry rd os).1.1 = Ok (Some name) -> valid filename3_codec name;
  ov_target p os target : (os_read_link p os).1 = Ok target -> valid nfspath3_codec target;
}.

Create HintDb mirror.

Section valid.
Context {T Sym OS RD F : Type} `{!SymbolTable T Sym} `{Countable Sym} `{!Os OS RD F} `{!OsValid OS RD F}.
Local Abbreviation Mirror := (@MirrorFs T Sym OS RD _ _).

(** The ids that were given out, and the counter of cookies. *)
Record mirror_ok (m : Mirror) : Prop := {
  ok_ids : map_Forall (fun _ id => in_u64 id) (sc_path_to_id (mr_cache m));
  ok_next_id : in_u64 (sc_next_id (mr_cache m));
  ok_counter : in_u32 (ic_cookie_counter (mr_iterator_cache m));
}.

Lemma mirror_new_ok root os : mirror_ok (mirror_new root os).
Proof. split; cbn; [by apply map_Forall_singleton|done|done]. Qed.

(** ** Calls of the system *)

Lemma on_os_post {A} (Q : A -> Prop) (c : prog OS A) : post (fun _ => True) Q c -> post mirror_ok Q (on_os c).
Proof.
  intros Hc m [H1 H2 H3]. unfold on_os. destruct (Hc (mr_os m) I) as [_ Hq].
  destruct (c (mr_os m)) as [o os]. by split.
Qed.

Lemma on_sys_post {A} (Q : A -> Prop) (c : OS -> A * OS) : (forall os, Q (c os).1) -> post mirror_ok Q (on_sys c).
Proof.
  intros Hc. apply on_os_post. intros os _. unfold sys. pose proof (Hc os). by destruct (c os).
Qed.

Lemma on_sys_any {A} (c : OS -> A * OS) : post mirror_ok (fun _ => True) (on_sys c).
Proof. by apply on_sys_post. Qed.

Definition on_io {A E} (Q : A -> Prop) (r : result A E) : Prop := match r with Ok a => Q a | Err _ => True end.

Lemma map_io_error_err e : map_io_error e <> NFS3_OK.
Proof. by destruct e. Qed.

Lemma map_err_post {A E} (Q : A -> Prop) (f : E -> nfsstat3) (m : prog Mirror (result A E)) :
  post mirror_ok (on_io Q) m -> (forall e, f e <> NFS3_OK) -> post mirror_ok (on_ok Q) (map_err f m).
Proof. intros Hm Hf. eapply post_bind; [exact Hm|]. intros [a|e] Ha; apply post_pret; [done|apply Hf]. Qed.

Lemma on_io_any {A E} (m : prog Mirror (result A E)) :
  post mirror_ok (fun _ => True) m -> post mirror_ok (on_io (fun _ => True)) m.
Proof. intros Hm. eapply post_mono; [exact Hm|]. by intros []. Qed.

Lemma io_try_post {A B E} (Q : A -> Prop) (R : B -> Prop) m (k : A -> prog Mirror (result B E)) :
  post mirror_ok (on_io Q) m -> (forall a, Q a -> post mirror_ok (on_io R) (k a)) ->
  post mirror_ok (on_io R) (tbind m k).
Proof. intros Hm Hk. eapply post_bind; [exact Hm|]. intros [a|e] Ha; [by apply Hk|by apply post_pret]. Qed.

Lemma metadata_post p : post mirror_ok (on_io metadata_ok) (on_sys (os_symlink_metadata p)).
Proof.
  apply on_sys_post. intros os. destruct (os_symlink_metadata p os).1 as [m|] eqn:E; [|done]. by eapply ov_metadata.
Qed.

Lemma metadata_fattr3_valid id m : in_u64 id -> metadata_ok m -> valid fattr3_codec (metadata_to_fattr3 id m).
Proof. intros Hid (Hu & Hg & Hl & Hn). by apply metadata_to_fattr3_valid. Qed.

(** ** The caches *)

Lemma with_cache_post {A} (Q : A -> Prop) (k : SymbolsCacheInner -> outcome A) :
  (forall c, match k c with Ret a => Q a | _ => True end) -> post mirror_ok Q (with_cache (k : @SymbolsCacheInner T Sym _ _ -> outcome A)).
Proof. intros Hk m Hm. unfold with_cache. destruct (mr_poisoned m); [done|]. split; [done|]. apply Hk. Qed.

Lemma symbols_path_post id : post mirror_ok (on_ok (fun _ => True)) (symbols_path id).
Proof. apply with_cache_post. intros c. unfold ok_or. by destruct (sc_id_to_path c !! id). Qed.

#[local] Hint Resolve on_sys_any metadata_post symbols_path_post map_io_error_err : mirror.
#[local] Hint Resolve on_io_any | 10 : mirror.

Lemma handle_to_path_post id : post mirror_ok (on_ok (fun _ => True)) (handle_to_path id).
Proof.
  apply with_cache_post. intros c. destruct (sc_id_to_path c !! id); [|done]. by destruct (resolve_path _ _).
Qed.

Lemma mirror_path_post id : post mirror_ok (on_ok (fun _ => True)) (mirror_path id).
Proof.
  intros m Hm. unfold mirror_path. apply (post_try mirror_ok (fun _ => True)); [apply handle_to_path_post| |done].
  intros p _. by apply post_pret.
Qed.

Lemma checked_post (root parent name : list byte) (check : bool) (r : outcome (list byte)) :
  post mirror_ok (on_ok (fun _ => True))
    (if check then
       match r with
       | Ret test_path_parent =>
           let test_path := path_push root test_path_parent in
           do* e := on_sys (os_exists test_path) in
           if negb e then pret (Err NFS3ERR_BADHANDLE)
           else
             do* e := on_sys (os_exists (path_push test_path name)) in
             pret (if negb e then Err NFS3ERR_NOENT else Ok tt)
       | _ => ppanic
       end
     else pret (Ok tt)).
Proof.
  destruct check; [|by apply post_pret]. destruct r; [|by apply post_ppanic..].
  eapply post_bind; [apply on_sys_any|]. intros [] _; cbn [negb]; [|by apply post_pret].
  eapply post_bind; [apply on_sys_any|]. intros [] _; by apply post_pret.
Qed.

Lemma cache_lookup_inner_post parent name check :
  post mirror_ok (on_ok in_u64) (cache_lookup_inner parent name check).
Proof.
  intros m Hm. unfold cache_lookup_inner.
  destruct (st_intern name (sc_symbols (mr_cache m))) as [[symbol symbols]|]; [|done].
  set (m1 := mr_set_cache _ m). assert (mirror_ok m1) as Hm1 by (destruct Hm; by split).
  destruct (sc_path_to_id (mr_cache m) !! _) as [id|] eqn:E; [split; [done|]; exact (ok_ids _ Hm _ _ E)|].
  apply (post_bind mirror_ok (on_ok (fun _ => True))); [| |done].
  - exact (checked_post (mr_root m1) [] name check (resolve_path symbols parent)).
  - intros [u|e] Hc; [|by apply post_pret]. intros m2 Hm2. split; [|apply Hm]. destruct Hm as [H1 H2 H3], Hm2 as [H4 H5 H6].
    split; cbn; [by apply map_Forall_insert_2| |done]. unfold in_u64, u64_MAX.
    pose proof (Z.mod_pos_bound (sc_next_id (mr_cache m) + 1) (2 ^ 64) eq_refl). lia.
Qed.

Lemma cache_lookup_post parent name check : post mirror_ok (on_ok in_u64) (cache_lookup parent name check).
Proof.
  intros m Hm. unfold cache_lookup. destruct (mr_poisoned m); [done|].
  destruct (cache_lookup_inner_post parent name check m Hm) as [H1 H2].
  destruct (cache_lookup_inner _ _ _ m) as [[r| |] m']; [done|..]; (split; [|done]); destruct H1; by split.
Qed.

Lemma lookup_by_id_post id name check : post mirror_ok (on_ok in_u64) (lookup_by_id id name check).
Proof. eapply post_try; [apply symbols_path_post|]. intros p _. apply cache_lookup_post. Qed.

Lemma iterators_post {A} (Q : A -> Prop) (k : IteratorCache RD -> A * IteratorCache RD) :
  (forall c, in_u32 (ic_cookie_counter c) -> Q (k c).1 /\ in_u32 (ic_cookie_counter (k c).2)) ->
  post mirror_ok Q (iterators k).
Proof.
  intros Hk m [H1 H2 H3]. unfold iterators. destruct (Hk _ H3) as [H4 H5].
  destruct (k (mr_iterator_cache m)) as [a c]. by split.
Qed.

Lemma base_cookie_post : post mirror_ok in_u64 (iterators (generate_base_cookie (RD := RD))).
Proof.
  apply iterators_post. intros c Hc. cbn. rewrite Z.shiftl_mul_pow2 by lia.
  pose proof (Z.mod_pos_bound (ic_cookie_counter c + 1) (2 ^ 32) eq_refl). unfold in_u32, in_u64, u32_MAX, u64_MAX in *. lia.
Qed.

Lemma pop_state_counter dirid cookie (c : IteratorCache RD) :
  ic_cookie_counter (pop_state dirid cookie c).2 = ic_cookie_counter c.
Proof. unfold pop_state. by repeat case_match; simplify_eq. Qed.

Lemma pop_state_cookie dirid cookie (c : IteratorCache RD) info :
  (pop_state dirid cookie c).1 = Some info -> ci_cookie info = cookie.
Proof.
  unfold pop_state. destruct (ic_cache c !! dirid) as [l|]; [|done].
  destruct (position cookie l) as [i|] eqn:E; [|done]. destruct (position_Some _ _ _ E) as (x & Hx & Hc).
  unfold swap_remove. rewrite Hx. destruct (last l); [|done]. by intros [= <-].
Qed.

Lemma trim_counter dirid (c : IteratorCache RD) : ic_cookie_counter (trim_cache_for_dir dirid c) = ic_cookie_counter c.
Proof. unfold trim_cache_for_dir. by repeat case_match. Qed.

(** ** The methods *)

#[local] Hint Resolve mirror_path_post lookup_by_id_post : mirror.

Ltac try_step :=
  match goal with
  | |- post _ (on_ok _) (tbind _ _) => eapply post_try; [solve [eauto with mirror]|intros ? ?]
  | |- post _ (on_ok _) (map_err _ _) => apply map_err_post; [|solve [eauto with mirror]|..]
  | |- post _ (on_io _) (tbind _ _) => eapply io_try_post; [solve [eauto with mirror]|intros ? ?]
  | |- post _ _ (pbind _ _) => eapply post_bind; [solve [eauto with mirror]|intros ? ?]
  | |- post _ _ (pret _) => apply post_pret
  | |- post _ _ (if ?b then _ else _) => destruct b
  | |- post _ _ (match ?r with _ => _ end) => destruct r
  end.

Ltac mirror_method := repeat try_step; try done; cbn [on_ok on_io] in *; eauto with mirror.

Lemma map_err_metadata_post p f : (forall e, f e <> NFS3_OK) ->
  post mirror_ok (on_ok metadata_ok) (map_err f (on_sys (os_symlink_metadata p))).
Proof. intros Hf. by apply map_err_post; [apply metadata_post|]. Qed.

Lemma map_err_sys_post {A} (c : OS -> result A ErrorKind * OS) f : (forall e, f e <> NFS3_OK) ->
  post mirror_ok (on_ok (fun _ => True)) (map_err f (on_sys c)).
Proof. intros Hf. by apply map_err_post; [apply on_io_any, on_sys_any|]. Qed.

#[local] Hint Resolve map_err_metadata_post metadata_fattr3_valid : mirror.
#[local] Hint Resolve map_err_sys_post | 10 : mirror.

Lemma mirror_getattr_post id : in_u64 id -> post mirror_ok (on_ok (valid fattr3_codec)) (mirror_getattr id).
Proof. intros Hid. unfold mirror_getattr. mirror_method. Qed.

Lemma mirror_read_post id offset count : post mirror_ok (on_ok (fun _ => True)) (mirror_read id offset count).
Proof. unfold mirror_read, mirror_read_path. mirror_method. Qed.

Lemma mirror_readlink_post id : post mirror_ok (on_ok (valid nfspath3_codec)) (mirror_readlink id).
Proof.
  unfold mirror_readlink. eapply post_try; [apply mirror_path_post|]. intros p _.
  eapply (post_bind _ (on_io (valid nfspath3_codec))).
  - apply on_sys_post. intros os. destruct (os_read_link p os).1 eqn:E; [|done]. by eapply ov_target.
  - intros [t|[]] Ht; by apply post_pret.
Qed.

Lemma path_setattr_post p attr : post mirror_ok (on_ok (fun _ => True)) (on_os (path_setattr p attr)).
Proof.
  apply on_os_post. unfold path_setattr.
  assert (forall A (m : prog OS A), post (fun _ => True) (fun _ => True) m) as Hany by (intros A m os _; by destruct (fst (m os))).
  do 3 (eapply post_bind; [apply Hany|]; intros _ _). unfold path_set_size. destruct (sattr3_size attr); [|by apply post_pret].
  assert (forall A (c : OS -> result A ErrorKind * OS),
    post (fun _ => True) (on_ok (fun _ : A => True)) (map_err (fun _ => NFS3ERR_IO) (sys c))) as Hio.
  { intros A c. eapply post_bind; [apply Hany|]. intros [] _; by apply post_pret. }
  do 2 (eapply post_try; [apply Hio|]; intros ? _). by apply post_pret.
Qed.

#[local] Hint Resolve mirror_getattr_post path_setattr_post : mirror.

Lemma mirror_setattr_post id attr : in_u64 id -> post mirror_ok (on_ok (valid fattr3_codec)) (mirror_setattr id attr).
Proof. intros Hid. unfold mirror_setattr. mirror_method. Qed.

#[local] Hint Resolve mirror_setattr_post : mirror.

Lemma map_err_io_post {A} (m : prog Mirror (result A ErrorKind)) :
  post mirror_ok (on_io (fun _ => True)) m -> post mirror_ok (on_ok (fun _ => True)) (map_err map_io_error m).
Proof. intros Hm. by apply map_err_post, map_io_error_err. Qed.

Lemma write_at_post p offset data : post mirror_ok (on_io (fun _ => True)) (write_at p offset data).
Proof. unfold write_at. mirror_method. Qed.

Lemma create_file_post p size : post mirror_ok (on_io (fun _ => True)) (create_file p size).
Proof. unfold create_file. mirror_method. Qed.

#[local] Hint Resolve map_err_io_post write_at_post create_file_post : mirror.

Lemma mirror_write_post id offset data :
  in_u64 id -> post mirror_ok (on_ok (valid fattr3_codec)) (mirror_write id offset data).
Proof. intros Hid. unfold mirror_write. mirror_method. Qed.

Definition id_attr_ok (r : Z * fattr3) : Prop := valid fattr3_codec r.2.

Lemma mirror_create_post id name attr : post mirror_ok (on_ok id_attr_ok) (mirror_create id name attr).
Proof. unfold mirror_create. mirror_method. Qed.

Lemma mirror_create_exclusive_post id name verf : post mirror_ok (on_ok (fun _ => True)) (mirror_create_exclusive id name verf).
Proof.
  unfold mirror_create_exclusive. mirror_method. eapply post_mono; [apply lookup_by_id_post|]. by intros [].
Qed.

Lemma mirror_mkdir_post id name : post mirror_ok (on_ok id_attr_ok) (mirror_mkdir id name).
Proof. unfold mirror_mkdir. mirror_method. Qed.

Lemma mirror_remove_post id name : post mirror_ok (on_ok (fun _ => True)) (mirror_remove id name).
Proof. unfold mirror_remove. mirror_method. Qed.

Lemma rename_check_target_post m p : post mirror_ok (on_ok (fun _ => True)) (rename_check_target m p).
Proof. unfold rename_check_target. mirror_method. Qed.

Lemma lookup_any id name check : post mirror_ok (fun _ => True) (lookup_by_id id name check).
Proof. eapply post_any, lookup_by_id_post. Qed.

#[local] Hint Resolve rename_check_target_post lookup_any : mirror.

Lemma mirror_rename_post id1 name1 id2 name2 :
  post mirror_ok (on_ok (fun _ => True)) (mirror_rename id1 name1 id2 name2).
Proof. unfold mirror_rename. mirror_method. Qed.

Lemma mirror_symlink_post id name target attr : post mirror_ok (on_ok id_attr_ok) (mirror_symlink id name target attr).
Proof.
  unfold mirror_symlink. do 3 try_step. eapply (post_bind _ (fun _ => True)).
  - repeat case_match; [eapply post_bind; [eapply post_any, mirror_setattr_post; eassumption|]; intros ? ?..|by apply post_pret];
      by apply post_pret.
  - intros _ _. mirror_method.
Qed.

(** ** Listings *)

Definition iterator_ok (it : @MirrorFsIterator RD) : Prop := 0 <= mi_cookie it <= u64_MAX.

Definition plus_id_valid (e : DirEntryPlus Z) : Prop :=
  valid entry3_codec (plus_to_entry e) /\ valid post_op_attr_codec (dep_name_attributes e).

Lemma initialize_read_dir_post dirid cookie :
  in_u64 cookie -> post mirror_ok (on_ok (fun r => in_u64 r.2)) (initialize_read_dir dirid cookie).
Proof.
  intros Hc. unfold initialize_read_dir. eapply post_try; [apply mirror_path_post|]. intros p _.
  destruct (_ =? _).
  - eapply post_try; [by apply map_err_metadata_post|]. intros m _. destruct (negb _); [by apply post_pret|].
    eapply post_try; [by apply map_err_sys_post|]. intros rd _.
    eapply post_bind; [apply base_cookie_post|]. intros base Hb. by apply post_pret.
  - eapply (post_bind _ (fun r => forall info, r = Some info -> ci_cookie info = cookie)).
    + apply iterators_post. intros c Hcc. split; [intros info; apply pop_state_cookie|by rewrite pop_state_counter].
    + intros [info|] Hi; [|by apply post_pret]. apply post_pret. cbn. by rewrite (Hi info eq_refl).
Qed.

Lemma get_or_create_post dirid cookie :
  in_u64 cookie -> post mirror_ok (on_ok iterator_ok) (get_or_create_iterator dirid cookie).
Proof.
  intros Hc. unfold get_or_create_iterator. eapply post_try; [by apply initialize_read_dir_post|].
  intros [rd c] Hr. by apply post_pret.
Qed.

Lemma mirror_iter_drop_post it : post mirror_ok (fun _ => True) (mirror_iter_drop it).
Proof.
  unfold mirror_iter_drop. destruct (mi_read_dir it) as [rd|]; [|by apply post_pret].
  eapply post_bind; [apply on_sys_any|]. intros now _. apply iterators_post. intros c Hc. split; [done|].
  cbn [snd]. unfold cache_state. by rewrite trim_counter.
Qed.

Lemma next_entry_common_post it : iterator_ok it ->
  post mirror_ok (fun r => iterator_ok r.2 /\ match r.1 with
    | NextOk (handle, name, cookie) => in_u64 handle /\ valid filename3_codec name /\ in_u64 cookie
    | NextEof => True
    | NextErr stat => stat <> NFS3_OK
    end) (next_entry_common it).
Proof.
  intros Hit. unfold next_entry_common. destruct (mi_read_dir it) as [rd|]; [|by apply post_pret].
  eapply (post_bind _ (fun r => forall name, r.1 = Ok (Some name) -> valid filename3_codec name)).
  { apply on_sys_post. intros os name. apply ov_name. }
  intros [[[name|]|e] rd'] Hn; cbn [fst] in Hn; [|by apply post_pret..].
  eapply post_bind; [apply lookup_by_id_post|]. intros [handle|e] Hh; [|by apply post_pret].
  cbn [mi_cookie]. destruct (Z.leb_spec (mi_cookie it + 1) u64_MAX) as [Hle|]; [|apply post_ppanic].
  apply post_pret. unfold iterator_ok in *. cbn [fst snd mi_cookie]. unfold in_u64. split; [lia|].
  split_and!; [apply Hh|apply Hh|by apply Hn|lia|lia].
Qed.

Lemma readdirplus_turn_post it : iterator_ok it ->
  post mirror_ok (fun r => iterator_ok r.2 /\ match r.1 with
    | Some (NextOk e) => plus_id_valid e
    | Some (NextErr stat) => stat <> NFS3_OK
    | _ => True
    end) (readdirplus_turn it).
Proof.
  intros Hit. unfold readdirplus_turn. eapply post_bind; [by apply next_entry_common_post|].
  intros [[[[handle name] cookie]| |stat] it'] [Hit' Hr]; cbn [fst snd] in *; [|by apply post_pret..].
  destruct Hr as (Hh & Hn & Hc). eapply post_bind; [apply mirror_path_post|]. intros [p|e] _; [|by apply post_pret].
  eapply post_bind; [apply metadata_post|]. intros md Hmd. apply post_pret. split; [done|]. split; [by split_and!|].
  destruct md as [md|e]; [|done]. by apply metadata_fattr3_valid.
Qed.

Lemma readdirplus_next_post fuel it : iterator_ok it ->
  post mirror_ok (fun r => iterator_ok r.2 /\ match r.1 with
    | NextOk e => plus_id_valid e
    | NextEof => True
    | NextErr stat => stat <> NFS3_OK
    end) (readdirplus_next fuel it).
Proof.
  revert it. induction fuel as [|fuel IH]; intros it Hit; [by intros m Hm|]. cbn [readdirplus_next].
  eapply post_bind; [by apply readdirplus_turn_post|]. intros [[r|] it'] [Hit' Hr]; cbn [fst snd] in *; [by apply post_pret|by apply IH].
Qed.

(** ** The instance *)

Section instance.
Context `{Target}.

Lemma with_handle_post m (Q : Z -> Prop) :
  post mirror_ok (on_ok Q) m -> post mirror_ok (on_ok handle_valid) (do* r := m in pret (with_handle r)).
Proof. intros Hm. eapply post_bind; [exact Hm|]. intros [r|e] Hr; apply post_pret; [apply handle_u64_valid|done]. Qed.

Lemma with_handle_attr_post m :
  post mirror_ok (on_ok id_attr_ok) m ->
  post mirror_ok (on_ok (fun r => handle_valid r.1 /\ valid fattr3_codec r.2)) (do* r := m in pret (with_handle_attr r)).
Proof.
  intros Hm. eapply post_bind; [exact Hm|].
  intros [[id a]|e] Hr; apply post_pret; [by split; [apply handle_u64_valid|]|done].
Qed.

Lemma mirror_lookup_valid id name :
  post mirror_ok (on_ok handle_valid) (do* r := mirror_lookup (fh64_as_u64 id) name in pret (with_handle r)).
Proof. eapply with_handle_post, lookup_by_id_post. Qed.

Lemma mirror_readdir_iterates dirid cookie :
  in_u64 cookie -> iterates mirror_ok (valid entry3_codec) mirror_readdir_iter (get_or_create_iterator dirid cookie).
Proof.
  intros Hc. exists iterator_ok. split; [by apply get_or_create_post|]. split; [|by intros; apply mirror_iter_drop_post].
  intros it Hit. eapply post_bind; [by apply next_entry_common_post|].
  intros [[[[handle name] cookie']| |stat] it'] [Hit' Hr]; cbn [fst snd] in *; apply post_pret; (split; [done|]); [|done..].
  destruct Hr as (? & ? & ?). by split_and!.
Qed.

Lemma mirror_readdirplus_iterates dirid cookie :
  in_u64 cookie -> iterates mirror_ok plus_valid mirror_readdirplus_iter (get_or_create_iterator dirid cookie).
Proof.
  intros Hc. exists iterator_ok. split; [by apply get_or_create_post|]. split; [|by intros; apply mirror_iter_drop_post].
  intros it Hit. eapply post_bind; [by apply readdirplus_next_post|].
  intros [[e| |stat] it'] [Hit' Hr]; cbn [fst snd] in *; apply post_pret; (split; [done|]); [|done..].
  destruct Hr as [He Ha]. split; [exact He|]. split; [exact Ha|]. cbn.
  destruct (dep_name_handle e); [apply handle_u64_valid|done].
Qed.

#[export] Instance mirror_valid : ValidFs mirror_file_system mirror_ok.
Proof.
  pose proof fh64_as_u64_range as Hr. split; [split|..]; intros.
  - apply post_pret, handle_u64_valid.
  - eapply post_bind; [apply post_pret, handle_u64_valid|]. intros root Hroot.
    apply lookup_components_post; [apply mirror_lookup_valid|exact Hroot].
  - apply mirror_lookup_valid.
  - by apply mirror_getattr_post.
  - apply mirror_read_post.
  - by apply mirror_readdir_iterates.
  - by apply mirror_readdirplus_iterates.
  - apply mirror_readlink_post.
  - by apply fsinfo_default_post, mirror_getattr_post.
  - by apply post_pret.
  - by apply mirror_setattr_post.
  - by apply mirror_write_post.
  - apply with_handle_attr_post, mirror_create_post.
  - eapply with_handle_post, mirror_create_exclusive_post.
  - apply with_handle_attr_post, mirror_mkdir_post.
  - apply mirror_remove_post.
  - apply mirror_rename_post.
  - apply with_handle_attr_post, mirror_symlink_post.
Qed.

(** ** The mirror behind the server *)

(** C26: No call to a mirrored directory is lost to an encoding error. Whatever
    bytes clients send and whatever other processes do to the directory, as long as
    the system reports values within the ranges of its own types: each message that
    a connection has served, and whichever it serves next, gets a reply with the xid
    of its call, unless it is a retransmission (the tracker has its xid), the
    procedure panics, or it is not a call that can be decoded. The attributes (with
    times before the epoch or after 2106, and link counts beyond 32 bits), the names,
    the link targets, the handles and the cookies of every reply can be encoded; and
    the ids and the counter of the caches stay within their types. *)
Theorem mirror_calls_answered ctx (s : ServerState Mirror) input acts c evs :
  context_ok ctx -> serving mirror_ok s ->
  Forall (fun a => match a with AOther s' => serving mirror_ok s' | _ => True end) acts ->
  Connection.run mirror_file_system ctx acts (connection_new s input) = Some (c, evs) ->
  serving mirror_ok (cn_server c) /\
  Forall (served_well mirror_file_system mirror_ok ctx) (served evs) /\
  forall packed now now_drop, answered mirror_file_system ctx packed now (cn_server c)
    (fst (handle_rpc_message mirror_file_system ctx packed now now_drop (cn_server c))).
Proof.
  intros Hctx Hok Hothers Hrun. exact (run_answers _ _ mirror_valid ctx Hctx acts _ c evs Hrun Hothers Hok).
Qed.
End instance.
End valid.

(** ** A system with one directory *)

Module DemoQuiet.
Import DemoMirror.
Definition bs_a : list byte := [x61].
Definition md : Metadata := mkMetadata FtDir 493 2 7 8 0 None (Some (-1)) (Some 5000000000) 0 0.

(** A directory stream yields one name. *)
#[export] Instance quiet : Os unit bool unit := {|
  os_exists _ os := (true, os);
  os_symlink_metadata _ os := (Ok md, os);
  os_open _ _ os := (Ok tt, os);
  os_file_len _ os := (Ok 0, os);
  os_seek _ _ os := (Ok tt, os);
  os_read_exact _ _ os := (Ok [], os);
  os_write_all _ _ os := (Ok tt, os);
  os_flush _ os := (Ok tt, os);
  os_set_len _ _ os := (Ok tt, os);
  os_file_set_permissions _ _ os := (Ok tt, os);
  os_read_dir _ os := (Ok true, os);
  os_next_entry rd os := ((Ok (if rd then Some bs_a else None), false), os);
  os_create_dir _ os := (Ok tt, os);
  os_remove_dir _ os := (Ok tt, os);
  os_remove_file _ os := (Ok tt, os);
  os_rename _ _ os := (Ok tt, os);
  os_symlink _ _ os := (Ok tt, os);
  os_read_link _ os := (Ok bs_a, os);
  os_set_permissions _ _ os := (Ok tt, os);
  os_set_file_atime _ _ os := (Ok tt, os);
  os_set_file_mtime _ _ os := (Ok tt, os);
  os_filetime_now os := ((0, 0), os);
  os_instant_now os := (0, os);
|}.

#[export] Instance quiet_valid : OsValid unit bool unit.
Proof.
  split; cbn.
  - intros _ _ m [= <-]. by split_and!.
  - intros [] _ name [= <-]. by vm_compute.
  - intros _ _ t [= <-]. by vm_compute.
Qed.

Definition state : ServerState (@MirrorFs table nat unit bool _ _) :=
  mkServerState (mirror_new [x2f] tt) new_transaction_tracker [].

(** A client that looks up a name. *)
Definition input : list byte :=
  message_wire ([], call_bytes 7 (mk_call_body 2 NFS3_PROGRAM 3 3 opaque_auth_default opaque_auth_default)
    (to_bytes LOOKUP3args_codec (mk_LOOKUP3args (mk_diropargs3 (fh_to_nfs DemoFs.fhc (fh64_new 1)) bs_a)))).
Definition acts : list (action (@MirrorFs table nat unit bool _ _)) :=
  [AReceive (len input); APush (len input); APull 4; APull (len input - 4); AFragment; AServe 0 1 2; AReply].
Definition final := Connection.run mirror_file_system DemoServer.ctx acts (connection_new state input).

Lemma server_context : context_ok DemoServer.ctx.
Proof. split; [by vm_compute..|]. apply Handle.converter_new_wf. Qed.
End DemoQuiet.

Import DemoMirror DemoQuiet.

Lemma mirror_calls_answered_witness :
  match DemoQuiet.final with
  | Some (c, evs) => length (served evs) = 1%nat /\ mirror_ok (ss_vfs (cn_server c))
  | None => False
  end.
Proof.
  destruct DemoQuiet.final as [[c evs]|] eqn:E.
  - split.
    + assert (option_map (fun x => length (served x.2)) DemoQuiet.final = Some 1%nat) as Hl by (vm_compute; reflexivity).
      rewrite E in Hl. by injection Hl.
    + refine (proj1 (proj1 (mirror_calls_answered DemoServer.ctx DemoQuiet.state DemoQuiet.input DemoQuiet.acts c evs
        DemoQuiet.server_context (conj (mirror_new_ok _ _) (ex_intro _ [] tracker_inv_initial)) _ E))). by repeat constructor.
  - assert (option_map (fun _ => true) DemoQuiet.final = Some true) as Hl by (vm_compute; reflexivity).
    rewrite E in Hl. discriminate.
Defined.
