(* ===== verification/MemFs.v ===== *)
(** * The in-memory file system: [nfs3_server::memfs]

    [Fs] is the table of entries behind the lock, [MemFs] the file system around
    it.  A [FileHandleU64] is its [u64] ([Handle.handle_u64_bijection]); the
    handles appear again in the instance of [NfsFileSystem] at the end.

    The [HashSet] of a directory is the list of its elements in iteration order:
    where an insertion puts an element (it may reorder the set) is the parameter
    [hs_insert].  [current_time] reads the clock [mf_clock], whose successive
    values are arbitrary.  A panic under the write guard poisons the lock. *)

From S2P Require Import Prelude Xdr XdrLaws Nfs3Types Handle Vfs.
Open Scope Z_scope.
Open Scope nfs_scope.

(** [HashSet::insert] of an absent element, by the directory that owns the set. *)
Class HashSetOrder : Type := {
  hs_insert : Z -> Z -> list Z -> list Z;
  hs_insert_perm : forall d x l, x ∉ l -> hs_insert d x l ≡ₚ x :: l;
}.

(** ** Entries *)

Record Dir : Type := mkDir {
  dir_name : filename3;
  dir_parent : Z;
  dir_attr : fattr3;
  dir_content : list Z;
}.

Record File : Type := mkFile {
  file_name : filename3;
  file_attr : fattr3;
  file_content : list byte;
  file_verf : createverf3;
}.

Inductive Entry : Type :=
| EFile (f : File)
| EDir (d : Dir).

(** Attributes with some fields replaced. *)
Definition attr_with_times (atime mtime : nfstime3) (a : fattr3) : fattr3 :=
  mk_fattr3 (fattr3_type a) (fattr3_mode a) (fattr3_nlink a) (fattr3_uid a) (fattr3_gid a)
    (fattr3_size a) (fattr3_used a) (fattr3_rdev a) (fattr3_fsid a) (fattr3_fileid a)
    atime mtime (fattr3_ctime a).
Definition attr_with_owner (uid gid : Z) (a : fattr3) : fattr3 :=
  mk_fattr3 (fattr3_type a) (fattr3_mode a) (fattr3_nlink a) uid gid
    (fattr3_size a) (fattr3_used a) (fattr3_rdev a) (fattr3_fsid a) (fattr3_fileid a)
    (fattr3_atime a) (fattr3_mtime a) (fattr3_ctime a).
Definition attr_with_size (size : Z) (a : fattr3) : fattr3 :=
  mk_fattr3 (fattr3_type a) (fattr3_mode a) (fattr3_nlink a) (fattr3_uid a) (fattr3_gid a)
    size size (fattr3_rdev a) (fattr3_fsid a) (fattr3_fileid a)
    (fattr3_atime a) (fattr3_mtime a) (fattr3_ctime a).

Definition new_attr (type_ : ftype3) (mode size id : Z) (now : nfstime3) : fattr3 :=
  mk_fattr3 type_ mode 1 507 507 size size (mk_specdata3 0 0) 0 id now now now.

(** [Dir::new] and [File::new], at the time [now]. *)
Definition dir_new (name : filename3) (id parent : Z) (now : nfstime3) : Dir :=
  mkDir name parent (new_attr NF3DIR 511 0 id now) [].
Definition file_new (name : filename3) (id : Z) (content : list byte) (verf : createverf3)
  (now : nfstime3) : File :=
  mkFile name (new_attr NF3REG 493 (len content) id now) content verf.

Definition as_dir (e : Entry) : result Dir nfsstat3 :=
  match e with EDir d => Ok d | EFile _ => Err NFS3ERR_NOTDIR end.
Definition as_file (e : Entry) : result File nfsstat3 :=
  match e with EFile f => Ok f | EDir _ => Err NFS3ERR_ISDIR end.
Definition entry_attr (e : Entry) : fattr3 :=
  match e with EFile f => file_attr f | EDir d => dir_attr d end.
Definition entry_fileid (e : Entry) : Z := fattr3_fileid (entry_attr e).
Definition entry_name (e : Entry) : filename3 :=
  match e with EFile f => file_name f | EDir d => dir_name d end.

Definition dir_with_content (l : list Z) (d : Dir) : Dir :=
  mkDir (dir_name d) (dir_parent d) (dir_attr d) l.
Definition entry_set_name (name : filename3) (e : Entry) : Entry :=
  match e with
  | EFile f => EFile (mkFile name (file_attr f) (file_content f) (file_verf f))
  | EDir d => EDir (mkDir name (dir_parent d) (dir_attr d) (dir_content d))
  end.
Definition entry_with_attr (a : fattr3) (e : Entry) : Entry :=
  match e with
  | EFile f => EFile (mkFile (file_name f) a (file_content f) (file_verf f))
  | EDir d => EDir (mkDir (dir_name d) (dir_parent d) a (dir_content d))
  end.

(** ** File contents *)

(** [Vec::resize] with zeros; growing beyond [isize::MAX] panics. *)
Definition vec_resize (size : Z) (v : list byte) : outcome (list byte) :=
  if size <=? len v then Ret (take (Z.to_nat size) v)
  else if size <=? isize_MAX then Ret (v ++ replicate (Z.to_nat (size - len v)) x00)
  else Panic.

Definition file_resize (size : u64) (f : File) : outcome File :=
  match vec_resize size (file_content f) with
  | Ret content => Ret (mkFile (file_name f) (attr_with_size size (file_attr f)) content (file_verf f))
  | _ => Panic
  end.

(** [File::read]; [start + count] is a checked addition on [usize]. *)
Definition file_read (f : File) (offset : u64) (count : u32) : outcome (list byte * bool) :=
  let start := offset in
  if start + count <=? usize_MAX then
    let end_ := start + count in
    let bytes := file_content f in
    let eof := len bytes <=? end_ in
    let start := if len bytes <=? start then len bytes else start in
    let end_ := if len bytes <? end_ then len bytes else end_ in
    Ret (take (Z.to_nat (end_ - start)) (drop (Z.to_nat start) bytes), eof)
  else Panic.

Definition file_write (offset : u64) (data : list byte) (f : File) : outcome (result fattr3 nfsstat3) * File :=
  if len (file_content f) <? offset then (Ret (Err NFS3ERR_INVAL), f)
  else
    let end_offset := offset + len data in
    match (if len (file_content f) <? end_offset then file_resize end_offset f else Ret f) with
    | Ret f =>
        let content := take (Z.to_nat offset) (file_content f) ++ data ++
                       drop (Z.to_nat end_offset) (file_content f) in
        let f := mkFile (file_name f) (file_attr f) content (file_verf f) in
        (Ret (Ok (file_attr f)), f)
    | _ => (Panic, f)
    end.

(** [Entry::set_attr]: what it leaves, with the number of clock reads. *)
Definition set_attr (clock : nat -> nfstime3) (ticks : nat) (setattr : sattr3) (e : Entry)
  : outcome unit * Entry * nat :=
  let attr := entry_attr e in
  let '(atime, ticks) :=
    match sattr3_atime setattr with
    | atime_DONT_CHANGE => (fattr3_atime attr, ticks)
    | atime_SET_TO_CLIENT_TIME c => (c, ticks)
    | atime_SET_TO_SERVER_TIME => (clock ticks, S ticks)
    end in
  let '(mtime, ticks) :=
    match sattr3_mtime setattr with
    | mtime_DONT_CHANGE => (fattr3_mtime attr, ticks)
    | mtime_SET_TO_CLIENT_TIME c => (c, ticks)
    | mtime_SET_TO_SERVER_TIME => (clock ticks, S ticks)
    end in
  let uid := match sattr3_uid setattr with Some u => u | None => fattr3_uid attr end in
  let gid := match sattr3_gid setattr with Some g => g | None => fattr3_gid attr end in
  let e := entry_with_attr (attr_with_owner uid gid (attr_with_times atime mtime attr)) e in
  match sattr3_size setattr, e with
  | Some s, EFile f =>
      match file_resize s f with
      | Ret f => (Ret tt, EFile f, ticks)
      | _ => (Panic, e, ticks)
      end
  | _, _ => (Ret tt, e, ticks)
  end.

(** ** [Fs] *)

Record Fs : Type := mkFs {
  fs_entries : gmap Z Entry;
  fs_root : Z;
}.

Definition ROOT_ID : Z := 1.

Definition fs_set (id : Z) (e : Entry) (f : Fs) : Fs := mkFs (<[id := e]> (fs_entries f)) (fs_root f).
Definition fs_del (id : Z) (f : Fs) : Fs := mkFs (delete id (fs_entries f)) (fs_root f).

(** [Fs::new] with [Dir::root_dir]. *)
Definition fs_new (now : nfstime3) : Fs :=
  let root := EDir (dir_new [x2f] ROOT_ID 0 now) in
  mkFs {[ entry_fileid root := root ]} (entry_fileid root).

Definition DOT : filename3 := [x2e].
Definition DOTDOT : filename3 := [x2e; x2e].

Definition fs_get (f : Fs) (id : Z) : option Entry := fs_entries f !! id.

(** The scan of a directory in [lookup]: the first entry with the name; an id
    without an entry ends it with an error. *)
Fixpoint scan_content (f : Fs) (filename : filename3) (l : list Z) : result Entry nfsstat3 :=
  match l with
  | [] => Err NFS3ERR_NOENT
  | i :: rest =>
      match fs_get f i with
      | None => Err NFS3ERR_SERVERFAULT
      | Some e => if decide (entry_name e = filename) then Ok e else scan_content f filename rest
      end
  end.

Definition fs_lookup (f : Fs) (dirid : Z) (filename : filename3) : result Entry nfsstat3 :=
  match fs_get f dirid with
  | None => Err NFS3ERR_NOENT
  | Some (EFile _) => Err NFS3ERR_NOTDIR
  | Some (EDir dir as entry) =>
      if decide (filename = DOT) then Ok entry
      else if decide (filename = DOTDOT) then ok_or (fs_get f (dir_parent dir)) NFS3ERR_SERVERFAULT
      else scan_content f filename (dir_content dir)
  end.

(** The [find] of [remove]: ids without an entry are skipped. *)
Definition find_by_name (f : Fs) (filename : filename3) (l : list Z) : option Z :=
  List.find (fun i => match fs_get f i with
                      | Some e => bool_decide (entry_name e = filename)
                      | None => false
                      end) l.

Definition content_remove (id : Z) (l : list Z) : list Z := filter (fun x => x <> id) l.

Definition fs_remove (dirid : Z) (filename : filename3) (f : Fs) : outcome (result unit nfsstat3) * Fs :=
  if bool_decide (filename = DOT) || bool_decide (filename = DOTDOT) then (Ret (Err NFS3ERR_INVAL), f)
  else
    match fs_get f dirid with
    | None => (Ret (Err NFS3ERR_NOENT), f)
    | Some entry =>
        match as_dir entry with
        | Err e => (Ret (Err e), f)
        | Ok dir =>
            match find_by_name f filename (dir_content dir) with
            | None => (Ret (Err NFS3ERR_NOENT), f)
            | Some object_id =>
                match fs_get f object_id with
                | None => (Ret (Err NFS3ERR_NOENT), f)
                | Some entry =>
                    let not_empty := match entry with
                                     | EDir dir => negb (bool_decide (dir_content dir = []))
                                     | EFile _ => false
                                     end in
                    if not_empty then (Ret (Err NFS3ERR_NOTEMPTY), f)
                    else
                      let f := fs_del object_id f in
                      match fs_get f dirid with
                      | None => (Panic, f)
                      | Some entry =>
                          match as_dir entry with
                          | Err e => (Ret (Err e), f)
                          | Ok dir =>
                              let dir := dir_with_content (content_remove object_id (dir_content dir)) dir in
                              (Ret (Ok tt), fs_set dirid (EDir dir) f)
                          end
                      end
                end
            end
        end
    end.

(** The loop that looks for [from_id] among the ancestors of [current]; [None]
    is the [break] at the root. *)
Fixpoint ancestor_loop (fuel : nat) (f : Fs) (from_id current : Z) : outcome (option nfsstat3) :=
  match fuel with
  | O => OutOfFuel
  | S fuel' =>
      if current =? from_id then Ret (Some NFS3ERR_INVAL)
      else
        match fs_get f current with
        | None => Ret (Some NFS3ERR_NOENT)
        | Some (EDir dir) =>
            if current =? fs_root f then Ret None
            else ancestor_loop fuel' f from_id (dir_parent dir)
        | Some (EFile _) => Ret (Some NFS3ERR_SERVERFAULT)
        end
  end.

(** Distinct ancestors are distinct entries. *)
Definition ancestor_fuel (f : Fs) : nat := S (size (fs_entries f)).

Section hash.
Context `{HashSetOrder}.

(** [HashSet::insert] on the content of the directory [id]. *)
Definition content_insert (id x : Z) (l : list Z) : bool * list Z :=
  if decide (x ∈ l) then (false, l) else (true, hs_insert id x l).

Definition fs_push (parent : Z) (entry : Entry) (f : Fs) : outcome (result unit nfsstat3) * Fs :=
  let id := entry_fileid entry in
  match fs_get f id with
  | Some _ => (Ret (Err NFS3ERR_EXIST), f)
  | None =>
      let f := fs_set id entry f in
      match fs_get f parent with
      | None => (Ret (Err NFS3ERR_NOENT), fs_del id f)
      | Some (EFile _) => (Ret (Err NFS3ERR_NOTDIR), fs_del id f)
      | Some (EDir dir) =>
          let '(added, l) := content_insert parent id (dir_content dir) in
          let f := fs_set parent (EDir (dir_with_content l dir)) f in
          if added then (Ret (Ok tt), f) else (Panic, f)
      end
  end.

(** The part of [rename] that makes room for the new name. *)
Definition rename_replace (from_entry : Entry) (to_dirid : Z) (to_filename : filename3) (f : Fs)
  : outcome (result unit nfsstat3) * Fs :=
  match from_entry, fs_lookup f to_dirid to_filename with
  | _, Err NFS3ERR_NOENT => (Ret (Ok tt), f)
  | EFile _, Ok (EFile _) => fs_remove to_dirid to_filename f
  | EDir _, Ok (EDir tgt_dir) =>
      if bool_decide (dir_content tgt_dir = []) then fs_remove to_dirid to_filename f
      else (Ret (Err NFS3ERR_NOTEMPTY), f)
  | EFile _, Ok (EDir _) => (Ret (Err NFS3ERR_NOTDIR), f)
  | EDir _, Ok (EFile _) => (Ret (Err NFS3ERR_NOTDIR), f)
  | _, Err e => (Ret (Err e), f)
  end.

(** The part of [rename] that moves the entry. *)
Definition rename_move (from_dirid from_id to_dirid : Z) (to_filename : filename3) (f : Fs)
  : outcome (result unit nfsstat3) * Fs :=
  match fs_get f from_dirid with
  | None => (Ret (Err NFS3ERR_SERVERFAULT), f)
  | Some e =>
      match as_dir e with
      | Err e => (Ret (Err e), f)
      | Ok from_dir =>
          let f := fs_set from_dirid
                     (EDir (dir_with_content (content_remove from_id (dir_content from_dir)) from_dir)) f in
          match fs_get f to_dirid with
          | None => (Ret (Err NFS3ERR_SERVERFAULT), f)
          | Some e =>
              match as_dir e with
              | Err e => (Ret (Err e), f)
              | Ok to_dir =>
                  let '(added, l) := content_insert to_dirid from_id (dir_content to_dir) in
                  let f := fs_set to_dirid (EDir (dir_with_content l to_dir)) f in
                  if negb added then (Ret (Err NFS3ERR_SERVERFAULT), f)
                  else
                    match fs_get f from_id with
                    | None => (Ret (Err NFS3ERR_SERVERFAULT), f)
                    | Some entry =>
                        let entry := entry_set_name to_filename entry in
                        let entry := match entry with
                                     | EDir d => EDir (mkDir (dir_name d) to_dirid (dir_attr d) (dir_content d))
                                     | EFile _ => entry
                                     end in
                        (Ret (Ok tt), fs_set from_id entry f)
                    end
              end
          end
      end
  end.

Definition fs_rename (from_dirid : Z) (from_filename : filename3) (to_dirid : Z) (to_filename : filename3)
  (f : Fs) : outcome (result unit nfsstat3) * Fs :=
  match fs_lookup f from_dirid from_filename with
  | Err e => (Ret (Err e), f)
  | Ok from_entry =>
      let from_id := entry_fileid from_entry in
      if bool_decide (from_dirid = to_dirid) && bool_decide (from_filename = to_filename)
      then (Ret (Ok tt), f)
      else
        match rename_replace from_entry to_dirid to_filename f with
        | (Ret (Ok _), f) =>
            let check := match from_entry with
                         | EDir _ => ancestor_loop (ancestor_fuel f) f from_id to_dirid
                         | EFile _ => Ret None
                         end in
            match check with
            | Ret None => rename_move from_dirid from_id to_dirid to_filename f
            | Ret (Some e) => (Ret (Err e), f)
            | Panic => (Panic, f)
            | OutOfFuel => (OutOfFuel, f)
            end
        | (o, f) => (o, f)
        end
  end.

(** ** [MemFs] *)

Record MemFs : Type := mkMemFs {
  mf_fs : Fs;
  mf_poisoned : bool;
  mf_rootdir : Z;
  mf_nextid : Z;
  mf_clock : nat -> nfstime3;
  mf_ticks : nat;
}.

Definition mf_set_fs (f : Fs) (m : MemFs) : MemFs :=
  mkMemFs f (mf_poisoned m) (mf_rootdir m) (mf_nextid m) (mf_clock m) (mf_ticks m).
Definition mf_set_ticks (n : nat) (m : MemFs) : MemFs :=
  mkMemFs (mf_fs m) (mf_poisoned m) (mf_rootdir m) (mf_nextid m) (mf_clock m) n.

(** [Default for MemFs]: the clock is read for the root directory. *)
Definition memfs_default (clock : nat -> nfstime3) : MemFs :=
  let root := fs_new (clock O) in
  mkMemFs root false (fs_root root) (fs_root root + 1) clock 1.

Definition current_time : prog MemFs nfstime3 := fun m =>
  (Ret (mf_clock m (mf_ticks m)), mf_set_ticks (S (mf_ticks m)) m).

(** [nextid.fetch_add(1)]. *)
Definition fetch_nextid : prog MemFs Z := fun m =>
  (Ret (mf_nextid m), mkMemFs (mf_fs m) (mf_poisoned m) (mf_rootdir m) ((mf_nextid m + 1) mod 2 ^ 64)
                        (mf_clock m) (mf_ticks m)).

(** [self.fs.read().expect(..)] and [self.fs.write().expect(..)]. *)
Definition with_read {A} (k : Fs -> outcome A) : prog MemFs A := fun m =>
  if mf_poisoned m then (Panic, m) else (k (mf_fs m), m).

Definition with_write {A} (k : Fs -> outcome A * Fs) : prog MemFs A := fun m =>
  if mf_poisoned m then (Panic, m)
  else
    let '(o, f) := k (mf_fs m) in
    let m := mf_set_fs f m in
    match o with
    | Ret a => (Ret a, m)
    | o => (o, mkMemFs (mf_fs m) true (mf_rootdir m) (mf_nextid m) (mf_clock m) (mf_ticks m))
    end.

Definition memfs_add_dir (dirid : Z) (dirname : filename3) : vfs_method MemFs (Z * fattr3) :=
  do* newid := fetch_nextid in
  do* now := current_time in
  let dir := EDir (dir_new dirname newid dirid now) in
  let attr := entry_attr dir in
  do* r := with_write (fs_push dirid dir) in
  pret (result_map (fun _ => (newid, attr)) r).

(** [file.set_attr(attr)] on an entry that is not yet in the table. *)
Definition set_attr_here (attr : sattr3) (e : Entry) : prog MemFs Entry := fun m =>
  let '(o, e, ticks) := set_attr (mf_clock m) (mf_ticks m) attr e in
  (match o with Ret _ => Ret e | Panic => Panic | OutOfFuel => OutOfFuel end, mf_set_ticks ticks m).

(** The critical section of [add_file]. *)
Definition insert_file (dirid newid : Z) (file : Entry) (attr : fattr3) (verf : option createverf3) (f : Fs)
  : outcome (result (Z * fattr3) nfsstat3) * Fs :=
  match fs_lookup f dirid (entry_name file) with
  | Err NFS3ERR_NOENT =>
      match fs_push dirid file f with
      | (Ret r, f) => (Ret (result_map (fun _ => (newid, attr)) r), f)
      | (Panic, f) => (Panic, f)
      | (OutOfFuel, f) => (OutOfFuel, f)
      end
  | Ok existing =>
      match existing, verf with
      | EFile existing_file, Some v =>
          if decide (v = file_verf existing_file)
          then (Ret (Ok (fattr3_fileid (file_attr existing_file), attr)), f)
          else (Ret (Err NFS3ERR_EXIST), f)
      | _, _ => (Ret (Err NFS3ERR_EXIST), f)
      end
  | Err e => (Ret (Err e), f)
  end.

(** [createverf3::default()]. *)
Definition createverf_default : createverf3 := replicate 8 x00.

Definition memfs_add_file (dirid : Z) (filename : filename3) (attr : sattr3) (content : list byte)
  (verf : option createverf3) : vfs_method MemFs (Z * fattr3) :=
  do* newid := fetch_nextid in
  do* now := current_time in
  let file := EFile (file_new filename newid content (default createverf_default verf) now) in
  do* file := set_attr_here attr file in
  let attr := entry_attr file in
  with_write (insert_file dirid newid file attr verf).

Fixpoint lookup_path (f : Fs) (components : list filename3) (fid : Z) : result Z nfsstat3 :=
  match components with
  | [] => Ok fid
  | component :: rest =>
      match component with
      | [] => lookup_path f rest fid
      | _ => match fs_lookup f fid component with
             | Ok entry => lookup_path f rest (entry_fileid entry)
             | Err e => Err e
             end
      end
  end.

Definition memfs_path_to_id (path : list byte) : vfs_method MemFs Z := fun m =>
  with_read (fun f => Ret (lookup_path f (split_slash path) (mf_rootdir m))) m.

(** The ids after the first one equal to [start_after]. *)
Fixpoint after_id (start_after : Z) (l : list Z) : option (list Z) :=
  match l with
  | [] => None
  | i :: rest => if i =? start_after then Some rest else after_id start_after rest
  end.

(** [MemFsIterator]: the ids still to be visited. *)
Definition fs_make_iter (f : Fs) (dirid : Z) (start_after : cookie3) : result (list Z) nfsstat3 :=
  match fs_get f dirid with
  | None => Err NFS3ERR_NOENT
  | Some entry =>
      match as_dir entry with
      | Err e => Err e
      | Ok dir =>
          if start_after =? 0 then Ok (dir_content dir)
          else ok_or (after_id start_after (dir_content dir)) NFS3ERR_BAD_COOKIE
      end
  end.

Definition memfs_make_iter (dirid : Z) (start_after : cookie3) : vfs_method MemFs (list Z) :=
  with_read (fun f => Ret (fs_make_iter f dirid start_after)).

(** [visit_next_entry]: the ids that are gone are skipped. *)
Fixpoint visit_next_entry {R} (f : Fs) (visit : Z -> Entry -> R) (ids : list Z) : NextResult R * list Z :=
  match ids with
  | [] => (NextEof, [])
  | id :: rest =>
      match fs_get f id with
      | None => visit_next_entry f visit rest
      | Some entry => (NextOk (visit id entry), rest)
      end
  end.

(** The lock is only taken when there is an id left. *)
Definition memfs_next {R} (visit : Z -> Entry -> R) (ids : list Z) : prog MemFs (NextResult R * list Z) :=
  match ids with
  | [] => pret (NextEof, [])
  | _ => with_read (fun f => Ret (visit_next_entry f visit ids))
  end.

(** ** Configuration: [config.rs] *)

Record MemFsConfigEntry : Type := mkConfigEntry {
  ce_parent : list byte;
  ce_name : list byte;
  ce_is_dir : bool;
  ce_content : list byte;
}.

(** [path.split('/').next_back()]. *)
Definition last_component (path : list byte) : list byte :=
  match last (split_slash path) with Some c => c | None => [] end.

(** [path.trim_end_matches(pat)], [fuel] removals. *)
Fixpoint trim_end_matches (fuel : nat) (pat path : list byte) : list byte :=
  match fuel with
  | O => path
  | S fuel' =>
      let n := (length path - length pat)%nat in
      if bool_decide (pat <> []) && bool_decide (drop n path = pat) && (length pat <=? length path)%nat
      then trim_end_matches fuel' pat (take n path)
      else path
  end.

Definition config_entry (path : list byte) (is_dir : bool) (content : list byte) : MemFsConfigEntry :=
  let name := last_component path in
  mkConfigEntry (trim_end_matches (length path) name path) name is_dir content.

Definition config_add_dir (path : list byte) (entries : list MemFsConfigEntry) : list MemFsConfigEntry :=
  entries ++ [config_entry path true []].
Definition config_add_file (path content : list byte) (entries : list MemFsConfigEntry)
  : list MemFsConfigEntry :=
  entries ++ [config_entry path false content].

(** [sattr3::default()]. *)
Definition sattr3_default : sattr3 := mk_sattr3 None None None None atime_DONT_CHANGE mtime_DONT_CHANGE.

Fixpoint memfs_add_entries (entries : list MemFsConfigEntry) : vfs_method MemFs unit :=
  match entries with
  | [] => pret (Ok tt)
  | entry :: rest =>
      do* id := memfs_path_to_id (ce_parent entry) in
      match id with
      | Err e => pret (Err e)
      | Ok id =>
          do* r := if ce_is_dir entry then memfs_add_dir id (ce_name entry)
                   else memfs_add_file id (ce_name entry) sattr3_default (ce_content entry) None in
          match r with
          | Err e => pret (Err e)
          | Ok _ => memfs_add_entries rest
          end
      end
  end.

(** [MemFs::new]. *)
Definition memfs_new (clock : nat -> nfstime3) (config : list MemFsConfigEntry)
  : outcome (result MemFs nfsstat3) :=
  match memfs_add_entries config (memfs_default clock) with
  | (Ret (Ok _), m) => Ret (Ok m)
  | (Ret (Err e), _) => Ret (Err e)
  | (Panic, _) => Panic
  | (OutOfFuel, _) => OutOfFuel
  end.

(** ** The methods, on ids *)

Definition memfs_lookup (dirid : Z) (filename : filename3) : vfs_method MemFs Z :=
  with_read (fun f => Ret (result_map entry_fileid (fs_lookup f dirid filename))).

Definition memfs_getattr (id : Z) : vfs_method MemFs fattr3 :=
  with_read (fun f => Ret (result_map entry_attr (ok_or (fs_get f id) NFS3ERR_NOENT))).

Definition memfs_read (id : Z) (offset : u64) (count : u32) : vfs_method MemFs (list byte * bool) :=
  with_read (fun f =>
    match fs_get f id with
    | None => Ret (Err NFS3ERR_NOENT)
    | Some entry =>
        match as_file entry with
        | Err e => Ret (Err e)
        | Ok file => match file_read file offset count with
                     | Ret r => Ret (Ok r)
                     | _ => Panic
                     end
        end
    end).

Definition memfs_setattr (id : Z) (setattr : sattr3) : vfs_method MemFs fattr3 := fun m =>
  if mf_poisoned m then (Panic, m)
  else
    match fs_get (mf_fs m) id with
    | None => (Ret (Err NFS3ERR_NOENT), m)
    | Some entry =>
        let '(o, entry, ticks) := set_attr (mf_clock m) (mf_ticks m) setattr entry in
        with_write (fun f =>
          (match o with Ret _ => Ret (Ok (entry_attr entry)) | _ => Panic end, fs_set id entry f))
          (mf_set_ticks ticks m)
    end.

Definition memfs_write (id : Z) (offset : u64) (data : list byte) : vfs_method MemFs fattr3 :=
  with_write (fun f =>
    match fs_get f id with
    | None => (Ret (Err NFS3ERR_NOENT), f)
    | Some (EDir _) => (Ret (Err NFS3ERR_INVAL), f)
    | Some (EFile file) =>
        let '(o, file) := file_write offset data file in (o, fs_set id (EFile file) f)
    end).

Definition memfs_create (dirid : Z) (filename : filename3) (attr : sattr3) : vfs_method MemFs (Z * fattr3) :=
  memfs_add_file dirid filename attr [] None.

Definition memfs_create_exclusive (dirid : Z) (filename : filename3) (createverf : createverf3)
  : vfs_method MemFs Z :=
  do* r := memfs_add_file dirid filename sattr3_default [] (Some createverf) in
  pret (result_map fst r).

Definition memfs_remove (dirid : Z) (filename : filename3) : vfs_method MemFs unit :=
  with_write (fs_remove dirid filename).

Definition memfs_rename (from_dirid : Z) (from_filename : filename3) (to_dirid : Z) (to_filename : filename3)
  : vfs_method MemFs unit :=
  with_write (fs_rename from_dirid from_filename to_dirid to_filename).

(** ** The instance of [NfsFileSystem] *)

Section instance.
Context `{Target}.

Definition to_handle {A} (r : result Z A) : result FileHandleU64 A := result_map fh64_new r.
Definition to_handle_attr {A B} (r : result (Z * A) B) : result (FileHandleU64 * A) B :=
  result_map (fun '(id, a) => (fh64_new id, a)) r.

Definition memfs_readdir_iter : Iterator MemFs DirEntry := {|
  it_state := list Z;
  it_next := memfs_next (fun id entry => mk_entry3 id (entry_name entry) id);
  it_drop _ := pret tt;
|}.

Definition memfs_readdirplus_iter : Iterator MemFs (DirEntryPlus FileHandleU64) := {|
  it_state := list Z;
  it_next := memfs_next (fun id entry =>
    mkDirEntryPlus id (entry_name entry) id (Some (entry_attr entry)) (Some (fh64_new id)));
  it_drop _ := pret tt;
|}.

Definition memfs_read_fs : NfsReadFileSystem MemFs FileHandleU64 := {|
  readdir_iter := memfs_readdir_iter;
  readdirplus_iter := memfs_readdirplus_iter;
  vfs_root_dir m := (Ret (fh64_new (mf_rootdir m)), m);
  vfs_lookup dirid filename :=
    do* r := memfs_lookup (fh64_as_u64 dirid) filename in pret (to_handle r);
  vfs_lookup_by_path path := do* r := memfs_path_to_id path in pret (to_handle r);
  vfs_getattr id := memfs_getattr (fh64_as_u64 id);
  vfs_read id offset count := memfs_read (fh64_as_u64 id) offset count;
  vfs_readdir dirid cookie := memfs_make_iter (fh64_as_u64 dirid) cookie;
  vfs_readdirplus dirid cookie := memfs_make_iter (fh64_as_u64 dirid) cookie;
  vfs_readlink _ := pret (Err NFS3ERR_NOTSUPP);
  vfs_fsinfo := fsinfo_default (fun id => memfs_getattr (fh64_as_u64 id));
|}.

Definition memfs_file_system : NfsFileSystem MemFs FileHandleU64 := {|
  nfs_read_fs := memfs_read_fs;
  vfs_capabilities := pret ReadWrite;
  vfs_setattr id setattr := memfs_setattr (fh64_as_u64 id) setattr;
  vfs_write id offset data := memfs_write (fh64_as_u64 id) offset data;
  vfs_create dirid filename attr :=
    do* r := memfs_create (fh64_as_u64 dirid) filename attr in pret (to_handle_attr r);
  vfs_create_exclusive dirid filename verf :=
    do* r := memfs_create_exclusive (fh64_as_u64 dirid) filename verf in pret (to_handle r);
  vfs_mkdir dirid dirname :=
    do* r := memfs_add_dir (fh64_as_u64 dirid) dirname in pret (to_handle_attr r);
  vfs_remove dirid filename := memfs_remove (fh64_as_u64 dirid) filename;
  vfs_rename from_dirid from_filename to_dirid to_filename :=
    memfs_rename (fh64_as_u64 from_dirid) from_filename (fh64_as_u64 to_dirid) to_filename;
  vfs_symlink _ _ _ _ := pret (Err NFS3ERR_NOTSUPP);
|}.
End instance.
End hash.
