(* ===== verification/MemFsTree.v ===== *)
(** * The directory tree of the in-memory file system

    The abstract state of [MemFs]: a finite tree of named files and
    directories, with the four operations that change its shape.  [tree_wf] is
    what makes it a tree: every node but the root is in exactly one directory,
    a directory records the directory it is in, and every directory has a
    finite distance to the root.  The refinement is in [MemFsLaws]. *)

From stdpp Require Import gmap sets fin_sets.
From S2P Require Import Prelude Nfs3Types.
Open Scope Z_scope.

Inductive node : Type :=
| NFile (name : filename3)
| NDir (name : filename3) (parent : Z) (kids : gset Z).

Abbreviation tree := (gmap Z node).

Definition node_name (n : node) : filename3 :=
  match n with NFile name => name | NDir name _ _ => name end.

(** What a node becomes when it is moved to the directory [p] as [name]. *)
Definition node_moved (p : Z) (name : filename3) (n : node) : node :=
  match n with NFile _ => NFile name | NDir _ _ k => NDir name p k end.

(** [i] is a directory with parent [p] and children [k]. *)
Definition is_dir (t : tree) (i p : Z) (k : gset Z) : Prop := exists name, t !! i = Some (NDir name p k).

(** [c] is a child of [i]. *)
Definition kid (t : tree) (i c : Z) : Prop := exists p k, is_dir t i p k /\ c ∈ k.

(** The child of [d] called [name] is [i]. *)
Definition child (t : tree) (d : Z) (name : filename3) (i : Z) : Prop :=
  kid t d i /\ exists n, t !! i = Some n /\ node_name n = name.

Inductive height (r : Z) (t : tree) : Z -> nat -> Prop :=
| height_root : height r t r 0
| height_step i p k n : i <> r -> is_dir t i p k -> height r t p n -> height r t i (Datatypes.S n).

Record tree_wf (r : Z) (t : tree) : Prop := {
  tw_root : exists p k, is_dir t r p k;
  tw_kid : forall i c, kid t i c -> c <> r /\ is_Some (t !! c);
  tw_parent : forall i c p k, kid t i c -> is_dir t c p k -> p = i;
  tw_unique : forall i j c, kid t i c -> kid t j c -> i = j;
  tw_placed : forall i, i <> r -> is_Some (t !! i) -> exists p, kid t p i;
  tw_height : forall i p k, is_dir t i p k -> exists n, height r t i n;
}.

(** No directory has two children of the same name. *)
Definition names_unique (t : tree) : Prop :=
  forall d name i j, child t d name i -> child t d name j -> i = j.

(** ** The operations *)

Definition set_kids (f : gset Z -> gset Z) (n : node) : node :=
  match n with NFile name => NFile name | NDir name p k => NDir name p (f k) end.

Definition tree_push (p c : Z) (n : node) (t : tree) : tree :=
  alter (set_kids (fun k => {[c]} ∪ k)) p (<[c := n]> t).

Definition tree_remove (p c : Z) (t : tree) : tree :=
  alter (set_kids (fun k => k ∖ {[c]})) p (delete c t).

Definition tree_move (p c q : Z) (name : filename3) (t : tree) : tree :=
  alter (node_moved q name) c
    (alter (set_kids (fun k => {[c]} ∪ k)) q (alter (set_kids (fun k => k ∖ {[c]})) p t)).

(** ** What the operations do to directories and children *)

Lemma is_dir_fun t i p k p' k' : is_dir t i p k -> is_dir t i p' k' -> p = p' /\ k = k'.
Proof. intros [n E] [n' E']. rewrite E in E'. by injection E' as -> -> ->. Qed.

Lemma kid_in t i c p k : is_dir t i p k -> kid t i c <-> c ∈ k.
Proof.
  intros Hd. split; [|intros ?; by exists p, k].
  intros (p' & k' & Hd' & Hc). by destruct (is_dir_fun _ _ _ _ _ _ Hd Hd') as [_ ->].
Qed.

Lemma kid_fresh r t i c : tree_wf r t -> t !! c = None -> ~ kid t i c.
Proof. intros W E Hk. destruct (tw_kid _ _ W _ _ Hk) as [_ [n E']]. congruence. Qed.

(** Two directories whose chains to the root have different lengths differ. *)
Lemma height_fun r t i n m : height r t i n -> height r t i m -> n = m.
Proof.
  intros Hn. revert m. induction Hn as [|i p k n Hr Hd Hn IH]; intros m Hm.
  - inversion Hm; congruence.
  - inversion Hm as [|? ? ? m' _ Hd' Hm']; subst; [congruence|].
    destruct (is_dir_fun _ _ _ _ _ _ Hd Hd') as [-> _]. f_equal. by apply IH.
Qed.

Lemma height_dir r t i n : tree_wf r t -> height r t i n -> exists p k, is_dir t i p k.
Proof. intros W [|? p k ? ? ? ?]; [apply (tw_root _ _ W)|by exists p, k]. Qed.

Lemma not_own_kid r t i : tree_wf r t -> ~ kid t i i.
Proof.
  intros W Hk. destruct Hk as (p & k & Hd & Hin).
  assert (Hk : kid t i i) by (by exists p, k).
  destruct (tw_height _ _ W _ _ _ Hd) as [n Hn].
  destruct (tw_kid _ _ W _ _ Hk) as [Hr _].
  inversion Hn as [|? p' k' m _ Hd' Hm]; subst; [done|].
  rewrite (tw_parent _ _ W _ _ _ _ Hk Hd') in Hm.
  pose proof (height_fun _ _ _ _ _ Hn Hm). lia.
Qed.

(** The heights below [n] are taken by distinct directories. *)
Lemma height_chain r t i n :
  tree_wf r t -> height r t i n ->
  exists l, length l = Datatypes.S n /\ NoDup l /\
            Forall (fun x => x ∈ dom t /\ exists m, (m <= n)%nat /\ height r t x m) l.
Proof.
  intros W Hn. induction Hn as [|i p k n Hr Hd Hn IH].
  - exists [r]. split; [done|]. split; [apply NoDup_singleton|]. constructor; [|constructor].
    destruct (tw_root _ _ W) as (p & k & name & E). split; [by apply elem_of_dom_2 in E|].
    exists O. split; [lia|constructor].
  - destruct IH as (l & Hl & Hnd & Hf). exists (i :: l). split; [cbn; lia|]. split.
    + constructor; [|done]. intros Hin. rewrite Forall_forall in Hf.
      destruct (Hf _ Hin) as (_ & m & Hm & Hh).
      assert (Hi : height r t i (Datatypes.S n)) by (by econstructor).
      pose proof (height_fun _ _ _ _ _ Hi Hh). lia.
    + constructor.
      * destruct Hd as [name E]. split; [by apply elem_of_dom_2 in E|].
        exists (Datatypes.S n). split; [lia|]. apply (height_step _ _ _ p k); [done|by exists name|done].
      * eapply Forall_impl; [exact Hf|]. intros x (? & m & ? & ?). split; [done|]. exists m. split; [lia|done].
Qed.

Lemma height_bound r t i n : tree_wf r t -> height r t i n -> (n < size t)%nat.
Proof.
  intros W Hn. destruct (height_chain _ _ _ _ W Hn) as (l & Hl & Hnd & Hf).
  rewrite <- (size_dom (D := gset Z)). apply Nat.lt_le_trans with (length l); [lia|].
  rewrite <- (size_list_to_set (C := gset Z)) by done. apply subseteq_size.
  intros x Hx. apply elem_of_list_to_set in Hx. rewrite Forall_forall in Hf. by apply Hf.
Qed.

Lemma is_dir_set_kids t f q i p k :
  is_dir (alter (set_kids f) q t) i p k <->
  exists k0, is_dir t i p k0 /\ k = if decide (i = q) then f k0 else k0.
Proof.
  unfold is_dir. destruct (decide (i = q)) as [->|Hne].
  - rewrite lookup_alter_eq. split.
    + intros [name E]. destruct (t !! q) as [[?|? ? k0]|]; cbn in E; try discriminate E.
      injection E as <- <- <-. exists k0. split; [by eexists|done].
    + intros (k0 & [name ->] & ->). by exists name.
  - rewrite lookup_alter_ne by done. split; [intros ?; by exists k|by intros (k0 & ? & ->)].
Qed.

Lemma is_dir_moved t q name c i p k :
  is_dir (alter (node_moved q name) c t) i p k <->
  exists p0, is_dir t i p0 k /\ p = if decide (i = c) then q else p0.
Proof.
  unfold is_dir. destruct (decide (i = c)) as [->|Hne].
  - rewrite lookup_alter_eq. split.
    + intros [n E]. destruct (t !! c) as [[?|? p0 ?]|]; cbn in E; try discriminate E.
      injection E as <- <- <-. exists p0. split; [by eexists|done].
    + intros (p0 & [n ->] & ->). by exists name.
  - rewrite lookup_alter_ne by done. split; [intros ?; by exists p|by intros (p0 & ? & ->)].
Qed.

Lemma is_dir_insert t c n i p k :
  is_dir (<[c := n]> t) i p k <->
  (i = c /\ exists name, n = NDir name p k) \/ (i <> c /\ is_dir t i p k).
Proof.
  unfold is_dir. destruct (decide (i = c)) as [->|Hne].
  - rewrite lookup_insert_eq. split; [intros [name [= ->]]; left; eauto|].
    intros [[_ [name ->]]|[? _]]; [by exists name|done].
  - rewrite lookup_insert_ne by done. naive_solver.
Qed.

Lemma is_dir_delete t c i p k : is_dir (delete c t) i p k <-> i <> c /\ is_dir t i p k.
Proof.
  unfold is_dir. destruct (decide (i = c)) as [->|Hne].
  - rewrite lookup_delete_eq. naive_solver.
  - rewrite lookup_delete_ne by done. naive_solver.
Qed.

Lemma kid_add t c q i x :
  kid (alter (set_kids (fun k => {[c]} ∪ k)) q t) i x <->
  kid t i x \/ (i = q /\ x = c /\ exists p k, is_dir t q p k).
Proof.
  unfold kid. setoid_rewrite is_dir_set_kids. split.
  - intros (p & k & (k0 & Hd & ->) & Hin). destruct (decide (i = q)) as [->|]; [|by left; exists p, k0].
    apply elem_of_union in Hin as [->%elem_of_singleton|Hin]; [right|left]; eauto 10.
  - intros [(p & k & Hd & Hin)|(-> & -> & p & k & Hd)].
    + exists p, (if decide (i = q) then {[c]} ∪ k else k). split; [by exists k|].
      destruct (decide (i = q)); set_solver.
    + exists p, ({[c]} ∪ k). split; [|set_solver]. exists k. by rewrite decide_True.
Qed.

Lemma kid_del t c q i x :
  kid (alter (set_kids (fun k => k ∖ {[c]})) q t) i x <-> kid t i x /\ ~ (i = q /\ x = c).
Proof.
  unfold kid. setoid_rewrite is_dir_set_kids. split.
  - intros (p & k & (k0 & Hd & ->) & Hin). destruct (decide (i = q)) as [->|].
    + apply elem_of_difference in Hin as [Hin Hx%not_elem_of_singleton]. split; [by exists p, k0|naive_solver].
    + split; [by exists p, k0|naive_solver].
  - intros ((p & k & Hd & Hin) & Hne). exists p, (if decide (i = q) then k ∖ {[c]} else k).
    split; [by exists k|]. destruct (decide (i = q)); set_solver.
Qed.

Lemma kid_moved t q name c i x : kid (alter (node_moved q name) c t) i x <-> kid t i x.
Proof.
  unfold kid. setoid_rewrite is_dir_moved. split.
  - intros (p & k & (p0 & Hd & ->) & Hin). by exists p0, k.
  - intros (p & k & Hd & Hin). exists (if decide (i = c) then q else p), k. eauto.
Qed.

Lemma kid_delete t c i x : kid (delete c t) i x <-> kid t i x /\ i <> c.
Proof. unfold kid. setoid_rewrite is_dir_delete. naive_solver. Qed.

(** A node without children, as the ones that are created and removed. *)
Definition leaf (n : node) : Prop := match n with NFile _ => True | NDir _ _ k => k = ∅ end.

Lemma kid_insert_leaf t c n i x : t !! c = None -> leaf n -> kid (<[c := n]> t) i x <-> kid t i x.
Proof.
  intros E Hl. unfold kid. setoid_rewrite is_dir_insert. split.
  - intros (p & k & [[-> [name ->]]|[? Hd]] & Hin); [cbn in Hl; set_solver|by exists p, k].
  - intros (p & k & [name Hd] & Hin). exists p, k. split; [|done]. right. split; [congruence|by exists name].
Qed.

(** ** The operations keep the tree a tree *)

Lemma tree_push_wf r t p c n :
  tree_wf r t -> (exists pp k, is_dir t p pp k) -> t !! c = None ->
  match n with NFile _ => True | NDir _ q k => q = p /\ k = ∅ end ->
  tree_wf r (tree_push p c n t).
Proof.
  intros W (pp & kp & Hp) Hc Hn. set (t' := tree_push p c n t).
  assert (Hleaf : leaf n) by (by destruct n; [|destruct Hn]).
  assert (Hpc : p <> c) by (intros ->; destruct Hp as [? Hp]; congruence).
  assert (Hkid : forall i x, kid t' i x <-> kid t i x \/ (i = p /\ x = c)).
  { intros i x. unfold t', tree_push. rewrite kid_add, kid_insert_leaf by done.
    split; [naive_solver|]. intros [?|[-> ->]]; [by left|right]. split; [done|]. split; [done|].
    exists pp, kp. apply is_dir_insert. by right. }
  assert (Hdir : forall i q k, is_dir t' i q k -> (i = c /\ q = p) \/ (i <> c /\ exists k0, is_dir t i q k0)).
  { intros i q k (k0 & Hd & _)%is_dir_set_kids.
    apply is_dir_insert in Hd as [[-> [name ->]]|[? ?]]; [left; by destruct Hn|right; eauto]. }
  assert (Hdir' : forall i q k, is_dir t i q k -> exists k', is_dir t' i q k').
  { intros i q k Hd. eexists. apply is_dir_set_kids. exists k. split; [|reflexivity].
    apply is_dir_insert. right. split; [intros ->; destruct Hd; congruence|done]. }
  assert (Hsome : forall i, is_Some (t' !! i) <-> i = c \/ is_Some (t !! i)).
  { intros i. unfold t', tree_push. rewrite lookup_alter_is_Some, lookup_insert_is_Some'. naive_solver. }
  assert (Hrc : c <> r) by (intros ->; destruct (tw_root _ _ W) as (? & ? & ? & ?); congruence).
  assert (Hh : forall i m, height r t i m -> height r t' i m).
  { intros i m Hm. induction Hm as [|i q k m Hr Hd Hm IH]; [constructor|].
    destruct (Hdir' _ _ _ Hd) as [k' Hd']. by econstructor. }
  split.
  - destruct (tw_root _ _ W) as (q & k & Hd). destruct (Hdir' _ _ _ Hd) as [k' Hd']. by exists q, k'.
  - intros i x [Hk|[-> ->]]%Hkid.
    + rewrite Hsome. destruct (tw_kid _ _ W _ _ Hk). naive_solver.
    + rewrite Hsome. naive_solver.
  - intros i x q k [Hk|[-> Hx]]%Hkid Hd; destruct (Hdir _ _ _ Hd) as [[Ex ->]|[Hne [k0 Hd0]]]; try done.
    + rewrite Ex in Hk. by apply (kid_fresh _ _ _ _ W Hc) in Hk.
    + by apply (tw_parent _ _ W i x q k0).
  - intros i j x [Hi|[-> Ex]]%Hkid [Hj|[-> Ex']]%Hkid; try done.
    + by apply (tw_unique _ _ W i j x).
    + rewrite Ex' in Hi. by apply (kid_fresh _ _ _ _ W Hc) in Hi.
    + rewrite Ex in Hj. by apply (kid_fresh _ _ _ _ W Hc) in Hj.
  - intros i Hr [->|Hi]%Hsome; [exists p; apply Hkid; by right|].
    destruct (tw_placed _ _ W _ Hr Hi) as [q Hq]. exists q. apply Hkid. by left.
  - intros i q k Hd. destruct (Hdir _ _ _ Hd) as [[-> ->]|[Hne [k0 Hd0]]].
    + destruct (tw_height _ _ W _ _ _ Hp) as [m Hm]. exists (Datatypes.S m). by econstructor; [..|apply Hh].
    + destruct (tw_height _ _ W _ _ _ Hd0) as [m Hm]. exists m. by apply Hh.
Qed.

Lemma kid_removed r t p c i x :
  tree_wf r t -> kid t p c -> (forall n, t !! c = Some n -> leaf n) ->
  kid (tree_remove p c t) i x <-> kid t i x /\ x <> c.
Proof.
  intros W Hpc Hleaf. unfold tree_remove. rewrite kid_del, kid_delete. split.
  - intros [[Hk Hi] Hx]. split; [done|]. intros ->. apply Hx.
    split; [by apply (tw_unique _ _ W i p c)|done].
  - intros [Hk Hx]. split; [|naive_solver]. split; [done|]. intros ->.
    destruct Hk as (q & k & [name E] & Hin). apply Hleaf in E. cbn in E. set_solver.
Qed.

Lemma tree_remove_wf r t p c :
  tree_wf r t -> kid t p c -> (forall n, t !! c = Some n -> leaf n) -> tree_wf r (tree_remove p c t).
Proof.
  intros W Hpc Hleaf. set (t' := tree_remove p c t).
  assert (Hkid : forall i x, kid t' i x <-> kid t i x /\ x <> c) by (intros; by eapply kid_removed).
  assert (Hdir : forall i q k, is_dir t' i q k -> i <> c /\ exists k0, is_dir t i q k0).
  { intros i q k (k0 & [? ?]%is_dir_delete & _)%is_dir_set_kids. eauto. }
  assert (Hdir' : forall i q k, is_dir t i q k -> i <> c -> exists k', is_dir t' i q k').
  { intros i q k Hd Hne. eexists. apply is_dir_set_kids. exists k. split; [|reflexivity].
    by apply is_dir_delete. }
  assert (Hsome : forall i, is_Some (t' !! i) <-> i <> c /\ is_Some (t !! i)).
  { intros i. unfold t', tree_remove. rewrite lookup_alter_is_Some, lookup_delete_is_Some. naive_solver. }
  destruct (tw_kid _ _ W _ _ Hpc) as [Hcr _].
  assert (Hh : forall i m, height r t i m -> i <> c -> height r t' i m).
  { intros i m Hm. induction Hm as [|i q k m Hr Hd Hm IH]; [constructor|]. intros Hic.
    destruct (Hdir' _ _ _ Hd Hic) as [k' Hd']. econstructor; [done|exact Hd'|]. apply IH. intros ->.
    destruct (tw_placed _ _ W i Hr) as [z Hz]; [destruct Hd as [? ->]; eauto|].
    pose proof (tw_parent _ _ W _ _ _ _ Hz Hd) as <-. destruct Hz as (q' & k'' & [name E] & Hin).
    apply Hleaf in E. cbn in E. set_solver. }
  split.
  - destruct (tw_root _ _ W) as (q & k & Hd). destruct (Hdir' _ _ _ Hd) as [k' Hd']; [done|]. by exists q, k'.
  - intros i x [Hk Hx]%Hkid. rewrite Hsome. destruct (tw_kid _ _ W _ _ Hk). naive_solver.
  - intros i x q k [Hk Hx]%Hkid (_ & k0 & Hd)%Hdir. by apply (tw_parent _ _ W i x q k0).
  - intros i j x [Hi _]%Hkid [Hj _]%Hkid. by apply (tw_unique _ _ W i j x).
  - intros i Hr [Hic Hi]%Hsome. destruct (tw_placed _ _ W _ Hr Hi) as [q Hq]. exists q. by apply Hkid.
  - intros i q k (Hic & k0 & Hd)%Hdir. destruct (tw_height _ _ W _ _ _ Hd) as [m Hm]. exists m. by apply Hh.
Qed.

(** The chain from [i] to the root does not meet [x]. *)
Inductive avoids (r x : Z) (t : tree) : Z -> Prop :=
| avoids_root : r <> x -> avoids r x t r
| avoids_step i p k : i <> x -> i <> r -> is_dir t i p k -> avoids r x t p -> avoids r x t i.

Lemma avoids_ne r x t i : avoids r x t i -> i <> x.
Proof. by destruct 1. Qed.

Lemma kid_moved_tree r t p c q name i x :
  tree_wf r t -> kid t p c -> (exists pp k, is_dir t q pp k) ->
  kid (tree_move p c q name t) i x <-> (kid t i x /\ x <> c) \/ (i = q /\ x = c).
Proof.
  intros W Hpc (pp & k & Hq). unfold tree_move. rewrite kid_moved, kid_add, kid_del. split.
  - intros [[Hk Hne]|(-> & -> & _)]; [left|by right]. split; [done|]. intros ->. apply Hne.
    split; [by apply (tw_unique _ _ W i p c)|done].
  - intros [[Hk Hx]|[-> ->]]; [left; naive_solver|right]. split; [done|]. split; [done|].
    exists pp. setoid_rewrite is_dir_set_kids. by do 2 eexists.
Qed.

Lemma tree_move_wf r t p c q name :
  tree_wf r t -> kid t p c -> (exists pp k, is_dir t q pp k) ->
  (forall pp k, is_dir t c pp k -> avoids r c t q) -> tree_wf r (tree_move p c q name t).
Proof.
  intros W Hpc Hq Hav. set (t' := tree_move p c q name t).
  assert (Hkid : forall i x, kid t' i x <-> (kid t i x /\ x <> c) \/ (i = q /\ x = c))
    by (intros; by eapply kid_moved_tree).
  assert (Hdir : forall i z k, is_dir t' i z k -> exists z0 k0, is_dir t i z0 k0 /\ z = if decide (i = c) then q else z0).
  { intros i z k (z0 & (k1 & (k0 & Hd & _)%is_dir_set_kids & _)%is_dir_set_kids & ->)%is_dir_moved. eauto. }
  assert (Hdir' : forall i z k, is_dir t i z k -> exists k', is_dir t' i (if decide (i = c) then q else z) k').
  { intros i z k Hd. eexists. apply is_dir_moved. exists z. split; [|done].
    apply is_dir_set_kids. eexists. split; [|reflexivity]. apply is_dir_set_kids. by exists k. }
  assert (Hsome : forall i, is_Some (t' !! i) <-> is_Some (t !! i)).
  { intros i. unfold t', tree_move. by rewrite !lookup_alter_is_Some. }
  destruct (tw_kid _ _ W _ _ Hpc) as [Hcr Hcs].
  assert (Hhq : forall i, avoids r c t i -> exists m, height r t' i m).
  { intros i Ha. induction Ha as [|i z k Hic Hir Hd Ha [m IH]]; [by exists O; constructor|].
    destruct (Hdir' _ _ _ Hd) as [k' Hd']. rewrite decide_False in Hd' by done.
    exists (Datatypes.S m). by econstructor. }
  assert (Hh : forall i m, height r t i m -> exists m', height r t' i m').
  { intros i m Hm. induction Hm as [|i z k m Hr Hd Hm [m' IH]]; [by exists O; constructor|].
    destruct (Hdir' _ _ _ Hd) as [k' Hd']. destruct (decide (i = c)) as [->|Hic].
    - destruct (Hhq q) as [m2 Hm2]; [by eapply Hav|]. exists (Datatypes.S m2). by econstructor.
    - exists (Datatypes.S m'). by econstructor. }
  split.
  - destruct (tw_root _ _ W) as (z & k & Hd). destruct (Hdir' _ _ _ Hd) as [k' Hd']. eauto.
  - intros i x Hk. rewrite Hsome. apply Hkid in Hk as [[Hk _]|[_ ->]]; [by apply (tw_kid _ _ W i)|done].
  - intros i x z k Hk (z0 & k0 & Hd & ->)%Hdir. apply Hkid in Hk as [[Hk Hx]|[-> ->]]; [|by rewrite decide_True].
    rewrite decide_False by done. by apply (tw_parent _ _ W i x z0 k0).
  - intros i j x [[Hi ?]|[-> ?]]%Hkid [[Hj ?]|[-> ?]]%Hkid; try done. by apply (tw_unique _ _ W i j x).
  - intros i Hr Hi%Hsome. destruct (decide (i = c)) as [->|Hic]; [exists q; apply Hkid; by right|].
    destruct (tw_placed _ _ W _ Hr Hi) as [z Hz]. exists z. apply Hkid. by left.
  - intros i z k (z0 & k0 & Hd & _)%Hdir. destruct (tw_height _ _ W _ _ _ Hd) as [m Hm]. by eapply Hh.
Qed.

(** ** Names *)

Lemma name_set_kids (t : tree) f q i n :
  alter (set_kids f) q t !! i = Some n -> exists n0, t !! i = Some n0 /\ node_name n0 = node_name n.
Proof.
  destruct (decide (i = q)) as [->|]; [rewrite lookup_alter_eq|rewrite lookup_alter_ne by done; eauto].
  destruct (t !! q) as [n0|]; [|done]. cbn. intros [= <-]. exists n0. by destruct n0.
Qed.

Lemma name_set_kids' (t : tree) f q i n0 :
  t !! i = Some n0 -> exists n, alter (set_kids f) q t !! i = Some n /\ node_name n = node_name n0.
Proof.
  intros E. destruct (decide (i = q)) as [->|].
  - rewrite lookup_alter_eq, E. exists (set_kids f n0). by destruct n0.
  - rewrite lookup_alter_ne by done. eauto.
Qed.

(** The children after each operation. *)
Lemma child_push r t p c n d name i :
  tree_wf r t -> (exists pp k, is_dir t p pp k) -> t !! c = None -> leaf n ->
  child (tree_push p c n t) d name i <->
  child t d name i \/ (d = p /\ i = c /\ name = node_name n).
Proof.
  intros W (pp & kp & Hp) Hc Hleaf. unfold child, tree_push. rewrite kid_add, kid_insert_leaf by done. split.
  - intros [Hk (n1 & (n0 & E & Hn)%name_set_kids & <-)]. destruct Hk as [Hk|(-> & -> & _)].
    + left. split; [done|]. rewrite lookup_insert_ne in E by (intros ->; by apply (kid_fresh _ _ _ _ W Hc) in Hk).
      eauto.
    + right. rewrite lookup_insert_eq in E. by injection E as <-.
  - intros [[Hk (n0 & E & <-)]|(-> & -> & ->)].
    + split; [by left|]. apply name_set_kids'. by rewrite lookup_insert_ne by congruence.
    + split; [right|apply name_set_kids'; by rewrite lookup_insert_eq].
      split; [done|]. split; [done|]. exists pp, kp. apply is_dir_insert. right. split; [|done].
      intros ->. destruct Hp; congruence.
Qed.

Lemma child_removed r t p c d name i :
  tree_wf r t -> kid t p c -> (forall n, t !! c = Some n -> leaf n) ->
  child (tree_remove p c t) d name i <-> child t d name i /\ i <> c.
Proof.
  intros W Hpc Hleaf. unfold child. rewrite (kid_removed _ _ _ _ _ _ W Hpc Hleaf). split.
  - intros [[Hk Hx] (n1 & (n0 & E & Hn)%name_set_kids & <-)]. rewrite lookup_delete_ne in E by done. eauto 10.
  - intros [[Hk (n0 & E & <-)] Hx]. split; [done|]. apply name_set_kids'. by rewrite lookup_delete_ne.
Qed.

Lemma child_moved r t p c q to d name i :
  tree_wf r t -> kid t p c -> (exists pp k, is_dir t q pp k) ->
  child (tree_move p c q to t) d name i <->
  (child t d name i /\ i <> c) \/ (d = q /\ i = c /\ name = to).
Proof.
  intros W Hpc Hq. unfold child. rewrite (kid_moved_tree _ _ _ _ _ _ _ _ W Hpc Hq). unfold tree_move.
  destruct (decide (i = c)) as [->|Hic].
  - rewrite lookup_alter_eq. destruct (tw_kid _ _ W _ _ Hpc) as [_ [n0 E0]].
    destruct (name_set_kids' t (fun k => k ∖ {[c]}) p _ _ E0) as (n1 & E1 & _).
    destruct (name_set_kids' _ (fun k => {[c]} ∪ k) q _ _ E1) as (n2 & E2 & _). rewrite E2. cbn. split.
    + intros [[[? ?]|[-> _]] (n & [= <-] & <-)]; [done|]. right. by destruct n2.
    + intros [[? ?]|(-> & _ & ->)]; [done|]. split; [by right|]. eexists. split; [done|]. by destruct n2.
  - rewrite lookup_alter_ne by done. split.
    + intros [[[Hk _]|[? ?]] (n2 & (n1 & (n0 & E & Hn0)%name_set_kids & Hn1)%name_set_kids & <-)]; [|done].
      left. split; [|done]. split; [done|]. exists n0. split; [done|congruence].
    + intros [[[Hk (n0 & E & <-)] _]|(? & ? & ?)]; [|done]. split; [by left|].
      destruct (name_set_kids' t (fun k => k ∖ {[c]}) p _ _ E) as (n1 & E1 & <-). by apply name_set_kids'.
Qed.
