(* ===== verification/MemFsLaws.v ===== *)
(** * Correctness of the in-memory file system

    [Fs] refines the tree of [MemFsTree]: [tree_of] forgets the attributes, the
    contents and the order of the hash sets. *)

From stdpp Require Import gmap sets fin_sets.
From S2P Require Import Prelude Xdr XdrLaws Nfs3Types Handle Vfs MemFs MemFsTree.
Open Scope Z_scope.
Open Scope nfs_scope.

(** ** The abstraction and the invariant *)

Definition node_of (e : Entry) : node :=
  match e with
  | EFile f => NFile (file_name f)
  | EDir d => NDir (dir_name d) (dir_parent d) (list_to_set (dir_content d))
  end.

Definition tree_of (f : Fs) : tree := node_of <$> fs_entries f.

(** An entry is stored under its id; the size of a file is the length of its
    content; a directory has no duplicate id. *)
Definition entry_ok (i : Z) (e : Entry) : Prop :=
  entry_fileid e = i /\
  match e with
  | EFile f => fattr3_type (file_attr f) = NF3REG /\ fattr3_size (file_attr f) = len (file_content f) /\
               fattr3_used (file_attr f) = len (file_content f)
  | EDir d => fattr3_type (dir_attr d) = NF3DIR /\ NoDup (dir_content d)
  end.

Record fs_wf (f : Fs) : Prop := {
  fw_entries : forall i e, fs_get f i = Some e -> entry_ok i e;
  fw_tree : tree_wf (fs_root f) (tree_of f);
}.

Lemma fs_get_set f i e j : fs_get (fs_set i e f) j = if decide (i = j) then Some e else fs_get f j.
Proof. unfold fs_get, fs_set. cbn. apply lookup_insert. Qed.

Lemma fs_get_set_eq f i e : fs_get (fs_set i e f) i = Some e.
Proof. by rewrite fs_get_set, decide_True. Qed.

Lemma fs_get_set_ne f i e j : i <> j -> fs_get (fs_set i e f) j = fs_get f j.
Proof. intros. by rewrite fs_get_set, decide_False. Qed.

Lemma fs_get_del f i j : fs_get (fs_del i f) j = if decide (i = j) then None else fs_get f j.
Proof. unfold fs_get, fs_del. cbn. apply lookup_delete. Qed.

Lemma fs_get_del_ne f i j : i <> j -> fs_get (fs_del i f) j = fs_get f j.
Proof. intros. by rewrite fs_get_del, decide_False. Qed.

Lemma fs_del_set f i e : fs_get f i = None -> fs_del i (fs_set i e f) = f.
Proof. destruct f as [m r]. unfold fs_get, fs_del, fs_set. cbn. intros. by rewrite delete_insert_id. Qed.

Lemma tree_lookup f i : tree_of f !! i = node_of <$> fs_get f i.
Proof. apply lookup_fmap. Qed.

Lemma tree_of_set f i e : tree_of (fs_set i e f) = <[i := node_of e]> (tree_of f).
Proof. apply fmap_insert. Qed.

Lemma tree_of_del f i : tree_of (fs_del i f) = delete i (tree_of f).
Proof. apply fmap_delete. Qed.

Lemma is_dir_get f i p k :
  is_dir (tree_of f) i p k <->
  exists d, fs_get f i = Some (EDir d) /\ p = dir_parent d /\ k = list_to_set (dir_content d).
Proof.
  unfold is_dir. rewrite tree_lookup. split.
  - intros [name E]. destruct (fs_get f i) as [[?|d]|]; cbn in E; try discriminate E.
    injection E as <- <- <-. by exists d.
  - intros (d & -> & -> & ->). by eexists.
Qed.

Lemma kid_get f i d c : fs_get f i = Some (EDir d) -> kid (tree_of f) i c <-> c ∈ dir_content d.
Proof.
  intros E. rewrite (kid_in _ _ _ (dir_parent d) (list_to_set (dir_content d))).
  - apply elem_of_list_to_set.
  - apply is_dir_get. by exists d.
Qed.

Lemma kid_dir f i c : kid (tree_of f) i c -> exists d, fs_get f i = Some (EDir d) /\ c ∈ dir_content d.
Proof.
  intros Hk. pose proof Hk as (p & k & (d & E & _)%is_dir_get & _). exists d. split; [done|].
  by apply (kid_get f i d).
Qed.

(** Replacing an entry by one with the same node. *)
Lemma tree_of_same f i e e' : fs_get f i = Some e' -> node_of e = node_of e' -> tree_of (fs_set i e f) = tree_of f.
Proof. intros E En. rewrite tree_of_set. apply insert_id. by rewrite tree_lookup, E, En. Qed.

Lemma tree_of_content f i d l g :
  fs_get f i = Some (EDir d) -> list_to_set l = g (list_to_set (dir_content d) : gset Z) ->
  tree_of (fs_set i (EDir (dir_with_content l d)) f) = alter (set_kids g) i (tree_of f).
Proof.
  intros E El. rewrite tree_of_set. apply map_eq. intros j. destruct (decide (j = i)) as [->|].
  - rewrite lookup_insert_eq, lookup_alter_eq, tree_lookup, E. cbn. by rewrite El.
  - by rewrite lookup_insert_ne, lookup_alter_ne.
Qed.

Lemma entry_ok_fileid f i e : fs_wf f -> fs_get f i = Some e -> entry_fileid e = i.
Proof. intros W E. apply (fw_entries _ W _ _ E). Qed.

Lemma dir_nodup f i d : fs_wf f -> fs_get f i = Some (EDir d) -> NoDup (dir_content d).
Proof. intros W E. apply (fw_entries _ W _ _ E). Qed.

Lemma kid_entry f i c : fs_wf f -> kid (tree_of f) i c -> exists e, fs_get f c = Some e.
Proof.
  intros W Hk. destruct (tw_kid _ _ (fw_tree _ W) _ _ Hk) as [_ [n E]].
  rewrite tree_lookup in E. destruct (fs_get f c) as [e|]; [by exists e|done].
Qed.

Lemma entry_ok_content i d l : entry_ok i (EDir d) -> NoDup l -> entry_ok i (EDir (dir_with_content l d)).
Proof. intros (? & ? & _) ?. by repeat split. Qed.

Lemma elem_of_content_remove c x l : x ∈ content_remove c l <-> x ∈ l /\ x <> c.
Proof. unfold content_remove. rewrite list_elem_of_filter. naive_solver. Qed.

Lemma content_remove_set c l : list_to_set (content_remove c l) = (list_to_set l : gset Z) ∖ {[c]}.
Proof.
  apply set_eq. intros x.
  rewrite elem_of_difference, !elem_of_list_to_set, elem_of_content_remove, elem_of_singleton. done.
Qed.

Lemma content_remove_nodup c l : NoDup l -> NoDup (content_remove c l).
Proof. apply NoDup_filter. Qed.

(** Attributes and bytes of an entry: all but its place in the tree. *)
Definition entry_data (e : Entry) : fattr3 * option (list byte) :=
  (entry_attr e, match e with EFile f => Some (file_content f) | EDir _ => None end).

Lemma data_set_dir f p d l j :
  fs_get f p = Some (EDir d) ->
  entry_data <$> fs_get (fs_set p (EDir (dir_with_content l d)) f) j = entry_data <$> fs_get f j.
Proof. intros E. rewrite fs_get_set. destruct (decide (p = j)) as [<-|]; [|done]. by rewrite E. Qed.
(** ** Lookup *)

Definition special (name : filename3) : Prop := name = DOT \/ name = DOTDOT.

Lemma scan_content_cases f name l :
  (forall i, i ∈ l -> exists e, fs_get f i = Some e) ->
  match scan_content f name l with
  | Ok e => exists i, i ∈ l /\ fs_get f i = Some e /\ entry_name e = name
  | Err stat => stat = NFS3ERR_NOENT /\ forall i e, i ∈ l -> fs_get f i = Some e -> entry_name e <> name
  end.
Proof.
  induction l as [|i l IH]; intros Hall; cbn [scan_content].
  { split; [done|]. intros ? ? []%not_elem_of_nil. }
  destruct (Hall i) as [e E]; [left|]. rewrite E.
  destruct (decide (entry_name e = name)) as [He|He]; [exists i; split; [left|done]|].
  specialize (IH ltac:(intros j Hj; apply Hall; by right)).
  destruct (scan_content f name l) as [e1|stat].
  - destruct IH as (j & Hj & ?). exists j. split; [by right|done].
  - destruct IH as [-> Hno]. split; [done|]. intros j e' [->|Hj]%elem_of_cons E'; [|by eapply Hno].
    rewrite E in E'. by injection E' as <-.
Qed.

Lemma node_name_of e : node_name (node_of e) = entry_name e.
Proof. by destruct e. Qed.

Lemma child_get f d name i :
  child (tree_of f) d name i <-> kid (tree_of f) d i /\ exists e, fs_get f i = Some e /\ entry_name e = name.
Proof.
  unfold child. rewrite tree_lookup. split; intros [Hk H]; split; try done.
  - destruct H as (n & E & <-). destruct (fs_get f i) as [e|]; [|done]. injection E as <-.
    exists e. by rewrite node_name_of.
  - destruct H as (e & -> & <-). exists (node_of e). split; [done|]. apply node_name_of.
Qed.

(** The lookup of an ordinary name finds a child with it, and fails with
    [NFS3ERR_NOENT] when there is none. *)
Lemma fs_lookup_cases f d name :
  fs_wf f -> ~ special name ->
  match fs_lookup f d name with
  | Ok e => child (tree_of f) d name (entry_fileid e) /\ fs_get f (entry_fileid e) = Some e
  | Err stat =>
      (forall i, ~ child (tree_of f) d name i) /\
      match fs_get f d with
      | Some (EFile _) => stat = NFS3ERR_NOTDIR
      | _ => stat = NFS3ERR_NOENT
      end
  end.
Proof.
  intros W Hs. unfold fs_lookup. destruct (fs_get f d) as [[file|dir]|] eqn:Ed.
  - split; [|done]. intros i [(p & k & (d' & E & _)%is_dir_get & _) _]. congruence.
  - rewrite !decide_False by (intros ->; apply Hs; by (left + right)).
    pose proof (scan_content_cases f name (dir_content dir)) as Hc.
    specialize (Hc ltac:(intros i Hi; apply (kid_entry f d); [done|]; by apply (kid_get f d dir))).
    destruct (scan_content f name (dir_content dir)) as [e|stat].
    + destruct Hc as (i & Hi & Ei & Hn).
      rewrite (entry_ok_fileid f i e W Ei). split; [|done]. apply child_get. split; [by apply (kid_get f d dir)|].
      by exists e.
    + destruct Hc as [-> Hno].
      split; [|done]. intros i (Hk & e & Ei & Hn)%child_get. apply (Hno i e); [by apply (kid_get f d dir)|done..].
  - split; [|done]. intros i [(p & k & (d' & E & _)%is_dir_get & _) _]. congruence.
Qed.

(** With unique names the lookup is exactly the [child] relation. *)
Lemma fs_lookup_child f d name i :
  fs_wf f -> names_unique (tree_of f) -> ~ special name ->
  result_map entry_fileid (fs_lookup f d name) = Ok i <-> child (tree_of f) d name i.
Proof.
  intros W U Hs. pose proof (fs_lookup_cases f d name W Hs) as Hc. destruct (fs_lookup f d name) as [e|stat].
  - destruct Hc as [Hc _]. cbn. split; [by intros [= <-]|]. intros Hi. f_equal. by eapply U.
  - destruct Hc as [Hno _]. cbn. split; [done|]. by intros ?%Hno.
Qed.

Lemma fs_lookup_noent f d name :
  fs_wf f -> ~ special name -> (exists p k, is_dir (tree_of f) d p k) ->
  fs_lookup f d name = Err NFS3ERR_NOENT <-> forall i, ~ child (tree_of f) d name i.
Proof.
  intros W Hs (p & k & (dir & Ed & _)%is_dir_get). pose proof (fs_lookup_cases f d name W Hs) as Hc.
  rewrite Ed in Hc. destruct (fs_lookup f d name) as [e|stat].
  - destruct Hc as [Hc _]. split; [done|]. intros Hno. by destruct (Hno _ Hc).
  - destruct Hc as [Hno ->]. done.
Qed.

(** What the special names denote. *)
Lemma fs_lookup_dot f d name e :
  fs_wf f -> special name -> fs_lookup f d name = Ok e ->
  exists dir, fs_get f d = Some (EDir dir) /\ fs_get f (entry_fileid e) = Some e /\
    entry_fileid e = (if decide (name = DOT) then d else dir_parent dir).
Proof.
  intros W Hs. unfold fs_lookup. destruct (fs_get f d) as [[file|dir]|] eqn:Ed; [done| |done].
  destruct (decide (name = DOT)) as [Hn|Hn].
  - intros [= <-]. exists dir. rewrite (entry_ok_fileid f d _ W Ed). done.
  - destruct (decide (name = DOTDOT)) as [Hn'|Hn']; [|by destruct Hs].
    unfold ok_or. destruct (fs_get f (dir_parent dir)) as [e'|] eqn:Ep; [|done].
    intros [= <-]. exists dir. by rewrite (entry_ok_fileid f _ _ W Ep).
Qed.

(** ** [remove] *)

Lemma find_by_name_cases f name l :
  match find_by_name f name l with
  | Some i => i ∈ l /\ exists e, fs_get f i = Some e /\ entry_name e = name
  | None => forall i e, i ∈ l -> fs_get f i = Some e -> entry_name e <> name
  end.
Proof.
  unfold find_by_name. destruct (List.find _ l) as [i|] eqn:E.
  - apply find_some in E as [Hi E]. split; [by apply list_elem_of_In|].
    destruct (fs_get f i) as [e|]; [|done]. exists e. split; [done|]. by apply bool_decide_eq_true in E.
  - intros i e Hi Ei Hn. pose proof (find_none _ _ E i) as H. cbn in H. rewrite Ei in H.
    rewrite bool_decide_eq_true_2 in H by done. discriminate H. by apply list_elem_of_In.
Qed.

Definition empty_entry (e : Entry) : Prop :=
  match e with EFile _ => True | EDir d => dir_content d = [] end.

#[export] Instance empty_entry_dec e : Decision (empty_entry e).
Proof. destruct e; apply _. Defined.

Lemma special_bool name :
  bool_decide (name = DOT) || bool_decide (name = DOTDOT) = true <-> special name.
Proof. unfold special. rewrite orb_true_iff, !bool_decide_eq_true. done. Qed.

(** [remove] takes a child with the name, an empty one, out of the tree, or
    fails and changes nothing. *)
Lemma fs_remove_cases f d name :
  fs_wf f ->
  match fs_remove d name f with
  | (Ret (Ok _), f') =>
      ~ special name /\ exists c e dir, child (tree_of f) d name c /\ fs_get f c = Some e /\ empty_entry e /\
        fs_get f d = Some (EDir dir) /\ c <> d /\
        f' = fs_set d (EDir (dir_with_content (content_remove c (dir_content dir)) dir)) (fs_del c f)
  | (Ret (Err stat), f') =>
      f' = f /\
      ((special name /\ stat = NFS3ERR_INVAL) \/
       (~ special name /\ fs_get f d = None /\ stat = NFS3ERR_NOENT) \/
       (~ special name /\ (exists file, fs_get f d = Some (EFile file)) /\ stat = NFS3ERR_NOTDIR) \/
       (~ special name /\ (exists dir, fs_get f d = Some (EDir dir)) /\
        (forall c, ~ child (tree_of f) d name c) /\ stat = NFS3ERR_NOENT) \/
       (~ special name /\ (exists c e, child (tree_of f) d name c /\ fs_get f c = Some e /\ ~ empty_entry e) /\
        stat = NFS3ERR_NOTEMPTY))
  | _ => False
  end.
Proof.
  intros W. unfold fs_remove. destruct (_ || _) eqn:Es.
  { apply special_bool in Es. split; [done|]. by left. }
  assert (Hs : ~ special name) by (rewrite <- special_bool; congruence). clear Es.
  destruct (fs_get f d) as [[file|dir]|] eqn:Ed; cbn [as_dir].
  2: pose proof (find_by_name_cases f name (dir_content dir)) as Hf;
     destruct (find_by_name f name (dir_content dir)) as [c|].
  - split; [done|]. right; right; left. eauto.
  - destruct Hf as (Hc & e & Ee & Hn). rewrite Ee.
    assert (Hk : kid (tree_of f) d c) by by apply (kid_get f d dir).
    assert (Hch : child (tree_of f) d name c) by (apply child_get; eauto).
    assert (Hcd : c <> d) by (intros ->; by apply (not_own_kid _ _ _ (fw_tree _ W)) in Hk).
    destruct (match e with EFile _ => _ | EDir _ => _ end) eqn:En.
    + split; [done|]. do 4 right. split; [done|]. split; [|done]. exists c, e. split; [done|]. split; [done|].
      destruct e; [done|]. cbn. apply negb_true_iff, bool_decide_eq_false in En. done.
    + rewrite fs_get_del_ne, Ed by done. cbn [as_dir]. split; [done|]. exists c, e, dir. split; [done|].
      split; [done|]. split; [|done]. destruct e; [done|]. cbn. by apply negb_false_iff, bool_decide_eq_true in En.
  - split; [done|]. do 3 right. left. split; [done|]. split; [eauto|]. split; [|done].
    intros c (Hk & e & Ee & Hn)%child_get. apply (Hf c e); [by apply (kid_get f d dir)|done..].
  - split; [done|]. right; left. done.
Qed.

Lemma leaf_node e : empty_entry e -> leaf (node_of e).
Proof. destruct e as [?|d]; [done|]. cbn. by intros ->. Qed.

Lemma fs_remove_tree f d c dir :
  fs_get f d = Some (EDir dir) -> c <> d ->
  tree_of (fs_set d (EDir (dir_with_content (content_remove c (dir_content dir)) dir)) (fs_del c f)) =
  tree_remove d c (tree_of f).
Proof.
  intros Ed Hc. unfold tree_remove. rewrite <- tree_of_del. apply tree_of_content.
  - by rewrite fs_get_del_ne.
  - apply content_remove_set.
Qed.

Lemma fs_set_wf f i e :
  (forall j e, fs_get f j = Some e -> entry_ok j e) -> entry_ok i e ->
  forall j e', fs_get (fs_set i e f) j = Some e' -> entry_ok j e'.
Proof. intros Hall He j e'. rewrite fs_get_set. destruct (decide (i = j)) as [->|]; [by intros [= <-]|apply Hall]. Qed.

Lemma fs_del_wf f i :
  (forall j e, fs_get f j = Some e -> entry_ok j e) ->
  forall j e, fs_get (fs_del i f) j = Some e -> entry_ok j e.
Proof. intros Hall j e. rewrite fs_get_del. destruct (decide (i = j)); [done|apply Hall]. Qed.

Lemma fs_remove_wf f d name : fs_wf f -> fs_wf (snd (fs_remove d name f)).
Proof.
  intros W. pose proof (fs_remove_cases f d name W) as Hc.
  destruct (fs_remove d name f) as [[[u|stat]| |] f']; cbn; [|by destruct Hc as [-> _]|done..].
  destruct Hc as (_ & c & e & dir & [Hk _] & Ee & Hempty & Ed & Hne & ->). split.
  - apply fs_set_wf; [apply fs_del_wf, W|]. apply entry_ok_content; [by apply W|].
    by apply content_remove_nodup, (dir_nodup f d).
  - rewrite fs_remove_tree by done. apply tree_remove_wf; [apply W|done|].
    intros n. rewrite tree_lookup, Ee. intros [= <-]. by apply leaf_node.
Qed.

(** ** [push] *)

Section hash.
Context `{HashSetOrder}.

Lemma content_insert_new d x l : x ∉ l -> content_insert d x l = (true, hs_insert d x l).
Proof. intros. unfold content_insert. by rewrite decide_False. Qed.

Lemma hs_insert_set d x l : x ∉ l -> list_to_set (hs_insert d x l) = ({[x]} ∪ list_to_set l : gset Z).
Proof.
  intros Hx. apply set_eq. intros y. rewrite elem_of_union, !elem_of_list_to_set, elem_of_singleton.
  rewrite (hs_insert_perm d x l Hx). apply elem_of_cons.
Qed.

Lemma hs_insert_nodup d x l : x ∉ l -> NoDup l -> NoDup (hs_insert d x l).
Proof. intros Hx Hl. rewrite (hs_insert_perm d x l Hx). by constructor. Qed.

(** [push] links a new entry into its directory, or fails and changes nothing;
    its assertion holds.  An entry whose id is the one of its directory would be
    linked to itself. *)
Lemma fs_push_cases f p e :
  fs_wf f -> entry_fileid e <> p \/ (exists file, e = EFile file) ->
  match fs_push p e f with
  | (Ret (Ok _), f') =>
      fs_get f (entry_fileid e) = None /\ exists dir, fs_get f p = Some (EDir dir) /\
        (entry_fileid e ∉ dir_content dir) /\
        f' = fs_set p (EDir (dir_with_content (hs_insert p (entry_fileid e) (dir_content dir)) dir))
               (fs_set (entry_fileid e) e f)
  | (Ret (Err stat), f') =>
      f' = f /\
      ((is_Some (fs_get f (entry_fileid e)) /\ stat = NFS3ERR_EXIST) \/
       (fs_get f (entry_fileid e) = None /\ fs_get f p = None /\ (stat = NFS3ERR_NOENT \/ stat = NFS3ERR_NOTDIR)) \/
       (fs_get f (entry_fileid e) = None /\ (exists file, fs_get f p = Some (EFile file)) /\ stat = NFS3ERR_NOTDIR))
  | _ => False
  end.
Proof.
  intros W Hpe. unfold fs_push. destruct (fs_get f (entry_fileid e)) as [e0|] eqn:E0.
  { split; [done|]. left. split; [by eexists|done]. }
  rewrite fs_get_set. destruct (decide (entry_fileid e = p)) as [Hp|Hp].
  { destruct Hpe as [?|[file ->]]; [done|]. split; [by rewrite fs_del_set|]. right; left.
    rewrite <- Hp. split; [done|]. split; [done|]. by right. }
  destruct (fs_get f p) as [[file|dir]|] eqn:Ep.
  - split; [by rewrite fs_del_set|]. right; right. eauto.
  - assert (Hx : entry_fileid e ∉ dir_content dir).
    { intros Hx. apply (kid_get f p dir _ Ep), (kid_entry f) in Hx as [? ?]; [congruence|done]. }
    rewrite content_insert_new by done. split; [done|]. by exists dir.
  - split; [by rewrite fs_del_set|]. right; left. split; [done|]. split; [done|]. by left.
Qed.

Lemma fs_push_tree f p e dir :
  fs_get f (entry_fileid e) = None -> fs_get f p = Some (EDir dir) -> entry_fileid e ∉ dir_content dir ->
  tree_of (fs_set p (EDir (dir_with_content (hs_insert p (entry_fileid e) (dir_content dir)) dir))
             (fs_set (entry_fileid e) e f)) =
  tree_push p (entry_fileid e) (node_of e) (tree_of f).
Proof.
  intros E0 Ep Hx. unfold tree_push. rewrite <- tree_of_set. apply tree_of_content.
  - rewrite fs_get_set_ne; [done|congruence].
  - by apply hs_insert_set.
Qed.

(** A new entry: stored under its own id, without children. *)
Definition new_entry (p : Z) (e : Entry) : Prop :=
  entry_ok (entry_fileid e) e /\
  match e with EFile _ => True | EDir d => dir_parent d = p /\ dir_content d = [] end.

Lemma fs_push_wf f p e :
  fs_wf f -> new_entry p e -> entry_fileid e <> p \/ (exists file, e = EFile file) ->
  fs_wf (snd (fs_push p e f)).
Proof.
  intros W [He Hnew] Hp. pose proof (fs_push_cases f p e W Hp) as Hc.
  destruct (fs_push p e f) as [[[u|stat]| |] f']; cbn; [|by destruct Hc as [-> _]|done..].
  destruct Hc as (E0 & dir & Ep & Hx & ->). split.
  - apply fs_set_wf; [apply fs_set_wf; [apply W|done]|]. apply entry_ok_content; [by apply W|].
    by apply hs_insert_nodup, (dir_nodup f p).
  - rewrite fs_push_tree by done. apply tree_push_wf; [apply W| |by rewrite tree_lookup, E0|].
    + do 2 eexists. apply is_dir_get. eauto.
    + destruct e as [|d]; [done|]. cbn. destruct Hnew as [-> ->]. done.
Qed.

(** ** [rename] *)

(** The walk to the root ends, and finds [x] exactly when it is on the way. *)
Lemma ancestor_loop_cases f x n i fuel :
  fs_wf f -> height (fs_root f) (tree_of f) i n -> (n < fuel)%nat ->
  match ancestor_loop fuel f x i with
  | Ret None => avoids (fs_root f) x (tree_of f) i
  | Ret (Some stat) => stat = NFS3ERR_INVAL /\ ~ avoids (fs_root f) x (tree_of f) i
  | _ => False
  end.
Proof.
  intros W Hn. revert fuel. induction Hn as [|i p k n Hr Hd Hn IH]; intros [|fuel] Hf; try lia; cbn [ancestor_loop].
  - destruct (fs_root f =? x) eqn:E; [|apply Z.eqb_neq in E].
    + apply Z.eqb_eq in E. split; [done|]. intros Ha. by apply avoids_ne in Ha.
    + destruct (tw_root _ _ (fw_tree _ W)) as (? & ? & (d & -> & _)%is_dir_get). rewrite Z.eqb_refl. by constructor.
  - destruct (i =? x) eqn:E; [|apply Z.eqb_neq in E].
    + apply Z.eqb_eq in E. split; [done|]. intros Ha. by apply avoids_ne in Ha.
    + pose proof Hd as (d & -> & -> & _)%is_dir_get. rewrite (proj2 (Z.eqb_neq _ _) Hr).
      specialize (IH fuel ltac:(lia)). destruct (ancestor_loop fuel f x (dir_parent d)) as [[stat|]| |]; [|by econstructor|done..].
      destruct IH as [-> Hno]. split; [done|]. intros Ha. apply Hno. inversion Ha as [|? p' k' ? ? Hd']; [done|].
      destruct (is_dir_fun _ _ _ _ _ _ Hd Hd') as [-> _]. done.
Qed.

Lemma ancestor_fuel_enough f i n :
  fs_wf f -> height (fs_root f) (tree_of f) i n -> (n < ancestor_fuel f)%nat.
Proof.
  intros W Hn. apply height_bound in Hn; [|apply W]. unfold ancestor_fuel, tree_of in *.
  rewrite map_size_fmap in Hn. lia.
Qed.

(** [rename_move] on a well-formed table, the target directory being no
    descendant of the entry. *)
Lemma rename_move_cases f d c q name td e :
  fs_wf f -> kid (tree_of f) d c -> fs_get f q = Some (EDir td) -> c <> q -> fs_get f c = Some e ->
  exists f', rename_move d c q name f = (Ret (Ok tt), f') /\
    tree_of f' = tree_move d c q name (tree_of f) /\ fs_root f' = fs_root f /\
    (forall j e, fs_get f' j = Some e -> entry_ok j e) /\
    fs_get f' c = Some (match entry_set_name name e with
                        | EDir x => EDir (mkDir (dir_name x) q (dir_attr x) (dir_content x))
                        | e => e
                        end) /\
    (forall j, entry_data <$> fs_get f' j = entry_data <$> fs_get f j).
Proof.
  intros W Hk Eq Hcq Ee. destruct (kid_dir _ _ _ Hk) as (dir & Ed & Hc).
  assert (Hcd : c <> d) by (intros ->; by apply (not_own_kid _ _ _ (fw_tree _ W)) in Hk).
  unfold rename_move. rewrite Ed. cbn [as_dir].
  set (f1 := fs_set d _ f).
  assert (W1 : forall j e, fs_get f1 j = Some e -> entry_ok j e).
  { apply fs_set_wf; [apply W|]. apply entry_ok_content; [by apply W|].
    by apply content_remove_nodup, (dir_nodup f d). }
  assert (T1 : tree_of f1 = alter (set_kids (fun k => k ∖ {[c]})) d (tree_of f)).
  { apply tree_of_content; [done|apply content_remove_set]. }
  assert (Hq : exists dq, fs_get f1 q = Some (EDir dq) /\ c ∉ dir_content dq).
  { unfold f1. rewrite fs_get_set. destruct (decide (d = q)) as [->|Hdq].
    - eexists. split; [done|]. cbn. rewrite elem_of_content_remove. naive_solver.
    - exists td. split; [done|]. intros Hc'. apply Hdq, (tw_unique _ _ (fw_tree _ W) d q c); [done|].
      by apply (kid_get f q td). }
  destruct Hq as (dq & Eq1 & Hcn). rewrite Eq1. cbn [as_dir]. rewrite content_insert_new by done. cbn [negb].
  set (f2 := fs_set q _ f1).
  assert (W2 : forall j e, fs_get f2 j = Some e -> entry_ok j e).
  { apply fs_set_wf; [done|]. apply entry_ok_content; [by apply W1|].
    apply hs_insert_nodup; [done|]. apply (W1 _ _ Eq1). }
  assert (T2 : tree_of f2 = alter (set_kids (fun k => {[c]} ∪ k)) q (tree_of f1)).
  { apply tree_of_content; [done|by apply hs_insert_set]. }
  assert (E2 : fs_get f2 c = Some e).
  { unfold f2, f1. by rewrite !fs_get_set_ne by done. }
  rewrite E2. eexists. split; [done|]. split; [|split; [done|split; [|split]]].
  - unfold tree_move. rewrite tree_of_set, <- T1, <- T2. apply map_eq. intros j.
    destruct (decide (j = c)) as [->|]; [|by rewrite lookup_insert_ne, lookup_alter_ne].
    rewrite lookup_insert_eq, lookup_alter_eq, tree_lookup, E2. by destruct e.
  - apply fs_set_wf; [done|]. pose proof (W2 _ _ E2) as He. by destruct e.
  - rewrite fs_get_set_eq. by destruct e.
  - intros j. rewrite fs_get_set. destruct (decide (c = j)) as [<-|]; [rewrite Ee; by destruct e|].
    unfold f2. rewrite data_set_dir by done. unfold f1. by rewrite data_set_dir.
Qed.

(** What [rename_replace] leaves: the table without the old target. *)
Lemma rename_replace_cases e q name f :
  fs_wf f ->
  match rename_replace e q name f with
  | (Ret (Ok _), f') =>
      (f' = f /\ fs_lookup f q name = Err NFS3ERR_NOENT) \/ fs_remove q name f = (Ret (Ok tt), f')
  | (Ret (Err _), f') => f' = f
  | _ => False
  end.
Proof.
  intros W. unfold rename_replace. pose proof (fs_remove_cases f q name W) as Hc.
  assert (Hr : match fs_remove q name f with
               | (Ret (Ok _), f') => fs_remove q name f = (Ret (Ok tt), f')
               | (Ret (Err _), f') => f' = f
               | _ => False
               end).
  { destruct (fs_remove q name f) as [[[[]|stat]| |] f']; [done|by destruct Hc|done..]. }
  destruct e as [file|dir], (fs_lookup f q name) as [[file'|dir']|[]] eqn:El; try done; try by left.
  - destruct (fs_remove q name f) as [[[[]|stat]| |] f']; [by right|done..].
  - case_bool_decide; [|done]. destruct (fs_remove q name f) as [[[[]|stat]| |] f']; [by right|done..].
Qed.

(** The tree [rename] finds once the new name is free: as it was, or without
    the entry that had the name. *)
Definition made_room (t : tree) (q : Z) (to : filename3) (c : Z) (t0 : tree) : Prop :=
  (t0 = t /\ forall i, ~ child t q to i) \/
  (exists c', child t q to c' /\ c' <> c /\ (forall n, t !! c' = Some n -> leaf n) /\ t0 = tree_remove q c' t).

Lemma lookup_noent_dir f q to :
  fs_wf f -> is_Some (fs_get f q) -> fs_lookup f q to = Err NFS3ERR_NOENT ->
  ~ special to /\ (exists dir, fs_get f q = Some (EDir dir)) /\ forall i, ~ child (tree_of f) q to i.
Proof.
  intros W [e Eq] El. assert (Hd : exists dir, fs_get f q = Some (EDir dir)).
  { unfold fs_lookup in El. rewrite Eq in El. destruct e; [done|eauto]. }
  destruct Hd as [dir Ed]. assert (Hs : ~ special to).
  { unfold fs_lookup in El. rewrite Ed in El. intros [-> | ->].
    - by rewrite decide_True in El.
    - rewrite decide_False, decide_True in El by done. by destruct (fs_get f (dir_parent dir)). }
  split; [done|]. split; [eauto|]. apply fs_lookup_noent; [done..| |done].
  do 2 eexists. apply is_dir_get. eauto.
Qed.

Lemma rename_room f d name q to c e f0 u :
  fs_wf f -> child (tree_of f) d name c -> d <> q \/ name <> to -> is_Some (fs_get f q) ->
  rename_replace e q to f = (Ret (Ok u), f0) ->
  ~ special to /\ fs_wf f0 /\ fs_root f0 = fs_root f /\ (exists td, fs_get f0 q = Some (EDir td)) /\
  kid (tree_of f0) d c /\ (c <> q -> fs_get f0 c = fs_get f c) /\
  made_room (tree_of f) q to c (tree_of f0).
Proof.
  intros W Hch Hne Hq Er. pose proof (rename_replace_cases e q to f W) as Hr. rewrite Er in Hr.
  destruct Hr as [[-> El]|Hr].
  { destruct (lookup_noent_dir _ _ _ W Hq El) as (Hs & Hd & Hno).
    split; [done|]. split; [done|]. split; [done|]. split; [done|]. split; [apply Hch|]. split; [done|].
    left. done. }
  pose proof (fs_remove_wf f q to W) as W0. pose proof (fs_remove_cases f q to W) as Hc. rewrite Hr in W0, Hc.
  cbn [snd] in W0. destruct Hc as (Hs & c' & e' & dir & Hch' & Ee' & Hempty & Edir & Hcq & ->).
  assert (Hcc : c' <> c).
  { intros ->. destruct Hch as [Hk (n & E & Hn)], Hch' as [Hk' (n' & E' & Hn')].
    destruct Hne as [Hne|Hne]; apply Hne; [by apply (tw_unique _ _ (fw_tree _ W) d q c)|].
    rewrite E in E'. injection E' as ->. congruence. }
  assert (Hleaf : forall n, tree_of f !! c' = Some n -> leaf n).
  { intros n. rewrite tree_lookup, Ee'. intros [= <-]. by apply leaf_node. }
  assert (Ht : tree_of (fs_set q (EDir (dir_with_content (content_remove c' (dir_content dir)) dir)) (fs_del c' f))
               = tree_remove q c' (tree_of f)) by (by apply fs_remove_tree).
  split; [done|]. split; [done|]. split; [done|]. split; [|split; [|split]].
  - rewrite fs_get_set_eq. eauto.
  - rewrite Ht. apply (kid_removed _ _ _ _ _ _ (fw_tree _ W)); [apply Hch'|done|]. split; [apply Hch|done].
  - intros Hq'. rewrite fs_get_set_ne, fs_get_del_ne; done.
  - right. exists c'. rewrite Ht. split; [done|]. split; [done|]. split; [done|]. done.
Qed.

(** [rename] moves the child it finds to a directory that is not below it, or
    fails; a failure leaves the table as it was, except that the check against
    moving a directory into itself comes after the removal of the target. *)
Definition rename_post (f : Fs) (d : Z) (name : filename3) (q : Z) (to : filename3)
  (r : outcome (result unit nfsstat3) * Fs) : Prop :=
  match r with
  | (Ret (Ok _), f') =>
      (f' = f /\ d = q /\ name = to) \/
      (~ special to /\ exists c e f0, child (tree_of f) d name c /\ fs_get f c = Some e /\
         (d <> q \/ name <> to) /\ rename_replace e q to f = (Ret (Ok tt), f0) /\
         (forall pp k, is_dir (tree_of f0) c pp k -> avoids (fs_root f0) c (tree_of f0) q) /\ c <> q /\
         rename_move d c q to f0 = (Ret (Ok tt), f'))
  | (Ret (Err stat), f') =>
      f' = f \/ (stat = NFS3ERR_INVAL /\ fs_remove q to f = (Ret (Ok tt), f'))
  | _ => False
  end.

Lemma fs_rename_cases f d name q to :
  fs_wf f -> ~ special name -> is_Some (fs_get f q) ->
  rename_post f d name q to (fs_rename d name q to f).
Proof.
  intros W Hs Hq. unfold fs_rename. pose proof (fs_lookup_cases f d name W Hs) as Hl.
  unfold rename_post.
  destruct (fs_lookup f d name) as [e|stat]; [|by left]. destruct Hl as [Hch Ee].
  destruct (_ && _) eqn:Esame.
  { apply andb_true_iff in Esame as [E1%bool_decide_eq_true E2%bool_decide_eq_true]. by left. }
  assert (Hne : d <> q \/ name <> to).
  { apply andb_false_iff in Esame as [E%bool_decide_eq_false|E%bool_decide_eq_false]; [by left|by right]. }
  clear Esame. pose proof (rename_replace_cases e q to f W) as Hr.
  destruct (rename_replace e q to f) as [[[[]|stat]| |] f0] eqn:Er; [|by left|done..].
  destruct (rename_room _ _ _ _ _ _ _ _ _ W Hch Hne Hq Er) as (Hto & W0 & Hroot & [td Etd] & Hk0 & Hsame & _).
  set (c := entry_fileid e) in *.
  assert (Hmove : (forall pp k, is_dir (tree_of f0) c pp k -> avoids (fs_root f0) c (tree_of f0) q) -> c <> q ->
    rename_post f d name q to (rename_move d c q to f0)).
  { intros Hav Hcq. destruct (rename_move_cases f0 d c q to td e W0 Hk0 Etd Hcq) as (f' & Em & _).
    { by rewrite Hsame. }
    rewrite Em. cbn. right. split; [done|]. exists c, e, f0. done. }
  destruct e as [file|dir].
  - assert (Hcq : c <> q).
    { intros E. destruct Hr as [[-> _]|Hr]; [congruence|].
      pose proof (fs_remove_cases f q to W) as Hc. rewrite Hr in Hc.
      destruct Hc as (_ & ? & ? & ? & _ & _ & _ & Edir & _). congruence. }
    apply Hmove; [|done]. intros pp k (d' & E & _)%is_dir_get. rewrite Hsame in E by done. congruence.
  - assert (Hd : is_dir (tree_of f0) q (dir_parent td) (list_to_set (dir_content td))).
    { apply is_dir_get. eauto. }
    destruct (tw_height _ _ (fw_tree _ W0) _ _ _ Hd) as [n Hn].
    pose proof (ancestor_loop_cases f0 c n q (ancestor_fuel f0) W0 Hn (ancestor_fuel_enough _ _ _ W0 Hn)) as Ha.
    destruct (ancestor_loop (ancestor_fuel f0) f0 c q) as [[stat|]| |]; [| |done..].
    + destruct Ha as [-> _]. destruct Hr as [[-> _]|Hr]; [by left|by right].
    + apply Hmove; [done|]. apply avoids_ne in Ha. congruence.
Qed.

Lemma fs_rename_wf f d name q to :
  fs_wf f -> ~ special name -> is_Some (fs_get f q) -> fs_wf (snd (fs_rename d name q to f)).
Proof.
  intros W Hs Hq. pose proof (fs_rename_cases f d name q to W Hs Hq) as Hc.
  destruct (fs_rename d name q to f) as [[[u|stat]| |] f']; cbn; [| |done..].
  - destruct Hc as [[-> _]|(Hto & c & e & f0 & Hch & Ee & Hne & Er & Hav & Hcq & Em)]; [done|].
    destruct (rename_room _ _ _ _ _ _ _ _ _ W Hch Hne Hq Er) as (_ & W0 & Hroot & [td Etd] & Hk0 & Hsame & _).
    destruct (rename_move_cases f0 d c q to td e W0 Hk0 Etd Hcq) as (f1 & Em' & Ht & Hr & Hok & _).
    { by rewrite Hsame. }
    rewrite Em in Em'. injection Em' as ->. split; [exact Hok|]. rewrite Ht, Hr. apply tree_move_wf; [apply W0|done| |done].
    do 2 eexists. apply is_dir_get. eauto.
  - destruct Hc as [->|[_ Hr]]; [done|]. pose proof (fs_remove_wf f q to W) as W0. by rewrite Hr in W0.
Qed.
End hash.
