(* ===== verification/MemFsTheorems.v ===== *)
(** * What the in-memory file system guarantees

    The invariant of every state a server over [MemFs] reaches, the panics that
    remain, and the effect of each operation on names, attributes and contents. *)

From stdpp Require Import gmap sets fin_sets.
From S2P Require Import Prelude Xdr XdrLaws Nfs3Types Handle Vfs MemFs MemFsTree MemFsLaws.
Open Scope Z_scope.
Open Scope nfs_scope.

(** ** Attributes and file contents *)

Lemma entry_with_attr_node a e : node_of (entry_with_attr a e) = node_of e.
Proof. by destruct e. Qed.

Lemma file_resize_ok size f f' :
  0 <= size -> file_resize size f = Ret f' ->
  file_name f' = file_name f /\ file_attr f' = attr_with_size size (file_attr f) /\
  file_verf f' = file_verf f /\ len (file_content f') = size /\
  file_content f' = take (Z.to_nat size) (file_content f ++ replicate (Z.to_nat (size - len (file_content f))) x00).
Proof.
  intros Hs. unfold file_resize, vec_resize.
  destruct (size <=? len (file_content f)) eqn:E1; [|destruct (size <=? isize_MAX) eqn:E2]; intros Hr;
    try discriminate Hr; injection Hr as <-; cbn; unfold len in *; (split; [done|]); (split; [done|]);
    (split; [done|]).
  - rewrite length_take. split; [lia|]. rewrite take_app_le by lia. done.
  - rewrite length_app, length_replicate. split; [lia|].
    rewrite take_ge; [done|]. rewrite length_app, length_replicate. lia.
Qed.

Lemma entry_ok_sized i f f' :
  entry_ok i (EFile f) -> file_attr f' = attr_with_size (len (file_content f')) (file_attr f) ->
  entry_ok i (EFile f').
Proof. intros (Hid & Hty & _) Ea. unfold entry_ok, entry_fileid. cbn [entry_attr]. by rewrite Ea. Qed.

Lemma file_resize_total size f : size <= isize_MAX -> exists f', file_resize size f = Ret f'.
Proof.
  intros Hs. unfold file_resize, vec_resize. destruct (size <=? len _); [by eexists|].
  rewrite (proj2 (Z.leb_le _ _) Hs). by eexists.
Qed.

Lemma file_resize_panic size f :
  len (file_content f) < size -> isize_MAX < size -> file_resize size f = Panic.
Proof.
  intros H1 H2. unfold file_resize, vec_resize.
  rewrite (proj2 (Z.leb_gt _ _) H1), (proj2 (Z.leb_gt _ _) H2). done.
Qed.

(** The requested size of a [sattr3] is a [u64]. *)
Definition size_ok (a : sattr3) : Prop := match sattr3_size a with Some s => 0 <= s | None => True end.

(** [set_attr] replaces times and owner, then resizes a file. *)
Lemma set_attr_unfold clock ticks a e :
  exists at_ mt uid gid t, set_attr clock ticks a e =
    let e := entry_with_attr (attr_with_owner uid gid (attr_with_times at_ mt (entry_attr e))) e in
    match sattr3_size a, e with
    | Some s, EFile f => match file_resize s f with
                         | Ret f => (Ret tt, EFile f, t)
                         | _ => (Panic, e, t)
                         end
    | _, _ => (Ret tt, e, t)
    end.
Proof.
  unfold set_attr.
  destruct (sattr3_atime a) as [| |?], (sattr3_mtime a) as [| |?]; do 5 eexists; reflexivity.
Qed.

(** [set_attr] keeps the kind, the name, the children and the id of an entry,
    and panics only on a size no [Vec] can have. *)
Definition set_attr_post (i : Z) (a : sattr3) (e : Entry) (r : outcome unit * Entry * nat) : Prop :=
  match r with
  | (o, e', _) =>
      entry_ok i e' /\ node_of e' = node_of e /\
      match o with
      | Ret _ => match sattr3_size a, e, e' with
                 | Some s, EFile f, EFile f' => file_content f' =
                     take (Z.to_nat s) (file_content f ++ replicate (Z.to_nat (s - len (file_content f))) x00)
                 | None, EFile f, EFile f' => file_content f' = file_content f
                 | _, EDir d, EDir d' => dir_content d' = dir_content d
                 | _, _, _ => False
                 end
      | _ => o = Panic /\ exists s f, sattr3_size a = Some s /\ e = EFile f /\
               isize_MAX < s /\ len (file_content f) < s
      end
  end.

Lemma set_attr_cases clock ticks a e i :
  size_ok a -> entry_ok i e -> set_attr_post i a e (set_attr clock ticks a e).
Proof.
  intros Hs [Hid He]. destruct (set_attr_unfold clock ticks a e) as (at_ & mt & uid & gid & t & ->).
  unfold size_ok in Hs. unfold set_attr_post.
  destruct e as [file|dir]; cbn [entry_with_attr entry_attr];
    [|by destruct (sattr3_size a); (split; [|done])].
  destruct (sattr3_size a) as [s|]; [|by split].
  destruct (file_resize s _) as [f'| |] eqn:Er.
  - apply file_resize_ok in Er as (En & Ea & Ev & El & Ec); [|done].
    split; [|split; [cbn; by rewrite En|done]].
    eapply entry_ok_sized; [|rewrite El; exact Ea]. by split.
  - split; [by split|]. split; [done|]. split; [done|]. exists s, file. split; [done|]. split; [done|].
    unfold file_resize, vec_resize in Er. cbn in Er.
    destruct (s <=? len (file_content file)) eqn:E1; [done|]. destruct (s <=? isize_MAX) eqn:E2; [done|]. lia.
  - unfold file_resize, vec_resize in Er. cbn in Er.
    destruct (s <=? len (file_content file)); [done|]. by destruct (s <=? isize_MAX).
Qed.

(** [File::write] splices the data in, and the new size is in the attributes. *)
Definition file_write_post (i : Z) (offset : Z) (data : list byte) (f : File)
  (r : outcome (result fattr3 nfsstat3) * File) : Prop :=
  match r with
  | (o, f') =>
      entry_ok i (EFile f') /\ node_of (EFile f') = node_of (EFile f) /\
      match o with
      | Ret (Ok a) => offset <= len (file_content f) /\ a = file_attr f' /\
          file_content f' = take (Z.to_nat offset) (file_content f) ++ data ++
                            drop (Z.to_nat (offset + len data)) (file_content f)
      | Ret (Err stat) => stat = NFS3ERR_INVAL /\ len (file_content f) < offset /\ f' = f
      | _ => o = Panic /\ f' = f /\ isize_MAX < offset + len data /\ len (file_content f) < offset + len data
      end
  end.

Lemma file_write_cases i offset data f :
  0 <= offset -> entry_ok i (EFile f) -> file_write_post i offset data f (file_write offset data f).
Proof.
  intros Ho Hok. pose proof Hok as (Hid & Hty & Hsz & Hus). cbn in Hid. unfold file_write.
  destruct (len (file_content f) <? offset) eqn:E; [apply Z.ltb_lt in E|apply Z.ltb_ge in E].
  { split; [done|]. split; [done|]. done. }
  destruct (len (file_content f) <? offset + len data) eqn:E1; [apply Z.ltb_lt in E1|apply Z.ltb_ge in E1].
  - destruct (file_resize _ f) as [f'| |] eqn:Er.
    + apply file_resize_ok in Er as (En & Ea & Ev & El & Ec); [|pose proof (len_nonneg data); lia].
      unfold len in *. assert (Hc : take (Z.to_nat offset) (file_content f') ++ data ++
          drop (Z.to_nat (offset + Z.of_nat (length data))) (file_content f') =
        take (Z.to_nat offset) (file_content f) ++ data ++
          drop (Z.to_nat (offset + Z.of_nat (length data))) (file_content f)).
      { rewrite !(drop_ge _ (Z.to_nat (offset + Z.of_nat (length data)))) by lia.
        rewrite Ec, take_take, take_app_le by lia. do 2 f_equal. lia. }
      cbn. unfold len. rewrite Hc.
      split; [|split; [cbn; by rewrite En|by split]].
      apply (entry_ok_sized i f); [done|]. cbn. rewrite Ea. f_equal.
      unfold len. rewrite !length_app, length_take, length_drop. lia.
    + split; [done|]. split; [done|]. split; [done|]. split; [done|].
      destruct (decide (isize_MAX < offset + len data)); [done|].
      destruct (file_resize_total (offset + len data) f) as [? E2]; [lia|congruence].
    + unfold file_resize, vec_resize in Er. destruct (_ <=? _); [done|]. by destruct (_ <=? isize_MAX).
  - assert (Hl : len (take (Z.to_nat offset) (file_content f) ++ data ++
        drop (Z.to_nat (offset + len data)) (file_content f)) = len (file_content f)).
    { unfold len in *. rewrite !length_app, length_take, length_drop. lia. }
    split; [|split; [done|by split]]. split; [done|]. cbn. rewrite Hl. done.
Qed.

(** ** The states of a server *)

Section hash.
Context `{HashSetOrder}.

(** A call of a method of the file system. *)
Inductive MemFsOp : Type :=
| OpLookup (dirid : Z) (name : filename3)
| OpLookupByPath (path : list byte)
| OpGetattr (id : Z)
| OpRead (id : Z) (offset count : Z)
| OpReaddir (dirid cookie : Z)
| OpNext (ids : list Z)
| OpSetattr (id : Z) (attr : sattr3)
| OpWrite (id : Z) (offset : Z) (data : list byte)
| OpCreate (dirid : Z) (name : filename3) (attr : sattr3)
| OpCreateExclusive (dirid : Z) (name : filename3) (verf : createverf3)
| OpConfigFile (dirid : Z) (name : filename3) (content : list byte)
| OpMkdir (dirid : Z) (name : filename3)
| OpRemove (dirid : Z) (name : filename3)
| OpRename (from_dirid : Z) (from : filename3) (to_dirid : Z) (to : filename3).

(** What a call returns, up to its value. *)
Definition forget {A} (p : outcome A * MemFs) : outcome unit * MemFs :=
  (match fst p with Ret _ => Ret tt | Panic => Panic | OutOfFuel => OutOfFuel end, snd p).

Definition run_op (op : MemFsOp) (m : MemFs) : outcome unit * MemFs :=
  match op with
  | OpLookup d name => forget (memfs_lookup d name m)
  | OpLookupByPath path => forget (memfs_path_to_id path m)
  | OpGetattr id => forget (memfs_getattr id m)
  | OpRead id offset count => forget (memfs_read id offset count m)
  | OpReaddir d cookie => forget (memfs_make_iter d cookie m)
  | OpNext ids => forget (memfs_next (fun id e => (id, e)) ids m)
  | OpSetattr id attr => forget (memfs_setattr id attr m)
  | OpWrite id offset data => forget (memfs_write id offset data m)
  | OpCreate d name attr => forget (memfs_create d name attr m)
  | OpCreateExclusive d name verf => forget (memfs_create_exclusive d name verf m)
  | OpConfigFile d name content => forget (memfs_add_file d name sattr3_default content None m)
  | OpMkdir d name => forget (memfs_add_dir d name m)
  | OpRemove d name => forget (memfs_remove d name m)
  | OpRename d from q to => forget (memfs_rename d from q to m)
  end.

(** The arguments are machine integers; the NFS handlers stat the directory
    before [mkdir] and [rename]; the source of a rename is not [.] or [..]. *)
Definition op_pre (op : MemFsOp) (m : MemFs) : Prop :=
  match op with
  | OpSetattr _ attr | OpCreate _ _ attr => size_ok attr
  | OpWrite _ offset _ => 0 <= offset
  | OpMkdir d _ => is_Some (fs_get (mf_fs m) d)
  | OpRename _ from q _ => ~ special from /\ is_Some (fs_get (mf_fs m) q)
  | _ => True
  end.

(** No size or offset beyond what a [Vec] can hold. *)
Definition op_fits (op : MemFsOp) : Prop :=
  match op with
  | OpSetattr _ attr | OpCreate _ _ attr =>
      match sattr3_size attr with Some s => s <= isize_MAX | None => True end
  | OpWrite _ offset data => offset + len data <= isize_MAX
  | OpRead _ offset count => offset + count <= usize_MAX
  | _ => True
  end.

Inductive memfs_reachable (clock : nat -> nfstime3) : MemFs -> Prop :=
| reachable_default : memfs_reachable clock (memfs_default clock)
| reachable_op op m :
    memfs_reachable clock m -> op_pre op m -> memfs_reachable clock (snd (run_op op m)).

(** ** The invariant *)

Definition memfs_inv (m : MemFs) : Prop := fs_wf (mf_fs m) /\ fs_root (mf_fs m) = mf_rootdir m.

(** A call keeps the invariant, and neither panics nor poisons the lock if its
    arguments fit. *)
Definition call_ok {A} (fits : Prop) (m : MemFs) (r : outcome A * MemFs) : Prop :=
  memfs_inv (snd r) /\
  (mf_poisoned m = false -> fits -> (exists a, fst r = Ret a) /\ mf_poisoned (snd r) = false).

Lemma call_ok_forget {A} fits m (r : outcome A * MemFs) : call_ok fits m r -> call_ok fits m (forget r).
Proof.
  intros [Hi Hp]. split; [done|]. intros Hm Hf. destruct (Hp Hm Hf) as [[a Ea] ?]. split; [|done].
  exists tt. cbn. by rewrite Ea.
Qed.

Lemma call_ok_map {A B} fits m (k : prog MemFs A) (g : A -> B) :
  call_ok fits m (k m) -> call_ok fits m ((do* a := k in pret (g a)) m).
Proof.
  intros [Hi Hp]. unfold call_ok, pbind. destruct (k m) as [[a| |] m']; cbn in *;
    (split; [done|]); intros Hm Hf; destruct (Hp Hm Hf) as [[? [=]] ?]. split; [by eexists|done].
Qed.

Lemma call_ok_read {A} (fits : Prop) (k : Fs -> outcome A) m :
  memfs_inv m -> (fits -> exists a, k (mf_fs m) = Ret a) -> call_ok fits m (with_read k m).
Proof.
  intros Hi Hk. unfold with_read, call_ok. destruct (mf_poisoned m) eqn:Ep; cbn; (split; [done|]); [done|].
  intros _ Hf. split; [by apply Hk|done].
Qed.

Lemma call_ok_write {A} (fits : Prop) (k : Fs -> outcome A * Fs) m :
  memfs_inv m -> fs_wf (snd (k (mf_fs m))) -> fs_root (snd (k (mf_fs m))) = fs_root (mf_fs m) ->
  (fits -> exists a, fst (k (mf_fs m)) = Ret a) -> call_ok fits m (with_write k m).
Proof.
  intros [Hw Hr] Hw' Hr' Hk. unfold with_write, call_ok, memfs_inv. destruct (mf_poisoned m) eqn:Ep; [done|].
  destruct (k (mf_fs m)) as [[a| |] f]; cbn in *; (split; [split; [done|congruence]|]); intros _ Hf.
  1: split; [by eexists|done]. all: destruct (Hk Hf) as [? [=]].
Qed.

(** The calls that only read the clock or draw an id first. *)
Lemma call_ok_same {A} fits m m1 (r : outcome A * MemFs) :
  mf_poisoned m1 = mf_poisoned m -> call_ok fits m1 r -> call_ok fits m r.
Proof. intros E [Hi Hp]. split; [done|]. by rewrite <- E. Qed.

(** ** The table keeps its root *)

Lemma fs_remove_root f d name : fs_wf f -> fs_root (snd (fs_remove d name f)) = fs_root f.
Proof.
  intros W. pose proof (fs_remove_cases f d name W) as Hc.
  destruct (fs_remove d name f) as [[[u|stat]| |] f']; cbn; [|by destruct Hc as [-> _]|done..].
  by destruct Hc as (_ & c & e & dir & _ & _ & _ & _ & _ & ->).
Qed.

Lemma fs_push_root f p e :
  fs_wf f -> entry_fileid e <> p \/ (exists file, e = EFile file) -> fs_root (snd (fs_push p e f)) = fs_root f.
Proof.
  intros W Hp. pose proof (fs_push_cases f p e W Hp) as Hc.
  destruct (fs_push p e f) as [[[u|stat]| |] f']; cbn; [|by destruct Hc as [-> _]|done..].
  by destruct Hc as (_ & dir & _ & _ & ->).
Qed.

Lemma fs_rename_root f d name q to :
  fs_wf f -> ~ special name -> is_Some (fs_get f q) -> fs_root (snd (fs_rename d name q to f)) = fs_root f.
Proof.
  intros W Hs Hq. pose proof (fs_rename_cases f d name q to W Hs Hq) as Hc.
  destruct (fs_rename d name q to f) as [[[u|stat]| |] f']; cbn; [| |done..].
  - destruct Hc as [[-> _]|(Hto & c & e & f0 & Hch & Ee & Hne & Er & Hav & Hcq & Em)]; [done|].
    destruct (rename_room _ _ _ _ _ _ _ _ _ W Hch Hne Hq Er) as (_ & W0 & Hroot & [td Etd] & Hk0 & Hsame & _).
    destruct (rename_move_cases f0 d c q to td e W0 Hk0 Etd Hcq) as (f1 & Em' & _ & Hr & _); [by rewrite Hsame|].
    rewrite Em in Em'. injection Em' as ->. congruence.
  - destruct Hc as [->|[_ Hr]]; [done|]. pose proof (fs_remove_root f q to W) as W0. by rewrite Hr in W0.
Qed.

(** Replacing an entry by one of the same shape. *)
Lemma fs_set_same_wf f i e e' :
  fs_wf f -> fs_get f i = Some e' -> node_of e = node_of e' -> entry_ok i e -> fs_wf (fs_set i e f).
Proof.
  intros W E En He. split; [by apply fs_set_wf; [apply W|]|].
  rewrite (tree_of_same f i e e') by done. apply W.
Qed.

(** ** Each method *)

Lemma setattr_ok id attr m :
  memfs_inv m -> size_ok attr -> call_ok (op_fits (OpSetattr id attr)) m (memfs_setattr id attr m).
Proof.
  intros Hi Hs. unfold memfs_setattr. destruct (mf_poisoned m) eqn:Ep.
  { split; [done|]. intros Hm. congruence. }
  destruct (fs_get (mf_fs m) id) as [e|] eqn:Ee; [|by split; [|intros _ _; split; [eexists|]]].
  pose proof (set_attr_cases (mf_clock m) (mf_ticks m) attr e id Hs (fw_entries _ (proj1 Hi) _ _ Ee)) as Hc.
  unfold set_attr_post in Hc. destruct (set_attr _ _ _ e) as [[o e'] ticks]. destruct Hc as (Hok & Hn & Ho).
  apply (call_ok_same _ _ (mf_set_ticks ticks m)); [done|]. apply call_ok_write; [done| |done|].
  - cbn. apply (fs_set_same_wf _ _ _ e); [apply Hi|done..].
  - cbn. intros Hf. destruct o as [u| |]; [by eexists|..]; destruct Ho as [? (s & f & Es & _ & H1 & _)];
      rewrite Es in Hf; cbn in *; lia.
Qed.

Lemma write_ok id offset data m :
  memfs_inv m -> 0 <= offset -> call_ok (op_fits (OpWrite id offset data)) m (memfs_write id offset data m).
Proof.
  intros Hi Ho. unfold memfs_write. apply call_ok_write; [done|..];
    (destruct (fs_get (mf_fs m) id) as [[file|dir]|] eqn:Ee; [|try apply Hi; try done; by eexists..]);
    pose proof (file_write_cases id offset data file Ho (fw_entries _ (proj1 Hi) _ _ Ee)) as Hc;
    unfold file_write_post in Hc; destruct (file_write offset data file) as [o file']; cbn;
    destruct Hc as (Hok & Hn & Hc).
  - by apply (fs_set_same_wf _ _ _ (EFile file)); [apply Hi|..].
  - done.
  - intros Hf. cbn in Hf. destruct o as [[a|stat]| |]; [by eexists..|destruct Hc as (_ & _ & ? & _); lia|].
    by destruct Hc.
Qed.

Lemma remove_ok d name m : memfs_inv m -> call_ok True m (memfs_remove d name m).
Proof.
  intros Hi. unfold memfs_remove. apply call_ok_write; [done|by apply fs_remove_wf, Hi|by apply fs_remove_root, Hi|].
  intros _. pose proof (fs_remove_cases (mf_fs m) d name (proj1 Hi)) as Hc.
  destruct (fs_remove d name (mf_fs m)) as [[r| |] f']; [by eexists|done..].
Qed.

Lemma rename_ok d name q to m :
  memfs_inv m -> ~ special name -> is_Some (fs_get (mf_fs m) q) -> call_ok True m (memfs_rename d name q to m).
Proof.
  intros Hi Hs Hq. unfold memfs_rename. apply call_ok_write;
    [done|by apply fs_rename_wf; [apply Hi|..]|by apply fs_rename_root; [apply Hi|..]|].
  intros _. pose proof (fs_rename_cases (mf_fs m) d name q to (proj1 Hi) Hs Hq) as Hc.
  destruct (fs_rename d name q to (mf_fs m)) as [[r| |] f']; [by eexists|done..].
Qed.

Lemma mkdir_ok d name m :
  memfs_inv m -> is_Some (fs_get (mf_fs m) d) -> call_ok True m (memfs_add_dir d name m).
Proof.
  intros Hi Hd. unfold memfs_add_dir, fetch_nextid, current_time. cbn.
  set (m1 := mf_set_ticks _ _). set (e := EDir _).
  apply (call_ok_same _ _ m1); [done|]. apply call_ok_map.
  destruct (decide (mf_nextid m = d)) as [Hnd|Hnd].
  - assert (Ep : fs_push d e (mf_fs m1) = (Ret (Err NFS3ERR_EXIST), mf_fs m1)).
    { unfold fs_push. change (entry_fileid e) with (mf_nextid m). rewrite Hnd. change (mf_fs m1) with (mf_fs m).
      destruct Hd as [e0 E0]. by rewrite E0. }
    apply call_ok_write; [done|rewrite Ep; apply Hi|by rewrite Ep|rewrite Ep; by eexists].
  - assert (Hp : entry_fileid e <> d \/ exists file, e = EFile file) by by left.
    assert (He : new_entry d e).
    { split; [|done]. split; [done|]. cbn. split; [done|constructor]. }
    apply call_ok_write; [done|by apply fs_push_wf; [apply Hi|..]|by apply fs_push_root; [apply Hi|]|].
    intros _. pose proof (fs_push_cases (mf_fs m1) d e (proj1 Hi) Hp) as Hc.
    destruct (fs_push d e (mf_fs m1)) as [[r| |] f']; [by eexists|done..].
Qed.

(** The critical section of [add_file]. *)
Definition insert_file_post (d : Z) (id : Z) (file : File) (attr : fattr3) (verf : option createverf3) (f : Fs)
  (r : outcome (result (Z * fattr3) nfsstat3) * Fs) : Prop :=
  match r with
  | (Ret (Ok (i, a)), f') =>
      a = attr /\
      ((i = id /\ fs_lookup f d (file_name file) = Err NFS3ERR_NOENT /\
        fs_push d (EFile file) f = (Ret (Ok tt), f')) \/
       (f' = f /\ exists x v, fs_lookup f d (file_name file) = Ok (EFile x) /\ verf = Some v /\
          v = file_verf x /\ i = fattr3_fileid (file_attr x)))
  | (Ret (Err stat), f') =>
      f' = f /\
      match fs_lookup f d (file_name file) with
      | Ok (EFile x) => stat = NFS3ERR_EXIST /\ verf <> Some (file_verf x)
      | Ok (EDir _) => stat = NFS3ERR_EXIST
      | Err NFS3ERR_NOENT => fs_push d (EFile file) f = (Ret (Err stat), f)
      | Err e => stat = e
      end
  | _ => False
  end.

Lemma insert_file_cases d id file attr verf f :
  fs_wf f -> insert_file_post d id file attr verf f (insert_file d id (EFile file) attr verf f).
Proof.
  intros W. unfold insert_file. cbn [entry_name].
  pose proof (fs_push_cases f d (EFile file) W ltac:(right; by eexists)) as Hp.
  destruct (fs_lookup f d (file_name file)) as [[x|x]|stat] eqn:El.
  - destruct verf as [v|]; [destruct (decide (v = file_verf x)) as [->|]|]; cbn; rewrite ?El.
    + split; [done|]. right. split; [done|]. by exists x, (file_verf x).
    + split; [done|]. split; [done|]. congruence.
    + done.
  - cbn. by rewrite El.
  - destruct stat; try (cbn; by rewrite El).
    destruct (fs_push d (EFile file) f) as [[[[]|stat]| |] f'] eqn:Ep; cbn; [| |done..].
    + split; [done|]. left. done.
    + rewrite El. destruct Hp as [-> _]. done.
Qed.

Lemma insert_file_wf d id file attr verf f :
  fs_wf f -> new_entry d (EFile file) ->
  fs_wf (snd (insert_file d id (EFile file) attr verf f)) /\
  fs_root (snd (insert_file d id (EFile file) attr verf f)) = fs_root f.
Proof.
  intros W Hn. pose proof (insert_file_cases d id file attr verf f W) as Hc.
  assert (Hp : entry_fileid (EFile file) <> d \/ exists x, EFile file = EFile x) by (right; by eexists).
  pose proof (fs_push_wf f d _ W Hn Hp) as Hw. pose proof (fs_push_root f d _ W Hp) as Hr.
  destruct (insert_file d id (EFile file) attr verf f) as [[[[i a]|stat]| |] f']; cbn in *; [| |done..].
  - destruct Hc as (_ & [(_ & _ & Ep)|[-> _]]); [|done]. by rewrite Ep in Hw, Hr.
  - by destruct Hc as [-> _].
Qed.

(** A new file with its attributes set. *)
Definition created_file (name : filename3) (id : Z) (content : list byte) (verf : option createverf3)
  (attr : sattr3) (m : MemFs) : outcome unit * Entry * nat :=
  set_attr (mf_clock m) (S (mf_ticks m)) attr
    (EFile (file_new name id content (default createverf_default verf) (mf_clock m (mf_ticks m)))).

(** The state once the id is drawn and the clock read. *)
Definition drawn (ticks : nat) (m : MemFs) : MemFs :=
  mkMemFs (mf_fs m) (mf_poisoned m) (mf_rootdir m) ((mf_nextid m + 1) mod 2 ^ 64) (mf_clock m) ticks.

Lemma add_file_unfold d name attr content verf m :
  memfs_add_file d name attr content verf m =
  match created_file name (mf_nextid m) content verf attr m with
  | (Ret _, file, ticks) =>
      with_write (insert_file d (mf_nextid m) file (entry_attr file) verf) (drawn ticks m)
  | (Panic, _, ticks) => (Panic, drawn ticks m)
  | (OutOfFuel, _, ticks) => (OutOfFuel, drawn ticks m)
  end.
Proof.
  unfold memfs_add_file, created_file, fetch_nextid, current_time, set_attr_here, pbind. cbn.
  by destruct (set_attr _ _ attr _) as [[[u| |] file] ticks].
Qed.

Lemma created_file_cases name id content verf attr m :
  size_ok attr ->
  match created_file name id content verf attr m with
  | (o, e, _) => exists file, e = EFile file /\ file_name file = name /\ entry_ok id e /\
      match o with
      | Ret _ => file_content file =
          match sattr3_size attr with
          | Some s => take (Z.to_nat s) (content ++ replicate (Z.to_nat (s - len content)) x00)
          | None => content
          end
      | _ => o = Panic /\ exists s, sattr3_size attr = Some s /\ isize_MAX < s
      end
  end.
Proof.
  intros Hs. unfold created_file. set (e := EFile (file_new _ _ _ _ _)).
  pose proof (set_attr_cases (mf_clock m) (Datatypes.S (mf_ticks m)) attr e id Hs) as Hc.
  destruct (set_attr _ _ attr e) as [[o e'] ticks]. destruct Hc as (Hok & Hn & Ho); [by repeat split|].
  destruct e' as [file|]; [|by destruct (sattr3_size attr)]. exists file. split; [done|].
  cbn in Hn. injection Hn as Hn. split; [done|]. split; [done|].
  destruct o as [u| |]; [|destruct Ho as [? (s & f & Es & _ & H1 & _)]; split; [done|]; by exists s..].
  by destruct (sattr3_size attr).
Qed.

Lemma add_file_ok d name attr content verf m :
  memfs_inv m -> size_ok attr ->
  call_ok (match sattr3_size attr with Some s => s <= isize_MAX | None => True end) m
    (memfs_add_file d name attr content verf m).
Proof.
  intros Hi Hs. rewrite add_file_unfold.
  pose proof (created_file_cases name (mf_nextid m) content verf attr m Hs) as Hc.
  destruct (created_file name (mf_nextid m) content verf attr m) as [[o e] ticks].
  destruct Hc as (file & -> & Hname & Hok & Hc). destruct o as [u| |].
  - apply (call_ok_same _ _ (drawn ticks m)); [done|].
    pose proof (insert_file_wf d (mf_nextid m) file (file_attr file) verf (mf_fs m) (proj1 Hi)) as Hw.
    destruct Hw as [Hw Hr]; [split; [|done]; by rewrite (proj1 Hok)|].
    apply call_ok_write; [done..|]. intros _. cbn [entry_attr].
    pose proof (insert_file_cases d (mf_nextid m) file (file_attr file) verf (mf_fs m) (proj1 Hi)) as Hp.
    change (mf_fs (drawn ticks m)) with (mf_fs m).
    destruct (insert_file _ _ _ _ _ _) as [[r| |] f']; [by eexists|done..].
  - split; [done|]. intros _. destruct Hc as [_ (s & -> & ?)]. lia.
  - by destruct Hc.
Qed.

(** Every call keeps the invariant; with fitting arguments it returns and
    leaves the lock usable. *)
Lemma run_op_ok op m : memfs_inv m -> op_pre op m -> call_ok (op_fits op) m (run_op op m).
Proof.
  intros Hi Hpre. destruct op; cbn [run_op]; apply call_ok_forget.
  - apply call_ok_read; [done|by eexists].
  - apply call_ok_read; [done|by eexists].
  - apply call_ok_read; [done|by eexists].
  - apply call_ok_read; [done|]. cbn [op_fits]. intros Hf.
    destruct (fs_get (mf_fs m) id) as [[file|dir]|]; [|by eexists..]. cbn [as_file]. unfold file_read.
    rewrite (proj2 (Z.leb_le _ _) Hf). by eexists.
  - apply call_ok_read; [done|by eexists].
  - unfold memfs_next. destruct ids; [split; [done|]; intros; split; [by eexists|done]|].
    apply call_ok_read; [done|by eexists].
  - by apply setattr_ok.
  - by apply write_ok.
  - by apply add_file_ok.
  - apply call_ok_map. by apply (add_file_ok _ _ sattr3_default).
  - by apply (add_file_ok _ _ sattr3_default).
  - by apply mkdir_ok.
  - by apply remove_ok.
  - by apply rename_ok; [|apply Hpre..].
Qed.

Lemma fs_new_wf now : fs_wf (fs_new now).
Proof.
  assert (Hg : forall i e, fs_get (fs_new now) i = Some e -> i = 1 /\ e = EDir (dir_new [x2f] 1 0 now)).
  { intros i e. unfold fs_get, fs_new. cbn. intros [<- <-]%lookup_singleton_Some. done. }
  assert (Hk : forall i c, ~ kid (tree_of (fs_new now)) i c).
  { intros i c (d & [-> [= ->]]%Hg & Hc)%kid_dir. by apply not_elem_of_nil in Hc. }
  split; [intros i e [-> ->]%Hg; by repeat split; constructor|]. split.
  - exists 0, ∅. apply is_dir_get. by eexists.
  - by intros ? ? ?%Hk.
  - by intros ? ? ? ? ?%Hk.
  - by intros ? ? ? ?%Hk.
  - intros i Hr [n E]. rewrite tree_lookup in E.
    destruct (fs_get (fs_new now) i) eqn:Ei; [|done]. apply Hg in Ei as [-> _]. done.
  - intros i p k (d & [-> _]%Hg & _)%is_dir_get. exists O. constructor.
Qed.

Lemma memfs_reachable_inv clock m : memfs_reachable clock m -> memfs_inv m.
Proof.
  induction 1 as [|op m Hm IH Hpre]; [split; [apply fs_new_wf|done]|]. by apply run_op_ok.
Qed.

(** ** Reading the state back *)

#[export] Instance special_dec name : Decision (special name).
Proof. unfold special. apply _. Defined.

Lemma fs_lookup_get f d name e :
  fs_wf f -> fs_lookup f d name = Ok e -> fs_get f (entry_fileid e) = Some e.
Proof.
  intros W El. destruct (decide (special name)) as [Hs|Hs].
  - by destruct (fs_lookup_dot f d name e W Hs El) as (dir & _ & ? & _).
  - pose proof (fs_lookup_cases f d name W Hs) as Hc. rewrite El in Hc. apply Hc.
Qed.

Lemma lookup_path_get f components fid i :
  fs_wf f -> is_Some (fs_get f fid) -> lookup_path f components fid = Ok i -> is_Some (fs_get f i).
Proof.
  intros W. revert fid. induction components as [|[|b c] rest IH]; intros fid Hf; cbn [lookup_path].
  - by intros [= <-].
  - by apply IH.
  - destruct (fs_lookup f fid (b :: c)) as [e|] eqn:E; [|done].
    apply IH. rewrite (fs_lookup_get _ _ _ _ W E). by eexists.
Qed.

Lemma rootdir_get m : memfs_inv m -> is_Some (fs_get (mf_fs m) (mf_rootdir m)).
Proof.
  intros [W <-]. destruct (tw_root _ _ (fw_tree _ W)) as (p & k & (d & -> & _)%is_dir_get). by eexists.
Qed.

Lemma add_entries_ok clock entries m :
  memfs_reachable clock m -> mf_poisoned m = false ->
  exists r, fst (memfs_add_entries entries m) = Ret r /\
    memfs_reachable clock (snd (memfs_add_entries entries m)) /\
    mf_poisoned (snd (memfs_add_entries entries m)) = false.
Proof.
  revert m. induction entries as [|entry rest IH]; intros m Hm Hp; cbn [memfs_add_entries].
  { by exists (Ok tt). }
  pose proof (memfs_reachable_inv _ _ Hm) as Hi.
  assert (Epath : exists r, memfs_path_to_id (ce_parent entry) m = (Ret r, m) /\
                    forall i, r = Ok i -> is_Some (fs_get (mf_fs m) i)).
  { unfold memfs_path_to_id, with_read. rewrite Hp. eexists. split; [done|]. intros i.
    apply lookup_path_get; [apply Hi|by apply rootdir_get]. }
  destruct Epath as (r & Er & Hr). unfold pbind at 1 3 5. rewrite Er. cbv beta iota.
  destruct r as [id|stat]; [|by exists (Err stat)]. specialize (Hr id eq_refl).
  set (k := if ce_is_dir entry then _ else _).
  assert (Hk : memfs_reachable clock (snd (k m)) /\ call_ok True m (k m)).
  { unfold k. destruct (ce_is_dir entry).
    - split; [|by apply mkdir_ok]. by apply (reachable_op clock (OpMkdir id (ce_name entry)) m).
    - split; [|by apply (add_file_ok _ _ sattr3_default)].
      by apply (reachable_op clock (OpConfigFile id (ce_name entry) (ce_content entry)) m). }
  destruct Hk as [Hkr [_ Hkp]]. destruct (Hkp Hp Logic.I) as [[r' Er'] Hp'].
  unfold pbind. destruct (k m) as [o m1]. cbn in Er', Hkr, Hp'. subst o.
  destruct r' as [x|stat]; [by apply IH|by exists (Err stat)].
Qed.

(** [MemFs::new] always returns. *)
Lemma memfs_new_cases clock config :
  exists r, memfs_new clock config = Ret r /\
    forall m, r = Ok m -> memfs_reachable clock m /\ mf_poisoned m = false.
Proof.
  destruct (add_entries_ok clock config (memfs_default clock)) as (r & Er & Hr & Hp); [constructor|done|].
  unfold memfs_new. destruct (memfs_add_entries config (memfs_default clock)) as [o m1]. cbn in *. subst o.
  destruct r as [u|e]; eexists; (split; [done|]); [|done]. by intros m [= <-].
Qed.

Lemma with_write_ret {A} (k : Fs -> outcome A * Fs) m a m' :
  mf_poisoned m = false -> with_write k m = (Ret a, m') ->
  k (mf_fs m) = (Ret a, mf_fs m') /\ mf_poisoned m' = false /\ mf_rootdir m' = mf_rootdir m.
Proof.
  intros Hp. unfold with_write. rewrite Hp. destruct (k (mf_fs m)) as [[x| |] f]; intros [=]. subst. done.
Qed.

(** The names seen through [lookup]. *)
Lemma memfs_lookup_iff m d name i :
  memfs_inv m -> names_unique (tree_of (mf_fs m)) -> mf_poisoned m = false -> ~ special name ->
  memfs_lookup d name m = (Ret (Ok i), m) <-> child (tree_of (mf_fs m)) d name i.
Proof.
  intros [W _] U Hp Hs. rewrite <- fs_lookup_child by done. unfold memfs_lookup, with_read. rewrite Hp.
  split; [by intros [= ->]|by intros ->].
Qed.

Lemma memfs_lookup_noent m d name :
  memfs_inv m -> mf_poisoned m = false -> ~ special name ->
  (exists p k, is_dir (tree_of (mf_fs m)) d p k) ->
  memfs_lookup d name m = (Ret (Err NFS3ERR_NOENT), m) <-> forall i, ~ child (tree_of (mf_fs m)) d name i.
Proof.
  intros [W _] Hp Hs Hd. rewrite <- fs_lookup_noent by done. unfold memfs_lookup, with_read. rewrite Hp.
  destruct (fs_lookup (mf_fs m) d name); cbn; split; congruence.
Qed.

(** The attributes and the bytes of the entry [i]. *)
Definition data_of (m : MemFs) (i : Z) : option (fattr3 * option (list byte)) :=
  entry_data <$> fs_get (mf_fs m) i.

End hash.
