(* ===== verification/MemFsNames.v ===== *)
(** * Names in the in-memory file system

    The effect of each operation on the table, read through [child]: which
    names appear, which disappear, and that unique names stay unique. *)

From stdpp Require Import gmap sets fin_sets.
From S2P Require Import Prelude Xdr XdrLaws Nfs3Types Handle Vfs MemFs MemFsTree MemFsLaws MemFsTheorems.
Open Scope Z_scope.
Open Scope nfs_scope.

(** ** On the tree *)

Lemma names_push r t p c n :
  tree_wf r t -> names_unique t -> (exists pp k, is_dir t p pp k) -> t !! c = None -> leaf n ->
  (forall i, ~ child t p (node_name n) i) -> names_unique (tree_push p c n t).
Proof.
  intros W U Hp Hc Hl Hno d name i j Hi Hj.
  apply (child_push r t p c n d name i W Hp Hc Hl) in Hi.
  apply (child_push r t p c n d name j W Hp Hc Hl) in Hj.
  destruct Hi as [Hi|(-> & -> & ->)], Hj as [Hj|(Ed & Ej & En)]; subst; try done.
  - by eapply U.
  - by destruct (Hno i).
  - by destruct (Hno j).
Qed.

Lemma names_remove r t p c :
  tree_wf r t -> names_unique t -> kid t p c -> (forall n, t !! c = Some n -> leaf n) ->
  names_unique (tree_remove p c t).
Proof.
  intros W U Hk Hl d name i j Hi Hj.
  apply (child_removed r t p c d name i W Hk Hl) in Hi as [Hi _].
  apply (child_removed r t p c d name j W Hk Hl) in Hj as [Hj _]. by eapply U.
Qed.

Lemma names_move r t p c q to :
  tree_wf r t -> names_unique t -> kid t p c -> (exists pp k, is_dir t q pp k) ->
  (forall i, i <> c -> ~ child t q to i) -> names_unique (tree_move p c q to t).
Proof.
  intros W U Hk Hq Hno d name i j Hi Hj.
  apply (child_moved r t p c q to d name i W Hk Hq) in Hi.
  apply (child_moved r t p c q to d name j W Hk Hq) in Hj.
  destruct Hi as [[Hi Hic]|(-> & -> & ->)], Hj as [[Hj Hjc]|(Ed & Ej & En)]; subst; try done.
  - by eapply U.
  - by destruct (Hno i).
  - by destruct (Hno j).
Qed.

(** The children once the name [to] is free in [q]. *)
Lemma made_room_child r t q to c t0 d name i :
  tree_wf r t -> names_unique t -> made_room t q to c t0 ->
  child t0 d name i <-> child t d name i /\ ~ (d = q /\ name = to).
Proof.
  intros W U [[-> Hno]|(c' & Hch & Hne & Hl & ->)].
  - split; [|by intros [? _]]. intros Hi. split; [done|]. intros [-> ->]. by apply (Hno i).
  - rewrite (child_removed r t q c' d name i W (proj1 Hch) Hl). split; intros [Hi Hd]; split; try done.
    + intros [-> ->]. apply Hd. by eapply U.
    + intros ->. apply Hd. destruct Hi as [Hk (n & E & <-)], Hch as [Hk' (n' & E' & <-)].
      split; [by apply (tw_unique _ _ W d q c')|congruence].
Qed.

Lemma made_room_names r t q to c t0 :
  tree_wf r t -> names_unique t -> made_room t q to c t0 -> names_unique t0.
Proof.
  intros W U Hm d name i j Hi Hj. apply (made_room_child _ _ _ _ _ _ _ _ _ W U Hm) in Hi as [Hi _].
  apply (made_room_child _ _ _ _ _ _ _ _ _ W U Hm) in Hj as [Hj _]. by eapply U.
Qed.

(** ** On the table *)

Section hash.
Context `{HashSetOrder}.

Lemma push_child f p e f' d name i :
  fs_wf f -> new_entry p e -> entry_fileid e <> p \/ (exists file, e = EFile file) ->
  fs_push p e f = (Ret (Ok tt), f') ->
  child (tree_of f') d name i <->
  child (tree_of f) d name i \/ (d = p /\ i = entry_fileid e /\ name = entry_name e).
Proof.
  intros W [_ He] Hp Ep. pose proof (fs_push_cases f p e W Hp) as Hc. rewrite Ep in Hc.
  destruct Hc as (E0 & dir & Edir & Hx & ->). rewrite fs_push_tree by done. rewrite <- node_name_of.
  apply (child_push (fs_root f)); [apply W| |by rewrite tree_lookup, E0|].
  - do 2 eexists. apply is_dir_get. eauto.
  - destruct e as [|dd]; [done|]. cbn. by destruct He as [_ ->].
Qed.

Lemma push_names f p e f' :
  fs_wf f -> names_unique (tree_of f) -> new_entry p e ->
  entry_fileid e <> p \/ (exists file, e = EFile file) ->
  fs_push p e f = (Ret (Ok tt), f') -> (forall i, ~ child (tree_of f) p (entry_name e) i) ->
  names_unique (tree_of f').
Proof.
  intros W U [_ He] Hp Ep Hno. pose proof (fs_push_cases f p e W Hp) as Hc. rewrite Ep in Hc.
  destruct Hc as (E0 & dir & Edir & Hx & ->). rewrite fs_push_tree by done.
  apply (names_push (fs_root f)); [apply W|done| |by rewrite tree_lookup, E0| |by rewrite node_name_of].
  - do 2 eexists. apply is_dir_get. eauto.
  - destruct e as [|dd]; [done|]. cbn. by destruct He as [_ ->].
Qed.

(** What a successful [remove] takes away. *)
Lemma remove_child f d name f' :
  fs_wf f -> fs_remove d name f = (Ret (Ok tt), f') ->
  exists c, child (tree_of f) d name c /\
    (forall n, tree_of f !! c = Some n -> leaf n) /\ tree_of f' = tree_remove d c (tree_of f) /\
    fs_get f' c = None /\ forall j, j <> c -> entry_data <$> fs_get f' j = entry_data <$> fs_get f j.
Proof.
  intros W Er. pose proof (fs_remove_cases f d name W) as Hc. rewrite Er in Hc.
  destruct Hc as (_ & c & e & dir & Hch & Ee & Hempty & Ed & Hcd & ->).
  exists c. split; [done|]. split; [|split; [by apply fs_remove_tree|split]].
  - intros n. rewrite tree_lookup, Ee. intros [= <-]. by apply leaf_node.
  - rewrite fs_get_set_ne, fs_get_del, decide_True; done.
  - intros j Hj. rewrite data_set_dir by (by rewrite fs_get_del_ne). by rewrite fs_get_del_ne.
Qed.

(** What a successful [rename] moves. *)
Lemma rename_child f d name q to f' :
  fs_wf f -> names_unique (tree_of f) -> ~ special name -> is_Some (fs_get f q) ->
  fs_rename d name q to f = (Ret (Ok tt), f') ->
  (f' = f /\ d = q /\ name = to) \/
  (~ special to /\ exists c, child (tree_of f) d name c /\ c <> q /\ names_unique (tree_of f') /\
     (forall d' name' i, child (tree_of f') d' name' i <->
        (child (tree_of f) d' name' i /\ ~ (d' = q /\ name' = to) /\ i <> c) \/ (d' = q /\ name' = to /\ i = c)) /\
     (forall dir, fs_get f' c = Some (EDir dir) -> dir_parent dir = q) /\
     (forall j, (forall i, child (tree_of f) q to i -> j <> i) ->
        entry_data <$> fs_get f' j = entry_data <$> fs_get f j)).
Proof.
  intros W U Hs Hq Er. pose proof (fs_rename_cases f d name q to W Hs Hq) as Hc. rewrite Er in Hc.
  destruct Hc as [Hc|(Hto & c & e & f0 & Hch & Ee & Hne & Err & Hav & Hcq & Em)]; [by left|right].
  destruct (rename_room _ _ _ _ _ _ _ _ _ W Hch Hne Hq Err) as (_ & W0 & Hroot & [td Etd] & Hk0 & Hsame & Hroom).
  assert (Ec0 : fs_get f0 c = Some e) by (by rewrite Hsame).
  destruct (rename_move_cases f0 d c q to td e W0 Hk0 Etd Hcq Ec0) as (f1 & Em' & Ht & Hr & Hok & Ec & Hfr).
  rewrite Em in Em'. injection Em' as <-.
  assert (Hq0 : exists pp k, is_dir (tree_of f0) q pp k) by (do 2 eexists; apply is_dir_get; eauto).
  pose proof (made_room_names _ _ _ _ _ _ (fw_tree _ W) U Hroom) as U0.
  pose proof (made_room_child _ _ _ _ _ _ d name c (fw_tree _ W) U Hroom) as Hmc.
  split; [done|]. exists c. split; [done|]. split; [done|]. split; [|split; [|split]].
  - rewrite Ht. apply (names_move (fs_root f0)); [apply W0|done..|].
    intros i _ Hi. by apply (made_room_child _ _ _ _ _ _ _ _ _ (fw_tree _ W) U Hroom) in Hi as [_ []].
  - intros d' name' i. rewrite Ht, (child_moved (fs_root f0) (tree_of f0) d c q to d' name' i (fw_tree _ W0) Hk0 Hq0).
    rewrite (made_room_child _ _ _ _ _ _ d' name' i (fw_tree _ W) U Hroom). naive_solver.
  - intros dir. rewrite Ec. destruct e; cbn; [done|]. by intros [= <-].
  - intros j Hj. rewrite Hfr. pose proof (rename_replace_cases e q to f W) as Hrr. rewrite Err in Hrr.
    destruct Hrr as [[-> _]|Hrr]; [done|].
    destruct (remove_child f q to f0 W Hrr) as (c' & Hc' & _ & _ & _ & Hd). apply Hd, Hj, Hc'.
Qed.

(** ** Unique names stay unique

    All operations but [mkdir] see to it. *)
Definition names_pre (op : MemFsOp) (m : MemFs) : Prop :=
  match op with
  | OpMkdir d name => forall i, ~ child (tree_of (mf_fs m)) d name i
  | _ => True
  end.

Lemma write_names {A} (k : Fs -> outcome A * Fs) m :
  names_unique (tree_of (mf_fs m)) -> names_unique (tree_of (snd (k (mf_fs m)))) ->
  names_unique (tree_of (mf_fs (snd (with_write k m)))).
Proof.
  intros U Uk. unfold with_write. destruct (mf_poisoned m); [done|].
  by destruct (k (mf_fs m)) as [[a| |] f].
Qed.

Lemma insert_file_names d id file attr verf f :
  fs_wf f -> names_unique (tree_of f) -> entry_ok id (EFile file) ->
  names_unique (tree_of (snd (insert_file d id (EFile file) attr verf f))).
Proof.
  intros W U Hok. pose proof (insert_file_cases d id file attr verf f W) as Hc.
  destruct (insert_file d id (EFile file) attr verf f) as [[[[i a]|stat]| |] f'] eqn:Ei; cbn in *; [| |done..].
  - destruct Hc as (_ & [(_ & El & Ep)|[-> _]]); [|done].
    assert (Hn : new_entry d (EFile file)) by (split; [by rewrite (proj1 Hok)|done]).
    pose proof (fs_push_cases f d (EFile file) W ltac:(right; by eexists)) as Hp. rewrite Ep in Hp.
    destruct Hp as (_ & dir & Ed & _).
    apply (push_names f d (EFile file) f' W U Hn); [right; by eexists|done|].
    by apply (lookup_noent_dir f d (file_name file) W ltac:(by rewrite Ed; eexists) El).
  - by destruct Hc as [-> _].
Qed.

Lemma add_file_names d name attr content verf m :
  memfs_inv m -> size_ok attr -> names_unique (tree_of (mf_fs m)) ->
  names_unique (tree_of (mf_fs (snd (memfs_add_file d name attr content verf m)))).
Proof.
  intros Hi Hs U. rewrite add_file_unfold.
  pose proof (created_file_cases name (mf_nextid m) content verf attr m Hs) as Hc.
  destruct (created_file name (mf_nextid m) content verf attr m) as [[[u| |] e] ticks]; [|done..].
  destruct Hc as (file & -> & _ & Hok & _). apply write_names; [done|]. by apply insert_file_names; [apply Hi|..].
Qed.

Lemma snd_pbind_pret {A B} (k : prog MemFs A) (g : A -> B) m : snd ((do* a := k in pret (g a)) m) = snd (k m).
Proof. unfold pbind. by destruct (k m) as [[a| |] m']. Qed.

Lemma run_op_names op m :
  memfs_inv m -> op_pre op m -> names_pre op m -> names_unique (tree_of (mf_fs m)) ->
  names_unique (tree_of (mf_fs (snd (run_op op m)))).
Proof.
  intros Hi Hpre Hn U. destruct op; cbn [run_op forget snd];
    try (unfold memfs_lookup, memfs_path_to_id, memfs_getattr, memfs_read, memfs_make_iter, with_read;
         by destruct (mf_poisoned m)).
  - unfold memfs_next, with_read. destruct ids; [done|]. by destruct (mf_poisoned m).
  - unfold memfs_setattr. destruct (mf_poisoned m); [done|].
    destruct (fs_get (mf_fs m) id) as [e|] eqn:Ee; [|done].
    pose proof (set_attr_cases (mf_clock m) (mf_ticks m) attr e id Hpre (fw_entries _ (proj1 Hi) _ _ Ee)) as Hc.
    destruct (set_attr _ _ attr e) as [[o e'] ticks]. destruct Hc as (_ & Hnode & _).
    apply write_names; [done|]. cbn [snd mf_set_ticks mf_fs]. by rewrite (tree_of_same _ _ _ e).
  - unfold memfs_write. apply write_names; [done|].
    destruct (fs_get (mf_fs m) id) as [[file|dir]|] eqn:Ee; [|done..].
    pose proof (file_write_cases id offset data file Hpre (fw_entries _ (proj1 Hi) _ _ Ee)) as Hc.
    destruct (file_write offset data file) as [o file']. destruct Hc as (_ & Hnode & _).
    cbn [snd]. by rewrite (tree_of_same _ _ _ (EFile file)).
  - by apply add_file_names.
  - unfold memfs_create_exclusive. rewrite snd_pbind_pret. by apply add_file_names.
  - by apply add_file_names.
  - unfold memfs_add_dir, fetch_nextid, current_time. unfold pbind at 1 2.
    cbv beta iota zeta. rewrite snd_pbind_pret. apply write_names; [done|].
    set (e := EDir _). set (m1 := mf_set_ticks _ _). change (mf_fs m1) with (mf_fs m).
    destruct (decide (entry_fileid e = dirid)) as [E|E].
    + unfold fs_push. rewrite E. destruct Hpre as [e0 ->]. done.
    + assert (Hp : entry_fileid e <> dirid \/ exists file, e = EFile file) by by left.
      pose proof (fs_push_cases (mf_fs m) dirid e (proj1 Hi) Hp) as Hc.
      destruct (fs_push dirid e (mf_fs m)) as [[[[]|stat]| |] f'] eqn:Ep; [|by destruct Hc as [-> _]|done..].
      eapply (push_names (mf_fs m) dirid e); [apply Hi|done| |done|exact Ep|exact Hn].
      split; [|done]. split; [done|]. cbn. split; [done|constructor].
  - unfold memfs_remove. apply write_names; [done|].
    pose proof (fs_remove_cases (mf_fs m) dirid name (proj1 Hi)) as Hc.
    destruct (fs_remove dirid name (mf_fs m)) as [[[[]|stat]| |] f'] eqn:Er; [|by destruct Hc as [-> _]|done..].
    cbn [snd]. destruct (remove_child _ _ _ _ (proj1 Hi) Er) as (c & Hch & Hl & -> & _).
    by apply (names_remove (fs_root (mf_fs m))); [apply Hi|..|apply Hch|].
  - unfold memfs_rename. apply write_names; [done|]. destruct Hpre as [Hs Hq].
    pose proof (fs_rename_cases (mf_fs m) from_dirid from to_dirid to (proj1 Hi) Hs Hq) as Hc.
    destruct (fs_rename from_dirid from to_dirid to (mf_fs m)) as [[[[]|stat]| |] f'] eqn:Er; [| |done..].
    + by destruct (rename_child _ _ _ _ _ _ (proj1 Hi) U Hs Hq Er) as [(-> & _)|(_ & c & _ & _ & ? & _)].
    + destruct Hc as [->|[_ Hr]]; [done|].
      destruct (remove_child _ _ _ _ (proj1 Hi) Hr) as (c & Hch & Hl & Ht & _). cbn [snd]. rewrite Ht.
      by apply (names_remove (fs_root (mf_fs m))); [apply Hi|..|apply Hch|].
Qed.
End hash.
