(* ===== verification/MemFsProperties.v ===== *)
(** * Properties of the in-memory file system

    The claims, over the lemmas of [MemFsLaws], [MemFsTheorems] and
    [MemFsNames]; the states of the witnesses are built by the operations. *)

From stdpp Require Import gmap sets fin_sets.
From S2P Require Import Prelude Xdr XdrLaws Nfs3Types Handle Vfs NfsHandlersLaws.
From S2P Require Import MemFs MemFsTree MemFsLaws MemFsTheorems MemFsNames.
Open Scope Z_scope.
Open Scope nfs_scope.

(** ** A concrete file system *)

Module DemoMem.
Definition demo_insert (d x : Z) (l : list Z) : list Z := x :: l.

#[export] Instance demo_order : HashSetOrder := {|
  hs_insert := demo_insert;
  hs_insert_perm d x l _ := Permutation_refl (x :: l);
|}.

Definition clock (n : nat) : nfstime3 := mk_nfstime3 (Z.of_nat n) 0.
Definition a_txt : filename3 := bytes_of_string "a.txt".
Definition b_txt : filename3 := bytes_of_string "b.txt".
Definition sub : filename3 := bytes_of_string "sub".
Definition hello : list byte := bytes_of_string "hello".

(** The root directory with the file [a.txt], id 2. *)
Definition m0 : MemFs := memfs_default clock.
Definition m1 : MemFs := snd (run_op (OpCreate 1 a_txt sattr3_default) m0).

Lemma m1_reachable : memfs_reachable clock m1.
Proof. apply (reachable_op clock (OpCreate 1 a_txt sattr3_default)); [constructor|done]. Qed.

Lemma m0_names : names_unique (tree_of (mf_fs m0)).
Proof.
  intros d name i j [Hk _]. exfalso. apply kid_dir in Hk as (dir & E & Hin).
  unfold fs_get in E. cbn in E. apply lookup_singleton_Some in E as [_ [= <-]]. by apply not_elem_of_nil in Hin.
Qed.

Lemma m1_names : names_unique (tree_of (mf_fs m1)).
Proof. apply run_op_names; [apply (memfs_reachable_inv clock); constructor|done..|apply m0_names]. Qed.

Lemma not_special name : bool_decide (name = DOT) || bool_decide (name = DOTDOT) = false -> ~ special name.
Proof. intros E Hs%special_bool. congruence. Qed.
End DemoMem.
Import DemoMem.

Section hash.
Context `{HashSetOrder}.

(** ** Safety *)

(** C14: Whatever calls a server makes, the table stays a tree: every entry is
    stored under its own id, the size of a file is the length of its content,
    every entry but the root is in exactly one directory, which is the one a
    directory records as its parent, and every directory is connected to the
    root.  The calls are those the NFS handlers make (the directory of a [mkdir]
    and the target of a [rename] exist), except renames of [.] and [..]. *)
Theorem memfs_tree_invariant clock m :
  memfs_reachable clock m ->
  fs_wf (mf_fs m) /\ fs_root (mf_fs m) = mf_rootdir m /\
  forall op, op_pre op m -> fs_wf (mf_fs (snd (run_op op m))).
Proof.
  intros Hm. pose proof (memfs_reachable_inv _ _ Hm) as Hi. split; [apply Hi|]. split; [apply Hi|].
  intros op Hop. by apply (run_op_ok op m Hi Hop).
Qed.

(** C16: No call panics, poisons the lock or runs for ever (the walk to the root
    in [rename] ends), in any state that calls have made of a new file system and
    whose lock is not poisoned, when this call and those before it meet what is asked of them: the directory of a
    MKDIR and the target directory of a RENAME exist, no RENAME is of the names [.]
    and [..], and the size and offset of this call are within what a [Vec] can
    hold. Nothing is claimed of other calls: a RENAME of [..] breaks the tree. *)
Theorem memfs_no_panic clock op m :
  memfs_reachable clock m -> mf_poisoned m = false -> op_pre op m -> op_fits op ->
  exists m', run_op op m = (Ret tt, m') /\ mf_poisoned m' = false /\ memfs_reachable clock m'.
Proof.
  intros Hm Hp Hop Hf. pose proof (memfs_reachable_inv _ _ Hm) as Hi.
  destruct (run_op_ok op m Hi Hop) as [_ Hk]. destruct (Hk Hp Hf) as [[[] Er] Hp'].
  pose proof (reachable_op clock op m Hm Hop) as Hr. destruct (run_op op m) as [o m']. cbn in *. subst o.
  by exists m'.
Qed.

(** [MemFs::new] returns for every configuration, and what it builds is a
    state the calls above reach, with a usable lock. *)
Theorem memfs_new_total clock config :
  exists r, memfs_new clock config = Ret r /\
    forall m, r = Ok m -> memfs_reachable clock m /\ mf_poisoned m = false.
Proof. apply memfs_new_cases. Qed.

(** Unique names stay unique in every directory: [create], exclusive
    [create], [remove] and [rename] see to it, and so does a [mkdir] of a name
    that is not there. *)
Theorem memfs_names_unique op m :
  memfs_inv m -> op_pre op m -> names_pre op m -> names_unique (tree_of (mf_fs m)) ->
  names_unique (tree_of (mf_fs (snd (run_op op m)))).
Proof. apply run_op_names. Qed.

(** ** The effect of the operations *)

(** A successful [create] was of a new name in an existing directory; then
    the name leads to the new file, with the returned attributes and the
    requested number of zero bytes, and no other name, attribute or byte of the
    file system has changed. *)
Theorem memfs_create_correct m d name attr id a m' :
  memfs_inv m -> names_unique (tree_of (mf_fs m)) -> mf_poisoned m = false -> size_ok attr -> ~ special name ->
  memfs_create d name attr m = (Ret (Ok (id, a)), m') ->
  memfs_lookup d name m = (Ret (Err NFS3ERR_NOENT), m) /\
  memfs_lookup d name m' = (Ret (Ok id), m') /\
  data_of m id = None /\
  data_of m' id = Some (a, Some (replicate (Z.to_nat (default 0 (sattr3_size attr))) x00)) /\
  (forall d' name' i, ~ special name' -> ~ (d' = d /\ name' = name) ->
     memfs_lookup d' name' m' = (Ret (Ok i), m') <-> memfs_lookup d' name' m = (Ret (Ok i), m)) /\
  (forall j, j <> id -> data_of m' j = data_of m j).
Proof.
  intros Hi U Hp Hs Hsp. pose proof (proj1 Hi) as W.
  pose proof (add_file_ok d name attr [] None m Hi Hs) as [Hi' _].
  pose proof (add_file_names d name attr [] None m Hi Hs U) as U'.
  unfold memfs_create. intros Er. rewrite Er in Hi', U'. cbn [snd] in Hi', U'.
  rewrite add_file_unfold in Er.
  pose proof (created_file_cases name (mf_nextid m) [] None attr m Hs) as Hc.
  destruct (created_file name (mf_nextid m) [] None attr m) as [[[u| |] e] ticks]; [|discriminate Er..].
  destruct Hc as (file & -> & Hname & Hok & Hcont).
  apply with_write_ret in Er as (Er & Hp' & _); [|done]. cbn [mf_fs drawn entry_attr] in Er.
  pose proof (insert_file_cases d (mf_nextid m) file (file_attr file) None (mf_fs m) W) as Hc. rewrite Er in Hc.
  destruct Hc as (-> & [(-> & El & Ep)|(_ & ? & ? & _ & ? & _)]); [|done]. rewrite Hname in El.
  assert (Hid : entry_fileid (EFile file) = mf_nextid m) by apply Hok.
  pose proof (fs_push_cases (mf_fs m) d (EFile file) W ltac:(right; by eexists)) as Hc. rewrite Ep in Hc.
  destruct Hc as (E0 & dir & Ed & Hx & Ef).
  assert (Hnew : new_entry d (EFile file)) by (split; [by rewrite (proj1 Hok)|done]).
  assert (Hch : forall d' n' i, child (tree_of (mf_fs m')) d' n' i <->
            child (tree_of (mf_fs m)) d' n' i \/ (d' = d /\ i = mf_nextid m /\ n' = name)).
  { intros. rewrite (push_child _ d (EFile file) _ d' n' i W Hnew ltac:(right; by eexists) Ep).
    cbn [entry_name]. by rewrite Hid, Hname. }
  rewrite Hid in E0. split; [|split; [|split; [|split; [|split]]]].
  - unfold memfs_lookup, with_read. by rewrite Hp, El.
  - apply memfs_lookup_iff; [done..|]. apply Hch. by right.
  - unfold data_of. by rewrite E0.
  - unfold data_of. rewrite Ef, data_set_dir, Hid, fs_get_set_eq by (rewrite fs_get_set_ne; [done|congruence]).
    cbn. unfold entry_data. cbn. do 2 f_equal. f_equal. rewrite Hcont.
    destruct (sattr3_size attr) as [s|]; cbn; [|done]. rewrite Z.sub_0_r, take_ge; [done|].
    by rewrite length_replicate.
  - intros d' n' i Hs' Hne. rewrite !memfs_lookup_iff by done. rewrite Hch. naive_solver.
  - intros j Hj. unfold data_of. rewrite Ef, data_set_dir by (rewrite fs_get_set_ne; [done|congruence]).
    by rewrite fs_get_set_ne by congruence.
Qed.

(** The file an exclusive [create] makes. *)
Lemma exclusive_unfold d name verf m :
  memfs_create_exclusive d name verf m =
  let file := file_new name (mf_nextid m) [] verf (mf_clock m (mf_ticks m)) in
  match with_write (insert_file d (mf_nextid m) (EFile file) (file_attr file) (Some verf))
          (drawn (Datatypes.S (mf_ticks m)) m) with
  | (Ret r, m') => (Ret (result_map fst r), m')
  | (Panic, m') => (Panic, m')
  | (OutOfFuel, m') => (OutOfFuel, m')
  end.
Proof. unfold memfs_create_exclusive, pbind. by rewrite add_file_unfold. Qed.

(** Once the name leads to a file with the verifier [v]. *)
Lemma exclusive_existing d name v m x :
  mf_poisoned m = false -> fs_lookup (mf_fs m) d name = Ok (EFile x) ->
  exists m', mf_fs m' = mf_fs m /\ mf_poisoned m' = false /\
    memfs_create_exclusive d name v m =
      (Ret (if decide (v = file_verf x) then Ok (fattr3_fileid (file_attr x)) else Err NFS3ERR_EXIST), m').
Proof.
  intros Hp El. rewrite exclusive_unfold. cbv zeta. unfold with_write. cbn [mf_poisoned drawn mf_fs]. rewrite Hp.
  unfold insert_file. cbn [entry_name file_new file_name]. rewrite El.
  destruct (decide (v = file_verf x)); eexists; (split; [|split; [|reflexivity]]); done.
Qed.

(** Exclusive [create] is idempotent: after it succeeded, a retry with the
    same verifier answers the same file and a request with another verifier is
    refused with [NFS3ERR_EXIST]; both leave the file system as it was. *)
Theorem memfs_exclusive_create_idempotent m d name v id m' v' :
  memfs_inv m -> names_unique (tree_of (mf_fs m)) -> mf_poisoned m = false -> ~ special name ->
  memfs_create_exclusive d name v m = (Ret (Ok id), m') ->
  exists m'', mf_fs m'' = mf_fs m' /\
    memfs_create_exclusive d name v' m' =
      (Ret (if decide (v' = v) then Ok id else Err NFS3ERR_EXIST), m'').
Proof.
  intros Hi U Hp Hs Er. pose proof (proj1 Hi) as W.
  pose proof (add_file_ok d name sattr3_default [] (Some v) m Hi Logic.I) as [Hi' _].
  pose proof (add_file_names d name sattr3_default [] (Some v) m Hi Logic.I U) as U'.
  pose proof (snd_pbind_pret (memfs_add_file d name sattr3_default [] (Some v)) (result_map fst) m) as Esnd.
  change (snd (memfs_create_exclusive d name v m) = snd (memfs_add_file d name sattr3_default [] (Some v) m)) in Esnd.
  rewrite <- Esnd, Er in Hi', U'. cbn [snd] in Hi', U'. clear Esnd.
  rewrite exclusive_unfold in Er. cbv zeta in Er. set (file := file_new _ _ _ _ _) in Er.
  destruct (with_write _ _) as [[r| |] m1] eqn:Ew; [|discriminate Er..].
  injection Er as Er ->. destruct r as [[i a]|]; [|discriminate Er]. injection Er as ->.
  apply with_write_ret in Ew as (Ew & Hp' & _); [|done]. cbn [mf_fs drawn] in Ew.
  pose proof (insert_file_cases d (mf_nextid m) file (file_attr file) (Some v) (mf_fs m) W) as Hc. rewrite Ew in Hc.
  change (file_name file) with name in Hc.
  assert (Hx : exists x, fs_lookup (mf_fs m') d name = Ok (EFile x) /\ file_verf x = v /\
                 fattr3_fileid (file_attr x) = id).
  { destruct Hc as (_ & [(-> & El & Ep)|(-> & x & v1 & El & [= <-] & -> & ->)]); [|by exists x].
    pose proof (fs_push_cases (mf_fs m) d (EFile file) W ltac:(right; by eexists)) as Hc. rewrite Ep in Hc.
    destruct Hc as (E0 & dir & Ed & Hx & Ef).
    assert (Hch : child (tree_of (mf_fs m')) d name (mf_nextid m)).
    { apply (push_child _ d (EFile file) _ _ _ _ W ltac:(by repeat split) ltac:(right; by eexists) Ep). by right. }
    apply fs_lookup_child in Hch; [|apply Hi'|done..].
    destruct (fs_lookup (mf_fs m') d name) as [e|] eqn:El'; [|done]. cbn in Hch. injection Hch as Hch.
    apply fs_lookup_get in El'; [|apply Hi']. rewrite Hch, Ef, fs_get_set_ne in El'.
    - change (mf_nextid m) with (entry_fileid (EFile file)) in El'. rewrite fs_get_set_eq in El'.
      injection El' as <-. by exists file.
    - intros ->. change (entry_fileid (EFile file)) with (mf_nextid m) in E0. congruence. }
  destruct Hx as (x & El & <- & <-). destruct (exclusive_existing d name v' m' x Hp' El) as (m'' & Ef & _ & Ec).
  by exists m''.
Qed.

(** A successful [remove] took an existing name, of a file or of an empty
    directory; the name is gone and so is the entry, and no other name,
    attribute or byte has changed. *)
Theorem memfs_remove_correct m d name m' :
  memfs_inv m -> names_unique (tree_of (mf_fs m)) -> mf_poisoned m = false ->
  memfs_remove d name m = (Ret (Ok tt), m') ->
  ~ special name /\
  exists c, memfs_lookup d name m = (Ret (Ok c), m) /\
    (forall i name', ~ special name' -> memfs_lookup c name' m <> (Ret (Ok i), m)) /\
    memfs_lookup d name m' = (Ret (Err NFS3ERR_NOENT), m') /\
    data_of m' c = None /\ (forall j, j <> c -> data_of m' j = data_of m j) /\
    (forall d' name' i, ~ special name' -> ~ (d' = d /\ name' = name) ->
       memfs_lookup d' name' m' = (Ret (Ok i), m') <-> memfs_lookup d' name' m = (Ret (Ok i), m)).
Proof.
  intros Hi U Hp Er. pose proof (proj1 Hi) as W.
  pose proof (run_op_ok (OpRemove d name) m Hi Logic.I) as [Hi' _].
  pose proof (run_op_names (OpRemove d name) m Hi Logic.I Logic.I U) as U'.
  cbn [run_op forget snd] in Hi', U'. rewrite Er in Hi', U'. cbn [snd] in Hi', U'.
  apply with_write_ret in Er as (Er & Hp' & _); [|done].
  pose proof (fs_remove_cases (mf_fs m) d name W) as Hc. rewrite Er in Hc.
  destruct Hc as (Hs & _ & _ & dir & _ & _ & _ & Ed & _). split; [done|].
  destruct (remove_child _ _ _ _ W Er) as (c & Hch & Hl & Ht & Hg & Hd). exists c.
  assert (Hch' : forall d' n' i, child (tree_of (mf_fs m')) d' n' i <-> child (tree_of (mf_fs m)) d' n' i /\ i <> c).
  { intros. rewrite Ht. apply (child_removed (fs_root (mf_fs m))); [apply W|apply Hch|done]. }
  split; [by apply memfs_lookup_iff|]. split; [|split; [|split; [|split]]].
  - intros i n' Hn'. rewrite memfs_lookup_iff by done. intros [(p & k & [nm E] & Hin) _].
    apply Hl in E. cbn in E. set_solver.
  - apply memfs_lookup_noent; [done..| |].
    + rewrite Ht. unfold tree_remove. exists (dir_parent dir). setoid_rewrite is_dir_set_kids. do 2 eexists.
      split; [|reflexivity]. apply is_dir_delete. split; [|by apply is_dir_get; eexists].
      intros ->. exact (not_own_kid _ _ _ (fw_tree _ W) (proj1 Hch)).
    + intros i [Hc' Hne]%Hch'. apply Hne. by eapply U.
  - unfold data_of. by rewrite Hg.
  - apply Hd.
  - intros d' n' i Hs' Hne. rewrite !memfs_lookup_iff by done. rewrite Hch'. split; [by intros [? _]|].
    intros Hc'. split; [done|]. intros ->. apply Hne. destruct Hc' as [Hk (n & E & <-)], Hch as [Hk2 (n2 & E2 & <-)].
    split; [by apply (tw_unique _ _ (fw_tree _ W) d' d c)|congruence].
Qed.

(** C17: A successful [rename] to a different place makes the new name lead to
    the entry, whose attributes and bytes are kept, takes the old name away and
    replaces what the new name led to; a directory that is moved has the target
    as its parent; all other names are as before. This holds of any state that
    keeps the invariant, as long as no directory has two entries of one name (MKDIR
    does not check this), the name is not [.] or [..], and the target directory
    exists. *)
Theorem memfs_rename_correct m d name q to m' :
  memfs_inv m -> names_unique (tree_of (mf_fs m)) -> mf_poisoned m = false ->
  ~ special name -> is_Some (fs_get (mf_fs m) q) -> ~ (d = q /\ name = to) ->
  memfs_rename d name q to m = (Ret (Ok tt), m') ->
  ~ special to /\
  exists c, memfs_lookup d name m = (Ret (Ok c), m) /\
    memfs_lookup q to m' = (Ret (Ok c), m') /\ data_of m' c = data_of m c /\
    (forall i, memfs_lookup d name m' <> (Ret (Ok i), m')) /\
    (forall dir, fs_get (mf_fs m') c = Some (EDir dir) -> memfs_lookup c DOTDOT m' = (Ret (Ok q), m')) /\
    (forall d' name' i, ~ special name' -> ~ (d' = d /\ name' = name) -> ~ (d' = q /\ name' = to) ->
       memfs_lookup d' name' m' = (Ret (Ok i), m') <-> memfs_lookup d' name' m = (Ret (Ok i), m)).
Proof.
  intros Hi U Hp Hs Hq Hne Er. pose proof (proj1 Hi) as W.
  pose proof (run_op_ok (OpRename d name q to) m Hi (conj Hs Hq)) as [Hi' _].
  cbn [run_op forget snd] in Hi'. rewrite Er in Hi'. cbn [snd] in Hi'.
  apply with_write_ret in Er as (Er & Hp' & _); [|done].
  destruct (rename_child _ _ _ _ _ _ W U Hs Hq Er) as [(_ & ?)|(Hto & c & Hch & Hcq & U' & Hch' & Hpar & Hd)]; [done|].
  split; [done|]. exists c.
  assert (Hold : forall i, ~ child (tree_of (mf_fs m')) d name i).
  { intros i [(Hc & _ & Hic)|(-> & -> & ->)]%Hch'; [|by apply Hne]. apply Hic. by eapply U. }
  assert (Hqc : child (tree_of (mf_fs m')) q to c) by (apply Hch'; by right).
  split; [by apply memfs_lookup_iff|]. split; [by apply memfs_lookup_iff|]. split; [|split; [|split]].
  - unfold data_of. apply Hd. intros i Hi2 <-. apply Hne.
    destruct Hch as [Hk (n & E & <-)], Hi2 as [Hk2 (n2 & E2 & <-)].
    split; [by apply (tw_unique _ _ (fw_tree _ W) d q c)|congruence].
  - intros i Hl. apply memfs_lookup_iff in Hl; [|done..]. by apply Hold in Hl.
  - intros dir Edir. unfold memfs_lookup, with_read. rewrite Hp'. unfold fs_lookup.
    rewrite Edir, decide_False, decide_True by done. rewrite (Hpar _ Edir).
    destruct Hqc as [Hk _]. apply kid_dir in Hk as (dq & Eq & _). rewrite Eq. cbn.
    by rewrite (entry_ok_fileid _ _ _ (proj1 Hi') Eq).
  - intros d' n' i Hs' Hne1 Hne2. rewrite !memfs_lookup_iff by done. rewrite Hch'. split.
    + intros [(? & _)|(-> & -> & _)]; [done|]. by destruct Hne2.
    + intros Hc. left. split; [done|]. split; [done|]. intros ->. apply Hne1.
      destruct Hc as [Hk (n & E & <-)], Hch as [Hk2 (n2 & E2 & <-)].
      split; [by apply (tw_unique _ _ (fw_tree _ W) d' d c)|congruence].
Qed.

(** ** Contents *)

Lemma spliced_read (c data : list byte) (o : nat) :
  (o <= length c)%nat ->
  take (length data) (drop o (take o c ++ data ++ drop (o + length data) c)) = data.
Proof.
  intros Ho. rewrite drop_app_ge by (rewrite length_take; lia).
  rewrite length_take, Nat.min_l by lia. rewrite Nat.sub_diag, drop_0. by rewrite take_app_length.
Qed.

Lemma spliced_byte (c data : list byte) (o p : nat) :
  (o <= length c)%nat -> (p < o \/ o + length data <= p)%nat ->
  (take o c ++ data ++ drop (o + length data) c) !! p = c !! p.
Proof.
  intros Ho [Hp|Hp].
  - rewrite lookup_app_l by (rewrite length_take; lia). by rewrite lookup_take_lt.
  - rewrite lookup_app_r by (rewrite length_take; lia). rewrite length_take, Nat.min_l by lia.
    rewrite lookup_app_r by lia. rewrite lookup_drop. f_equal. lia.
Qed.

(** What was written is read back. *)
Lemma memfs_write_reads_back m id offset data a m' :
  memfs_inv m -> mf_poisoned m = false -> 0 <= offset -> offset + len data <= usize_MAX ->
  memfs_write id offset data m = (Ret (Ok a), m') ->
  exists file, fs_get (mf_fs m') id = Some (EFile file) /\ mf_poisoned m' = false /\
    memfs_read id offset (len data) m' = (Ret (Ok (data, len (file_content file) <=? offset + len data)), m') /\
    memfs_getattr id m' = (Ret (Ok a), m').
Proof.
  intros [W Hroot] Hp Ho Hmax Er. apply with_write_ret in Er as (Er & Hp' & _); [|done].
  destruct (fs_get (mf_fs m) id) as [[file|dir]|] eqn:Ee; [|by injection Er..].
  pose proof (file_write_cases id offset data file Ho (fw_entries _ W _ _ Ee)) as Hc.
  destruct (file_write offset data file) as [o file']. injection Er as -> Ef.
  assert (Eg : fs_get (mf_fs m') id = Some (EFile file')) by (rewrite <- Ef; apply fs_get_set_eq).
  destruct Hc as (_ & _ & Hle & -> & Hcont). pose proof (len_nonneg data) as Hd.
  assert (El : len (file_content file') = Z.max (len (file_content file)) (offset + len data)).
  { rewrite Hcont. unfold len in *. rewrite !length_app, length_take, length_drop. lia. }
  exists file'. split; [done|]. split; [done|]. split; [|unfold memfs_getattr, with_read; by rewrite Hp', Eg].
  unfold memfs_read, with_read. rewrite Hp', Eg. cbn [as_file]. unfold file_read.
  rewrite (proj2 (Z.leb_le _ _) Hmax). do 3 f_equal. f_equal. rewrite (proj2 (Z.ltb_ge _ _)) by lia.
  replace (if len (file_content file') <=? offset then len (file_content file') else offset) with offset
    by (destruct (Z.leb_spec (len (file_content file')) offset); lia).
  replace (Z.to_nat (offset + len data - offset)) with (length data) by (unfold len; lia).
  rewrite Hcont. replace (Z.to_nat (offset + len data)) with (Z.to_nat offset + length data)%nat
    by (unfold len; lia).
  apply spliced_read. unfold len in *. lia.
Qed.

(** After a successful [write] the same range reads back as the data, the
    other bytes of the file are as before, the size in the attributes is the
    length of the content, and no other entry has changed; a write that starts
    beyond the end is refused with [NFS3ERR_INVAL] and leaves no hole. *)
Theorem memfs_write_read m id offset data r m' :
  memfs_inv m -> mf_poisoned m = false -> 0 <= offset -> offset + len data <= usize_MAX ->
  memfs_write id offset data m = (Ret r, m') ->
  (forall j, j <> id -> data_of m' j = data_of m j) /\
  match r with
  | Ok a => exists file file', fs_get (mf_fs m) id = Some (EFile file) /\ fs_get (mf_fs m') id = Some (EFile file') /\
      memfs_read id offset (len data) m' = (Ret (Ok (data, len (file_content file') <=? offset + len data)), m') /\
      (forall p, (p < Z.to_nat offset \/ Z.to_nat (offset + len data) <= p)%nat ->
         file_content file' !! p = file_content file !! p) /\
      memfs_getattr id m' = (Ret (Ok a), m') /\ fattr3_size a = len (file_content file') /\
      len (file_content file') = Z.max (len (file_content file)) (offset + len data)
  | Err stat => mf_fs m' = mf_fs m /\
      match fs_get (mf_fs m) id with
      | None => stat = NFS3ERR_NOENT
      | Some (EDir _) => stat = NFS3ERR_INVAL
      | Some (EFile file) => stat = NFS3ERR_INVAL /\ len (file_content file) < offset
      end
  end.
Proof.
  intros [W Hroot] Hp Ho Hmax Er. pose proof (memfs_write_reads_back m id offset data) as Hback.
  specialize (fun a => Hback a m' (conj W Hroot) Hp Ho Hmax). pose proof Er as Erun.
  apply with_write_ret in Er as (Er & Hp' & _); [|done].
  destruct (fs_get (mf_fs m) id) as [[file|dir]|] eqn:Ee; [|injection Er as <- Ef; unfold data_of; by rewrite <- Ef..].
  pose proof (file_write_cases id offset data file Ho (fw_entries _ W _ _ Ee)) as Hc.
  destruct (file_write offset data file) as [o file']. injection Er as -> Ef.
  assert (Eg : fs_get (mf_fs m') id = Some (EFile file')) by (rewrite <- Ef; apply fs_get_set_eq).
  destruct Hc as (Hok & _ & Hc). split.
  { intros j Hj. unfold data_of. rewrite <- Ef. by rewrite fs_get_set_ne. }
  destruct r as [a|stat].
  - destruct Hc as (Hle & -> & Hcont). pose proof (len_nonneg data) as Hd.
    assert (El : len (file_content file') = Z.max (len (file_content file)) (offset + len data)).
    { rewrite Hcont. unfold len in *. rewrite !length_app, length_take, length_drop. lia. }
    destruct (Hback _ Erun) as (file1 & E1 & _ & Hread & Hattr). rewrite Eg in E1. injection E1 as <-.
    exists file, file'. split; [done|]. split; [done|]. split; [|split; [|split; [|split]]].
    + exact Hread.
    + intros p Hpp. rewrite Hcont. replace (Z.to_nat (offset + len data)) with (Z.to_nat offset + length data)%nat in *
        by (unfold len; lia).
      apply spliced_byte; [unfold len in *; lia|done].
    + exact Hattr.
    + apply Hok.
    + done.
  - destruct Hc as (-> & Hlt & ->). split; [|done]. rewrite <- Ef. destruct (mf_fs m) as [es r].
    unfold fs_set. cbn. f_equal. by apply insert_id.
Qed.
(** ** Listing a directory *)

Definition name_at (f : Fs) (i : Z) : filename3 := match fs_get f i with Some e => entry_name e | None => [] end.
Definition listed (f : Fs) (l : list Z) : list DirEntry := map (fun i => mk_entry3 i (name_at f i) i) l.

Lemma memfs_yields m l :
  mf_poisoned m = false -> (forall i, i ∈ l -> is_Some (fs_get (mf_fs m) i)) ->
  yields memfs_readdir_iter l m (listed (mf_fs m) l) [] m.
Proof.
  intros Hp. induction l as [|i l IH]; intros Hall; [constructor|].
  destruct (Hall i) as [e E]; [left|]. cbn [listed map]. eapply yields_cons; [|apply IH; intros; apply Hall; by right].
  cbn. unfold with_read. rewrite Hp. cbn. rewrite E. unfold name_at. by rewrite E.
Qed.

Lemma after_id_split i l1 l2 : i ∉ l1 -> after_id i (l1 ++ i :: l2) = Some l2.
Proof.
  induction l1 as [|x l1 IH]; cbn; intros Hi.
  - by rewrite Z.eqb_refl.
  - apply not_elem_of_cons in Hi as [? ?]. rewrite (proj2 (Z.eqb_neq _ _)) by congruence. by apply IH.
Qed.

(** Listing a directory from the start yields each of its entries exactly
    once, under its name and id; resuming after any of them, with its cookie,
    yields exactly the entries that followed. *)
Theorem memfs_readdir_complete m d dir :
  memfs_inv m -> mf_poisoned m = false -> fs_get (mf_fs m) d = Some (EDir dir) ->
  exists l es, memfs_make_iter d 0 m = (Ret (Ok l), m) /\
    yields memfs_readdir_iter l m es [] m /\ it_next memfs_readdir_iter [] m = (Ret (NextEof, []), m) /\
    NoDup (map entry3_fileid es) /\
    (forall name i, mk_entry3 i name i ∈ es <-> child (tree_of (mf_fs m)) d name i) /\
    (forall es1 e es2, es = es1 ++ e :: es2 -> entry3_cookie e <> 0 ->
       exists l2, memfs_make_iter d (entry3_cookie e) m = (Ret (Ok l2), m) /\
         yields memfs_readdir_iter l2 m es2 [] m).
Proof.
  intros [W _] Hp Ed. set (f := mf_fs m) in *. pose proof (dir_nodup f d dir W Ed) as Hnd.
  assert (Hall : forall i, i ∈ dir_content dir -> exists e, fs_get f i = Some e).
  { intros i Hi. apply (kid_entry f d _ W). by apply (kid_get f d dir). }
  assert (Hmap : forall l, map entry3_fileid (listed f l) = l).
  { intros l. unfold listed. rewrite map_map. apply map_id. }
  exists (dir_content dir), (listed f (dir_content dir)). split; [|split; [|split; [done|split; [|split]]]].
  - unfold memfs_make_iter, with_read, fs_make_iter. rewrite Hp. fold f. by rewrite Ed.
  - apply memfs_yields; [done|]. intros i Hi. destruct (Hall i Hi) as [e E]. by exists e.
  - by rewrite Hmap.
  - intros name i. unfold listed. rewrite child_get, (kid_get f d dir) by done. split.
    + intros Hin. apply list_elem_of_In, in_map_iff in Hin as (j & E & Hj). apply list_elem_of_In in Hj.
      injection E as -> Hn. split; [done|]. destruct (Hall i Hj) as [e Ee]. exists e. split; [done|].
      unfold name_at in Hn. by rewrite Ee in Hn.
    + intros (Hi & e & Ee & <-). apply list_elem_of_In, in_map_iff. exists i. split; [|by apply list_elem_of_In].
      unfold name_at. by rewrite Ee.
  - intros es1 e es2 Es He. unfold listed in Es. apply map_eq_app in Es as (l1 & l2' & El & E1 & E2).
    destruct l2' as [|i l2]; [done|]. cbn in E2. injection E2 as <- <-. cbn in He |- *. exists l2.
    assert (Hi : i ∉ l1).
    { rewrite El in Hnd. apply NoDup_app in Hnd as (_ & Hdis & _). intros Hi. apply (Hdis i Hi). left. }
    split.
    + unfold memfs_make_iter, with_read, fs_make_iter. rewrite Hp. fold f. rewrite Ed. cbn [as_dir].
      rewrite (proj2 (Z.eqb_neq _ _) He), El, after_id_split by done. done.
    + apply memfs_yields; [done|]. intros j Hj. destruct (Hall j) as [e' E']; [|by exists e'].
      rewrite El. apply elem_of_app. right. by right.
Qed.

(** ** What goes wrong *)

(** [mkdir] of a name that exists succeeds: it does not look for the name,
    and the directory ends up with two entries of the same name. *)
Theorem memfs_mkdir_duplicates m d name c :
  memfs_inv m -> mf_poisoned m = false -> fs_get (mf_fs m) (mf_nextid m) = None ->
  child (tree_of (mf_fs m)) d name c ->
  exists id a m', memfs_add_dir d name m = (Ret (Ok (id, a)), m') /\ id <> c /\
    child (tree_of (mf_fs m')) d name id /\ child (tree_of (mf_fs m')) d name c.
Proof.
  intros [W _] Hp E0 Hch. pose proof Hch as [Hk _]. apply kid_dir in Hk as (dir & Ed & Hc).
  unfold memfs_add_dir, fetch_nextid, current_time. unfold pbind at 1 2. cbv beta iota zeta.
  set (e := EDir _). set (m1 := mf_set_ticks _ _).
  assert (Hne : entry_fileid e <> d) by (change (entry_fileid e) with (mf_nextid m); congruence).
  assert (Hnew : new_entry d e) by (split; [split; [done|]|done]; cbn; split; [done|constructor]).
  pose proof (fs_push_cases (mf_fs m) d e W (or_introl Hne)) as Hcs.
  destruct (fs_push d e (mf_fs m)) as [[[[]|stat]| |] f'] eqn:Ep; [| |done..].
  - exists (mf_nextid m), (entry_attr e). unfold pbind, with_write. change (mf_poisoned m1) with (mf_poisoned m).
    change (mf_fs m1) with (mf_fs m). rewrite Hp, Ep. eexists. split; [done|]. cbn [mf_fs mf_set_fs].
    split; [|split].
    + intros <-. apply child_get in Hch as (_ & e' & E' & _). congruence.
    + apply (push_child (mf_fs m) d e f' d name _ W Hnew (or_introl Hne) Ep). by right.
    + apply (push_child (mf_fs m) d e f' d name c W Hnew (or_introl Hne) Ep). by left.
  - exfalso. destruct Hcs as [_ [[[x Ex] _]|[(_ & ? & _)|(_ & [? ?] & _)]]]; try congruence.
    change (entry_fileid e) with (mf_nextid m) in Ex. congruence.
Qed.

(** A file size beyond [isize::MAX] panics [setattr] while it holds the
    lock: from then on every lookup panics; and a read whose range ends beyond
    [u64::MAX] panics instead of being empty. *)
Theorem memfs_oversize_panics m id file s attr offset count :
  mf_poisoned m = false -> fs_get (mf_fs m) id = Some (EFile file) ->
  sattr3_size attr = Some s -> isize_MAX < s -> len (file_content file) <= isize_MAX ->
  usize_MAX < offset + count ->
  fst (memfs_read id offset count m) = Panic /\
  fst (memfs_setattr id attr m) = Panic /\
  forall d name, fst (memfs_lookup d name (snd (memfs_setattr id attr m))) = Panic.
Proof.
  intros Hp Ee Es Hs Hl Hr. split.
  - unfold memfs_read, with_read. rewrite Hp, Ee. cbn [as_file]. unfold file_read.
    by rewrite (proj2 (Z.leb_gt _ _) Hr).
  - unfold memfs_setattr. rewrite Hp, Ee.
    destruct (set_attr_unfold (mf_clock m) (mf_ticks m) attr (EFile file)) as (at_ & mt & uid & gid & t & ->).
    cbn [entry_with_attr]. rewrite Es, file_resize_panic by (done || cbn; lia).
    unfold with_write. cbn [mf_set_ticks mf_poisoned]. rewrite Hp. split; [done|]. intros d name. done.
Qed.
End hash.

(** The states of the renames below. *)
Module DemoRename.
Definition run (ops : list MemFsOp) : MemFs := foldl (fun m op => snd (run_op op m)) m0 ops.

(** [/sub/a.txt], both directories. *)
Definition nested : MemFs := run [OpMkdir 1 sub; OpMkdir 2 a_txt].
(** [/sub] and [/b.txt], both directories. *)
Definition siblings : MemFs := run [OpMkdir 1 sub; OpMkdir 1 b_txt].

Lemma nested_reachable : memfs_reachable clock nested.
Proof.
  apply (reachable_op clock (OpMkdir 2 a_txt)); [|by eexists].
  apply (reachable_op clock (OpMkdir 1 sub)); [constructor|by eexists].
Qed.

Lemma siblings_reachable : memfs_reachable clock siblings.
Proof.
  apply (reachable_op clock (OpMkdir 1 b_txt)); [|by eexists].
  apply (reachable_op clock (OpMkdir 1 sub)); [constructor|by eexists].
Qed.

Lemma kid_compute f i c :
  match fs_get f i with Some (EDir d) => bool_decide (c ∈ dir_content d) | _ => false end = true ->
  kid (tree_of f) i c.
Proof.
  destruct (fs_get f i) as [[?|d]|] eqn:E; try done. intros Hc%bool_decide_eq_true. by apply (kid_get f i d).
Qed.
End DemoRename.
Import DemoRename.

(** Three renames that lose or duplicate entries, in states a server
    reaches: a directory renamed over an empty directory below itself is
    refused with [NFS3ERR_INVAL] but the empty directory is gone; renaming [.]
    puts a directory into two parents; renaming a file into a directory that
    does not exist any more fails and loses the file. *)
Theorem memfs_rename_defects :
  (exists m m', memfs_reachable clock m /\ memfs_rename 1 sub 2 a_txt m = (Ret (Err NFS3ERR_INVAL), m') /\
     memfs_lookup 2 a_txt m = (Ret (Ok 3), m) /\ memfs_lookup 2 a_txt m' = (Ret (Err NFS3ERR_NOENT), m')) /\
  (exists m m', memfs_reachable clock m /\ memfs_rename 2 DOT 3 a_txt m = (Ret (Ok tt), m') /\
     kid (tree_of (mf_fs m')) 1 2 /\ kid (tree_of (mf_fs m')) 3 2) /\
  (exists m m', memfs_reachable clock m /\ memfs_rename 1 a_txt 9 b_txt m = (Ret (Err NFS3ERR_SERVERFAULT), m') /\
     memfs_lookup 1 a_txt m = (Ret (Ok 2), m) /\ memfs_lookup 1 a_txt m' = (Ret (Err NFS3ERR_NOENT), m')).
Proof.
  split; [|split].
  - exists nested, (snd (memfs_rename 1 sub 2 a_txt nested)). split; [apply nested_reachable|].
    split; [by vm_compute|]. by split; vm_compute.
  - exists siblings, (snd (memfs_rename 2 DOT 3 a_txt siblings)). split; [apply siblings_reachable|].
    split; [by vm_compute|]. by split; apply kid_compute; vm_compute.
  - exists m1, (snd (memfs_rename 1 a_txt 9 b_txt m1)). split; [apply m1_reachable|].
    split; [by vm_compute|]. by split; vm_compute.
Qed.

(** ** Witnesses *)

Lemma m0_inv : memfs_inv m0.
Proof. apply (memfs_reachable_inv clock). constructor. Qed.

Lemma m1_inv : memfs_inv m1.
Proof. apply (memfs_reachable_inv clock), m1_reachable. Qed.

Lemma a_txt_plain : ~ special a_txt.
Proof. by apply not_special. Qed.

Lemma m1_child : child (tree_of (mf_fs m1)) 1 a_txt 2.
Proof. apply child_get. split; [by apply kid_compute; vm_compute|]. by eexists. Qed.

Lemma memfs_tree_invariant_witness : fs_wf (mf_fs m1).
Proof. apply (memfs_tree_invariant clock m1 m1_reachable). Defined.

Lemma memfs_no_panic_witness :
  exists m', run_op (OpWrite 2 0 hello) m1 = (Ret tt, m') /\ mf_poisoned m' = false /\ memfs_reachable clock m'.
Proof.
  apply (memfs_no_panic clock (OpWrite 2 0 hello) m1 m1_reachable); [reflexivity|cbn; lia|].
  vm_compute. discriminate.
Defined.

Lemma memfs_names_unique_witness : names_unique (tree_of (mf_fs (snd (run_op (OpRemove 1 a_txt) m1)))).
Proof. apply (memfs_names_unique (OpRemove 1 a_txt) m1 m1_inv Logic.I Logic.I m1_names). Defined.

Lemma memfs_create_correct_witness :
  memfs_lookup 1 a_txt (snd (memfs_create 1 a_txt sattr3_default m0)) =
    (Ret (Ok 2), snd (memfs_create 1 a_txt sattr3_default m0)).
Proof.
  destruct (memfs_create_correct m0 1 a_txt sattr3_default 2 (new_attr NF3REG 493 0 2 (clock 1))
              (snd (memfs_create 1 a_txt sattr3_default m0))
              m0_inv m0_names eq_refl Logic.I a_txt_plain ltac:(vm_compute; reflexivity)) as (_ & E & _).
  exact E.
Defined.

Lemma memfs_exclusive_create_idempotent_witness :
  exists m'', mf_fs m'' = mf_fs (snd (memfs_create_exclusive 1 a_txt hello m0)) /\
    memfs_create_exclusive 1 a_txt a_txt (snd (memfs_create_exclusive 1 a_txt hello m0)) =
      (Ret (if decide (a_txt = hello) then Ok 2 else Err NFS3ERR_EXIST), m'').
Proof.
  apply (memfs_exclusive_create_idempotent m0 1 a_txt hello 2 _ a_txt m0_inv m0_names eq_refl a_txt_plain).
  vm_compute. reflexivity.
Defined.

Lemma memfs_remove_correct_witness : data_of (snd (memfs_remove 1 a_txt m1)) 2 = None.
Proof.
  destruct (memfs_remove_correct m1 1 a_txt (snd (memfs_remove 1 a_txt m1)) m1_inv m1_names eq_refl
              ltac:(vm_compute; reflexivity)) as (_ & c & E & _ & _ & Hd & _).
  assert (Ec : memfs_lookup 1 a_txt m1 = (Ret (Ok 2), m1)) by (vm_compute; reflexivity).
  rewrite Ec in E. injection E as <-. exact Hd.
Defined.

Lemma memfs_rename_correct_witness :
  exists c, memfs_lookup 1 a_txt m1 = (Ret (Ok c), m1) /\
    memfs_lookup 1 b_txt (snd (memfs_rename 1 a_txt 1 b_txt m1)) =
      (Ret (Ok c), snd (memfs_rename 1 a_txt 1 b_txt m1)).
Proof.
  destruct (memfs_rename_correct m1 1 a_txt 1 b_txt (snd (memfs_rename 1 a_txt 1 b_txt m1)) m1_inv m1_names
              eq_refl a_txt_plain ltac:(by eexists) ltac:(by intros [_ ?]) ltac:(vm_compute; reflexivity))
    as (_ & c & E1 & E2 & _).
  exists c. exact (conj E1 E2).
Defined.

Lemma memfs_write_read_witness :
  exists file', fs_get (mf_fs (snd (memfs_write 2 0 hello m1))) 2 = Some (EFile file') /\
    len (file_content file') = 5.
Proof.
  destruct (memfs_write_read m1 2 0 hello (Ok (attr_with_size 5 (new_attr NF3REG 493 0 2 (clock 1))))
              (snd (memfs_write 2 0 hello m1)) m1_inv eq_refl ltac:(lia) ltac:(vm_compute; discriminate)
              ltac:(vm_compute; reflexivity)) as (_ & file & file' & E & E' & _ & _ & _ & _ & El).
  assert (Ef : fs_get (mf_fs m1) 2 = Some (EFile (file_new a_txt 2 [] createverf_default (clock 1))))
    by (vm_compute; reflexivity).
  rewrite Ef in E. injection E as <-. exists file'. split; [exact E'|]. rewrite El. reflexivity.
Defined.

Lemma memfs_readdir_complete_witness :
  exists l (es : list DirEntry), memfs_make_iter 1 0 m1 = (Ret (Ok l), m1) /\ mk_entry3 2 a_txt 2 ∈ es.
Proof.
  destruct (memfs_readdir_complete m1 1 (dir_with_content [2] (dir_new [x2f] 1 0 (clock 0))) m1_inv eq_refl
              ltac:(vm_compute; reflexivity)) as (l & es & El & _ & _ & _ & Hes & _).
  exists l, es. split; [exact El|]. apply Hes, m1_child.
Defined.

Lemma memfs_mkdir_duplicates_witness :
  exists id a m', memfs_add_dir 1 a_txt m1 = (Ret (Ok (id, a)), m') /\ id <> 2 /\
    child (tree_of (mf_fs m')) 1 a_txt id /\ child (tree_of (mf_fs m')) 1 a_txt 2.
Proof. apply (memfs_mkdir_duplicates m1 1 a_txt 2 m1_inv eq_refl ltac:(vm_compute; reflexivity) m1_child). Defined.

Lemma memfs_oversize_panics_witness :
  fst (memfs_read 2 u64_MAX 1 m1) = Panic /\
  fst (memfs_setattr 2 (mk_sattr3 None None None (Some u64_MAX) atime_DONT_CHANGE mtime_DONT_CHANGE) m1) = Panic.
Proof.
  destruct (memfs_oversize_panics m1 2 (file_new a_txt 2 [] createverf_default (clock 1)) u64_MAX
              (mk_sattr3 None None None (Some u64_MAX) atime_DONT_CHANGE mtime_DONT_CHANGE) u64_MAX 1
              eq_refl ltac:(vm_compute; reflexivity) eq_refl ltac:(vm_compute; reflexivity)
              ltac:(vm_compute; discriminate) ltac:(vm_compute; reflexivity)) as (H1 & H2 & _).
  exact (conj H1 H2).
Defined.
