(* ===== verification/MemFsValid.v ===== *)
(** * The in-memory file system gives values that can be encoded

    [memfs_ok] is the invariant of its state that the interface [ValidFs] asks
    for, and every method keeps it. *)

From S2P Require Import Prelude Xdr XdrLaws Nfs3Types Handle Vfs Validity MemFs.
Open Scope Z_scope.
Open Scope nfs_scope.

Create HintDb memfs_ok.

Section valid.
Context `{HashSetOrder}.

(** ** The invariant *)

Definition entry_ok (e : Entry) : Prop := valid fattr3_codec (entry_attr e) /\ valid filename3_codec (entry_name e).

Definition fs_ok (f : Fs) : Prop := forall id e, fs_entries f !! id = Some e -> in_u64 id /\ entry_ok e.

Record memfs_ok (m : MemFs) : Prop := {
  mo_fs : fs_ok (mf_fs m);
  mo_nextid : in_u64 (mf_nextid m);
  mo_clock : forall n, valid nfstime3_codec (mf_clock m n);
}.

Lemma fs_ok_set id e f : in_u64 id -> entry_ok e -> fs_ok f -> fs_ok (fs_set id e f).
Proof. intros Hid He Hf id' e'. cbn. intros [[<- <-]|[_ ?]]%lookup_insert_Some; [done|by apply Hf]. Qed.

Lemma fs_ok_del id f : fs_ok f -> fs_ok (fs_del id f).
Proof. intros Hf id' e'. cbn. intros [_ ?]%lookup_delete_Some. by apply Hf. Qed.

Lemma fs_ok_get f id e : fs_ok f -> fs_get f id = Some e -> in_u64 id /\ entry_ok e.
Proof. intros Hf. apply Hf. Qed.

Lemma dir_content_ok l d : entry_ok (EDir d) -> entry_ok (EDir (dir_with_content l d)).
Proof. done. Qed.

Lemma entry_set_name_ok name e : valid filename3_codec name -> entry_ok e -> entry_ok (entry_set_name name e).
Proof. intros Hn [Ha _]. by destruct e. Qed.

Lemma as_dir_ok e d : as_dir e = Ok d -> e = EDir d.
Proof. destruct e; cbn; [done|by intros [= ->]]. Qed.
Lemma as_dir_err e stat : as_dir e = Err stat -> stat = NFS3ERR_NOTDIR.
Proof. destruct e; cbn; [by intros [= ->]|done]. Qed.

#[local] Hint Resolve fs_ok_set fs_ok_del dir_content_ok entry_set_name_ok : memfs_ok.

(** ** Errors *)

Lemma scan_content_ok f name l : fs_ok f -> on_ok entry_ok (scan_content f name l).
Proof.
  intros Hf. induction l as [|i l IH]; cbn; [done|]. destruct (fs_get f i) as [e|] eqn:E; [|done].
  case_decide; [|done]. exact (proj2 (Hf _ _ E)).
Qed.

Lemma fs_lookup_ok f dirid name : fs_ok f -> on_ok entry_ok (fs_lookup f dirid name).
Proof.
  intros Hf. unfold fs_lookup. destruct (fs_get f dirid) as [[file|dir]|] eqn:E; [done| |done].
  destruct (Hf _ _ E) as [_ He]. case_decide; [done|]. case_decide; [|by apply scan_content_ok].
  unfold ok_or. destruct (fs_get f (dir_parent dir)) as [e|] eqn:Ep; [|done]. exact (proj2 (Hf _ _ Ep)).
Qed.

(** ** The operations on the table *)

(** An operation under the write lock keeps the table and gives [Q]. *)
Definition fs_post {A} (Q : A -> Prop) (k : Fs -> outcome A * Fs) : Prop :=
  forall f, fs_ok f -> fs_ok (k f).2 /\ match (k f).1 with Ret a => Q a | _ => True end.

Lemma fs_post_ret {A} (Q : A -> Prop) r : Q r -> fs_post Q (fun f => (Ret r, f)).
Proof. by intros H0 f Hf. Qed.

(** The cases of an operation, and what is known of the entries it found. *)
Ltac fs_cases :=
  repeat match goal with
  | H : as_dir _ = Ok _ |- _ => apply as_dir_ok in H; subst
  | H : as_dir _ = Err _ |- _ => apply as_dir_err in H; subst
  | H : fs_get ?f _ = Some ?e, Hf : fs_ok ?f |- _ =>
      lazymatch goal with _ : entry_ok e |- _ => fail | _ => destruct (Hf _ _ H) as [? ?] end
  | H : fs_get ?f _ = Some ?e |- _ =>
      lazymatch goal with _ : fs_ok f |- _ => fail | _ => assert (fs_ok f) by eauto 10 with memfs_ok end
  | |- context [match ?x with _ => _ end] => destruct x eqn:?; cbn [fst snd] in *
  end;
  try (split; [by eauto 10 with memfs_ok|done]).

Lemma fs_remove_ok dirid name : fs_post (on_ok (fun _ => True)) (fs_remove dirid name).
Proof. intros f Hf. unfold fs_remove. fs_cases. Qed.

Lemma fs_push_ok parent e :
  entry_ok e -> fs_post (on_ok (fun _ => True)) (fs_push parent e).
Proof.
  intros He f Hf. unfold fs_push. assert (in_u64 (entry_fileid e)) as Hid.
  { destruct He as [Ha _]. cbn -[in_u32 in_u64] in Ha. by destruct_and!. }
  fs_cases.
Qed.

Lemma fs_post_mono {A} (Q R : A -> Prop) k : fs_post Q k -> (forall a, Q a -> R a) -> fs_post R k.
Proof. intros Hk HQ f Hf. destruct (Hk f Hf) as [H1 H2]. split; [done|]. destruct (k f).1; auto. Qed.

Lemma rename_replace_ok e dirid name : fs_post (on_ok (fun _ => True)) (rename_replace e dirid name).
Proof.
  intros f Hf. unfold rename_replace. pose proof (fs_lookup_ok f dirid name Hf) as Hl.
  pose proof (fs_remove_ok dirid name f Hf) as Hr.
  destruct e, (fs_lookup f dirid name) as [[]|[]]; cbn in Hl; try (by split); fs_cases; done.
Qed.

Lemma rename_move_ok from_dirid id to_dirid name :
  valid filename3_codec name -> fs_post (on_ok (fun _ => True)) (rename_move from_dirid id to_dirid name).
Proof.
  intros Hn f Hf. unfold rename_move. fs_cases.
  all: match goal with E : entry_set_name ?n ?e = _, He : entry_ok ?e, Hn : _ |- _ =>
         pose proof (entry_set_name_ok n e Hn He) as Ho; rewrite E in Ho end.
  all: split; [by apply fs_ok_set|done].
Qed.

Lemma ancestor_loop_err fuel f from_id current e : ancestor_loop fuel f from_id current = Ret (Some e) -> e <> NFS3_OK.
Proof.
  revert current. induction fuel as [|fuel IH]; intros current; cbn; [done|].
  repeat case_match; try (by intros [= <-]); try done. apply IH.
Qed.

Lemma fs_rename_ok from_dirid from_name to_dirid to_name :
  valid filename3_codec to_name -> fs_post (on_ok (fun _ => True)) (fs_rename from_dirid from_name to_dirid to_name).
Proof.
  intros Hn f Hf. unfold fs_rename. pose proof (fs_lookup_ok f from_dirid from_name Hf) as Hl.
  destruct (fs_lookup f from_dirid from_name) as [e|e]; cbn in Hl; [|done].
  destruct (_ && _); [done|]. pose proof (rename_replace_ok e to_dirid to_name f Hf) as Hr.
  destruct (rename_replace e to_dirid to_name f) as [[[[]|err]| |] f1]; cbn -[ancestor_loop ancestor_fuel] in Hr |- *; try done.
  destruct Hr as [Hf1 _]. pose proof (rename_move_ok from_dirid (entry_fileid e) to_dirid to_name Hn f1 Hf1) as Hm.
  destruct e as [file|dir]; [done|].
  destruct (ancestor_loop (ancestor_fuel f1) f1 (entry_fileid (EDir dir)) to_dirid) as [[err|]| |] eqn:Ea; [|done..]. apply ancestor_loop_err in Ea. by cbn.
Qed.

(** ** Attributes and contents *)

Lemma attr_with_size_ok size a : in_u64 size -> valid fattr3_codec a -> valid fattr3_codec (attr_with_size size a).
Proof. intros Hs Ha. cbn -[in_u32 in_u64] in *. destruct_and!. by split_and!. Qed.

Lemma file_resize_entry_ok size f f' :
  in_u64 size -> entry_ok (EFile f) -> file_resize size f = Ret f' ->
  entry_ok (EFile f') /\ file_verf f' = file_verf f.
Proof.
  intros Hs [Ha Hn]. unfold file_resize. destruct (vec_resize _ _); intros [= <-]. split; [|done].
  split; [|done]. by apply attr_with_size_ok.
Qed.

Lemma file_write_ok offset data f :
  in_u64 offset -> entry_ok (EFile f) ->
  entry_ok (EFile (file_write offset data f).2) /\
  match (file_write offset data f).1 with Ret r => on_ok (valid fattr3_codec) r | _ => True end.
Proof.
  intros Ho Hf. unfold file_write. destruct (len (file_content f) <? offset); [done|].
  destruct (len (file_content f) <? offset + len data) eqn:Hg; [|by split; destruct Hf].
  destruct (file_resize (offset + len data) f) as [f'| |] eqn:Er; [|done..].
  assert (in_u64 (offset + len data)) as Hs.
  { unfold file_resize, vec_resize in Er. pose proof (len_nonneg data). unfold in_u64, u64_MAX in *.
    destruct (Z.leb_spec (offset + len data) (len (file_content f))); [lia|].
    destruct (Z.leb_spec (offset + len data) isize_MAX); [|done]. unfold isize_MAX in *. lia. }
  destruct (file_resize_entry_ok _ _ _ Hs Hf Er) as [[Ha Hn] _]. by split.
Qed.

(** The attributes with an owner and times that were chosen. *)
Lemma entry_with_attr_ok u g atime mtime e :
  in_u32 u -> in_u32 g -> valid nfstime3_codec atime -> valid nfstime3_codec mtime -> entry_ok e ->
  entry_ok (entry_with_attr (attr_with_owner u g (attr_with_times atime mtime (entry_attr e))) e).
Proof.
  intros Hu Hg Hat Hmt [Ha Hn]. split; [|by destruct e].
  assert (entry_attr (entry_with_attr (attr_with_owner u g (attr_with_times atime mtime (entry_attr e))) e) =
    attr_with_owner u g (attr_with_times atime mtime (entry_attr e))) as -> by by destruct e.
  cbn -[in_u32 in_u64 nfstime3_codec] in *. destruct_and!. by split_and!.
Qed.

(** The size is set last. *)
Lemma resize_entry_ok (size : option Z) (ticks : nat) e :
  match size with Some s => in_u64 s | None => True end -> entry_ok e ->
  entry_ok (match size, e with
            | Some s, EFile f =>
                match file_resize s f with
                | Ret f => (Ret tt, EFile f, ticks)
                | _ => (Panic, e, ticks)
                end
            | _, _ => (Ret tt, e, ticks)
            end : outcome unit * Entry * nat).1.2.
Proof.
  intros Hs He. destruct size as [s|]; [|done]. destruct e as [f|d]; [|done].
  destruct (file_resize s f) as [f'| |] eqn:E; [|done..]. exact (proj1 (file_resize_entry_ok _ _ _ Hs He E)).
Qed.

Lemma set_attr_ok clock ticks attr e :
  (forall n, valid nfstime3_codec (clock n)) -> valid sattr3_codec attr -> entry_ok e ->
  entry_ok (set_attr clock ticks attr e).1.2.
Proof.
  intros Hc Hattr He. destruct attr as [mode uid gid size atime mtime].
  cbn -[nfstime3_codec in_u32 in_u64] in Hattr. destruct Hattr as (_ & Hu & Hg & Hs & Hat & Hmt & _).
  assert (in_u32 (fattr3_uid (entry_attr e)) /\ in_u32 (fattr3_gid (entry_attr e)) /\
    valid nfstime3_codec (fattr3_atime (entry_attr e)) /\ valid nfstime3_codec (fattr3_mtime (entry_attr e)))
    as (Hu' & Hg' & Hat' & Hmt').
  { destruct He as [Ha _]. cbn -[in_u32 in_u64 nfstime3_codec] in Ha. by destruct_and!. }
  unfold set_attr. cbn [sattr3_atime sattr3_mtime sattr3_uid sattr3_gid sattr3_size].
  destruct atime as [| |at_], mtime as [| |mt]; apply resize_entry_ok;
    try (by destruct size); apply entry_with_attr_ok; try done; try (by destruct uid); by destruct gid.
Qed.

(** ** The methods *)

Lemma with_write_post {A} (Q : A -> Prop) (k : Fs -> outcome A * Fs) :
  fs_post Q k -> post memfs_ok Q (with_write k).
Proof.
  intros Hk m Hm. unfold with_write. destruct (mf_poisoned m); [done|].
  destruct (Hk (mf_fs m)) as [H1 H2]; [apply Hm|]. destruct Hm.
  destruct (k (mf_fs m)) as [[a| |] f]; by split.
Qed.

Lemma fetch_nextid_post : post memfs_ok in_u64 fetch_nextid.
Proof.
  intros m [Hf Hn Hc]. split; [|done]. split; cbn; [done| |done].
  pose proof (Z.mod_pos_bound (mf_nextid m + 1) (2 ^ 64) eq_refl). unfold in_u64, u64_MAX. lia.
Qed.

Lemma current_time_post : post memfs_ok (valid nfstime3_codec) current_time.
Proof. intros m [Hf Hn Hc]. by split; [split|apply Hc]. Qed.

Lemma set_attr_here_post attr e :
  valid sattr3_codec attr -> entry_ok e -> post memfs_ok entry_ok (set_attr_here attr e).
Proof.
  intros Ha He m Hm. pose proof (set_attr_ok (mf_clock m) (mf_ticks m) attr e (mo_clock _ Hm) Ha He) as Ho.
  unfold set_attr_here. destruct (set_attr _ _ _ _) as [[o e'] ticks]. cbn in Ho |- *. destruct Hm.
  by destruct o.
Qed.

Lemma new_attr_ok type_ mode size id now :
  in_u32 mode -> in_u64 size -> in_u64 id -> valid nfstime3_codec now -> valid fattr3_codec (new_attr type_ mode size id now).
Proof.
  intros Hm Hs Hid Hn. cbn -[in_u32 in_u64 nfstime3_codec]. by split_and!.
Qed.

(** The file system starts so. *)
Lemma memfs_default_ok clock : (forall n, valid nfstime3_codec (clock n)) -> memfs_ok (memfs_default clock).
Proof.
  intros Hc. split; [|by vm_compute|done]. intros id e. cbn. intros [<- <-]%lookup_singleton_Some.
  split; [by vm_compute|]. split; [|done]. apply new_attr_ok; [by vm_compute..|apply Hc].
Qed.

#[local] Hint Resolve with_write_post fetch_nextid_post current_time_post set_attr_here_post : valid.

Definition id_attr_ok (r : Z * fattr3) : Prop := valid fattr3_codec r.2.

Lemma memfs_add_dir_post dirid name :
  valid filename3_codec name -> post memfs_ok (on_ok id_attr_ok) (memfs_add_dir dirid name).
Proof.
  intros Hn. eapply post_bind; [apply fetch_nextid_post|]. intros newid Hid.
  eapply post_bind; [apply current_time_post|]. intros now Hnow.
  assert (entry_ok (EDir (dir_new name newid dirid now))) as He by (split; [by apply new_attr_ok|done]).
  eapply post_bind; [by apply with_write_post, fs_push_ok|].
  intros [u|e] Hr; apply post_pret; [exact (proj1 He)|done].
Qed.

Lemma insert_file_ok dirid newid file attr verf :
  entry_ok file -> valid fattr3_codec attr -> fs_post (on_ok id_attr_ok) (insert_file dirid newid file attr verf).
Proof.
  intros He Ha f Hf. unfold insert_file. pose proof (fs_lookup_ok f dirid (entry_name file) Hf) as Hl.
  pose proof (fs_push_ok dirid file He f Hf) as [Hp1 Hp2].
  destruct (fs_lookup f dirid (entry_name file)) as [[]|[]]; cbn in Hl; repeat case_match; cbn -[fattr3_codec] in *; simplify_eq; try done.
  split; [done|]. by destruct a.
Qed.

Lemma memfs_add_file_post dirid name attr content verf :
  valid filename3_codec name -> valid sattr3_codec attr -> in_u64 (len content) ->
  post memfs_ok (on_ok id_attr_ok) (memfs_add_file dirid name attr content verf).
Proof.
  intros Hn Ha Hc. eapply post_bind; [apply fetch_nextid_post|]. intros newid Hid.
  eapply post_bind; [apply current_time_post|]. intros now Hnow.
  eapply post_bind; [apply set_attr_here_post; [done|]|].
  { split; [|done]. by apply new_attr_ok. }
  intros file Hfile. apply with_write_post, insert_file_ok; [done|]. exact (proj1 Hfile).
Qed.

Lemma memfs_setattr_post id attr :
  valid sattr3_codec attr -> post memfs_ok (on_ok (valid fattr3_codec)) (memfs_setattr id attr).
Proof.
  intros Ha m Hm. unfold memfs_setattr. destruct (mf_poisoned m) eqn:Hp; [done|].
  destruct (fs_get (mf_fs m) id) as [e|] eqn:E; [|done].
  destruct (mo_fs _ Hm _ _ E) as [Hid He].
  pose proof (set_attr_ok (mf_clock m) (mf_ticks m) attr e (mo_clock _ Hm) Ha He) as Ho.
  destruct (set_attr _ _ _ _) as [[o e'] ticks]. cbn [fst snd] in Ho.
  apply with_write_post; [|by destruct Hm].
  intros f Hf. split; [by apply fs_ok_set|]. destruct o; [exact (proj1 Ho)|done..].
Qed.

Lemma memfs_write_post id offset data :
  in_u64 offset -> post memfs_ok (on_ok (valid fattr3_codec)) (memfs_write id offset data).
Proof.
  intros Ho. apply with_write_post. intros f Hf.
  destruct (fs_get f id) as [[file|dir]|] eqn:E; [|done..]. destruct (Hf _ _ E) as [Hid He].
  destruct (file_write_ok offset data file Ho He) as [H1 H2].
  destruct (file_write offset data file) as [o file']. split; [by apply fs_ok_set|done].
Qed.

(** ** The reading methods

    They leave the state as it is, so that they keep any property of it that has
    the invariant in it. *)

Lemma visit_next_entry_ok {R} f (visit : Z -> Entry -> R) (Q : R -> Prop) ids :
  fs_ok f -> (forall id e, in_u64 id -> entry_ok e -> Q (visit id e)) ->
  match (visit_next_entry f visit ids).1 with NextOk r => Q r | NextEof => True | NextErr stat => stat <> NFS3_OK end.
Proof.
  intros Hf Hv. induction ids as [|id ids IH]; cbn; [done|]. destruct (fs_get f id) as [e|] eqn:E; [|done].
  destruct (Hf _ _ E). by apply Hv.
Qed.

Section reading.
Context (P : MemFs -> Prop) (HP : forall m, P m -> memfs_ok m).

Lemma with_read_post {A} (Q : A -> Prop) (k : Fs -> outcome A) :
  (forall f, fs_ok f -> match k f with Ret a => Q a | _ => True end) -> post P Q (with_read k).
Proof. intros Hk m Hm. unfold with_read. destruct (mf_poisoned m); [done|]. split; [done|]. by apply Hk, HP. Qed.

Lemma get_attr_post id : post P (on_ok (valid fattr3_codec)) (memfs_getattr id).
Proof.
  apply with_read_post. intros f Hf. unfold ok_or. destruct (fs_get f id) as [e|] eqn:E; [|done].
  exact (proj1 (proj2 (Hf _ _ E))).
Qed.

Lemma memfs_next_post {R} (visit : Z -> Entry -> R) (Q : R -> Prop) ids :
  (forall id e, in_u64 id -> entry_ok e -> Q (visit id e)) ->
  post P (fun r => match r.1 with NextOk r => Q r | NextEof => True | NextErr stat => stat <> NFS3_OK end)
    (memfs_next visit ids).
Proof.
  intros Hv. unfold memfs_next. destruct ids as [|id ids]; [by apply post_pret|].
  apply with_read_post. intros f Hf. by apply visit_next_entry_ok.
Qed.

Lemma lookup_path_ok f components fid : fs_ok f -> on_ok (fun _ => True) (lookup_path f components fid).
Proof.
  intros Hf. revert fid. induction components as [|[|b name] rest IH]; intros fid; cbn [lookup_path]; [done|apply IH|].
  pose proof (fs_lookup_ok f fid (b :: name) Hf). destruct (fs_lookup _ _ _); [apply IH|done].
Qed.

Lemma path_to_id_post path : post P (on_ok (fun _ => True)) (memfs_path_to_id path).
Proof. 
  intros m Hm. apply (with_read_post (on_ok (fun _ => True)) (fun f => Ret (lookup_path f (split_slash path) (mf_rootdir m))));
    [|done]. intros f Hf. by apply lookup_path_ok.
Qed.

Lemma make_iter_post dirid cookie : post P (on_ok (fun _ => True)) (memfs_make_iter dirid cookie).
Proof.
  apply with_read_post. intros f _. unfold fs_make_iter, ok_or. repeat case_match; simplify_eq; try done.
  by match goal with E : as_dir _ = Err _ |- _ => apply as_dir_err in E as -> end.
Qed.

Lemma memfs_iterates {R} (visit : Z -> Entry -> R) (Q : R -> Prop) dirid cookie :
  (forall id e, in_u64 id -> entry_ok e -> Q (visit id e)) ->
  iterates P Q (mkIterator (list Z) (memfs_next visit) (fun _ => pret tt)) (memfs_make_iter dirid cookie).
Proof.
  intros Hv. exists (fun _ => True). split; [apply make_iter_post|]. split; [|by intros; apply post_pret].
  intros i _. eapply post_mono; [by apply memfs_next_post|]. done.
Qed.

Lemma memfs_read_post id offset count : post P (on_ok (fun _ => True)) (memfs_read id offset count).
Proof.
  apply with_read_post. intros f _. destruct (fs_get f id) as [[file|dir]|]; [|done..]. cbn.
  by destruct (file_read file offset count).
Qed.

Lemma memfs_lookup_post dirid name : post P (on_ok (fun _ => True)) (memfs_lookup dirid name).
Proof.
  apply with_read_post. intros f Hf. pose proof (fs_lookup_ok f dirid name Hf). by destruct (fs_lookup _ _ _).
Qed.

Context `{Target}.

Lemma to_handle_post m :
  post P (on_ok (fun _ => True)) m -> post P (on_ok handle_valid) (do* r := m in pret (to_handle r)).
Proof. intros Hm. eapply post_bind; [exact Hm|]. intros [r|e] Hr; apply post_pret; [apply handle_u64_valid|done]. Qed.

Lemma memfs_read_valid : ValidReadFs memfs_read_fs P.
Proof.
  split; intros.
  - intros m Hm. split; [done|]. apply handle_u64_valid.
  - apply to_handle_post, path_to_id_post.
  - apply to_handle_post, memfs_lookup_post.
  - apply get_attr_post.
  - apply memfs_read_post.
  - apply memfs_iterates. by intros i e Hid [_ Hn].
  - apply memfs_iterates. intros i e Hid [Ha Hn]. split_and!; try done. apply handle_u64_valid.
  - by apply post_pret.
  - apply fsinfo_default_post, get_attr_post.
Qed.
End reading.

Section instance.
Context `{Target}.

Lemma to_handle_attr_post m :
  post memfs_ok (on_ok id_attr_ok) m ->
  post memfs_ok (on_ok (fun r => handle_valid r.1 /\ valid fattr3_codec r.2)) (do* r := m in pret (to_handle_attr r)).
Proof.
  intros Hm. eapply post_bind; [exact Hm|].
  intros [[id a]|e] Hr; apply post_pret; [by split; [apply handle_u64_valid|]|done].
Qed.

(** The file system keeps its side of the interface. *)
#[export] Instance memfs_valid : ValidFs memfs_file_system memfs_ok.
Proof.
  split; [by apply memfs_read_valid|..]; intros.
  - by apply post_pret.
  - by apply memfs_setattr_post.
  - by apply memfs_write_post.
  - by apply to_handle_attr_post, memfs_add_file_post.
  - apply to_handle_post; eapply post_bind; [by apply memfs_add_file_post|].
    intros [r|e] Hr; by apply post_pret.
  - by apply to_handle_attr_post, memfs_add_dir_post.
  - apply with_write_post, fs_remove_ok.
  - by apply with_write_post, fs_rename_ok.
  - by apply post_pret.
Qed.
End instance.
End valid.
