(* ===== verification/RemoteMemFs.v ===== *)
(** * Remote calls on the in-memory file system

    The whole path from the client to the table of entries: what a remote WRITE
    stores, a remote READ gives back.  The results are encodable because the file
    system keeps its side of [ValidFs] ([MemFsValid]). *)

From S2P Require Import Prelude Xdr XdrLaws Nfs3Types RpcTypes RpcWire RpcWireLaws RpcClient RpcClientLaws ConnectLaws.
From S2P Require Import Handle Vfs NfsHandlers NfsHandlersLaws Transactions TransactionLaws TransactionMemory MountPortmap Server.
From S2P Require Import Connection ConnectionLaws Validity ServerValidity EndToEnd MemFs MemFsTree MemFsLaws MemFsTheorems MemFsNames MemFsProperties MemFsValid.
Open Scope Z_scope.
Open Scope nfs_scope.

Section remote.
Context `{Hash : HashSetOrder} `{Target}.

(** The handle of an entry. *)
Definition handle_of (fhc : FileHandleConverter) (id : Z) : nfs_fh3 := fh_to_nfs fhc (fh64_new id).

(** ** What the procedures answer *)

Lemma write_answer fhc id offset data stable a m m' :
  converter_wf fhc -> in_u64 id -> mf_poisoned m = false ->
  memfs_write id offset data m = (Ret (Ok a), m') ->
  exists before, forall xid,
    nfsproc3_write memfs_file_system fhc xid
      (mk_WRITE3args (handle_of fhc id) offset (len data) stable data) m =
    (Ret (NfsOk (mk_WRITE3resok (mk_wcc_data before (Some a)) (len data) FILE_SYNC (converter_verf fhc))), m').
Proof.
  intros Hwf Hid Hp Hw. eexists. intros xid. unfold nfsproc3_write, handle_of. rewrite require_write_rw by done.
  cbn [WRITE3args_data WRITE3args_count WRITE3args_file WRITE3args_offset].
  rewrite Z.eqb_refl. cbn [negb]. rewrite (fh_to_id_ok _ _ _ _ _ (fh_from_to_nfs fhc (fh64_new id) Hwf)).
  assert (@vfs_getattr _ _ memfs_read_fs (fh64_new id) m = (Ret (result_map entry_attr (ok_or (fs_get (mf_fs m) id) NFS3ERR_NOENT)), m)) as Hg.
  { cbn. rewrite fh64_new_as_u64 by done. unfold memfs_getattr, with_read. by rewrite Hp. }
  rewrite (pbind_Ret _ _ _ _ _ (get_wcc_attr_run memfs_file_system _ _ _ _ Hg)).
  assert (@vfs_write _ _ memfs_file_system (fh64_new id) offset data m = (Ret (Ok a), m')) as Hw'.
  { cbn. by rewrite fh64_new_as_u64. }
  by rewrite (pbind_Ret _ _ _ _ _ Hw').
Qed.

Lemma read_answer fhc xid id offset count bytes eof a m :
  converter_wf fhc -> in_u64 id -> memfs_getattr id m = (Ret (Ok a), m) ->
  memfs_read id offset count m = (Ret (Ok (bytes, eof)), m) -> len bytes <= u32_MAX ->
  nfsproc3_read memfs_file_system fhc xid (mk_READ3args (handle_of fhc id) offset count) m =
  (Ret (NfsOk (mk_READ3resok (Some a) (len bytes) eof bytes)), m).
Proof.
  intros Hwf Hid Hg Hr Hl. unfold nfsproc3_read, handle_of. cbn [READ3args_file READ3args_offset READ3args_count].
  rewrite (fh_to_id_ok _ _ _ _ _ (fh_from_to_nfs fhc (fh64_new id) Hwf)).
  assert (@vfs_getattr _ _ memfs_read_fs (fh64_new id) m = (Ret (Ok a), m)) as Hg' by (cbn; by rewrite fh64_new_as_u64).
  rewrite (pbind_Ret _ _ _ _ _ (getattr_opt_run memfs_file_system _ _ _ _ Hg')).
  assert (@vfs_read _ _ memfs_read_fs (fh64_new id) offset count m = (Ret (Ok (bytes, eof)), m)) as Hr' by (cbn; by rewrite fh64_new_as_u64).
  rewrite (pbind_Ret _ _ _ _ _ Hr'). by rewrite (proj2 (Z.leb_le _ _) Hl).
Qed.

Lemma handle_of_valid fhc id : converter_wf fhc -> valid nfs_fh3_codec (handle_of fhc id) /\ packed_size nfs_fh3_codec (handle_of fhc id) <= 100.
Proof.
  intros Hwf. pose proof (fh_valid fhc Hwf (fh64_new id) (handle_u64_valid id)) as Hv. split; [done|].
  cbn -[add_padding]. rewrite add_padding_div, len_app. unfold len at 1. rewrite (converter_le_length _ Hwf).
  pose proof (handle_u64_valid id) as Hh. unfold handle_valid in Hh. cbn in Hh |- *.
  Z.to_euclidean_division_equations; lia.
Qed.

(** ** Sizes *)

Lemma opaque_size data : len data <= 1000000 -> packed_size opaque_codec data <= 1000010.
Proof. intros Hl. cbn -[add_padding]. rewrite add_padding_div. Z.to_euclidean_division_equations; lia. Qed.

Lemma write_args_valid fhc id offset data :
  converter_wf fhc -> in_u64 offset -> len data <= 1000000 ->
  valid WRITE3args_codec (mk_WRITE3args (handle_of fhc id) offset (len data) FILE_SYNC data) /\
  packed_size WRITE3args_codec (mk_WRITE3args (handle_of fhc id) offset (len data) FILE_SYNC data) <= MASK - 1000.
Proof.
  intros Hwf Ho Hl. destruct (handle_of_valid fhc id Hwf) as [Hv Hs]. pose proof (len_nonneg data).
  pose proof (opaque_size data Hl). split.
  - cbn -[in_u32 in_u64 nfs_fh3_codec]. split_and!; try done; unfold in_u32, u32_MAX; lia.
  - cbn -[nfs_fh3_codec opaque_codec]. unfold MASK. lia.
Qed.

Lemma fattr3_size_const a : packed_size fattr3_codec a = 84.
Proof. reflexivity. Qed.

Lemma write_result_size wcc n verf :
  packed_size WRITE3res_codec (NfsOk (mk_WRITE3resok wcc n FILE_SYNC verf)) <= 1000.
Proof. destruct wcc as [[] []]; vm_compute; discriminate. Qed.

Lemma read_result_size a n eof data :
  len data <= 1000000 -> packed_size READ3res_codec (NfsOk (mk_READ3resok a n eof data)) <= 1001000.
Proof.
  intros Hl. pose proof (opaque_size data Hl). cbn -[opaque_codec post_op_attr_codec].
  destruct a; cbn -[opaque_codec]; lia.
Qed.

(** C6: What is written over the network is read back over the network. A WRITE
    call of up to a million bytes, which the table of entries takes, returns to
    the client with the attributes of the file and the whole count, committed;
    any later READ call of that range, by this client or another one with the
    same handle, as long as nothing else changes the file in between, returns
    exactly the data. *)
Theorem remote_write_read ctx m id offset data a m' s ls xid cred verf now now_drop :
  let fhc := ctx_file_handle_converter ctx in
  converter_wf fhc -> memfs_inv m -> memfs_ok m -> mf_poisoned m = false -> in_u64 id ->
  0 <= offset -> offset + len data <= usize_MAX -> len data <= 1000000 ->
  memfs_write id offset data m = (Ret (Ok a), m') ->
  ss_vfs s = m -> tracker_inv (ss_tracker s) ls ->
  caller_ok ctx xid cred verf -> accepts (ctx_client_addr ctx) xid now (ss_tracker s) ->
  exists before s1,
    remote memfs_file_system ctx NFSPROC3_WRITE WRITE3args_codec WRITE3res_codec
      (mk_WRITE3args (handle_of fhc id) offset (len data) FILE_SYNC data) xid cred verf now now_drop s
      (NfsOk (mk_WRITE3resok (mk_wcc_data before (Some a)) (len data) FILE_SYNC (converter_verf fhc))) s1 /\
    ss_vfs s1 = m' /\
    forall ctx2 xid2 cred2 verf2 now2 now_drop2 s2 ls2,
      ctx_file_handle_converter ctx2 = fhc -> ss_vfs s2 = ss_vfs s1 -> tracker_inv (ss_tracker s2) ls2 ->
      caller_ok ctx2 xid2 cred2 verf2 -> accepts (ctx_client_addr ctx2) xid2 now2 (ss_tracker s2) ->
      exists eof s3,
        remote memfs_file_system ctx2 NFSPROC3_READ READ3args_codec READ3res_codec
          (mk_READ3args (handle_of fhc id) offset (len data)) xid2 cred2 verf2 now2 now_drop2 s2
          (NfsOk (mk_READ3resok (Some a) (len data) eof data)) s3 /\
        ss_vfs s3 = m'.
Proof.
  intros fhc Hwf Hinv Hok Hp Hid Ho Hmax Hl Hw Hs Ht Hcaller Hacc. subst m.
  assert (in_u64 offset) as Hoff by (pose proof (len_nonneg data); unfold in_u64, usize_MAX in *; lia).
  assert (len data <= u32_MAX) as Hu32 by (unfold u32_MAX; lia).
  destruct (write_answer fhc id offset data FILE_SYNC a _ m' Hwf Hid Hp Hw) as [before Hans]. specialize (Hans xid).
  destruct (write_args_valid fhc id offset data Hwf Hoff Hl) as [Hva Hsa].
  destruct (nfsproc3_write_post memfs_file_system fhc memfs_ok memfs_valid Hwf xid _ Hva _ Hok) as [Hok' Hvr].
  rewrite Hans in Hok', Hvr. cbn [fst snd] in Hok', Hvr.
  destruct (remote_call_run memfs_file_system ctx NFSPROC3_WRITE _ _ _ _ xid cred verf now now_drop s ls _ m'
    (impl_write _ _) Hcaller Ht Hacc Hva Hsa Hans Hvr) as (s1 & Hremote & Hs1 & _).
  { pose proof (write_result_size (mk_wcc_data before (Some a)) (len data) (converter_verf fhc)). unfold MASK. lia. }
  exists before, s1. split; [exact Hremote|]. split; [done|].
  intros ctx2 xid2 cred2 verf2 now2 now_drop2 s2 ls2 Hfhc Hs2 Ht2 Hcaller2 Hacc2. rewrite Hs1 in Hs2.
  destruct (memfs_write_reads_back _ id offset data a m' Hinv Hp Ho Hmax Hw) as (file & _ & _ & Hread & Hattr).
  pose proof (read_answer fhc xid2 id offset (len data) _ _ a m' Hwf Hid Hattr Hread Hu32) as Hans2.
  set (eof := len (file_content file) <=? offset + len data) in *. rewrite <- Hs2 in Hans2.
  assert (valid READ3args_codec (mk_READ3args (handle_of fhc id) offset (len data)) /\
    packed_size READ3args_codec (mk_READ3args (handle_of fhc id) offset (len data)) <= MASK - 1000) as [Hva2 Hsa2].
  { destruct (handle_of_valid fhc id Hwf) as [Hv Hsz]. pose proof (len_nonneg data). split.
    - cbn -[in_u32 in_u64 nfs_fh3_codec]. split_and!; try done; unfold in_u32; lia.
    - cbn -[nfs_fh3_codec]. unfold MASK. lia. }
  destruct (nfsproc3_read_post memfs_file_system fhc memfs_ok memfs_valid xid2 _ Hva2 (ss_vfs s2)) as [_ Hvr2];
    [by rewrite Hs2|]. rewrite Hans2 in Hvr2. cbn [fst] in Hvr2. rewrite <- Hfhc in Hans2 at 1.
  destruct (remote_call_run memfs_file_system ctx2 NFSPROC3_READ _ _ _ _ xid2 cred2 verf2 now2 now_drop2 s2 ls2 _ _
    (impl_read _ _) Hcaller2 Ht2 Hacc2 Hva2 Hsa2 Hans2 Hvr2) as (s3 & Hremote2 & Hs3 & _).
  { pose proof (read_result_size (Some a) (len data) eof data Hl). unfold MASK. lia. }
  exists eof, s3. split; [exact Hremote2|]. by rewrite Hs3.
Qed.

(** ** Read-only exports *)

(** C9: A read-only export cannot be changed. However many calls clients send to
    the in-memory file system behind the read-only adapter, of whatever program
    and with whatever bytes, and however the tasks of the connection are
    interleaved with those of other connections, the file system afterwards is the
    one it was, to the last byte (entries, attributes, next id, clock and lock).
    Each message that was served, and whichever is served next, gets a reply with the
    xid of its call, unless it is a retransmission (the tracker has its xid), the
    procedure panics, as a READ near the end of the offsets does, or it is not a call
    that can be decoded. *)
Theorem read_only_export_immutable ctx s input acts c evs :
  let fs := ReadOnlyAdapter memfs_read_fs in
  let same := fun m => m = ss_vfs s in
  context_ok ctx -> memfs_ok (ss_vfs s) -> (exists ls, tracker_inv (ss_tracker s) ls) ->
  Forall (fun a => match a with AOther s' => serving same s' | _ => True end) acts ->
  Connection.run fs ctx acts (connection_new s input) = Some (c, evs) ->
  ss_vfs (cn_server c) = ss_vfs s /\
  Forall (served_well fs same ctx) (served evs) /\
  forall packed now now_drop, answered fs ctx packed now (cn_server c)
    (fst (handle_rpc_message fs ctx packed now now_drop (cn_server c))).
Proof.
  intros fs same Hctx Hok Hinv Hothers Hrun.
  assert (ValidFs fs same) as Hfs.
  { apply ReadOnlyAdapter_valid, memfs_read_valid. by intros m ->. }
  destruct (run_answers _ _ Hfs ctx Hctx acts _ c evs Hrun Hothers (conj eq_refl Hinv)) as ([Hv _] & Hw & Hn).
  by split_and!.
Qed.
End remote.

(** ** Witnesses *)

Module DemoRemote.
Import DemoFs DemoMem.

(** The root directory with the empty file [a.txt], id 2, served to a client
    without credentials. *)
Definition clock (n : nat) : nfstime3 := mk_nfstime3 5 6.
Definition m1 : MemFs := snd (memfs_create 1 a_txt sattr3_default (memfs_default clock)).
Definition ctx : RPCContext := mkContext 2049 "10.0.0.1:700" auth_unix_default true (bytes_of_string "/") fhc.
Definition state : ServerState MemFs := mkServerState m1 new_transaction_tracker [].
Definition attr : fattr3 := match fst (memfs_write 2 0 hello m1) with Ret (Ok a) => a | _ => DemoFs.attr end.
Definition args : GETATTR3args := mk_GETATTR3args (handle_of fhc 2).
Definition message : IncomingRpcMessage :=
  mkIncoming 7 (mk_call_body 2 NFS3_PROGRAM 3 1 opaque_auth_default opaque_auth_default)
    (Some (to_bytes GETATTR3args_codec args)) 0.

Lemma clock_valid n : valid nfstime3_codec (clock n).
Proof. vm_compute. intuition discriminate. Qed.

Lemma m0_ok : memfs_ok (memfs_default clock).
Proof. apply memfs_default_ok, clock_valid. Qed.

Lemma m1_ok : memfs_ok m1.
Proof. refine (proj1 (memfs_add_file_post 1 a_txt sattr3_default [] None _ _ _ _ m0_ok)); by vm_compute. Qed.

Lemma m1_wf : memfs_inv m1.
Proof.
  apply (memfs_reachable_inv clock). apply (reachable_op clock (OpCreate 1 a_txt sattr3_default)); [constructor|done].
Qed.

Lemma caller : caller_ok ctx 7 opaque_auth_default opaque_auth_default.
Proof. split; [by vm_compute..|done]. Qed.

Lemma accepted_7 : accepts (ctx_client_addr ctx) 7 1 (ss_tracker state).
Proof. do 2 eexists. vm_compute. reflexivity. Qed.

Lemma tracker_ok : tracker_inv (ss_tracker state) [].
Proof. apply tracker_new_inv; unfold MAX_ACTIVE_TRANSACTIONS, TRANSACTION_TRIM_THRESHOLD, u16_MAX; lia. Qed.

Lemma args_valid : valid GETATTR3args_codec args.
Proof. by vm_compute. Qed.

Lemma context : context_ok ctx.
Proof. split; [by vm_compute..|]. apply converter_new_wf. Qed.

(** A client that sends a REMOVE of the file. *)
Definition input : list byte :=
  message_wire ([], call_bytes 7 (mk_call_body 2 NFS3_PROGRAM 3 12 opaque_auth_default opaque_auth_default)
    (to_bytes REMOVE3args_codec (mk_REMOVE3args (mk_diropargs3 (handle_of fhc 1) a_txt)))).
Definition acts : list (action MemFs) :=
  [AReceive (len input); APush (len input); APull 4; APull (len input - 4); AFragment; AServe 0 1 2; AReply].
Definition final : option (Connection MemFs * list event) :=
  Connection.run (ReadOnlyAdapter memfs_read_fs) ctx acts (connection_new state input).

Lemma args_size : packed_size GETATTR3args_codec args <= MASK - 1000.
Proof. by vm_compute. Qed.
End DemoRemote.

Import DemoFs DemoMem.

Lemma nfs_results_valid_witness :
  match fst (handle_nfs memfs_file_system fhc DemoRemote.message DemoRemote.m1) with
  | Ret r => exists d hd tl, encodes rpc_msg_codec (accepted 7 d) hd /\ r = Ok (Reply (hd ++ tl))
  | _ => False
  end.
Proof.
  pose proof (nfs_results_valid memfs_file_system fhc memfs_ok memfs_valid (converter_new_wf _)
    DemoRemote.message DemoRemote.m1 ltac:(by vm_compute) DemoRemote.m1_ok) as [_ Hr].
  destruct (handle_nfs _ _ DemoRemote.message DemoRemote.m1) as [o v] eqn:E. cbn [fst] in *.
  destruct o; [exact Hr|vm_compute in E; discriminate..].
Defined.

Lemma remote_call_witness : exists request reply s',
  handle_rpc_message memfs_file_system DemoRemote.ctx request 1 2 DemoRemote.state = (Ret (Ok (Reply reply)), s') /\
  ss_vfs s' = DemoRemote.m1 /\ memfs_ok (ss_vfs s').
Proof.
  destruct (remote_call memfs_file_system DemoRemote.ctx memfs_ok NFSPROC3_GETATTR _ _ _ DemoRemote.args 7
    opaque_auth_default opaque_auth_default 1 2 DemoRemote.state []
    (match fst (nfsproc3_getattr memfs_file_system fhc 7 DemoRemote.args DemoRemote.m1) with
     | Ret r => r | _ => NfsErr NFS3ERR_IO tt end)
    DemoRemote.m1 memfs_valid (converter_new_wf _) (impl_getattr _ _) DemoRemote.caller
    DemoRemote.tracker_ok DemoRemote.accepted_7 DemoRemote.m1_ok DemoRemote.args_valid DemoRemote.args_size)
    as (request & reply & wire & s' & Hserve & _ & _ & Hv & Hok & _).
  - vm_compute. reflexivity.
  - vm_compute. discriminate.
  - exists request, reply, s'. rewrite Hv. by split_and!.
Defined.

Lemma remote_write_read_witness : exists before s1,
  remote memfs_file_system DemoRemote.ctx NFSPROC3_WRITE WRITE3args_codec WRITE3res_codec
    (mk_WRITE3args (handle_of fhc 2) 0 (len hello) FILE_SYNC hello) 7 opaque_auth_default opaque_auth_default 1 2
    DemoRemote.state
    (NfsOk (mk_WRITE3resok (mk_wcc_data before (Some DemoRemote.attr)) (len hello) FILE_SYNC (converter_verf fhc))) s1.
Proof.
  destruct (remote_write_read DemoRemote.ctx DemoRemote.m1 2 0 hello DemoRemote.attr
    (snd (memfs_write 2 0 hello DemoRemote.m1)) DemoRemote.state [] 7 opaque_auth_default opaque_auth_default 1 2)
    as (before & s1 & Hremote & _).
  - apply converter_new_wf.
  - apply DemoRemote.m1_wf.
  - apply DemoRemote.m1_ok.
  - reflexivity.
  - by vm_compute.
  - done.
  - by vm_compute.
  - by vm_compute.
  - vm_compute. reflexivity.
  - reflexivity.
  - apply DemoRemote.tracker_ok.
  - apply DemoRemote.caller.
  - apply DemoRemote.accepted_7.
  - exists before, s1. exact Hremote.
Defined.

Lemma read_only_export_immutable_witness :
  match DemoRemote.final with
  | Some (c, evs) => length (served evs) = 1%nat /\ ss_vfs (cn_server c) = DemoRemote.m1
  | None => False
  end.
Proof.
  destruct DemoRemote.final as [[c evs]|] eqn:E.
  - split.
    + assert (option_map (fun x => length (served x.2)) DemoRemote.final = Some 1%nat) as Hl by (vm_compute; reflexivity).
      rewrite E in Hl. by injection Hl.
    + apply (read_only_export_immutable DemoRemote.ctx DemoRemote.state DemoRemote.input DemoRemote.acts c evs
        DemoRemote.context DemoRemote.m1_ok (ex_intro _ [] DemoRemote.tracker_ok)); [by repeat constructor|exact E].
  - assert (option_map (fun _ => true) DemoRemote.final = Some true) as Hl by (vm_compute; reflexivity).
    rewrite E in Hl. discriminate.
Defined.
