(* ===== verification/Concurrent.v ===== *)
(** * Procedures that run while others do

    A procedure calls the methods of the file system one after the other, and
    the tasks of other calls run in between.  [Interleaved] is a file system as
    such a procedure sees it: before each method call another burst of what the
    others do takes effect.  Since [NfsFileSystem] says nothing of what a method
    does to the state, it is a file system again, so the procedures of
    [NfsHandlers] run on it as they are; nothing of them is changed.

    The theorems: an interleaved file system keeps its side of [ValidFs] when the
    others keep the invariant; a procedure takes effect at one point between its
    start and its end, and what it answers is what the one method that writes
    gave there.  The guard of SETATTR and the attributes before and after are not
    part of that point. *)

From S2P Require Import Prelude Xdr XdrLaws Nfs3Types RpcTypes RpcWire RpcWireLaws Handle Vfs NfsExt NfsHandlers.
From S2P Require Import NfsHandlersLaws Validity.
Open Scope Z_scope.
Open Scope nfs_scope.

Create HintDb linear.

(** ** The interleaved file system *)

(** A state, and what the other tasks will do to it, burst by burst. *)
Record Shared (V : Type) : Type := mkShared {
  sh_now : V;
  sh_others : list (V -> V);
}.
Arguments mkShared {V} _ _.
Arguments sh_now {V} _.
Arguments sh_others {V} _.

Section interleaved.
Context {V H : Type}.

(** A method, after the next burst. *)
Definition yielding {A} (m : prog V A) : prog (Shared V) A := fun s =>
  let '(v, others) := match sh_others s with
                      | [] => (sh_now s, [])
                      | g :: others => (g (sh_now s), others)
                      end in
  let '(o, v) := m v in (o, mkShared v others).

Definition yielding_iterator {T} (it : Iterator V T) : Iterator (Shared V) T := {|
  it_state := it_state it;
  it_next i := yielding (it_next it i);
  it_drop i := yielding (it_drop it i);
|}.

Definition InterleavedRead (fs : NfsReadFileSystem V H) : NfsReadFileSystem (Shared V) H := {|
  readdir_iter := yielding_iterator readdir_iter;
  readdirplus_iter := yielding_iterator readdirplus_iter;
  vfs_root_dir := yielding vfs_root_dir;
  vfs_lookup id name := yielding (vfs_lookup id name);
  vfs_lookup_by_path path := yielding (vfs_lookup_by_path path);
  vfs_getattr id := yielding (vfs_getattr id);
  vfs_read id offset count := yielding (vfs_read id offset count);
  vfs_readdir id cookie := yielding (vfs_readdir id cookie);
  vfs_readdirplus id cookie := yielding (vfs_readdirplus id cookie);
  vfs_readlink id := yielding (vfs_readlink id);
  vfs_fsinfo id := yielding (vfs_fsinfo id);
|}.

Definition Interleaved (fs : NfsFileSystem V H) : NfsFileSystem (Shared V) H := {|
  nfs_read_fs := InterleavedRead nfs_read_fs;
  vfs_capabilities := yielding vfs_capabilities;
  vfs_setattr id attr := yielding (vfs_setattr id attr);
  vfs_write id offset data := yielding (vfs_write id offset data);
  vfs_create id name attr := yielding (vfs_create id name attr);
  vfs_create_exclusive id name verf := yielding (vfs_create_exclusive id name verf);
  vfs_mkdir id name := yielding (vfs_mkdir id name);
  vfs_remove id name := yielding (vfs_remove id name);
  vfs_rename id1 name1 id2 name2 := yielding (vfs_rename id1 name1 id2 name2);
  vfs_symlink id name path attr := yielding (vfs_symlink id name path attr);
|}.

(** ** Valid file systems stay valid *)

(** The invariant holds now, and the others keep it. *)
Definition shared_ok (P : V -> Prop) (s : Shared V) : Prop :=
  P (sh_now s) /\ Forall (fun g => forall v, P v -> P (g v)) (sh_others s).

Lemma yielding_post {A} (P : V -> Prop) (Q : A -> Prop) m :
  post P Q m -> post (shared_ok P) Q (yielding m).
Proof.
  intros Hm [v [|g others]] [Hv Ho]; unfold yielding; cbn [sh_now sh_others] in *.
  - destruct (Hm v Hv) as [H1 H2]. by destruct (m v).
  - apply Forall_cons in Ho as [Hg Ho]. destruct (Hm (g v) (Hg v Hv)) as [H1 H2]. by destruct (m (g v)).
Qed.

Lemma yielding_iterates {T} (P : V -> Prop) (Q : T -> Prop) (it : Iterator V T) start :
  iterates P Q it start -> iterates (shared_ok P) Q (yielding_iterator it) (yielding start).
Proof.
  intros (ok & Hs & Hn & Hd). exists ok. split; [by apply yielding_post|].
  split; intros i Hi; apply yielding_post; [by apply Hn|by apply Hd].
Qed.

#[export] Instance InterleavedRead_valid `{!FileHandle H} (fs : NfsReadFileSystem V H) P :
  ValidReadFs fs P -> ValidReadFs (InterleavedRead fs) (shared_ok P).
Proof.
  intros Hfs. split; intros; first [apply yielding_post; apply Hfs | by apply yielding_iterates, Hfs].
Qed.

#[export] Instance Interleaved_valid `{!FileHandle H} (fs : NfsFileSystem V H) P :
  ValidFs fs P -> ValidFs (Interleaved fs) (shared_ok P).
Proof.
  intros Hfs. split; [apply InterleavedRead_valid, Hfs|..]; intros; apply yielding_post; by apply Hfs.
Qed.

(** ** What a procedure does to the state *)

(** What the others do, one burst after the other. *)
Definition bursts (gs : list (V -> V)) (v : V) : V := fold_left (fun v g => g v) gs v.

Lemma bursts_app gs1 gs2 v : bursts (gs1 ++ gs2) v = bursts gs2 (bursts gs1 v).
Proof. apply fold_left_app. Qed.

(** From [s] to [s'] only the others changed something. *)
Definition only_others (s s' : Shared V) : Prop :=
  exists gs, sh_others s = gs ++ sh_others s' /\ sh_now s' = bursts gs (sh_now s).

Lemma only_others_refl s : only_others s s.
Proof. by exists []. Qed.

Lemma only_others_trans s1 s2 s3 : only_others s1 s2 -> only_others s2 s3 -> only_others s1 s3.
Proof.
  intros (gs1 & H1 & E1) (gs2 & H2 & E2). exists (gs1 ++ gs2).
  by rewrite H1, H2, <- app_assoc, bursts_app, <- E1, <- E2.
Qed.

(** A computation that only reads. *)
Definition quiet {A} (m : prog (Shared V) A) : Prop := forall s, only_others s (snd (m s)).

(** A method that only reads. *)
Definition reads {A} (m : prog V A) : Prop := forall v, snd (m v) = v.

Lemma quiet_pret {A} (a : A) : quiet (pret a).
Proof. intros s. apply only_others_refl. Qed.

Lemma quiet_panic {A} : quiet (@ppanic (Shared V) A).
Proof. intros s. apply only_others_refl. Qed.

Lemma quiet_bind {A B} (m : prog (Shared V) A) (k : A -> prog (Shared V) B) :
  quiet m -> (forall a, quiet (k a)) -> quiet (pbind m k).
Proof.
  intros Hm Hk s. unfold pbind. specialize (Hm s). destruct (m s) as [[a| |] s1]; [|done..].
  eapply only_others_trans; [exact Hm|apply Hk].
Qed.

(** The burst before a method. *)
Lemma yielding_run {A} (m : prog V A) s :
  exists s1, only_others s s1 /\ yielding m s = (fst (m (sh_now s1)), mkShared (snd (m (sh_now s1))) (sh_others s1)).
Proof.
  unfold yielding. destruct s as [v [|g others]]; cbn [sh_now sh_others].
  - exists (mkShared v []). split; [apply only_others_refl|]. cbn. by destruct (m v).
  - exists (mkShared (g v) others). split; [by exists [g]|]. cbn. by destruct (m (g v)).
Qed.

Lemma quiet_yielding {A} (m : prog V A) : reads m -> quiet (yielding m).
Proof.
  intros Hm s. destruct (yielding_run m s) as ([v others] & H1 & ->). cbn in *. by rewrite Hm.
Qed.
End interleaved.

#[export] Hint Resolve quiet_pret quiet_panic quiet_bind quiet_yielding : linear.

(** A file system whose reading methods change nothing. *)
Class ReadsOnly {V H} (fs : NfsFileSystem V H) : Prop := {
  ro_capabilities : reads vfs_capabilities;
  ro_getattr_reads : forall id, reads (vfs_getattr id);
  ro_lookup : forall id name, reads (vfs_lookup id name);
  ro_read : forall id offset count, reads (vfs_read id offset count);
  ro_readlink : forall id, reads (vfs_readlink id);
  ro_fsinfo : forall id, reads (vfs_fsinfo id);
  ro_readdir : forall id cookie, reads (vfs_readdir id cookie);
  ro_readdirplus : forall id cookie, reads (vfs_readdirplus id cookie);
  ro_next : forall i, reads (it_next readdir_iter i);
  ro_next_plus : forall i, reads (it_next readdirplus_iter i);
  ro_drop : forall i, reads (it_drop readdir_iter i);
  ro_drop_plus : forall i, reads (it_drop readdirplus_iter i);
}.

#[export] Hint Resolve ro_capabilities ro_getattr_reads ro_lookup ro_read ro_readlink ro_fsinfo ro_readdir ro_readdirplus
  ro_next ro_next_plus ro_drop ro_drop_plus : linear.

(** ** One point in time *)

Section linear.
Context {V H : Type} `{!FileHandle H} (fs : NfsFileSystem V H) (fhc : FileHandleConverter).
Implicit Types s : Shared V.

(** Whether a method succeeded. *)
Definition void {B} (m : vfs_method V B) : vfs_method V unit :=
  do* r := m in pret (result_map (fun _ => tt) r).

Lemma void_run {B} (m : vfs_method V B) v :
  void m v = (match fst (m v) with
              | Ret r => Ret (result_map (fun _ => tt) r)
              | Panic => Panic
              | OutOfFuel => OutOfFuel
              end, snd (m v)).
Proof. unfold void, pbind. by destruct (m v) as [[]]. Qed.

(** The answer [a] of a procedure says that its method gave [r]. *)
Definition tells {A E} (r : outcome (result unit nfsstat3)) (a : outcome (Nfs3Result A E)) : Prop :=
  match a with
  | Ret (NfsOk _) => r = Ret (Ok tt)
  | Ret (NfsErr stat _) => r = Ret (Err stat)
  | _ => True
  end.

(** The writing procedure [m] either writes nothing, and then does not succeed,
    or at one point between its start and its end runs one of [calls], and
    answers what that call gave; all else that happens is the others'. *)
Definition linear {A E} (calls : vfs_method V unit -> Prop) (m : prog (Shared V) (Nfs3Result A E)) : Prop :=
  forall s, let '(o, s') := m s in
    (only_others s s' /\ forall a, o <> Ret (NfsOk a)) \/
    exists call s1, calls call /\ only_others s s1 /\
      only_others (mkShared (snd (call (sh_now s1))) (sh_others s1)) s' /\
      tells (fst (call (sh_now s1))) o.

Lemma linear_refused {A E} calls stat (e : E) : linear calls (pret (NfsErr stat e) : prog (Shared V) (Nfs3Result A E)).
Proof. intros s. left. split; [apply only_others_refl|done]. Qed.

Lemma linear_bind {A E B} calls (m : prog (Shared V) B) (k : B -> prog (Shared V) (Nfs3Result A E)) :
  quiet m -> (forall b, linear calls (k b)) -> linear calls (pbind m k).
Proof.
  intros Hm Hk s. unfold pbind. specialize (Hm s). destruct (m s) as [[b| |] s1]; [|by left..].
  specialize (Hk b s1). destruct (k b s1) as [o s']. destruct Hk as [[H1 H2]|(call & s2 & Hc & H1 & H2)].
  - left. split; [by eapply only_others_trans|done].
  - right. exists call, s2. split; [done|]. split; [by eapply only_others_trans|done].
Qed.

(** What a procedure answers after its method gave [r]. *)
Definition answers {B A E} (r : result B nfsstat3) (m : prog (Shared V) (Nfs3Result A E)) : Prop :=
  quiet m /\ forall s, tells (Ret (result_map (fun _ => tt) r)) (fst (m s)).

Lemma answers_ok {B A E} (b : B) (a : A) : answers (Ok b) (pret (NfsOk a) : prog (Shared V) (Nfs3Result A E)).
Proof. split; [apply quiet_pret|done]. Qed.

Lemma answers_err {B A E} stat (e : E) : answers (Err stat : result B nfsstat3) (pret (NfsErr stat e) : prog (Shared V) (Nfs3Result A E)).
Proof. split; [apply quiet_pret|done]. Qed.

Lemma answers_bind {B A E C} (r : result B nfsstat3) (m : prog (Shared V) C) (k : C -> prog (Shared V) (Nfs3Result A E)) :
  quiet m -> (forall c, answers r (k c)) -> answers r (pbind m k).
Proof.
  intros Hm Hk. split; [apply quiet_bind; [done|intros c; apply Hk]|].
  intros s. unfold pbind. destruct (m s) as [[c| |] s1]; [apply Hk|done..].
Qed.

Lemma answers_pret_bind {B A E C} (r : result B nfsstat3) (c : C) (k : C -> prog (Shared V) (Nfs3Result A E)) :
  answers r (k c) -> answers r (pbind (pret c) k).
Proof. done. Qed.

Lemma linear_call {A E B} (calls : vfs_method V unit -> Prop) (m : vfs_method V B)
  (k : result B nfsstat3 -> prog (Shared V) (Nfs3Result A E)) :
  calls (void m) -> (forall r, answers r (k r)) -> linear calls (pbind (yielding m) k).
Proof.
  intros Hm Hk s. unfold pbind. destruct (yielding_run m s) as (s1 & H1 & ->). pose proof (void_run m (sh_now s1)) as Hv.
  destruct (m (sh_now s1)) as [[r| |] v] eqn:Em; cbn [fst snd] in *.
  - destruct (Hk r) as [Hq Ht]. specialize (Hq (mkShared v (sh_others s1))). specialize (Ht (mkShared v (sh_others s1))).
    destruct (k r _) as [o s']. right. exists (void m), s1. by rewrite Hv.
  - right. exists (void m), s1. rewrite Hv. split_and!; try done. apply only_others_refl.
  - right. exists (void m), s1. rewrite Hv. split_and!; try done. apply only_others_refl.
Qed.

Lemma linear_same {A E} calls (m m' : prog (Shared V) (Nfs3Result A E)) :
  (forall s, m s = m' s) -> linear calls m' -> linear calls m.
Proof. intros Hm Hl s. rewrite Hm. apply Hl. Qed.

Lemma linear_assoc {A E B C} calls (m : prog (Shared V) B) (k : B -> prog (Shared V) C) (k' : C -> prog (Shared V) (Nfs3Result A E)) :
  linear calls (pbind m (fun b => pbind (k b) k')) -> linear calls (pbind (pbind m k) k').
Proof. apply linear_same. intros s. apply pbind_assoc. Qed.

(** ** The pieces of the procedures *)

Context (Hfs : ReadsOnly fs).

Lemma quiet_getattr_opt id : quiet (getattr_opt (Interleaved fs) id).
Proof. apply quiet_bind; cbn; eauto with linear. Qed.

Lemma quiet_get_wcc_attr id : quiet (get_wcc_attr (Interleaved fs) id).
Proof. apply quiet_bind; cbn; eauto with linear. Qed.

Lemma quiet_guarded_exists how id name : quiet (guarded_exists (Interleaved fs) how id name).
Proof. destruct how; cbn; try apply quiet_bind; cbn; eauto with linear. Qed.

Lemma quiet_fh_to_id {A E} fh (dflt : E) (k : H -> prog (Shared V) (Nfs3Result A E)) :
  (forall id, quiet (k id)) -> quiet (fh_to_id fhc fh dflt k).
Proof. intros Hk. unfold fh_to_id. destruct (fh_from_nfs fhc fh); [done|apply quiet_pret]. Qed.

Lemma linear_fh_to_id {A E} calls fh (dflt : E) (k : H -> prog (Shared V) (Nfs3Result A E)) :
  (forall id, fh_from_nfs fhc fh = Ok id -> linear calls (k id)) -> linear calls (fh_to_id fhc fh dflt k).
Proof. intros Hk. unfold fh_to_id. destruct (fh_from_nfs fhc fh); [by apply Hk|apply linear_refused]. Qed.

Lemma linear_require_write {A E} calls (dflt : E) (k : prog (Shared V) (Nfs3Result A E)) :
  linear calls k -> linear calls (require_write (Interleaved fs) dflt k).
Proof.
  intros Hk. apply linear_bind; [cbn; eauto with linear|]. intros [|]; [apply linear_refused|done].
Qed.

Lemma quiet_fill_loop {T L} (it : Iterator V T) (push : T -> L -> bool * L) fuel i l :
  (forall i, reads (it_next it i)) -> quiet (fill_loop (yielding_iterator it) push fuel i l).
Proof.
  intros Hn. revert i l. induction fuel as [|fuel IH]; intros i l; [intros s; apply only_others_refl|].
  cbn [fill_loop]. apply quiet_bind; [cbn; eauto with linear|]. intros [[e| |] i']; [|apply quiet_pret..].
  destruct (push e l) as [[] l']; [apply IH|apply quiet_pret].
Qed.

Lemma quiet_fill_readdir {L} (push : entry3 -> L -> bool * L) fuel (i : it_state (readdir_iter (NfsReadFileSystem := InterleavedRead nfs_read_fs))) l :
  quiet (fill_loop (readdir_iter (NfsReadFileSystem := InterleavedRead nfs_read_fs)) push fuel i l).
Proof. apply quiet_fill_loop. eauto with linear. Qed.

Lemma quiet_fill_readdirplus {L} (push : DirEntryPlus H -> L -> bool * L) fuel (i : it_state (readdirplus_iter (NfsReadFileSystem := InterleavedRead nfs_read_fs))) l :
  quiet (fill_loop (readdirplus_iter (NfsReadFileSystem := InterleavedRead nfs_read_fs)) push fuel i l).
Proof. apply quiet_fill_loop. eauto with linear. Qed.
End linear.

#[export] Hint Resolve quiet_getattr_opt quiet_get_wcc_attr quiet_guarded_exists quiet_fill_loop linear_refused answers_ok answers_err : linear.

Section procedures.
Context {V H : Type} `{!FileHandle H} (fs : NfsFileSystem V H) (fhc : FileHandleConverter) (Hfs : ReadsOnly fs).

(** The procedures that only read. *)
Definition reading (proc : NFS_PROGRAM) : bool :=
  match proc with
  | NFSPROC3_SETATTR | NFSPROC3_WRITE | NFSPROC3_CREATE | NFSPROC3_MKDIR | NFSPROC3_SYMLINK | NFSPROC3_REMOVE
  | NFSPROC3_RMDIR | NFSPROC3_RENAME => false
  | _ => true
  end.

(** One step of a procedure. *)
Ltac linear_step :=
  match goal with
  | |- quiet (fh_to_id _ _ _ _) => apply quiet_fh_to_id; intros ?
  | |- linear _ (fh_to_id _ _ _ _) => apply linear_fh_to_id; intros ? ?
  | |- linear _ (require_write _ _ _) => apply linear_require_write; [done|]
  | |- quiet (pbind (fill_loop _ _ _ _ _) _) =>
      apply quiet_bind; [first [apply quiet_fill_readdir | apply quiet_fill_readdirplus]; exact Hfs|intros ?]
  | |- quiet (pbind _ _) => apply quiet_bind; [solve [cbn; eauto with linear]|intros ?]
  | |- answers _ (pbind (pret _) _) => apply answers_pret_bind; cbv beta iota
  | |- answers _ (pbind _ _) => apply answers_bind; [solve [cbn; eauto with linear]|intros ?]
  | |- linear _ (pbind (pbind _ _) _) => apply linear_assoc
  | |- linear _ (pbind _ _) => apply linear_bind; [solve [cbn; eauto with linear]|intros ?]
  | |- linear _ (pbind _ _) => cbn [Interleaved vfs_setattr vfs_write vfs_create vfs_create_exclusive vfs_mkdir vfs_remove vfs_rename vfs_symlink]; apply linear_call; [|intros [?|?]]
  | |- _ (match ?r with _ => _ end) => destruct r eqn:?
  | |- _ (if ?r then _ else _) => destruct r eqn:?
  end.

Ltac linear_proc := repeat linear_step; eauto with linear.

Lemma reading_quiet {C R} proc (cc : codec C) (cr : codec R) f xid args :
  implements (Interleaved fs) fhc proc cc cr f -> reading proc = true -> quiet (f xid args).
Proof.
  intros Hi Hr. destruct Hi; try done.
  - apply quiet_pret.
  - unfold nfsproc3_getattr. linear_proc.
  - unfold nfsproc3_lookup. linear_proc.
  - unfold nfsproc3_access. linear_proc.
  - unfold nfsproc3_readlink. linear_proc.
  - unfold nfsproc3_read. linear_proc.
  - unfold nfsproc3_readdir. linear_proc.
  - unfold nfsproc3_readdirplus. linear_proc.
  - unfold nfsproc3_fsstat. linear_proc.
  - unfold nfsproc3_fsinfo. linear_proc.
  - unfold nfsproc3_pathconf. linear_proc.
Qed.

(** The calls of a writing procedure. *)
Definition call_write (a : WRITE3args) (call : vfs_method V unit) : Prop := exists id,
  fh_from_nfs fhc (WRITE3args_file a) = Ok id /\
  call = void (vfs_write id (WRITE3args_offset a) (WRITE3args_data a)).

Definition call_setattr (a : SETATTR3args) (call : vfs_method V unit) : Prop := exists id,
  fh_from_nfs fhc (SETATTR3args_object a) = Ok id /\
  call = void (vfs_setattr id (SETATTR3args_new_attributes a)).

Definition call_create (a : CREATE3args) (call : vfs_method V unit) : Prop := exists id,
  let name := diropargs3_name (CREATE3args_where_ a) in
  fh_from_nfs fhc (diropargs3_dir (CREATE3args_where_ a)) = Ok id /\
  call = match CREATE3args_how a with
         | UNCHECKED attr | GUARDED attr => void (vfs_create id name attr)
         | EXCLUSIVE verf => void (vfs_create_exclusive id name verf)
         end.

Definition call_mkdir (a : MKDIR3args) (call : vfs_method V unit) : Prop := exists id,
  fh_from_nfs fhc (diropargs3_dir (MKDIR3args_where_ a)) = Ok id /\
  call = void (vfs_mkdir id (diropargs3_name (MKDIR3args_where_ a))).

Definition call_symlink (a : SYMLINK3args) (call : vfs_method V unit) : Prop := exists id,
  fh_from_nfs fhc (diropargs3_dir (SYMLINK3args_where_ a)) = Ok id /\
  call = void (vfs_symlink id (diropargs3_name (SYMLINK3args_where_ a))
                 (symlinkdata3_symlink_data (SYMLINK3args_symlink a))
                 (symlinkdata3_symlink_attributes (SYMLINK3args_symlink a))).

Definition call_remove (a : REMOVE3args) (call : vfs_method V unit) : Prop := exists id,
  fh_from_nfs fhc (diropargs3_dir (REMOVE3args_object a)) = Ok id /\
  call = void (vfs_remove id (diropargs3_name (REMOVE3args_object a))).

Definition call_rename (a : RENAME3args) (call : vfs_method V unit) : Prop := exists from_id to_id,
  fh_from_nfs fhc (diropargs3_dir (RENAME3args_from a)) = Ok from_id /\
  fh_from_nfs fhc (diropargs3_dir (RENAME3args_to a)) = Ok to_id /\
  call = void (vfs_rename from_id (diropargs3_name (RENAME3args_from a)) to_id (diropargs3_name (RENAME3args_to a))).

Lemma write_linear xid a : linear (call_write a) (nfsproc3_write (Interleaved fs) fhc xid a).
Proof. unfold nfsproc3_write. linear_proc. by eexists. Qed.

Lemma setattr_linear xid a : linear (call_setattr a) (nfsproc3_setattr (Interleaved fs) fhc xid a).
Proof. unfold nfsproc3_setattr. linear_proc. by eexists. Qed.

Lemma mkdir_linear xid a : linear (call_mkdir a) (nfsproc3_mkdir (Interleaved fs) fhc xid a).
Proof. unfold nfsproc3_mkdir. linear_proc. by eexists. Qed.

Lemma symlink_linear xid a : linear (call_symlink a) (nfsproc3_symlink (Interleaved fs) fhc xid a).
Proof. unfold nfsproc3_symlink. linear_proc. by eexists. Qed.

Lemma remove_linear xid a : linear (call_remove a) (nfsproc3_remove (Interleaved fs) fhc xid a).
Proof. unfold nfsproc3_remove. linear_proc. by eexists. Qed.

Lemma rename_linear xid a : linear (call_rename a) (nfsproc3_rename (Interleaved fs) fhc xid a).
Proof. unfold nfsproc3_rename. linear_proc. by do 2 eexists. Qed.

Lemma create_linear xid a : linear (call_create a) (nfsproc3_create (Interleaved fs) fhc xid a).
Proof.
  unfold nfsproc3_create. do 3 linear_step. destruct b; [|eauto with linear].
  apply linear_bind; [eauto with linear|intros []].
  { linear_proc. }
  destruct (CREATE3args_how a) eqn:Eh; apply linear_assoc; linear_proc; try (eexists; by rewrite Eh); by destruct a1.
Qed.

(** C5: Every procedure takes effect at one point. While a procedure runs, other
    tasks may do anything to the file system between two of its method calls.
    Over a file system whose reading methods change nothing, a reading procedure
    changes nothing of its own; a writing procedure either answers an error and
    has changed nothing, or ran its one writing method, with the arguments that
    were decoded, at one point between its start and its end: what the others did
    before that point comes before it, the rest after it, and the procedure
    answers success or the status exactly as that method did there. *)
Theorem procedures_linearize xid :
  (forall C R proc (cc : codec C) (cr : codec R) f args, implements (Interleaved fs) fhc proc cc cr f ->
     reading proc = true -> quiet (f xid args)) /\
  (forall a, linear (call_write a) (nfsproc3_write (Interleaved fs) fhc xid a)) /\
  (forall a, linear (call_setattr a) (nfsproc3_setattr (Interleaved fs) fhc xid a)) /\
  (forall a, linear (call_create a) (nfsproc3_create (Interleaved fs) fhc xid a)) /\
  (forall a, linear (call_mkdir a) (nfsproc3_mkdir (Interleaved fs) fhc xid a)) /\
  (forall a, linear (call_symlink a) (nfsproc3_symlink (Interleaved fs) fhc xid a)) /\
  (forall a, linear (call_remove a) (nfsproc3_remove (Interleaved fs) fhc xid a)) /\
  (forall a, linear (call_rename a) (nfsproc3_rename (Interleaved fs) fhc xid a)).
Proof.
  split_and!; intros; [by eapply reading_quiet|apply write_linear|apply setattr_linear|apply create_linear
    |apply mkdir_linear|apply symlink_linear|apply remove_linear|apply rename_linear].
Qed.
End procedures.

(** ** What is not part of that point *)

Section races.
Context {V H : Type} `{!FileHandle H} `{!FileHandleLaws H} (fs : NfsFileSystem V H) (fhc : FileHandleConverter).

(** The guard of SETATTR is compared with the attributes of the file before the
    others' last burst [g]: it does not protect against what [g] changes, and the
    attributes before and after that the reply carries span it. *)
Theorem setattr_guard_races xid id new a a' r v g :
  vfs_capabilities v = (Ret ReadWrite, v) ->
  vfs_getattr id v = (Ret (Ok a), v) ->
  vfs_setattr id new (g v) = (Ret (Ok a'), r) -> converter_wf fhc ->
  nfsproc3_setattr (Interleaved fs) fhc xid
    (mk_SETATTR3args (fh_to_nfs fhc id) new (Some (fattr3_ctime a))) (mkShared v [fun v => v; fun v => v; g]) =
  (Ret (NfsOk (mk_SETATTR3resok
     (mk_wcc_data (Some (mk_wcc_attr (fattr3_size a) (fattr3_mtime a) (fattr3_ctime a))) (Some a')))), mkShared r []).
Proof.
  intros Hc Hg Hs Hwf. unfold nfsproc3_setattr, require_write, pbind at 1. cbn [vfs_capabilities Interleaved].
  unfold yielding at 1. cbn [sh_now sh_others SETATTR3args_object]. rewrite Hc. cbv beta iota.
  rewrite (fh_to_id_ok _ _ _ _ _ (fh_from_to_nfs fhc id Hwf)).
  unfold get_wcc_attr, pbind at 1 2. cbn [vfs_getattr InterleavedRead Interleaved nfs_read_fs].
  unfold yielding at 1. cbn [sh_now sh_others]. rewrite Hg. cbn [pret result_map SETATTR3args_guard wcc_attr_ctime].
  rewrite bool_decide_eq_true_2 by done. cbn [negb]. unfold pbind at 1. cbn [vfs_setattr Interleaved].
  unfold yielding at 1. cbn [sh_now sh_others SETATTR3args_new_attributes]. by rewrite Hs.
Qed.
End races.
