(* ===== verification/MemFsConcurrent.v ===== *)
(** * The in-memory file system under concurrent calls

    The methods of [MemFs] take its lock for each critical section.  Reading
    methods, [setattr], [write], [remove] and [rename] have one; [mkdir] and
    [create] draw an id and read the clock before theirs; and the procedures
    MKDIR and RENAME read the attributes of the directories before they call the
    method.  [world_moves] interleaves these pieces for any number of calls.  The table
    stays a tree and no id is used twice, provided that no directory is removed
    between the two halves of a RENAME of a file into it: then the file is lost
    ([rename_race_loses_file]). *)

From stdpp Require Import gmap sets.
From S2P Require Import Prelude Xdr XdrLaws Nfs3Types Handle Vfs NfsHandlers NfsHandlersLaws Validity Concurrent.
From S2P Require Import MemFs MemFsTree MemFsLaws MemFsTheorems MemFsProperties.
Open Scope Z_scope.
Open Scope nfs_scope.

Section hash.
Context `{HashSetOrder}.

(** ** Reading changes nothing *)

Lemma with_read_reads {A} (k : Fs -> outcome A) : reads (with_read k).
Proof. intros m. unfold with_read. by destruct (mf_poisoned m). Qed.

Lemma reads_map {V A B} (m : prog V A) (f : A -> B) : reads m -> reads (do* a := m in pret (f a)).
Proof. intros Hm v. unfold pbind. specialize (Hm v). destruct (m v) as [[] v']; exact Hm. Qed.

Lemma memfs_next_reads {R} (visit : Z -> Entry -> R) ids : reads (memfs_next visit ids).
Proof. destruct ids; [done|]. apply with_read_reads. Qed.

#[export] Instance memfs_reads_only `{Target} : ReadsOnly memfs_file_system.
Proof.
  split; intros; try (by apply with_read_reads); try (by apply memfs_next_reads); try done;
    apply reads_map, with_read_reads.
Qed.

(** ** The pieces *)

(** [add_dir] and [add_file] before their critical section. *)
Definition draw_dir (dirid : Z) (dirname : filename3) : prog MemFs Entry :=
  do* newid := fetch_nextid in
  do* now := current_time in
  pret (EDir (dir_new dirname newid dirid now)).

Definition draw_file (filename : filename3) (attr : sattr3) (verf : option createverf3) : prog MemFs Entry :=
  do* newid := fetch_nextid in
  do* now := current_time in
  set_attr_here attr (EFile (file_new filename newid [] (default createverf_default verf) now)).

Lemma add_dir_pieces d name m :
  memfs_add_dir d name m =
  (do* e := draw_dir d name in
   do* r := with_write (fs_push d e) in
   pret (result_map (fun _ => (entry_fileid e, entry_attr e)) r)) m.
Proof. reflexivity. Qed.

(** A call between two of its pieces: MKDIR and RENAME that have read the
    attributes of the directories, MKDIR and CREATE that have drawn an id. *)
Inductive Task : Type :=
| MkdirStat (dirid : Z) (name : filename3)
| MkdirDrawn (dirid : Z) (dir : Entry)
| CreateDrawn (dirid : Z) (file : Entry) (verf : option createverf3)
| RenameStat (from_dirid : Z) (from : filename3) (to_dirid : Z) (to : filename3).

Record World : Type := mkWorld {
  w_memfs : MemFs;
  w_tasks : list Task;
}.

(** The operations that are one critical section. *)
Definition one_section (op : MemFsOp) : Prop :=
  match op with
  | OpCreate _ _ _ | OpCreateExclusive _ _ _ | OpConfigFile _ _ _ | OpMkdir _ _ | OpRename _ _ _ _ => False
  | _ => True
  end.

(** The size a client gives fits in a [Vec]. *)
Definition size_fits (attr : sattr3) : Prop :=
  size_ok attr /\ match sattr3_size attr with Some s => s <= isize_MAX | None => True end.

(** Renaming a file into a directory that is gone is left out here. *)
Definition target_there (f : Fs) (from_dirid : Z) (from : filename3) (to_dirid : Z) : Prop :=
  is_Some (fs_get f to_dirid) \/ forall file, fs_lookup f from_dirid from <> Ok (EFile file).

Inductive world_moves : World -> World -> Prop :=
| step_op op m ts :
    one_section op -> op_pre op m -> op_fits op -> world_moves (mkWorld m ts) (mkWorld (snd (run_op op m)) ts)
| step_mkdir_stat d name a m ts :
    memfs_getattr d m = (Ret (Ok a), m) -> world_moves (mkWorld m ts) (mkWorld m (MkdirStat d name :: ts))
| step_mkdir_draw i d name e m m' ts :
    ts !! i = Some (MkdirStat d name) -> mf_nextid m < u64_MAX -> draw_dir d name m = (Ret e, m') ->
    world_moves (mkWorld m ts) (mkWorld m' (MkdirDrawn d e :: delete i ts))
| step_mkdir_push i d e m ts :
    ts !! i = Some (MkdirDrawn d e) ->
    world_moves (mkWorld m ts) (mkWorld (snd (with_write (fs_push d e) m)) (delete i ts))
| step_create_draw d name attr verf e m m' ts :
    size_fits attr -> mf_nextid m < u64_MAX -> draw_file name attr verf m = (Ret e, m') ->
    world_moves (mkWorld m ts) (mkWorld m' (CreateDrawn d e verf :: ts))
| step_create_insert i d e verf m ts :
    ts !! i = Some (CreateDrawn d e verf) ->
    world_moves (mkWorld m ts)
      (mkWorld (snd (with_write (insert_file d (entry_fileid e) e (entry_attr e) verf) m)) (delete i ts))
| step_rename_stat d from q to a a' m ts :
    memfs_getattr d m = (Ret (Ok a), m) -> memfs_getattr q m = (Ret (Ok a'), m) ->
    world_moves (mkWorld m ts) (mkWorld m (RenameStat d from q to :: ts))
| step_rename i d from q to m ts :
    ts !! i = Some (RenameStat d from q to) -> ~ special from -> target_there (mf_fs m) d from q ->
    world_moves (mkWorld m ts) (mkWorld (snd (memfs_rename d from q to m)) (delete i ts)).

Inductive world_reachable (clock : nat -> nfstime3) : World -> Prop :=
| world_start : world_reachable clock (mkWorld (memfs_default clock) [])
| world_step w w' : world_reachable clock w -> world_moves w w' -> world_reachable clock w'.

(** ** The invariant *)

(** The id a task has drawn. *)
Definition task_id (t : Task) : option Z :=
  match t with
  | MkdirDrawn _ e | CreateDrawn _ e _ => Some (entry_fileid e)
  | _ => None
  end.

Definition task_ok (next : Z) (t : Task) : Prop :=
  match t with
  | MkdirStat d _ => d < next
  | MkdirDrawn d e => 0 < entry_fileid e < next /\ entry_fileid e <> d /\ new_entry d e
  | CreateDrawn d e _ => 0 < entry_fileid e < next /\ new_entry d e /\ exists file, e = EFile file
  | RenameStat _ _ _ _ => True
  end.

Record world_inv (w : World) : Prop := {
  wi_memfs : memfs_inv (w_memfs w);
  wi_poisoned : mf_poisoned (w_memfs w) = false;
  wi_next : 1 <= mf_nextid (w_memfs w) <= u64_MAX;
  wi_table : forall i, is_Some (fs_get (mf_fs (w_memfs w)) i) -> 0 < i < mf_nextid (w_memfs w);
  wi_tasks : Forall (task_ok (mf_nextid (w_memfs w))) (w_tasks w);
  (** the drawn ids are different, and not in the table *)
  wi_distinct : NoDup (omap task_id (w_tasks w));
  wi_fresh : forall t i, t ∈ w_tasks w -> task_id t = Some i -> fs_get (mf_fs (w_memfs w)) i = None;
}.

(** ** What the pieces do to the ids in the table *)

Definition ids_within (f f' : Fs) : Prop := forall i, is_Some (fs_get f' i) -> is_Some (fs_get f i).

Lemma ids_refl f : ids_within f f.
Proof. by intros i. Qed.

Lemma ids_trans f1 f2 f3 : ids_within f1 f2 -> ids_within f2 f3 -> ids_within f1 f3.
Proof. intros H1 H2 i Hi. by apply H1, H2. Qed.

Lemma ids_set f f1 i e e' : ids_within f f1 -> fs_get f1 i = Some e -> ids_within f (fs_set i e' f1).
Proof. intros Hf E j. rewrite fs_get_set. destruct (decide (i = j)) as [<-|]; [intros _; by apply Hf; rewrite E|apply Hf]. Qed.

Lemma ids_del f i : ids_within f (fs_del i f).
Proof. intros j. rewrite fs_get_del. destruct (decide (i = j)); [by intros [? [=]]|done]. Qed.

Lemma ids_remove d name f : ids_within f (snd (fs_remove d name f)).
Proof.
  unfold fs_remove. repeat case_match; simplify_eq; cbn [snd]; eauto using ids_refl, ids_del.
  all: by eapply ids_set; [apply ids_del|].
Qed.

Lemma ids_replace e q to f : ids_within f (snd (rename_replace e q to f)).
Proof. unfold rename_replace. repeat case_match; eauto using ids_refl, ids_remove. Qed.

Lemma ids_move d i q to f : ids_within f (snd (rename_move d i q to f)).
Proof.
  unfold rename_move. repeat case_match; cbn [snd]; simplify_eq; eauto 8 using ids_refl, ids_set.
Qed.

Lemma ids_rename d from q to f : ids_within f (snd (fs_rename d from q to f)).
Proof.
  unfold fs_rename. destruct (fs_lookup f d from) as [e|]; [|apply ids_refl].
  destruct (_ && _); [apply ids_refl|]. pose proof (ids_replace e q to f) as Hr.
  destruct (rename_replace e q to f) as [[[u|err]| |] f1]; cbn [snd] in *; try done.
  destruct (match e with EFile _ => _ | EDir _ => _ end) as [[err|]| |]; cbn [snd]; try done.
  eapply ids_trans; [exact Hr|apply ids_move].
Qed.

Lemma ids_push p e f i :
  is_Some (fs_get (snd (fs_push p e f)) i) -> i = entry_fileid e \/ is_Some (fs_get f i).
Proof.
  unfold fs_push. repeat case_match; cbn [snd]; rewrite ?fs_get_del, ?fs_get_set; repeat case_decide; subst; auto.
  all: match goal with E : fs_get (fs_set _ _ _) _ = _ |- _ => rewrite fs_get_set in E end.
  all: case_decide; [by left|right; by eexists].
Qed.

(** ** Every step keeps the invariant *)

Lemma with_write_run {A} (k : Fs -> outcome A * Fs) m a :
  mf_poisoned m = false -> fst (k (mf_fs m)) = Ret a ->
  with_write k m = (Ret a, mf_set_fs (snd (k (mf_fs m))) m).
Proof. intros Hp E. unfold with_write. rewrite Hp. by destruct (k (mf_fs m)) as [[]]; simplify_eq/=. Qed.

(** A critical section, after which the ids in the table are old or [added]. *)
Lemma inv_section (added : Z -> Prop) m m' ts ts' :
  world_inv (mkWorld m ts) -> memfs_inv m' -> mf_poisoned m' = false -> mf_nextid m' = mf_nextid m ->
  (forall i, is_Some (fs_get (mf_fs m') i) -> added i \/ is_Some (fs_get (mf_fs m) i)) ->
  (forall i, added i -> 0 < i < mf_nextid m /\ i ∉ omap task_id ts') ->
  ts' ⊆ ts -> NoDup (omap task_id ts') -> world_inv (mkWorld m' ts').
Proof.
  intros [Hi Hp Hn Ht Hts Hd Hf] Hi' Hp' Hn' Hids Hadd Hsub Hd'. cbn in *.
  split; cbn; rewrite ?Hn'; try done.
  - intros i [Ha|Hg]%Hids; [by apply Hadd|by apply Ht].
  - apply Forall_forall. intros t Hin. rewrite Forall_forall in Hts. auto.
  - intros t i Hin Hti. specialize (Hf t i (Hsub _ Hin) Hti). destruct (fs_get (mf_fs m') i) eqn:E; [|done].
    destruct (Hids i) as [Ha|[? ?]]; [by eexists| |congruence].
    destruct (Hadd i Ha) as [_ []]. apply list_elem_of_omap. by exists t.
Qed.

Lemma delete_subset {A} (l : list A) i : delete i l ⊆ l.
Proof. apply sublist_subseteq, sublist_delete. Qed.

Lemma omap_delete_sublist {A B} (f : A -> option B) l i : omap f (delete i l) `sublist_of` omap f l.
Proof.
  revert i. induction l as [|x l IH]; intros [|i]; cbn; [constructor..| |].
  - destruct (f x); [by constructor|done].
  - destruct (f x); [constructor; apply IH|apply IH].
Qed.

Lemma omap_delete_nodup {A B} (f : A -> option B) l i : NoDup (omap f l) -> NoDup (omap f (delete i l)).
Proof. intros Hd. eapply sublist_NoDup; [exact Hd|apply omap_delete_sublist]. Qed.

(** What an operation with one section does not change. *)
Definition same_ids (m m' : MemFs) : Prop :=
  mf_nextid m' = mf_nextid m /\ ids_within (mf_fs m) (mf_fs m').

Lemma same_ids_refl m : same_ids m m.
Proof. split; [done|apply ids_refl]. Qed.

Lemma with_write_ids {A} (k : Fs -> outcome A * Fs) m :
  ids_within (mf_fs m) (snd (k (mf_fs m))) -> same_ids m (snd (with_write k m)).
Proof.
  intros Hk. unfold with_write. destruct (mf_poisoned m); [apply same_ids_refl|].
  by destruct (k (mf_fs m)) as [[] f].
Qed.

Lemma forget_snd {A} (r : outcome A * MemFs) : snd (forget r) = snd r.
Proof. done. Qed.

Lemma one_section_ids op m : one_section op -> same_ids m (snd (run_op op m)).
Proof.
  assert (forall A (k : Fs -> outcome A) m, same_ids m (snd (with_read k m))) as Hr.
  { intros A k m0. rewrite (with_read_reads k m0). apply same_ids_refl. }
  intros Ho. destruct op; try done; cbn [run_op]; rewrite forget_snd; try apply Hr.
  - unfold memfs_next. destruct ids; [apply same_ids_refl|apply Hr].
  - unfold memfs_setattr. destruct (mf_poisoned m); [apply same_ids_refl|].
    destruct (fs_get (mf_fs m) id) as [e|] eqn:E; [|apply same_ids_refl].
    destruct (set_attr _ _ _ _) as [[o e'] ticks]. apply (with_write_ids _ (mf_set_ticks ticks m)).
    by eapply ids_set; [apply ids_refl|].
  - apply with_write_ids. destruct (fs_get (mf_fs m) id) as [[file|]|] eqn:E; try apply ids_refl.
    destruct (file_write _ _ _) as [o file']. by eapply ids_set; [apply ids_refl|].
  - apply with_write_ids, ids_remove.
Qed.

(** The directory of a rename is gone and its source is not a file: nothing happens. *)
Lemma rename_no_target d from q to f :
  fs_get f q = None -> (forall file, fs_lookup f d from <> Ok (EFile file)) -> fs_wf f ->
  exists r, fs_rename d from q to f = (Ret r, f).
Proof.
  intros Hq Hf W. unfold fs_rename. destruct (fs_lookup f d from) as [[file|dir]|stat] eqn:El; [by destruct (Hf file)| |by eexists].
  destruct (_ && _); [by eexists|]. unfold rename_replace, fs_lookup at 1. rewrite Hq. unfold ancestor_fuel.
  cbn [ancestor_loop]. destruct (q =? _); [by eexists|]. rewrite Hq. by eexists.
Qed.

Lemma rename_total d from q to m :
  memfs_inv m -> mf_poisoned m = false -> ~ special from -> target_there (mf_fs m) d from q ->
  memfs_inv (snd (memfs_rename d from q to m)) /\ mf_poisoned (snd (memfs_rename d from q to m)) = false /\
  same_ids m (snd (memfs_rename d from q to m)).
Proof.
  intros Hi Hp Hs Ht. assert (same_ids m (snd (memfs_rename d from q to m))) as Hids by apply with_write_ids, ids_rename.
  destruct (fs_get (mf_fs m) q) as [e|] eqn:Eq.
  - destruct (rename_ok d from q to m Hi Hs) as [Hi' Hp']; [by eexists|]. by destruct (Hp' Hp I).
  - destruct Ht as [[? ?]|Ht]; [congruence|]. destruct (rename_no_target d from q to _ Eq Ht (proj1 Hi)) as [r Er].
    unfold memfs_rename, with_write in *. rewrite Hp, Er in *. by destruct m.
Qed.

Lemma inv_same_ids m m' ts ts' :
  world_inv (mkWorld m ts) -> memfs_inv m' -> mf_poisoned m' = false -> same_ids m m' ->
  ts' ⊆ ts -> NoDup (omap task_id ts') -> world_inv (mkWorld m' ts').
Proof.
  intros Hw Hi' Hp' [Hn Hids] Hsub Hd. eapply (inv_section (fun _ => False)); eauto. done.
Qed.

(** The critical section of the task [t], which may add the id it has drawn. *)
Lemma inv_insert i t id m m' ts :
  world_inv (mkWorld m ts) -> ts !! i = Some t -> task_id t = Some id -> id < mf_nextid m -> 0 < id ->
  memfs_inv m' -> mf_poisoned m' = false -> mf_nextid m' = mf_nextid m ->
  (forall j, is_Some (fs_get (mf_fs m') j) -> j = id \/ is_Some (fs_get (mf_fs m) j)) ->
  world_inv (mkWorld m' (delete i ts)).
Proof.
  intros Hw Hi Hid H1 H2 Hm Hp Hn Hids. pose proof (wi_distinct _ Hw) as Hd. cbn in Hd.
  eapply (inv_section (fun j => j = id)); eauto using delete_subset, omap_delete_nodup.
  intros j ->. split; [done|]. rewrite (delete_Permutation _ _ _ Hi) in Hd. cbn in Hd. rewrite Hid in Hd.
  by apply NoDup_cons in Hd as [? _].
Qed.

(** A task that draws its id. *)
Lemma inv_draw t ticks m ts ts' :
  world_inv (mkWorld m ts) -> mf_nextid m < u64_MAX ->
  task_id t = Some (mf_nextid m) -> task_ok (mf_nextid m + 1) t ->
  ts' ⊆ ts -> NoDup (omap task_id ts') -> world_inv (mkWorld (drawn ticks m) (t :: ts')).
Proof.
  intros [Hi Hp Hn Ht Hts Hd Hf] Hlt Hid Hok Hsub Hd'. cbn in *.
  assert ((mf_nextid m + 1) mod 2 ^ 64 = mf_nextid m + 1) as Hnext.
  { apply Z.mod_small. unfold u64_MAX in *. lia. }
  assert (forall t', t' ∈ ts -> task_ok (mf_nextid m) t') as Hall by (by apply Forall_forall).
  split; cbn; rewrite ?Hnext; try done; [lia| | | |].
  - intros i Hg. specialize (Ht i Hg). lia.
  - constructor; [done|]. apply Forall_forall. intros t' Hin. specialize (Hall t' (Hsub _ Hin)).
    destruct t'; cbn in *; intuition lia.
  - rewrite Hid. constructor; [|done]. intros (t' & Hin & Hid')%list_elem_of_omap.
    specialize (Hall t' (Hsub _ Hin)). destruct t'; cbn in *; simplify_eq; lia.
  - intros t' i [->|Hin]%elem_of_cons Hi'; [|by eapply Hf; [apply Hsub|]]. rewrite Hid in Hi'. injection Hi' as <-.
    destruct (fs_get (mf_fs m) (mf_nextid m)) eqn:E; [|done]. specialize (Ht (mf_nextid m)). rewrite E in Ht.
    specialize (Ht ltac:(by eexists)). lia.
Qed.

Lemma draw_dir_run d name e m m' :
  draw_dir d name m = (Ret e, m') ->
  m' = drawn (S (mf_ticks m)) m /\ entry_fileid e = mf_nextid m /\ new_entry d e.
Proof. intros [= <- <-]. split; [done|]. split; [done|]. split; [|done]. split; [done|]. cbn. split; [done|constructor]. Qed.

Lemma draw_file_run name attr verf e m m' :
  size_ok attr -> draw_file name attr verf m = (Ret e, m') ->
  exists ticks, m' = drawn ticks m /\ entry_fileid e = mf_nextid m /\ exists file, e = EFile file /\ entry_ok (mf_nextid m) e.
Proof.
  intros Hs. pose proof (created_file_cases name (mf_nextid m) [] verf attr m Hs) as Hc.
  unfold draw_file, fetch_nextid, current_time, set_attr_here, pbind. cbn. unfold created_file in Hc.
  destruct (set_attr _ _ attr _) as [[[u| |] e'] ticks]; intros [=]; subst.
  destruct Hc as (file & -> & _ & Hok & _). exists ticks. split; [done|]. split; [by apply Hok|]. by exists file.
Qed.

Lemma getattr_there d a m m' : memfs_getattr d m = (Ret (Ok a), m') -> is_Some (fs_get (mf_fs m) d).
Proof. unfold memfs_getattr, with_read. destruct (mf_poisoned m); [done|]. by destruct (fs_get (mf_fs m) d). Qed.

Lemma push_section d e m :
  memfs_inv m -> mf_poisoned m = false -> new_entry d e -> entry_fileid e <> d ->
  let m' := snd (with_write (fs_push d e) m) in
  memfs_inv m' /\ mf_poisoned m' = false /\ mf_nextid m' = mf_nextid m /\
  forall j, is_Some (fs_get (mf_fs m') j) -> j = entry_fileid e \/ is_Some (fs_get (mf_fs m) j).
Proof.
  intros Hi Hp Hn Hne. pose proof (fs_push_cases (mf_fs m) d e (proj1 Hi) (or_introl Hne)) as Hc.
  destruct (fs_push d e (mf_fs m)) as [[r| |] f'] eqn:Ep; [|done..].
  assert (with_write (fs_push d e) m = (Ret r, mf_set_fs f' m)) as ->.
  { rewrite (with_write_run _ m r Hp); by rewrite Ep. }
  pose proof (fs_push_wf _ _ _ (proj1 Hi) Hn (or_introl Hne)) as Hw.
  pose proof (fs_push_root _ _ _ (proj1 Hi) (or_introl Hne)) as Hr. rewrite Ep in Hw, Hr. cbn in *.
  split; [split; [done|]; etrans; [exact Hr|apply Hi]|]. split; [done|]. split; [done|].
  intros j. pose proof (ids_push d e (mf_fs m) j) as Hj. by rewrite Ep in Hj.
Qed.

Lemma insert_section d file verf m :
  memfs_inv m -> mf_poisoned m = false -> new_entry d (EFile file) ->
  let m' := snd (with_write (insert_file d (entry_fileid (EFile file)) (EFile file) (file_attr file) verf) m) in
  memfs_inv m' /\ mf_poisoned m' = false /\ mf_nextid m' = mf_nextid m /\
  forall j, is_Some (fs_get (mf_fs m') j) -> j = entry_fileid (EFile file) \/ is_Some (fs_get (mf_fs m) j).
Proof.
  intros Hi Hp Hn. set (id := entry_fileid (EFile file)).
  pose proof (insert_file_cases d id file (file_attr file) verf (mf_fs m) (proj1 Hi)) as Hc.
  destruct (insert_file_wf d id file (file_attr file) verf (mf_fs m) (proj1 Hi) Hn) as [Hw Hr].
  pose proof (fun j => ids_push d (EFile file) (mf_fs m) j) as Hj.
  destruct (insert_file d id (EFile file) (file_attr file) verf (mf_fs m)) as [[r| |] f'] eqn:Ep; [|done..].
  assert (with_write (insert_file d id (EFile file) (file_attr file) verf) m = (Ret r, mf_set_fs f' m)) as ->.
  { rewrite (with_write_run _ m r Hp); by rewrite Ep. }
  cbn in Hw, Hr |- *. split; [split; [done|]; etrans; [exact Hr|apply Hi]|]. split; [done|]. split; [done|].
  intros j Hg. destruct r as [[i a]|stat]; [|destruct Hc as [-> _]; by right].
  destruct Hc as (_ & [(_ & _ & E)|[-> _]]); [|by right]. apply Hj. by rewrite E.
Qed.

Lemma world_task m ts i t : world_inv (mkWorld m ts) -> ts !! i = Some t -> task_ok (mf_nextid m) t.
Proof. intros Hw Ht. exact (Forall_lookup_1 _ _ _ _ (wi_tasks _ Hw) Ht). Qed.

Lemma world_moves_inv w w' : world_moves w w' -> world_inv w -> world_inv w'.
Proof.
  intros Hs Hw. pose proof (wi_memfs _ Hw) as Hi. pose proof (wi_poisoned _ Hw) as Hp. pose proof (wi_distinct _ Hw) as Hd.
  destruct Hs as [op m ts Ho Hpre Hfits|d name a m ts Ha|i d name e m m' ts Ht Hlt Hdr|i d e m ts Ht
    |d name attr verf e m m' ts [Hok _] Hlt Hdr|i d e verf m ts Ht|d from q to a a' m ts _ _|i d from q to m ts Ht Hsp Hq];
    cbn in Hi, Hp, Hd.
  - destruct (run_op_ok op m Hi Hpre) as [Hi' Hp']. destruct (Hp' Hp Hfits) as [_ Hp''].
    eapply inv_same_ids; eauto using one_section_ids.
  - destruct Hw as [Hi0 Hp0 Hn Htb Hts Hd0 Hf]; cbn in *. split; cbn; try done.
    + constructor; [|done]. cbn. specialize (Htb d (getattr_there _ _ _ _ Ha)). lia.
    + intros t j [->|Hin]%elem_of_cons; [done|by apply Hf].
  - pose proof (world_task _ _ _ _ Hw Ht) as Hlow. cbn in Hlow.
    destruct (draw_dir_run _ _ _ _ _ Hdr) as (-> & Hid & Hnew). pose proof (wi_next _ Hw) as Hnext. cbn in Hnext.
    apply (inv_draw _ _ _ ts); cbn; rewrite ?Hid; eauto using delete_subset, omap_delete_nodup.
    split_and!; [lia|lia|lia|done].
  - destruct (world_task _ _ _ _ Hw Ht) as ([H1 H2] & Hne & Hnew).
    destruct (push_section d e m Hi Hp Hnew Hne) as (Hi' & Hp' & Hn' & Hids).
    by eapply inv_insert.
  - destruct (draw_file_run _ _ _ _ _ _ Hok Hdr) as (ticks & -> & Hid & file & -> & Hent).
    pose proof (wi_next _ Hw) as Hnext. cbn in Hnext.
    apply (inv_draw _ _ _ ts); cbn [task_id task_ok]; rewrite ?Hid; try done; [].
    split_and!; [lia|lia| |by eexists]. split; [by rewrite Hid|done].
  - destruct (world_task _ _ _ _ Hw Ht) as ([H1 H2] & Hnew & file & ->).
    destruct (insert_section d file verf m Hi Hp Hnew) as (Hi' & Hp' & Hn' & Hids).
    by eapply inv_insert.
  - destruct Hw as [Hi0 Hp0 Hn Htb Hts Hd0 Hf]; cbn in *. split; cbn; try done.
    + by constructor.
    + intros t j [->|Hin]%elem_of_cons; [done|by apply Hf].
  - destruct (rename_total d from q to m Hi Hp Hsp Hq) as (Hi' & Hp' & Hids).
    eapply inv_same_ids; eauto using delete_subset, omap_delete_nodup.
Qed.

Lemma world_reachable_inv clock w : world_reachable clock w -> world_inv w.
Proof.
  induction 1 as [|w w' _ IH Hs]; [|by eapply world_moves_inv]. split; cbn; try done.
  - apply (memfs_reachable_inv clock). constructor.
  - intros i [e Hg]. unfold fs_get, fs_new in Hg. cbn in Hg. apply lookup_singleton_Some in Hg as [<- _]. unfold ROOT_ID. lia.
  - constructor.
  - by intros t i ?%elem_of_nil.
Qed.

(** C15: Concurrent calls keep the in-memory file system whole. However the
    critical sections of any number of calls are interleaved (MKDIR and CREATE
    with the drawing of their ids apart from the insertion, RENAME and MKDIR with
    the check of the directories apart from the change), every state has a table
    that is a tree under its root, no critical section has panicked (the lock is
    not poisoned), and the ids drawn by calls that have not inserted yet are all
    different, below the next id, and not in the table, so no object gets the id of
    another. This is so as long as no call renames [.] or [..] (such a RENAME does
    break the tree), a RENAME of a file finds its target directory still there, sizes
    and offsets fit in a [Vec], and fewer than 2^64 ids are drawn. *)
Theorem memfs_concurrent_safe clock w :
  world_reachable clock w ->
  memfs_inv (w_memfs w) /\ mf_poisoned (w_memfs w) = false /\
  NoDup (omap task_id (w_tasks w)) /\
  forall t i, t ∈ w_tasks w -> task_id t = Some i ->
    0 < i < mf_nextid (w_memfs w) /\ fs_get (mf_fs (w_memfs w)) i = None.
Proof.
  intros Hw%world_reachable_inv. split; [apply Hw|]. split; [apply Hw|]. split; [apply Hw|].
  intros t i Hin Hid. split; [|by eapply wi_fresh].
  pose proof (wi_tasks _ Hw) as Hts. rewrite Forall_forall in Hts. specialize (Hts t Hin).
  destruct t; cbn in *; simplify_eq; apply Hts.
Qed.
End hash.

(** ** A race *)

Module DemoRace.
Import DemoFs DemoMem.

(** The root directory with the file [a.txt], id 2, and the directory [sub], id 3. *)
Definition m2 : MemFs := snd (run_op (OpMkdir 1 sub) m1).

(** RENAME of [a.txt] to [sub/b.txt], and what another client does after the
    attributes of [sub] were read: it removes [sub]. *)
Definition rename_args : RENAME3args :=
  mk_RENAME3args (mk_diropargs3 (fh_to_nfs fhc (fh64_new 1)) a_txt) (mk_diropargs3 (fh_to_nfs fhc (fh64_new 3)) b_txt).
Definition others : list (MemFs -> MemFs) :=
  [fun m => m; fun m => m; fun m => m; fun m => snd (run_op (OpRemove 1 sub) m)].
Definition outcome_of_race : outcome RENAME3res * Shared MemFs :=
  nfsproc3_rename (Interleaved memfs_file_system) fhc 9 rename_args (mkShared m2 others).
Definition after_race : MemFs := sh_now (snd outcome_of_race).

(** No directory of [f] has the entry [i]. *)
Definition nameless (f : Fs) (i : Z) : bool :=
  forallb (fun '(_, e) => match e with EDir d => bool_decide (i ∉ dir_content d) | EFile _ => true end)
    (map_to_list (fs_entries f)).

Lemma nameless_kid f i d : nameless f i = true -> ~ kid (tree_of f) d i.
Proof.
  intros Hn (dir & Hd & Hin)%kid_dir. unfold nameless in Hn. rewrite forallb_forall in Hn.
  assert ((d, EDir dir) ∈ map_to_list (fs_entries f)) as Hel by (by apply elem_of_map_to_list).
  apply list_elem_of_In in Hel. specialize (Hn _ Hel). cbn in Hn. by apply bool_decide_eq_true in Hn.
Qed.
End DemoRace.

Import DemoFs DemoMem DemoRace.

(** A RENAME that races with the removal of its target directory loses the
    file. The handler reads the attributes of both directories, and then calls
    [rename], which takes the name out of the source directory before it looks for
    the target: when another client has removed the target in between, the call
    fails with SERVERFAULT, the file is still in the table, and no directory names
    it any more. *)
Theorem rename_race_loses_file :
  memfs_reachable clock m2 /\
  (exists wcc, fst outcome_of_race = Ret (NfsErr NFS3ERR_SERVERFAULT wcc)) /\
  result_map entry_fileid (fs_lookup (mf_fs m2) 1 a_txt) = Ok 2 /\
  is_Some (fs_get (mf_fs after_race) 2) /\ (forall d, ~ kid (tree_of (mf_fs after_race)) d 2) /\
  ~ memfs_inv after_race.
Proof.
  assert (forall d, ~ kid (tree_of (mf_fs after_race)) d 2) as Hk.
  { intros d. apply nameless_kid. vm_compute. reflexivity. }
  assert (is_Some (fs_get (mf_fs after_race) 2)) as Hs by (vm_compute; by eexists).
  assert (memfs_reachable clock m2) as Hm2.
  { apply (reachable_op clock (OpMkdir 1 sub)); [apply m1_reachable|]. vm_compute. by eexists. }
  split_and!; try done.
  - vm_compute. by eexists.
  - intros [W Hr]. destruct (tw_placed _ _ (fw_tree _ W) 2) as [p Hp].
    + rewrite Hr. intros E. vm_compute in E. discriminate.
    + rewrite tree_lookup. destruct Hs as [e ->]. by eexists.
    + by apply (Hk p).
Qed.

(** Two MKDIRs of [sub] and [b.txt] in the root that draw their ids one after the
    other and insert in the other order. *)
Module DemoWorld.
Definition root_attr : fattr3 := match fst (memfs_getattr 1 m0) with Ret (Ok a) => a | _ => attr end.
Definition mkdir_draw (name : filename3) (m : MemFs) : Entry * MemFs :=
  match draw_dir 1 name m with (Ret e, m) => (e, m) | (_, m) => (EDir (dir_new name 0 0 (clock 0)), m) end.
Definition e1 : Entry := fst (mkdir_draw sub m0).
Definition e2 : Entry := fst (mkdir_draw b_txt (snd (mkdir_draw sub m0))).
Definition both : MemFs := snd (mkdir_draw b_txt (snd (mkdir_draw sub m0))).
Definition pushed : MemFs := snd (with_write (fs_push 1 e2) both).

Lemma reached : world_reachable clock (mkWorld pushed [MkdirDrawn 1 e1]).
Proof.
  assert (mf_nextid m0 < u64_MAX) as H0 by (by vm_compute).
  assert (mf_nextid (snd (mkdir_draw sub m0)) < u64_MAX) as H1 by (by vm_compute).
  refine (world_step _ _ _ _ (step_mkdir_push 0 1 e2 both [MkdirDrawn 1 e2; MkdirDrawn 1 e1] eq_refl)).
  refine (world_step _ _ _ _ (step_mkdir_draw 1 1 b_txt e2 _ both [MkdirDrawn 1 e1; MkdirStat 1 b_txt] eq_refl H1 eq_refl)).
  refine (world_step _ _ _ _ (step_mkdir_draw 0 1 sub e1 _ _ [MkdirStat 1 sub; MkdirStat 1 b_txt] eq_refl H0 eq_refl)).
  refine (world_step _ _ _ _ (step_mkdir_stat 1 sub root_attr m0 [MkdirStat 1 b_txt] eq_refl)).
  refine (world_step _ _ _ _ (step_mkdir_stat 1 b_txt root_attr m0 [] eq_refl)).
  constructor.
Qed.
End DemoWorld.

Lemma memfs_concurrent_safe_witness :
  memfs_inv DemoWorld.pushed /\ 0 < entry_fileid DemoWorld.e1 < mf_nextid DemoWorld.pushed.
Proof.
  destruct (memfs_concurrent_safe clock _ DemoWorld.reached) as (Hi & _ & _ & Hids). split; [exact Hi|].
  apply (Hids (MkdirDrawn 1 DemoWorld.e1)); [by left|reflexivity].
Defined.

Lemma procedures_linearize_witness :
  linear (call_rename memfs_file_system fhc rename_args) (nfsproc3_rename (Interleaved memfs_file_system) fhc 9 rename_args).
Proof.
  pose proof (procedures_linearize memfs_file_system fhc memfs_reads_only 9) as (_ & _ & _ & _ & _ & _ & _ & Hr).
  exact (Hr rename_args).
Defined.
