(* ===== verification/RemoteConnection.v ===== *)
(** * A remote call over a connection of the server

    [EndToEnd] composes the client with [handle_rpc_message]; here the request
    travels through the tasks of a connection: it is read from the socket into the
    pipe, cut out of the pipe, served by its own task, and the reply goes through
    the channel back to the socket.  Without other connections the effect of a run
    on the server is that of serving its messages one after the other. *)

From S2P Require Import Prelude Xdr XdrLaws Nfs3Types RpcTypes RpcWire RpcWireLaws RpcClient RpcClientLaws ConnectLaws.
From S2P Require Import MountTypes PortmapTypes Handle Vfs NfsHandlers NfsHandlersLaws Transactions TransactionLaws TransactionMemory MountPortmap Server.
From S2P Require Import Connection ConnectionLaws Validity ServerValidity EndToEnd.
From S2P Require Import MemFs MemFsProperties MemFsValid RemoteMemFs.
Open Scope Z_scope.
Open Scope nfs_scope.

(** An encoding is unique. *)
Lemma encodes_unique {A} (c : codec A) a b1 b2 : encodes c a b1 -> encodes c a b2 -> b1 = b2.
Proof.
  intros H1 H2. pose proof (enc_pack _ _ _ H1 []) as E1. pose proof (enc_pack _ _ _ H2 []) as E2.
  rewrite E1 in E2. by injection E2.
Qed.

Section serial.
Context {V H : Type} `{!FileHandle H} (fs : NfsFileSystem V H) (ctx : RPCContext).

(** Serving messages one after the other, each with the instants it reads. *)
Fixpoint serve_in_order (calls : list (list byte * (Instant * Instant))) (s : ServerState V)
  : list (outcome (result HandleResult rpc_error)) * ServerState V :=
  match calls with
  | [] => ([], s)
  | (m, (now, now_drop)) :: calls =>
      let '(o, s) := handle_rpc_message fs ctx m now now_drop s in
      let '(os, s) := serve_in_order calls s in (o :: os, s)
  end.

Definition not_other (a : action V) : Prop := is_other a = false.

Lemma act_serial a c c' evs :
  not_other a -> act fs ctx a c = Some (c', evs) ->
  exists calls, served evs = zip (map fst calls) (serve_in_order calls (cn_server c)).1 /\
    cn_server c' = (serve_in_order calls (cn_server c)).2.
Proof.
  intros Ha Hact. destruct c as [s peer pending pipe looping fragment cur tasks replies written res].
  destruct a; cbn in Hact; unfold selecting in Hact; try done;
    try (repeat case_match; simplify_eq; by exists []).
  destruct (tasks !! i) as [m|]; [|done].
  destruct (handle_rpc_message fs ctx m now now_drop s) as [o s'] eqn:E.
  exists [(m, (now, now_drop))]. cbn. rewrite E. destruct o; by simplify_eq.
Qed.

Lemma serve_in_order_app calls1 calls2 s :
  serve_in_order (calls1 ++ calls2) s =
  ((serve_in_order calls1 s).1 ++ (serve_in_order calls2 (serve_in_order calls1 s).2).1,
   (serve_in_order calls2 (serve_in_order calls1 s).2).2).
Proof.
  revert s. induction calls1 as [|[m [now now_drop]] calls1 IH]; intros s; cbn.
  - by destruct (serve_in_order calls2 s).
  - destruct (handle_rpc_message fs ctx m now now_drop s) as [o s1]. rewrite (IH s1).
    by destruct (serve_in_order calls1 s1).
Qed.

Lemma serve_in_order_length calls s : length (serve_in_order calls s).1 = length calls.
Proof.
  revert s. induction calls as [|[m [now now_drop]] calls IH]; intros s; [done|]. cbn.
  destruct (handle_rpc_message fs ctx m now now_drop s) as [o s1]. specialize (IH s1).
  destruct (serve_in_order calls s1). cbn in *. by rewrite IH.
Qed.

(** A run without other connections serves its messages one after the other. *)
Lemma run_serial acts c c' evs :
  Forall not_other acts -> run fs ctx acts c = Some (c', evs) ->
  exists calls, served evs = zip (map fst calls) (serve_in_order calls (cn_server c)).1 /\
    cn_server c' = (serve_in_order calls (cn_server c)).2.
Proof.
  revert c evs. induction acts as [|a acts IH]; intros c evs Ho Hrun; cbn [run] in Hrun.
  { simplify_eq. by exists []. }
  apply Forall_cons in Ho as [Ha Ho]. destruct (act fs ctx a c) as [[c1 e1]|] eqn:Hact; [|done].
  destruct (run fs ctx acts c1) as [[c2 e2]|] eqn:Hr; [|done]. simplify_eq.
  destruct (act_serial _ _ _ _ Ha Hact) as (calls1 & H1 & S1). destruct (IH _ _ Ho Hr) as (calls2 & H2 & S2).
  exists (calls1 ++ calls2). rewrite serve_in_order_app, served_app, H1, H2, map_app, <- S1. split; [|done].
  cbn [fst]. rewrite zip_with_app; [done|]. by rewrite length_map, serve_in_order_length.
Qed.
End serial.

Section connection.
Context {V H : Type} `{!FileHandle H} (fs : NfsFileSystem V H) (ctx : RPCContext).

(** Nothing from outside: no other connection, and writing to the socket works. *)
Definition undisturbed (a : action V) : Prop :=
  match a with AOther _ | AReplyFails _ => False | _ => True end.

Lemma undisturbed_not_other acts : Forall undisturbed acts -> Forall not_other acts.
Proof. intros Hu. eapply Forall_impl; [exact Hu|]. by intros []. Qed.

Lemma undisturbed_length acts :
  Forall undisturbed acts -> length (filter (fun a => is_other a = false) acts) = length acts.
Proof.
  induction 1 as [|a acts Ha _ IH]; [done|]. rewrite filter_cons, decide_True by (by destruct a).
  cbn. by rewrite IH.
Qed.

(** Every reply goes out whole. *)
Lemma undisturbed_replied acts c c' evs :
  Forall undisturbed acts -> run fs ctx acts c = Some (c', evs) -> Forall (fun x => x.2 = true) (replied evs).
Proof.
  revert c evs. induction acts as [|a acts IH]; intros c evs Hu Hrun; cbn [run] in Hrun; [by simplify_eq|].
  apply Forall_cons in Hu as [Ha Hu]. destruct (act fs ctx a c) as [[c1 e1]|] eqn:Hact; [|done].
  destruct (run fs ctx acts c1) as [[c2 e2]|] eqn:Hr; [|done]. simplify_eq.
  rewrite replied_app. apply Forall_app. split; [|by eapply IH].
  destruct c as [s peer pending pipe looping fragment cur tasks replies written res].
  destruct a; cbn in Hact; unfold selecting in Hact; try done; repeat case_match; simplify_eq;
    cbn; try by constructor.
Qed.

(** A run that serves one message and is quiet again. *)
Lemma run_one s request reply wire acts c evs :
  len request <= MASK ->
  (forall now now_drop, exists s', handle_rpc_message fs ctx request now now_drop s = (Ret (Ok (Reply reply)), s')) ->
  write_fragment reply = Ret wire ->
  run fs ctx acts (connection_new s (message_wire ([], request))) = Some (c, evs) ->
  Forall undisturbed acts -> quiescent fs ctx c -> cn_result c = None ->
  cn_tasks c = [] /\ cn_written c = [wire] /\
  exists now now_drop, handle_rpc_message fs ctx request now now_drop s = (Ret (Ok (Reply reply)), cn_server c).
Proof.
  intros Hl Hserve Hwire Hrun Hu Hq Hres.
  destruct (run_serial fs ctx _ _ _ _ (undisturbed_not_other _ Hu) Hrun) as (calls & Hserved & Hs).
  pose proof (undisturbed_replied _ _ _ _ Hu Hrun) as Hrep.
  pose proof (run_inv fs ctx (message_wire ([], request)) _ _ _ _ _ (conn_inv_initial s _) Hrun) as Hi. cbn [app] in Hi.
  destruct (quiescent_done fs ctx _ _ _ Hi Hq) as [Hh Hd]. rewrite Hres in Hd. destruct Hd as (Hd & Hnone & _).
  assert (dispatched evs = [request]) as Hdisp.
  { rewrite Hd. pose proof (messages_wire [([], request)]) as Hm. cbn [map concat] in Hm. rewrite app_nil_r in Hm.
    rewrite Hm; [done|]. constructor; [|done]. by split. }
  pose proof (ci_tasks _ _ _ Hi) as Ht. rewrite Hdisp, Hserved in Ht. cbn [cn_server connection_new] in *.
  destruct calls as [|[m [now now_drop]] calls]; cbn in Ht, Hs.
  { apply Permutation_singleton_l in Ht. rewrite <- Ht in Hh. apply Forall_cons in Hh as [Hh _].
    specialize (Hh 0 0). destruct (Hserve 0 0) as [s' E]. rewrite Hs, E in Hh. done. }
  destruct (handle_rpc_message fs ctx m now now_drop s) as [o s1] eqn:E.
  pose proof (serve_in_order_length fs ctx calls s1) as Hlen. cbn in Hserved. rewrite E in *.
  destruct (serve_in_order fs ctx calls s1) as [os s2] eqn:Eo. cbn in Ht, Hs, Hserved, Hlen.
  apply Permutation_singleton_l in Ht. injection Ht as <- Hnil. symmetry in Hnil. apply app_eq_nil in Hnil as [Hnil Htasks].
  destruct calls as [|[m' ?] calls], os as [|o' os]; try done. cbn in Eo. injection Eo as <-.
  destruct (Hserve now now_drop) as [s' E']. rewrite E in E'. injection E' as -> ->.
  cbn in Hserved. split; [done|]. split; [|exists now, now_drop; by rewrite Hs].
  pose proof (ci_replies _ _ _ Hi Hres) as Hsent. rewrite Hnone, app_nil_r in Hsent.
  unfold sent in Hsent. rewrite Hserved in Hsent. cbn in Hsent.
  pose proof (ci_written _ _ _ Hi) as Hw.
  destruct (replied evs) as [|[r' b] [|]]; try done. injection Hsent as <-.
  apply Forall_cons in Hrep as [Hb _]. cbn in Hb. subst b.
  apply Forall2_cons_inv_l in Hw as (bytes & rest & (wire' & Hw' & ->) & Hrest & ->).
  apply Forall2_nil_inv_l in Hrest as ->. cbn in Hw'. rewrite Hwire in Hw'. by injection Hw' as ->.
Qed.

(** The server's side of a call, whatever instants it reads. *)
Lemma serve_nfs_call_any {C R} proc (cc : codec C) (cr : codec R) f args xid cred verf s ls r v' ab :
  implements fs (ctx_file_handle_converter ctx) proc cc cr f ->
  caller_ok ctx xid cred verf ->
  tracker_inv (ss_tracker s) ls -> (forall now, accepts (ctx_client_addr ctx) xid now (ss_tracker s)) ->
  encodes cc args ab -> f xid args (ss_vfs s) = (Ret r, v') ->
  valid cr r -> 24 + packed_size cr r <= MASK ->
  exists mb rh rbs,
    encodes rpc_msg_codec (mk_rpc_msg xid (body_CALL (nfs_call_body proc cred verf))) mb /\
    encodes rpc_msg_codec (accepted xid data_SUCCESS) rh /\ encodes cr r rbs /\ len (rh ++ rbs) <= MASK /\
    forall now now_drop, exists s',
      handle_rpc_message fs ctx (mb ++ ab) now now_drop s = (Ret (Ok (Reply (rh ++ rbs))), s') /\
      ss_vfs s' = v' /\ ss_signals s' = ss_signals s /\ tracker_inv (ss_tracker s') ls /\
      one_transaction (ctx_client_addr ctx) xid now now_drop (ss_tracker s) (ss_tracker s').
Proof.
  intros Hi Hcaller Hinv Hacc Hab Hf Hr Hrsize.
  pose proof (fun now now_drop => serve_nfs_call fs ctx proc cc cr f args xid cred verf now now_drop s ls r v' ab
    Hi Hcaller Hinv (Hacc now) Hab Hf Hr Hrsize) as Hserve.
  destruct (Hserve 0 0) as (mb & rh & rbs & s0 & Hmb & Hrh & Hrbs & Hl & _).
  exists mb, rh, rbs. split_and!; try done. intros now now_drop.
  destruct (Hserve now now_drop) as (mb' & rh' & rbs' & s' & Hmb' & Hrh' & Hrbs' & _ & Hrun).
  rewrite (encodes_unique _ _ _ _ Hmb Hmb'), (encodes_unique _ _ _ _ Hrh Hrh'), (encodes_unique _ _ _ _ Hrbs Hrbs').
  by exists s'.
Qed.

(** C4: A call over a connection is the procedure it names. A client sends a call
    to a server that keeps its side of [ValidFs]; its bytes go through the tasks
    of a connection, in any order and in pieces of any size, with no other
    connection and no socket error in between. Every run takes at most four steps
    for each byte of the request, and two more. When it cannot go on and the
    socket is open, the procedure has run once on the file system: the state is
    the one it leaves, no task is left, the tracker is the one that starting this
    call's transaction and dropping its lock leave, and from the bytes written to
    the socket, cut up in any way, the client's call returns the result of the
    procedure and nothing is left over. The tracker must take the call, whatever
    the time is, and arguments and result must fit in a fragment. *)
Theorem remote_call_connection {C R} (P : V -> Prop) proc (cc : codec C) (cr : codec R) f args xid cred verf s ls r v' :
  ValidFs fs P -> converter_wf (ctx_file_handle_converter ctx) ->
  implements fs (ctx_file_handle_converter ctx) proc cc cr f ->
  caller_ok ctx xid cred verf -> tracker_inv (ss_tracker s) ls ->
  (forall now, accepts (ctx_client_addr ctx) xid now (ss_tracker s)) ->
  P (ss_vfs s) -> valid cc args -> packed_size cc args <= MASK - 1000 ->
  f xid args (ss_vfs s) = (Ret r, v') -> 24 + packed_size cr r <= MASK ->
  let request := call_bytes xid (nfs_call_body proc cred verf) (to_bytes cc args) in
    forall acts c evs, run fs ctx acts (connection_new s (message_wire ([], request))) = Some (c, evs) ->
      Forall undisturbed acts ->
      (length acts <= 4 * length (message_wire ([], request)) + 2)%nat /\
      (quiescent fs ctx c -> cn_result c = None ->
        ss_vfs (cn_server c) = v' /\ P v' /\ cn_tasks c = [] /\
        (exists now now_drop, one_transaction (ctx_client_addr ctx) xid now now_drop (ss_tracker s) (ss_tracker (cn_server c))) /\
        tracker_inv (ss_tracker (cn_server c)) ls /\ ss_signals (cn_server c) = ss_signals s /\
        forall fuel cl,
          rc_xid cl = xid -> rc_credential cl = cred -> rc_verifier cl = verf ->
          peer_sends cl (concat (cn_written c)) -> (length (concat (cn_written c)) <= fuel)%nat ->
          exists cl', nfs_call fuel cc cr proc args cl = (Ret (Ok r), cl') /\ called cl cl' /\ peer_sends cl' [] /\
            io_out (rc_io cl') = io_out (rc_io cl) ++ message_wire ([], request)).
Proof.
  intros Hfs Hwf Hi Hcaller Hinv Hacc HP Hargs Hsize Hf Hrsize.
  destruct (implements_post fs _ P Hfs Hwf proc cc cr f xid args Hi Hargs _ HP) as [HP' Hr].
  rewrite Hf in HP', Hr. cbn [fst snd] in HP', Hr.
  destruct (implements_codecs _ _ _ _ _ _ Hi) as (Hcc & Hcr & _).
  pose proof (encodes_to_bytes cc args Hcc Hargs) as Hab. set (ab := to_bytes cc args) in *.
  destruct (serve_nfs_call_any proc cc cr f args xid cred verf s ls r v' ab Hi Hcaller Hinv Hacc Hab Hf Hr Hrsize)
    as (mb & rh & rbs & Hmb & Hrh & Hrbs & Hl & Hserve).
  destruct Hcaller as [Hx Hc Hve Hauth]. destruct (nfs_call_header proc _ _ _ Hx Hc Hve) as [_ Hms].
  assert (len (mb ++ ab) <= MASK) as Hreq by (rewrite len_app, (enc_size _ _ _ Hmb), (enc_size _ _ _ Hab); lia).
  assert (call_bytes xid (nfs_call_body proc cred verf) ab = mb ++ ab) as ->.
  { destruct (nfs_call_header proc xid cred verf Hx Hc Hve) as [Hv _]. unfold call_bytes.
    by rewrite (encodes_unique _ _ _ _ (encodes_to_bytes _ _ _ Hv) Hmb). }
  intros request acts c evs Hrun Hu. subst request. split.
  { pose proof (run_work fs ctx (message_wire ([], mb ++ ab)) _ _ _ _ _ (conn_inv_initial s _) Hrun) as Hw.
    rewrite (undisturbed_length _ Hu) in Hw. clear -Hw. revert Hw. generalize (message_wire ([], mb ++ ab)). intros input Hw. cbn in Hw. lia. }
  intros Hq Hres.
  destruct (run_one s (mb ++ ab) (rh ++ rbs) (fragment_bytes true (rh ++ rbs)) acts c evs Hreq) as (Htasks & Hwr & now & now_drop & Hs');
    [|by apply write_fragment_reply|done..|].
  { intros now now_drop. destruct (Hserve now now_drop) as (s' & E & _). by exists s'. }
  destruct (Hserve now now_drop) as (s' & E & Hv & Hsig & Ht & Hone). rewrite Hs' in E. injection E as E.
  rewrite E, Hwr. cbn [concat]. rewrite app_nil_r. split_and!; try done; [by exists now, now_drop|].
  intros fuel cl <- <- <- Hpeer Hfuel. rewrite <- (app_nil_r (fragment_bytes true _)) in Hpeer.
  exact (rpc_call_encodes fuel cc cr NFS3_PROGRAM NFS3_VERSION (NFS_PROGRAM_as_u32 proc) args mb ab r rh rbs [] cl
    Hcc Hcr Hmb Hab Hreq Hrh Hrbs Hl Hpeer Hfuel).
Qed.
End connection.

(** ** A remote call over a connection *)

Module DemoSession.
Import DemoFs DemoMem DemoRemote.

Definition request : list byte :=
  call_bytes 7 (nfs_call_body NFSPROC3_GETATTR opaque_auth_default opaque_auth_default) (to_bytes GETATTR3args_codec args).
Definition input : list byte := message_wire ([], request).
Definition acts : list (action MemFs) :=
  [AReceive (len input); APush (len input); APull 4; APull (len input - 4); AFragment; AServe 0 1 2; AReply].
Definition final : option (Connection MemFs * list event) :=
  Connection.run memfs_file_system ctx acts (connection_new state input).
Definition result_ : GETATTR3res :=
  match fst (nfsproc3_getattr memfs_file_system fhc 7 args m1) with Ret r => r | _ => NfsErr NFS3ERR_IO tt end.

Lemma answer : nfsproc3_getattr memfs_file_system fhc 7 args m1 = (Ret result_, m1).
Proof. vm_compute. reflexivity. Qed.

Lemma answer_size : 24 + packed_size GETATTR3res_codec result_ <= MASK.
Proof. vm_compute. discriminate. Qed.

Lemma accepted_at now : accepts (ctx_client_addr ctx) 7 now (ss_tracker state).
Proof. do 2 eexists. vm_compute. reflexivity. Qed.

Lemma acts_undisturbed : Forall undisturbed acts.
Proof. by repeat constructor. Qed.

Lemma final_quiescent c evs : final = Some (c, evs) -> quiescent memfs_file_system ctx c /\ cn_result c = None.
Proof.
  intros E. assert (option_map (fun x => (cn_peer x.1, cn_pending x.1, cn_pipe x.1, cn_tasks x.1, cn_replies x.1,
    cn_looping x.1, cn_result x.1, cn_fragment x.1)) final =
    Some ([], [], [], [], [], true, None, [])) as Hf by (vm_compute; reflexivity).
  rewrite E in Hf. injection Hf as H1 H2 H3 H4 H5 H6 H7 H8. split; [|exact H7].
  refine (quiescent_idle _ _ c H1 H2 H3 H4 H5 H6 H7 _). rewrite H8. reflexivity.
Qed.
End DemoSession.

Lemma remote_call_connection_witness :
  match DemoSession.final with
  | Some (c, evs) => ss_vfs (cn_server c) = DemoRemote.m1 /\ cn_tasks c = []
  | None => False
  end.
Proof.
  destruct DemoSession.final as [[c evs]|] eqn:E.
  - destruct (DemoSession.final_quiescent c evs E) as [Hq Hres].
    destruct (remote_call_connection memfs_file_system DemoRemote.ctx memfs_ok NFSPROC3_GETATTR _ _ _ DemoRemote.args 7
      opaque_auth_default opaque_auth_default DemoRemote.state [] DemoSession.result_
      DemoRemote.m1 memfs_valid (converter_new_wf _) (impl_getattr _ _) DemoRemote.caller
      DemoRemote.tracker_ok DemoSession.accepted_at DemoRemote.m1_ok DemoRemote.args_valid DemoRemote.args_size
      DemoSession.answer DemoSession.answer_size DemoSession.acts c evs E DemoSession.acts_undisturbed)
      as [_ Hall].
    destruct (Hall Hq Hres) as (Hv & _ & Ht & _). by split.
  - assert (option_map (fun _ => true) DemoSession.final = Some true) as Hl by (vm_compute; reflexivity).
    rewrite E in Hl. discriminate.
Defined.
