(* ===== verification/Session.v ===== *)
(** * A session of calls on one connection

    A client and a connection of the server, and the calls the client makes one
    after the other: each is written to the socket, carried through the tasks of
    the connection by a scheduler, served, and its reply, cut up by the network,
    read back.  [linked] is what holds between two calls: the connection is idle,
    the xids to come are not among those the tracker remembers, and the file
    system is as it should be.  [session_call_run] says that a call of a linked
    session is the procedure it names, and leaves the session linked. *)

From S2P Require Import Prelude Xdr XdrLaws Nfs3Types RpcTypes RpcWire RpcWireLaws RpcClient RpcClientLaws ConnectLaws.
From S2P Require Import MountTypes PortmapTypes Handle Vfs NfsHandlers NfsHandlersLaws Transactions TransactionLaws TransactionMemory.
From S2P Require Import MountPortmap Server Connection ConnectionLaws Validity EndToEnd RemoteConnection.
Open Scope Z_scope.
Open Scope nfs_scope.

(** ** Idle connections *)

Section idle.
Context {V H : Type} `{!FileHandle H} (fs : NfsFileSystem V H) (ctx : RPCContext).

(** A connection between two calls, which has written [written] so far. *)
Definition idle (s : ServerState V) (written : list (list byte)) : Connection V :=
  mkConnection s [] [] [] true [] packed_rpc_message_new [] [] written None.

(** More bytes from the peer. *)
Definition feed (c : Connection V) (input : list byte) : Connection V :=
  mkConnection (cn_server c) (cn_peer c ++ input) (cn_pending c) (cn_pipe c) (cn_looping c) (cn_fragment c)
    (cn_cur_fragment c) (cn_tasks c) (cn_replies c) (cn_written c) (cn_result c).

(** What was written before makes no difference. *)
Definition after (written : list (list byte)) (c : Connection V) : Connection V :=
  mkConnection (cn_server c) (cn_peer c) (cn_pending c) (cn_pipe c) (cn_looping c) (cn_fragment c)
    (cn_cur_fragment c) (cn_tasks c) (cn_replies c) (written ++ cn_written c) (cn_result c).

Lemma act_after w a c :
  act fs ctx a (after w c) = option_map (fun x => (after w x.1, x.2)) (act fs ctx a c).
Proof.
  destruct c as [s peer pending pipe looping fragment cur tasks replies written res]. unfold after.
  by destruct a; cbn; repeat (case_match; simplify_eq; cbn); rewrite <- ?(assoc_L (++)).
Qed.

Lemma run_after w acts c :
  run fs ctx acts (after w c) = option_map (fun x => (after w x.1, x.2)) (run fs ctx acts c).
Proof.
  revert c. induction acts as [|a acts IH]; intros c; [done|]. cbn [run]. rewrite act_after.
  destruct (act fs ctx a c) as [[c1 e1]|]; [|done]. cbn [option_map fst snd]. rewrite IH.
  by destruct (run fs ctx acts c1) as [[c2 e2]|].
Qed.

Lemma quiescent_after w c : quiescent fs ctx (after w c) -> quiescent fs ctx c.
Proof.
  intros Hq a Ha. specialize (Hq a Ha). rewrite act_after in Hq. by destruct (act fs ctx a c) as [[]|].
Qed.

Lemma feed_idle s w input : feed (idle s w) input = after w (connection_new s input).
Proof. unfold after. cbn. by rewrite app_nil_r. Qed.

(** ** One call *)

(** Nothing from outside, and the peer keeps the socket open. *)
Definition quiet (a : action V) : Prop :=
  match a with AOther _ | AReplyFails _ | APeerClosed | ASocketError _ => False | _ => True end.

Lemma quiet_undisturbed acts : Forall quiet acts -> Forall undisturbed acts.
Proof. intros Hq. eapply Forall_impl; [exact Hq|]. by intros []. Qed.

(** The stages of a call: its bytes are on their way, it is being served, its
    reply is in the channel, its reply has been written. *)
Inductive stage (s : ServerState V) (request reply wire : list byte) : Connection V -> Prop :=
| stage_moving peer pending pipe fragment :
    fragment ++ pipe ++ pending ++ peer = message_wire ([], request) ->
    stage s request reply wire
      (mkConnection s peer pending pipe true fragment packed_rpc_message_new [] [] [] None)
| stage_serving :
    stage s request reply wire (mkConnection s [] [] [] true [] packed_rpc_message_new [request] [] [] None)
| stage_replying s' :
    stage s request reply wire (mkConnection s' [] [] [] true [] packed_rpc_message_new [] [Ok reply] [] None)
| stage_written s' :
    stage s request reply wire (idle s' [wire]).

Lemma act_stage s request reply wire a c c' evs :
  len request <= MASK ->
  (forall now now_drop, exists s', handle_rpc_message fs ctx request now now_drop s = (Ret (Ok (Reply reply)), s')) ->
  write_fragment reply = Ret wire ->
  stage s request reply wire c -> quiet a -> act fs ctx a c = Some (c', evs) -> stage s request reply wire c'.
Proof.
  intros Hl Hserve Hwire Hst Hq Hact.
  destruct Hst as [peer pending pipe fragment Hbytes| |s'|s']; destruct a; cbn in Hact; unfold selecting in Hact; try done;
    guards; try (unfold len in *; cbn in *; lia); try (by rewrite lookup_nil in Hact).
  - subst pending. simplify_eq. apply stage_moving. cbn [app] in *. by rewrite take_drop.
  - simplify_eq. apply stage_moving. rewrite <- Hbytes, <- !(assoc_L (++)). do 2 f_equal. by rewrite (assoc_L (++)), take_drop.
  - simplify_eq. apply stage_moving. rewrite <- Hbytes, <- !(assoc_L (++)). f_equal. by rewrite (assoc_L (++)), take_drop.
  - destruct (read_complete_fragment [] fragment) as (msg & buf' & _ & Hread); [by apply Z.eqb_eq|].
    pose proof (socket_read_last [] request [] Hl) as Hlast. rewrite app_nil_r in Hlast.
    change (fragment_bytes true request) with (message_wire ([], request)) in Hlast.
    rewrite <- Hbytes, Hread in Hlast. injection Hlast as -> -> Hnil.
    apply app_eq_nil in Hnil as [-> Hnil]. apply app_eq_nil in Hnil as [-> ->].
    specialize (Hread []). rewrite app_nil_r in Hread. unfold packed_rpc_message_new in Hact. rewrite Hread in Hact.
    simplify_eq. apply stage_serving.
  - destruct i as [|[|i]]; cbn in Hact; [|done..].
    destruct (Hserve now now_drop) as [s' E]. rewrite E in Hact. simplify_eq. apply stage_replying.
  - rewrite Hwire in Hact. simplify_eq. apply stage_written.
Qed.

Lemma run_stage s request reply wire acts c c' evs :
  len request <= MASK ->
  (forall now now_drop, exists s', handle_rpc_message fs ctx request now now_drop s = (Ret (Ok (Reply reply)), s')) ->
  write_fragment reply = Ret wire ->
  stage s request reply wire c -> Forall quiet acts -> run fs ctx acts c = Some (c', evs) -> stage s request reply wire c'.
Proof.
  intros Hl Hserve Hwire. revert c evs. induction acts as [|a acts IH]; intros c evs Hst Hq Hrun; cbn [run] in Hrun; [by simplify_eq|].
  apply Forall_cons in Hq as [Ha Hq]. destruct (act fs ctx a c) as [[c1 e1]|] eqn:Hact; [|done].
  destruct (run fs ctx acts c1) as [[c2 e2]|] eqn:Hr; [|done]. simplify_eq.
  eapply IH; [|exact Hq|exact Hr]. by eapply act_stage.
Qed.

(** A run that serves one message on an idle connection leaves it idle. *)
Lemma run_idle s w request reply wire acts c evs :
  len request <= MASK ->
  (forall now now_drop, exists s', handle_rpc_message fs ctx request now now_drop s = (Ret (Ok (Reply reply)), s')) ->
  write_fragment reply = Ret wire ->
  run fs ctx acts (feed (idle s w) (message_wire ([], request))) = Some (c, evs) ->
  Forall quiet acts -> quiescent fs ctx c ->
  exists s' now now_drop, c = idle s' (w ++ [wire]) /\
    handle_rpc_message fs ctx request now now_drop s = (Ret (Ok (Reply reply)), s').
Proof.
  intros Hl Hserve Hwire Hrun Hq Hquiet. rewrite feed_idle, run_after in Hrun.
  destruct (run fs ctx acts (connection_new s (message_wire ([], request)))) as [[c1 e1]|] eqn:Hr; [|done].
  injection Hrun as <- <-. cbn [fst snd] in *. apply quiescent_after in Hquiet.
  assert (stage s request reply wire c1) as Hst.
  { eapply run_stage; [exact Hl|exact Hserve|exact Hwire| |exact Hq|exact Hr]. by apply stage_moving. }
  destruct (run_one fs ctx s request reply wire acts c1 e1 Hl Hserve Hwire Hr (quiet_undisturbed _ Hq) Hquiet)
    as (_ & Hw & now & now_drop & Hrun); [by destruct Hst|].
  destruct Hst; cbn in Hw; try done. by exists s', now, now_drop.
Qed.
End idle.

(** ** Sessions *)

Record Session (V : Type) : Type := mkSession {
  se_client : RpcClient;
  se_conn : Connection V;
  (** how many calls were made *)
  se_calls : nat;
}.
Arguments mkSession {V} _ _ _.
Arguments se_client {V} _.
Arguments se_conn {V} _.
Arguments se_calls {V} _.

(** The chunks that the reads of a client will return. *)
Definition receives (cl : RpcClient) (chunks : list (list byte)) : RpcClient :=
  mkRpcClient (mkIo (io_in (rc_io cl) ++ chunks) (io_out (rc_io cl))) (rc_xid cl) (rc_credential cl) (rc_verifier cl).

(** What the client writes for a call, which it does before it reads. *)
Definition request_of {C R} (cc : codec C) (cr : codec R) (proc : NFS_PROGRAM) (args : C) (cl : RpcClient) : list byte :=
  drop (length (io_out (rc_io cl))) (io_out (rc_io (nfs_call 0 cc cr proc args cl).2)).

Section session.
Context {V H : Type} `{!FileHandle H} (fs : NfsFileSystem V H) (ctx : RPCContext).

(** The environment: in which order the tasks run for the [i]-th call on a
    connection, and how the network cuts up what the server writes. *)
Context (schedule : nat -> Connection V -> list (action V)) (cut : nat -> list byte -> list (list byte)).

(** A call: the request goes to the socket, the tasks of the connection run, and
    the client reads from what they wrote. *)
Definition session_call {C R} (proc : NFS_PROGRAM) (cc : codec C) (cr : codec R) (args : C)
  : prog (Session V) (result R client_error) := fun se =>
  let c := feed (se_conn se) (request_of cc cr proc args (se_client se)) in
  match run fs ctx (schedule (se_calls se) c) c with
  | None => (OutOfFuel, se)
  | Some (c', _) =>
      let reply := concat (drop (length (cn_written (se_conn se))) (cn_written c')) in
      let '(o, cl') := nfs_call (length reply) cc cr proc args (receives (se_client se) (cut (se_calls se) reply)) in
      (o, mkSession cl' c' (S (se_calls se)))
  end.

(** A scheduler that carries a request through the tasks of an idle connection
    until nothing is left to do, with no other connection and an open socket. *)
Definition carries : Prop :=
  forall i (s : ServerState V) w request reply wire, len request <= MASK -> write_fragment reply = Ret wire ->
    (forall now now_drop, exists s', handle_rpc_message fs ctx request now now_drop s = (Ret (Ok (Reply reply)), s')) ->
    let c := feed (idle s w) (message_wire ([], request)) in
    Forall quiet (schedule i c) /\
    exists c' evs, run fs ctx (schedule i c) c = Some (c', evs) /\ quiescent fs ctx c'.

(** A network that gives the bytes it was given, in chunks that are not empty. *)
Definition delivers : Prop := forall i bytes, chunks_ok (cut i bytes) /\ concat (cut i bytes) = bytes.

(** Between two calls, [k] of which can still be made: the next [k] xids are new
    to the server. *)
Record linked (P : V -> Prop) (k : nat) (se : Session V) (v : V) : Prop := {
  lk_conn : exists s w, se_conn se = idle s w /\ ss_vfs s = v /\ tracker_inv (ss_tracker s) [] /\
    0 < tt_max_active (ss_tracker s) /\
    forall i, (i < k)%nat -> (rc_xid (se_client se) + Z.of_nat i) mod 2 ^ 32 ∉ seen (ctx_client_addr ctx) (ss_tracker s);
  lk_fs : P v;
  lk_caller : caller_ok ctx (rc_xid (se_client se)) (rc_credential (se_client se)) (rc_verifier (se_client se));
  lk_input : peer_sends (se_client se) [];
  lk_calls : Z.of_nat k <= 2 ^ 32;
}.

Lemma receives_sends cl chunks bytes :
  peer_sends cl [] -> chunks_ok chunks -> concat chunks = bytes -> peer_sends (receives cl chunks) bytes.
Proof.
  intros [Hok Hin] Hc Hb. unfold peer_sends, receives, chunks_ok in *. cbn [rc_io io_in].
  split; [by apply Forall_app|]. by rewrite concat_app, Hin, Hb.
Qed.

Lemma request_of_sent {C R} (cc : codec C) (cr : codec R) proc args cl buf :
  send_call (mk_rpc_msg (rc_xid cl) (body_CALL (nfs_call_body proc (rc_credential cl) (rc_verifier cl)))) cc args = Ret (Ok buf) ->
  request_of cc cr proc args cl = buf.
Proof.
  intros Hsend. unfold request_of, nfs_call, rpc_call. unfold nfs_call_body in Hsend. rewrite Hsend.
  destruct (recv_reply _ _ _ _) as [o cs]. cbn [snd rc_io io_out]. by rewrite drop_app_length.
Qed.

(** The xids of a session are those that follow each other from its first. *)
Lemma linked_next xid k (sn sn' : list Z) :
  in_u32 xid -> Z.of_nat (S k) <= 2 ^ 32 -> sn' ⊆ xid :: sn ->
  (forall i, (i < S k)%nat -> (xid + Z.of_nat i) mod 2 ^ 32 ∉ sn) ->
  forall i, (i < k)%nat -> ((xid + 1) mod 2 ^ 32 + Z.of_nat i) mod 2 ^ 32 ∉ sn'.
Proof.
  intros Hx Hk Hsub Hnew i Hi Hin. rewrite Zplus_mod_idemp_l in Hin. replace (xid + 1 + Z.of_nat i) with (xid + Z.of_nat (S i)) in Hin by lia.
  apply Hsub in Hin. apply elem_of_cons in Hin as [Heq|Hin]; [|by apply (Hnew (S i)) in Hin; [|lia]].
  unfold in_u32, u32_MAX in Hx. destruct (Z.lt_ge_cases (xid + Z.of_nat (S i)) (2 ^ 32)).
  - rewrite Z.mod_small in Heq by lia. lia.
  - rewrite <- (Z.mod_unique (xid + Z.of_nat (S i)) (2 ^ 32) 1 (xid + Z.of_nat (S i) - 2 ^ 32)) in Heq; lia.
Qed.

Context (Hsched : carries) (Hcut : delivers).

Lemma session_call_run {C R} (P : V -> Prop) proc (cc : codec C) (cr : codec R) f args k se v r v' :
  ValidFs fs P -> converter_wf (ctx_file_handle_converter ctx) ->
  implements fs (ctx_file_handle_converter ctx) proc cc cr f ->
  linked P (S k) se v -> valid cc args -> packed_size cc args <= MASK - 1000 ->
  (forall xid, f xid args v = (Ret r, v')) -> 24 + packed_size cr r <= MASK ->
  exists se', session_call proc cc cr args se = (Ret (Ok r), se') /\ linked P k se' v'.
Proof.
  intros Hfs Hwf Hi [(s & w & Hc & Hv & Hinv & Hmax & Hnew) HP Hcaller Hin Hk] Hargs Hsize Hf Hrsize.
  destruct se as [cl c n]. cbn [se_client se_conn] in *. subst c v. set (xid := rc_xid cl) in *.
  destruct (implements_post fs _ P Hfs Hwf proc cc cr f xid args Hi Hargs _ HP) as [HP' Hr].
  rewrite Hf in HP', Hr. cbn [fst snd] in HP', Hr. pose proof (ca_xid _ _ _ _ Hcaller) as Hx.
  destruct (implements_codecs _ _ _ _ _ _ Hi) as (Hcc & Hcr & _). destruct (codec_encodes args Hargs) as [ab Hab].
  assert (forall now, accepts (ctx_client_addr ctx) xid now (ss_tracker s)) as Hacc.
  { intros now. apply accepts_new; [done..|]. specialize (Hnew 0%nat ltac:(lia)).
    by rewrite Z.add_0_r, Z.mod_small in Hnew by (unfold in_u32, u32_MAX in Hx; lia). }
  destruct (serve_nfs_call_any fs ctx proc cc cr f args xid _ _ s [] r v' ab Hi Hcaller Hinv Hacc Hab (Hf xid) Hr Hrsize)
    as (mb & rh & rbs & Hmb & Hrh & Hrbs & Hl & Hrun).
  assert (forall now now_drop, exists s', handle_rpc_message fs ctx (mb ++ ab) now now_drop s = (Ret (Ok (Reply (rh ++ rbs))), s'))
    as Hserved by (intros now now_drop; destruct (Hrun now now_drop) as (s' & E & _); by exists s').
  destruct Hcaller as [_ Hca Hve Hauth]. destruct (nfs_call_header proc _ _ _ Hx Hca Hve) as [_ Hms].
  assert (len (mb ++ ab) <= MASK) as Hreq by (rewrite len_app, (enc_size _ _ _ Hmb), (enc_size _ _ _ Hab); lia).
  pose proof (send_call_run _ cc args mb ab Hcc Hmb Hab ltac:(by rewrite <- len_app)) as Hsend.
  set (wire := fragment_bytes true (rh ++ rbs)). pose proof (write_fragment_reply _ Hl) as Hwire. fold wire in Hwire.
  unfold session_call. cbn [se_client se_conn se_calls]. rewrite (request_of_sent _ _ _ _ _ _ Hsend).
  change (fragment_bytes true (mb ++ ab)) with (message_wire ([], mb ++ ab)).
  destruct (Hsched n s w (mb ++ ab) (rh ++ rbs) wire Hreq Hwire Hserved) as (Hquiet & c' & evs & Hr' & Hq). rewrite Hr'.
  destruct (run_idle fs ctx s w (mb ++ ab) (rh ++ rbs) wire _ c' evs Hreq Hserved Hwire Hr' Hquiet Hq)
    as (s' & now & now_drop & -> & Hh).
  destruct (Hrun now now_drop) as (s1 & E & Hv & _ & _ & Hone).
  destruct (one_transaction_remembers _ _ _ _ _ _ _ Hinv Hone) as (Ht & Hrem & Hmax'). rewrite Hh in E. injection E as <-.
  cbn [cn_written idle]. rewrite drop_app_length. cbn [concat]. rewrite app_nil_r.
  destruct (Hcut n wire) as [Hok Hbytes]. rewrite <- (app_nil_r wire) in Hbytes at 2.
  destruct (rpc_call_encodes (length wire) cc cr NFS3_PROGRAM NFS3_VERSION (NFS_PROGRAM_as_u32 proc) args mb ab r rh rbs []
    (receives cl (cut n wire)) Hcc Hcr Hmb Hab Hreq Hrh Hrbs Hl (receives_sends cl _ _ Hin Hok Hbytes) (Nat.le_refl _))
    as (cl' & Hcall & (Hx' & Hcr' & Hve') & Hin' & _).
  unfold nfs_call. rewrite Hcall. eexists. split; [reflexivity|]. cbn [receives rc_xid rc_credential rc_verifier] in Hx', Hcr', Hve'.
  assert (in_u32 ((rc_xid cl + 1) mod 2 ^ 32)) as Hnext.
  { pose proof (Z.mod_pos_bound (rc_xid cl + 1) (2 ^ 32)). unfold in_u32, u32_MAX. lia. }
  split; cbn [se_client se_conn]; [|done|by rewrite Hx', Hcr', Hve'|done|lia].
  exists s', (w ++ [wire]). split_and!; try done; [lia|]. rewrite Hx'. by apply (linked_next _ k (seen (ctx_client_addr ctx) (ss_tracker s))).
Qed.
End session.

(** ** A scheduler and a network *)

Section greedy.
Context {V H : Type} `{!FileHandle H} (fs : NfsFileSystem V H) (ctx : RPCContext).
Context (piece : Z) (now now_drop : Instant) (Hpiece : 0 < piece).

(** What the scheduler tries, in this order; bytes are moved [piece] at a time. *)
Definition candidates (c : Connection V) : list (action V) :=
  [AReply; AServe 0 now now_drop; AFragment; APull (Z.min piece (Z.min (wanted (cn_fragment c)) (len (cn_pipe c))));
   APush (Z.min piece (Z.min (len (cn_pending c)) (PIPE_SIZE - len (cn_pipe c))));
   AReceive (Z.min piece (Z.min READ_SIZE (len (cn_peer c))))].

Fixpoint greedy (fuel : nat) (c : Connection V) : list (action V) :=
  match fuel with
  | O => []
  | S fuel =>
      match list_find (fun a => is_Some (act fs ctx a c)) (candidates c) with
      | Some (_, a) =>
          match act fs ctx a c with
          | Some (c, _) => a :: greedy fuel c
          | None => []
          end
      | None => []
      end
  end.

Lemma candidates_quiet c a : a ∈ candidates c -> quiet a.
Proof. unfold candidates. rewrite !elem_of_cons, elem_of_nil. by intros [->|[->|[->|[->|[->|[->|[]]]]]]]. Qed.

Lemma greedy_quiet fuel c : Forall quiet (greedy fuel c).
Proof.
  revert c. induction fuel as [|fuel IH]; intros c; cbn [greedy]; [constructor|].
  destruct (list_find _ _) as [[i a]|] eqn:Hf; [|constructor]. apply list_find_Some in Hf as (Hi & _ & _).
  destruct (act fs ctx a c) as [[c' evs]|]; [|constructor]. constructor; [|apply IH].
  apply (candidates_quiet c). by apply list_elem_of_lookup_2 with i.
Qed.

Lemma greedy_after w fuel c : greedy fuel (after w c) = greedy fuel c.
Proof.
  revert c. induction fuel as [|fuel IH]; intros c; [done|]. cbn [greedy].
  rewrite (list_find_ext (fun a => is_Some (act fs ctx a (after w c))) (fun a => is_Some (act fs ctx a c))); cycle 1.
  { intros a. rewrite act_after. by destruct (act fs ctx a c). }
  change (candidates (after w c)) with (candidates c).
  destruct (list_find _ _) as [[i a]|]; [|done]. rewrite act_after. destruct (act fs ctx a c) as [[c' evs]|]; [|done].
  cbn [option_map fst snd]. by rewrite IH.
Qed.

(** The scheduler only stops when the reply has been written. *)
Lemma greedy_stops s request reply wire c :
  len request <= MASK ->
  (forall now now_drop, exists s', handle_rpc_message fs ctx request now now_drop s = (Ret (Ok (Reply reply)), s')) ->
  write_fragment reply = Ret wire ->
  stage s request reply wire c -> 0 <= wanted (cn_fragment c) ->
  Forall (fun a => act fs ctx a c = None) (candidates c) -> quiescent fs ctx c.
Proof.
  intros Hl Hserve Hwire Hst Hw Hc. unfold candidates in Hc.
  destruct Hst as [peer pending pipe fragment Hbytes| |s'|s']; cbn -[wanted] in Hw; rewrite !Forall_cons in Hc;
    destruct Hc as (Hc1 & Hc2 & Hc3 & Hc4 & Hc5 & Hc6 & _); cbn -[wanted len between Z.min] in Hc1, Hc2, Hc3, Hc4, Hc5, Hc6.
  - exfalso. assert (0 < wanted fragment) as Hw0.
    { destruct (Z.eqb_spec (wanted fragment) 0) as [Hz|Hz]; [|lia]. cbn in Hc3. by repeat case_match. }
    assert (pipe = []) as ->.
    { apply len_pos_nil. apply guard_none in Hc4. unfold between in Hc4. lia. }
    assert (pending = []) as ->.
    { apply len_pos_nil. apply guard_none in Hc5. unfold between in Hc5. rewrite len_nil in Hc5. unfold PIPE_SIZE, KIBIBYTE in Hc5. lia. }
    assert (peer = []) as ->.
    { apply len_pos_nil. apply guard_none in Hc6. unfold between, READ_SIZE, KIBIBYTE in Hc6. cbn in Hc6. lia. }
    cbn [app] in Hbytes. rewrite app_nil_r in Hbytes. subst fragment.
    pose proof (messages_wire [([], request)]) as Hm. cbn [map concat] in Hm. rewrite app_nil_r in Hm.
    unfold messages in Hm. rewrite (messages_from_waiting _ _ Hw0) in Hm. by specialize (Hm ltac:(by constructor)).
  - destruct (Hserve now now_drop) as [s' E]. by rewrite E in Hc2.
  - by rewrite Hwire in Hc1.
  - apply quiescent_idle; try done.
Qed.

Lemma greedy_run s request reply wire input evs fuel c :
  len request <= MASK ->
  (forall now now_drop, exists s', handle_rpc_message fs ctx request now now_drop s = (Ret (Ok (Reply reply)), s')) ->
  write_fragment reply = Ret wire ->
  stage s request reply wire c -> conn_inv input evs c -> (work c <= fuel)%nat ->
  exists c' evs', run fs ctx (greedy fuel c) c = Some (c', evs') /\ quiescent fs ctx c'.
Proof.
  intros Hl Hserve Hwire. revert evs c. induction fuel as [|fuel IH]; intros evs c Hst Hi Hf.
  { exfalso. destruct Hst; cbn in Hf; lia. }
  cbn [greedy]. destruct (list_find _ _) as [[i a]|] eqn:Hfind; cycle 1.
  { exists c, []. split; [done|]. apply (greedy_stops s request reply wire c); try done; [by apply Hi|].
    apply list_find_None in Hfind. eapply Forall_impl; [exact Hfind|]. cbn. intros a Ha. by apply eq_None_not_Some. }
  apply list_find_Some in Hfind as (Hlook & [[c1 e1] Ha] & _). rewrite Ha. cbn [run]. rewrite Ha.
  assert (quiet a) as Hqa by (apply (candidates_quiet c); by apply list_elem_of_lookup_2 with i).
  pose proof (act_work fs ctx _ _ _ _ _ _ Hi Ha) as Hwork.
  destruct (IH (evs ++ e1) c1) as (c' & evs' & -> & Hq).
  - by eapply act_stage.
  - by eapply act_inv.
  - assert (is_other a = false) as Ho by (by destruct a). rewrite Ho in Hwork. lia.
  - by exists c', (e1 ++ evs').
Qed.

(** Enough steps for a request that was fed. *)
Definition greedy_schedule (_ : nat) (c : Connection V) : list (action V) := greedy (work c) c.

Lemma greedy_carries : carries fs ctx greedy_schedule.
Proof.
  intros i s w request reply wire Hl Hwire Hserve c. split; [apply greedy_quiet|].
  unfold greedy_schedule, c. rewrite feed_idle, greedy_after, run_after.
  destruct (greedy_run s request reply wire (message_wire ([], request)) [] (work (after w (connection_new s (message_wire ([], request)))))
    (connection_new s (message_wire ([], request))) Hl Hserve Hwire) as (c' & evs & -> & Hq).
  - by apply stage_moving.
  - apply conn_inv_initial.
  - done.
  - exists (after w c'), evs. split; [done|]. intros a Ha. rewrite act_after. by rewrite (Hq a Ha).
Qed.
End greedy.

(** A network that cuts what it carries into pieces of [n + 1] bytes. *)
Fixpoint pieces (fuel n : nat) (bytes : list byte) : list (list byte) :=
  match fuel, bytes with
  | O, _ | _, [] => []
  | S fuel, b :: bytes => (b :: take n bytes) :: pieces fuel n (drop n bytes)
  end.

Definition cut_into (n : nat) (_ : nat) (bytes : list byte) : list (list byte) := pieces (length bytes) n bytes.

Lemma cut_into_delivers n : delivers (cut_into n).
Proof.
  intros i bytes. unfold cut_into. clear i.
  assert (forall fuel bytes, (length bytes <= fuel)%nat -> chunks_ok (pieces fuel n bytes) /\ concat (pieces fuel n bytes) = bytes)
    as Hall; [|by apply Hall].
  clear bytes. induction fuel as [|fuel IH]; intros [|b bytes] Hf; cbn in Hf; try lia; [by split; [constructor|]..|].
  cbn [pieces concat]. destruct (IH (drop n bytes)) as [Hok Hc]; [rewrite length_drop; lia|]. split.
  - constructor; [done|exact Hok].
  - cbn [app]. by rewrite Hc, take_drop.
Qed.

(** ** A new session *)

Definition session_new {V} (s : ServerState V) (xid : u32) (cred verf : opaque_auth) : Session V :=
  mkSession (rpc_client_new_with_auth (mkIo [] []) xid cred verf) (idle s []) 0.

Lemma session_new_linked {V} ctx (P : V -> Prop) v signals xid cred verf k :
  P v -> caller_ok ctx xid cred verf -> Z.of_nat k <= 2 ^ 32 ->
  linked ctx P k (session_new (mkServerState v new_transaction_tracker signals) xid cred verf) v.
Proof.
  intros HP Hcaller Hk. split; try done.
  - eexists _, _. split; [reflexivity|]. split_and!; [done| |done|].
    + apply tracker_new_inv; unfold MAX_ACTIVE_TRANSACTIONS, TRANSACTION_TRIM_THRESHOLD, u16_MAX; lia.
    + intros i _. apply not_elem_of_nil.
  - split; [constructor|done].
Qed.
