(* ===== verification/Programs.v ===== *)
(** * Programs of the client library: [nfs3_client/examples]

    [ls] lists the root of an export with READDIR and with READDIRPLUS, page by
    page; [download_folder] copies a remote directory to the local disk.  The calls
    of a connection are the class [NfsCalls]: [RpcClient] makes them over the
    network, and [EndToEnd.remote_call] shows that what such a call returns is what
    the procedure on the server computes, which is the instance [served] here.
    The local disk is the class [LocalDisk], standard output [Console].
    [String::from_utf8_lossy] is a parameter. *)

From S2P Require Import Prelude Xdr XdrLaws Nfs3Types Handle Vfs NfsExt NfsHandlers FsUtil RpcClient.
Open Scope Z_scope.
Open Scope nfs_scope.

(** ** What the programs use *)

(** The procedures a client can call and a server implements, with the types of
    their arguments and results: the methods of [Nfs3Client]. *)
Inductive procedure : Set -> Set -> Type :=
| NULL : procedure unit unit
| GETATTR : procedure GETATTR3args GETATTR3res
| SETATTR : procedure SETATTR3args SETATTR3res
| LOOKUP : procedure LOOKUP3args LOOKUP3res
| ACCESS : procedure ACCESS3args ACCESS3res
| READLINK : procedure READLINK3args READLINK3res
| READ : procedure READ3args READ3res
| WRITE : procedure WRITE3args WRITE3res
| CREATE : procedure CREATE3args CREATE3res
| MKDIR : procedure MKDIR3args MKDIR3res
| SYMLINK : procedure SYMLINK3args SYMLINK3res
| REMOVE : procedure REMOVE3args REMOVE3res
| RENAME : procedure RENAME3args RENAME3res
| READDIR : procedure READDIR3args READDIR3res
| READDIRPLUS : procedure READDIRPLUS3args READDIRPLUS3res
| FSSTAT : procedure FSSTAT3args FSSTAT3res
| FSINFO : procedure FSINFO3args FSINFO3res
| PATHCONF : procedure PATHCONF3args PATHCONF3res.

(** A connection: its calls. *)
Class NfsCalls (S : Type) : Type := nfs : forall {A R : Set}, procedure A R -> A -> prog S (result R client_error).

(** A line of the output of [ls]. *)
Inductive LsLine : Type :=
| HeadingReaddir
| NameLine (name : list byte)
| HeadingReaddirplus
| DirLine (name : list byte) (mtime : Z)
| FileLine (name : list byte) (size : u64) (mtime : Z).

Class Console (S : Type) : Type := print_line : LsLine -> prog S unit.

(** [fs::create_dir_all], [File::create] and [File::write_all]. *)
Class LocalDisk (S F : Type) : Type := {
  disk_create_dir_all : path -> prog S (result unit ErrorKind);
  disk_create : path -> prog S (result F ErrorKind);
  disk_write_all : F -> list byte -> prog S (result unit ErrorKind);
}.

(** [Box<dyn Error>], with what these programs put into it. *)
Inductive AppError : Type :=
| RemoteError (e : client_error)
| LocalError (e : ErrorKind).

(** [Nfs3Result::unwrap]. *)
Definition unwrap {S A E} (r : Nfs3Result A E) : prog S A :=
  match r with NfsOk a => pret a | NfsErr _ _ => ppanic end.

Definition remotely {S A} (m : prog S (result A client_error)) : prog S (result A AppError) := map_err RemoteError m.
Definition locally {S A} (m : prog S (result A ErrorKind)) : prog S (result A AppError) := map_err LocalError m.

(** [128 * 1024]. *)
Definition PAGE : Z := 131072.

(** [cookieverf3::default()]. *)
Definition cookieverf_default : cookieverf3 := repeat x00 8.

Section programs.
Context {S F : Type} `{!NfsCalls S} `{!Console S} `{!LocalDisk S F}.
Context (from_utf8_lossy : list byte -> list byte).

(** ** [ls.rs] *)

Fixpoint print_names (entries : list entry3) : prog S unit :=
  match entries with
  | [] => pret tt
  | entry :: entries =>
      do* _ := print_line (NameLine (from_utf8_lossy (entry3_name entry))) in
      print_names entries
  end.

(** The first loop of [main]; [expect] panics on an empty page that is not the
    last. *)
Fixpoint ls_readdir (fuel : nat) (root : nfs_fh3) (cookie : cookie3) (cookieverf : cookieverf3)
  : prog S (result unit client_error) :=
  match fuel with
  | O => fun s => (OutOfFuel, s)
  | Datatypes.S fuel' =>
      try* r := nfs READDIR (mk_READDIR3args root cookie cookieverf PAGE) in
      do* readdir := unwrap r in
      let entries := dirlist3_entries (READDIR3resok_reply readdir) in
      do* _ := print_names entries in
      if dirlist3_eof (READDIR3resok_reply readdir) then pret (Ok tt)
      else
        match last entries with
        | None => ppanic
        | Some e => ls_readdir fuel' root (entry3_cookie e) (READDIR3resok_cookieverf readdir)
        end
  end.

(** [UNIX_EPOCH] plus a [Duration]. *)
Definition systime (t : nfstime3) : Z := nfstime3_seconds t * 1000000000 + nfstime3_nseconds t.

Definition ls_line (entry : entryplus3) : LsLine :=
  let name := from_utf8_lossy (entryplus3_name entry) in
  match entryplus3_name_attributes entry with
  | Some attrs =>
      if bool_decide (fattr3_type attrs = NF3DIR) then DirLine name (systime (fattr3_mtime attrs))
      else FileLine name (fattr3_size attrs) (systime (fattr3_mtime attrs))
  | None => FileLine name 0 0
  end.

Fixpoint print_lines (entries : list entryplus3) : prog S unit :=
  match entries with
  | [] => pret tt
  | entry :: entries => do* _ := print_line (ls_line entry) in print_lines entries
  end.

(** The second loop of [main]. *)
Fixpoint ls_readdirplus (fuel : nat) (root : nfs_fh3) (cookie : cookie3) (cookieverf : cookieverf3)
  : prog S (result unit client_error) :=
  match fuel with
  | O => fun s => (OutOfFuel, s)
  | Datatypes.S fuel' =>
      try* r := nfs READDIRPLUS (mk_READDIRPLUS3args root cookie cookieverf PAGE PAGE) in
      do* readdirplus := unwrap r in
      let entries := dirlistplus3_entries (READDIRPLUS3resok_reply readdirplus) in
      do* _ := print_lines entries in
      if dirlistplus3_eof (READDIRPLUS3resok_reply readdirplus) then pret (Ok tt)
      else
        match last entries with
        | None => ppanic
        | Some e => ls_readdirplus fuel' root (entryplus3_cookie e) (READDIRPLUS3resok_cookieverf readdirplus)
        end
  end.

(** [main] between [mount] and [unmount]. *)
Definition ls (fuel : nat) (root : nfs_fh3) : prog S (result unit client_error) :=
  do* _ := print_line HeadingReaddir in
  try* _ := ls_readdir fuel root 0 cookieverf_default in
  do* _ := print_line HeadingReaddirplus in
  ls_readdirplus fuel root 0 cookieverf_default.

(** ** [download_folder.rs] *)

(** The loop of [download_file]. *)
Fixpoint download_loop (fuel : nat) (file_fh : nfs_fh3) (file : F) (offset : u64) : prog S (result unit AppError) :=
  match fuel with
  | O => fun s => (OutOfFuel, s)
  | Datatypes.S fuel' =>
      try* r := remotely (nfs READ (mk_READ3args file_fh offset PAGE)) in
      do* read := unwrap r in
      let read_data := READ3resok_data read in
      try* _ := locally (disk_write_all file read_data) in
      if u64_MAX <? offset + len read_data then ppanic
      else
        if READ3resok_eof read then pret (Ok tt)
        else download_loop fuel' file_fh file (offset + len read_data)
  end.

Definition download_file (fuel : nat) (file_fh : nfs_fh3) (local_path : path) : prog S (result unit AppError) :=
  try* file := locally (disk_create local_path) in
  download_loop fuel file_fh file 0.

(** [download_folder] keeps the directories to visit on a stack, its top first. *)
Definition Queue : Type := list (path * nfs_fh3).

(** The handle and the attributes of an entry, looked up when READDIRPLUS does not
    give them; [None] where the loop goes on with the next entry. *)
Definition entry_object (folder_fh : nfs_fh3) (entry : entryplus3) : prog S (result (option (nfs_fh3 * fattr3)) AppError) :=
  match entryplus3_name_handle entry, entryplus3_name_attributes entry with
  | Some fh, Some attr => pret (Ok (Some (fh, attr)))
  | _, _ =>
      try* r := remotely (nfs LOOKUP (mk_LOOKUP3args (mk_diropargs3 folder_fh (entryplus3_name entry)))) in
      do* lookup := unwrap r in
      match LOOKUP3resok_obj_attributes lookup with
      | None => pret (Ok None)
      | Some attrs => pret (Ok (Some (LOOKUP3resok_object lookup, attrs)))
      end
  end.

Definition dot : list byte := [x2e].
Definition dotdot : list byte := [x2e; x2e].

(** One turn of [for entry in entries]. *)
Definition download_entry (fuel : nat) (local_path : path) (folder_fh : nfs_fh3) (entry : entryplus3) (queue : Queue)
  : prog S (result Queue AppError) :=
  let name := from_utf8_lossy (entryplus3_name entry) in
  if bool_decide (name = dot) || bool_decide (name = dotdot) then pret (Ok queue)
  else
    try* object := entry_object folder_fh entry in
    match object with
    | None => pret (Ok queue)
    | Some (fh, attrs) =>
        let local_entry_path := path_push local_path name in
        if bool_decide (fattr3_type attrs = NF3DIR) then
          try* _ := locally (disk_create_dir_all local_entry_path) in
          pret (Ok ((local_entry_path, fh) :: queue))
        else
          try* _ := download_file fuel fh (from_utf8_lossy local_entry_path) in
          pret (Ok queue)
    end.

Fixpoint download_entries (fuel : nat) (local_path : path) (folder_fh : nfs_fh3) (entries : list entryplus3) (queue : Queue)
  : prog S (result Queue AppError) :=
  match entries with
  | [] => pret (Ok queue)
  | entry :: entries =>
      try* queue := download_entry fuel local_path folder_fh entry queue in
      download_entries fuel local_path folder_fh entries queue
  end.

(** The pages of one directory; [fuel] is for its files. *)
Fixpoint download_pages (pages fuel : nat) (local_path : path) (folder_fh : nfs_fh3) (cookie : cookie3) (cookieverf : cookieverf3)
  (queue : Queue) : prog S (result Queue AppError) :=
  match pages with
  | O => fun s => (OutOfFuel, s)
  | Datatypes.S pages =>
      try* r := remotely (nfs READDIRPLUS (mk_READDIRPLUS3args folder_fh cookie cookieverf PAGE PAGE)) in
      do* readdirplus := unwrap r in
      let entries := dirlistplus3_entries (READDIRPLUS3resok_reply readdirplus) in
      let cookie := match last entries with Some e => entryplus3_cookie e | None => 0 end in
      try* queue := download_entries fuel local_path folder_fh entries queue in
      if dirlistplus3_eof (READDIRPLUS3resok_reply readdirplus) then pret (Ok queue)
      else download_pages pages fuel local_path folder_fh cookie (READDIRPLUS3resok_cookieverf readdirplus) queue
  end.

(** [while let Some(..) = queue.pop()]; [fuel] also bounds the inner loops. *)
Fixpoint download_queue (turns fuel : nat) (queue : Queue) : prog S (result unit AppError) :=
  match queue with
  | [] => pret (Ok tt)
  | (local_path, folder_fh) :: queue =>
      match turns with
      | O => fun s => (OutOfFuel, s)
      | Datatypes.S turns =>
          try* queue := download_pages fuel fuel local_path folder_fh 0 cookieverf_default queue in
          download_queue turns fuel queue
      end
  end.

Definition download_folder (turns fuel : nat) (folder_fh : nfs_fh3) (local_path : path) : prog S (result unit AppError) :=
  try* _ := locally (disk_create_dir_all local_path) in
  download_queue turns fuel [(local_path, folder_fh)].

(** The loop of [main] that finds the remote folder: [None] is a component that is
    not a plain name, for which it panics. *)
Fixpoint find_folder (fh : nfs_fh3) (components : list (option (list byte))) : prog S (result nfs_fh3 client_error) :=
  match components with
  | [] => pret (Ok fh)
  | None :: _ => ppanic
  | Some name :: components =>
      try* r := nfs LOOKUP (mk_LOOKUP3args (mk_diropargs3 fh name)) in
      do* lookup := unwrap r in
      find_folder (LOOKUP3resok_object lookup) components
  end.
End programs.

(** ** Calls that a server answers *)

Section procedures.
Context {V H : Type} `{!FileHandle H} (fs : NfsFileSystem V H) (fhc : FileHandleConverter).

(** The number of a procedure, its codecs, and the function behind it. *)
Definition procedure_number {A R} (p : procedure A R) : NFS_PROGRAM :=
  match p with
  | NULL => NFSPROC3_NULL | GETATTR => NFSPROC3_GETATTR | SETATTR => NFSPROC3_SETATTR | LOOKUP => NFSPROC3_LOOKUP
  | ACCESS => NFSPROC3_ACCESS | READLINK => NFSPROC3_READLINK | READ => NFSPROC3_READ | WRITE => NFSPROC3_WRITE
  | CREATE => NFSPROC3_CREATE | MKDIR => NFSPROC3_MKDIR | SYMLINK => NFSPROC3_SYMLINK | REMOVE => NFSPROC3_REMOVE
  | RENAME => NFSPROC3_RENAME | READDIR => NFSPROC3_READDIR
  | READDIRPLUS => NFSPROC3_READDIRPLUS | FSSTAT => NFSPROC3_FSSTAT | FSINFO => NFSPROC3_FSINFO
  | PATHCONF => NFSPROC3_PATHCONF
  end.

Definition args_codec {A R} (p : procedure A R) : codec A :=
  match p with
  | NULL => void_codec | GETATTR => GETATTR3args_codec | SETATTR => SETATTR3args_codec | LOOKUP => LOOKUP3args_codec
  | ACCESS => ACCESS3args_codec | READLINK => READLINK3args_codec | READ => READ3args_codec | WRITE => WRITE3args_codec
  | CREATE => CREATE3args_codec | MKDIR => MKDIR3args_codec | SYMLINK => SYMLINK3args_codec | REMOVE => REMOVE3args_codec
  | RENAME => RENAME3args_codec | READDIR => READDIR3args_codec
  | READDIRPLUS => READDIRPLUS3args_codec | FSSTAT => FSSTAT3args_codec | FSINFO => FSINFO3args_codec
  | PATHCONF => PATHCONF3args_codec
  end.

Definition res_codec {A R} (p : procedure A R) : codec R :=
  match p with
  | NULL => void_codec | GETATTR => GETATTR3res_codec | SETATTR => SETATTR3res_codec | LOOKUP => LOOKUP3res_codec
  | ACCESS => ACCESS3res_codec | READLINK => READLINK3res_codec | READ => READ3res_codec | WRITE => WRITE3res_codec
  | CREATE => CREATE3res_codec | MKDIR => MKDIR3res_codec | SYMLINK => SYMLINK3res_codec | REMOVE => REMOVE3res_codec
  | RENAME => RENAME3res_codec | READDIR => READDIR3res_codec
  | READDIRPLUS => READDIRPLUS3res_codec | FSSTAT => FSSTAT3res_codec | FSINFO => FSINFO3res_codec
  | PATHCONF => PATHCONF3res_codec
  end.

Definition run_procedure {A R} (p : procedure A R) : u32 -> A -> prog V R :=
  match p with
  | NULL => nfsproc3_null | GETATTR => nfsproc3_getattr fs fhc | SETATTR => nfsproc3_setattr fs fhc
  | LOOKUP => nfsproc3_lookup fs fhc | ACCESS => nfsproc3_access fs fhc | READLINK => nfsproc3_readlink fs fhc
  | READ => nfsproc3_read fs fhc | WRITE => nfsproc3_write fs fhc | CREATE => nfsproc3_create fs fhc
  | MKDIR => nfsproc3_mkdir fs fhc | SYMLINK => nfsproc3_symlink fs fhc | REMOVE => nfsproc3_remove fs fhc
  | RENAME => nfsproc3_rename fs fhc | READDIR => nfsproc3_readdir fs fhc
  | READDIRPLUS => nfsproc3_readdirplus fs fhc | FSSTAT => nfsproc3_fsstat fs fhc | FSINFO => nfsproc3_fsinfo fs fhc
  | PATHCONF => nfsproc3_pathconf fs fhc
  end.
End procedures.

Section served.
Context {V H : Type} `{!FileHandle H} (fs : NfsFileSystem V H) (fhc : FileHandleConverter) (xid : u32).
Context {L : Type}.

(** The state of the server and that of the local machine. *)
Definition on_server {A} (m : prog V A) : prog (V * L) (result A client_error) := fun '(v, l) =>
  let '(o, v) := m v in
  (match o with Ret a => Ret (Ok a) | Panic => Panic | OutOfFuel => OutOfFuel end, (v, l)).

Definition on_local {A} (m : prog L A) : prog (V * L) A := fun '(v, l) =>
  let '(o, l) := m l in (o, (v, l)).

(** A connection on which each call is the procedure it names. *)
Definition served : NfsCalls (V * L) := fun A R p args => on_server (run_procedure fs fhc p xid args).
End served.

(** Output that is kept, latest line last. *)
Definition transcript {V : Type} : Console (V * list LsLine) := fun line => on_local (fun out => (Ret tt, out ++ [line])).

#[export] Instance byte_countable : Countable byte := inj_countable Byte.to_N Byte.of_N Byte.of_to_N.

(** A disk that is a map of its paths: a directory, or a file with its bytes. *)
Abbreviation Disk := (gmap path (option (list byte))).

Definition map_disk {V : Type} : LocalDisk (V * Disk) path := {|
  disk_create_dir_all p := on_local (fun d => (Ret (Ok tt), <[p := None]> d));
  disk_create p := on_local (fun d => (Ret (Ok p), <[p := Some []]> d));
  disk_write_all p data := on_local (fun d => (Ret (Ok tt), alter (option_map (fun c => c ++ data)) p d));
|}.
