(* ===== verification/ProgramsLaws.v ===== *)
(** * Laws of the paging loops

    What the directory procedures answer, page by page, when the file system does
    not change: a [listing] is a directory that can be read from every cookie it
    gives.  The loops of the programs then see each entry once. *)

From S2P Require Import Prelude Xdr XdrLaws Nfs3Types RpcTypes Handle Vfs NfsExt NfsHandlers NfsHandlersLaws FsUtil RpcClient Programs.
Open Scope Z_scope.
Open Scope nfs_scope.

(** ** Listings *)

Section listing.
Context {V T : Type} (it : Iterator V T) (start : Z -> vfs_method V (it_state it)) (cookie : T -> Z).

(** The cookie that a client goes on from. *)
Definition cookie_after (es : list T) : Z := match last es with Some e => cookie e | None => 0 end.

Record listing (v : V) (es : list T) : Prop := {
  li_from : forall es1 es2, es = es1 ++ es2 -> exists s s1 s2, start (cookie_after es1) v = (Ret (Ok s), v) /\
    yields it s v es2 s1 v /\ it_next it s1 v = (Ret (NextEof, s2), v);
  li_next : forall s, snd (it_next it s v) = v;
  li_drop : forall s, it_drop it s v = (Ret tt, v);
  li_cookies : Forall (fun e => cookie e <> 0 /\ in_u64 (cookie e)) es;
}.

Lemma cookie_after_u64 v es1 es2 : listing v (es1 ++ es2) -> in_u64 (cookie_after es1).
Proof.
  intros Hl. unfold cookie_after. destruct (last es1) as [e|] eqn:E; [|done].
  apply last_Some in E as [es ->]. pose proof (li_cookies _ _ Hl) as Hc. rewrite !Forall_app, Forall_cons in Hc.
  by destruct Hc as ((_ & [_ ?] & _) & _).
Qed.

(** From one start there is one sequence of entries: others are prefixes of it. *)
Lemma yields_prefix s v es s1 s2 v2 es' s1' v' :
  (forall s, snd (it_next it s v) = v) -> yields it s v es s1 v -> it_next it s1 v = (Ret (NextEof, s2), v2) ->
  yields it s v es' s1' v' -> v' = v /\ exists es2, es = es' ++ es2 /\ yields it s1' v es2 s1 v.
Proof.
  intros Hq Hy He Hy'. revert es s1 Hy He.
  induction Hy' as [s v|s v e s3 v3 l s4 v4 Hn Hy' IH]; intros es s1 Hy He; [by split; [|exists es]|].
  pose proof (Hq s) as Hqs. rewrite Hn in Hqs. cbn in Hqs. subst v3.
  inversion Hy as [|? ? e' s3' v3' l' ? ? Hn' Hy'']; subst; [congruence|].
  rewrite Hn in Hn'. injection Hn' as <- <- <-.
  destruct (IH Hq l' s1 Hy'' He) as (-> & es2 & -> & Hes2). split; [done|]. by exists es2.
Qed.

Definition is_nil {A} (l : list A) : bool := match l with [] => true | _ => false end.

(** A filled page of a listing. *)
Lemma fill_page {U L} (conv : T -> U) (wf : L -> Prop) (items : L -> list U) (nofit : list U -> Prop)
  s v es s1 s2 (l0 : L) o v' :
  (forall s, snd (it_next it s v) = v) -> yields it s v es s1 v -> it_next it s1 v = (Ret (NextEof, s2), v) ->
  fill_post it conv wf items nofit s v l0 o v' ->
  exists l' es1 es2 s', o = Ret (Ok (l', is_nil es2), s') /\ v' = v /\ es = es1 ++ es2 /\ wf l' /\
    items l' = items l0 ++ map conv es1 /\
    forall e es3, es2 = e :: es3 -> nofit (items l0 ++ map conv es1 ++ [conv e]).
Proof.
  intros Hq Hy He Hf.
  assert (forall es1 sk vk, yields it s v es1 sk vk -> exists es2, vk = v /\ es = es1 ++ es2 /\
    match es2 with [] => exists s', it_next it sk v = (Ret (NextEof, s'), v)
                 | e :: _ => exists s', it_next it sk v = (Ret (NextOk e, s'), v) end) as Hend.
  { intros es1 sk vk Hk. destruct (yields_prefix _ _ _ _ _ _ _ _ _ Hq Hy He Hk) as (-> & es2 & -> & Hk2).
    exists es2. split; [done|]. split; [done|]. inversion Hk2 as [|? ? ? s3 v3 ? ? ? Hn]; subst; [eauto|].
    pose proof (Hq sk) as Hqs. rewrite Hn in Hqs. cbn in Hqs. subst v3. eauto. }
  destruct o as [[[[l' [|]]|stat] s']| |]; cbn in Hf.
  - destruct Hf as (es1 & sk & vk & Hk & Hn & Hwf & Hit). destruct (Hend _ _ _ Hk) as ([|e es2] & -> & -> & s3 & Hn3); [|congruence].
    rewrite Hn in Hn3. injection Hn3 as -> ->. exists l', es1, [], s3. by split_and!.
  - destruct Hf as (es1 & e & sk & vk & Hk & Hn & Hwf & Hit & Hno).
    destruct (Hend _ _ _ Hk) as ([|e' es2] & -> & -> & s3 & Hn3); [congruence|].
    rewrite Hn in Hn3. injection Hn3 as -> -> ->. exists l', es1, (e' :: es2), s3. split_and!; try done.
    intros ? ? [= <- <-]. done.
  - destruct Hf as (es1 & sk & vk & Hk & Hn). destruct (Hend _ _ _ Hk) as ([|e es2] & -> & -> & s3 & Hn3); congruence.
  - destruct Hf as (es1 & sk & vk & Hk & Hn). destruct (Hend _ _ _ Hk) as ([|e es2] & -> & -> & s3 & Hn3); congruence.
  - destruct Hf as (es1 & sk & vk & Hk & Hn). destruct (Hend _ _ _ Hk) as ([|e es2] & -> & -> & s3 & Hn3); congruence.
Qed.
End listing.

(** ** Pages *)

Section pages.
Context {V H : Type} `{!FileHandle H} `{!FileHandleLaws H} (fs : NfsFileSystem V H) (fhc : FileHandleConverter).

Definition dir_listing (d : H) (v : V) (es : list DirEntry) : Prop :=
  listing readdir_iter (vfs_readdir d) entry3_cookie v es.

Definition plus_listing (d : H) (v : V) (es : list (DirEntryPlus H)) : Prop :=
  listing readdirplus_iter (vfs_readdirplus d) dep_cookie v es.

(** The verifier that goes with a cookie. *)
Definition verf_ok (verf : cookieverf3) (cookie : cookie3) (a : fattr3) : Prop :=
  if cookieverf_is_none verf then cookie = 0 else verf = cookieverf_from_attr (Some a).

Lemma readdir_page fh d v a es1 es2 verf count :
  fh_from_nfs fhc fh = Ok d -> vfs_getattr d v = (Ret (Ok a), v) -> dir_listing d v (es1 ++ es2) ->
  verf_ok verf (cookie_after entry3_cookie es1) a -> 200 <= count ->
  Forall (fun e => 108 + list_packed_size entry3_codec [e] <= count) es2 ->
  exists page rest, es2 = page ++ rest /\ (rest <> [] -> page <> []) /\
    packed_size READDIR3res_codec (NfsOk (mk_READDIR3resok (Some a) (cookieverf_from_attr (Some a))
      (mk_dirlist3 page (is_nil rest)))) <= count /\
    forall xid, nfsproc3_readdir fs fhc xid (mk_READDIR3args fh (cookie_after entry3_cookie es1) verf count) v =
      (Ret (NfsOk (mk_READDIR3resok (Some a) (cookieverf_from_attr (Some a)) (mk_dirlist3 page (is_nil rest)))), v).
Proof.
  intros Hfh Hg Hl Hverf Hcount Hsizes. destruct (li_from _ _ _ _ _ Hl es1 es2 eq_refl) as (s & s1 & s2 & Hs & Hy & He).
  assert (4 + packed_size READDIR3resok_codec (mk_READDIR3resok (Some a) (cookieverf_from_attr (Some a)) (mk_dirlist3 [] false)) = 108) as Hempty
    by reflexivity.
  pose proof (readdir_fill readdir_iter (count - 108) s v) as Hf. cbv zeta in Hf.
  destruct (fill_page _ _ _ _ _ _ _ _ _ _ _ _ _ (li_next _ _ _ _ _ Hl) Hy He Hf) as (l' & page & rest & s' & Ho & Hv & -> & Hwf & Hit & Hno).
  exists page, rest. split; [done|]. rewrite map_id in Hit. cbn in Hit.
  assert (rest <> [] -> page <> []) as Hne.
  { intros Hrest ->. destruct rest as [|e rest]; [done|]. specialize (Hno e rest eq_refl). cbn in Hno.
    apply Forall_cons in Hsizes as [Hsize _]. cbn in Hsize. lia. }
  split; [exact Hne|]. split.
  { destruct Hwf as [Hwf Hmax]. pose proof (filled_size _ _ _ Hwf Hmax) as Hs'. rewrite Hit in Hs'.
    rewrite readdir_size. change (packed_size post_op_attr_codec (Some a)) with 88. lia. }
  intros xid. unfold nfsproc3_readdir. cbn [READDIR3args_dir READDIR3args_cookie READDIR3args_cookieverf READDIR3args_count].
  rewrite (fh_to_id_ok _ _ _ _ _ Hfh), (pbind_Ret _ _ _ _ _ Hg). cbn [nfs_option_from_result]. cbv zeta.
  replace (if cookieverf_is_none verf then _ else _) with false; cycle 1.
  { unfold verf_ok in Hverf. destruct (cookieverf_is_none verf); [by rewrite Hverf|]. by rewrite bool_decide_true. }
  change (packed_size u32_codec xid) with 4. rewrite Hempty, (proj2 (Z.ltb_ge _ _)) by lia.
  rewrite (pbind_Ret _ _ _ _ _ Hs). unfold pbind at 1.
  destruct (fill_loop readdir_iter entry_try_push (fill_fuel (count - 108)) s (bounded_list_new entry3_codec (count - 108)) v) as [o v1].
  cbn [fst snd] in Ho, Hv. subst o v1. rewrite (pbind_Ret _ _ _ _ _ (li_drop _ _ _ _ _ Hl s')).
  unfold bounded_list_into_inner. rewrite Hit. destruct rest as [|e rest]; cbn [is_nil negb]; [by rewrite andb_false_r|].
  rewrite bool_decide_false by (by apply Hne). done.
Qed.
Definition plus_fits (dircount maxcount : Z) (e : entryplus3) : Prop :=
  dircount_of [e] <= dircount /\ list_packed_size entryplus3_codec [e] <= maxcount - 128.

Lemma readdirplus_page fh d v a es1 es2 verf dircount maxcount :
  fh_from_nfs fhc fh = Ok d -> vfs_getattr d v = (Ret (Ok a), v) -> plus_listing d v (es1 ++ es2) -> 128 <= maxcount ->
  Forall (fun e => plus_fits dircount maxcount (into_entry fhc e)) es2 ->
  exists page rest, es2 = page ++ rest /\ (rest <> [] -> page <> []) /\
    packed_size READDIRPLUS3res_codec (NfsOk (mk_READDIRPLUS3resok (Some a) (cookieverf_from_attr (Some a))
      (mk_dirlistplus3 (map (into_entry fhc) page) (is_nil rest)))) <= maxcount /\
    forall xid, nfsproc3_readdirplus fs fhc xid (mk_READDIRPLUS3args fh (cookie_after dep_cookie es1) verf dircount maxcount) v =
      (Ret (NfsOk (mk_READDIRPLUS3resok (Some a) (cookieverf_from_attr (Some a))
         (mk_dirlistplus3 (map (into_entry fhc) page) (is_nil rest)))), v).
Proof.
  intros Hfh Hg Hl Hcount Hsizes. destruct (li_from _ _ _ _ _ Hl es1 es2 eq_refl) as (s & s1 & s2 & Hs & Hy & He).
  pose proof (readdirplus_fill fhc readdirplus_iter dircount (maxcount - 128) s v) as Hf. cbv zeta in Hf.
  destruct (fill_page _ _ _ _ _ _ _ _ _ _ _ _ _ (li_next _ _ _ _ _ Hl) Hy He Hf) as (l' & page & rest & s' & Ho & Hv & -> & Hwf & Hit & Hno).
  exists page, rest. split; [done|]. cbn in Hit.
  assert (rest <> [] -> page <> []) as Hne.
  { intros Hrest ->. destruct rest as [|e rest]; [done|]. specialize (Hno e rest eq_refl). cbn -[list_packed_size dircount_of] in Hno.
    apply Forall_cons in Hsizes as [[Hd Hp] _]. lia. }
  split; [exact Hne|]. split.
  { destruct Hwf as ([Hwf _ _] & _ & Hmax). pose proof (filled_size _ _ _ Hwf Hmax) as Hs'. rewrite Hit in Hs'.
    rewrite readdirplus_size. change (packed_size post_op_attr_codec (Some a)) with 88. lia. }
  intros xid. unfold nfsproc3_readdirplus.
  cbn [READDIRPLUS3args_dir READDIRPLUS3args_cookie READDIRPLUS3args_dircount READDIRPLUS3args_maxcount].
  rewrite (fh_to_id_ok _ _ _ _ _ Hfh), (pbind_Ret _ _ _ _ _ Hg). cbn [nfs_option_from_result]. cbv zeta.
  rewrite (proj2 (Z.ltb_ge _ _)) by lia. rewrite (pbind_Ret _ _ _ _ _ Hs). unfold pbind at 1.
  destruct (fill_loop readdirplus_iter (plus_try_push fhc) (fill_fuel (maxcount - 128)) s
    (bounded_entry_plus_list_new dircount (maxcount - 128)) v) as [o v1].
  cbn [fst snd] in Ho, Hv. subst o v1. rewrite (pbind_Ret _ _ _ _ _ (li_drop _ _ _ _ _ Hl s')).
  unfold bounded_entry_plus_list_into_inner, bounded_list_into_inner. rewrite Hit.
  destruct rest as [|e rest]; cbn [is_nil negb]; [by rewrite andb_false_r|].
  rewrite bool_decide_false; [done|]. intros Enil%map_eq_nil. by apply Hne.
Qed.

(** The verifier of a directory whose modification time is the epoch is the one of
    clients that have none: what READDIR gives with a page is refused with its
    cookie, so only the first page can be read. *)
Theorem readdir_epoch_stuck xid fh d v a cookie count :
  fh_from_nfs fhc fh = Ok d -> vfs_getattr d v = (Ret (Ok a), v) -> fattr3_mtime a = mk_nfstime3 0 0 -> cookie <> 0 ->
  nfsproc3_readdir fs fhc xid (mk_READDIR3args fh cookie (cookieverf_from_attr (Some a)) count) v =
    (Ret (NfsErr NFS3ERR_BAD_COOKIE (mk_READDIR3resfail None)), v).
Proof.
  intros Hfh Hg Ht Hc. unfold nfsproc3_readdir. cbn [READDIR3args_dir READDIR3args_cookie READDIR3args_cookieverf].
  rewrite (fh_to_id_ok _ _ _ _ _ Hfh), (pbind_Ret _ _ _ _ _ Hg). cbn [nfs_option_from_result]. cbv zeta.
  replace (cookieverf_is_none (cookieverf_from_attr (Some a))) with true by (unfold cookieverf_from_attr; by rewrite Ht).
  by rewrite (proj2 (Z.eqb_neq _ _)).
Qed.
End pages.

(** ** Connections that answer *)

Section answers.
Context {V H : Type} `{!FileHandle H} (fs : NfsFileSystem V H) (fhc : FileHandleConverter).

(** What a program relies on in its connection, whatever the local state of the
    program: [at_server k c v] says that [k] more calls can be made on [c] and that
    the file system is in the state [v]; such a call returns what the procedure
    computes, when its arguments and its result fit in a message. *)
Class Answers {C L : Type} (calls : NfsCalls (C * L)) (at_server : nat -> C -> V -> Prop) : Prop := {
  answers_call : forall {A R : Set} (p : procedure A R) args k c v l r v',
    at_server (S k) c v -> valid (args_codec p) args -> packed_size (args_codec p) args <= MASK - 1000 ->
    (forall xid, run_procedure fs fhc p xid args v = (Ret r, v')) -> 24 + packed_size (res_codec p) r <= MASK ->
    exists c', nfs p args (c, l) = (Ret (Ok r), (c', l)) /\ at_server k c' v';
  answers_fewer : forall k k' c v, (k <= k')%nat -> at_server k' c v -> at_server k c v;
}.

Lemma on_server_run {A L} (m : prog V A) a v v' (l : L) :
  m v = (Ret a, v') -> on_server m (v, l) = (Ret (Ok a), (v', l)).
Proof. unfold on_server. by intros ->. Qed.

(** The procedures themselves. *)
Lemma served_answers {L} xid : Answers (L := L) (served fs fhc xid) (fun _ c v => c = v).
Proof.
  split; [|done]. intros A R p args k c v l r v' -> _ _ Hrun _. exists v'. split; [|done]. by apply on_server_run.
Qed.
End answers.

(** ** The loops of [ls] *)

Lemma tbind_Ok {S A B E} (m : prog S (result A E)) (k : A -> prog S (result B E)) s a s' :
  m s = (Ret (Ok a), s') -> tbind m k s = k a s'.
Proof. intros Hm. unfold tbind. by rewrite (pbind_Ret _ _ _ _ _ Hm). Qed.

Lemma cookie_after_app {T} (cookie : T -> Z) es e : cookie_after cookie (es ++ [e]) = cookie e.
Proof. unfold cookie_after. by rewrite last_snoc. Qed.

(** A last entry of a page is the one whose cookie comes next. *)
Lemma last_page {T} (page : list T) : page <> [] -> exists page' e, page = page' ++ [e].
Proof. intros Hne. destruct page as [|e page' _] using rev_ind; [done|]. by exists page', e. Qed.

Section ls.
Context {V H : Type} `{!FileHandle H} `{!FileHandleLaws H} (fs : NfsFileSystem V H) (fhc : FileHandleConverter).
Context (lossy : list byte -> list byte).
Context {C : Type} `{calls : NfsCalls (C * list LsLine)} (at_server : nat -> C -> V -> Prop) `{!Answers fs fhc calls at_server}.
Local Instance ls_console : Console (C * list LsLine) := transcript.

Definition name_line (e : entry3) : LsLine := NameLine (lossy (entry3_name e)).

Lemma print_line_run line (c : C) out : print_line line (c, out) = (Ret tt, (c, out ++ [line])).
Proof. done. Qed.

Lemma print_names_run entries (c : C) out : print_names lossy entries (c, out) = (Ret tt, (c, out ++ map name_line entries)).
Proof.
  revert out. induction entries as [|e entries IH]; intros out; cbn [print_names map]; [by rewrite app_nil_r|].
  rewrite (pbind_Ret _ _ _ _ _ (print_line_run _ _ _)), IH. by rewrite <- (assoc_L (++)).
Qed.

Lemma print_lines_run entries (c : C) out : print_lines lossy entries (c, out) = (Ret tt, (c, out ++ map (ls_line lossy) entries)).
Proof.
  revert out. induction entries as [|e entries IH]; intros out; cbn [print_lines map]; [by rewrite app_nil_r|].
  rewrite (pbind_Ret _ _ _ _ _ (print_line_run _ _ _)), IH. by rewrite <- (assoc_L (++)).
Qed.

Context (d : H) (fh : nfs_fh3) (a : fattr3) (v : V).
Context (Hfh : fh_from_nfs fhc fh = Ok d) (Hattr : vfs_getattr d v = (Ret (Ok a), v)).
Context (Hvalid : valid nfs_fh3_codec fh) (Hsize : packed_size nfs_fh3_codec fh <= 100).

(** The modification time of a directory makes a verifier that is not the one of
    clients that have none. *)
Definition versioned : Prop := cookieverf_is_none (cookieverf_from_attr (Some a)) = false.

Lemma ls_readdir_run fuel k c es1 es2 verf out :
  versioned -> dir_listing fs d v (es1 ++ es2) -> verf_ok verf (cookie_after entry3_cookie es1) a -> len verf = 8 ->
  Forall (fun e => 108 + list_packed_size entry3_codec [e] <= PAGE) es2 -> (length es2 < fuel)%nat ->
  at_server (fuel + k) c v ->
  exists c', ls_readdir lossy fuel fh (cookie_after entry3_cookie es1) verf (c, out) =
      (Ret (Ok tt), (c', out ++ map name_line es2)) /\ at_server k c' v.
Proof.
  intros Hver. revert c es1 es2 verf out. induction fuel as [|fuel IH]; intros c es1 es2 verf out Hl Hverf Hv8 Hsizes Hlen Hat; [lia|].
  destruct (readdir_page fs fhc fh d v a es1 es2 verf PAGE Hfh Hattr Hl Hverf ltac:(done) Hsizes)
    as (page & rest & -> & Hne & Hrsize & Hrun).
  set (resok := mk_READDIR3resok _ _ _) in Hrsize, Hrun.
  destruct (answers_call fs fhc READDIR (mk_READDIR3args fh (cookie_after entry3_cookie es1) verf PAGE) (fuel + k) c v out (NfsOk resok) v
    Hat) as (c1 & Hcall & Hat1); [| |exact Hrun|unfold PAGE, MASK in *; cbn [res_codec]; lia|].
  { pose proof (cookie_after_u64 _ _ _ _ _ _ Hl). cbn -[in_u64 nfs_fh3_codec]. by split_and!. }
  { cbn -[nfs_fh3_codec]. change (add_padding NFS3_COOKIEVERFSIZE) with 8. unfold MASK. lia. }
  cbn [ls_readdir]. rewrite (tbind_Ok _ _ _ _ _ Hcall).
  rewrite pbind_Ret with (a := resok) (s' := (c1, out)) by done. unfold resok.
  cbn [READDIR3resok_reply READDIR3resok_cookieverf dirlist3_entries dirlist3_eof].
  rewrite (pbind_Ret _ _ _ _ _ (print_names_run _ _ _)).
  destruct rest as [|e rest]; cbn [is_nil].
  { rewrite app_nil_r. exists c1. split; [done|]. apply (answers_fewer fs fhc k (fuel + k)); [lia|done]. }
  destruct (last_page page) as (page' & e' & ->); [by apply Hne|]. rewrite last_snoc.
  rewrite (assoc_L (++)), (assoc_L (++)) in Hl.
  destruct (IH c1 (es1 ++ page' ++ [e']) (e :: rest) (cookieverf_from_attr (Some a)) (out ++ map name_line (page' ++ [e'])))
    as (c2 & Hrun2 & Hat2).
  - by rewrite (assoc_L (++)).
  - unfold verf_ok. by rewrite Hver.
  - done.
  - by apply Forall_app in Hsizes as [_ ?].
  - rewrite !length_app in Hlen. cbn in *. lia.
  - done.
  - rewrite (assoc_L (++)), cookie_after_app in Hrun2. exists c2. split; [|done].
    rewrite Hrun2, (map_app _ (page' ++ [e']) (e :: rest)). by rewrite (assoc_L (++)).
Qed.

Lemma into_entry_cookie e : entryplus3_cookie (into_entry fhc e) = dep_cookie e.
Proof. by destruct e. Qed.

Lemma ls_readdirplus_run fuel k c es1 es2 verf out :
  plus_listing fs d v (es1 ++ es2) -> len verf = 8 ->
  Forall (fun e => plus_fits PAGE PAGE (into_entry fhc e)) es2 -> (length es2 < fuel)%nat -> at_server (fuel + k) c v ->
  exists c', ls_readdirplus lossy fuel fh (cookie_after dep_cookie es1) verf (c, out) =
    (Ret (Ok tt), (c', out ++ map (fun e => ls_line lossy (into_entry fhc e)) es2)) /\ at_server k c' v.
Proof.
  revert c es1 es2 verf out. induction fuel as [|fuel IH]; intros c es1 es2 verf out Hl Hv8 Hsizes Hlen Hat; [lia|].
  destruct (readdirplus_page fs fhc fh d v a es1 es2 verf PAGE PAGE Hfh Hattr Hl ltac:(done) Hsizes)
    as (page & rest & -> & Hne & Hrsize & Hrun).
  set (resok := mk_READDIRPLUS3resok _ _ _) in Hrsize, Hrun.
  destruct (answers_call fs fhc READDIRPLUS (mk_READDIRPLUS3args fh (cookie_after dep_cookie es1) verf PAGE PAGE) (fuel + k) c v out
    (NfsOk resok) v
    Hat) as (c1 & Hcall & Hat1); [| |exact Hrun|unfold PAGE, MASK in *; cbn [res_codec]; lia|].
  { pose proof (cookie_after_u64 _ _ _ _ _ _ Hl). cbn -[in_u64 nfs_fh3_codec]. by split_and!. }
  { cbn -[nfs_fh3_codec]. change (add_padding NFS3_COOKIEVERFSIZE) with 8. unfold MASK. lia. }
  cbn [ls_readdirplus]. rewrite (tbind_Ok _ _ _ _ _ Hcall).
  rewrite pbind_Ret with (a := resok) (s' := (c1, out)) by done. unfold resok.
  cbn [READDIRPLUS3resok_reply READDIRPLUS3resok_cookieverf dirlistplus3_entries dirlistplus3_eof].
  rewrite (pbind_Ret _ _ _ _ _ (print_lines_run _ _ _)), map_map.
  destruct rest as [|e rest]; cbn [is_nil].
  { rewrite app_nil_r. exists c1. split; [done|]. apply (answers_fewer fs fhc k (fuel + k)); [lia|done]. }
  destruct (last_page page) as (page' & e' & ->); [by apply Hne|]. rewrite (map_app _ page' [e']). cbn [map].
  rewrite last_snoc, into_entry_cookie. rewrite (assoc_L (++)), (assoc_L (++)) in Hl.
  destruct (IH c1 (es1 ++ page' ++ [e']) (e :: rest) (cookieverf_from_attr (Some a))
    (out ++ map (fun e => ls_line lossy (into_entry fhc e)) (page' ++ [e']))) as (c2 & Hrun2 & Hat2).
  - by rewrite (assoc_L (++)).
  - done.
  - by apply Forall_app in Hsizes as [_ ?].
  - rewrite !length_app in Hlen. cbn in *. lia.
  - done.
  - rewrite (assoc_L (++)), cookie_after_app in Hrun2. exists c2. split; [|done].
    rewrite Hrun2, (map_app _ (page' ++ [e']) (e :: rest)). by rewrite (assoc_L (++)).
Qed.

(** Over a directory that can be listed, [ls] prints its entries twice. *)
Lemma ls_run fuel k c es pes out :
  versioned -> dir_listing fs d v es -> plus_listing fs d v pes ->
  Forall (fun e => 108 + list_packed_size entry3_codec [e] <= PAGE) es ->
  Forall (fun e => plus_fits PAGE PAGE (into_entry fhc e)) pes -> (length es < fuel)%nat -> (length pes < fuel)%nat ->
  at_server (fuel + (fuel + k)) c v ->
  exists c', ls lossy fuel fh (c, out) = (Ret (Ok tt), (c', out ++ HeadingReaddir :: map name_line es ++
    HeadingReaddirplus :: map (fun e => ls_line lossy (into_entry fhc e)) pes)) /\ at_server k c' v.
Proof.
  intros Hver Hl Hpl Hs Hps Hf Hpf Hat. unfold ls. rewrite (pbind_Ret _ _ _ _ _ (print_line_run _ _ _)).
  destruct (ls_readdir_run fuel (fuel + k) c [] es cookieverf_default (out ++ [HeadingReaddir]) Hver Hl eq_refl eq_refl Hs Hf Hat)
    as (c1 & Hrun1 & Hat1). cbn [cookie_after last] in Hrun1.
  rewrite (tbind_Ok _ _ _ _ _ Hrun1), (pbind_Ret _ _ _ _ _ (print_line_run _ _ _)).
  destruct (ls_readdirplus_run fuel k c1 [] pes cookieverf_default
    (((out ++ [HeadingReaddir]) ++ map name_line es) ++ [HeadingReaddirplus]) Hpl eq_refl Hps Hpf Hat1) as (c2 & Hrun2 & Hat2).
  exists c2. split; [|done]. cbn [cookie_after last] in Hrun2. rewrite Hrun2. by rewrite <- !(assoc_L (++)).
Qed.
End ls.
