(* ===== verification/ProgramsMemFs.v ===== *)
(** * The programs on the in-memory file system

    [ls] on a directory of the in-memory file system prints each of its entries,
    and [download_folder] copies the tree below a directory to the local disk,
    through the procedures of the server. *)

From S2P Require Import Prelude Xdr XdrLaws Nfs3Types RpcTypes Handle Vfs NfsExt NfsHandlers NfsHandlersLaws FsUtil RpcClient.
From S2P Require Import MemFs MemFsTree MemFsLaws MemFsTheorems MemFsNames MemFsProperties RemoteMemFs Programs ProgramsLaws.
Open Scope Z_scope.
Open Scope nfs_scope.

Section memfs.
Context `{Hash : HashSetOrder} `{Target}.

(** ** Directories are listings *)

Definition attr_at (f : Fs) (i : Z) : post_op_attr := option_map entry_attr (fs_get f i).
Definition plus_at (f : Fs) (i : Z) : DirEntryPlus FileHandleU64 :=
  mkDirEntryPlus i (name_at f i) i (attr_at f i) (Some (fh64_new i)).

Lemma memfs_plus_yields m l :
  mf_poisoned m = false -> (forall i, i ∈ l -> is_Some (fs_get (mf_fs m) i)) ->
  yields memfs_readdirplus_iter l m (map (plus_at (mf_fs m)) l) [] m.
Proof.
  intros Hp. induction l as [|i l IH]; intros Hall; [constructor|].
  destruct (Hall i) as [e E]; [left|]. cbn [map]. eapply yields_cons; [|apply IH; intros; apply Hall; by right].
  cbn. unfold with_read. rewrite Hp. cbn. rewrite E. unfold plus_at, name_at, attr_at. by rewrite E.
Qed.

Section directory.
Context (m : MemFs) (d : Z) (dir : Dir).
Context (Hinv : memfs_inv m) (Hp : mf_poisoned m = false) (Ed : fs_get (mf_fs m) d = Some (EDir dir)) (Hd : in_u64 d).

Lemma content_there i : i ∈ dir_content dir -> is_Some (fs_get (mf_fs m) i).
Proof. intros Hi. destruct Hinv as [W _]. apply (kid_entry (mf_fs m) d i W). by apply (kid_get (mf_fs m) d dir). Qed.

Lemma memfs_next_quiet {R} (visit : Z -> Entry -> R) ids : snd (memfs_next visit ids m) = m.
Proof. unfold memfs_next. destruct ids as [|i ids]; [done|]. unfold with_read. rewrite Hp. by destruct (visit_next_entry _ _ _) as [[]]. Qed.

Lemma make_iter_after l1 l2 : dir_content dir = l1 ++ l2 -> Forall (fun i => i <> 0) (dir_content dir) ->
  memfs_make_iter d (cookie_after (fun i => i) l1) m = (Ret (Ok l2), m).
Proof.
  intros El Hne. unfold memfs_make_iter, with_read, fs_make_iter. rewrite Hp, Ed. cbn [as_dir].
  destruct (decide (l1 = [])) as [->|Hl1]; [by rewrite El|].
  destruct (last_page l1 Hl1) as (l1' & i & ->). rewrite cookie_after_app.
  assert (i <> 0 /\ i ∉ l1') as [Hi Hn].
  { split.
    - rewrite Forall_forall in Hne. apply Hne. rewrite El, !elem_of_app. by left; right; left.
    - destruct Hinv as [W _]. pose proof (dir_nodup _ _ _ W Ed) as Hnd. rewrite El in Hnd.
      apply NoDup_app in Hnd as (Hnd & _). apply NoDup_app in Hnd as (_ & Hdis & _). intros Hi. apply (Hdis i Hi). left. }
  rewrite (proj2 (Z.eqb_neq _ _)) by done. rewrite El, <- (assoc_L (++)). cbn [app]. by rewrite (after_id_split i l1' l2 Hn).
Qed.

Lemma map_split {A B} (f : A -> B) l es1 es2 : map f l = es1 ++ es2 -> exists l1 l2, l = l1 ++ l2 /\ es1 = map f l1 /\ es2 = map f l2.
Proof. intros (l1 & l2 & -> & <- & <-)%map_eq_app. by exists l1, l2. Qed.

Lemma cookie_after_map {A} (f : Z -> A) (cookie : A -> Z) l :
  (forall i, cookie (f i) = i) -> cookie_after cookie (map f l) = cookie_after (fun i => i) l.
Proof.
  intros Hf. destruct l as [|i l _] using rev_ind; [done|]. rewrite map_app. cbn [map]. rewrite !cookie_after_app. apply Hf.
Qed.

Context (Hne : Forall (fun i => i <> 0) (dir_content dir)) (Hu : Forall in_u64 (dir_content dir)).

Lemma memfs_dir_listing : dir_listing memfs_file_system (fh64_new d) m (listed (mf_fs m) (dir_content dir)).
Proof.
  split.
  - intros es1 es2 Hes. destruct (map_split _ _ _ _ Hes) as (l1 & l2 & El & -> & ->).
    rewrite cookie_after_map by done. exists l2, [], []. split; [|split; [|done]].
    + cbn. rewrite fh64_new_as_u64 by done. by apply make_iter_after.
    + apply memfs_yields; [done|]. intros i Hi. apply content_there. rewrite El. apply elem_of_app. by right.
  - intros s. apply memfs_next_quiet.
  - done.
  - apply Forall_map, Forall_forall. intros i Hi. rewrite Forall_forall in Hne, Hu. cbn. auto.
Qed.

Lemma memfs_plus_listing : plus_listing memfs_file_system (fh64_new d) m (map (plus_at (mf_fs m)) (dir_content dir)).
Proof.
  split.
  - intros es1 es2 Hes. destruct (map_split _ _ _ _ Hes) as (l1 & l2 & El & -> & ->).
    rewrite cookie_after_map by done. exists l2, [], []. split; [|split; [|done]].
    + cbn. rewrite fh64_new_as_u64 by done. by apply make_iter_after.
    + apply memfs_plus_yields; [done|]. intros i Hi. apply content_there. rewrite El. apply elem_of_app. by right.
  - intros s. apply memfs_next_quiet.
  - done.
  - apply Forall_map, Forall_forall. intros i Hi. rewrite Forall_forall in Hne, Hu. cbn. auto.
Qed.
End directory.

(** ** [ls] *)

Lemma opaque_size_le data : packed_size opaque_codec data <= len data + 7.
Proof. cbn -[add_padding]. rewrite add_padding_div. Z.to_euclidean_division_equations; lia. Qed.

Lemma plus_entry_size fhc f i :
  converter_wf fhc -> len (name_at f i) <= 100000 -> plus_fits PAGE PAGE (into_entry fhc (plus_at f i)).
Proof.
  intros Hwf Hl. pose proof (opaque_size_le (name_at f i)) as Hs. destruct (handle_of_valid fhc i Hwf) as [_ Hh].
  unfold plus_fits, PAGE. split.
  - unfold dircount_of. cbn [map foldr]. unfold entry_dircount, into_entry, plus_at. cbn -[opaque_codec]. lia.
  - unfold into_entry, plus_at. cbn -[opaque_codec post_op_attr_codec nfs_fh3_codec].
    pose proof (post_op_attr_size (attr_at f i)). unfold handle_of in Hh. lia.
Qed.

(** The two lines of [ls] for an entry. *)
Definition ls_first (lossy : list byte -> list byte) (f : Fs) (i : Z) : LsLine := NameLine (lossy (name_at f i)).
Definition ls_second (lossy : list byte -> list byte) (f : Fs) (i : Z) : LsLine :=
  match fs_get f i with
  | Some (EDir dir) => DirLine (lossy (dir_name dir)) (systime (fattr3_mtime (dir_attr dir)))
  | Some (EFile file) => FileLine (lossy (file_name file)) (fattr3_size (file_attr file)) (systime (fattr3_mtime (file_attr file)))
  | None => FileLine (lossy []) 0 0
  end.

Lemma ls_second_line fhc lossy m d dir i :
  memfs_inv m -> fs_get (mf_fs m) d = Some (EDir dir) -> i ∈ dir_content dir ->
  ls_line lossy (into_entry fhc (plus_at (mf_fs m) i)) = ls_second lossy (mf_fs m) i.
Proof.
  intros Hinv Ed Hi. destruct (content_there m d dir Hinv Ed i Hi) as [e E]. destruct Hinv as [W _].
  pose proof (fw_entries _ W _ _ E) as [_ Hok].
  unfold ls_line, into_entry, plus_at, ls_second, name_at, attr_at. rewrite E. destruct e as [file|dir']; cbn.
  - destruct Hok as [Ht _]. by rewrite bool_decide_false by (by rewrite Ht).
  - destruct Hok as [Ht _]. by rewrite bool_decide_true.
Qed.

Lemma content_u64 m d dir :
  memfs_inv m -> (forall i, is_Some (fs_get (mf_fs m) i) -> in_u64 i) -> fs_get (mf_fs m) d = Some (EDir dir) ->
  Forall in_u64 (dir_content dir).
Proof. intros Hinv Hids Ed. apply Forall_forall. intros i Hi. by apply Hids, (content_there m d dir Hinv Ed). Qed.

Lemma content_not_zero m d dir :
  memfs_inv m -> fs_get (mf_fs m) 0 = None -> fs_get (mf_fs m) d = Some (EDir dir) ->
  Forall (fun i => i <> 0) (dir_content dir).
Proof.
  intros Hinv H0 Ed. rewrite Forall_forall. intros i Hi ->. destruct (content_there m d dir Hinv Ed 0 Hi) as [e E]. congruence.
Qed.

(** What [ls] prints of a directory: each entry twice. *)
Definition ls_output (lossy : list byte -> list byte) (f : Fs) (l : list Z) : list LsLine :=
  HeadingReaddir :: map (ls_first lossy f) l ++ HeadingReaddirplus :: map (ls_second lossy f) l.

Lemma ls_memfs (fhc : FileHandleConverter) (lossy : list byte -> list byte) {C : Type} (calls : NfsCalls (C * list LsLine))
  (at_server : nat -> C -> MemFs -> Prop) m d dir (fuel k : nat) c out :
  Answers memfs_file_system fhc calls at_server ->
  converter_wf fhc -> memfs_inv m -> mf_poisoned m = false -> (forall i, is_Some (fs_get (mf_fs m) i) -> in_u64 i) ->
  fs_get (mf_fs m) d = Some (EDir dir) -> fs_get (mf_fs m) 0 = None ->
  versioned (dir_attr dir) -> (forall i, i ∈ dir_content dir -> len (name_at (mf_fs m) i) <= 100000) ->
  (length (dir_content dir) < fuel)%nat -> at_server (fuel + (fuel + k))%nat c m ->
  exists c', @ls _ calls transcript lossy fuel (handle_of fhc d) (c, out) =
      (Ret (Ok tt), (c', out ++ ls_output lossy (mf_fs m) (dir_content dir))) /\ at_server k c' m.
Proof.
  intros Hans Hwf Hinv Hp Hids Ed H0 Hver Hnames Hfuel Hat. assert (in_u64 d) as Hd by (apply Hids; by eexists).
  pose proof (content_not_zero m d dir Hinv H0 Ed) as Hne. pose proof (content_u64 m d dir Hinv Hids Ed) as Hu.
  destruct (handle_of_valid fhc d Hwf) as [Hv Hs].
  destruct (ls_run memfs_file_system fhc lossy at_server (fh64_new d) (handle_of fhc d) (dir_attr dir) m
    (fh_from_to_nfs fhc (fh64_new d) Hwf)) with (es := listed (mf_fs m) (dir_content dir))
      (pes := map (plus_at (mf_fs m)) (dir_content dir)) (fuel := fuel) (k := k) (c := c) (out := out) as (c' & Hrun & Hat'); try done.
  - cbn. rewrite fh64_new_as_u64 by done. unfold memfs_getattr, with_read. by rewrite Hp, Ed.
  - by apply memfs_dir_listing with (dir := dir).
  - by apply memfs_plus_listing with (dir := dir).
  - apply Forall_map, Forall_forall. intros i Hi%Hnames. pose proof (opaque_size_le (name_at (mf_fs m) i)) as Hsz.
    unfold PAGE. cbn -[opaque_codec]. change filename3_codec with opaque_codec. lia.
  - apply Forall_map, Forall_forall. intros i Hi. by apply plus_entry_size, Hnames.
  - unfold listed. by rewrite length_map.
  - by rewrite length_map.
  - exists c'. split; [|done]. etrans; [exact Hrun|]. unfold ls_output.
    do 2 f_equal. f_equal. f_equal. unfold listed. rewrite !map_map. f_equal. f_equal. apply map_ext_in.
    intros i Hi%list_elem_of_In. by apply ls_second_line with (d := d) (dir := dir).
Qed.

(** ** [download_file] *)

Section download.
Context (fhc : FileHandleConverter) (lossy : list byte -> list byte) (Hwf : converter_wf fhc).
Context {C : Type} `{calls : NfsCalls (C * Disk)} (at_server : nat -> C -> MemFs -> Prop)
  `{Hans : !Answers memfs_file_system fhc calls at_server}.
Local Instance memfs_disk : LocalDisk (C * Disk) path := map_disk.

Context (m : MemFs) (Hinv : memfs_inv m) (Hp : mf_poisoned m = false).
Context (Hids : forall i, is_Some (fs_get (mf_fs m) i) -> in_u64 i).
Local Abbreviation f := (mf_fs m).

Lemma getattr_run i e : fs_get f i = Some e -> memfs_getattr i m = (Ret (Ok (entry_attr e)), m).
Proof. intros E. unfold memfs_getattr, with_read. by rewrite Hp, E. Qed.

(** The chunk of a file that a READ gives. *)
Lemma read_run i file off count :
  fs_get f i = Some (EFile file) -> 0 <= count -> 0 <= off <= len (file_content file) -> off + count <= usize_MAX ->
  exists n, memfs_read i off count m =
      (Ret (Ok (take n (drop (Z.to_nat off) (file_content file)), len (file_content file) <=? off + count)), m) /\
    Z.of_nat n = Z.min (len (file_content file) - off) count.
Proof.
  intros E Hcount Hoff Hmax. set (X := file_content file) in *.
  exists (Z.to_nat ((if len X <? off + count then len X else off + count) - off)). split.
  - unfold memfs_read, with_read. rewrite Hp, E. cbn [as_file]. unfold file_read. fold X.
    rewrite (proj2 (Z.leb_le _ _)) by done.
    replace (if len X <=? off then len X else off) with off; [done|]. destruct (Z.leb_spec (len X) off); lia.
  - destruct (Z.ltb_spec (len X) (off + count)); lia.
Qed.

Lemma disk_write_run (cn : C) p c data D :
  D !! p = Some (Some c) -> locally (disk_write_all p data) (cn, D) = (Ret (Ok tt), (cn, <[p := Some (c ++ data)]> D)).
Proof.
  intros E. unfold locally, map_err, pbind. cbn -[alter]. do 2 f_equal. apply map_eq. intros q.
  destruct (decide (p = q)) as [<-|Hne]; [by rewrite lookup_alter_eq, lookup_insert_eq, E|by rewrite lookup_alter_ne, lookup_insert_ne].
Qed.

Lemma download_loop_run fuel k c i file p off D :
  fs_get f i = Some (EFile file) -> 0 <= off <= len (file_content file) -> len (file_content file) + PAGE <= usize_MAX ->
  (1 <= fuel)%nat -> len (file_content file) - off <= PAGE * Z.of_nat fuel ->
  D !! p = Some (Some (take (Z.to_nat off) (file_content file))) -> at_server (fuel + k) c m ->
  exists c', download_loop fuel (handle_of fhc i) p off (c, D) = (Ret (Ok tt), (c', <[p := Some (file_content file)]> D)) /\
    at_server k c' m.
Proof.
  intros E. set (X := file_content file). revert c off D. induction fuel as [|fuel IH]; intros c off D Hoff Hmax H1 Hfuel HD Hat; [lia|].
  destruct (read_run i file off PAGE E ltac:(done) Hoff ltac:(lia)) as (n & Hread & Hn). fold X in Hread, Hn.
  assert (len (take n (drop (Z.to_nat off) X)) = Z.of_nat n) as Hlen.
  { unfold len in *. rewrite length_take, length_drop. lia. }
  pose proof (fun xid => read_answer fhc xid i off PAGE _ _ _ m Hwf (Hids i ltac:(by eexists)) (getattr_run i _ E) Hread
    ltac:(rewrite Hlen; unfold PAGE, u32_MAX in *; lia)) as Hcall.
  set (data := take n (drop (Z.to_nat off) X)) in *. set (resok := mk_READ3resok _ _ _ _) in Hcall.
  destruct (answers_call memfs_file_system fhc READ (mk_READ3args (handle_of fhc i) off PAGE) (fuel + k) c m D (NfsOk resok) m Hat)
    as (c1 & Hcall1 & Hat1); [| |exact Hcall| |].
  { destruct (handle_of_valid fhc i Hwf) as [Hv _]. cbn -[in_u64 nfs_fh3_codec]. unfold in_u64, usize_MAX, PAGE in *. split_and!; try done; lia. }
  { destruct (handle_of_valid fhc i Hwf) as [_ Hs]. cbn -[nfs_fh3_codec]. unfold MASK. lia. }
  { unfold resok. pose proof (read_result_size (Some (entry_attr (EFile file))) (len data) (len X <=? off + PAGE) data
      ltac:(rewrite Hlen; unfold PAGE in *; lia)). cbn [res_codec]. unfold MASK. lia. }
  cbn [download_loop]. rewrite tbind_Ok with (a := NfsOk resok) (s' := (c1, D)); cycle 1.
  { unfold remotely, map_err. by rewrite (pbind_Ret _ _ _ _ _ Hcall1). }
  erewrite pbind_Ret by reflexivity. unfold resok. cbn [READ3resok_data READ3resok_eof].
  rewrite (tbind_Ok _ _ _ _ _ (disk_write_run c1 p _ _ D HD)). unfold data. rewrite take_take_drop. fold data. rewrite Hlen.
  rewrite (proj2 (Z.ltb_ge _ _)) by (unfold usize_MAX, u64_MAX in *; lia).
  destruct (Z.leb_spec (len X) (off + PAGE)) as [Heof|Hmore].
  - exists c1. rewrite take_ge by (unfold len in *; lia). split; [done|]. apply (answers_fewer memfs_file_system fhc k (fuel + k)); [lia|done].
  - destruct (IH c1 (off + Z.of_nat n) (<[p := Some (take (Z.to_nat off + n) X)]> D)) as (c2 & Hrun2 & Hat2); try done.
    1-3: unfold PAGE in *; lia.
    { rewrite lookup_insert_eq. do 3 f_equal. lia. }
    exists c2. split; [|done]. etrans; [exact Hrun2|]. by rewrite insert_insert_eq.
Qed.

(** ** [download_folder] *)

(** Something to be on the disk: a directory, or a file with its bytes. *)
Local Abbreviation item := (path * option (list byte))%type.

Definition put (l : list item) (D : Disk) : Disk := foldl (fun D '(p, c) => <[p := c]> D) D l.

Lemma put_app l1 l2 D : put (l1 ++ l2) D = put l2 (put l1 D).
Proof. apply foldl_app. Qed.

(** What there is to copy for the entry [j] of a directory that is copied to [p],
    and, with [n] levels, below the directory [i]: the names that the program
    skips, and the paths it makes of the others. *)
Definition copy_child (sub : path -> Z -> option (list item)) (p : path) (j : Z) : option (list item) :=
  let name := lossy (name_at f j) in
  if bool_decide (name = dot) || bool_decide (name = dotdot) then Some []
  else
    match fs_get f j with
    | Some (EDir _) => option_map (cons (path_push p name, None)) (sub (path_push p name) j)
    | Some (EFile file) => Some [(lossy (path_push p name), Some (file_content file))]
    | None => None
    end.

Fixpoint copies (n : nat) (p : path) (i : Z) : option (list item) :=
  match n with
  | O => None
  | S n =>
      match fs_get f i with
      | Some (EDir dir) => option_map (@concat item) (mapM (copy_child (copies n) p) (dir_content dir))
      | _ => None
      end
  end.

(** The directories of a queue, and what there is to copy below them. *)
Definition todo (q : Queue) (l : list item) : Prop :=
  exists ls, Forall2 (fun '(p, fh) lq => exists n i, fh = handle_of fhc i /\ copies n p i = Some lq) q ls /\ l = concat ls.

Lemma todo_app q1 q2 l1 l2 : todo q1 l1 -> todo q2 l2 -> todo (q1 ++ q2) (l1 ++ l2).
Proof. intros (ls1 & H1 & ->) (ls2 & H2 & ->). exists (ls1 ++ ls2). by rewrite concat_app; split; [apply Forall2_app|]. Qed.

Lemma todo_nil : todo [] [].
Proof. exists []. by split. Qed.

Context (fuel : nat).

(** The calls that are left, counted in another way. *)
Ltac budget H := match type of H with at_server ?n _ _ => match goal with |- at_server ?n' _ _ => replace n' with n by lia; exact H end end.

(** Names, files and directories that the program gets through. *)
Record fits : Prop := {
  ft_fuel : (1 <= fuel)%nat;
  ft_zero : fs_get f 0 = None;
  ft_names : forall i, len (name_at f i) <= 100000;
  ft_dirs : forall i dir, fs_get f i = Some (EDir dir) -> (length (dir_content dir) < fuel)%nat;
  ft_files : forall i file, fs_get f i = Some (EFile file) ->
    len (file_content file) <= PAGE * Z.of_nat fuel /\ len (file_content file) + PAGE <= usize_MAX;
}.
Context (Hfits : fits).

Lemma download_file_run k c i file p D :
  fs_get f i = Some (EFile file) -> at_server (fuel + k) c m ->
  exists c', download_file fuel (handle_of fhc i) p (c, D) = (Ret (Ok tt), (c', <[p := Some (file_content file)]> D)) /\
    at_server k c' m.
Proof.
  intros E Hat. destruct (ft_files Hfits _ _ E) as [Hl Hmax]. pose proof (len_nonneg (file_content file)).
  unfold download_file. rewrite tbind_Ok with (a := p) (s' := (c, <[p := Some []]> D)) by done.
  destruct (download_loop_run fuel k c i file p 0 (<[p := Some []]> D)) as (c' & Hrun & Hat');
    [first [done | lia | apply Hfits | apply lookup_insert_eq]..|].
  exists c'. split; [|done]. etrans; [exact Hrun|]. by rewrite insert_insert_eq.
Qed.

(** One entry: what is copied now, and what is left on the stack. Each item takes
    at most [fuel] calls, of READ for a file and of READDIRPLUS for a directory. *)
Lemma download_entry_run n p j fh q l k c D :
  copy_child (copies n) p j = Some l -> at_server (fuel * length l + k) c m ->
  exists c' now new later, download_entry lossy fuel p fh (into_entry fhc (plus_at f j)) q (c, D) =
      (Ret (Ok (new ++ q)), (c', put now D)) /\ at_server (fuel * (length new + length later) + k) c' m /\
    todo new later /\ now ++ later ≡ₚ l /\ (length new <= length now)%nat.
Proof.
  unfold copy_child, download_entry. intros Hl Hat. cbn [into_entry plus_at entryplus3_name dep_name].
  change (entryplus3_name (into_entry fhc (plus_at f j))) with (name_at f j).
  set (name := lossy (name_at f j)) in *. destruct (bool_decide (name = dot) || bool_decide (name = dotdot)).
  { injection Hl as <-. exists c, [], [], []. split_and!; [done|done|apply todo_nil|done|done]. }
  destruct (fs_get f j) as [e|] eqn:E; [|done].
  assert (entry_object fh (into_entry fhc (plus_at f j)) (c, D) =
    (Ret (Ok (Some (handle_of fhc j, entry_attr e))), (c, D))) as Hobj.
  { unfold entry_object, into_entry, plus_at, attr_at. cbn. by rewrite E. }
  rewrite (tbind_Ok _ _ _ _ _ Hobj). pose proof Hinv as [W _]. destruct (fw_entries _ W _ _ E) as [_ Hok].
  destruct e as [file|dir].
  - injection Hl as <-. destruct Hok as [Ht _]. rewrite bool_decide_false by (cbn; by rewrite Ht).
    destruct (download_file_run k c j file (lossy (path_push p name)) D E) as (c' & Hrun & Hat').
    { cbn [length] in Hat. by rewrite Nat.mul_1_r in Hat. }
    rewrite (tbind_Ok _ _ _ _ _ Hrun).
    exists c', [(lossy (path_push p name), Some (file_content file))], [], []. cbn [length Nat.add]. rewrite Nat.mul_0_r.
    split_and!; [done|done|apply todo_nil|done|cbn; lia].
  - destruct Hok as [Ht _]. rewrite bool_decide_true by done.
    destruct (copies n (path_push p name) j) as [lq|] eqn:Ec; [|done]. injection Hl as <-.
    exists c, [(path_push p name, None)], [(path_push p name, handle_of fhc j)], lq. split_and!; [done|exact Hat| |done|done].
    exists [lq]. split; [|cbn; by rewrite app_nil_r]. constructor; [|done]. by exists n, j.
Qed.

Lemma download_entries_run n p fh js ls q k c D :
  mapM (copy_child (copies n) p) js = Some ls -> at_server (fuel * length (concat ls) + k) c m ->
  exists c' now new later, download_entries lossy fuel p fh (map (fun j => into_entry fhc (plus_at f j)) js) q (c, D) =
      (Ret (Ok (new ++ q)), (c', put now D)) /\ at_server (fuel * (length new + length later) + k) c' m /\
    todo new later /\ now ++ later ≡ₚ concat ls /\ (length new <= length now)%nat.
Proof.
  intros Hls%mapM_Some. revert q k c D. induction Hls as [|j l js ls Hl _ IH]; intros q k c D Hat; cbn [map download_entries concat].
  { exists c, [], [], []. split_and!; [done|done|apply todo_nil|done|done]. }
  destruct (download_entry_run n p j fh q l (fuel * length (concat ls) + k) c D Hl) as (c1 & now1 & new1 & later1 & Hrun1 & Hat1 & Ht1 & Hp1 & Hl1).
  { cbn [concat] in Hat. rewrite length_app in Hat. budget Hat. }
  destruct (IH (new1 ++ q) (fuel * (length new1 + length later1) + k)%nat c1 (put now1 D))
    as (c2 & now2 & new2 & later2 & Hrun2 & Hat2 & Ht2 & Hp2 & Hl2).
  { budget Hat1. }
  exists c2, (now1 ++ now2), (new2 ++ new1), (later2 ++ later1). rewrite (tbind_Ok _ _ _ _ _ Hrun1), Hrun2.
  split_and!; [by rewrite put_app, (assoc_L (++))|rewrite !length_app; budget Hat2|by apply todo_app| |rewrite !length_app; lia].
  rewrite <- Hp1, <- Hp2. solve_Permutation.
Qed.

Section folder.
Context (d : Z) (dir : Dir) (Ed : fs_get f d = Some (EDir dir)).

Lemma download_pages_run pages n p js1 js2 ls verf q k c D :
  dir_content dir = js1 ++ js2 -> mapM (copy_child (copies n) p) js2 = Some ls -> (length js2 < pages)%nat -> len verf = 8 ->
  at_server (pages + fuel * length (concat ls) + k) c m ->
  exists c' now new later,
    download_pages lossy pages fuel p (handle_of fhc d) (cookie_after (fun i => i) js1) verf q (c, D) =
      (Ret (Ok (new ++ q)), (c', put now D)) /\ at_server (fuel * (length new + length later) + k) c' m /\
    todo new later /\ now ++ later ≡ₚ concat ls /\ (length new <= length now)%nat.
Proof.
  revert js1 js2 ls verf q k c D. induction pages as [|pages IH]; intros js1 js2 ls verf q k c D Hjs Hls Hlen Hv8 Hat; [lia|].
  assert (in_u64 d) as Hd by (apply Hids; by eexists).
  pose proof (memfs_plus_listing m d dir Hinv Hp Ed Hd (content_not_zero m d dir Hinv (ft_zero Hfits) Ed)
    (content_u64 m d dir Hinv Hids Ed)) as Hl. rewrite Hjs, map_app in Hl.
  assert (@vfs_getattr _ _ memfs_read_fs (fh64_new d) m = (Ret (Ok (dir_attr dir)), m)) as Hattr.
  { cbn. rewrite fh64_new_as_u64 by done. by rewrite (getattr_run d _ Ed). }
  destruct (readdirplus_page memfs_file_system fhc (handle_of fhc d) (fh64_new d) m (dir_attr dir)
    (map (plus_at f) js1) (map (plus_at f) js2) verf PAGE PAGE (fh_from_to_nfs fhc (fh64_new d) Hwf) Hattr Hl ltac:(done))
    as (page & rest & Hes & Hne & Hrsize & Hrun).
  { apply Forall_map, Forall_forall. intros i _. apply plus_entry_size; [done|apply Hfits]. }
  pose proof (cookie_after_u64 _ _ _ _ _ _ Hl) as Hcookie.
  rewrite cookie_after_map in Hrun, Hcookie by done. destruct (map_split _ _ _ _ Hes) as (l1 & l2 & -> & -> & ->).
  rewrite map_map in Hrun, Hrsize. set (resok := mk_READDIRPLUS3resok _ _ _) in Hrun, Hrsize.
  destruct (answers_call memfs_file_system fhc READDIRPLUS
    (mk_READDIRPLUS3args (handle_of fhc d) (cookie_after (fun i => i) js1) verf PAGE PAGE)
    (pages + fuel * length (concat ls) + k) c m D (NfsOk resok) m Hat) as (c1 & Hcall & Hat1);
    [| |exact Hrun|cbn [res_codec]; unfold PAGE, MASK in *; lia|].
  { destruct (handle_of_valid fhc d Hwf) as [Hv _]. cbn -[in_u64 nfs_fh3_codec]. by split_and!. }
  { destruct (handle_of_valid fhc d Hwf) as [_ Hs]. cbn -[nfs_fh3_codec]. change (add_padding NFS3_COOKIEVERFSIZE) with 8. unfold MASK. lia. }
  apply mapM_Some, Forall2_app_inv_l in Hls as (ls1 & ls2 & Hls1%mapM_Some & Hls2%mapM_Some & ->).
  rewrite concat_app, length_app in Hat1.
  destruct (download_entries_run n p (handle_of fhc d) l1 ls1 q (pages + fuel * length (concat ls2) + k) c1 D Hls1)
    as (c2 & now1 & new1 & later1 & Hrun1 & Hat2 & Ht1 & Hp1 & Hl1); [budget Hat1|].
  cbn [download_pages]. unfold remotely at 1. rewrite tbind_Ok with (a := NfsOk resok) (s' := (c1, D)); cycle 1.
  { unfold map_err. by rewrite (pbind_Ret _ _ _ _ _ Hcall). }
  erewrite pbind_Ret by reflexivity. unfold resok.
  cbn [READDIRPLUS3resok_reply READDIRPLUS3resok_cookieverf dirlistplus3_entries dirlistplus3_eof].
  rewrite (tbind_Ok _ _ _ _ _ Hrun1). destruct l2 as [|j l2]; cbn [map is_nil].
  - injection Hls2 as <-. exists c2, now1, new1, later1. rewrite concat_app, app_nil_r. split_and!; try done.
    apply (answers_fewer memfs_file_system fhc _ _ c2 m) with (2 := Hat2). lia.
  - assert (l1 <> []) as Hl1ne by (intros ->; by apply Hne).
    destruct (last_page l1 Hl1ne) as (l1' & i & ->). rewrite map_app. cbn [map]. rewrite last_snoc.
    destruct (IH (js1 ++ l1' ++ [i]) (j :: l2) ls2 (cookieverf_from_attr (Some (dir_attr dir))) (new1 ++ q)
      (fuel * (length new1 + length later1) + k)%nat c2 (put now1 D))
      as (c3 & now2 & new2 & later2 & Hrun2 & Hat3 & Ht2 & Hp2 & Hl2).
    { by rewrite Hjs, <- !(assoc_L (++)). }
    { done. }
    { rewrite !length_app in Hlen. cbn in *. lia. }
    { done. }
    { budget Hat2. }
    rewrite (assoc_L (++)), cookie_after_app in Hrun2.
    exists c3, (now1 ++ now2), (new2 ++ new1), (later2 ++ later1). split; [|split_and!].
    + etrans; [exact Hrun2|]. by rewrite put_app, (assoc_L (++)).
    + rewrite !length_app. budget Hat3.
    + by apply todo_app.
    + rewrite concat_app, <- Hp1, <- Hp2. solve_Permutation.
    + rewrite !length_app. lia.
Qed.
End folder.

Lemma download_queue_run turns q l k c D :
  todo q l -> (length q + length l <= turns)%nat -> at_server (fuel * (length q + length l) + k) c m ->
  exists c' w, download_queue lossy turns fuel q (c, D) = (Ret (Ok tt), (c', put w D)) /\ at_server k c' m /\ w ≡ₚ l.
Proof.
  revert q l k c D. induction turns as [|turns IH]; intros q l k c D (ls & Hq & ->) Hlen Hat.
  { destruct q; [|cbn in Hlen; lia]. inversion Hq; subst. exists c, []. cbn [length concat Nat.add] in Hat.
    rewrite Nat.mul_0_r in Hat. done. }
  destruct q as [|[p fh] q].
  { inversion Hq; subst. exists c, []. cbn [length concat Nat.add] in Hat. rewrite Nat.mul_0_r in Hat. done. }
  apply Forall2_cons_inv_l in Hq as (lq & ls' & (n & i & -> & Hc) & Hq & ->).
  destruct n as [|n]; [done|]. cbn [copies] in Hc. destruct (fs_get f i) as [[file|dir]|] eqn:Ei; try done.
  destruct (mapM (copy_child (copies n) p) (dir_content dir)) as [lc|] eqn:Hm; [|done]. injection Hc as <-.
  cbn [concat length] in Hlen, Hat. rewrite length_app in Hlen, Hat.
  destruct (download_pages_run i dir Ei fuel n p [] (dir_content dir) lc cookieverf_default q
    (fuel * (length q + length (concat ls')) + k) c D eq_refl Hm)
    as (c1 & now & new & later & Hrun & Hat1 & Ht & Hpm & Hnew); [by apply (ft_dirs Hfits i)|done|budget Hat|].
  apply Permutation_length in Hpm as Hl. rewrite length_app in Hl.
  destruct (IH (new ++ q) (later ++ concat ls') k c1 (put now D)) as (c2 & w & Hrun2 & Hat2 & Hw).
  { apply todo_app; [done|]. by exists ls'. }
  { rewrite !length_app. lia. }
  { rewrite !length_app. budget Hat1. }
  exists c2, (now ++ w). cbn [download_queue]. rewrite (tbind_Ok _ _ _ _ _ Hrun), Hrun2, put_app. split_and!; [done|done|].
  cbn [concat]. rewrite Hw, <- Hpm. by rewrite (assoc_L (++)).
Qed.

(** There are no cycles: as many levels as there are entries are enough. *)
Lemma copies_exist n p d h :
  height (fs_root f) (tree_of f) d h -> (size (fs_entries f) <= h + n)%nat -> is_Some (copies n p d).
Proof.
  pose proof Hinv as [W _]. assert (size (tree_of f) = size (fs_entries f)) as Hsize by (unfold tree_of; apply map_size_fmap).
  revert p d h. induction n as [|n IH]; intros p d h Hh Hn.
  { pose proof (height_bound _ _ _ _ (fw_tree _ W) Hh). lia. }
  destruct (height_dir _ _ _ _ (fw_tree _ W) Hh) as (parent & k & Hd).
  apply is_dir_get in Hd as (dir & Ed & _ & _). cbn [copies]. rewrite Ed.
  assert (is_Some (mapM (copy_child (copies n) p) (dir_content dir))) as [ls ->]; [|by eexists].
  apply mapM_is_Some, Forall_forall. intros j Hj. unfold compose, copy_child. cbv beta zeta. destruct (bool_decide (lossy (name_at f j) = dot) || bool_decide (lossy (name_at f j) = dotdot)); [by eexists|].
  destruct (content_there m d dir Hinv Ed j Hj) as [e E]. rewrite E. destruct e as [file|dir']; [by eexists|].
  assert (is_Some (copies n (path_push p (lossy (name_at f j))) j)) as [l ->]; [|by eexists].
  apply (IH _ _ (S h)); [|lia]. apply (kid_get f d dir) in Hj; [|done].
  assert (is_dir (tree_of f) j (dir_parent dir') (list_to_set (dir_content dir'))) as Hdj by (apply is_dir_get; by exists dir').
  destruct (tw_kid _ _ (fw_tree _ W) _ _ Hj) as [Hjr _].
  rewrite (tw_parent _ _ (fw_tree _ W) _ _ _ _ Hj Hdj) in Hdj. by eapply height_step.
Qed.

Lemma put_union l D : NoDup (map fst l) -> put l D = list_to_map l ∪ D.
Proof.
  revert D. induction l as [|[p c] l IH]; intros D Hnd; [symmetry; apply map_empty_union|].
  cbn in Hnd. apply NoDup_cons in Hnd as [Hp0 Hnd]. rewrite list_to_map_cons.
  change (put ((p, c) :: l) D) with (put l (<[p := c]> D)). rewrite (IH _ Hnd).
  rewrite <- insert_union_r by (by apply not_elem_of_list_to_map_1). by rewrite insert_union_l.
Qed.

Lemma download_folder_run turns d p l k c D :
  (exists n, copies n p d = Some l) -> (length l < turns)%nat -> at_server (fuel * (1 + length l) + k) c m ->
  exists c' w, download_folder lossy turns fuel (handle_of fhc d) p (c, D) = (Ret (Ok tt), (c', put w (<[p := None]> D))) /\
    at_server k c' m /\ w ≡ₚ l.
Proof.
  intros [n Hn] Hlen Hat. unfold download_folder. rewrite tbind_Ok with (a := tt) (s' := (c, <[p := None]> D)) by done.
  apply download_queue_run; [|cbn; lia|exact Hat]. exists [l]. split; [|cbn; by rewrite app_nil_r].
  constructor; [|done]. by exists n, d.
Qed.
End download.
End memfs.

(** ** A tree to list and to copy *)

Module DemoPrograms.
Import DemoFs DemoMem.

(** The root with the file [a.txt], the directory [sub] and in it [b.txt]. *)
Definition clock (n : nat) : nfstime3 := mk_nfstime3 5 (Z.of_nat n mod 1000000000).
Definition ops : list MemFsOp :=
  [OpCreate 1 a_txt sattr3_default; OpWrite 2 0 hello; OpMkdir 1 sub; OpCreate 3 b_txt sattr3_default].
Definition m : MemFs := foldl (fun m op => snd (run_op op m)) (memfs_default clock) ops.

Definition no_lossy (l : list byte) : list byte := l.
Definition root_dir : Dir := match fs_get (mf_fs m) 1 with Some (EDir d) => d | _ => dir_new [] 0 0 (clock 0) end.
Definition out_dir : path := bytes_of_string "out".

Lemma m_inv : memfs_inv m.
Proof.
  apply (memfs_reachable_inv clock). unfold m, ops. cbn [foldl].
  do 4 (apply reachable_op; [|vm_compute; first [exact Logic.I | discriminate | by eexists]]). constructor.
Qed.

(** What holds of the entries of a table, one by one. *)
Lemma entries_forall (p : Z -> Entry -> bool) f i e :
  forallb (fun ie => p ie.1 ie.2) (map_to_list (fs_entries f)) = true -> fs_get f i = Some e -> p i e = true.
Proof.
  rewrite forallb_forall. intros Hf E. apply (Hf (i, e)), list_elem_of_In. by apply elem_of_map_to_list.
Qed.

Definition entry_small (i : Z) (e : Entry) : bool :=
  (0 <=? i) && (i <=? u64_MAX) && (len (entry_name e) <=? 100000) &&
  match e with
  | EDir dir => (length (dir_content dir) <? 5)%nat
  | EFile file => (len (file_content file) <=? PAGE * 5) && (len (file_content file) + PAGE <=? usize_MAX)
  end.

Lemma m_small i e : fs_get (mf_fs m) i = Some e -> entry_small i e = true.
Proof. apply entries_forall. vm_compute. reflexivity. Qed.

Lemma m_ids i : is_Some (fs_get (mf_fs m) i) -> in_u64 i.
Proof.
  intros [e E%m_small]. unfold entry_small in E. rewrite !andb_true_iff, !Z.leb_le in E. unfold in_u64. lia.
Qed.

Lemma m_names i : len (name_at (mf_fs m) i) <= 100000.
Proof.
  unfold name_at. destruct (fs_get (mf_fs m) i) as [e|] eqn:E; [|done].
  apply m_small in E. unfold entry_small in E. rewrite !andb_true_iff, !Z.leb_le in E. lia.
Qed.

Lemma m_fits : fits m 5.
Proof.
  split; [lia|by vm_compute|apply m_names|..].
  - intros i dir E%m_small. unfold entry_small in E. rewrite !andb_true_iff, Nat.ltb_lt in E. apply E.
  - intros i file E%m_small. unfold entry_small in E. rewrite !andb_true_iff, !Z.leb_le in E. apply E.
Qed.
End DemoPrograms.
