(* ===== verification/RemotePrograms.v ===== *)
(** * The programs over the network

    [ls] and [download_folder] on a session: each of their calls is a message of
    the client, carried by the tasks of a connection, taken by the tracker,
    dispatched, run on the in-memory file system and answered.  A linked session
    answers like the procedures ([session_answers]), so what [ProgramsMemFs] shows
    of the programs on any connection that answers holds of the network. *)

From S2P Require Import Prelude Xdr XdrLaws Nfs3Types RpcTypes RpcWire RpcWireLaws RpcClient RpcClientLaws ConnectLaws.
From S2P Require Import Handle Vfs NfsExt NfsHandlers NfsHandlersLaws Transactions TransactionLaws TransactionMemory MountPortmap Server.
From S2P Require Import Connection ConnectionLaws Validity EndToEnd RemoteConnection Session FsUtil.
From S2P Require Import MemFs MemFsTree MemFsLaws MemFsTheorems MemFsNames MemFsProperties MemFsValid RemoteMemFs.
From S2P Require Import Programs ProgramsLaws ProgramsMemFs.
Open Scope Z_scope.
Open Scope nfs_scope.

Section session.
Context {V H : Type} `{!FileHandle H} (fs : NfsFileSystem V H) (ctx : RPCContext).
Context (schedule : nat -> Connection V -> list (action V)) (cut : nat -> list byte -> list (list byte)).

(** The calls of a program on a session. *)
Definition session_calls {L} : NfsCalls (Session V * L) := fun A R p args '(se, l) =>
  let '(o, se) := session_call fs ctx schedule cut (procedure_number p) (args_codec p) (res_codec p) args se in
  (o, (se, l)).

Lemma procedure_implements {A R} (p : procedure A R) fhc :
  implements fs fhc (procedure_number p) (args_codec p) (res_codec p) (run_procedure fs fhc p).
Proof. destruct p; constructor. Qed.

Lemma session_answers {L} (P : V -> Prop) :
  carries fs ctx schedule -> delivers cut -> ValidFs fs P -> converter_wf (ctx_file_handle_converter ctx) ->
  Answers (L := L) fs (ctx_file_handle_converter ctx) session_calls (linked ctx P).
Proof.
  intros Hs Hc Hfs Hwf. split.
  - intros A R p args k se v l r v' Hl Hargs Hsize Hrun Hrsize.
    destruct (session_call_run fs ctx schedule cut Hs Hc P _ _ _ _ args k se v r v' Hfs Hwf (procedure_implements p _) Hl Hargs Hsize
      Hrun Hrsize) as (se' & Hcall & Hl').
    exists se'. split; [|done]. unfold nfs, session_calls. by rewrite Hcall.
  - intros k k' se v Hk [(s & w & Hconn & Hv & Hinv & Hmax & Hnew) HP Hcaller Hin Hk']. split; try done; [|lia].
    exists s, w. split_and!; try done. intros i Hi. apply Hnew. lia.
Qed.
End session.

Section memfs.
Context `{Hash : HashSetOrder} `{Target}.

(** C8: [ls] lists a directory of an in-memory file system over the network. The
    calls of the program travel as bytes through a session: the client sends each,
    any scheduler carries it through the tasks of the connection, the server takes
    it, decodes it, runs it and replies, and the network cuts up the replies in any
    way. For every directory whose modification time is not the epoch and whose
    names are at most 100000 bytes long, however many entries it has and so however
    many pages READDIR and READDIRPLUS cut it into, the program ends without a
    panic or an error, changes nothing in the file system, leaves the session ready
    for the next call, and prints one line for each entry, in the same order twice:
    its name, and its name with its kind, its modification time and, for a file,
    its size. *)
Theorem ls_lists_directory (ctx : RPCContext) (schedule : nat -> Connection MemFs -> list (action MemFs))
  (cut : nat -> list byte -> list (list byte)) (lossy : list byte -> list byte) (m : MemFs) (d : Z) (dir : Dir)
  (fuel k : nat) (se : Session MemFs) (out : list LsLine) :
  carries memfs_file_system ctx schedule -> delivers cut -> converter_wf (ctx_file_handle_converter ctx) ->
  memfs_inv m -> mf_poisoned m = false -> (forall i, is_Some (fs_get (mf_fs m) i) -> in_u64 i) ->
  fs_get (mf_fs m) d = Some (EDir dir) -> fs_get (mf_fs m) 0 = None ->
  versioned (dir_attr dir) -> (forall i, i ∈ dir_content dir -> len (name_at (mf_fs m) i) <= 100000) ->
  (length (dir_content dir) < fuel)%nat -> linked ctx memfs_ok (fuel + (fuel + k)) se m ->
  exists l, NoDup l /\
    (forall i name, i ∈ l /\ name_at (mf_fs m) i = name <-> child (tree_of (mf_fs m)) d name i) /\
    exists se', @ls _ (session_calls memfs_file_system ctx schedule cut) transcript lossy fuel
        (handle_of (ctx_file_handle_converter ctx) d) (se, out) =
      (Ret (Ok tt), (se', out ++ ls_output lossy (mf_fs m) l)) /\ linked ctx memfs_ok k se' m.
Proof.
  intros Hs Hc Hwf Hinv Hp Hids Ed H0 Hver Hnames Hfuel Hl. exists (dir_content dir). pose proof Hinv as [W _].
  split; [by apply (dir_nodup (mf_fs m) d)|]. split.
  { intros i name. rewrite child_get, (kid_get (mf_fs m) d dir) by done. split.
    - intros [Hi <-]. split; [done|]. destruct (content_there m d dir Hinv Ed i Hi) as [e E]. exists e. split; [done|].
      unfold name_at. by rewrite E.
    - intros (Hi & e & E & <-). split; [done|]. unfold name_at. by rewrite E. }
  apply (ls_memfs _ lossy _ (linked ctx memfs_ok)) with (dir := dir); try done. apply session_answers; try done. apply memfs_valid.
Qed.

End memfs.

(** ** A session *)

Module DemoNetwork.
Import DemoFs DemoMem DemoPrograms.

(** The xids of the client come round after two calls; bytes move 100 at a time
    on the server, and 9 at a time on the way back. *)
Definition ctx : RPCContext := DemoRemote.ctx.
Definition session : Session MemFs :=
  session_new (mkServerState m new_transaction_tracker []) 4294967294 opaque_auth_default opaque_auth_default.
Definition schedule : nat -> Connection MemFs -> list (action MemFs) := greedy_schedule memfs_file_system ctx 100 1 2.
Definition cut : nat -> list byte -> list (list byte) := cut_into 8.

Lemma ctx_wf : converter_wf (ctx_file_handle_converter ctx).
Proof. apply converter_new_wf. Qed.

Lemma m_ok : memfs_ok m.
Proof.
  assert (memfs_ok (memfs_default clock)) as H0.
  { apply memfs_default_ok. intros n. pose proof (Z.mod_pos_bound (Z.of_nat n) 1000000000 ltac:(done)).
    cbn. unfold in_u32, u32_MAX. lia. }
  assert (forall A (x : outcome A * MemFs), snd (forget x) = snd x) as Hforget by (by intros A [[] ?]).
  unfold m, ops. cbn [foldl run_op]. rewrite !Hforget.
  refine (proj1 (memfs_add_file_post 3 b_txt sattr3_default [] None _ _ _ _ _)); [by vm_compute..|].
  refine (proj1 (memfs_add_dir_post 1 sub _ _ _)); [by vm_compute|].
  refine (proj1 (memfs_write_post 2 0 hello _ _ _)); [by vm_compute|].
  refine (proj1 (memfs_add_file_post 1 a_txt sattr3_default [] None _ _ _ _ _)); [by vm_compute..|exact H0].
Qed.

Lemma session_linked k : Z.of_nat k <= 2 ^ 32 -> linked ctx memfs_ok k session m.
Proof.
  intros Hk. refine (session_new_linked ctx memfs_ok m [] 4294967294 _ _ k m_ok _ Hk).
  split; [by vm_compute..|reflexivity].
Qed.

Lemma schedule_carries : carries memfs_file_system ctx schedule.
Proof. by apply greedy_carries. Qed.

(** The same run, computed. *)
Example ls_output_computed :
  (@ls _ (session_calls memfs_file_system ctx schedule cut) transcript no_lossy 5 (handle_of fhc 1) (session, [])).2.2 =
  ls_output no_lossy (mf_fs m) [3; 2].
Proof. vm_compute. reflexivity. Qed.
End DemoNetwork.

Import DemoFs DemoMem DemoPrograms.

Lemma ls_lists_directory_witness :
  exists l se', NoDup l /\
    @ls _ (session_calls memfs_file_system DemoNetwork.ctx DemoNetwork.schedule DemoNetwork.cut) transcript no_lossy 5
      (handle_of fhc 1) (DemoNetwork.session, []) = (Ret (Ok tt), (se', [] ++ ls_output no_lossy (mf_fs m) l)).
Proof.
  destruct (ls_lists_directory DemoNetwork.ctx DemoNetwork.schedule DemoNetwork.cut no_lossy m 1 root_dir 5 0 DemoNetwork.session []
    DemoNetwork.schedule_carries (cut_into_delivers 8) DemoNetwork.ctx_wf m_inv ltac:(by vm_compute) m_ids
    ltac:(vm_compute; reflexivity) ltac:(vm_compute; reflexivity) ltac:(vm_compute; reflexivity) (fun i _ => m_names i)
    ltac:(vm_compute; lia) (DemoNetwork.session_linked 10 ltac:(by vm_compute))) as (l & Hl & _ & se' & Hrun & _).
  exists l, se'. exact (conj Hl Hrun).
Defined.

