(* ===== verification/JustClient.v ===== *)
(** * The helper client of the tests: [nfs3_tests/src/just_client.rs]

    Programs over a connection, each for one use of a file system: look up, get
    attributes, make a file with its contents, make a directory, read a whole file,
    list a whole directory.  A call that fails is a panic ([expect]); a status of
    the server is the error of the program.  On any connection that answers
    ([Answers]) they do on the in-memory file system what their names say. *)

From S2P Require Import Prelude Xdr XdrLaws Nfs3Types RpcTypes Handle Vfs NfsExt NfsHandlers NfsHandlersLaws FsUtil RpcClient.
From S2P Require Import MemFs MemFsTree MemFsLaws MemFsTheorems MemFsNames MemFsProperties MemFsValid.
From S2P Require Import RpcWire Transactions MountPortmap Server Connection EndToEnd RemoteConnection Session.
From S2P Require Import RemoteMemFs Programs ProgramsLaws ProgramsMemFs RemotePrograms.
Open Scope Z_scope.
Open Scope nfs_scope.

(** ** The programs *)

Section programs.
Context {S : Type} `{!NfsCalls S}.

(** [Result::expect]. *)
Definition expect {A E} (m : prog S (result A E)) : prog S A :=
  do* r := m in match r with Ok a => pret a | Err _ => ppanic end.

(** [Option::unwrap]. *)
Definition unwrap_some {A} (o : option A) : prog S A := match o with Some a => pret a | None => ppanic end.

(** The last [match] of each helper: a status is its error. *)
Definition ok_or_status {A E} (r : Nfs3Result A E) : prog S (result A nfsstat3) :=
  match r with NfsOk a => pret (Ok a) | NfsErr status _ => pret (Err status) end.

Definition just_lookup (dir : nfs_fh3) (filename : list byte) : prog S (result nfs_fh3 nfsstat3) :=
  do* result := expect (nfs LOOKUP (mk_LOOKUP3args (mk_diropargs3 dir filename))) in
  try* ok := ok_or_status result in
  pret (Ok (LOOKUP3resok_object ok)).

Definition just_getattr (file : nfs_fh3) : prog S (result fattr3 nfsstat3) :=
  do* result := expect (nfs GETATTR (mk_GETATTR3args file)) in
  try* ok := ok_or_status result in
  pret (Ok (GETATTR3resok_obj_attributes ok)).

Definition just_create (dir : nfs_fh3) (filename content : list byte) : prog S (result nfs_fh3 nfsstat3) :=
  do* create_result := expect (nfs CREATE (mk_CREATE3args (mk_diropargs3 dir filename) (UNCHECKED sattr3_default))) in
  try* ok := ok_or_status create_result in
  do* file_handle := unwrap_some (CREATE3resok_obj ok) in
  try* _ :=
    match content with
    | [] => pret (Ok tt)
    | _ =>
        do* write_result :=
          expect (nfs WRITE (mk_WRITE3args file_handle 0 (len content mod 2 ^ 32) UNSTABLE content)) in
        try* _ := ok_or_status write_result in pret (Ok tt)
    end in
  pret (Ok file_handle).

Definition just_mkdir (dir : nfs_fh3) (dirname : list byte) : prog S (result nfs_fh3 nfsstat3) :=
  do* result := expect (nfs MKDIR (mk_MKDIR3args (mk_diropargs3 dir dirname) sattr3_default)) in
  try* ok := ok_or_status result in
  do* fh := unwrap_some (MKDIR3resok_obj ok) in
  pret (Ok fh).

(** [1024 * 1024]. *)
Definition READ_CHUNK : Z := 1048576.

(** The loop of [just_read]. *)
Fixpoint just_read_loop (fuel : nat) (file : nfs_fh3) (offset : u64) (data : list byte)
  : prog S (result (list byte) nfsstat3) :=
  match fuel with
  | O => fun s => (OutOfFuel, s)
  | Datatypes.S fuel' =>
      do* read_result := expect (nfs READ (mk_READ3args file offset READ_CHUNK)) in
      try* ok := ok_or_status read_result in
      let data := data ++ READ3resok_data ok in
      if READ3resok_eof ok || (READ3resok_count ok =? 0) then pret (Ok data)
      else if u64_MAX <? offset + READ3resok_count ok then ppanic
      else just_read_loop fuel' file (offset + READ3resok_count ok) data
  end.

Definition just_read (fuel : nat) (file : nfs_fh3) : prog S (result (list byte) nfsstat3) :=
  just_read_loop fuel file 0 [].

(** [64 * 1024]. *)
Definition READDIR_PAGE : Z := 65536.

(** The loop of [just_readdir]: it goes on from the last of all the entries so far. *)
Fixpoint just_readdir_loop (fuel : nat) (dir : nfs_fh3) (cookie : cookie3) (cookieverf : cookieverf3) (entries : list entry3)
  : prog S (result (list entry3) nfsstat3) :=
  match fuel with
  | O => fun s => (OutOfFuel, s)
  | Datatypes.S fuel' =>
      do* readdir_result := expect (nfs READDIR (mk_READDIR3args dir cookie cookieverf READDIR_PAGE)) in
      try* ok := ok_or_status readdir_result in
      let entries := entries ++ dirlist3_entries (READDIR3resok_reply ok) in
      if dirlist3_eof (READDIR3resok_reply ok) then pret (Ok entries)
      else
        do* last := unwrap_some (last entries) in
        just_readdir_loop fuel' dir (entry3_cookie last) (READDIR3resok_cookieverf ok) entries
  end.

Definition just_readdir (fuel : nat) (dir : nfs_fh3) : prog S (result (list entry3) nfsstat3) :=
  just_readdir_loop fuel dir 0 cookieverf_default [].
End programs.

(** ** Listings *)

Section listing.
Context {V H : Type} `{!FileHandle H} `{!FileHandleLaws H} (fs : NfsFileSystem V H) (fhc : FileHandleConverter).
Context {C L : Type} `{calls : NfsCalls (C * L)} (at_server : nat -> C -> V -> Prop) `{Hans : !Answers fs fhc calls at_server}.

(** A call on a connection that answers. *)
Lemma expect_call {A R : Set} (p : procedure A R) args k c v l r v' :
  at_server (S k) c v -> valid (args_codec p) args -> packed_size (args_codec p) args <= MASK - 1000 ->
  (forall xid, run_procedure fs fhc p xid args v = (Ret r, v')) -> 24 + packed_size (res_codec p) r <= MASK ->
  exists c', expect (nfs p args) (c, l) = (Ret r, (c', l)) /\ at_server k c' v'.
Proof.
  intros Hat Hv Hs Hrun Hrs. destruct (answers_call fs fhc p args k c v l r v' Hat Hv Hs Hrun Hrs) as (c' & Hcall & Hat').
  exists c'. split; [|done]. unfold expect. by rewrite (pbind_Ret _ _ _ _ _ Hcall).
Qed.

Context (d : H) (fh : nfs_fh3) (a : fattr3) (v : V).
Context (Hfh : fh_from_nfs fhc fh = Ok d) (Hattr : vfs_getattr d v = (Ret (Ok a), v)).
Context (Hvalid : valid nfs_fh3_codec fh) (Hsize : packed_size nfs_fh3_codec fh <= 100).

(** The entries read so far are those before the cookie. *)
Lemma just_readdir_loop_run fuel k c l es1 es2 verf :
  versioned a -> dir_listing fs d v (es1 ++ es2) -> verf_ok verf (cookie_after entry3_cookie es1) a -> len verf = 8 ->
  Forall (fun e => 108 + list_packed_size entry3_codec [e] <= READDIR_PAGE) es2 -> (length es2 < fuel)%nat ->
  at_server (fuel + k) c v ->
  exists c', just_readdir_loop fuel fh (cookie_after entry3_cookie es1) verf es1 (c, l) =
      (Ret (Ok (es1 ++ es2)), (c', l)) /\ at_server k c' v.
Proof.
  intros Hver. revert c es1 es2 verf. induction fuel as [|fuel IH]; intros c es1 es2 verf Hl Hverf Hv8 Hsizes Hlen Hat; [lia|].
  destruct (readdir_page fs fhc fh d v a es1 es2 verf READDIR_PAGE Hfh Hattr Hl Hverf ltac:(done) Hsizes)
    as (page & rest & -> & Hne & Hrsize & Hrun).
  set (resok := mk_READDIR3resok _ _ _) in Hrsize, Hrun.
  destruct (expect_call READDIR (mk_READDIR3args fh (cookie_after entry3_cookie es1) verf READDIR_PAGE) (fuel + k) c v l (NfsOk resok) v
    Hat) as (c1 & Hcall & Hat1); [| |exact Hrun|unfold READDIR_PAGE, MASK in *; cbn [res_codec]; lia|].
  { pose proof (cookie_after_u64 _ _ _ _ _ _ Hl). cbn -[in_u64 nfs_fh3_codec]. by split_and!. }
  { cbn -[nfs_fh3_codec]. change (add_padding NFS3_COOKIEVERFSIZE) with 8. unfold MASK. lia. }
  cbn [just_readdir_loop]. rewrite (pbind_Ret _ _ _ _ _ Hcall).
  rewrite tbind_Ok with (a := resok) (s' := (c1, l)) by done. unfold resok.
  cbn [READDIR3resok_reply READDIR3resok_cookieverf dirlist3_entries dirlist3_eof].
  destruct rest as [|e rest]; cbn [is_nil].
  { rewrite app_nil_r. exists c1. split; [done|]. apply (answers_fewer fs fhc k (fuel + k)); [lia|done]. }
  destruct (last_page page) as (page' & e' & ->); [by apply Hne|].
  rewrite (assoc_L (++)) in Hl. rewrite pbind_Ret with (a := e') (s' := (c1, l)); cycle 1.
  { rewrite (assoc_L (++)), last_snoc. done. }
  destruct (IH c1 (es1 ++ page' ++ [e']) (e :: rest) (cookieverf_from_attr (Some a))) as (c2 & Hrun2 & Hat2).
  - done.
  - unfold verf_ok. by rewrite Hver.
  - done.
  - by apply Forall_app in Hsizes as [_ ?].
  - rewrite !length_app in Hlen. cbn in *. lia.
  - done.
  - rewrite (assoc_L (++) es1 page') in Hrun2 at 1. rewrite cookie_after_app in Hrun2. exists c2. split; [|done].
    etrans; [exact Hrun2|]. by rewrite <- (assoc_L (++)).
Qed.
End listing.

(** ** The in-memory file system, one call at a time *)

Section calls.
Context `{Hash : HashSetOrder} `{Target}.

(** A new name in a directory: the call succeeds as long as the next id is free. *)
Lemma memfs_create_new m d dir name :
  memfs_inv m -> names_unique (tree_of (mf_fs m)) -> mf_poisoned m = false -> fs_get (mf_fs m) d = Some (EDir dir) ->
  fs_get (mf_fs m) (mf_nextid m) = None -> memfs_lookup d name m = (Ret (Err NFS3ERR_NOENT), m) ->
  exists a m' file, memfs_create d name sattr3_default m = (Ret (Ok (mf_nextid m, a)), m') /\
    memfs_inv m' /\ names_unique (tree_of (mf_fs m')) /\ mf_poisoned m' = false /\
    fs_get (mf_fs m') (mf_nextid m) = Some (EFile file) /\ file_content file = [] /\
    (forall d' n' i, child (tree_of (mf_fs m')) d' n' i <->
       child (tree_of (mf_fs m)) d' n' i \/ (d' = d /\ i = mf_nextid m /\ n' = name)) /\
    (forall j, j <> mf_nextid m -> data_of m' j = data_of m j).
Proof.
  intros Hi U Hp Ed Hfree Hno. assert (fs_lookup (mf_fs m) d name = Err NFS3ERR_NOENT) as El.
  { unfold memfs_lookup, with_read in Hno. rewrite Hp in Hno. destruct (fs_lookup (mf_fs m) d name); cbn in Hno; congruence. }
  pose proof (add_file_names d name sattr3_default [] None m Hi Logic.I U) as U'.
  destruct (add_file_ok d name sattr3_default [] None m Hi Logic.I) as [Hi' Hret]. destruct (Hret Hp Logic.I) as [[r Er] Hp'].
  unfold memfs_create. destruct (memfs_add_file d name sattr3_default [] None m) as [o m'] eqn:Ea. cbn [fst snd] in *. subst o.
  rewrite add_file_unfold in Ea.
  pose proof (created_file_cases name (mf_nextid m) [] None sattr3_default m Logic.I) as Hc.
  destruct (created_file name (mf_nextid m) [] None sattr3_default m) as [[[u| |] e] ticks]; [|discriminate Ea..].
  destruct Hc as (file & -> & Hname & Hok & Hcont). apply with_write_ret in Ea as (Ea & _ & _); [|done].
  cbn [mf_fs drawn entry_attr] in Ea. pose proof (proj1 Hi) as W. assert (entry_fileid (EFile file) = mf_nextid m) as Hid by apply Hok.
  pose proof (insert_file_cases d (mf_nextid m) file (file_attr file) None (mf_fs m) W) as Hc. rewrite Ea in Hc.
  assert (entry_fileid (EFile file) <> d \/ exists x, EFile file = EFile x) as Hfile by (right; by eexists).
  destruct r as [[i a]|stat]; cbn [insert_file_post] in Hc.
  - destruct Hc as [_ [(-> & _ & Ep)|(_ & x & v & _ & ? & _)]]; [|done]. exists a, m', file. split_and!; try done.
    + pose proof (fs_push_cases (mf_fs m) d (EFile file) W Hfile) as Hc. rewrite Ep in Hc. destruct Hc as (_ & dir0 & _ & _ & ->).
      rewrite Hid, fs_get_set_ne by congruence. apply fs_get_set_eq.
    + intros d' n' i. rewrite (push_child _ d (EFile file) _ d' n' i W ltac:(split; [by rewrite Hid|done]) Hfile Ep).
      cbn [entry_name]. by rewrite Hid, Hname.
    + intros j Hj. pose proof (fs_push_cases (mf_fs m) d (EFile file) W Hfile) as Hc. rewrite Ep in Hc.
      destruct Hc as (_ & dir' & Ed' & _ & Heq). unfold data_of. rewrite Heq, Hid.
      rewrite data_set_dir by (rewrite fs_get_set_ne; [done|congruence]). by rewrite fs_get_set_ne by congruence.
  - exfalso. rewrite Hname, El in Hc. destruct Hc as [_ Hpush].
    pose proof (fs_push_cases (mf_fs m) d (EFile file) W Hfile) as Hc. rewrite Hpush, Hid, Hfree, Ed in Hc.
    destruct Hc as [_ [([? ?] & _)|[(_ & ? & _)|(_ & (? & ?) & _)]]]; done.
Qed.

(** The first bytes of an empty file. *)
Lemma memfs_write_first m id file data :
  memfs_inv m -> mf_poisoned m = false -> fs_get (mf_fs m) id = Some (EFile file) -> file_content file = [] ->
  len data <= isize_MAX ->
  exists a m' file', memfs_write id 0 data m = (Ret (Ok a), m') /\ memfs_inv m' /\ mf_poisoned m' = false /\
    fs_get (mf_fs m') id = Some (EFile file') /\ file_content file' = data /\
    tree_of (mf_fs m') = tree_of (mf_fs m) /\ (forall j, j <> id -> fs_get (mf_fs m') j = fs_get (mf_fs m) j).
Proof.
  intros [W Hroot] Hp Ef Hempty Hl. unfold memfs_write, with_write. rewrite Hp, Ef.
  pose proof (file_write_cases id 0 data file ltac:(done) (fw_entries _ W _ _ Ef)) as Hc.
  destruct (file_write 0 data file) as [o file']. destruct Hc as (Hok & Hnode & Hc).
  destruct o as [[a|stat]| |]; 
    [|destruct Hc as (_ & Hlt & _); by rewrite Hempty in Hlt|destruct Hc as (_ & _ & ? & _); lia|by destruct Hc].
  destruct Hc as (_ & -> & Hcont). rewrite Hempty, take_nil, drop_nil, app_nil_r in Hcont.
  eexists _, _, file'. split; [reflexivity|]. cbn [mf_fs mf_poisoned mf_rootdir].
  split; [split; [by apply (fs_set_same_wf _ _ _ (EFile file))|done]|]. split; [done|]. split; [apply fs_get_set_eq|]. split; [exact Hcont|].
  split; [by apply (tree_of_same _ _ _ (EFile file))|]. intros j Hj. by apply fs_get_set_ne.
Qed.

(** What the procedures answer. *)
Lemma getattr_any m i : mf_poisoned m = false -> in_u64 i ->
  @vfs_getattr _ _ memfs_read_fs (fh64_new i) m = (Ret (result_map entry_attr (ok_or (fs_get (mf_fs m) i) NFS3ERR_NOENT)), m).
Proof. intros Hp Hi. cbn. rewrite fh64_new_as_u64 by done. unfold memfs_getattr, with_read. by rewrite Hp. Qed.

Lemma create_answer fhc d name attr id a m m' dir :
  converter_wf fhc -> in_u64 d -> mf_poisoned m = false -> mf_poisoned m' = false ->
  fs_get (mf_fs m) d = Some dir -> memfs_create d name attr m = (Ret (Ok (id, a)), m') ->
  exists wcc, forall xid, nfsproc3_create memfs_file_system fhc xid
      (mk_CREATE3args (mk_diropargs3 (handle_of fhc d) name) (UNCHECKED attr)) m =
    (Ret (NfsOk (mk_CREATE3resok (Some (handle_of fhc id)) (Some a) wcc)), m').
Proof.
  intros Hwf Hd Hp Hp' Ed Hc. eexists. intros xid. unfold nfsproc3_create, handle_of. rewrite require_write_rw by done.
  cbn [CREATE3args_where_ CREATE3args_how diropargs3_dir diropargs3_name].
  rewrite (fh_to_id_ok _ _ _ _ _ (fh_from_to_nfs fhc (fh64_new d) Hwf)).
  pose proof (getattr_any m d Hp Hd) as Hg. rewrite Ed in Hg. cbn [ok_or result_map] in Hg.
  rewrite (pbind_Ret _ _ _ _ _ (get_wcc_attr_run memfs_file_system _ _ _ _ Hg)). cbn [result_map guarded_exists].
  rewrite (pbind_Ret (pret false) _ m false m) by done.
  assert (@vfs_create _ _ memfs_file_system (fh64_new d) name attr m = (Ret (Ok (fh64_new id, a)), m')) as Hc'.
  { cbn. rewrite fh64_new_as_u64 by done. by rewrite (pbind_Ret _ _ _ _ _ Hc). }
  erewrite pbind_Ret by (by rewrite (pbind_Ret _ _ _ _ _ Hc')). cbv beta iota.
  rewrite (pbind_Ret _ _ _ _ _ (getattr_opt_run memfs_file_system _ _ _ _ (getattr_any m' d Hp' Hd))). reflexivity.
Qed.

Lemma lookup_answer fhc d name id m :
  converter_wf fhc -> in_u64 d -> in_u64 id -> mf_poisoned m = false -> memfs_lookup d name m = (Ret (Ok id), m) ->
  exists obj_attr dir_attr, forall xid, nfsproc3_lookup memfs_file_system fhc xid
      (mk_LOOKUP3args (mk_diropargs3 (handle_of fhc d) name)) m =
    (Ret (NfsOk (mk_LOOKUP3resok (handle_of fhc id) obj_attr dir_attr)), m).
Proof.
  intros Hwf Hd Hid Hp Hl. do 2 eexists. intros xid. unfold nfsproc3_lookup, handle_of.
  cbn [LOOKUP3args_what diropargs3_dir diropargs3_name].
  rewrite (fh_to_id_ok _ _ _ _ _ (fh_from_to_nfs fhc (fh64_new d) Hwf)).
  rewrite (pbind_Ret _ _ _ _ _ (getattr_opt_run memfs_file_system _ _ _ _ (getattr_any m d Hp Hd))).
  assert (@vfs_lookup _ _ memfs_read_fs (fh64_new d) name m = (Ret (Ok (fh64_new id)), m)) as Hl'.
  { cbn. rewrite fh64_new_as_u64 by done. by rewrite (pbind_Ret _ _ _ _ _ Hl). }
  rewrite (pbind_Ret _ _ _ _ _ Hl').
  rewrite (pbind_Ret _ _ _ _ _ (getattr_opt_run memfs_file_system _ _ _ _ (getattr_any m id Hp Hid))). reflexivity.
Qed.

(** Sizes of the messages. *)
Lemma wcc_data_size w : packed_size wcc_data_codec w <= 200.
Proof. destruct w as [[] []]; vm_compute; discriminate. Qed.

Lemma dirop_args_fit fhc d name :
  converter_wf fhc -> len name <= 100000 -> valid filename3_codec name ->
  valid diropargs3_codec (mk_diropargs3 (handle_of fhc d) name) /\
  packed_size diropargs3_codec (mk_diropargs3 (handle_of fhc d) name) <= 200000.
Proof.
  intros Hwf Hl Hv. destruct (handle_of_valid fhc d Hwf) as [Hh Hs]. split; [by split|].
  pose proof (opaque_size_le name). cbn -[nfs_fh3_codec opaque_codec]. change filename3_codec with opaque_codec. lia.
Qed.
End calls.

(** ** The programs on the in-memory file system *)

Section runs.
Context `{Hash : HashSetOrder} `{Target}.
Context (fhc : FileHandleConverter) (Hwf : converter_wf fhc).
Context {C L : Type} `{calls : NfsCalls (C * L)} (at_server : nat -> C -> MemFs -> Prop)
  `{Hans : !Answers memfs_file_system fhc calls at_server}.

Lemma just_read_loop_run m fuel k c l i file off :
  memfs_inv m -> mf_poisoned m = false -> in_u64 i ->
  fs_get (mf_fs m) i = Some (EFile file) -> 0 <= off <= len (file_content file) ->
  len (file_content file) + READ_CHUNK <= usize_MAX -> (1 <= fuel)%nat ->
  len (file_content file) - off <= READ_CHUNK * Z.of_nat fuel -> at_server (fuel + k) c m ->
  exists c', just_read_loop fuel (handle_of fhc i) off (take (Z.to_nat off) (file_content file)) (c, l) =
      (Ret (Ok (file_content file)), (c', l)) /\ at_server k c' m.
Proof.
  intros Hinv Hp Hi E. set (X := file_content file).
  revert c off. induction fuel as [|fuel IH]; intros c off Hoff Hmax H1 Hfuel Hat; [lia|].
  destruct (read_run m Hp i file off READ_CHUNK E ltac:(done) Hoff ltac:(lia)) as (n & Hread & Hn). fold X in Hread, Hn.
  assert (len (take n (drop (Z.to_nat off) X)) = Z.of_nat n) as Hlen.
  { unfold len in *. rewrite length_take, length_drop. lia. }
  assert (memfs_getattr i m = (Ret (Ok (file_attr file)), m)) as Hg by (unfold memfs_getattr, with_read; by rewrite Hp, E).
  pose proof (fun xid => read_answer fhc xid i off READ_CHUNK _ _ _ m Hwf Hi Hg Hread
    ltac:(rewrite Hlen; unfold READ_CHUNK, u32_MAX in *; lia)) as Hcall.
  set (data := take n (drop (Z.to_nat off) X)) in *. set (resok := mk_READ3resok _ _ _ _) in Hcall.
  destruct (expect_call memfs_file_system fhc at_server READ (mk_READ3args (handle_of fhc i) off READ_CHUNK) (fuel + k) c m l (NfsOk resok) m Hat)
    as (c1 & Hcall1 & Hat1); [| |exact Hcall| |].
  { destruct (handle_of_valid fhc i Hwf) as [Hv _]. cbn -[in_u64 nfs_fh3_codec]. unfold in_u64, usize_MAX, READ_CHUNK in *. split_and!; try done; lia. }
  { destruct (handle_of_valid fhc i Hwf) as [_ Hs]. cbn -[nfs_fh3_codec]. unfold MASK. lia. }
  { unfold resok. pose proof (opaque_size_le data). pose proof (post_op_attr_size (Some (file_attr file))).
    cbn -[opaque_codec post_op_attr_codec]. unfold READ_CHUNK, MASK in *. lia. }
  cbn [just_read_loop]. rewrite (pbind_Ret _ _ _ _ _ Hcall1). rewrite tbind_Ok with (a := resok) (s' := (c1, l)) by done.
  unfold resok. cbn [READ3resok_data READ3resok_eof READ3resok_count].
  replace (take (Z.to_nat off) X ++ data) with (take (Z.to_nat off + n) X) by (unfold data; by rewrite take_take_drop). rewrite Hlen.
  destruct (Z.leb_spec (len X) (off + READ_CHUNK)) as [Heof|Hmore]; cbn [orb].
  - exists c1. rewrite take_ge by (unfold len in *; lia). split; [done|]. apply (answers_fewer memfs_file_system fhc k (fuel + k)); [lia|done].
  - rewrite (proj2 (Z.eqb_neq _ _)) by (unfold READ_CHUNK in *; lia).
    rewrite (proj2 (Z.ltb_ge _ _)) by (unfold usize_MAX, u64_MAX in *; lia).
    destruct (IH c1 (off + Z.of_nat n)) as (c2 & Hrun2 & Hat2); try done; [unfold READ_CHUNK in *; lia..|].
    exists c2. split; [|done]. etrans; [|exact Hrun2]. do 2 f_equal. lia.
Qed.

Lemma just_lookup_run m k c l d name i :
  mf_poisoned m = false -> in_u64 d -> in_u64 i -> len name <= 100000 -> valid filename3_codec name ->
  memfs_lookup d name m = (Ret (Ok i), m) -> at_server (S k) c m ->
  exists c', just_lookup (handle_of fhc d) name (c, l) = (Ret (Ok (handle_of fhc i)), (c', l)) /\ at_server k c' m.
Proof.
  intros Hp Hd Hi Hn Hv Hl Hat. destruct (lookup_answer fhc d name i m Hwf Hd Hi Hp Hl) as (oa & da & Hcall).
  destruct (dirop_args_fit fhc d name Hwf Hn Hv) as [Hv' Hs'].
  destruct (expect_call memfs_file_system fhc at_server LOOKUP (mk_LOOKUP3args (mk_diropargs3 (handle_of fhc d) name)) k c m l
    (NfsOk (mk_LOOKUP3resok (handle_of fhc i) oa da)) m Hat) as (c1 & Hcall1 & Hat1);
    [cbn -[diropargs3_codec]; exact (conj Hv' Logic.I)|cbn -[diropargs3_codec]; unfold MASK; lia|exact Hcall| |].
  { destruct (handle_of_valid fhc i Hwf) as [_ Hs]. pose proof (post_op_attr_size oa). pose proof (post_op_attr_size da).
    cbn -[nfs_fh3_codec post_op_attr_codec]. unfold MASK. lia. }
  exists c1. split; [|done]. unfold just_lookup. by rewrite (pbind_Ret _ _ _ _ _ Hcall1).
Qed.

(** The one WRITE of a new file. *)
Lemma just_fill_run m k c l id file content :
  memfs_inv m -> mf_poisoned m = false -> in_u64 id -> fs_get (mf_fs m) id = Some (EFile file) -> file_content file = [] ->
  len content <= MASK - 2000 -> at_server (S k) c m ->
  exists r c' m' file', expect (nfs WRITE (mk_WRITE3args (handle_of fhc id) 0 (len content mod 2 ^ 32) UNSTABLE content)) (c, l) =
      (Ret (NfsOk r), (c', l)) /\ at_server k c' m' /\ memfs_inv m' /\ mf_poisoned m' = false /\
    fs_get (mf_fs m') id = Some (EFile file') /\ file_content file' = content /\
    tree_of (mf_fs m') = tree_of (mf_fs m) /\ (forall j, j <> id -> fs_get (mf_fs m') j = fs_get (mf_fs m) j).
Proof.
  intros Hi Hp Hid Ef Hempty Hl Hat. pose proof (len_nonneg content) as H0.
  assert (len content mod 2 ^ 32 = len content) as -> by (apply Z.mod_small; unfold MASK in *; lia).
  destruct (memfs_write_first m id file content Hi Hp Ef Hempty ltac:(unfold MASK, isize_MAX in *; lia))
    as (a & m' & file' & Hw & Hi' & Hp' & Ef' & Hcont & Ht & Hothers).
  destruct (write_answer fhc id 0 content UNSTABLE a m m' Hwf Hid Hp Hw) as [before Hcall].
  set (r := mk_WRITE3resok _ _ _ _) in Hcall. pose proof (opaque_size_le content) as Ho.
  destruct (handle_of_valid fhc id Hwf) as [Hv Hs].
  destruct (expect_call memfs_file_system fhc at_server WRITE (mk_WRITE3args (handle_of fhc id) 0 (len content) UNSTABLE content) k c m l (NfsOk r) m' Hat)
    as (c1 & Hcall1 & Hat1); [| |exact Hcall| |].
  - cbn -[in_u32 in_u64 nfs_fh3_codec]. split_and!; first [exact Hv|unfold in_u32, in_u64, u32_MAX, MASK in *; cbn in *; lia|done].
  - cbn -[nfs_fh3_codec opaque_codec]. unfold MASK in *. lia.
  - unfold r. cbn [res_codec]. pose proof (write_result_size (mk_wcc_data before (Some a)) (len content) (converter_verf fhc)).
    unfold MASK. lia.
  - exists r, c1, m', file'. by split_and!.
Qed.

(** A new file: made, and filled by one WRITE unless it is to be empty. *)
Lemma just_create_run m k c l d dir name content :
  memfs_ok m -> memfs_inv m -> names_unique (tree_of (mf_fs m)) -> mf_poisoned m = false ->
  fs_get (mf_fs m) d = Some (EDir dir) -> fs_get (mf_fs m) (mf_nextid m) = None ->
  len name <= 100000 -> valid filename3_codec name ->
  memfs_lookup d name m = (Ret (Err NFS3ERR_NOENT), m) -> len content <= MASK - 2000 -> at_server (2 + k) c m ->
  exists c' m' file, just_create (handle_of fhc d) name content (c, l) = (Ret (Ok (handle_of fhc (mf_nextid m))), (c', l)) /\
    at_server k c' m' /\ memfs_inv m' /\ mf_poisoned m' = false /\ names_unique (tree_of (mf_fs m')) /\
    fs_get (mf_fs m') (mf_nextid m) = Some (EFile file) /\ file_content file = content /\
    (forall d' n' i, child (tree_of (mf_fs m')) d' n' i <->
       child (tree_of (mf_fs m)) d' n' i \/ (d' = d /\ i = mf_nextid m /\ n' = name)) /\
    (forall j, j <> mf_nextid m -> data_of m' j = data_of m j).
Proof.
  intros Hok Hi U Hp Ed Hfree Hn Hv Hno Hl Hat.
  assert (in_u64 d) as Hd by apply (fs_ok_get _ _ _ (mo_fs _ Hok) Ed). pose proof (mo_nextid _ Hok) as Hid.
  destruct (memfs_create_new m d dir name Hi U Hp Ed Hfree Hno) as (a & m1 & file & Hc & Hi1 & U1 & Hp1 & Ef & Hempty & Hch & Hsame).
  set (id := mf_nextid m) in *.
  destruct (create_answer fhc d name sattr3_default id a m m1 _ Hwf Hd Hp Hp1 Ed Hc) as [wcc Hcall].
  destruct (dirop_args_fit fhc d name Hwf Hn Hv) as [Hv' Hs'].
  destruct (expect_call memfs_file_system fhc at_server CREATE
    (mk_CREATE3args (mk_diropargs3 (handle_of fhc d) name) (UNCHECKED sattr3_default)) (S k) c m l
    (NfsOk (mk_CREATE3resok (Some (handle_of fhc id)) (Some a) wcc)) m1 Hat) as (c1 & Hcall1 & Hat1);
    [cbn -[diropargs3_codec]; split_and!; first [exact Hv'|done]|cbn -[diropargs3_codec]; unfold MASK; lia|exact Hcall| |].
  { destruct (handle_of_valid fhc id Hwf) as [_ Hs]. pose proof (wcc_data_size wcc).
    cbn -[nfs_fh3_codec wcc_data_codec]. unfold MASK. lia. }
  unfold just_create. rewrite (pbind_Ret _ _ _ _ _ Hcall1).
  rewrite tbind_Ok with (a := mk_CREATE3resok (Some (handle_of fhc id)) (Some a) wcc) (s' := (c1, l)) by done.
  rewrite pbind_Ret with (a := handle_of fhc id) (s' := (c1, l)) by done.
  destruct content as [|b content0].
  { exists c1, m1, file. split_and!; try done. by apply (answers_fewer memfs_file_system fhc k (S k)); [lia|]. }
  set (content := b :: content0) in *.
  destruct (just_fill_run m1 k c1 l id file content Hi1 Hp1 Hid Ef Hempty Hl Hat1)
    as (r & c2 & m2 & file2 & Hcall2 & Hat2 & Hi2 & Hp2 & Ef2 & Hcont & Ht & Hrest).
  exists c2, m2, file2. rewrite Ht. split_and!; try done.
  - rewrite tbind_Ok with (a := tt) (s' := (c2, l)); [done|]. by rewrite (pbind_Ret _ _ _ _ _ Hcall2).
  - intros j Hj. rewrite <- Hsame by done. unfold data_of. by rewrite Hrest.
Qed.

(** The whole of a directory. *)
Lemma just_readdir_run m fuel k c l d dir :
  (forall i, is_Some (fs_get (mf_fs m) i) -> in_u64 i) -> memfs_inv m -> mf_poisoned m = false ->
  fs_get (mf_fs m) d = Some (EDir dir) -> fs_get (mf_fs m) 0 = None ->
  versioned (dir_attr dir) -> (forall i, i ∈ dir_content dir -> len (name_at (mf_fs m) i) <= 60000) ->
  (length (dir_content dir) < fuel)%nat -> at_server (fuel + k) c m ->
  exists c', just_readdir fuel (handle_of fhc d) (c, l) = (Ret (Ok (listed (mf_fs m) (dir_content dir))), (c', l)) /\ at_server k c' m.
Proof.
  intros Hids Hinv Hp Ed H0 Hver Hnames Hfuel Hat. assert (in_u64 d) as Hd by (apply Hids; by eexists).
  destruct (handle_of_valid fhc d Hwf) as [Hv Hs].
  assert (vfs_getattr (fh64_new d) m = (Ret (Ok (dir_attr dir)), m)) as Hg by (by rewrite (getattr_any m d Hp Hd), Ed).
  pose proof (memfs_dir_listing m d dir Hinv Hp Ed Hd (content_not_zero m d dir Hinv H0 Ed) (content_u64 m d dir Hinv Hids Ed)) as Hl.
  apply (just_readdir_loop_run memfs_file_system fhc at_server (fh64_new d) (handle_of fhc d) (dir_attr dir) m
    (fh_from_to_nfs fhc (fh64_new d) Hwf) Hg Hv Hs fuel k c l [] (listed (mf_fs m) (dir_content dir))); try done.
  - apply Forall_map, Forall_forall. intros i Hi%Hnames. pose proof (opaque_size_le (name_at (mf_fs m) i)) as Hsz.
    unfold READDIR_PAGE. cbn -[opaque_codec]. change filename3_codec with opaque_codec. lia.
  - unfold listed. by rewrite length_map.
Qed.

(** ** Together *)

(** Make a file, look it up, read it, and list its directory. *)
Definition make_and_look (fuel : nat) (dir : nfs_fh3) (name content : list byte)
  : prog (C * L) (result (nfs_fh3 * nfs_fh3 * list byte * list entry3) nfsstat3) :=
  try* made := just_create dir name content in
  try* found := just_lookup dir name in
  try* data := just_read fuel found in
  try* entries := just_readdir fuel dir in
  pret (Ok (made, found, data, entries)).

Lemma content_child m d dir i name :
  memfs_inv m -> fs_get (mf_fs m) d = Some (EDir dir) ->
  child (tree_of (mf_fs m)) d name i <-> i ∈ dir_content dir /\ name_at (mf_fs m) i = name.
Proof.
  intros Hinv Ed. rewrite child_get, (kid_get (mf_fs m) d dir) by done. unfold name_at. split.
  - intros (Hi & e & -> & <-). done.
  - intros [Hi <-]. split; [done|]. destruct (content_there m d dir Hinv Ed i Hi) as [e E]. exists e. by rewrite E.
Qed.

(** The directory of a new file: one more name in it. *)
Lemma grown_dir m m1 d dir id name :
  memfs_inv m -> memfs_inv m1 -> fs_get (mf_fs m) d = Some (EDir dir) -> d <> id ->
  (forall d' n' i, child (tree_of (mf_fs m1)) d' n' i <-> child (tree_of (mf_fs m)) d' n' i \/ (d' = d /\ i = id /\ n' = name)) ->
  (forall j, j <> id -> data_of m1 j = data_of m j) ->
  exists dir1, fs_get (mf_fs m1) d = Some (EDir dir1) /\ dir_attr dir1 = dir_attr dir /\
    (length (dir_content dir1) <= length (dir_content dir) + 1)%nat /\
    (forall i, i ∈ dir_content dir1 -> name_at (mf_fs m1) i = name \/ i ∈ dir_content dir /\ name_at (mf_fs m1) i = name_at (mf_fs m) i).
Proof.
  intros Hi Hi1 Ed Hne Hch Hsame. pose proof (Hsame d Hne) as Hs. unfold data_of in Hs. rewrite Ed in Hs.
  destruct (fs_get (mf_fs m1) d) as [[x|dir1]|] eqn:Ed1; [discriminate| |discriminate]. unfold entry_data in Hs. cbn in Hs.
  injection Hs as Hattr.
  assert (forall i, i ∈ dir_content dir1 ->
    (i = id /\ name_at (mf_fs m1) i = name) \/ i ∈ dir_content dir /\ name_at (mf_fs m) i = name_at (mf_fs m1) i) as Hkids.
  { intros i Hin. destruct (proj2 (content_child m1 d dir1 i _ Hi1 Ed1) (conj Hin eq_refl)) as [].
    pose proof (proj1 (Hch d (name_at (mf_fs m1) i) i) (proj2 (content_child m1 d dir1 i _ Hi1 Ed1) (conj Hin eq_refl))) as [Hc|(_ & ? & ?)];
      [right|by left]. by apply (content_child m d dir i _ Hi Ed). }
  exists dir1. split; [done|]. split; [done|]. split.
  - pose proof (dir_nodup _ _ _ (proj1 Hi1) Ed1) as Hnd.
    assert (dir_content dir1 ⊆+ id :: dir_content dir) as Hsub.
    { apply NoDup_submseteq; [done|]. intros i [[-> _]|[Hin _]]%Hkids; [left|by right]. }
    apply submseteq_length in Hsub. cbn in Hsub. lia.
  - intros i [[_ ?]|[? ?]]%Hkids; [by left|by right].
Qed.

Lemma make_and_look_run m fuel k c l d dir name content :
  memfs_ok m -> memfs_inv m -> names_unique (tree_of (mf_fs m)) -> mf_poisoned m = false ->
  fs_get (mf_fs m) d = Some (EDir dir) -> fs_get (mf_fs m) (mf_nextid m) = None -> fs_get (mf_fs m) 0 = None -> mf_nextid m <> 0 ->
  versioned (dir_attr dir) -> (forall i, i ∈ dir_content dir -> len (name_at (mf_fs m) i) <= 60000) ->
  ~ special name -> len name <= 60000 -> valid filename3_codec name ->
  memfs_lookup d name m = (Ret (Err NFS3ERR_NOENT), m) -> len content <= MASK - 2000 ->
  len content <= READ_CHUNK * Z.of_nat fuel -> (length (dir_content dir) + 1 < fuel)%nat ->
  at_server (2 + (1 + (fuel + (fuel + k)))) c m ->
  exists c' m' es, make_and_look fuel (handle_of fhc d) name content (c, l) =
      (Ret (Ok (handle_of fhc (mf_nextid m), handle_of fhc (mf_nextid m), content, es)), (c', l)) /\ at_server k c' m' /\
    NoDup (map entry3_fileid es) /\
    (forall n i, mk_entry3 i n i ∈ es <-> child (tree_of (mf_fs m)) d n i \/ (i = mf_nextid m /\ n = name)) /\
    (forall j, j <> mf_nextid m -> data_of m' j = data_of m j).
Proof.
  intros Hok Hi U Hp Ed Hfree H0 Hnz Hver Hnames Hsp Hn Hv Hno Hl Hlf Hfuel Hat.
  assert (in_u64 d) as Hd by apply (fs_ok_get _ _ _ (mo_fs _ Hok) Ed). pose proof (mo_nextid _ Hok) as Hid.
  destruct (just_create_run m _ c l d dir name content Hok Hi U Hp Ed Hfree ltac:(lia) Hv Hno Hl Hat)
    as (c1 & m1 & file & Hrun1 & Hat1 & Hi1 & Hp1 & U1 & Ef & Hcont & Hch & Hsame).
  set (id := mf_nextid m) in *. assert (d <> id) as Hne by congruence.
  destruct (grown_dir m m1 d dir id name Hi Hi1 Ed Hne Hch Hsame) as (dir1 & Ed1 & Hattr & Hlen & Hkids).
  destruct (just_lookup_run m1 _ c1 l d name id Hp1 Hd Hid ltac:(lia) Hv
    ltac:(apply memfs_lookup_iff; try done; apply Hch; by right) Hat1) as (c2 & Hrun2 & Hat2).
  destruct (just_read_loop_run m1 fuel (fuel + k) c2 l id file 0 Hi1 Hp1 Hid Ef) as (c3 & Hrun3 & Hat3); rewrite ?Hcont; try done;
    [pose proof (len_nonneg content); unfold MASK, usize_MAX, u64_MAX, READ_CHUNK in *; lia..|].
  destruct (just_readdir_run m1 fuel k c3 l d dir1) as (c4 & Hrun4 & Hat4); try done.
  - intros j [e E]. destruct (decide (j = id)) as [->|Hj]; [done|]. pose proof (Hsame j Hj) as Hs. unfold data_of in Hs. rewrite E in Hs.
    destruct (fs_get (mf_fs m) j) as [e'|] eqn:E'; [|discriminate]. apply (fs_ok_get _ _ _ (mo_fs _ Hok) E').
  - pose proof (Hsame 0 ltac:(congruence)) as Hs. unfold data_of in Hs. rewrite H0 in Hs. by destruct (fs_get (mf_fs m1) 0).
  - by rewrite Hattr.
  - intros i [->|[Hin ->]]%Hkids; [done|]. by apply Hnames.
  - lia.
  - exists c4, m1, (listed (mf_fs m1) (dir_content dir1)). split.
    { unfold make_and_look. rewrite (tbind_Ok _ _ _ _ _ Hrun1), (tbind_Ok _ _ _ _ _ Hrun2).
      rewrite Hcont in Hrun3. cbn [take] in Hrun3. unfold just_read. rewrite (tbind_Ok _ _ _ _ _ Hrun3).
      by rewrite (tbind_Ok _ _ _ _ _ Hrun4). }
    split; [done|]. unfold listed. split.
    { rewrite map_map. cbn. rewrite map_id. apply (dir_nodup _ _ _ (proj1 Hi1) Ed1). }
    split; [|done]. intros n i. transitivity (child (tree_of (mf_fs m1)) d n i).
    + rewrite (content_child m1 d dir1 i n Hi1 Ed1), list_elem_of_In, in_map_iff. split.
      * intros (j & [= -> <- _] & Hj%list_elem_of_In). done.
      * intros [Hj <-]. exists i. split; [done|]. by apply list_elem_of_In.
    + rewrite Hch. naive_solver.
Qed.
End runs.

(** ** Over the network *)

Section network.
Context `{Hash : HashSetOrder} `{Target}.

(** C18: A client makes a file over the network and finds it again. On a session
    with a server of the in-memory file system, whatever schedules the connection's
    tasks and cuts up the replies: when a name is not in a directory and the next id
    is free, [just_create] makes a file of that name with the given contents (up to
    nearly 2 GiB, in one WRITE, or none); [just_lookup] then gives the same handle,
    [just_read] gives back exactly the contents, in chunks of 1 MiB, and
    [just_readdir] gives, page by page, each entry the directory had and the new
    one, once. No attribute or byte of another entry has changed, and the session is
    ready for the next call. The directory must have a modification time other than
    the epoch (whose cookie verifier stops a listing at its second page), no two
    entries of one name, and names of at most 60,000 bytes; the new name is
    neither [.] nor [..]. *)
Theorem just_create_read_list (ctx : RPCContext) (schedule : nat -> Connection MemFs -> list (action MemFs))
  (cut : nat -> list byte -> list (list byte)) (m : MemFs) (d : Z) (dir : Dir) (name content : list byte)
  (fuel k : nat) (se : Session MemFs) :
  let id := mf_nextid m in
  let handle := handle_of (ctx_file_handle_converter ctx) in
  carries memfs_file_system ctx schedule -> delivers cut -> converter_wf (ctx_file_handle_converter ctx) ->
  memfs_inv m -> names_unique (tree_of (mf_fs m)) -> mf_poisoned m = false ->
  fs_get (mf_fs m) d = Some (EDir dir) -> fs_get (mf_fs m) id = None -> fs_get (mf_fs m) 0 = None -> id <> 0 ->
  versioned (dir_attr dir) -> (forall i, i ∈ dir_content dir -> len (name_at (mf_fs m) i) <= 60000) ->
  ~ special name -> len name <= 60000 -> memfs_lookup d name m = (Ret (Err NFS3ERR_NOENT), m) ->
  len content <= MASK - 2000 -> len content <= READ_CHUNK * Z.of_nat fuel -> (length (dir_content dir) + 1 < fuel)%nat ->
  linked ctx memfs_ok (2 + (1 + (fuel + (fuel + k)))) se m ->
  exists se' m' es,
    @make_and_look _ _ (session_calls memfs_file_system ctx schedule cut) fuel (handle d) name content (se, tt) =
      (Ret (Ok (handle id, handle id, content, es)), (se', tt)) /\
    linked ctx memfs_ok k se' m' /\
    NoDup (map entry3_fileid es) /\
    (forall n i, mk_entry3 i n i ∈ es <-> child (tree_of (mf_fs m)) d n i \/ (i = id /\ n = name)) /\
    (forall j, j <> id -> data_of m' j = data_of m j).
Proof.
  intros id handle Hs Hc Hwf Hinv U Hp Ed Hfree H0 Hnz Hver Hnames Hsp Hn Hno Hl Hlf Hfuel Hlink.
  assert (valid filename3_codec name) as Hv.
  { cbn. unfold u32_MAX. split; [lia|done]. }
  pose proof (session_answers (L := unit) memfs_file_system ctx schedule cut memfs_ok Hs Hc memfs_valid Hwf) as Hans.
  exact (make_and_look_run (Hans := Hans) _ Hwf (linked ctx memfs_ok) m fuel k se tt d dir name content
    (lk_fs _ _ _ _ _ Hlink) Hinv U Hp Ed Hfree H0 Hnz Hver Hnames Hsp Hn Hv Hno Hl Hlf Hfuel Hlink).
Qed.
End network.

Import DemoFs DemoMem DemoPrograms.

Definition new_txt : filename3 := bytes_of_string "new.txt".

Lemma m_names_unique : names_unique (tree_of (mf_fs m)).
Proof.
  intros d name i j Hci Hcj.
  assert (forall d dir, fs_get (mf_fs m) d = Some (EDir dir) -> NoDup (map (name_at (mf_fs m)) (dir_content dir))) as Hnd.
  { intros d' dir E. refine (bool_decide_eq_true_1 _ (entries_forall (fun _ e => match e with
      | EDir dir => bool_decide (NoDup (map (name_at (mf_fs m)) (dir_content dir))) | EFile _ => true end) _ _ _ _ E)).
    vm_compute. reflexivity. }
  pose proof Hci as [Hk _]. apply kid_dir in Hk as (dir & Ed & _).
  apply (content_child m d dir _ _ m_inv Ed) in Hci as [Hi Hni], Hcj as [Hj Hnj].
  apply list_elem_of_lookup in Hi as [x Hx], Hj as [y Hy].
  assert (x = y) as <-; [|congruence]. apply (NoDup_lookup _ x y name (Hnd d dir Ed)).
  - change (map (name_at (mf_fs m)) (dir_content dir)) with (name_at (mf_fs m) <$> dir_content dir). by rewrite list_lookup_fmap, Hx, <- Hni.
  - change (map (name_at (mf_fs m)) (dir_content dir)) with (name_at (mf_fs m) <$> dir_content dir). by rewrite list_lookup_fmap, Hy, <- Hnj.
Qed.

Lemma m_names_short i : len (name_at (mf_fs m) i) <= 60000.
Proof.
  unfold name_at. destruct (fs_get (mf_fs m) i) as [e|] eqn:E; [|done]. apply Z.leb_le.
  refine (entries_forall (fun _ e => len (entry_name e) <=? 60000) _ _ _ _ E). vm_compute. reflexivity.
Qed.

Lemma new_txt_plain : ~ special new_txt.
Proof. apply not_special. vm_compute. reflexivity. Qed.

Lemma new_txt_new : memfs_lookup 1 new_txt m = (Ret (Err NFS3ERR_NOENT), m).
Proof.
  assert (mf_poisoned m = false) as Hp by (vm_compute; reflexivity).
  assert (fs_lookup (mf_fs m) 1 new_txt = Err NFS3ERR_NOENT) as El by (vm_compute; reflexivity).
  unfold memfs_lookup, with_read. by rewrite Hp, El.
Qed.

Lemma just_create_read_list_witness :
  exists se' es, @make_and_look _ _ (session_calls memfs_file_system DemoNetwork.ctx DemoNetwork.schedule DemoNetwork.cut)
      5 (handle_of fhc 1) new_txt hello (DemoNetwork.session, tt) =
    (Ret (Ok (handle_of fhc 5, handle_of fhc 5, hello, es)), (se', tt)) /\ NoDup (map entry3_fileid es).
Proof.
  assert (mf_nextid m = 5) as Hnext by (vm_compute; reflexivity).
  destruct (just_create_read_list DemoNetwork.ctx DemoNetwork.schedule DemoNetwork.cut m 1 root_dir new_txt hello 5 0
    DemoNetwork.session DemoNetwork.schedule_carries (cut_into_delivers 8) DemoNetwork.ctx_wf m_inv m_names_unique
    ltac:(vm_compute; reflexivity) ltac:(vm_compute; reflexivity) ltac:(vm_compute; reflexivity) ltac:(vm_compute; reflexivity)
    ltac:(vm_compute; discriminate) ltac:(vm_compute; reflexivity) (fun i _ => m_names_short i) new_txt_plain
    ltac:(vm_compute; discriminate) new_txt_new ltac:(vm_compute; discriminate) ltac:(vm_compute; discriminate)
    ltac:(vm_compute; lia) (DemoNetwork.session_linked 13 ltac:(vm_compute; discriminate)))
    as (se' & m' & es & Hrun & _ & Hnd & _).
  rewrite Hnext in Hrun. exists se', es. exact (conj Hrun Hnd).
Defined.
