(* ===== verification/ServerMain.v ===== *)
(** * The server program: [cargo_nfs3_server/src/main.rs]

    From the arguments of the command line to a file system and a listener:
    [logging.rs] (which log there is; [rolling_never], which opens its file or panics,
    belongs to a library and is a parameter), [memfs.rs] (what the in-memory file system
    holds at first) and [main.rs].  An [expect] or [assert!] that fails is a panic of
    the program.  What follows is [handle_forever], the tasks of [Connection]. *)

From S2P Require Import Prelude Xdr Nfs3Types Handle Vfs FsUtil MountPortmap Listener.
From S2P Require Import MemFs MemFsTree MemFsLaws MemFsTheorems MemFsNames MemFsProperties Mirror MirrorProperties NfsHandlersLaws ProgramsMemFs JustClient.
Open Scope Z_scope.
Open Scope nfs_scope.

(** ** [logging.rs] *)

Inductive Level : Type := ERROR | WARN | INFO | DEBUG | TRACE.

(** [str::to_lowercase]; no other character has a lower case that is one of the
    letters of the names of the levels. *)
Definition ascii_lower (c : Ascii.ascii) : Ascii.ascii :=
  let n := Ascii.N_of_ascii c in
  if (65 <=? n)%N && (n <=? 90)%N then Ascii.ascii_of_N (n + 32) else c.
Fixpoint to_lowercase (s : string) : string :=
  match s with EmptyString => "" | String c s => String (ascii_lower c) (to_lowercase s) end.

Definition parse_level (log_level : string) : outcome Level :=
  let l := to_lowercase log_level in
  if decide (l = "error"%string) then Ret ERROR
  else if decide (l = "warn"%string) then Ret WARN
  else if decide (l = "info"%string) then Ret INFO
  else if decide (l = "debug"%string) then Ret DEBUG
  else if decide (l = "trace"%string) then Ret TRACE
  else Panic.

(** The components of a path from its last one on: empty ones do not count, nor does
    a [.] that is not the first. *)
Fixpoint last_components (rev_components : list (list byte)) : list (list byte) :=
  match rev_components with
  | [] => []
  | c :: rest =>
      if bool_decide (c = []) || (bool_decide (c = DOT) && negb (bool_decide (rest = []))) then last_components rest
      else rev_components
  end.

(** [Path::file_name]: the last component, unless it is [..], or [.] alone. *)
Definition file_name_of (p : list byte) : option (list byte) :=
  match last_components (rev (split_slash p)) with
  | c :: _ => if bool_decide (c = DOT) || bool_decide (c = DOTDOT) then None else Some c
  | [] => None
  end.

Fixpoint join_slash (components : list (list byte)) : list byte :=
  match components with
  | [] => []
  | [c] => c
  | c :: rest => c ++ x2f :: join_slash rest
  end.

(** [Path::parent]: what is before the last component, [/] or nothing when that is the
    only one. *)
Definition parent_of (p : list byte) : option (list byte) :=
  match last_components (rev (split_slash p)) with
  | [] => None
  | _ :: before =>
      Some match last_components before with
           | [] => match p with b :: _ => if decide (b = x2f) then [x2f] else [] | [] => [] end
           | components => join_slash (rev components)
           end
  end.

(** Where the messages go, when there is a subscriber. *)
Record Subscriber : Type := mkSubscriber { sb_level : Level; sb_stdout : bool; sb_file : option (list byte) }.

(** A worker that writes messages, until its guard is dropped. *)
Inductive WorkerGuard : Type := StdoutGuard | FileGuard (name : list byte).

Section logging.
Context {OS : Type}.
(** [tracing_appender::rolling::never], of another crate: creates or opens the file of
    this name in this directory, and panics ([false]) when that cannot be done. *)
Context (rolling_never : list byte -> list byte -> OS -> bool * OS).

(** The directory of the file of the log. *)
Definition log_directory (log_file : list byte) : list byte := default DOT (parent_of log_file).

Definition init_file_logger (log_file : list byte) : prog OS WorkerGuard := fun os =>
  let directory := log_directory log_file in
  match file_name_of log_file with
  | Some name =>
      let '(opened, os) := rolling_never directory name os in
      if opened then (Ret (FileGuard name), os) else (Panic, os)
  | None => (Panic, os)
  end.

Definition init_logging (log_level : string) (log_file : option (list byte)) (enable_stdout : bool)
  : prog OS (option Subscriber * list WorkerGuard) :=
  do* level := fun os => (parse_level log_level, os) in
  match enable_stdout, log_file with
  | false, None => pret (None, [])
  | true, None => pret (Some (mkSubscriber level true None), [StdoutGuard])
  | false, Some file =>
      do* guard := init_file_logger file in
      pret (Some (mkSubscriber level false (Some file)), [guard])
  | true, Some file =>
      do* guard := init_file_logger file in
      pret (Some (mkSubscriber level true (Some file)), [StdoutGuard; guard])
  end.

Lemma parse_level_ret log_level :
  (exists l, parse_level log_level = Ret l) <->
  to_lowercase log_level ∈ ["error"; "warn"; "info"; "debug"; "trace"]%string.
Proof.
  unfold parse_level. rewrite !elem_of_cons, elem_of_nil. repeat case_decide; split; intros Hx; eauto 10.
  all: exfalso; naive_solver.
Qed.

(** When there is a log: the level has a name, and the file can be opened. *)
Lemma init_logging_ret log_level log_file enable_stdout os :
  (exists log os1, init_logging log_level log_file enable_stdout os = (Ret log, os1)) <->
  to_lowercase log_level ∈ ["error"; "warn"; "info"; "debug"; "trace"]%string /\
  forall file, log_file = Some file -> exists name, file_name_of file = Some name /\
    fst (rolling_never (log_directory file) name os) = true.
Proof.
  rewrite <- parse_level_ret. unfold init_logging, init_file_logger, pbind, pret.
  destruct (parse_level log_level) as [l| |]; cycle 1.
  1, 2: split; [by intros (? & ? & ?)|by intros [[? ?] _]].
  destruct log_file as [file|]; cycle 1.
  { split; [|by intros _; destruct enable_stdout; do 2 eexists]. intros _. split; [by eexists|done]. }
  destruct (file_name_of file) as [name|] eqn:En; cycle 1.
  { split; [by destruct enable_stdout; intros (? & ? & ?)|]. intros [_ Hf]. by destruct (Hf file eq_refl) as (? & ? & _); simplify_eq. }
  destruct (rolling_never (log_directory file) name os) as [[] os1] eqn:Er; split.
  - intros _. split; [by eexists|]. intros ? [= <-]. exists name. by rewrite Er.
  - intros _. destruct enable_stdout; rewrite Er; eexists _, _; reflexivity.
  - by destruct enable_stdout; rewrite Er; intros (? & ? & ?).
  - intros [_ Hf]. destruct (Hf file eq_refl) as (? & ? & Hx). simplify_eq. by rewrite Er in Hx.
Qed.
End logging.

(** ** [memfs.rs] *)

Definition CAT : list byte := bytes_of_string "
    /\_____/\
   /  o   o  \
  ( ==  ^  == )
   )         (
  (           )
 ( (  )   (  ) )
(__(__)___(__)__)
".

Definition WRITABLE_README : list byte := bytes_of_string "
This is in memory filesystem for NFSv3 server.
It contains a few files and directories for testing purposes.

WARNING: It stores data in memory, so it will be lost when the server is stopped.
         The total size of the filesystem is limited by the available memory.
".

Definition READONLY_README : list byte := bytes_of_string "
This is in memory filesystem for NFSv3 server.
It contains a few files and directories for testing purposes.
It is read-only, so you cannot modify it.
".

Definition default_config (readonly : bool) : list MemFsConfigEntry :=
  let readme := if readonly then READONLY_README else WRITABLE_README in
  let config := [] in
  let config := config_add_file (bytes_of_string "/README.txt") readme config in
  let config := config_add_file (bytes_of_string "/cat.txt") CAT config in
  let config := config_add_dir (bytes_of_string "/new folder") config in
  let config := config_add_dir (bytes_of_string "/new folder (1)") config in
  let config := config_add_dir (bytes_of_string "/new folder (2)") config in
  config.

(** ** [main.rs] *)

Record Args : Type := mkArgs {
  args_path : option path;
  args_export_name : list byte;
  args_bind_ip : string;
  args_bind_port : Z;
  args_readonly : bool;
  args_memfs : bool;
  args_log_level : string;
  args_log_file : option (list byte);
  args_quiet : bool;
}.

(** A file system in its first state, behind a listener. *)
Record Served : Type := mkServed {
  sv_state : Type;
  sv_fs : NfsFileSystem sv_state FileHandleU64;
  sv_vfs : sv_state;
  sv_listener : NFSTcpListener;
}.

Section main.
Context `{Hash : HashSetOrder} `{Target} {T Sym OS RD F : Type} `{!SymbolTable T Sym} `{Countable Sym} `{!Os OS RD F}.
Context {N : Type} `{!TcpBind N}.
(** The clock of the in-memory file system, the time at which the listener is made,
    and whether the handler of Ctrl-C can be set. *)
Context (clock : nat -> nfstime3) (started : Z) (ctrlc_set : bool).
(** Opening the file of the log. *)
Context (rolling_never : list byte -> list byte -> OS -> bool * OS).

(** [start_server], up to [handle_forever]. *)
Definition start_server {V} (bind_addr : string) (export_name : list byte) (fs : NfsFileSystem V FileHandleU64) (v : V)
  : prog N Served :=
  if ctrlc_set then
    do* listener := expect (bind started bind_addr) in
    pret (mkServed V fs v (listener_with_export_name export_name listener))
  else ppanic.

Definition main (args : Args) (os : OS) : prog N Served :=
  match init_logging rolling_never (args_log_level args) (args_log_file args) (negb (args_quiet args)) os with
  | (Ret _, os) =>
      let bind_addr := args_bind_ip args +:+ ":" +:+ show_int (args_bind_port args) in
      let export_path := args_export_name args in
      if args_memfs args then
        match memfs_new clock (default_config (args_readonly args)) with
        | Ret (Ok memfs) =>
            if args_readonly args then start_server bind_addr export_path (ReadOnlyAdapter memfs_read_fs) memfs
            else start_server bind_addr export_path memfs_file_system memfs
        | _ => ppanic
        end
      else
        match args_path args with
        | None => ppanic
        | Some path =>
            let '(exists_, os) := os_exists path os in
            if exists_ then
              let mirror_fs := mirror_new path os in
              if args_readonly args then start_server bind_addr export_path (ReadOnlyAdapter mirror_read_fs) mirror_fs
              else start_server bind_addr export_path mirror_file_system mirror_fs
            else ppanic
        end
  | _ => ppanic
  end.
End main.

(** ** What the in-memory file system holds *)

Section entries.
Context `{Hash : HashSetOrder}.

(** The root directory with these names, each with the bytes of a file or none for a
    directory; the ids are given in order. *)
Record holds (m : MemFs) (l : list (list byte * option (list byte))) : Prop := {
  hd_inv : memfs_inv m;
  hd_poisoned : mf_poisoned m = false;
  hd_root : mf_rootdir m = 1;
  hd_next : mf_nextid m = 2 + len l;
  hd_ids : forall i, is_Some (fs_get (mf_fs m) i) -> i < mf_nextid m;
  hd_children : forall d name i, child (tree_of (mf_fs m)) d name i <-> d = 1 /\ exists c, l !! Z.to_nat (i - 2) = Some (name, c) /\ 2 <= i;
  hd_data : forall i name c, 2 <= i -> l !! Z.to_nat (i - 2) = Some (name, c) -> snd <$> data_of m i = Some c;
}.

Lemma holds_root m l : holds m l -> exists dir, fs_get (mf_fs m) 1 = Some (EDir dir).
Proof.
  intros Hm. destruct (hd_inv _ _ Hm) as [W Hr]. rewrite (hd_root _ _ Hm) in Hr. rewrite <- Hr.
  destruct (tw_root _ _ (fw_tree _ W)) as (p & k & (d & -> & _)%is_dir_get). by exists d.
Qed.

(** A new entry in the root directory is pushed, and is one more. *)
Lemma holds_push m l e :
  holds m l -> new_entry 1 e -> entry_fileid e = mf_nextid m ->
  exists f, fs_push 1 e (mf_fs m) = (Ret (Ok tt), f) /\
    forall m', memfs_inv m' -> mf_fs m' = f -> mf_poisoned m' = false -> mf_rootdir m' = 1 ->
      mf_nextid m' = mf_nextid m + 1 -> holds m' (l ++ [(entry_name e, snd (entry_data e))]).
Proof.
  intros Hm Hnew Hid. destruct (hd_inv _ _ Hm) as [W _]. destruct (holds_root m l Hm) as [dir Edir].
  pose proof (hd_next _ _ Hm) as Hnext. pose proof (len_nonneg l) as Hlen.
  assert (entry_fileid e <> 1 \/ exists file, e = EFile file) as Hp by (left; lia).
  pose proof (fs_push_cases (mf_fs m) 1 e W Hp) as Hc.
  destruct (fs_push 1 e (mf_fs m)) as [[[[]|stat]| |] f] eqn:Ep; [| |done..]; cycle 1.
  { exfalso. destruct Hc as [_ [[[x Hx] _]|[(_ & Hn & _)|(_ & [x Hx] & _)]]]; [|congruence..].
    pose proof (hd_ids _ _ Hm (entry_fileid e) ltac:(by exists x)). lia. }
  destruct Hc as (E0 & dir' & Edir' & _ & Hf). exists f. split; [done|]. intros m' Hi' Ef Hp' Hr' Hn'. split; try done.
  - rewrite Hn', Hnext, len_app. unfold len. cbn. lia.
  - rewrite Ef, Hf, Hn', Hid. intros i Hi. rewrite !fs_get_set in Hi.
    destruct (decide (1 = i)); [lia|]. destruct (decide (mf_nextid m = i)); [lia|]. pose proof (hd_ids _ _ Hm i Hi). lia.
  - intros d name i. rewrite Ef, (push_child _ 1 e _ d name i W Hnew Hp Ep), (hd_children _ _ Hm), Hid. split.
    + intros [(-> & c & Hl & Hi)|(-> & -> & ->)]; (split; [done|]).
      * exists c. split; [|done]. by apply lookup_app_l_Some.
      * exists (snd (entry_data e)). rewrite Hnext. split; [|lia]. apply list_lookup_middle. unfold len. lia.
    + intros (-> & c & [Hl|[Hl Hl']]%lookup_app_Some & Hi); [left; split; [done|]; by exists c|right].
      apply list_lookup_singleton_Some in Hl' as [Hz [= <- <-]]. split_and!; [done|unfold len in *; lia|done].
  - intros i name c Hi. unfold data_of. rewrite Ef, Hf, data_set_dir by (rewrite fs_get_set_ne; [done|lia]).
    intros [Hl|[Hl Hl']]%lookup_app_Some.
    + rewrite fs_get_set_ne; [by apply (hd_data _ _ Hm i name)|]. apply lookup_lt_Some in Hl. unfold len in *. lia.
    + apply list_lookup_singleton_Some in Hl' as [Hz [= <- <-]].
      assert (i = entry_fileid e) as -> by (unfold len in *; lia). by rewrite fs_get_set_eq.
Qed.

(** An entry of the configuration, directly in the root. *)
Definition plain_entry (l : list (list byte * option (list byte))) (e : MemFsConfigEntry) : Prop :=
  ce_parent e = [x2f] /\ ~ special (ce_name e) /\ ce_name e ∉ map fst l.
Definition entry_of (e : MemFsConfigEntry) : list byte * option (list byte) :=
  (ce_name e, if ce_is_dir e then None else Some (ce_content e)).

Lemma root_path m l : holds m l -> memfs_path_to_id [x2f] m = (Ret (Ok 1), m).
Proof.
  intros Hm. unfold memfs_path_to_id, with_read. rewrite (hd_poisoned _ _ Hm), (hd_root _ _ Hm). reflexivity.
Qed.

Lemma holds_add m l e :
  holds m l -> plain_entry l e -> len l + 10 < 2 ^ 64 ->
  exists r m', (if ce_is_dir e then memfs_add_dir 1 (ce_name e)
             else memfs_add_file 1 (ce_name e) sattr3_default (ce_content e) None) m = (Ret (Ok r), m') /\
    holds m' (l ++ [entry_of e]).
Proof.
  intros Hm (_ & Hsp & Hfresh) Hlen. pose proof (hd_next _ _ Hm) as Hnext. pose proof (len_nonneg l) as Hl0.
  pose proof (hd_inv _ _ Hm) as Hinv. pose proof (hd_poisoned _ _ Hm) as Hp. unfold entry_of.
  assert ((mf_nextid m + 1) mod 2 ^ 64 = mf_nextid m + 1) as Hmod by (apply Z.mod_small; lia).
  destruct (holds_root m l Hm) as [dir Edir].
  destruct (ce_is_dir e).
  - set (en := EDir (dir_new (ce_name e) (mf_nextid m) 1 (mf_clock m (mf_ticks m)))).
    destruct (holds_push m l en Hm) as (f & Ep & Hf); [|done|].
    { split; [|done]. split; [done|]. cbn. split; [done|constructor]. }
    pose proof (mkdir_ok 1 (ce_name e) m Hinv ltac:(by exists (EDir dir))) as [Hi' _].
    unfold memfs_add_dir, fetch_nextid, current_time, pbind, with_write in *. cbn in *. fold en in Hi' |- *.
    rewrite Hp, Ep in *. cbn in *. eexists _, _. split; [reflexivity|].
    apply Hf; first [done|exact (hd_root _ _ Hm)|exact Hmod].
  - pose proof (add_file_ok 1 (ce_name e) sattr3_default (ce_content e) None m Hinv Logic.I) as [Hi' _].
    rewrite add_file_unfold in *.
    pose proof (created_file_cases (ce_name e) (mf_nextid m) (ce_content e) None sattr3_default m Logic.I) as Hc.
    destruct (created_file (ce_name e) (mf_nextid m) (ce_content e) None sattr3_default m) as [[o en] ticks].
    destruct Hc as (file & -> & Hname & Hok & Ho). destruct o as [u| |]; [|destruct Ho as [_ (? & ? & _)]; done..].
    destruct (holds_push m l (EFile file) Hm) as (f & Ep & Hf); [by split; [rewrite (proj1 Hok)|]|by apply Hok|].
    assert (fs_lookup (mf_fs m) 1 (file_name file) = Err NFS3ERR_NOENT) as El.
    { rewrite Hname. apply fs_lookup_noent; [apply Hinv|done|do 2 eexists; apply is_dir_get; by eexists|].
      intros i (_ & c & Hl & _)%(hd_children _ _ Hm). destruct Hfresh. apply list_elem_of_fmap. exists (ce_name e, c).
      split; [done|]. by apply list_elem_of_lookup_2 with (Z.to_nat (i - 2)). }
    unfold with_write, drawn in *. cbn in *. rewrite Hp in *. unfold insert_file in *. cbn [entry_name] in *. rewrite El, Ep in *.
    cbn in *. eexists _, _. split; [reflexivity|].
    rewrite Hname, Ho in Hf. apply Hf; first [done|exact (hd_root _ _ Hm)|exact Hmod].
Qed.

Lemma holds_entries entries m l :
  holds m l -> (forall es1 e es2, entries = es1 ++ e :: es2 -> plain_entry (l ++ map entry_of es1) e) ->
  len l + len entries + 10 < 2 ^ 64 ->
  exists m', memfs_add_entries entries m = (Ret (Ok tt), m') /\ holds m' (l ++ map entry_of entries).
Proof.
  revert m l. induction entries as [|e entries IH]; intros m l Hm Hes Hlen.
  { exists m. cbn. rewrite app_nil_r. by split. }
  pose proof (Hes [] e entries eq_refl) as He. cbn [map] in He. rewrite app_nil_r in He.
  destruct (holds_add m l e Hm He) as (r & m1 & Hadd & Hm1). { pose proof (len_nonneg (e :: entries)). lia. }
  destruct (IH m1 (l ++ [entry_of e]) Hm1) as (m2 & Hrun & Hm2).
  - intros es1 e' es2 ->. rewrite <- (assoc_L (++)). apply (Hes (e :: es1) e' es2). done.
  - rewrite len_app. unfold len in *. cbn in *. lia.
  - exists m2. cbn [memfs_add_entries map]. destruct He as (-> & _ & _).
    rewrite (pbind_Ret _ _ _ _ _ (root_path m l Hm)), (pbind_Ret _ _ _ _ _ Hadd), Hrun. split; [done|].
    by rewrite <- (assoc_L (++)) in Hm2.
Qed.

Lemma holds_nothing clock : holds (memfs_default clock) [].
Proof.
  assert (forall i e, fs_get (fs_new (clock O)) i = Some e -> i = 1 /\ e = EDir (dir_new [x2f] 1 0 (clock O))) as Hg.
  { intros i e. unfold fs_get, fs_new. cbn. by intros [<- <-]%lookup_singleton_Some. }
  split; try done.
  - apply (memfs_reachable_inv clock). constructor.
  - by intros i [e [-> _]%Hg].
  - intros d name i. split; [|by intros (_ & c & Hl & _)]. intros [Hk _].
    apply kid_dir in Hk as (dir & [_ [= ->]]%Hg & Hin). by apply not_elem_of_nil in Hin.
Qed.

(** The five entries that the program starts with. *)
Definition default_entries (readonly : bool) : list (list byte * option (list byte)) :=
  [(bytes_of_string "README.txt", Some (if readonly then READONLY_README else WRITABLE_README));
   (bytes_of_string "cat.txt", Some CAT); (bytes_of_string "new folder", None);
   (bytes_of_string "new folder (1)", None); (bytes_of_string "new folder (2)", None)].

(** Checks of a list of entries, one after the other. *)
Fixpoint plain_entries (l : list (list byte * option (list byte))) (entries : list MemFsConfigEntry) : bool :=
  match entries with
  | [] => true
  | e :: entries =>
      bool_decide (ce_parent e = [x2f]) && negb (bool_decide (ce_name e = DOT) || bool_decide (ce_name e = DOTDOT)) &&
      bool_decide (ce_name e ∉ map fst l) && plain_entries (l ++ [entry_of e]) entries
  end.

Lemma plain_entries_all l entries es1 e es2 :
  plain_entries l entries = true -> entries = es1 ++ e :: es2 -> plain_entry (l ++ map entry_of es1) e.
Proof.
  intros Hp ->. revert l Hp. induction es1 as [|e1 es1 IH]; intros l; cbn [app plain_entries map];
    rewrite !andb_true_iff; intros [[[H1 H2] H3] H4].
  - rewrite app_nil_r. split_and!; [by apply bool_decide_eq_true_1 in H1| |by apply bool_decide_eq_true_1 in H3].
    apply DemoMem.not_special. by apply negb_true_iff in H2.
  - specialize (IH _ H4). by rewrite <- (assoc_L (++)) in IH.
Qed.

(** The configuration of the program is always accepted, and gives just its entries. *)
Lemma default_config_holds clock readonly :
  exists m, memfs_new clock (default_config readonly) = Ret (Ok m) /\ holds m (default_entries readonly).
Proof.
  destruct (holds_entries (default_config readonly) (memfs_default clock) [] (holds_nothing clock)) as (m & Hrun & Hm).
  - intros es1 e es2. apply plain_entries_all. by destruct readonly; vm_compute.
  - by destruct readonly; vm_compute.
  - exists m. unfold memfs_new. rewrite Hrun. split; [done|]. by destruct readonly; vm_compute in Hm |- *.
Qed.
End entries.

(** ** What the program serves *)

Section serves.
Context `{Hash : HashSetOrder} `{Target} {T Sym OS RD F : Type} `{!SymbolTable T Sym} `{Countable Sym} `{!Os OS RD F}.
Context {N : Type} `{!TcpBind N}.
Context (clock : nat -> nfstime3) (started : Z) (ctrlc_set : bool)
  (rolling_never : list byte -> list byte -> OS -> bool * OS).

(** The export that the arguments ask for, behind the listener [l]: the in-memory file
    system with its five entries, or the mirror of a path that exists. *)
Inductive exports (args : Args) (os : OS) (l : NFSTcpListener) : Served -> Prop :=
| exports_memfs m :
    args_memfs args = true -> memfs_new clock (default_config (args_readonly args)) = Ret (Ok m) ->
    holds m (default_entries (args_readonly args)) ->
    exports args os l
      (mkServed MemFs (if args_readonly args then ReadOnlyAdapter memfs_read_fs else memfs_file_system) m l)
| exports_mirror p os' :
    args_memfs args = false -> args_path args = Some p -> os_exists p os = (true, os') ->
    exports args os l
      (mkServed MirrorFs (if args_readonly args then ReadOnlyAdapter mirror_read_fs else mirror_file_system) (mirror_new p os') l).

Lemma start_server_run {V} addr name (fs : NfsFileSystem V FileHandleU64) (v : V) srv n n' :
  start_server started ctrlc_set addr name fs v n = (Ret srv, n') <->
  ctrlc_set = true /\ exists l, bind started addr n = (Ret (Ok l), n') /\ srv = mkServed V fs v (listener_with_export_name name l).
Proof.
  unfold start_server, expect, pbind, pret, ppanic. destruct ctrlc_set; [|split; [by intros [=]|by intros [[=] _]]].
  destruct (bind started addr n) as [[[l|e]| |] n1]; split; try by intros [=].
  - intros [= <- <-]. split; [done|]. by exists l.
  - intros (_ & l' & [= <- <-] & ->). done.
  - by intros (_ & l' & [=] & _).
  - by intros (_ & l' & [=] & _).
  - by intros (_ & l' & [=] & _).
Qed.

(** The two ways through [main]. *)
Lemma main_memfs args os n log os1 m :
  init_logging rolling_never (args_log_level args) (args_log_file args) (negb (args_quiet args)) os = (Ret log, os1) ->
  args_memfs args = true -> memfs_new clock (default_config (args_readonly args)) = Ret (Ok m) ->
  main clock started ctrlc_set rolling_never args os n =
  start_server started ctrlc_set (args_bind_ip args +:+ ":" +:+ show_int (args_bind_port args)) (args_export_name args)
    (if args_readonly args then ReadOnlyAdapter memfs_read_fs else memfs_file_system) m n.
Proof. intros Hl Hm Hnew. unfold main. rewrite Hl, Hm, Hnew. by destruct (args_readonly args). Qed.

Lemma main_mirror args os n log os1 p os' :
  init_logging rolling_never (args_log_level args) (args_log_file args) (negb (args_quiet args)) os = (Ret log, os1) ->
  args_memfs args = false -> args_path args = Some p -> os_exists p os1 = (true, os') ->
  main clock started ctrlc_set rolling_never args os n =
  start_server started ctrlc_set (args_bind_ip args +:+ ":" +:+ show_int (args_bind_port args)) (args_export_name args)
    (if args_readonly args then ReadOnlyAdapter mirror_read_fs else mirror_file_system) (mirror_new p os') n.
Proof. intros Hl Hm Hp He. unfold main. rewrite Hl, Hm, Hp, He. by destruct (args_readonly args). Qed.

Lemma main_panics args os n :
  (forall log os1, init_logging rolling_never (args_log_level args) (args_log_file args) (negb (args_quiet args)) os <>
     (Ret log, os1)) \/
  (exists log os1, init_logging rolling_never (args_log_level args) (args_log_file args) (negb (args_quiet args)) os =
     (Ret log, os1) /\
   args_memfs args = false /\ forall p, args_path args = Some p -> fst (os_exists p os1) = false) ->
  main clock started ctrlc_set rolling_never args os n = (Panic, n).
Proof.
  intros Hno. unfold main. destruct (init_logging _ _ _ _ _) as [[log| |] os1]; [|done..].
  destruct Hno as [Hno|(? & ? & [= <- <-] & -> & Hno)]; [by destruct (Hno log os1)|].
  destruct (args_path args) as [p|]; [|done].
  specialize (Hno p eq_refl). destruct (os_exists p os1) as [[] os']; done.
Qed.

Lemma bind_ret addr n : exists r n', bind started addr n = (Ret r, n').
Proof.
  assert (forall tries ip port n, exists r n', bind_auto tries started ip port n = (Ret r, n')) as Hauto.
  { induction tries as [|tries IH]; intros ip port n0; cbn [bind_auto]; unfold pbind;
      destruct (bind_internal_ret started (generate_host_ip ip) port n0) as ([l|e] & n' & ->); eauto; unfold pret; eauto. }
  unfold bind. destruct (split_once _ addr) as [[ip port]|]; [|unfold pret; eauto].
  destruct (parse_u16 port); [|unfold pret; eauto]. case_decide; [apply Hauto|apply bind_internal_ret].
Qed.

Lemma start_server_ends {V} addr name (fs : NfsFileSystem V FileHandleU64) (v : V) n :
  fst (start_server started ctrlc_set addr name fs v n) = Panic \/
  exists srv, fst (start_server started ctrlc_set addr name fs v n) = Ret srv.
Proof.
  unfold start_server, expect, pbind. destruct ctrlc_set; [|by left].
  destruct (bind_ret addr n) as ([l|e] & n' & ->); [right; by eexists|by left].
Qed.

(** C40: The server program starts exactly when it can, with what it was asked for. It
    gets to [handle_forever] if and only if the level of the log is one of the five
    names in any case, the file of the log, if there is one, has a name and can be
    created or opened, the handler of Ctrl-C can be set, there is an export (the
    in-memory file system, or a path that exists), and the address can be bound; in
    every other case it panics. The in-memory file system is always made: its root
    directory holds README.txt, cat.txt and the three folders with their contents,
    and nothing else. With [--readonly] the export has no write capability, without
    it it has. *)
Theorem main_serves (args : Args) (os : OS) (n : N) :
  let addr := args_bind_ip args +:+ ":" +:+ show_int (args_bind_port args) in
  let logs := init_logging rolling_never (args_log_level args) (args_log_file args) (negb (args_quiet args)) os in
  (forall srv n', main clock started ctrlc_set rolling_never args os n = (Ret srv, n') <->
     exists log os1 l, logs = (Ret log, os1) /\ ctrlc_set = true /\
       bind started addr n = (Ret (Ok l), n') /\ exports args os1 (listener_with_export_name (args_export_name args) l) srv) /\
  ((exists log os1, logs = (Ret log, os1)) <->
     to_lowercase (args_log_level args) ∈ ["error"; "warn"; "info"; "debug"; "trace"]%string /\
     forall file, args_log_file args = Some file -> exists name, file_name_of file = Some name /\
       fst (rolling_never (log_directory file) name os) = true) /\
  (fst (main clock started ctrlc_set rolling_never args os n) = Panic \/
   exists srv, fst (main clock started ctrlc_set rolling_never args os n) = Ret srv) /\
  (forall os1 l srv v, exports args os1 l srv ->
     @vfs_capabilities _ _ (sv_fs srv) v = (Ret (if args_readonly args then ReadOnly else ReadWrite), v)).
Proof.
  intros addr logs. destruct (default_config_holds clock (args_readonly args)) as (m & Hnew & Hm).
  set (start := main clock started ctrlc_set rolling_never args os n).
  assert ((start = (Panic, n) /\ (forall log os1 l srv, logs = (Ret log, os1) -> ~ exports args os1 l srv)) \/
    exists log os1 V (fs : NfsFileSystem V FileHandleU64) (v : V), logs = (Ret log, os1) /\
      start = start_server started ctrlc_set addr (args_export_name args) fs v n /\
      forall l srv, exports args os1 l srv <-> srv = mkServed V fs v l) as Hcases.
  { destruct logs as [[log| |] os1] eqn:El.
    2, 3: left; split; [apply main_panics; left; by fold logs; rewrite El|done].
    destruct (args_memfs args) eqn:Em.
    { right. exists log, os1, MemFs, (if args_readonly args then ReadOnlyAdapter memfs_read_fs else memfs_file_system), m.
      split_and!; [done|by apply (main_memfs args os n log os1 m)|]. intros l srv. split; [|intros ->; by apply exports_memfs].
      intros [m' _ Hnew' _|p os' Em' _ _]; [|congruence]. rewrite Hnew in Hnew'. by injection Hnew' as <-. }
    destruct (args_path args) as [p|] eqn:Ep; [destruct (os_exists p os1) as [[] os'] eqn:Ee|].
    { right. exists log, os1. eexists _, (if args_readonly args then ReadOnlyAdapter mirror_read_fs else mirror_file_system), (mirror_new p os').
      split_and!; [done|by apply (main_mirror args os n log os1 p os')|]. intros l srv. split; [|intros ->; by apply exports_mirror].
      intros [m' Em' _ _|p' os2 _ Ep' Ee']; [congruence|]. rewrite Ep in Ep'. injection Ep' as <-. rewrite Ee in Ee'. by injection Ee' as <-. }
    all: left; split; [apply main_panics; right; exists log, os1; split_and!; [done..|]; intros p' Hp'; rewrite Ep in Hp'; simplify_eq; by rewrite Ee|].
    all: intros ? ? l srv [= <- <-] [m' Em' _ _|p' os2 _ Ep' Ee']; congruence. }
  split; [|split; [apply init_logging_ret|split]].
  - destruct Hcases as [[Hpanic Hno]|(log & os1 & V & fs & v & Hlog & Hrun & Hex)]; intros srv n'; [rewrite Hpanic|rewrite Hrun].
    + split; [by intros [=]|]. intros (log & os1 & l & Hl & _ & _ & He). by destruct (Hno _ _ _ _ Hl He).
    + rewrite start_server_run. split.
      * intros (Hc & l & Hb & ->). exists log, os1, l. split_and!; [done..|]. by apply Hex.
      * intros (log' & os1' & l & Hl & Hc & Hb & He). rewrite Hlog in Hl. injection Hl as <- <-. split; [done|].
        exists l. split; [done|]. by apply Hex in He.
  - destruct Hcases as [[-> _]|(log & os1 & V & fs & v & _ & -> & _)]; [by left|apply start_server_ends].
  - intros os1 l srv v He. revert v. destruct He; cbn [sv_fs sv_state]; by destruct (args_readonly args).
Qed.
End serves.
