(* ===== verification/MirrorSuiteUtil.v ===== *)
(** * The integration suite of the mirror: its helpers

    [nfs3_tests/src/bin/test_mirror_fs]: [fs_util.rs] compares what a client sees
    over NFS with what is on the local disk, [context.rs] makes a directory for each
    test.  The tests run on the machine of the server: the local disk, which is the
    class [StdFs], is the one that the mirror serves.  A failed assertion, a failed
    [expect] or [unwrap] is a panic.  The branches for Windows are not modelled. *)

From S2P Require Import Prelude Xdr XdrLaws Nfs3Types Handle Vfs NfsExt NfsHandlers FsUtil RpcClient MountPortmap.
From S2P Require Import Listener Programs JustClient.
From stdpp Require Import sorting pretty.
Open Scope Z_scope.
Open Scope nfs_scope.

(** ** What the tests use *)

(** The procedures that [Programs.procedure] leaves out: the server takes the bytes
    of a RMDIR for those of a REMOVE, and does not implement the other three. *)
Inductive extra_procedure : Set -> Set -> Type :=
| RMDIR : extra_procedure RMDIR3args RMDIR3res
| MKNOD : extra_procedure MKNOD3args MKNOD3res
| LINK : extra_procedure LINK3args LINK3res
| COMMIT : extra_procedure COMMIT3args COMMIT3res.

Class NfsMoreCalls (S : Type) : Type :=
  nfs_more : forall {A R : Set}, extra_procedure A R -> A -> prog S (result R client_error).

(** [std::fs] and [Path::exists], [Path::is_dir]; [F] is an open file with its
    position. *)
Class StdFs (S F : Type) : Type := {
  std_write : path -> list byte -> prog S (result unit ErrorKind);
  std_read : path -> prog S (result (list byte) ErrorKind);
  std_create_dir : path -> prog S (result unit ErrorKind);
  std_create_dir_all : path -> prog S (result unit ErrorKind);
  std_remove_file : path -> prog S (result unit ErrorKind);
  std_symlink : path -> path -> prog S (result unit ErrorKind);
  std_metadata : path -> prog S (result Metadata ErrorKind);
  std_read_dir : path -> prog S (result (list path) ErrorKind);
  std_exists : path -> prog S bool;
  std_is_dir : path -> prog S bool;
  (** [File::open], and [OpenOptions] with create, write and truncate *)
  std_open : path -> prog S (result F ErrorKind);
  std_create : path -> prog S (result F ErrorKind);
  std_file_metadata : F -> prog S (result Metadata ErrorKind);
  (** [Read::read] with a buffer of this size, [Write::write_all], [File::sync_all] *)
  std_file_read : F -> Z -> prog S (result (list byte) ErrorKind);
  std_file_write_all : F -> list byte -> prog S (result unit ErrorKind);
  std_file_sync_all : F -> prog S (result unit ErrorKind);
}.

(** [TEST_COUNTER.fetch_add(1)]. *)
Class Counter (S : Type) : Type := fetch_counter : prog S Z.

(** [Path::parent] and [Path::file_name] of a path without a separator at its end. *)
Fixpoint split_last (p : path) : path * path :=
  match p with
  | [] => ([], [])
  | b :: p' =>
      if bool_decide (x2f ∈ p') then let '(dir, name) := split_last p' in (b :: dir, name)
      else if bool_decide (b = x2f) then ([b], p') else ([], b :: p')
  end.

Definition path_parent (p : path) : option path :=
  match p with [] => None | _ => if bool_decide (p = [x2f]) then None else Some (fst (split_last p)) end.

Definition path_file_name (p : path) : option path :=
  match snd (split_last p) with [] => None | name => Some name end.

(** [anyhow::Error]: a message of [bail!], or an error of the system. *)
Inductive AnyhowError : Type :=
| Bailed
| FromIo (e : ErrorKind).

Section util.
Context {S F : Type} `{!NfsCalls S} `{!NfsMoreCalls S} `{!StdFs S F} `{!Counter S}.

(** [assert!] and [assert_eq!]. *)
Definition assert_that (b : bool) : prog S unit := if b then pret tt else ppanic.
Definition assert_eq {A} `{!EqDecision A} (x y : A) : prog S unit := assert_that (bool_decide (x = y)).

(** [String::from_utf8] and the like, with [expect]. *)
Definition expect_utf8 (bytes : list byte) : prog S (list byte) := if utf8_valid bytes then pret bytes else ppanic.

Fixpoint expect_utf8_all (l : list (list byte)) : prog S (list (list byte)) :=
  match l with
  | [] => pret []
  | bytes :: l => do* name := expect_utf8 bytes in do* names := expect_utf8_all l in pret (name :: names)
  end.

(** The [time] of a [Metadata], which may not be there. *)
Definition some_time (time : option Z) : prog S (result Z AnyhowError) :=
  match time with Some t => pret (Ok t) | None => pret (Err (FromIo Unsupported)) end.

(** ** [fs_util.rs] *)

Definition time_diff_secs (t1 t2 : Z) : Z :=
  match t1 ?= t2 with
  | Eq => 0
  | Lt => (t2 - t1) / 1000000000
  | Gt => (t1 - t2) / 1000000000
  end.

Definition assert_attributes_match (nfs_attrs : fattr3) (fs_path : path) (expected_type : ftype3)
  : prog S (result unit AnyhowError) :=
  try* metadata := map_err FromIo (std_metadata fs_path) in
  if negb (bool_decide (fattr3_type nfs_attrs = expected_type)) then pret (Err Bailed)
  else if match expected_type with
          | NF3DIR => negb (metadata_is_dir metadata)
          | NF3REG => negb (metadata_is_file metadata)
          | _ => false
          end then pret (Err Bailed)
  else if bool_decide (expected_type = NF3REG) && negb (fattr3_size nfs_attrs =? md_len metadata) then pret (Err Bailed)
  else
    let fs_perms := Z.land (md_mode metadata) 511 in
    let nfs_perms := Z.land (fattr3_mode nfs_attrs) 511 in
    if negb (fs_perms =? nfs_perms) then pret (Err Bailed)
    else
      try* fs_mtime := some_time (md_modified metadata) in
      let nfs_mtime := systime (fattr3_mtime nfs_attrs) in
      let mtime_tolerance := 1 in
      if mtime_tolerance <? time_diff_secs nfs_mtime fs_mtime then pret (Err Bailed)
      else
        try* fs_atime := some_time (md_accessed metadata) in
        let nfs_atime := systime (fattr3_atime nfs_attrs) in
        let atime_tolerance := 2 in
        if atime_tolerance <? time_diff_secs nfs_atime fs_atime then pret (Err Bailed)
        else pret (Ok tt).

(** [64 * 1024]. *)
Definition BLOCK_SIZE : Z := 65536.

(** The bytes of the [format!] in the loop. *)
Definition block_text (remaining size : Z) : list byte :=
  bytes_of_string ("test file content at " +:+ show_int remaining +:+ ", full " +:+ show_int size).

(** The loop of [create_test_file]: writing to a [Vec] appends to it. *)
Fixpoint create_test_file_loop (fuel : nat) (file : F) (size remaining : Z) (buf : list byte) : prog S (result unit ErrorKind) :=
  if 0 <? remaining then
    match fuel with
    | O => fun s => (OutOfFuel, s)
    | Datatypes.S fuel =>
        let buf := buf ++ block_text remaining size in
        let to_write := Z.min remaining BLOCK_SIZE in
        try* _ := std_file_write_all file (take (Z.to_nat to_write) buf) in
        create_test_file_loop fuel file size (remaining - to_write) buf
    end
  else pret (Ok tt).

Definition create_test_file (fuel : nat) (fs_path : path) (size : Z) : prog S (result unit ErrorKind) :=
  try* _ := match path_parent fs_path with
            | Some parent => std_create_dir_all parent
            | None => pret (Ok tt)
            end in
  try* file := std_create fs_path in
  let buf := repeat x00 (Z.to_nat BLOCK_SIZE) in
  try* _ := create_test_file_loop fuel file size size buf in
  std_file_sync_all file.

(** [1024 * 1024]. *)
Definition BUFFER_SIZE : Z := 1048576.

(** The loop of [assert_files_equal_ex]. *)
Fixpoint compare_loop (fuel : nat) (nfs_file_handle : nfs_fh3) (local_file : F) (remaining offset : Z) : prog S unit :=
  if offset <? remaining then
    match fuel with
    | O => fun s => (OutOfFuel, s)
    | Datatypes.S fuel =>
        do* nfs_read_result := expect (nfs READ (mk_READ3args nfs_file_handle offset BUFFER_SIZE)) in
        do* ok := unwrap nfs_read_result in
        let nfs_data := READ3resok_data ok in
        do* local_buffer := expect (std_file_read local_file BUFFER_SIZE) in
        do* _ := assert_that (len nfs_data =? len local_buffer) in
        do* _ := assert_eq nfs_data local_buffer in
        if u64_MAX <? offset + len nfs_data then ppanic
        else compare_loop fuel nfs_file_handle local_file remaining (offset + len nfs_data)
    end
  else pret tt.

Definition assert_files_equal_ex (fuel : nat) (test_dir_path : path) (nfs_file_handle : nfs_fh3) (nfs_attr : fattr3)
  (filename : list byte) (expected_len : Z) : prog S unit :=
  let path := path_push test_dir_path filename in
  do* local_file := expect (std_open path) in
  do* local_metadata := expect (std_file_metadata local_file) in
  do* _ := assert_that (metadata_is_file local_metadata) in
  do* _ := assert_that (md_len local_metadata =? expected_len) in
  do* _ := assert_eq (fattr3_type nfs_attr) NF3REG in
  do* _ := assert_that (fattr3_size nfs_attr =? md_len local_metadata) in
  do* modified := unwrap_some (md_modified local_metadata) in
  do* _ := assert_that (systime (fattr3_mtime nfs_attr) =? modified) in
  do* created := unwrap_some (md_created local_metadata) in
  do* _ := assert_that (systime (fattr3_ctime nfs_attr) =? created) in
  compare_loop fuel nfs_file_handle local_file (fattr3_size nfs_attr) 0.

Definition assert_files_equal (fuel : nat) (test_dir_path : path) (test_dir_handle : nfs_fh3) (filename : list byte) (expected_len : Z)
  : prog S unit :=
  do* nfs_file_handle := expect (just_lookup test_dir_handle filename) in
  do* nfs_attr := expect (just_getattr nfs_file_handle) in
  assert_files_equal_ex fuel test_dir_path nfs_file_handle nfs_attr filename expected_len.

(** [sort] on a [Vec<String>]: strings are ordered by their bytes. *)
Fixpoint bytes_le (x y : list byte) : bool :=
  match x, y with
  | [], _ => true
  | _ :: _, [] => false
  | a :: x, b :: y =>
      if bool_decide (a = b) then bytes_le x y else (Byte.to_N a <? Byte.to_N b)%N
  end.

Definition sort_names (l : list (list byte)) : list (list byte) := merge_sort (fun x y => bytes_le x y) l.

Definition assert_folders_equal_ex (fuel : nat) (test_dir_path : path) (nfs_dir_handle : nfs_fh3) (nfs_attr : fattr3)
  (foldername : list byte) : prog S unit :=
  let path := path_push test_dir_path foldername in
  do* local_metadata := expect (std_metadata path) in
  do* _ := assert_that (metadata_is_dir local_metadata) in
  do* _ := assert_eq (fattr3_type nfs_attr) NF3DIR in
  do* _ := assert_that (fattr3_size nfs_attr =? md_len local_metadata) in
  do* local_mtime := unwrap_some (md_modified local_metadata) in
  do* _ := assert_that (systime (fattr3_mtime nfs_attr) =? local_mtime) in
  do* local_ctime := unwrap_some (md_created local_metadata) in
  do* _ := assert_that (systime (fattr3_ctime nfs_attr) =? local_ctime) in
  do* nfs_entries := expect (just_readdir fuel nfs_dir_handle) in
  do* nfs_entry_names := expect_utf8_all (map entry3_name nfs_entries) in
  do* local_entries := expect (std_read_dir path) in
  do* local_entry_names := expect_utf8_all local_entries in
  assert_eq (sort_names nfs_entry_names) (sort_names local_entry_names).

Definition assert_folders_equal (fuel : nat) (test_dir_path : path) (test_dir_handle : nfs_fh3) (foldername : list byte) : prog S unit :=
  do* nfs_folder_handle := expect (just_lookup test_dir_handle foldername) in
  do* nfs_attr := expect (just_getattr nfs_folder_handle) in
  assert_folders_equal_ex fuel test_dir_path nfs_folder_handle nfs_attr foldername.

(** ** [context.rs] *)

Definition create_test_subdir (local_path : path) (test_name : string) : prog S path :=
  do* counter := fetch_counter in
  let dir_name := bytes_of_string ("test_" +:+ test_name +:+ "_" +:+ show_int counter) in
  let test_dir := path_push local_path dir_name in
  do* _ := expect (std_create_dir test_dir) in
  pret test_dir.

Definition get_subdir_fh (root_fh : nfs_fh3) (subdir_path : path) : prog S nfs_fh3 :=
  do* file_name := unwrap_some (path_file_name subdir_path) in
  do* dir_name := expect_utf8 file_name in
  do* r := expect (nfs LOOKUP (mk_LOOKUP3args (mk_diropargs3 root_fh dir_name))) in
  do* lookup_resok := unwrap r in
  pret (LOOKUP3resok_object lookup_resok).

(** ** [main.rs] *)

(** A test, with the fuel of the loops it runs. *)
Definition TestFn : Type := nat -> nfs_fh3 -> path -> nfs_fh3 -> prog S unit.

(** The temporary directory and the handle of the export are those of the context. *)
Definition run_test (fuel : nat) (local_path : path) (root_fh : nfs_fh3) (test_name : string) (test_fn : TestFn) : prog S unit :=
  do* subdir := create_test_subdir local_path test_name in
  do* subdir_fh := get_subdir_fh root_fh subdir in
  test_fn fuel root_fh subdir subdir_fh.

Fixpoint run_tests (fuel : nat) (local_path : path) (root_fh : nfs_fh3) (tests : list (string * TestFn)) : prog S unit :=
  match tests with
  | [] => pret tt
  | (test_name, test_fn) :: tests =>
      do* _ := run_test fuel local_path root_fh test_name test_fn in
      run_tests fuel local_path root_fh tests
  end.
End util.
