(* ===== verification/MirrorSuiteServer.v ===== *)
(** * The integration suite of the mirror: [server.rs]

    The arguments that the suite starts the server program with, and the client that
    it connects to it.  That a process runs with its arguments, and that an earlier
    one is stopped, is left to the system. *)

From S2P Require Import Prelude Xdr Nfs3Types RpcTypes Handle Vfs NfsHandlersLaws RpcClient Connect Listener ServerMain MirrorSuiteUtil.
From S2P Require Import FsUtil MountPortmap MemFs Mirror.
Open Scope Z_scope.
Open Scope nfs_scope.

(** [context.rs]. *)
Inductive ServerMode : Type := ModeReadOnly | ModeReadWrite.
#[export] Instance ServerMode_eq_dec : EqDecision ServerMode.
Proof. solve_decision. Defined.

(** [setup_server]: what the program makes of the arguments it is given; the others
    have their defaults. *)
Definition BIND_PORT : Z := 11111.
Definition server_args (mode : ServerMode) (temp_path : path) : Args :=
  mkArgs (Some temp_path) (bytes_of_string "/") "127.0.0.1" BIND_PORT (bool_decide (mode = ModeReadOnly)) false "warn" None true.

Section connect.
Context {N Ip : Type} `{!Connector N Ip} (parse_ip : string -> option Ip) (random : nat -> u32) (fuel : nat).

(** The builder of [connect_client]. *)
Definition suite_builder (port : u16) : Nfs3ConnectionBuilder :=
  builder_connect_from_privileged_port false
    (builder_mount_port port (builder_nfs3_port port (builder_new "127.0.0.1" (bytes_of_string "/")))).

(** The loop over the attempts from [attempt] on, [attempts] of them; the time that
    it sleeps is not modelled. *)
Fixpoint connect_attempts (attempts : nat) (attempt : Z) (port : u16) : prog (Net N) (result Nfs3Connection AnyhowError) :=
  match attempts with
  | O => ppanic
  | S attempts =>
      do* r := builder_mount parse_ip random fuel (suite_builder port) in
      match r with
      | Ok client => pret (Ok client)
      | Err e => if attempt <? 10 then connect_attempts attempts (attempt + 1) port else pret (Err Bailed)
      end
  end.

Definition connect_client (port : u16) : prog (Net N) (result Nfs3Connection AnyhowError) := connect_attempts 10 1 port.

(** [k] mounts that fail, one after the other. *)
Fixpoint mounts_fail (k : nat) (port : u16) (n n' : Net N) : Prop :=
  match k with
  | O => n' = n
  | S k => exists e n1, builder_mount parse_ip random fuel (suite_builder port) n = (Ret (Err e), n1) /\ mounts_fail k port n1 n'
  end.

(** The client is the first of ten mounts that succeeds; when all ten fail that is the
    error, and the end of the loop is never reached. *)
Theorem connect_client_first (port : u16) (n n1 : Net N) :
  (forall k conn n2, (k < 10)%nat -> mounts_fail k port n n1 ->
     builder_mount parse_ip random fuel (suite_builder port) n1 = (Ret (Ok conn), n2) ->
     connect_client port n = (Ret (Ok conn), n2)) /\
  (mounts_fail 10 port n n1 -> connect_client port n = (Ret (Err Bailed), n1)).
Proof.
  unfold connect_client. split.
  - intros k conn n2 Hk Hf Hm.
    assert (forall left i n, (k < left)%nat -> i + Z.of_nat left = 11 -> mounts_fail k port n n1 ->
      connect_attempts left i port n = (Ret (Ok conn), n2)) as Hgen; [|by apply Hgen].
    clear n Hk Hf. induction k as [|k IH]; intros [|left] i n Hk Hi Hf; try lia; cbn [connect_attempts mounts_fail] in *.
    + subst n1. by rewrite (pbind_Ret _ _ _ _ _ Hm).
    + destruct Hf as (e & n3 & Hr & Hf). rewrite (pbind_Ret _ _ _ _ _ Hr), (proj2 (Z.ltb_lt _ _)) by lia.
      apply IH; [lia..|done].
  - assert (forall left i n, (0 < left)%nat -> i + Z.of_nat left = 11 -> mounts_fail left port n n1 ->
      connect_attempts left i port n = (Ret (Err Bailed), n1)) as Hgen; [|intros Hf; by apply Hgen; [lia|..]].
    clear n. induction left as [|left IH]; intros i n Hl Hi Hf; [lia|]. cbn [connect_attempts mounts_fail] in *.
    destruct Hf as (e & n3 & Hr & Hf). rewrite (pbind_Ret _ _ _ _ _ Hr). destruct left as [|left].
    + cbn in Hf. subst n3. by rewrite (proj2 (Z.ltb_ge _ _)) by lia.
    + rewrite (proj2 (Z.ltb_lt _ _)) by lia. apply IH; [lia..|done].
Qed.
End connect.
