(* ===== verification/MirrorSuiteReadonly.v ===== *)
(** * The integration suite of the mirror: [readonly.rs]

    One definition per test of a read-only server, in the order of the file.  The
    last ones expect that every call that would change the directory is refused. *)

From S2P Require Import Prelude Xdr XdrLaws Nfs3Types Handle Vfs NfsExt NfsHandlers FsUtil RpcClient.
From S2P Require Import Listener MemFs Programs JustClient MirrorSuiteUtil.
From stdpp Require Import pretty.
Open Scope Z_scope.
Open Scope nfs_scope.

Section readonly.
Context {S F : Type} `{!NfsCalls S} `{!NfsMoreCalls S} `{!StdFs S F}.
(** [String::from_utf8_lossy]. *)
Context (from_utf8_lossy : list byte -> list byte).
Local Abbreviation test := (nat -> nfs_fh3 -> path -> nfs_fh3 -> prog S unit).
Local Abbreviation bs := bytes_of_string.

Definition null : test := fun fuel root_fh subdir subdir_fh => expect (nfs NULL tt).

Definition getattr_root : test := fun fuel root_fh subdir subdir_fh =>
  do* r := expect (nfs GETATTR (mk_GETATTR3args root_fh)) in
  do* resok := unwrap r in
  assert_eq (fattr3_type (GETATTR3resok_obj_attributes resok)) NF3DIR.

Definition getattr_file : test := fun fuel root_fh subdir subdir_fh =>
  let GETATTR_TEST_FILE := bs "getattr_test.txt" in
  let TEST_CONTENT := bs "test content" in
  let file_path := path_push subdir GETATTR_TEST_FILE in
  do* _ := expect (std_write file_path TEST_CONTENT) in
  do* file_fh := expect (just_lookup subdir_fh GETATTR_TEST_FILE) in
  do* r := expect (nfs GETATTR (mk_GETATTR3args file_fh)) in
  do* getattr_resok := unwrap r in
  let attr := GETATTR3resok_obj_attributes getattr_resok in
  do* _ := assert_eq (fattr3_type attr) NF3REG in
  do* _ := assert_that (fattr3_size attr =? len TEST_CONTENT) in
  assert_files_equal_ex fuel subdir file_fh attr GETATTR_TEST_FILE (len TEST_CONTENT).

Definition lookup_existing_file : test := fun fuel root_fh subdir subdir_fh =>
  let LOOKUP_FILE := bs "lookup_file.txt" in
  let HELLO_NFS := bs "Hello, NFS!" in
  let file_path := path_push subdir LOOKUP_FILE in
  do* _ := expect (std_write file_path HELLO_NFS) in
  do* r := expect (nfs LOOKUP (mk_LOOKUP3args (mk_diropargs3 subdir_fh LOOKUP_FILE))) in
  do* resok := unwrap r in
  do* lookup_attr := unwrap_some (LOOKUP3resok_obj_attributes resok) in
  do* get_attr := expect (just_getattr (LOOKUP3resok_object resok)) in
  do* _ := assert_eq (fattr3_type lookup_attr) NF3REG in
  do* _ := assert_that (fattr3_size lookup_attr =? len HELLO_NFS) in
  do* _ := assert_eq (fattr3_type lookup_attr) (fattr3_type get_attr) in
  do* _ := assert_eq (fattr3_mode lookup_attr) (fattr3_mode get_attr) in
  do* _ := assert_eq (fattr3_nlink lookup_attr) (fattr3_nlink get_attr) in
  do* _ := assert_eq (fattr3_uid lookup_attr) (fattr3_uid get_attr) in
  do* _ := assert_eq (fattr3_gid lookup_attr) (fattr3_gid get_attr) in
  do* _ := assert_eq (fattr3_size lookup_attr) (fattr3_size get_attr) in
  do* _ := assert_eq (fattr3_used lookup_attr) (fattr3_used get_attr) in
  do* _ := assert_eq (fattr3_rdev lookup_attr) (fattr3_rdev get_attr) in
  do* _ := assert_eq (fattr3_fsid lookup_attr) (fattr3_fsid get_attr) in
  do* _ := assert_eq (fattr3_fileid lookup_attr) (fattr3_fileid get_attr) in
  do* _ := assert_eq (fattr3_atime lookup_attr) (fattr3_atime get_attr) in
  do* _ := assert_eq (fattr3_mtime lookup_attr) (fattr3_mtime get_attr) in
  do* _ := assert_eq (fattr3_ctime lookup_attr) (fattr3_ctime get_attr) in
  assert_files_equal_ex fuel subdir (LOOKUP3resok_object resok) lookup_attr LOOKUP_FILE (len HELLO_NFS).

Definition lookup_non_existing_file : test := fun fuel root_fh subdir subdir_fh =>
  let NAME := bs "non_existing_file.txt" in
  let non_existing_path := path_push subdir NAME in
  do* exists_ := std_exists non_existing_path in
  do* _ := assert_that (negb exists_) in
  do* res := expect (nfs LOOKUP (mk_LOOKUP3args (mk_diropargs3 subdir_fh NAME))) in
  assert_that (match res with NfsErr NFS3ERR_NOENT _ => true | _ => false end).

Definition lookup_in_subdirectory : test := fun fuel root_fh subdir subdir_fh =>
  let SUBDIR_NAME := bs "subdir" in
  let NESTED_FILE := bs "nested_file.txt" in
  let NESTED_CONTENT := bs "nested content" in
  let nested_subdir := path_push subdir SUBDIR_NAME in
  do* _ := expect (std_create_dir nested_subdir) in
  let nested_file_path := path_push nested_subdir NESTED_FILE in
  do* _ := expect (std_write nested_file_path NESTED_CONTENT) in
  do* r := expect (nfs LOOKUP (mk_LOOKUP3args (mk_diropargs3 subdir_fh SUBDIR_NAME))) in
  do* nested_subdir_resok := unwrap r in
  do* _ := assert_folders_equal fuel subdir subdir_fh SUBDIR_NAME in
  let nested_subdir_fh := LOOKUP3resok_object nested_subdir_resok in
  do* r := expect (nfs LOOKUP (mk_LOOKUP3args (mk_diropargs3 nested_subdir_fh NESTED_FILE))) in
  do* _file_resok := unwrap r in
  assert_files_equal fuel nested_subdir nested_subdir_fh NESTED_FILE (len NESTED_CONTENT).

Definition access_file : test := fun fuel root_fh subdir subdir_fh =>
  let ACCESS_TEST_FILE := bs "access_test.txt" in
  let ACCESS_TEST_CONTENT := bs "access test" in
  let file_path := path_push subdir ACCESS_TEST_FILE in
  do* _ := expect (std_write file_path ACCESS_TEST_CONTENT) in
  do* file_fh := expect (just_lookup subdir_fh ACCESS_TEST_FILE) in
  do* r := expect (nfs ACCESS (mk_ACCESS3args file_fh ACCESS3_READ)) in
  do* access_resok := unwrap r in
  do* _ := assert_that (negb (Z.land (ACCESS3resok_access access_resok) ACCESS3_READ =? 0)) in
  do* r := expect (nfs ACCESS (mk_ACCESS3args file_fh ACCESS3_MODIFY)) in
  do* access_resok_write := unwrap r in
  assert_that (Z.land (ACCESS3resok_access access_resok_write) ACCESS3_MODIFY =? 0).

Definition read_file_contents : test := fun fuel root_fh subdir subdir_fh =>
  let READ_TEST_FILE := bs "read_test.txt" in
  let HELLO_WORLD := bs "Hello, world!" in
  let file_path := path_push subdir READ_TEST_FILE in
  do* _ := expect (std_write file_path HELLO_WORLD) in
  do* file_fh := expect (just_lookup subdir_fh READ_TEST_FILE) in
  do* r := expect (nfs READ (mk_READ3args file_fh 0 1024)) in
  do* read_resok := unwrap r in
  let read_content := READ3resok_data read_resok in
  do* _ := assert_eq read_content HELLO_WORLD in
  do* _ := assert_that (READ3resok_eof read_resok) in
  assert_files_equal fuel subdir subdir_fh READ_TEST_FILE (len HELLO_WORLD).

(** 100 MiB in the source. *)
Definition LARGE_FILE_SIZE : Z := 104857600.

Definition read_large_file_of (LARGE_FILE_SIZE : Z) : test := fun fuel root_fh subdir subdir_fh =>
  let LARGE_FILE := bs "large_file.txt" in
  let file_path := path_push subdir LARGE_FILE in
  do* _ := expect (create_test_file fuel file_path LARGE_FILE_SIZE) in
  assert_files_equal fuel subdir subdir_fh LARGE_FILE LARGE_FILE_SIZE.

Definition read_large_file : test := read_large_file_of LARGE_FILE_SIZE.

Definition read_with_offset : test := fun fuel root_fh subdir subdir_fh =>
  let OFFSET_TEST_FILE := bs "offset_test.txt" in
  let OFFSET_CONTENT := bs "0123456789abcdefghij" in
  let file_path := path_push subdir OFFSET_TEST_FILE in
  do* _ := expect (std_write file_path OFFSET_CONTENT) in
  do* file_fh := expect (just_lookup subdir_fh OFFSET_TEST_FILE) in
  do* r := expect (nfs READ (mk_READ3args file_fh 10 5)) in
  do* read_resok := unwrap r in
  let data := READ3resok_data read_resok in
  assert_eq data (bs "abcde").

(** The bytes 0 to 255. *)
Definition binary_data : list byte := map (fun i => default x00 (Byte.of_N (N.of_nat i))) (seq 0 256).

Definition read_binary_file : test := fun fuel root_fh subdir subdir_fh =>
  let BINARY_TEST_FILE := bs "binary_test.bin" in
  let file_path := path_push subdir BINARY_TEST_FILE in
  do* _ := expect (std_write file_path binary_data) in
  assert_files_equal fuel subdir subdir_fh BINARY_TEST_FILE 256.

(** [for i in 1..=n]: a file for each number. *)
Fixpoint write_numbered (subdir : path) (name content : Z -> list byte) (numbers : list Z) : prog S unit :=
  match numbers with
  | [] => pret tt
  | i :: numbers =>
      let file_path := path_push subdir (name i) in
      do* _ := expect (std_write file_path (content i)) in
      write_numbered subdir name content numbers
  end.

Definition content_of (i : Z) : list byte := bytes_of_string ("content " +:+ show_int i).

(** [str::starts_with] and [str::ends_with]. *)
Definition starts_with (prefix name : list byte) : bool := bool_decide (take (length prefix) name = prefix).
Definition ends_with (suffix name : list byte) : bool :=
  bool_decide (drop (length name - length suffix) name = suffix) && (length suffix <=? length name)%nat.

Definition readdir_multiple_files : test := fun fuel root_fh subdir subdir_fh =>
  do* _ := write_numbered subdir (fun i => bs ("file" +:+ show_int i +:+ ".txt")) content_of [1; 2; 3; 4; 5] in
  do* r := expect (nfs READDIR (mk_READDIR3args subdir_fh 0 cookieverf_default (256 * 1024))) in
  do* readdir_resok := unwrap r in
  let entries := dirlist3_entries (READDIR3resok_reply readdir_resok) in
  let found := List.filter (fun e => 
    let name := from_utf8_lossy (entry3_name e) in starts_with (bs "file") name && ends_with (bs ".txt") name) entries in
  assert_that (len found =? 5).

Definition readdir_empty_directory : test := fun fuel root_fh subdir subdir_fh =>
  let EMPTY_DIR := bs "empty_dir" in
  let empty_dir := path_push subdir EMPTY_DIR in
  do* _ := expect (std_create_dir empty_dir) in
  do* dir_fh := expect (just_lookup subdir_fh EMPTY_DIR) in
  do* r := expect (nfs READDIR (mk_READDIR3args dir_fh 0 cookieverf_default 4096)) in
  do* readdir_resok := unwrap r in
  let entries := dirlist3_entries (READDIR3resok_reply readdir_resok) in
  assert_that (forallb (fun e =>
    let name := from_utf8_lossy (entry3_name e) in bool_decide (name = dot) || bool_decide (name = dotdot)) entries).

(** [{:03}]. *)
Definition three_digits (i : Z) : string :=
  (if i <? 10 then "00" else if i <? 100 then "0" else "") +:+ show_int i.

Definition readdir_many_files : test := fun fuel root_fh subdir subdir_fh =>
  do* _ := write_numbered subdir (fun i => bs ("many_" +:+ three_digits i +:+ ".txt")) content_of (map Z.of_nat (seq 1 50)) in
  do* r := expect (nfs READDIR (mk_READDIR3args subdir_fh 0 cookieverf_default 4096)) in
  do* readdir_resok := unwrap r in
  let entries := dirlist3_entries (READDIR3resok_reply readdir_resok) in
  let found := List.filter (fun e => starts_with (bs "many_") (from_utf8_lossy (entry3_name e))) entries in
  assert_that (len found =? 50).

(** The loop over the entries; the files found are counted. *)
Fixpoint compare_plus_files (fuel : nat) (subdir : path) (entries : list entryplus3) (found_files : Z) : prog S Z :=
  match entries with
  | [] => pret found_files
  | entry :: entries =>
      let name := from_utf8_lossy (entryplus3_name entry) in
      if starts_with (bs "plus_file") name && ends_with (bs ".txt") name then
        do* attrs := unwrap_some (entryplus3_name_attributes entry) in
        do* fh := unwrap_some (entryplus3_name_handle entry) in
        do* _ := assert_files_equal_ex fuel subdir fh attrs name (fattr3_size attrs) in
        compare_plus_files fuel subdir entries (found_files + 1)
      else compare_plus_files fuel subdir entries found_files
  end.

Definition readdirplus_basic : test := fun fuel root_fh subdir subdir_fh =>
  do* _ := write_numbered subdir (fun i => bs ("plus_file" +:+ show_int i +:+ ".txt")) content_of [1; 2; 3] in
  do* r := expect (nfs READDIRPLUS (mk_READDIRPLUS3args subdir_fh 0 cookieverf_default 4096 8192)) in
  do* readdirplus_resok := unwrap r in
  let entries := dirlistplus3_entries (READDIRPLUS3resok_reply readdirplus_resok) in
  do* found_files := compare_plus_files fuel subdir entries 0 in
  assert_that (found_files =? 3).

Definition fsstat_root : test := fun fuel root_fh subdir subdir_fh =>
  do* r := expect (nfs FSSTAT (mk_FSSTAT3args root_fh)) in
  do* fsstat_resok := unwrap r in
  assert_that (0 <? FSSTAT3resok_tbytes fsstat_resok).

Definition fsinfo_root : test := fun fuel root_fh subdir subdir_fh =>
  do* r := expect (nfs FSINFO (mk_FSINFO3args root_fh)) in
  do* fsinfo_resok := unwrap r in
  do* _ := assert_that (0 <? FSINFO3resok_rtmax fsinfo_resok) in
  assert_that (0 <? FSINFO3resok_wtmax fsinfo_resok).

Definition pathconf_root : test := fun fuel root_fh subdir subdir_fh =>
  do* r := expect (nfs PATHCONF (mk_PATHCONF3args root_fh)) in
  do* pathconf_resok := unwrap r in
  assert_that (0 <? PATHCONF3resok_name_max pathconf_resok).

(** [fs::create_dir_all] makes the directories between. *)
Definition deep_directory_navigation : test := fun fuel root_fh subdir subdir_fh =>
  let LEVEL1_DIR := bs "level1" in
  let LEVEL2_DIR := bs "level2" in
  let LEVEL3_DIR := bs "level3" in
  let DEEP_FILE := bs "deep.txt" in
  let DEEP_CONTENT := bs "deep content" in
  let level1 := path_push subdir LEVEL1_DIR in
  let level2 := path_push level1 LEVEL2_DIR in
  let level3 := path_push level2 LEVEL3_DIR in
  do* _ := expect (std_create_dir_all level3) in
  let deep_file := path_push level3 DEEP_FILE in
  do* _ := expect (std_write deep_file DEEP_CONTENT) in
  do* _ := assert_folders_equal fuel subdir subdir_fh LEVEL1_DIR in
  do* level1_fh := expect (just_lookup subdir_fh LEVEL1_DIR) in
  do* _ := assert_folders_equal fuel level1 level1_fh LEVEL2_DIR in
  do* level2_fh := expect (just_lookup level1_fh LEVEL2_DIR) in
  do* _ := assert_folders_equal fuel level2 level2_fh LEVEL3_DIR in
  do* level3_fh := expect (just_lookup level2_fh LEVEL3_DIR) in
  assert_files_equal fuel level3 level3_fh DEEP_FILE (len DEEP_CONTENT).

(** The names are the bytes of the source, in UTF-8. *)
Definition test_filenames : list string := [
  "special-file_123.txt"; "café-résumé.txt"; "niño-español.txt"; "Übergrößenträger.txt"; "Привет-мир.txt";
  "你好世界.txt"; "こんにちは世界.txt"; "안녕하세요.txt"; "مرحبا-بالعالم.txt"; "שלום-עולם.txt";
  "file with spaces.txt"; "🎉🚀📁-emoji-file.txt"; "test-emoji-🔥.txt"; "party🎊file🎈.txt"; "mixed-café-🌍-世界.txt";
  "special!@#$%^&().txt"; "(parentheses)-[brackets].txt"; "file.multiple.dots.txt"; "under_score-and-dash.txt"].

(** The loop over the names; [i] counts from 0. *)
Fixpoint special_characters_loop (fuel : nat) (subdir : path) (subdir_fh : nfs_fh3) (i : Z) (filenames : list string) : prog S unit :=
  match filenames with
  | [] => pret tt
  | filename :: filenames =>
      let content := bs ("content for file " +:+ show_int (i + 1) +:+ ": " +:+ filename) in
      let file_path := path_push subdir (bs filename) in
      do* _ := expect (std_write file_path content) in
      do* _file_fh := expect (just_lookup subdir_fh (bs filename)) in
      do* _ := assert_files_equal fuel subdir subdir_fh (bs filename) (len content) in
      special_characters_loop fuel subdir subdir_fh (i + 1) filenames
  end.

Definition special_characters_filename : test := fun fuel root_fh subdir subdir_fh =>
  special_characters_loop fuel subdir subdir_fh 0 test_filenames.

(** [for i in 0..5]. *)
Fixpoint read_again (n : nat) (file_fh : nfs_fh3) (expected : list byte) : prog S unit :=
  match n with
  | O => pret tt
  | Datatypes.S n =>
      do* r := expect (nfs READ (mk_READ3args file_fh 0 1024)) in
      do* read_resok := unwrap r in
      do* read_content := expect_utf8 (READ3resok_data read_resok) in
      do* _ := assert_eq read_content expected in
      read_again n file_fh expected
  end.

Definition concurrent_reads : test := fun fuel root_fh subdir subdir_fh =>
  let CONCURRENT_FILE := bs "concurrent.txt" in
  let CONCURRENT_CONTENT := bs "concurrent test content" in
  let file_path := path_push subdir CONCURRENT_FILE in
  do* _ := expect (std_write file_path CONCURRENT_CONTENT) in
  do* file_fh := expect (just_lookup subdir_fh CONCURRENT_FILE) in
  read_again 5 file_fh CONCURRENT_CONTENT.

Definition readlink_symlink : test := fun fuel root_fh subdir subdir_fh =>
  let READLINK_TARGET_FILE := bs "readlink_target.txt" in
  let READLINK_SYMLINK := bs "readlink_test" in
  let SYMLINK_TARGET_CONTENT := bs "symlink target content" in
  let target_file := path_push subdir READLINK_TARGET_FILE in
  let symlink_path := path_push subdir READLINK_SYMLINK in
  do* _ := expect (std_write target_file SYMLINK_TARGET_CONTENT) in
  do* _ := expect (std_symlink READLINK_TARGET_FILE symlink_path) in
  do* symlink_fh := expect (just_lookup subdir_fh READLINK_SYMLINK) in
  do* r := expect (nfs READLINK (mk_READLINK3args symlink_fh)) in
  do* readlink_resok := unwrap r in
  do* target_str := expect_utf8 (READLINK3resok_data readlink_resok) in
  assert_eq target_str READLINK_TARGET_FILE.

(** ** Calls that are refused *)

(** The [match] of a result that must be this error. *)
Definition expect_rofs {A E} (r : Nfs3Result A E) : prog S unit :=
  match r with NfsErr NFS3ERR_ROFS _ => pret tt | _ => ppanic end.

(** The [match] of a call that must not be implemented. *)
Definition expect_proc_unavail {A} (r : result A client_error) : prog S unit :=
  match r with Err (CeRpc ProcUnavail) => pret tt | _ => ppanic end.

Definition setattr_readonly_error : test := fun fuel root_fh subdir subdir_fh =>
  let SETATTR_TEST_FILE := bs "setattr_test.txt" in
  let TEST_CONTENT := bs "test content" in
  let file_path := path_push subdir SETATTR_TEST_FILE in
  do* _ := expect (std_write file_path TEST_CONTENT) in
  do* file_fh := expect (just_lookup subdir_fh SETATTR_TEST_FILE) in
  do* setattr_result := expect (nfs SETATTR (mk_SETATTR3args file_fh
    (mk_sattr3 (Some 420) None None None atime_DONT_CHANGE mtime_DONT_CHANGE) None)) in
  expect_rofs setattr_result.

Definition write_readonly_error : test := fun fuel root_fh subdir subdir_fh =>
  let WRITE_TEST_FILE := bs "write_test.txt" in
  let ORIGINAL_CONTENT := bs "original content" in
  let file_path := path_push subdir WRITE_TEST_FILE in
  do* _ := expect (std_write file_path ORIGINAL_CONTENT) in
  do* file_fh := expect (just_lookup subdir_fh WRITE_TEST_FILE) in
  do* write_result := expect (nfs WRITE (mk_WRITE3args file_fh 0 4 UNSTABLE (bs "test"))) in
  expect_rofs write_result.

Definition create_readonly_error : test := fun fuel root_fh subdir subdir_fh =>
  let CREATE_TEST_FILE := bs "create_test.txt" in
  do* create_result := expect (nfs CREATE (mk_CREATE3args (mk_diropargs3 subdir_fh CREATE_TEST_FILE) (UNCHECKED sattr3_default))) in
  expect_rofs create_result.

Definition mkdir_readonly_error : test := fun fuel root_fh subdir subdir_fh =>
  let MKDIR_TEST_DIR := bs "mkdir_test" in
  do* mkdir_result := expect (nfs MKDIR (mk_MKDIR3args (mk_diropargs3 subdir_fh MKDIR_TEST_DIR) sattr3_default)) in
  expect_rofs mkdir_result.

Definition symlink_readonly_error : test := fun fuel root_fh subdir subdir_fh =>
  let SYMLINK_TEST := bs "symlink_test" in
  let SYMLINK_TARGET := bs "target.txt" in
  do* symlink_result := expect (nfs SYMLINK (mk_SYMLINK3args (mk_diropargs3 subdir_fh SYMLINK_TEST)
    (mk_symlinkdata3 sattr3_default SYMLINK_TARGET))) in
  match symlink_result with
  | NfsErr NFS3ERR_ROFS _ | NfsErr NFS3ERR_NOTSUPP _ => pret tt
  | _ => ppanic
  end.

Definition mknod_readonly_error : test := fun fuel root_fh subdir subdir_fh =>
  let MKNOD_TEST := bs "mknod_test" in
  do* mknod_result := nfs_more MKNOD (mk_MKNOD3args (mk_diropargs3 subdir_fh MKNOD_TEST)
    (mknod_NF3CHR (mk_devicedata3 sattr3_default (mk_specdata3 0 0)))) in
  expect_proc_unavail mknod_result.

Definition remove_readonly_error : test := fun fuel root_fh subdir subdir_fh =>
  let REMOVE_TEST_FILE := bs "remove_test.txt" in
  let TEST_CONTENT := bs "test content" in
  let file_path := path_push subdir REMOVE_TEST_FILE in
  do* _ := expect (std_write file_path TEST_CONTENT) in
  do* remove_result := expect (nfs REMOVE (mk_REMOVE3args (mk_diropargs3 subdir_fh REMOVE_TEST_FILE))) in
  do* _ := expect_rofs remove_result in
  do* exists_ := std_exists file_path in
  assert_that exists_.

Definition rmdir_readonly_error : test := fun fuel root_fh subdir subdir_fh =>
  let RMDIR_TEST_DIR := bs "rmdir_test" in
  let dir_path := path_push subdir RMDIR_TEST_DIR in
  do* _ := expect (std_create_dir dir_path) in
  do* rmdir_result := expect (nfs_more RMDIR (mk_RMDIR3args (mk_diropargs3 subdir_fh RMDIR_TEST_DIR))) in
  do* _ := expect_rofs rmdir_result in
  do* exists_ := std_exists dir_path in
  assert_that exists_.

Definition rename_readonly_error : test := fun fuel root_fh subdir subdir_fh =>
  let RENAME_SOURCE_FILE := bs "rename_source.txt" in
  let RENAME_DEST_FILE := bs "rename_dest.txt" in
  let TEST_CONTENT := bs "test content" in
  let source_path := path_push subdir RENAME_SOURCE_FILE in
  do* _ := expect (std_write source_path TEST_CONTENT) in
  do* rename_result := expect (nfs RENAME (mk_RENAME3args (mk_diropargs3 subdir_fh RENAME_SOURCE_FILE)
    (mk_diropargs3 subdir_fh RENAME_DEST_FILE))) in
  do* _ := expect_rofs rename_result in
  do* exists_ := std_exists source_path in
  assert_that exists_.

Definition link_readonly_error : test := fun fuel root_fh subdir subdir_fh =>
  let LINK_SOURCE_FILE := bs "link_source.txt" in
  let LINK_DEST_FILE := bs "link_dest.txt" in
  let TEST_CONTENT := bs "test content" in
  let file_path := path_push subdir LINK_SOURCE_FILE in
  do* _ := expect (std_write file_path TEST_CONTENT) in
  do* file_fh := expect (just_lookup subdir_fh LINK_SOURCE_FILE) in
  do* link_result := nfs_more LINK (mk_LINK3args file_fh (mk_diropargs3 subdir_fh LINK_DEST_FILE)) in
  expect_proc_unavail link_result.

(** A file that the host deletes keeps its handle, and has it again when it is back. *)
Definition file_disappearance_and_reappearance : test := fun fuel root_fh subdir subdir_fh =>
  let TEST_FILE := bs "disappearing_file.txt" in
  let CONTENT_V1 := bs "original content" in
  let CONTENT_V2 := bs "new content after reappearance" in
  let file_path := path_push subdir TEST_FILE in
  do* _ := expect (std_write file_path CONTENT_V1) in
  do* file_fh := expect (just_lookup subdir_fh TEST_FILE) in
  do* attr := expect (just_getattr file_fh) in
  do* _ := assert_eq (fattr3_type attr) NF3REG in
  do* _ := assert_that (fattr3_size attr =? len CONTENT_V1) in
  do* read_data := expect (just_read fuel file_fh) in
  do* _ := assert_eq read_data CONTENT_V1 in
  do* _ := assert_folders_equal fuel subdir subdir_fh dot in
  do* _ := expect (std_remove_file file_path) in
  do* exists_ := std_exists file_path in
  do* _ := assert_that (negb exists_) in
  do* _ := assert_folders_equal fuel subdir subdir_fh dot in
  do* lookup_result := expect (just_lookup subdir_fh TEST_FILE) in
  do* _ := assert_eq file_fh lookup_result in
  do* get_attr := just_getattr file_fh in
  do* _ := match get_attr with
           | Err stat => assert_eq stat NFS3ERR_NOENT
           | Ok _ => ppanic
           end in
  do* _ := expect (std_write file_path CONTENT_V2) in
  do* exists_ := std_exists file_path in
  do* _ := assert_that exists_ in
  do* _ := assert_folders_equal fuel subdir subdir_fh dot in
  do* new_file_fh := expect (just_lookup subdir_fh TEST_FILE) in
  do* _ := assert_eq file_fh new_file_fh in
  do* new_attr := expect (just_getattr new_file_fh) in
  do* _ := assert_eq (fattr3_type new_attr) NF3REG in
  do* _ := assert_that (fattr3_size new_attr =? len CONTENT_V2) in
  do* read_data := expect (just_read fuel new_file_fh) in
  assert_eq read_data CONTENT_V2.

Definition commit_readonly_error : test := fun fuel root_fh subdir subdir_fh =>
  let COMMIT_TEST_FILE := bs "commit_test.txt" in
  let TEST_CONTENT := bs "test content" in
  let file_path := path_push subdir COMMIT_TEST_FILE in
  do* _ := expect (std_write file_path TEST_CONTENT) in
  do* file_fh := expect (just_lookup subdir_fh COMMIT_TEST_FILE) in
  do* commit_result := nfs_more COMMIT (mk_COMMIT3args file_fh 0 0) in
  expect_proc_unavail commit_result.

(** [run_readonly_tests]: the tests in the order of [main.rs]; the size of the large
    file is a parameter, [LARGE_FILE_SIZE] in the source. *)
Definition readonly_tests (large_file_size : Z) : list (string * test) := [
  ("null", null); ("getattr_root", getattr_root); ("getattr_file", getattr_file);
  ("lookup_existing_file", lookup_existing_file); ("lookup_non_existing_file", lookup_non_existing_file);
  ("lookup_in_subdirectory", lookup_in_subdirectory); ("access_file", access_file);
  ("read_file_contents", read_file_contents); ("read_large_file", read_large_file_of large_file_size);
  ("read_with_offset", read_with_offset); ("read_binary_file", read_binary_file);
  ("readdir_multiple_files", readdir_multiple_files); ("readdir_empty_directory", readdir_empty_directory);
  ("readdir_many_files", readdir_many_files); ("readdirplus_basic", readdirplus_basic);
  ("fsstat_root", fsstat_root); ("fsinfo_root", fsinfo_root); ("pathconf_root", pathconf_root);
  ("deep_directory_navigation", deep_directory_navigation); ("readlink_symlink", readlink_symlink);
  ("special_characters_filename", special_characters_filename); ("concurrent_reads", concurrent_reads);
  ("file_disappearance_and_reappearance", file_disappearance_and_reappearance);
  ("setattr_readonly_error", setattr_readonly_error); ("write_readonly_error", write_readonly_error);
  ("create_readonly_error", create_readonly_error); ("mkdir_readonly_error", mkdir_readonly_error);
  ("symlink_readonly_error", symlink_readonly_error); ("mknod_readonly_error", mknod_readonly_error);
  ("remove_readonly_error", remove_readonly_error); ("rmdir_readonly_error", rmdir_readonly_error);
  ("rename_readonly_error", rename_readonly_error); ("link_readonly_error", link_readonly_error);
  ("commit_readonly_error", commit_readonly_error)].
End readonly.
