(* ===== verification/MirrorSuiteReadwrite.v ===== *)
(** * The integration suite of the mirror: [readwrite.rs]

    One definition per test of a server that takes changes, in the order of the
    file: what a call returns agrees with what is then on the disk. *)

From S2P Require Import Prelude Xdr XdrLaws Nfs3Types Handle Vfs NfsExt NfsHandlers FsUtil RpcClient MountPortmap.
From S2P Require Import Listener Display MemFs Programs JustClient MirrorSuiteUtil.
Open Scope Z_scope.
Open Scope nfs_scope.

Section readwrite.
Context {S F : Type} `{!NfsCalls S} `{!NfsMoreCalls S} `{!StdFs S F}.
(** The text of an error of the system. *)
Context (io_text : io_error -> string).
Local Abbreviation test := (nat -> nfs_fh3 -> path -> nfs_fh3 -> prog S unit).
Local Abbreviation bs := bytes_of_string.

(** [fs::read_to_string]. *)
Definition read_to_string (p : path) : prog S (list byte) :=
  do* content := expect (std_read p) in expect_utf8 content.

(** [assert!(path.exists())]. *)
Definition assert_exists (p : path) : prog S unit := do* exists_ := std_exists p in assert_that exists_.
Definition assert_gone (p : path) : prog S unit := do* exists_ := std_exists p in assert_that (negb exists_).
Definition assert_is_dir (p : path) : prog S unit := do* is_dir := std_is_dir p in assert_that is_dir.

Definition write_to_file : test := fun fuel root_fh subdir subdir_fh =>
  let WRITE_TEST_FILE := bs "write_test.txt" in
  let INITIAL_CONTENT := bs "initial content" in
  let file_path := path_push subdir WRITE_TEST_FILE in
  do* _ := expect (std_write file_path INITIAL_CONTENT) in
  do* file_fh := expect (just_lookup subdir_fh WRITE_TEST_FILE) in
  let NEW_CONTENT := bs "new content" in
  do* r := expect (nfs SETATTR (mk_SETATTR3args file_fh
    (mk_sattr3 None None None (Some (len NEW_CONTENT)) atime_DONT_CHANGE mtime_DONT_CHANGE) None)) in
  do* _setattr_res := unwrap r in
  do* write_res := expect (nfs WRITE (mk_WRITE3args file_fh 0 (len NEW_CONTENT) UNSTABLE NEW_CONTENT)) in
  do* resok := unwrap write_res in
  do* _ := assert_that (WRITE3resok_count resok =? len NEW_CONTENT) in
  do* fs_content := read_to_string file_path in
  do* _ := assert_eq fs_content NEW_CONTENT in
  do* attrs := unwrap_some (wcc_data_after (WRITE3resok_file_wcc resok)) in
  expect (assert_attributes_match attrs file_path NF3REG).

Definition write_with_offset : test := fun fuel root_fh subdir subdir_fh =>
  let OFFSET_FILE := bs "write_offset.txt" in
  let INITIAL_CONTENT := bs "0123456789" in
  let WRITE_DATA := bs "ABCDE" in
  let WRITE_OFFSET := 5 in
  let file_path := path_push subdir OFFSET_FILE in
  do* _ := expect (std_write file_path INITIAL_CONTENT) in
  do* file_fh := expect (just_lookup subdir_fh OFFSET_FILE) in
  do* write_res := expect (nfs WRITE (mk_WRITE3args file_fh WRITE_OFFSET (len WRITE_DATA) UNSTABLE WRITE_DATA)) in
  do* resok := unwrap write_res in
  do* _ := assert_that (WRITE3resok_count resok =? len WRITE_DATA) in
  do* fs_content := read_to_string file_path in
  assert_eq fs_content (bs "01234ABCDE").

Definition create_new_file : test := fun fuel root_fh subdir subdir_fh =>
  let CREATED_FILE := bs "created_file.txt" in
  let file_path := path_push subdir CREATED_FILE in
  do* create_res := expect (nfs CREATE (mk_CREATE3args (mk_diropargs3 subdir_fh CREATED_FILE) (UNCHECKED sattr3_default))) in
  do* resok := unwrap create_res in
  do* _ := assert_exists file_path in
  do* attrs := unwrap_some (CREATE3resok_obj_attributes resok) in
  expect (assert_attributes_match attrs file_path NF3REG).

Definition create_exclusive : test := fun fuel root_fh subdir subdir_fh =>
  let EXCLUSIVE_FILE := bs "exclusive_file.txt" in
  let file_path := path_push subdir EXCLUSIVE_FILE in
  do* create_res := expect (nfs CREATE (mk_CREATE3args (mk_diropargs3 subdir_fh EXCLUSIVE_FILE)
    (EXCLUSIVE [x01; x02; x03; x04; x05; x06; x07; x08]))) in
  do* _resok := unwrap create_res in
  assert_exists file_path.

Definition mkdir_new_directory : test := fun fuel root_fh subdir subdir_fh =>
  let NEW_DIR := bs "new_directory" in
  let dir_path := path_push subdir NEW_DIR in
  do* mkdir_res := expect (nfs MKDIR (mk_MKDIR3args (mk_diropargs3 subdir_fh NEW_DIR) sattr3_default)) in
  do* resok := unwrap mkdir_res in
  do* _ := assert_exists dir_path in
  do* _ := assert_is_dir dir_path in
  do* attrs := unwrap_some (MKDIR3resok_obj_attributes resok) in
  expect (assert_attributes_match attrs dir_path NF3DIR).

Definition mkdir_nested : test := fun fuel root_fh subdir subdir_fh =>
  let PARENT_DIR := bs "parent_dir" in
  let NESTED_DIR := bs "nested_dir" in
  let parent_path := path_push subdir PARENT_DIR in
  let nested_path := path_push parent_path NESTED_DIR in
  do* r := expect (nfs MKDIR (mk_MKDIR3args (mk_diropargs3 subdir_fh PARENT_DIR) sattr3_default)) in
  do* mkdir_res := unwrap r in
  do* parent_fh := unwrap_some (MKDIR3resok_obj mkdir_res) in
  do* nested_mkdir_res := expect (nfs MKDIR (mk_MKDIR3args (mk_diropargs3 parent_fh NESTED_DIR) sattr3_default)) in
  do* nested_resok := unwrap nested_mkdir_res in
  do* _ := assert_exists parent_path in
  do* _ := assert_exists nested_path in
  do* _ := assert_is_dir nested_path in
  do* attrs := unwrap_some (MKDIR3resok_obj_attributes nested_resok) in
  expect (assert_attributes_match attrs nested_path NF3DIR).

Definition remove_file : test := fun fuel root_fh subdir subdir_fh =>
  let REMOVE_FILE := bs "remove_me.txt" in
  let REMOVE_CONTENT := bs "to be removed" in
  let file_path := path_push subdir REMOVE_FILE in
  do* _ := expect (std_write file_path REMOVE_CONTENT) in
  do* remove_res := expect (nfs REMOVE (mk_REMOVE3args (mk_diropargs3 subdir_fh REMOVE_FILE))) in
  do* _resok := unwrap remove_res in
  assert_gone file_path.

Definition rmdir_directory : test := fun fuel root_fh subdir subdir_fh =>
  let REMOVE_DIR := bs "remove_dir" in
  let dir_path := path_push subdir REMOVE_DIR in
  do* _ := expect (std_create_dir dir_path) in
  do* rmdir_res := expect (nfs_more RMDIR (mk_RMDIR3args (mk_diropargs3 subdir_fh REMOVE_DIR))) in
  do* _resok := unwrap rmdir_res in
  assert_gone dir_path.

Definition rename_file : test := fun fuel root_fh subdir subdir_fh =>
  let SOURCE_FILE := bs "rename_source.txt" in
  let DEST_FILE := bs "rename_dest.txt" in
  let RENAME_CONTENT := bs "rename test" in
  let source_path := path_push subdir SOURCE_FILE in
  let dest_path := path_push subdir DEST_FILE in
  do* _ := expect (std_write source_path RENAME_CONTENT) in
  do* rename_res := expect (nfs RENAME (mk_RENAME3args (mk_diropargs3 subdir_fh SOURCE_FILE) (mk_diropargs3 subdir_fh DEST_FILE))) in
  do* _resok := unwrap rename_res in
  do* _ := assert_gone source_path in
  do* _ := assert_exists dest_path in
  do* content := read_to_string dest_path in
  assert_eq content RENAME_CONTENT.

Definition rename_directory : test := fun fuel root_fh subdir subdir_fh =>
  let SOURCE_DIR := bs "rename_dir_source" in
  let DEST_DIR := bs "rename_dir_dest" in
  let source_path := path_push subdir SOURCE_DIR in
  let dest_path := path_push subdir DEST_DIR in
  do* _ := expect (std_create_dir source_path) in
  do* rename_res := expect (nfs RENAME (mk_RENAME3args (mk_diropargs3 subdir_fh SOURCE_DIR) (mk_diropargs3 subdir_fh DEST_DIR))) in
  do* _resok := unwrap rename_res in
  do* _ := assert_gone source_path in
  do* _ := assert_exists dest_path in
  assert_is_dir dest_path.

(** [e.to_string().contains("Procedure unavailable")]. *)
Definition procedure_unavailable (e : client_error) : bool := contains "Procedure unavailable" (client_error_fmt io_text e).

Definition create_hard_link : test := fun fuel root_fh subdir subdir_fh =>
  let SOURCE_FILE := bs "link_source.txt" in
  let DEST_FILE := bs "link_dest.txt" in
  let LINK_CONTENT := bs "link test" in
  let source_path := path_push subdir SOURCE_FILE in
  let dest_path := path_push subdir DEST_FILE in
  do* _ := expect (std_write source_path LINK_CONTENT) in
  do* source_fh := expect (just_lookup subdir_fh SOURCE_FILE) in
  do* link_res := nfs_more LINK (mk_LINK3args source_fh (mk_diropargs3 subdir_fh (bs "link_dest.txt"))) in
  match link_res with
  | Err e => if procedure_unavailable e then pret tt else ppanic
  | Ok (NfsOk resok) =>
      do* _ := assert_exists dest_path in
      do* fs_content := read_to_string dest_path in
      do* _ := assert_eq fs_content LINK_CONTENT in
      do* attrs := unwrap_some (LINK3resok_file_attributes resok) in
      expect (assert_attributes_match attrs dest_path NF3REG)
  | Ok (NfsErr NFS3ERR_NOTSUPP _) => pret tt
  | Ok _ => ppanic
  end.

Definition create_symlink : test := fun fuel root_fh subdir subdir_fh =>
  let TARGET_FILE := bs "symlink_target.txt" in
  let LINK_NAME := bs "symlink_link" in
  let SYMLINK_CONTENT := bs "symlink target" in
  let target_path := path_push subdir TARGET_FILE in
  let link_path := path_push subdir LINK_NAME in
  do* _ := expect (std_write target_path SYMLINK_CONTENT) in
  do* symlink_res := nfs SYMLINK (mk_SYMLINK3args (mk_diropargs3 subdir_fh LINK_NAME) (mk_symlinkdata3 sattr3_default TARGET_FILE)) in
  match symlink_res with
  | Err e => if procedure_unavailable e then pret tt else ppanic
  | Ok (NfsOk resok) =>
      do* _ := assert_exists link_path in
      do* attrs := unwrap_some (SYMLINK3resok_obj_attributes resok) in
      assert_eq (fattr3_type attrs) NF3LNK
  | Ok (NfsErr NFS3ERR_NOTSUPP _) | Ok (NfsErr NFS3ERR_IO _) => pret tt
  | Ok _ => ppanic
  end.

Definition setattr_file : test := fun fuel root_fh subdir subdir_fh =>
  let SETATTR_FILE := bs "setattr_test.txt" in
  let SETATTR_CONTENT := bs "setattr test" in
  let file_path := path_push subdir SETATTR_FILE in
  do* _ := expect (std_write file_path SETATTR_CONTENT) in
  do* file_fh := expect (just_lookup subdir_fh SETATTR_FILE) in
  do* setattr_res := expect (nfs SETATTR (mk_SETATTR3args file_fh
    (mk_sattr3 (Some 420) None None None atime_DONT_CHANGE mtime_DONT_CHANGE) None)) in
  do* resok := unwrap setattr_res in
  do* attrs := unwrap_some (wcc_data_after (SETATTR3resok_obj_wcc resok)) in
  expect (assert_attributes_match attrs file_path NF3REG).

Definition commit_writes : test := fun fuel root_fh subdir subdir_fh =>
  let COMMIT_FILE := bs "commit_test.txt" in
  let COMMIT_CONTENT := bs "commit content" in
  let file_path := path_push subdir COMMIT_FILE in
  do* _ := expect (std_write file_path COMMIT_CONTENT) in
  do* file_fh := expect (just_lookup subdir_fh COMMIT_FILE) in
  do* commit_res := nfs_more COMMIT (mk_COMMIT3args file_fh 0 100) in
  match commit_res with
  | Err e => if procedure_unavailable e then pret tt else ppanic
  | Ok (NfsOk resok) =>
      do* attrs := unwrap_some (wcc_data_after (COMMIT3resok_file_wcc resok)) in
      expect (assert_attributes_match attrs file_path NF3REG)
  | Ok _ => pret tt
  end.

(** [run_readwrite_tests]. *)
Definition readwrite_tests : list (string * test) := [
  ("write_to_file", write_to_file); ("write_with_offset", write_with_offset);
  ("create_new_file", create_new_file); ("create_exclusive", create_exclusive);
  ("mkdir_new_directory", mkdir_new_directory); ("mkdir_nested", mkdir_nested);
  ("remove_file", remove_file); ("rmdir_directory", rmdir_directory);
  ("rename_file", rename_file); ("rename_directory", rename_directory);
  ("create_hard_link", create_hard_link); ("create_symlink", create_symlink);
  ("setattr_file", setattr_file); ("commit_writes", commit_writes)].
End readwrite.
