(* ===== verification/MirrorSuiteLaws.v ===== *)
(** * The integration suite of the mirror: what its helpers check

    Whatever serves the calls and whatever the local disk is, as long as they do
    what they say: [create_test_file] makes a file of zeros, [assert_files_equal_ex]
    passes on no two files that differ, and the tests of refused calls
    pass on every read-only file system. *)

From S2P Require Import Prelude Xdr XdrLaws Nfs3Types RpcTypes Handle Vfs NfsExt NfsHandlers NfsHandlersLaws FsUtil RpcClient.
From S2P Require Import RpcWire Transactions MountPortmap Server Connection EndToEnd Validity RemoteConnection Session.
From S2P Require Import MemFs MemFsTree MemFsLaws MemFsTheorems MemFsProperties MemFsValid RemoteMemFs Programs ProgramsLaws ProgramsMemFs.
From S2P Require Import RemotePrograms JustClient MirrorSuiteUtil MirrorSuiteReadonly.
Open Scope Z_scope.
Open Scope nfs_scope.

(** ** [create_test_file] *)

Lemma take_repeat {A} (x : A) n m : (n <= m)%nat -> take n (repeat x m) = repeat x n.
Proof. intros H. replace m with (n + (m - n))%nat by lia. rewrite repeat_app. rewrite take_app_length'; [done|]. by rewrite repeat_length. Qed.

Section zeros.
Context {S F : Type} `{!StdFs S F}.

(** [at_end f data s]: what has been written to the open file [f] is [data], and the
    next write goes after it. *)
Definition appends (at_end : F -> list byte -> S -> Prop) : Prop :=
  forall f old data s, at_end f old s ->
    exists s', std_file_write_all f data s = (Ret (Ok tt), s') /\ at_end f (old ++ data) s'.

Context (at_end : F -> list byte -> S -> Prop) (Happ : appends at_end).

(** The text of each turn goes behind the zeros that every turn writes. *)
Lemma create_test_file_loop_zeros fuel file size remaining tail old s :
  0 <= remaining <= BLOCK_SIZE * Z.of_nat fuel -> at_end file old s ->
  exists s', create_test_file_loop fuel file size remaining (repeat x00 (Z.to_nat BLOCK_SIZE) ++ tail) s = (Ret (Ok tt), s') /\
    at_end file (old ++ repeat x00 (Z.to_nat remaining)) s'.
Proof.
  revert remaining tail old s. induction fuel as [|fuel IH]; intros remaining tail old s Hr Hat; cbn [create_test_file_loop];
    destruct (Z.ltb_spec 0 remaining) as [Hpos|Hz]; try (unfold BLOCK_SIZE in *; lia).
  - exists s. assert (remaining = 0) as -> by lia. cbn [Z.to_nat repeat]. by rewrite app_nil_r.
  - set (n := Z.to_nat (Z.min remaining BLOCK_SIZE)).
    assert (take n ((repeat x00 (Z.to_nat BLOCK_SIZE) ++ tail) ++ block_text remaining size) = repeat x00 n) as ->.
    { rewrite <- (assoc_L (++)), take_app_le by (rewrite repeat_length; lia).
      apply take_repeat. lia. }
    destruct (Happ file old (repeat x00 n) s Hat) as (s1 & Hw & Hat1). rewrite (tbind_Ok _ _ _ _ _ Hw).
    destruct (IH (remaining - Z.min remaining BLOCK_SIZE) (tail ++ block_text remaining size) _ s1 ltac:(unfold BLOCK_SIZE in *; lia) Hat1) as (s2 & Hrun & Hat2).
    exists s2. rewrite <- (assoc_L (++)). split; [exact Hrun|].
    rewrite <- (assoc_L (++)), <- repeat_app in Hat2. replace (n + _)%nat with (Z.to_nat remaining) in Hat2 by lia. done.
  - exists s. assert (remaining = 0) as -> by lia. cbn [Z.to_nat repeat]. by rewrite app_nil_r.
Qed.

(** [create_test_file] makes a file with exactly [size] bytes, and all of them are
    zeros: the text that it formats for each block is appended to a buffer of 64 KiB
    of zeros, of which only the first 64 KiB are ever written. *)
Theorem create_test_file_zeros (fuel : nat) (p : path) (size : Z) (file : F) (s s1 s2 : S) :
  match path_parent p with
  | Some parent => std_create_dir_all parent s = (Ret (Ok tt), s1)
  | None => s1 = s
  end ->
  std_create p s1 = (Ret (Ok file), s2) -> at_end file [] s2 -> (forall s, std_file_sync_all file s = (Ret (Ok tt), s)) ->
  0 <= size <= BLOCK_SIZE * Z.of_nat fuel ->
  exists s', create_test_file fuel p size s = (Ret (Ok tt), s') /\ at_end file (repeat x00 (Z.to_nat size)) s'.
Proof.
  intros Hdir Hcreate Hat Hsync Hsize.
  destruct (create_test_file_loop_zeros fuel file size size [] [] s2 Hsize Hat) as (s' & Hrun & Hat').
  rewrite app_nil_r in Hrun. exists s'. split; [|done]. unfold create_test_file.
  rewrite tbind_Ok with (a := tt) (s' := s1); cycle 1.
  { destruct (path_parent p); [done|by rewrite Hdir]. }
  by rewrite (tbind_Ok _ _ _ _ _ Hcreate), (tbind_Ok _ _ _ _ _ Hrun).
Qed.
End zeros.

(** ** [assert_files_equal_ex] *)

(** What a read of [BUFFER_SIZE] bytes at [off] gives of a file. *)
Definition chunk (off : Z) (data : list byte) : list byte := take (Z.to_nat BUFFER_SIZE) (drop (Z.to_nat off) data).

Lemma len_chunk off data : 0 <= off <= len data -> len (chunk off data) = Z.min BUFFER_SIZE (len data - off).
Proof. intros H. unfold chunk, len in *. rewrite length_take, length_drop. unfold BUFFER_SIZE. lia. Qed.

Lemma chunk_drop off X Y : drop (Z.to_nat off) X = drop (Z.to_nat off) Y -> chunk off X = chunk off Y.
Proof. intros H. exact (f_equal (take (Z.to_nat BUFFER_SIZE)) H). Qed.

Lemma chunk_eq off (X Y : list byte) :
  chunk off X = chunk off Y -> drop (Z.to_nat (off + BUFFER_SIZE)) X = drop (Z.to_nat (off + BUFFER_SIZE)) Y -> 0 <= off ->
  drop (Z.to_nat off) X = drop (Z.to_nat off) Y.
Proof.
  unfold chunk. intros Hc Hd Hoff. rewrite Z2Nat.inj_add, <- !drop_drop in Hd by (unfold BUFFER_SIZE; lia).
  rewrite <- (take_drop (Z.to_nat BUFFER_SIZE) (drop (Z.to_nat off) X)), Hc, Hd. apply take_drop.
Qed.

(** The assertions on the attributes. *)
Definition metadata_agrees (local_metadata : Metadata) (nfs_attr : fattr3) (expected_len : Z) : bool :=
  metadata_is_file local_metadata && (md_len local_metadata =? expected_len) &&
  bool_decide (fattr3_type nfs_attr = NF3REG) && (fattr3_size nfs_attr =? md_len local_metadata) &&
  bool_decide (md_modified local_metadata = Some (systime (fattr3_mtime nfs_attr))) &&
  bool_decide (md_created local_metadata = Some (systime (fattr3_ctime nfs_attr))).

Lemma expect_Ok {S A E} (m : prog S (result A E)) a s s' :
  m s = (Ret (Ok a), s') -> expect m s = (Ret a, s').
Proof. intros H. unfold expect. by rewrite (pbind_Ret _ _ _ _ _ H). Qed.

Section compare.
Context {S F : Type} `{!NfsCalls S} `{!StdFs S F}.

(** A remote file with the bytes [remote] and an open local file with the bytes
    [local]: [reading k pos s] says that [k] more calls can be made and that the next
    local read is at [pos].  As [Read::read] is documented, a local read can fail, and
    it can give fewer bytes than there is room for. *)
Record Readable (fh : nfs_fh3) (f : F) (remote local : list byte) (reading : nat -> Z -> S -> Prop) : Prop := {
  rd_remote : forall k pos s, reading (Datatypes.S k) pos s -> 0 <= pos <= len remote ->
    exists ok s', nfs READ (mk_READ3args fh pos BUFFER_SIZE) s = (Ret (Ok (NfsOk ok)), s') /\
      READ3resok_data ok = chunk pos remote /\ reading k pos s';
  rd_local : forall k pos s, reading k pos s -> 0 <= pos <= len local ->
    exists r s', std_file_read f BUFFER_SIZE s = (Ret r, s') /\
      match r with
      | Ok data => data `prefix_of` chunk pos local /\ reading k (pos + len data) s'
      | Err _ => True
      end;
  rd_fewer : forall k k' pos s, (k <= k')%nat -> reading k' pos s -> reading k pos s;
}.

Context (fh : nfs_fh3) (f : F) (remote local : list byte) (reading : nat -> Z -> S -> Prop).
Context (Hread : Readable fh f remote local reading).

(** No local read fails or is short. *)
Definition full_reads : Prop := forall k pos s, reading k pos s -> 0 <= pos <= len local ->
  fst (std_file_read f BUFFER_SIZE s) = Ret (Ok (chunk pos local)).

(** What a check with the outcome [r] in the state [s'] says: a pass is right, and there
    is one for equal files when no local read is short. *)
Definition decides (r : outcome unit) (s' : S) (k : nat) (same : Prop) : Prop :=
  (r = Ret tt \/ r = Panic) /\ (r = Ret tt -> same /\ reading k (len remote) s') /\ (full_reads -> same -> r = Ret tt).

Lemma compare_loop_decides fuel k off s :
  len local = len remote -> len remote <= u64_MAX -> 0 <= off <= len remote ->
  len remote - off <= BUFFER_SIZE * Z.of_nat fuel -> reading (fuel + k) off s ->
  exists r s', compare_loop fuel fh f (len remote) off s = (r, s') /\
    decides r s' k (drop (Z.to_nat off) remote = drop (Z.to_nat off) local).
Proof.
  intros Hlen Hmax. revert off s. induction fuel as [|fuel IH]; intros off s Hoff Hfuel Hat; cbn [compare_loop];
    destruct (Z.ltb_spec off (len remote)) as [Hlt|Hge]; try (unfold BUFFER_SIZE in *; lia); cycle 2.
  1, 2: exists (Ret tt), s; assert (off = len remote) as -> by lia; split; [done|]; split; [by left|]; split; [|done];
    intros _; split; [rewrite !drop_ge; unfold len in *; [done|lia..]|];
    eapply (rd_fewer _ _ _ _ _ Hread); [|exact Hat]; lia.
  destruct (rd_remote _ _ _ _ _ Hread (fuel + k) off s Hat Hoff) as (ok & s1 & Hr & Hdata & Hat1).
  destruct (rd_local _ _ _ _ _ Hread (fuel + k) off s1 Hat1 ltac:(lia)) as (r & s2 & Hl & Hat2).
  assert (len (chunk off local) = len (chunk off remote)) as Hsame by (rewrite !len_chunk by lia; lia).
  pose proof (len_chunk off remote Hoff) as Hn.
  assert (full_reads -> r = Ok (chunk off local)) as Hfull.
  { intros Hf. pose proof (Hf _ _ _ Hat1 ltac:(lia)) as E. rewrite Hl in E. by injection E. }
  rewrite (pbind_Ret _ _ _ _ _ (expect_Ok _ _ _ _ Hr)), pbind_Ret with (a := ok) (s' := s1) by done. cbv zeta.
  rewrite Hdata. destruct r as [data|e]; cycle 1.
  { exists Panic, s2. unfold pbind, expect, pbind. rewrite Hl. split; [done|]. split; [by right|]. split; [done|].
    intros Hf. by specialize (Hfull Hf). }
  destruct Hat2 as [[rest Hpre] Hat2].
  rewrite (pbind_Ret _ _ _ _ _ (expect_Ok _ _ _ _ Hl)). unfold assert_that at 1.
  destruct (Z.eqb_spec (len (chunk off remote)) (len data)) as [Hld|Hld]; cycle 1.
  { exists Panic, s2. split; [done|]. split; [by right|]. split; [done|].
    intros Hf. specialize (Hfull Hf) as [= ->]. by rewrite Hsame in Hld. }
  assert (data = chunk off local) as ->.
  { rewrite Hpre in Hsame |- *. rewrite len_app in Hsame. destruct rest; [by rewrite app_nil_r|].
    rewrite len_cons in Hsame. pose proof (len_nonneg rest). lia. }
  rewrite pbind_Ret with (a := tt) (s' := s2) by done.
  unfold assert_eq. destruct (decide (chunk off remote = chunk off local)) as [Heq|Hne]; cycle 1.
  { exists Panic, s2. rewrite bool_decide_false by done. split; [reflexivity|]. split; [by right|]. split; [done|].
    intros _ He. destruct Hne. by apply chunk_drop. }
  rewrite bool_decide_true, pbind_Ret with (a := tt) (s' := s2) by done. rewrite (proj2 (Z.ltb_ge _ _)) by lia.
  rewrite Hsame in Hat2. destruct (IH (off + len (chunk off remote)) s2) as (r & s3 & Hrun & Hor & Hpass & Hdone);
    [unfold BUFFER_SIZE in *; lia..|done|].
  assert (drop (Z.to_nat (off + len (chunk off remote))) remote = drop (Z.to_nat (off + len (chunk off remote))) local <->
    drop (Z.to_nat off) remote = drop (Z.to_nat off) local) as Hiff.
  { rewrite Z2Nat.inj_add, <- !drop_drop by (pose proof (len_nonneg (chunk off remote)); lia). split; [|by intros ->].
    intros Hd. apply chunk_eq; try done; [|lia]. rewrite Z2Nat.inj_add, <- !drop_drop by (unfold BUFFER_SIZE; lia).
    destruct (Z.min_spec BUFFER_SIZE (len remote - off)) as [[Hc Hm]|[Hc Hm]]; rewrite Hn, Hm in Hd; [done|].
    rewrite !drop_ge; [done|unfold len in *; rewrite length_drop; lia..]. }
  exists r, s3. split; [exact Hrun|]. split; [exact Hor|]. by rewrite <- Hiff.
Qed.

(** The checks before the loop. *)
Lemma metadata_checks fuel dir filename expected nfs_attr md s s1 s2 :
  std_open (path_push dir filename) s = (Ret (Ok f), s1) -> std_file_metadata f s1 = (Ret (Ok md), s2) ->
  assert_files_equal_ex fuel dir fh nfs_attr filename expected s =
    if metadata_agrees md nfs_attr expected then compare_loop fuel fh f (fattr3_size nfs_attr) 0 s2 else (Panic, s2).
Proof.
  intros Hopen Hmd. unfold assert_files_equal_ex, metadata_agrees.
  rewrite (pbind_Ret _ _ _ _ _ (expect_Ok _ _ _ _ Hopen)), (pbind_Ret _ _ _ _ _ (expect_Ok _ _ _ _ Hmd)).
  unfold assert_eq, assert_that, unwrap_some, pbind, pret, ppanic.
  destruct (metadata_is_file md); cbn [andb]; [|done]. destruct (md_len md =? expected); cbn [andb]; [|done].
  destruct (bool_decide (fattr3_type nfs_attr = NF3REG)); cbn [andb]; [|done].
  destruct (fattr3_size nfs_attr =? md_len md); cbn [andb]; [|done].
  destruct (md_modified md) as [modified|]; [|done].
  destruct (Z.eqb_spec (systime (fattr3_mtime nfs_attr)) modified) as [->|Hne]; cycle 1.
  { rewrite bool_decide_false by congruence. done. }
  rewrite bool_decide_true by done. cbn [andb]. destruct (md_created md) as [created|]; [|done].
  destruct (Z.eqb_spec (systime (fattr3_ctime nfs_attr)) created) as [->|Hne]; [by rewrite bool_decide_true|].
  by rewrite bool_decide_false by congruence.
Qed.

(** The whole check, when the file can be opened. *)
Lemma assert_files_equal_decides fuel k dir filename expected nfs_attr md s s1 s2 :
  std_open (path_push dir filename) s = (Ret (Ok f), s1) -> std_file_metadata f s1 = (Ret (Ok md), s2) ->
  reading (fuel + k) 0 s2 -> md_len md = len local -> fattr3_size nfs_attr = len remote -> len remote <= u64_MAX ->
  len remote <= BUFFER_SIZE * Z.of_nat fuel ->
  exists r s', assert_files_equal_ex fuel dir fh nfs_attr filename expected s = (r, s') /\
    decides r s' k (metadata_agrees md nfs_attr expected = true /\ remote = local).
Proof.
  intros Hopen Hmd Hat Hlocal Hremote Hmax Hfuel. rewrite (metadata_checks _ _ _ _ _ _ _ _ _ Hopen Hmd).
  destruct (metadata_agrees md nfs_attr expected) eqn:Hag; cycle 1.
  { exists Panic, s2. split; [done|]. split; [by right|]. split; [done|]. by intros _ [? _]. }
  unfold metadata_agrees in Hag. rewrite !andb_true_iff, !Z.eqb_eq in Hag. destruct Hag as [[[[[_ _] _] Hsize] _] _].
  rewrite Hremote in *. destruct (compare_loop_decides fuel k 0 s2) as (r & s' & Hrun & Hor & Hpass & Hdone);
    try done; [lia|pose proof (len_nonneg remote); lia|lia|].
  exists r, s'. split; [exact Hrun|]. split; [exact Hor|]. split.
  - intros Hr. by destruct (Hpass Hr) as [Heq Hk].
  - intros Hf [_ He]. apply Hdone; [exact Hf|]. by rewrite He.
Qed.
End compare.

(** ** A file of a remote in-memory file system *)

(** A read of an open local file at [pos], as [Read::read] documents it: it fails, or it
    gives some of the next bytes, and goes on behind them. *)
Definition local_read {C L F} `{!StdFs (C * L) F} (f : F) (local : list byte) (at_local : Z -> L -> Prop)
  (c : C) (pos : Z) (l : L) : Prop :=
  exists r l', std_file_read f BUFFER_SIZE (c, l) = (Ret r, (c, l')) /\
    match r with Ok data => data `prefix_of` chunk pos local /\ at_local (pos + len data) l' | Err _ => True end.

Section remote.
Context `{Hash : HashSetOrder} `{Target}.
Context (fhc : FileHandleConverter) (Hwf : converter_wf fhc).
Context {C L F : Type} `{calls : NfsCalls (C * L)} (at_server : nat -> C -> MemFs -> Prop)
  `{Hans : !Answers memfs_file_system fhc calls at_server} `{!StdFs (C * L) F}.

Lemma memfs_readable m i file (f : F) (local : list byte) (at_local : Z -> L -> Prop) :
  mf_poisoned m = false -> in_u64 i -> fs_get (mf_fs m) i = Some (EFile file) ->
  len (file_content file) + BUFFER_SIZE <= usize_MAX ->
  (forall c pos l, at_local pos l -> 0 <= pos <= len local -> local_read f local at_local c pos l) ->
  Readable (handle_of fhc i) f (file_content file) local (fun k pos s => at_server k s.1 m /\ at_local pos s.2).
Proof.
  intros Hp Hi E Hmax Hlocal. set (X := file_content file) in *. split.
  - intros k pos [c l] [Hat Hpos] Hoff. cbn [fst snd] in *.
    destruct (read_run m Hp i file pos BUFFER_SIZE E ltac:(done) Hoff ltac:(lia)) as (n & Hread & Hn). fold X in Hread, Hn.
    assert (take n (drop (Z.to_nat pos) X) = chunk pos X) as Hdata.
    { unfold chunk. destruct (Z.min_spec (len X - pos) BUFFER_SIZE) as [[Hc Hm]|[Hc Hm]]; rewrite Hm in Hn.
      - rewrite !take_ge; [done|unfold len in *; rewrite length_drop; lia..].
      - by rewrite <- Hn, Nat2Z.id. }
    rewrite Hdata in Hread. pose proof (len_chunk pos X Hoff) as Hlen.
    assert (memfs_getattr i m = (Ret (Ok (file_attr file)), m)) as Hg by (unfold memfs_getattr, with_read; by rewrite Hp, E).
    pose proof (fun xid => read_answer fhc xid i pos BUFFER_SIZE _ _ _ m Hwf Hi Hg Hread
      ltac:(rewrite Hlen; unfold BUFFER_SIZE, u32_MAX in *; lia)) as Hcall.
    set (resok := mk_READ3resok _ _ _ _) in Hcall. destruct (handle_of_valid fhc i Hwf) as [Hv Hs].
    destruct (answers_call memfs_file_system fhc READ (mk_READ3args (handle_of fhc i) pos BUFFER_SIZE) k c m l (NfsOk resok) m Hat)
      as (c1 & Hcall1 & Hat1); [| |exact Hcall| |].
    { cbn -[in_u64 nfs_fh3_codec]. unfold in_u64, usize_MAX, BUFFER_SIZE in *. split_and!; try done; lia. }
    { cbn -[nfs_fh3_codec]. unfold MASK. lia. }
    { unfold resok. pose proof (opaque_size_le (chunk pos X)). pose proof (post_op_attr_size (Some (file_attr file))).
      cbn -[opaque_codec post_op_attr_codec chunk]. unfold BUFFER_SIZE, MASK in *. lia. }
    exists resok, (c1, l). split_and!; done.
  - intros k pos [c l] [Hat Hpos] Hoff. cbn [fst snd] in *. destruct (Hlocal c pos l Hpos Hoff) as (r & l' & Hr & Hpos').
    exists r, (c, l'). split; [done|]. destruct r; [|done]. destruct Hpos'. by split_and!.
  - intros k k' pos [c l] Hk [Hat Hpos]. split; [|done]. by apply (answers_fewer memfs_file_system fhc k k').
Qed.
End remote.

Section network.
Context `{Hash : HashSetOrder} `{Target}.

(** C19: The comparison that the suite makes of a served file and a local one. Over a
    session with a server of an in-memory file system, whatever schedules the tasks of
    the connection and cuts up the replies, and whatever the local disk is, as long as
    a read of an open file keeps to what [Read::read] documents (it fails, or gives
    some of the next bytes): [assert_files_equal_ex] ends, by returning or by a panic.
    When it returns, the two files have the same type, length and times and every byte
    is the same, however many reads of 1 MiB that took. When they are the same, it
    returns if every local read gives all there is to read up to 1 MiB; a shorter read
    is a panic, although the files are the same. *)
Theorem files_equal_decided {L F : Type} (disk : StdFs (Session MemFs * L) F) (ctx : RPCContext)
  (schedule : nat -> Connection MemFs -> list (action MemFs)) (cut : nat -> list byte -> list (list byte))
  (m : MemFs) (i : Z) (file : File) (f : F) (local : list byte) (at_local : Z -> L -> Prop)
  (fuel k : nat) (dir filename : path) (expected : Z) (md : Metadata) (se : Session MemFs) (l l1 l2 : L) :
  let same := metadata_agrees md (file_attr file) expected = true /\ file_content file = local in
  carries memfs_file_system ctx schedule -> delivers cut -> converter_wf (ctx_file_handle_converter ctx) ->
  mf_poisoned m = false -> in_u64 i -> fs_get (mf_fs m) i = Some (EFile file) ->
  fattr3_size (file_attr file) = len (file_content file) ->
  len (file_content file) + BUFFER_SIZE <= usize_MAX -> len (file_content file) <= BUFFER_SIZE * Z.of_nat fuel ->
  std_open (path_push dir filename) (se, l) = (Ret (Ok f), (se, l1)) ->
  std_file_metadata f (se, l1) = (Ret (Ok md), (se, l2)) -> md_len md = len local -> at_local 0 l2 ->
  (forall c pos l, at_local pos l -> 0 <= pos <= len local -> local_read f local at_local c pos l) ->
  linked ctx memfs_ok (fuel + k) se m ->
  exists r s',
    @assert_files_equal_ex _ _ (session_calls memfs_file_system ctx schedule cut) disk fuel dir
      (handle_of (ctx_file_handle_converter ctx) i) (file_attr file) filename expected (se, l) = (r, s') /\
    (r = Ret tt \/ r = Panic) /\
    (r = Ret tt -> same /\ linked ctx memfs_ok k (fst s') m) /\
    ((forall c pos l, at_local pos l -> 0 <= pos <= len local ->
        fst (std_file_read f BUFFER_SIZE (c, l)) = Ret (Ok (chunk pos local))) -> same -> r = Ret tt).
Proof.
  intros same Hs Hc Hwf Hp Hi E Hsize Hmax Hfuel Hopen Hmd Hlen Hpos Hlocal Hl.
  pose proof (session_answers (L := L) memfs_file_system ctx schedule cut memfs_ok Hs Hc memfs_valid Hwf) as Hans.
  pose proof (memfs_readable (Hans := Hans) _ Hwf (linked ctx memfs_ok) m i file f local at_local Hp Hi E Hmax Hlocal) as Hread.
  destruct (assert_files_equal_decides _ _ _ _ _ Hread fuel k dir filename expected (file_attr file) md (se, l) (se, l1) (se, l2)
    Hopen Hmd (conj Hl Hpos) Hlen Hsize ltac:(unfold BUFFER_SIZE, usize_MAX, u64_MAX in *; lia) Hfuel)
    as (r & s' & Hrun & Hor & Hpass & Hdone).
  exists r, s'. split; [exact Hrun|]. split; [exact Hor|]. split.
  - intros Hr. destruct (Hpass Hr) as [Hsame [Hl' _]]. by split.
  - intros Hf Hsame. apply Hdone; [|exact Hsame]. intros k' pos [c l'] [_ Hat] Hoff. by apply Hf.
Qed.
End network.

(** ** The refused calls *)

Section refused.
Context {V H : Type} `{!FileHandle H} `{!FileHandleLaws H} (fs : NfsFileSystem V H) (fhc : FileHandleConverter).
Context {C L F : Type} `{calls : NfsCalls (C * L)} (at_server : nat -> C -> V -> Prop) `{Hans : !Answers fs fhc calls at_server}.

Context (Hro : forall v, vfs_capabilities v = (Ret ReadOnly, v)).
Context (subdir_fh : nfs_fh3) (Hvalid : valid nfs_fh3_codec subdir_fh) (Hsize : packed_size nfs_fh3_codec subdir_fh <= 100).

Lemma dirop_fits name :
  bool_decide (len name <= 100) = true ->
  valid diropargs3_codec (mk_diropargs3 subdir_fh name) /\ packed_size diropargs3_codec (mk_diropargs3 subdir_fh name) <= 300.
Proof.
  intros Hn%bool_decide_eq_true_1. pose proof (opaque_size_le name). cbn -[nfs_fh3_codec opaque_codec].
  change filename3_codec with opaque_codec. split; [split; [done|]|lia]. cbn. unfold u32_MAX. split; [lia|done].
Qed.

(** What the server answers to a call that it refuses. *)
Lemma refused_calls k c l v :
  at_server (S k) c v ->
  (forall name, bool_decide (len name <= 100) = true ->
     exists c', expect (nfs CREATE (mk_CREATE3args (mk_diropargs3 subdir_fh name) (UNCHECKED sattr3_default))) (c, l) =
       (Ret (NfsErr NFS3ERR_ROFS (mk_CREATE3resfail wcc_data_default)), (c', l)) /\ at_server k c' v) /\
  (forall name, bool_decide (len name <= 100) = true ->
     exists c', expect (nfs MKDIR (mk_MKDIR3args (mk_diropargs3 subdir_fh name) sattr3_default)) (c, l) =
       (Ret (NfsErr NFS3ERR_ROFS (mk_MKDIR3resfail wcc_data_default)), (c', l)) /\ at_server k c' v) /\
  (forall name target, bool_decide (len name <= 100) = true -> bool_decide (len target <= 100) = true ->
     exists c', expect (nfs SYMLINK (mk_SYMLINK3args (mk_diropargs3 subdir_fh name) (mk_symlinkdata3 sattr3_default target))) (c, l) =
       (Ret (NfsErr NFS3ERR_ROFS (mk_SYMLINK3resfail wcc_data_default)), (c', l)) /\ at_server k c' v) /\
  (forall name, bool_decide (len name <= 100) = true ->
     exists c', expect (nfs REMOVE (mk_REMOVE3args (mk_diropargs3 subdir_fh name))) (c, l) =
       (Ret (NfsErr NFS3ERR_ROFS (mk_REMOVE3resfail wcc_data_default)), (c', l)) /\ at_server k c' v) /\
  (forall name to, bool_decide (len name <= 100) = true -> bool_decide (len to <= 100) = true ->
     exists c', expect (nfs RENAME (mk_RENAME3args (mk_diropargs3 subdir_fh name) (mk_diropargs3 subdir_fh to))) (c, l) =
       (Ret (NfsErr NFS3ERR_ROFS (mk_RENAME3resfail wcc_data_default wcc_data_default)), (c', l)) /\ at_server k c' v).
Proof.
  intros Hat. split_and!; intros name; [intros Hn|intros Hn|intros target Hn Ht|intros Hn|intros to Hn Ht];
    destruct (dirop_fits name Hn) as [Hv Hs].
  3: { pose proof (opaque_size_le target). apply bool_decide_eq_true_1 in Ht.
       apply (expect_call fs fhc at_server) with (v := v); [done| | |intros xid; by apply (read_only_refuses_writes fs fhc xid v (Hro v))|vm_compute; discriminate].
       - cbn -[diropargs3_codec]. unfold u32_MAX. split_and!; first [exact Hv|lia|done].
       - cbn -[diropargs3_codec opaque_codec]. unfold MASK. change nfspath3_codec with opaque_codec. lia. }
  4: { destruct (dirop_fits to Ht) as [Hv' Hs'].
       apply (expect_call fs fhc at_server) with (v := v); [done| | |intros xid; by apply (read_only_refuses_writes fs fhc xid v (Hro v))|vm_compute; discriminate].
       - cbn -[diropargs3_codec]. by split_and!; try done.
       - cbn -[diropargs3_codec]. unfold MASK. lia. }
  all: apply (expect_call fs fhc at_server) with (v := v); [done| | |intros xid; by apply (read_only_refuses_writes fs fhc xid v (Hro v))|vm_compute; discriminate];
    [cbn -[diropargs3_codec]; split_and!; first [exact Hv|done]|cbn -[diropargs3_codec]; unfold MASK; lia].
Qed.

(** The tests of refused calls pass on every connection that answers to a read-only
    file system.  Those that make a file first, on the disk of the host, pass when the
    file is made, the connection still answers, and the file is there as long as the
    file system does not change. *)
Theorem refused_tests_pass `{!StdFs (C * L) F} fuel root_fh subdir k c l v :
  at_server (S k) c v ->
  (forall t : nat -> nfs_fh3 -> path -> nfs_fh3 -> prog (C * L) unit,
     t ∈ [create_readonly_error; mkdir_readonly_error; symlink_readonly_error] ->
     exists c', t fuel root_fh subdir subdir_fh (c, l) = (Ret tt, (c', l)) /\ at_server k c' v) /\
  (forall (t : nat -> nfs_fh3 -> path -> nfs_fh3 -> prog (C * L) unit) name c1 l1 v1,
     (t, name) ∈ [(remove_readonly_error, "remove_test.txt"%string); (rename_readonly_error, "rename_source.txt"%string)] ->
     std_write (path_push subdir (bytes_of_string name)) (bytes_of_string "test content") (c, l) = (Ret (Ok tt), (c1, l1)) ->
     at_server (S k) c1 v1 ->
     (forall c2, at_server k c2 v1 -> exists s, std_exists (path_push subdir (bytes_of_string name)) (c2, l1) = (Ret true, s)) ->
     exists s, t fuel root_fh subdir subdir_fh (c, l) = (Ret tt, s)).
Proof.
  intros Hat. split.
  - destruct (refused_calls k c l v Hat) as (Hcreate & Hmkdir & Hsymlink & _).
    intros t. rewrite !elem_of_cons, elem_of_nil. intros [->|[->|[->|[]]]].
    + destruct (Hcreate (bytes_of_string "create_test.txt") eq_refl) as (c' & Hcall & Hat').
      exists c'. split; [|done]. unfold create_readonly_error. by rewrite (pbind_Ret _ _ _ _ _ Hcall).
    + destruct (Hmkdir (bytes_of_string "mkdir_test") eq_refl) as (c' & Hcall & Hat').
      exists c'. split; [|done]. unfold mkdir_readonly_error. by rewrite (pbind_Ret _ _ _ _ _ Hcall).
    + destruct (Hsymlink (bytes_of_string "symlink_test") (bytes_of_string "target.txt") eq_refl eq_refl) as (c' & Hcall & Hat').
      exists c'. split; [|done]. unfold symlink_readonly_error. by rewrite (pbind_Ret _ _ _ _ _ Hcall).
  - intros t name c1 l1 v1 Ht Hw%expect_Ok Hat1 Hex. destruct (refused_calls k c1 l1 v1 Hat1) as (_ & _ & _ & Hremove & Hrename).
    rewrite !elem_of_cons, elem_of_nil in Ht. destruct Ht as [[= -> ->]|[[= -> ->]|[]]].
    + destruct (Hremove (bytes_of_string "remove_test.txt") eq_refl) as (c2 & Hcall & Hat2). destruct (Hex c2 Hat2) as [s Hs].
      exists s. unfold remove_readonly_error. rewrite (pbind_Ret _ _ _ _ _ Hw), (pbind_Ret _ _ _ _ _ Hcall).
      rewrite pbind_Ret with (a := tt) (s' := (c2, l1)) by done. by rewrite (pbind_Ret _ _ _ _ _ Hs).
    + destruct (Hrename (bytes_of_string "rename_source.txt") (bytes_of_string "rename_dest.txt") eq_refl eq_refl) as (c2 & Hcall & Hat2).
      destruct (Hex c2 Hat2) as [s Hs].
      exists s. unfold rename_readonly_error. rewrite (pbind_Ret _ _ _ _ _ Hw), (pbind_Ret _ _ _ _ _ Hcall).
      rewrite pbind_Ret with (a := tt) (s' := (c2, l1)) by done. by rewrite (pbind_Ret _ _ _ _ _ Hs).
Qed.
End refused.
