(* ===== verification/MirrorSuiteDemo.v ===== *)
(** * The integration suite of the mirror, run

    A small operating system with directories, links, open files and clocks, served
    by the mirror behind a session; the suite runs on it as the test program does:
    its calls are bytes that the tasks of the connection carry, and it looks at the
    same disk as the server. *)

From S2P Require Import Prelude Xdr XdrLaws Nfs3Types RpcTypes RpcWire RpcClient Handle Vfs NfsExt NfsHandlers NfsHandlersLaws.
From S2P Require Import Transactions MountPortmap Server ServerLaws Connection RemoteConnection Session FsUtil Listener Mirror MirrorProperties MemFs.
From S2P Require Import MemFsProperties MemFsValid Programs ProgramsMemFs RemotePrograms RemoteMemFs JustClient ServerMain MirrorSuiteUtil MirrorSuiteServer.
From S2P Require Import MirrorSuiteReadonly MirrorSuiteReadwrite MirrorSuiteLaws.
Open Scope Z_scope.
Open Scope nfs_scope.

(** ** A disk *)

Module DemoDisk.
(** A path as its components, without empty ones and dots. *)
Fixpoint components_from (p : path) (name : list byte) : list (list byte) :=
  match p with
  | [] => [name]
  | b :: p => if bool_decide (b = x2f) then name :: components_from p [] else components_from p (name ++ [b])
  end.
Definition components (p : path) : list (list byte) :=
  List.filter (fun name => negb (bool_decide (name = [])) && negb (bool_decide (name = dot))) (components_from p []).

Inductive Node : Type := NodeDir | NodeFile (data : list byte) | NodeLink (target : path).
Record Inode : Type := mkInode { in_node : Node; in_mode : Z; in_modified : Z; in_created : Z }.

(** The nodes by path, the open files with their positions, and the time. *)
Record Disk : Type := mkDisk {
  nodes : list (list (list byte) * Inode);
  open_files : list (list (list byte) * Z);
  now : Z;
}.

Definition find_node (p : list (list byte)) (os : Disk) : option Inode :=
  option_map (fun x => x.2.2) (list_find (fun x => x.1 = p) (nodes os)).
Definition put_node (p : list (list byte)) (i : Inode) (os : Disk) : Disk :=
  mkDisk ((p, i) :: List.filter (fun x => negb (bool_decide (x.1 = p))) (nodes os)) (open_files os) (now os).
Definition del_node (p : list (list byte)) (os : Disk) : Disk :=
  mkDisk (List.filter (fun x => negb (bool_decide (x.1 = p))) (nodes os)) (open_files os) (now os).

(** Some time passes with every change. *)
Definition tick (os : Disk) : Disk := mkDisk (nodes os) (open_files os) (now os + 1700000003).

Definition parent (p : list (list byte)) : list (list byte) := removelast p.
Definition names_below (p : list (list byte)) (os : Disk) : list (list byte) :=
  omap (fun x => match last x.1 with
                 | Some name => if bool_decide (x.1 = p ++ [name]) then Some name else None
                 | None => None
                 end) (nodes os).

(** A directory is changed by what happens in it. *)
Definition touch_dir (p : list (list byte)) (os : Disk) : Disk :=
  match find_node p os with
  | Some i => put_node p (mkInode (in_node i) (in_mode i) (now os) (in_created i)) os
  | None => os
  end.

Definition metadata_of (i : Inode) : Metadata :=
  let '(kind, size) := match in_node i with
                       | NodeDir => (FtDir, 4096)
                       | NodeFile data => (FtFile, len data)
                       | NodeLink target => (FtSymlink, len target)
                       end in
  mkMetadata kind (in_mode i) 1 7 8 size (Some (in_modified i)) (Some (in_modified i)) (Some (in_created i)) 0 (in_modified i / 1000000000).

(** Links are followed at the end of a path; one step is enough here. *)
Definition follow (p : list (list byte)) (os : Disk) : list (list byte) :=
  match find_node p os with
  | Some (mkInode (NodeLink target) _ _ _) => if is_absolute target then components target else parent p ++ components target
  | _ => p
  end.

Definition lookup_at {A} (p : list (list byte)) (f : Inode -> A) (os : Disk) : result A ErrorKind * Disk :=
  (match find_node p os with Some i => Ok (f i) | None => Err NotFound end, os).

(** A new node, in a directory that is there. *)
Definition make_node (p : list (list byte)) (n : Node) (mode : Z) (os : Disk) : result unit ErrorKind * Disk :=
  match find_node p os, find_node (parent p) os with
  | Some _, _ => (Err AlreadyExistsKind, os)
  | None, Some (mkInode NodeDir _ _ _) =>
      let os := tick os in (Ok tt, touch_dir (parent p) (put_node p (mkInode n mode (now os) (now os)) os))
  | None, _ => (Err NotFound, os)
  end.

Definition drop_node (p : list (list byte)) (os : Disk) : result unit ErrorKind * Disk :=
  match find_node p os with
  | Some _ => (Ok tt, touch_dir (parent p) (tick (del_node p os)))
  | None => (Err NotFound, os)
  end.

(** The bytes of a file, new ones from [start] on. *)
Definition data_at (p : list (list byte)) (os : Disk) : list byte :=
  match find_node p os with Some (mkInode (NodeFile data) _ _ _) => data | _ => [] end.
Definition set_data (p : list (list byte)) (data : list byte) (os : Disk) : Disk :=
  match find_node p os with
  | Some i => let os := tick os in put_node p (mkInode (NodeFile data) (in_mode i) (now os) (in_created i)) os
  | None => os
  end.
Definition resize (n : nat) (data : list byte) : list byte := take n data ++ repeat x00 (n - length data).

Definition new_file (p : list (list byte)) (os : Disk) : nat * Disk :=
  (length (open_files os), mkDisk (nodes os) (open_files os ++ [(p, 0)]) (now os)).
Definition file_of (f : nat) (os : Disk) : list (list byte) * Z := default ([], 0) (open_files os !! f).
Definition move_to (f : nat) (start : Z) (os : Disk) : Disk :=
  mkDisk (nodes os) (<[f := ((file_of f os).1, start)]> (open_files os)) (now os).

Definition open (how : OpenOptions) (path : path) (os : Disk) : result nat ErrorKind * Disk :=
  let p := follow (components path) os in
  match how, find_node p os with
  | OpenCreateNew, Some _ => (Err AlreadyExistsKind, os)
  | OpenCreate, None | OpenCreateNew, None =>
      let '(r, os) := make_node p (NodeFile []) 420 os in
      match r with Ok _ => let '(f, os) := new_file p os in (Ok f, os) | Err e => (Err e, os) end
  | OpenCreate, Some _ => let '(f, os) := new_file p (set_data p [] os) in (Ok f, os)
  | _, Some _ => let '(f, os) := new_file p os in (Ok f, os)
  | _, None => (Err NotFound, os)
  end.

Definition write_here (f : nat) (data : list byte) (os : Disk) : Disk :=
  let '(p, pos) := file_of f os in
  let old := data_at p os in
  let start := Z.to_nat pos in
  move_to f (pos + len data) (set_data p (resize start old ++ data ++ drop (start + length data) old) os).

Definition read_here (f : nat) (n : Z) (os : Disk) : list byte * Disk :=
  let '(p, pos) := file_of f os in
  let data := take (Z.to_nat n) (drop (Z.to_nat pos) (data_at p os)) in
  (data, move_to f (pos + len data) os).

Definition move_below (p q r : list (list byte)) : list (list byte) :=
  if bool_decide (take (length p) r = p) then q ++ drop (length p) r else r.
Definition rename (p q : list (list byte)) (os : Disk) : result unit ErrorKind * Disk :=
  match find_node p os with
  | None => (Err NotFound, os)
  | Some _ =>
      let os := tick (del_node q os) in
      (Ok tt, touch_dir (parent p) (touch_dir (parent q)
        (mkDisk (map (fun x => (move_below p q x.1, x.2)) (nodes os)) (open_files os) (now os))))
  end.

Definition set_mode (p : list (list byte)) (mode : Z) (os : Disk) : result unit ErrorKind * Disk :=
  match find_node p os with
  | Some i => (Ok tt, put_node p (mkInode (in_node i) mode (in_modified i) (in_created i)) os)
  | None => (Err NotFound, os)
  end.

#[export] Instance disk_system : Os Disk (list (list byte)) nat := {|
  os_exists p os := (is_ok (fst (lookup_at (follow (components p) os) id os)), os);
  os_symlink_metadata p os := lookup_at (components p) metadata_of os;
  os_open := open;
  os_file_len f os := (Ok (len (data_at (file_of f os).1 os)), os);
  os_seek f start os := (Ok tt, move_to f start os);
  os_read_exact f n os := let '(data, os) := read_here f n os in (if len data =? n then Ok data else Err OtherKind, os);
  os_write_all f data os := (Ok tt, write_here f data os);
  os_flush f os := (Ok tt, os);
  os_set_len f n os := let p := (file_of f os).1 in (Ok tt, set_data p (resize (Z.to_nat n) (data_at p os)) os);
  os_file_set_permissions f mode os := set_mode (file_of f os).1 mode os;
  os_read_dir p os := match find_node (components p) os with
                      | Some (mkInode NodeDir _ _ _) => (Ok (names_below (components p) os), os)
                      | Some _ => (Err NotADirectory, os)
                      | None => (Err NotFound, os)
                      end;
  os_next_entry rd os := ((Ok (hd_error rd), tl rd), os);
  os_create_dir p os := make_node (components p) NodeDir 493 os;
  os_remove_dir p os := match names_below (components p) os with [] => drop_node (components p) os | _ => (Err OtherKind, os) end;
  os_remove_file p os := drop_node (components p) os;
  os_rename p q os := rename (components p) (components q) os;
  os_symlink target p os := make_node (components p) (NodeLink target) 511 os;
  os_read_link p os := match find_node (components p) os with
                       | Some (mkInode (NodeLink target) _ _ _) => (Ok target, os)
                       | Some _ => (Err OtherKind, os)
                       | None => (Err NotFound, os)
                       end;
  os_set_permissions p mode os := set_mode (components p) mode os;
  os_set_file_atime p t os := (Ok tt, os);
  os_set_file_mtime p t os := (Ok tt, os);
  os_filetime_now os := ((now os / 1000000000, now os mod 1000000000), os);
  os_instant_now os := (now os, os);
|}.

(** [create_dir_all]: each directory above that is not there. *)
Fixpoint create_dirs (above : list (list byte)) (names : list (list byte)) (os : Disk) : result unit ErrorKind * Disk :=
  match names with
  | [] => (Ok tt, os)
  | name :: names =>
      let p := above ++ [name] in
      match find_node p os with
      | Some _ => create_dirs p names os
      | None => match make_node p NodeDir 493 os with
                | (Ok _, os) => create_dirs p names os
                | (Err e, os) => (Err e, os)
                end
      end
  end.

(** [fs::write]. *)
Definition write_file (p : path) (data : list byte) (os : Disk) : result unit ErrorKind * Disk :=
  match open OpenCreate p os with
  | (Ok f, os) => (Ok tt, write_here f data os)
  | (Err e, os) => (Err e, os)
  end.

(** [std::fs] on a disk that is part of a state. *)
Definition disk_std {S} (on_disk : forall A, (Disk -> A * Disk) -> prog S A) : StdFs S nat := {|
  std_write p data := on_disk _ (write_file p data);
  std_read p := on_disk _ (fun os => lookup_at (follow (components p) os) (fun _ => data_at (follow (components p) os) os) os);
  std_create_dir p := on_disk _ (os_create_dir p);
  std_create_dir_all p := on_disk _ (create_dirs [] (components p));
  std_remove_file p := on_disk _ (os_remove_file p);
  std_symlink target p := on_disk _ (os_symlink target p);
  std_metadata p := on_disk _ (fun os => lookup_at (follow (components p) os) metadata_of os);
  std_read_dir p := on_disk _ (os_read_dir p);
  std_exists p := on_disk _ (os_exists p);
  std_is_dir p := on_disk _ (fun os =>
    (match find_node (follow (components p) os) os with Some (mkInode NodeDir _ _ _) => true | _ => false end, os));
  std_open p := on_disk _ (os_open OpenRead p);
  std_create p := on_disk _ (os_open OpenCreate p);
  std_file_metadata f := on_disk _ (fun os => lookup_at (file_of f os).1 metadata_of os);
  std_file_read f n := on_disk _ (fun os => let '(data, os) := read_here f n os in (Ok data, os));
  std_file_write_all f data := on_disk _ (fun os => (Ok tt, write_here f data os));
  std_file_sync_all _ := pret (Ok tt);
|}.
End DemoDisk.

(** ** The tests and the server on one machine *)

Module DemoSuite.
Import DemoDisk.
#[export] Existing Instance DemoMirror.vec_table.
#[export] Existing Instance DemoMirror.target.
#[export] Existing Instance disk_system.

Definition Mirror : Type := @MirrorFs DemoMirror.table nat Disk (list (list byte)) _ _.

(** The session of the client and the number of the next test. *)
Definition State : Type := Session Mirror * Z.

Definition set_server {V} (s : ServerState V) (c : Connection V) : Connection V :=
  mkConnection s (cn_peer c) (cn_pending c) (cn_pipe c) (cn_looping c) (cn_fragment c) (cn_cur_fragment c)
    (cn_tasks c) (cn_replies c) (cn_written c) (cn_result c).

(** A call of the test program on the disk that the server serves. *)
Definition on_disk {A} (f : Disk -> A * Disk) : prog State A := fun '(se, n) =>
  let s := cn_server (se_conn se) in
  let m := ss_vfs s in
  let '(a, os) := f (mr_os m) in
  let s := mkServerState (mr_set_os os m) (ss_tracker s) (ss_signals s) in
  (Ret a, (mkSession (se_client se) (set_server s (se_conn se)) (se_calls se), n)).

#[export] Instance suite_disk : StdFs State nat := disk_std (@on_disk).

#[export] Instance suite_counter : Counter State := fun '(se, n) => (Ret n, (se, n + 1)).

Section server.
Context (fs : NfsFileSystem Mirror FileHandleU64).

(** The calls run through the tasks of the connection, 4096 bytes at a time; the
    replies arrive in pieces of 1000. *)
Definition schedule : nat -> Connection Mirror -> list (action Mirror) := greedy_schedule fs DemoServer.ctx 4096 1 2.
Definition cut : nat -> list byte -> list (list byte) := cut_into 999.

#[export] Instance suite_calls : NfsCalls State := session_calls fs DemoServer.ctx schedule cut.

#[export] Instance suite_more_calls : NfsMoreCalls State := fun A R p args '(se, n) =>
  let '(o, se) :=
    match p in extra_procedure A R return A -> outcome (result R client_error) * Session Mirror with
    | RMDIR => fun args => session_call fs DemoServer.ctx schedule cut NFSPROC3_RMDIR RMDIR3args_codec RMDIR3res_codec args se
    | MKNOD => fun args => session_call fs DemoServer.ctx schedule cut NFSPROC3_MKNOD MKNOD3args_codec MKNOD3res_codec args se
    | LINK => fun args => session_call fs DemoServer.ctx schedule cut NFSPROC3_LINK LINK3args_codec LINK3res_codec args se
    | COMMIT => fun args => session_call fs DemoServer.ctx schedule cut NFSPROC3_COMMIT COMMIT3args_codec COMMIT3res_codec args se
    end args in
  (o, (se, n)).

(** The temporary directory, and the handle of the export. *)
Definition tmp : path := bytes_of_string "/tmp/export".
Definition root_fh : nfs_fh3 := handle_of (ctx_file_handle_converter DemoServer.ctx) MIRROR_ROOT_ID.

Definition disk0 : Disk :=
  let dir := mkInode NodeDir 493 1000000000 1000000000 in
  mkDisk [([], dir); ([bytes_of_string "tmp"], dir); ([bytes_of_string "tmp"; bytes_of_string "export"], dir)] [] 5000000000.

Definition start : State :=
  (session_new (mkServerState (mirror_new tmp disk0) new_transaction_tracker []) 1 opaque_auth_default opaque_auth_default, 0).

Definition no_lossy (l : list byte) : list byte := l.
Definition io_text (e : io_error) : string := "I/O".

(** The tests of [main.rs]; the loops of a test run at most [6] times. *)
Definition readonly_suite (large_file_size : Z) (pick : list (string * TestFn) -> list (string * TestFn)) : prog State unit :=
  run_tests 6 tmp root_fh (pick (readonly_tests no_lossy large_file_size)).
Definition readwrite_suite (pick : list (string * TestFn) -> list (string * TestFn)) : prog State unit :=
  run_tests 6 tmp root_fh (pick (readwrite_tests io_text)).
End server.
End DemoSuite.

Import DemoSuite.

(** Every address can be bound. *)
#[local] Instance bind_any : TcpBind (list string) := fun addr log => (Ok 11111, addr :: log).
#[local] Existing Instance DemoMem.demo_order.

(** What the program serves in each mode. *)
Definition suite_fs (mode : ServerMode) : NfsFileSystem Mirror FileHandleU64 :=
  if bool_decide (mode = ModeReadOnly) then ReadOnlyAdapter mirror_read_fs else mirror_file_system.

Definition no_log (directory name : list byte) (os : DemoDisk.Disk) : bool * DemoDisk.Disk := (false, os).

Lemma suite_server clock (mode : ServerMode) :
  exists l n, main clock 0 true no_log (server_args mode tmp) disk0 ([] : list string) =
    (Ret (mkServed Mirror (suite_fs mode) (mirror_new tmp disk0) l), n).
Proof.
  do 2 eexists. erewrite main_mirror; [|reflexivity|reflexivity|reflexivity|vm_compute; reflexivity].
  apply start_server_run. split; [reflexivity|]. eexists. split; [|reflexivity]. vm_compute. reflexivity.
Qed.

(** Both suites of [main.rs] pass. Started as the suite starts it, in each mode,
    the server program serves the mirror of the temporary directory; on that file
    system all 34 tests of a read-only server and all 14 of a read-write one, one
    after the other on one session each, end without a panic. Each call is a message
    that goes through the encoder of the client, the tasks of the connection, the
    dispatch, the procedure, the adapter and the mirror to the small disk that the
    tests prepare and look at, and comes back cut into pieces. (The large file has
    70000 bytes, two blocks, instead of 100 MiB.) The suites tell the servers apart:
    each one panics on the server of the other. *)
Theorem suite_passes :
  (forall (clock : nat -> nfstime3) (mode : ServerMode), exists l n, main clock 0 true no_log (server_args mode tmp) disk0 ([] : list string) =
     (Ret (mkServed Mirror (suite_fs mode) (mirror_new tmp disk0) l), n)) /\
  fst (readonly_suite (suite_fs ModeReadOnly) 70000 id start) = Ret tt /\
  fst (readwrite_suite (suite_fs ModeReadWrite) id start) = Ret tt /\
  fst (readonly_suite (suite_fs ModeReadWrite) 100 id start) = Panic /\
  fst (readwrite_suite (suite_fs ModeReadOnly) id start) = Panic.
Proof. split; [apply suite_server|]. split_and!; vm_compute; reflexivity. Qed.

(** A file of the in-memory file system, and its copy on the disk. *)

Module DemoCompare.
Import DemoFs DemoMem DemoPrograms DemoDisk.

Definition on_second {C A} (f : Disk -> A * Disk) : prog (C * Disk) A := fun '(c, os) =>
  let '(a, os) := f os in (Ret a, (c, os)).
Definition second_disk : StdFs (Session MemFs * Disk) nat := disk_std (@on_second (Session MemFs)).

Definition a_file : File := match fs_get (mf_fs m) 2 with Some (EFile file) => file | _ => file_new [] 0 [] [] (clock 0) end.
Definition copy : Disk :=
  mkDisk [([a_txt], mkInode (NodeFile hello) 420 (systime (fattr3_mtime (file_attr a_file))) (systime (fattr3_ctime (file_attr a_file))))] [] 0.
Definition copy_metadata : Metadata :=
  match find_node [a_txt] copy with Some i => metadata_of i | None => metadata_of (mkInode NodeDir 0 0 0) end.

(** The first file that was opened, on a disk with these nodes. *)
Definition copy_at (pos : Z) (os : Disk) : Prop := os = mkDisk (nodes copy) [([a_txt], pos)] 0.

Definition opened : Disk := mkDisk (nodes copy) [([a_txt], 0)] 0.

Lemma copy_opens (c : Session MemFs) : @std_open _ _ second_disk (path_push [x2f] a_txt) (c, copy) = (Ret (Ok 0%nat), (c, opened)).
Proof. vm_compute. reflexivity. Qed.
Lemma copy_looks (c : Session MemFs) : @std_file_metadata _ _ second_disk 0%nat (c, opened) = (Ret (Ok copy_metadata), (c, opened)).
Proof. vm_compute. reflexivity. Qed.

Lemma copy_reads (c : Session MemFs) pos os :
  copy_at pos os -> exists os', @std_file_read _ _ second_disk 0%nat BUFFER_SIZE (c, os) = (Ret (Ok (chunk pos hello)), (c, os')) /\
    copy_at (pos + len (chunk pos hello)) os'.
Proof.
  intros ->. eexists. split; [|exact eq_refl]. cbn [std_file_read second_disk disk_std].
  unfold on_second, read_here. cbn [file_of open_files lookup list_lookup default id]. cbv beta iota.
  assert (data_at [a_txt] (mkDisk (nodes copy) [([a_txt], pos)] 0) = hello) as -> by (vm_compute; reflexivity).
  unfold chunk, move_to. cbn [nodes open_files now file_of lookup list_lookup default fst insert list_insert id]. reflexivity.
Qed.

Lemma copy_reads_some c pos os : copy_at pos os -> @local_read _ _ _ second_disk 0%nat hello copy_at c pos os.
Proof.
  intros Hat. destruct (copy_reads c pos os Hat) as (os' & Hr & Hat'). exists (Ok (chunk pos hello)), os'. by split.
Qed.

Lemma copy_reads_all (c : Session MemFs) pos os :
  copy_at pos os -> fst (@std_file_read _ _ second_disk 0%nat BUFFER_SIZE (c, os)) = Ret (Ok (chunk pos hello)).
Proof. intros Hat. destruct (copy_reads c pos os Hat) as (os' & -> & _). done. Qed.
End DemoCompare.

Import DemoFs DemoMem DemoPrograms DemoCompare.

Lemma files_equal_decided_witness :
  exists s', @assert_files_equal_ex _ _ (session_calls memfs_file_system DemoNetwork.ctx DemoNetwork.schedule DemoNetwork.cut) second_disk
      2 [x2f] (handle_of fhc 2) (file_attr a_file) a_txt (len hello) (DemoNetwork.session, copy) = (Ret tt, s').
Proof.
  destruct (files_equal_decided second_disk DemoNetwork.ctx DemoNetwork.schedule DemoNetwork.cut m 2 a_file 0%nat hello copy_at 2 0
    [x2f] a_txt (len hello) copy_metadata DemoNetwork.session copy opened opened
    DemoNetwork.schedule_carries (cut_into_delivers 8) DemoNetwork.ctx_wf ltac:(vm_compute; reflexivity) ltac:(unfold in_u64, u64_MAX; lia)
    ltac:(vm_compute; reflexivity) ltac:(vm_compute; reflexivity) ltac:(vm_compute; discriminate) ltac:(vm_compute; discriminate)
    (copy_opens _) (copy_looks _) ltac:(vm_compute; reflexivity) eq_refl (fun c pos l H _ => copy_reads_some c pos l H)
    (DemoNetwork.session_linked 2 ltac:(vm_compute; discriminate))) as (r & s' & Hrun & _ & _ & Hdone).
  assert (metadata_agrees copy_metadata (file_attr a_file) (len hello) = true) as Ha by (vm_compute; reflexivity).
  assert (file_content a_file = hello) as Hc by (vm_compute; reflexivity).
  rewrite (Hdone (fun c pos l H _ => copy_reads_all c pos l H) (conj Ha Hc)) in Hrun. exists s'. exact Hrun.
Defined.
