(* ===== verification/MirrorExample.v ===== *)
(** * The example file system: [nfs3_server/examples/mirrorfs.rs]

    The example of the server library mirrors a directory of the operating system.
    It keeps a map of the files that clients have seen: [id_to_path] gives the
    attributes, the children and the path of an id, [path_to_id] the id of a path.
    The attributes are those of the last look; [refresh_entry] and
    [refresh_dir_list] bring an entry and a listing up to date.

    The whole state is behind one lock of tokio, which a panic does not poison.
    The system calls that the other file systems do not use are the class [OsMore].
    The types of the example that bear the names of those of [cargo_nfs3_server]
    start with [Ex]. *)

From stdpp Require Import sorting.
From S2P Require Import Prelude Xdr XdrLaws Nfs3Types Handle Vfs FsUtil Mirror.
Open Scope Z_scope.
Open Scope nfs_scope.

(** [fs::metadata] (it follows links), [File::metadata], [DirEntry::metadata],
    [OpenOptions] with write and create, and [File::sync_all]. *)
Class OsMore (OS RD F : Type) : Type := {
  os_metadata : path -> io OS Metadata;
  os_file_metadata : F -> io OS Metadata;
  os_entry_metadata : RD -> path -> io OS Metadata;
  os_open_write_create : path -> io OS F;
  os_sync_all : F -> io OS unit;
}.

(** [SymbolTable::check_interned]. *)
Class CheckInterned (T Sym : Type) : Type := st_check_interned : T -> path -> option Sym.

(** [slice::binary_search] on a sorted vector without duplicates. *)
Fixpoint binary_search (x : Z) (l : list Z) : result nat nat :=
  match l with
  | [] => Err O
  | y :: l =>
      if x <=? y then (if x =? y then Ok O else Err O)
      else match binary_search x l with Ok i => Ok (S i) | Err i => Err (S i) end
  end.

(** [Vec::insert] and [Vec::remove]. *)
Definition vec_insert {A} (i : nat) (x : A) (l : list A) : list A := take i l ++ x :: drop i l.
Definition vec_remove {A} (i : nat) (l : list A) : list A := take i l ++ drop (S i) l.

Definition metadata_is_symlink (m : Metadata) : bool := match md_file_type m with FtSymlink => true | _ => false end.

Section example.
Context {T Sym OS RD F : Type} `{!SymbolTable T Sym} `{!CheckInterned T Sym} `{Countable Sym}.
Context `{!Os OS RD F} `{!OsMore OS RD F}.

(** How many entries a directory stream gives at most. *)
Context (dir_bound : nat).

(** ** The map *)

Record FSEntry : Type := mkFSEntry {
  fe_name : list Sym;
  fe_fsmeta : fattr3;
  fe_children_meta : fattr3;
  fe_children : option (list Z);
}.

Record FSMap : Type := mkFSMap {
  fm_root : path;
  fm_next_fileid : u64;
  fm_intern : T;
  fm_id_to_path : gmap Z FSEntry;
  fm_path_to_id : gmap (list Sym) Z;
}.

Record ExMirrorFs : Type := mkExMirrorFs {
  ex_fsmap : FSMap;
  ex_os : OS;
}.

Inductive RefreshResult : Type := RefreshDelete | RefreshReload | RefreshNoop.

Definition fe_set_name (name : list Sym) (e : FSEntry) : FSEntry :=
  mkFSEntry name (fe_fsmeta e) (fe_children_meta e) (fe_children e).
Definition fe_set_fsmeta (meta : fattr3) (e : FSEntry) : FSEntry :=
  mkFSEntry (fe_name e) meta (fe_children_meta e) (fe_children e).
Definition fe_set_children (children : option (list Z)) (e : FSEntry) : FSEntry :=
  mkFSEntry (fe_name e) (fe_fsmeta e) (fe_children_meta e) children.

Definition fm_set_ids (ids : gmap Z FSEntry) (m : FSMap) : FSMap :=
  mkFSMap (fm_root m) (fm_next_fileid m) (fm_intern m) ids (fm_path_to_id m).
Definition fm_set_paths (paths : gmap (list Sym) Z) (m : FSMap) : FSMap :=
  mkFSMap (fm_root m) (fm_next_fileid m) (fm_intern m) (fm_id_to_path m) paths.
Definition fm_set_intern (t : T) (m : FSMap) : FSMap :=
  mkFSMap (fm_root m) (fm_next_fileid m) t (fm_id_to_path m) (fm_path_to_id m).

(** [FSMap::new]: the attributes of the root are read twice. *)
Definition fsmap_new (root : path) : prog OS FSMap :=
  do* r1 := sys (os_metadata root) in
  match r1 with
  | Err _ => ppanic
  | Ok meta1 =>
      do* r2 := sys (os_metadata root) in
      match r2 with
      | Err _ => ppanic
      | Ok meta2 =>
          let root_entry := mkFSEntry [] (metadata_to_fattr3 1 meta1) (metadata_to_fattr3 1 meta2) None in
          pret (mkFSMap root 1 st_new {[ 0 := root_entry ]} {[ [] := 0 ]})
      end
  end.

(** [sym_to_path]: the names pushed on the root one by one. *)
Definition sym_to_path (m : FSMap) (symlist : list Sym) : outcome path :=
  resolve_path_from (fm_intern m) (fm_root m) symlist.

Definition sym_to_fname (m : FSMap) (symlist : list Sym) : outcome path :=
  match last symlist with
  | Some s => match st_get (fm_intern m) s with Some name => Ret name | None => Panic end
  | None => Ret []
  end.

(** The recursion of [collect_all_children]; a chain of children longer than the
    map repeats an id, and the recursion does not end. *)
Fixpoint collect_all_children (fuel : nat) (ids : gmap Z FSEntry) (id : Z) : outcome (list Z) :=
  match fuel with
  | O => OutOfFuel
  | S fuel' =>
      match ids !! id with
      | Some entry =>
          match fe_children entry with
          | Some ch =>
              (fix go (l : list Z) (ret : list Z) : outcome (list Z) :=
                 match l with
                 | [] => Ret ret
                 | i :: l => match collect_all_children fuel' ids i with
                             | Ret more => go l (ret ++ more)
                             | Panic => Panic
                             | OutOfFuel => OutOfFuel
                             end
                 end) ch [id]
          | None => Ret [id]
          end
      | None => Ret [id]
      end
  end.

Definition collect_fuel (ids : gmap Z FSEntry) : nat := S (S (size ids)).

Definition delete_one (m : FSMap) (i : Z) : FSMap :=
  match fm_id_to_path m !! i with
  | Some ent => fm_set_paths (delete (fe_name ent) (fm_path_to_id m)) (fm_set_ids (delete i (fm_id_to_path m)) m)
  | None => m
  end.

Definition delete_entry (id : Z) : prog ExMirrorFs unit := fun fs =>
  let m := ex_fsmap fs in
  match collect_all_children (collect_fuel (fm_id_to_path m)) (fm_id_to_path m) id with
  | Ret children => (Ret tt, mkExMirrorFs (foldl delete_one m children) (ex_os fs))
  | Panic => (Panic, fs)
  | OutOfFuel => (OutOfFuel, fs)
  end.

Definition find_entry (id : Z) : vfs_method ExMirrorFs FSEntry := fun fs =>
  (Ret (ok_or (fm_id_to_path (ex_fsmap fs) !! id) NFS3ERR_NOENT), fs).

Definition find_child (id : Z) (filename : path) : vfs_method ExMirrorFs Z := fun fs =>
  let m := ex_fsmap fs in
  (Ret (match fm_id_to_path m !! id with
        | None => Err NFS3ERR_NOENT
        | Some e =>
            match st_check_interned (fm_intern m) filename with
            | None => Err NFS3ERR_NOENT
            | Some s => ok_or (fm_path_to_id m !! (fe_name e ++ [s])) NFS3ERR_NOENT
            end
        end), fs).

(** A change of one entry, if it is there. *)
Definition update_entry (id : Z) (f : FSEntry -> FSEntry) : prog ExMirrorFs unit := fun fs =>
  let m := ex_fsmap fs in
  (Ret tt, mkExMirrorFs (fm_set_ids (alter f id (fm_id_to_path m)) m) (ex_os fs)).

Definition ex_path (symlist : list Sym) : prog ExMirrorFs path := fun fs =>
  (sym_to_path (ex_fsmap fs) symlist, fs).

Definition ex_on_os {A} (m : prog OS A) : prog ExMirrorFs A := fun fs =>
  let '(o, os) := m (ex_os fs) in (o, mkExMirrorFs (ex_fsmap fs) os).
Definition ex_sys {A} (c : OS -> A * OS) : prog ExMirrorFs A := ex_on_os (sys c).

(** [intern.intern(name).unwrap()]. *)
Definition ex_intern (name : path) : prog ExMirrorFs Sym := fun fs =>
  let m := ex_fsmap fs in
  match st_intern name (fm_intern m) with
  | Some (s, t) => (Ret s, mkExMirrorFs (fm_set_intern t m) (ex_os fs))
  | None => (Panic, fs)
  end.

Definition io_error {A E} (m : prog ExMirrorFs (result A E)) : vfs_method ExMirrorFs A :=
  map_err (fun _ => NFS3ERR_IO) m.

(** ** Refreshing *)

Definition create_entry (fullpath : list Sym) (meta : Metadata) : prog ExMirrorFs Z := fun fs =>
  let m := ex_fsmap fs in
  match fm_path_to_id m !! fullpath with
  | Some chid =>
      (Ret chid,
       mkExMirrorFs (fm_set_ids (alter (fe_set_fsmeta (metadata_to_fattr3 chid meta)) chid (fm_id_to_path m)) m)
         (ex_os fs))
  | None =>
      let next_id := fm_next_fileid m in
      let metafattr := metadata_to_fattr3 next_id meta in
      let new_entry := mkFSEntry fullpath metafattr metafattr None in
      (Ret next_id,
       mkExMirrorFs (mkFSMap (fm_root m) ((next_id + 1) mod 2 ^ 64) (fm_intern m)
                       (<[next_id := new_entry]> (fm_id_to_path m)) (<[fullpath := next_id]> (fm_path_to_id m)))
         (ex_os fs))
  end.

Definition refresh_entry (id : Z) : vfs_method ExMirrorFs RefreshResult :=
  try* entry := find_entry id in
  do* path := ex_path (fe_name entry) in
  do* exists_ := ex_on_os (exists_no_traverse path) in
  if negb exists_ then
    do* _ := delete_entry id in
    pret (Ok RefreshDelete)
  else
    try* meta := io_error (ex_sys (os_symlink_metadata path)) in
    let meta := metadata_to_fattr3 id meta in
    if negb (fattr3_differ meta (fe_fsmeta entry)) then pret (Ok RefreshNoop)
    else if negb (bool_decide (fattr3_type (fe_fsmeta entry) = fattr3_type meta)) then
      do* _ := delete_entry id in
      pret (Ok RefreshDelete)
    else
      do* _ := update_entry id (fe_set_fsmeta meta) in
      pret (Ok RefreshReload).

(** The loop of [refresh_dir_list]: [entry.metadata().await.unwrap()] panics when
    the file is gone. *)
Fixpoint relist_loop (fuel : nat) (cur_path : list Sym) (listing : RD) (new_children : list Z)
  : vfs_method ExMirrorFs (list Z) :=
  match fuel with
  | O => fun fs => (OutOfFuel, fs)
  | S fuel' =>
      do* (r, listing) := ex_sys (os_next_entry listing) in
      match r with
      | Err _ => pret (Err NFS3ERR_IO)
      | Ok None => pret (Ok new_children)
      | Ok (Some name) =>
          do* sym := ex_intern name in
          do* meta := ex_sys (os_entry_metadata listing name) in
          match meta with
          | Err _ => ppanic
          | Ok meta =>
              do* next_id := create_entry (cur_path ++ [sym]) meta in
              relist_loop fuel' cur_path listing (new_children ++ [next_id])
          end
      end
  end.

Definition refresh_dir_list (id : Z) : vfs_method ExMirrorFs unit :=
  try* entry := find_entry id in
  if is_ok (ok_or (fe_children entry) tt) && negb (fattr3_differ (fe_children_meta entry) (fe_fsmeta entry))
  then pret (Ok tt)
  else if negb (bool_decide (fattr3_type (fe_fsmeta entry) = NF3DIR)) then pret (Ok tt)
  else
    do* path := ex_path (fe_name entry) in
    do* listing := ex_sys (os_read_dir path) in
    match listing with
    | Err _ => pret (Ok tt)
    | Ok listing =>
        try* new_children := relist_loop (S dir_bound) (fe_name entry) listing [] in
        try* _ := find_entry id in
        do* _ := update_entry id (fe_set_children (Some (merge_sort Z.le new_children))) in
        pret (Ok tt)
    end.

(** ** Creating *)

Inductive CreateFSObject : Type :=
| Directory
| CreateFile (attr : sattr3)
| Exclusive
| Symlink (attr : sattr3) (target : nfspath3).

Definition make_object (path : path) (object : CreateFSObject) : vfs_method ExMirrorFs unit :=
  match object with
  | Directory =>
      do* e := ex_on_os (exists_no_traverse path) in
      if e then pret (Err NFS3ERR_EXIST)
      else io_error (ex_sys (os_create_dir path))
  | CreateFile setattr =>
      try* file := io_error (ex_sys (os_open OpenCreate path)) in
      do* _ := ex_on_os (file_setattr file setattr) in
      pret (Ok tt)
  | Exclusive =>
      try* _ := map_err (fun _ => NFS3ERR_EXIST) (ex_sys (os_open OpenCreateNew path)) in
      pret (Ok tt)
  | Symlink _ target =>
      do* e := ex_on_os (exists_no_traverse path) in
      if e then pret (Err NFS3ERR_EXIST)
      else io_error (ex_sys (os_symlink target path))
  end.

(** A new id in the children list of a directory; [None] if it is there already. *)
Definition add_child (fileid : Z) (children : list Z) : option (list Z) :=
  match binary_search fileid children with
  | Ok _ => None
  | Err pos => Some (vec_insert pos fileid children)
  end.

Definition unlist_child (fileid : Z) (children : list Z) : list Z :=
  match binary_search fileid children with
  | Ok pos => vec_remove pos children
  | Err _ => children
  end.

(** [if let Some(ref mut children) = entry.children { .. }] of the entry [id]. *)
Definition insert_child (id fileid : Z) (entry : FSEntry) : vfs_method ExMirrorFs unit :=
  match fe_children entry with
  | Some children =>
      match add_child fileid children with
      | None => pret (Err NFS3ERR_EXIST)
      | Some children => do* _ := update_entry id (fe_set_children (Some children)) in pret (Ok tt)
      end
  | None => pret (Ok tt)
  end.

Definition create_fs_object (dirid : Z) (objectname : filename3) (object : CreateFSObject)
  : vfs_method ExMirrorFs (Z * fattr3) :=
  try* ent := find_entry dirid in
  do* dir_path := ex_path (fe_name ent) in
  let path := path_push dir_path objectname in
  try* _ := make_object path object in
  do* _ := refresh_entry dirid in
  do* sym := ex_intern objectname in
  let name := fe_name ent ++ [sym] in
  try* meta := io_error (ex_sys (os_symlink_metadata path)) in
  do* fileid := create_entry name meta in
  try* entry := find_entry dirid in
  try* _ := insert_child dirid fileid entry in
  pret (Ok (fileid, metadata_to_fattr3 fileid meta)).

(** ** The reading methods, on ids *)

Definition ex_lookup (dirid : Z) (filename : filename3) : vfs_method ExMirrorFs Z :=
  do* child := find_child dirid filename in
  do* known := match child with
               | Ok id => do* e := find_entry id in pret (if is_ok e then Some id else None)
               | Err _ => pret None
               end in
  match known with
  | Some id => pret (Ok id)
  | None =>
      try* dirent := find_entry dirid in
      do* dir_path := ex_path (fe_name dirent) in
      let path := path_push dir_path filename in
      do* exists_ := ex_on_os (exists_no_traverse path) in
      if negb exists_ then pret (Err NFS3ERR_NOENT)
      else
        try* refreshed := refresh_entry dirid in
        match refreshed with
        | RefreshDelete => pret (Err NFS3ERR_NOENT)
        | _ =>
            do* _ := refresh_dir_list dirid in
            find_child dirid filename
        end
  end.

Definition ex_getattr (id : Z) : vfs_method ExMirrorFs fattr3 :=
  try* refreshed := refresh_entry id in
  match refreshed with
  | RefreshDelete => pret (Err NFS3ERR_NOENT)
  | _ =>
      try* ent := find_entry id in
      do* _ := ex_path (fe_name ent) in
      pret (Ok (fe_fsmeta ent))
  end.

Definition ex_read (id : Z) (offset : u64) (count : u32) : vfs_method ExMirrorFs (list byte * bool) :=
  try* entry := find_entry id in
  do* path := ex_path (fe_name entry) in
  try* f := map_err (fun _ => NFS3ERR_NOENT) (ex_sys (os_open OpenRead path)) in
  try* meta := map_err (fun _ => NFS3ERR_NOENT) (ex_sys (os_file_metadata f)) in
  let len := md_len meta in
  if u64_MAX <? offset + count then ppanic
  else
    let end_ := offset + count in
    let eof := len <=? end_ in
    let start := if len <=? offset then len else offset in
    let end_ := if len <? end_ then len else end_ in
    try* _ := io_error (ex_sys (os_seek f start)) in
    try* buf := io_error (ex_sys (os_read_exact f (end_ - start))) in
    pret (Ok (buf, eof)).

Definition ex_readlink (id : Z) : vfs_method ExMirrorFs nfspath3 :=
  try* ent := find_entry id in
  do* path := ex_path (fe_name ent) in
  do* meta := ex_sys (os_symlink_metadata path) in
  match meta with
  | Ok meta =>
      if metadata_is_symlink meta then io_error (ex_sys (os_read_link path))
      else pret (Err NFS3ERR_BADTYPE)
  | Err _ => pret (Err NFS3ERR_BADTYPE)
  end.

(** ** The directory iterator *)

Record ExIterator : Type := mkExIterator {
  exi_entries : list Z;
  exi_index : nat;
}.

Definition ex_iterator_new (dirid : Z) (start_after : cookie3) : vfs_method ExMirrorFs ExIterator :=
  try* _ := refresh_entry dirid in
  try* _ := refresh_dir_list dirid in
  try* entry := find_entry dirid in
  if negb (bool_decide (fattr3_type (fe_fsmeta entry) = NF3DIR)) then pret (Err NFS3ERR_NOTDIR)
  else
    match fe_children entry with
    | None => pret (Err NFS3ERR_IO)
    | Some children =>
        let pos := match binary_search start_after children with
                   | Ok pos => S pos
                   | Err pos => pos
                   end in
        pret (Ok (mkExIterator (drop pos children) 0))
    end.

(** The loop of [next], on the entries from the index on. *)
Fixpoint ex_next_from (rest : list Z) (index : nat)
  : prog ExMirrorFs (NextResult (DirEntryPlus Z) * nat) :=
  match rest with
  | [] => pret (NextEof, index)
  | fileid :: rest =>
      do* r := find_entry fileid in
      match r with
      | Err NFS3ERR_NOENT => ex_next_from rest (S index)
      | Err e => pret (NextErr e, S index)
      | Ok fs_entry =>
          do* name := (fun fs => (sym_to_fname (ex_fsmap fs) (fe_name fs_entry), fs)) in
          pret (NextOk (mkDirEntryPlus fileid name fileid (Some (fe_fsmeta fs_entry)) (Some fileid)), S index)
      end
  end.

Definition ex_next (it : ExIterator) : prog ExMirrorFs (NextResult (DirEntryPlus Z) * ExIterator) :=
  do* (r, index) := ex_next_from (drop (exi_index it) (exi_entries it)) (exi_index it) in
  pret (r, mkExIterator (exi_entries it) index).

(** ** The writing methods, on ids *)

Definition ex_setattr (id : Z) (setattr : sattr3) : vfs_method ExMirrorFs fattr3 :=
  try* entry := find_entry id in
  do* path := ex_path (fe_name entry) in
  try* _ := ex_on_os (path_setattr path setattr) in
  try* metadata := io_error (ex_sys (os_symlink_metadata path)) in
  do* _ := update_entry id (fe_set_fsmeta (metadata_to_fattr3 id metadata)) in
  pret (Ok (metadata_to_fattr3 id metadata)).

Definition ex_write (id : Z) (offset : u64) (data : list byte) : vfs_method ExMirrorFs fattr3 :=
  try* ent := find_entry id in
  do* path := ex_path (fe_name ent) in
  try* f := io_error (ex_sys (os_open_write_create path)) in
  try* _ := io_error (ex_sys (os_seek f offset)) in
  try* _ := io_error (ex_sys (os_write_all f data)) in
  do* _ := ex_sys (os_flush f) in
  do* _ := ex_sys (os_sync_all f) in
  try* meta := io_error (ex_sys (os_file_metadata f)) in
  pret (Ok (metadata_to_fattr3 id meta)).

Definition ex_create (dirid : Z) (filename : filename3) (setattr : sattr3) : vfs_method ExMirrorFs (Z * fattr3) :=
  create_fs_object dirid filename (CreateFile setattr).

Definition ex_create_exclusive (dirid : Z) (filename : filename3) (_createverf : createverf3)
  : vfs_method ExMirrorFs Z :=
  try* r := create_fs_object dirid filename Exclusive in
  pret (Ok (fst r)).

Definition ex_mkdir (dirid : Z) (dirname : filename3) : vfs_method ExMirrorFs (Z * fattr3) :=
  create_fs_object dirid dirname Directory.

Definition ex_symlink (dirid : Z) (linkname : filename3) (symlink : nfspath3) (attr : sattr3)
  : vfs_method ExMirrorFs (Z * fattr3) :=
  create_fs_object dirid linkname (Symlink attr symlink).

(** [if let Ok(dirent_mut) = ..]: the id leaves the children list of a directory. *)
Definition forget_child (dirid fileid : Z) : prog ExMirrorFs unit :=
  update_entry dirid (fun e => fe_set_children (option_map (unlist_child fileid) (fe_children e)) e).

Definition lookup_path_id (sympath : list Sym) : prog ExMirrorFs (option Z) := fun fs =>
  (Ret (fm_path_to_id (ex_fsmap fs) !! sympath), fs).

(** [id_to_path.remove(&fileid)] and [path_to_id.remove(&sympath)]. *)
Definition forget_path (fileid : Z) (sympath : list Sym) : prog ExMirrorFs unit := fun fs =>
  let m := ex_fsmap fs in
  (Ret tt, mkExMirrorFs (fm_set_paths (delete sympath (fm_path_to_id m))
                           (fm_set_ids (delete fileid (fm_id_to_path m)) m)) (ex_os fs)).

Definition ex_remove (dirid : Z) (filename : filename3) : vfs_method ExMirrorFs unit :=
  try* ent := find_entry dirid in
  do* dir_path := ex_path (fe_name ent) in
  let path := path_push dir_path filename in
  do* meta := ex_sys (os_symlink_metadata path) in
  match meta with
  | Err _ => pret (Err NFS3ERR_NOENT)
  | Ok meta =>
      try* _ := io_error (if metadata_is_dir meta then ex_sys (os_remove_dir path)
                          else ex_sys (os_remove_file path)) in
      do* filesym := ex_intern filename in
      let sympath := fe_name ent ++ [filesym] in
      do* known := lookup_path_id sympath in
      do* _ := match known with
               | Some fileid =>
                   do* _ := forget_path fileid sympath in
                   forget_child dirid fileid
               | None => pret tt
               end in
      do* _ := refresh_entry dirid in
      pret (Ok tt)
  end.

(** The fileid takes its new path: [get_mut(&fileid).unwrap()]. *)
Definition move_path (fileid : Z) (from_sympath to_sympath : list Sym) : prog ExMirrorFs unit := fun fs =>
  let m := ex_fsmap fs in
  match fm_id_to_path m !! fileid with
  | None => (Panic, fs)
  | Some e =>
      (Ret tt, mkExMirrorFs (fm_set_paths (<[to_sympath := fileid]> (delete from_sympath (fm_path_to_id m)))
                               (fm_set_ids (<[fileid := fe_set_name to_sympath e]> (fm_id_to_path m)) m)) (ex_os fs))
  end.

(** The part of [rename] that moves a known id between the children lists. *)
Definition move_child (from_dirid to_dirid fileid : Z) : vfs_method ExMirrorFs unit :=
  if to_dirid =? from_dirid then pret (Ok tt)
  else
    do* _ := forget_child from_dirid fileid in
    do* to_dirent := find_entry to_dirid in
    match to_dirent with
    | Ok to_dirent => insert_child to_dirid fileid to_dirent
    | Err _ => pret (Ok tt)
    end.

Definition ex_rename (from_dirid : Z) (from_filename : filename3) (to_dirid : Z) (to_filename : filename3)
  : vfs_method ExMirrorFs unit :=
  try* from_dirent := find_entry from_dirid in
  do* from_dir := ex_path (fe_name from_dirent) in
  let from_path := path_push from_dir from_filename in
  try* to_dirent := find_entry to_dirid in
  do* to_dir := ex_path (fe_name to_dirent) in
  do* to_exists := ex_on_os (exists_no_traverse to_dir) in
  if negb to_exists then pret (Err NFS3ERR_NOENT)
  else
    let to_path := path_push to_dir to_filename in
    do* from_exists := ex_on_os (exists_no_traverse from_path) in
    if negb from_exists then pret (Err NFS3ERR_NOENT)
    else
      try* _ := io_error (ex_sys (os_rename from_path to_path)) in
      do* oldsym := ex_intern from_filename in
      do* newsym := ex_intern to_filename in
      let from_sympath := fe_name from_dirent ++ [oldsym] in
      let to_sympath := fe_name to_dirent ++ [newsym] in
      do* known := lookup_path_id from_sympath in
      try* _ := match known with
                | Some fileid =>
                    do* _ := move_path fileid from_sympath to_sympath in
                    move_child from_dirid to_dirid fileid
                | None => pret (Ok tt)
                end in
      do* _ := refresh_entry from_dirid in
      do* _ := (if negb (to_dirid =? from_dirid) then (do* _ := refresh_entry to_dirid in pret tt) else pret tt) in
      pret (Ok tt).

(** ** The instance of [NfsFileSystem] *)

Context `{Target}.

Definition ex_handle (e : DirEntryPlus Z) : DirEntryPlus FileHandleU64 :=
  mkDirEntryPlus (dep_fileid e) (dep_name e) (dep_cookie e) (dep_name_attributes e)
    (option_map fh64_new (dep_name_handle e)).

Definition ex_readdirplus_iter : Iterator ExMirrorFs (DirEntryPlus FileHandleU64) := {|
  it_state := ExIterator;
  it_next it :=
    do* (r, it) := ex_next it in
    pret (match r with
          | NextOk e => NextOk (ex_handle e)
          | NextEof => NextEof
          | NextErr e => NextErr e
          end, it);
  it_drop _ := pret tt;
|}.

Definition ex_readdirplus (dirid : FileHandleU64) (cookie : u64) : vfs_method ExMirrorFs ExIterator :=
  ex_iterator_new (fh64_as_u64 dirid) cookie.

Definition ex_lookup_handle (dirid : FileHandleU64) (filename : filename3) : vfs_method ExMirrorFs FileHandleU64 :=
  do* r := ex_lookup (fh64_as_u64 dirid) filename in pret (with_handle r).

(** [readdir], [lookup_by_path], [fsinfo] and [capabilities] are the default ones. *)
Definition example_read_fs : NfsReadFileSystem ExMirrorFs FileHandleU64 := {|
  readdir_iter := ReadDirPlusToReadDir ex_readdirplus_iter;
  readdirplus_iter := ex_readdirplus_iter;
  vfs_root_dir := pret (fh64_new 0);
  vfs_lookup := ex_lookup_handle;
  vfs_lookup_by_path := lookup_by_path_default (pret (fh64_new 0)) ex_lookup_handle;
  vfs_getattr id := ex_getattr (fh64_as_u64 id);
  vfs_read id offset count := ex_read (fh64_as_u64 id) offset count;
  vfs_readdir := readdir_default ex_readdirplus_iter ex_readdirplus;
  vfs_readdirplus := ex_readdirplus;
  vfs_readlink id := ex_readlink (fh64_as_u64 id);
  vfs_fsinfo := fsinfo_default (fun id => ex_getattr (fh64_as_u64 id));
|}.

Definition example_file_system : NfsFileSystem ExMirrorFs FileHandleU64 := {|
  nfs_read_fs := example_read_fs;
  vfs_capabilities := pret ReadWrite;
  vfs_setattr id setattr := ex_setattr (fh64_as_u64 id) setattr;
  vfs_write id offset data := ex_write (fh64_as_u64 id) offset data;
  vfs_create dirid filename attr :=
    do* r := ex_create (fh64_as_u64 dirid) filename attr in pret (with_handle_attr r);
  vfs_create_exclusive dirid filename verf :=
    do* r := ex_create_exclusive (fh64_as_u64 dirid) filename verf in pret (with_handle r);
  vfs_mkdir dirid dirname :=
    do* r := ex_mkdir (fh64_as_u64 dirid) dirname in pret (with_handle_attr r);
  vfs_remove dirid filename := ex_remove (fh64_as_u64 dirid) filename;
  vfs_rename from_dirid from_filename to_dirid to_filename :=
    ex_rename (fh64_as_u64 from_dirid) from_filename (fh64_as_u64 to_dirid) to_filename;
  vfs_symlink dirid linkname symlink attr :=
    do* r := ex_symlink (fh64_as_u64 dirid) linkname symlink attr in pret (with_handle_attr r);
|}.
End example.
