(* ===== verification/MirrorExampleLaws.v ===== *)
(** * Laws of the example file system

    [ex_inv] is the invariant of the map of files: the two tables agree, the names
    are interned, ids are below the next one and children lists are sorted.
    [hoare] is a triple for computations that keep it, and that panic or do not end
    only for a cause that a [Blame] allows; the facts in the precondition are
    [Stable], so that they hold for the rest of a method. *)

From stdpp Require Import sorting.
From S2P Require Import Prelude Xdr XdrLaws Nfs3Types Handle Vfs FsUtil NfsHandlersLaws Mirror MirrorLaws MirrorExample.
Open Scope Z_scope.
Open Scope nfs_scope.

Create HintDb example.

(** ** Sorted vectors *)

Lemma filter_true (P : Z -> Prop) `{forall x, Decision (P x)} l : Forall P l -> filter P l = l.
Proof. induction 1 as [|x l Hx _ IH]; [done|]. rewrite filter_cons, decide_True by done. by rewrite IH. Qed.

Lemma Forall_sublist {A} (P : A -> Prop) l l' : l' `sublist_of` l -> Forall P l -> Forall P l'.
Proof. rewrite !Forall_forall. intros Hl HP x Hx. apply HP. by eapply sublist_subseteq. Qed.

Lemma Zle_StronglySorted l : Sorted Z.le l -> StronglySorted Z.le l.
Proof. apply Sorted_StronglySorted. intros x y z. lia. Qed.

Lemma binary_search_drop x l :
  StronglySorted Z.lt l ->
  drop (match binary_search x l with Ok pos => S pos | Err pos => pos end) l = filter (fun y => x < y) l.
Proof.
  induction 1 as [|y l Hs IH Hy]; [done|]. cbn [binary_search]. rewrite filter_cons.
  destruct (Z.leb_spec x y) as [Hle|Hlt].
  - assert (filter (fun z => x < z) l = l) as Hall.
    { apply filter_true. eapply Forall_impl; [exact Hy|]. cbn. lia. }
    destruct (Z.eqb_spec x y) as [->|Hne]; cbn [drop].
    + rewrite decide_False by lia. by rewrite Hall.
    + rewrite decide_True by lia. by rewrite Hall.
  - rewrite decide_False by lia. rewrite <- IH. by destruct (binary_search x l).
Qed.

Lemma add_child_sorted x l l' : Sorted Z.le l -> add_child x l = Some l' -> Sorted Z.le l' /\ l' ≡ₚ x :: l.
Proof.
  unfold add_child. intros Hs%Zle_StronglySorted. revert l'.
  induction Hs as [|y l Hs IH Hy]; intros l'; cbn [binary_search].
  - intros [= <-]. split; [|done]. by repeat constructor.
  - destruct (Z.leb_spec x y) as [Hle|Hlt].
    + destruct (Z.eqb_spec x y) as [->|Hne]; [done|]. intros [= <-]. split; [|done].
      apply StronglySorted_Sorted. constructor; [by constructor|].
      constructor; [lia|]. eapply Forall_impl; [exact Hy|]. cbn. lia.
    + destruct (binary_search x l) as [i|i]; [done|]. intros [= <-].
      destruct (IH _ eq_refl) as [Hs' Hp']. unfold vec_insert in *. cbn [take drop app]. split.
      * apply StronglySorted_Sorted. constructor; [by apply Zle_StronglySorted|].
        rewrite Hp'. constructor; [lia|done].
      * rewrite Hp'. apply perm_swap.
Qed.

Lemma unlist_child_sub x l : unlist_child x l `sublist_of` l.
Proof.
  unfold unlist_child. destruct (binary_search x l) as [i|]; [|done]. unfold vec_remove.
  rewrite <- (take_drop i l) at 3. apply sublist_app; [done|].
  replace (drop (S i) l) with (drop 1 (drop i l)) by (rewrite drop_drop; f_equal; lia).
  apply sublist_drop.
Qed.

Lemma sublist_sorted (l l' : list Z) : l' `sublist_of` l -> StronglySorted Z.le l -> StronglySorted Z.le l'.
Proof.
  induction 1 as [|y l' l Hl IH|y l' l Hl IH]; intros Hs; [done|..]; apply StronglySorted_inv in Hs as [Hs Hy].
  - constructor; [by apply IH|]. by eapply Forall_sublist.
  - by apply IH.
Qed.

Lemma unlist_child_sorted x l : Sorted Z.le l -> Sorted Z.le (unlist_child x l).
Proof.
  intros Hs%Zle_StronglySorted. apply StronglySorted_Sorted.
  eapply sublist_sorted; [apply unlist_child_sub|done].
Qed.

(** An id that is added was not there. *)
Lemma binary_search_missing x l i : StronglySorted Z.le l -> binary_search x l = Err i -> x ∉ l.
Proof.
  intros Hs. revert i. induction Hs as [|y l Hs IH Hy]; intros i; [by intros _ ?%not_elem_of_nil|]. cbn [binary_search].
  destruct (Z.leb_spec x y) as [Hle|Hlt].
  - destruct (Z.eqb_spec x y) as [->|Hne]; [done|]. intros _ [->|Hx]%elem_of_cons; [done|].
    rewrite Forall_forall in Hy. specialize (Hy x Hx). lia.
  - destruct (binary_search x l) as [j|j]; [done|]. intros _ [->|Hx]%elem_of_cons; [lia|]. by apply (IH j).
Qed.

Lemma add_child_NoDup x l l' : Sorted Z.le l -> add_child x l = Some l' -> NoDup l -> NoDup l'.
Proof.
  intros Hs Ha Hl. destruct (add_child_sorted _ _ _ Hs Ha) as [_ ->]. constructor; [|done].
  unfold add_child in Ha. destruct (binary_search x l) as [i|i] eqn:E; [done|].
  eapply binary_search_missing; [by apply Zle_StronglySorted|exact E].
Qed.

Lemma unlist_child_NoDup x l : NoDup l -> NoDup (unlist_child x l).
Proof. intros Hl. eapply sublist_NoDup; [exact Hl|apply unlist_child_sub]. Qed.

Section laws.
Context {T Sym OS RD F : Type} `{!SymbolTable T Sym} `{!CheckInterned T Sym} `{Countable Sym}.
Context `{!Os OS RD F} `{!OsMore OS RD F} `{!SymbolTableLaws T Sym}.
Context {dir_bound : nat}.
Local Abbreviation Map := (@FSMap T Sym _ _).
Local Abbreviation St := (@ExMirrorFs T Sym OS _ _).
Local Abbreviation Entry := (@FSEntry Sym).
Implicit Types (fs : St) (m : Map) (p : list Sym).

(** ** What the system may do *)

(** A directory stream gives these names, and the system the attributes of each. *)
Inductive streamed : list path -> RD -> OS -> RD -> OS -> Prop :=
| streamed_nil rd os : streamed [] rd os rd os
| streamed_cons name names rd rd1 rd' os os1 os2 os' meta :
    os_next_entry rd os = ((Ok (Some name), rd1), os1) -> os_entry_metadata rd1 name os1 = (Ok meta, os2) ->
    streamed names rd1 os2 rd' os' -> streamed (name :: names) rd os rd' os'.

(** A stream that the system has opened, and the names that it has given since. *)
Definition streaming (names : list path) (rd : RD) (os : OS) : Prop :=
  exists (q : path) os0 rd1 os1, os_read_dir q os0 = (Ok rd1, os1) /\ streamed names rd1 os1 rd os.

(** No stream gives a name twice. *)
Definition names_distinct : Prop := forall names rd os, streaming names rd os -> NoDup names.

(** ** The invariant *)

Definition children_ok (next : Z) (e : Entry) : Prop :=
  match fe_children e with
  | Some l => Sorted Z.le l /\ Forall (fun c => 0 < c < next) l /\ (names_distinct -> NoDup l)
  | None => True
  end.

Record map_inv m : Prop := {
  mi_symbols : st_ok (fm_intern m);
  (** an id stands for the path under which it is found *)
  mi_paths : forall p i, fm_path_to_id m !! p = Some i -> exists e, fm_id_to_path m !! i = Some e /\ fe_name e = p;
  mi_names : forall i e, fm_id_to_path m !! i = Some e -> is_Some (names_of (fm_intern m) (fe_name e));
  mi_root : forall i e, fm_id_to_path m !! i = Some e -> fe_name e = [] <-> i = 0;
  mi_range : forall i e, fm_id_to_path m !! i = Some e -> 0 <= i < fm_next_fileid m;
  mi_next : 1 <= fm_next_fileid m <= u64_MAX;
  mi_children : forall i e, fm_id_to_path m !! i = Some e -> children_ok (fm_next_fileid m) e;
}.

Definition ex_inv fs : Prop := map_inv (ex_fsmap fs).

Definition interned fs p : Prop := is_Some (names_of (fm_intern (ex_fsmap fs)) p).

(** What no step takes back; an id that is gone stays gone, and at most [n] ids
    are given out. *)
Record ex_grows (n : Z) fs fs' : Prop := {
  eg_root : fm_root (ex_fsmap fs') = fm_root (ex_fsmap fs);
  eg_get : forall s name, st_get (fm_intern (ex_fsmap fs)) s = Some name ->
                          st_get (fm_intern (ex_fsmap fs')) s = Some name;
  eg_dead : forall i, i < fm_next_fileid (ex_fsmap fs) -> fm_id_to_path (ex_fsmap fs) !! i = None ->
                      fm_id_to_path (ex_fsmap fs') !! i = None;
  eg_next : fm_next_fileid (ex_fsmap fs) <= fm_next_fileid (ex_fsmap fs') <= fm_next_fileid (ex_fsmap fs) + n;
}.

Lemma ex_grows_refl n fs : 0 <= n -> ex_grows n fs fs.
Proof. intros Hn. split; [done|done|done|lia]. Qed.

Lemma ex_grows_trans n1 n2 n fs1 fs2 fs3 :
  ex_grows n1 fs1 fs2 -> ex_grows n2 fs2 fs3 -> n1 + n2 <= n -> ex_grows n fs1 fs3.
Proof.
  intros [R1 G1 D1 N1] [R2 G2 D2 N2] Hn. split; [congruence|auto| |lia]. intros i Hi Hd. apply D2; [lia|auto].
Qed.

(** ** Facts that stay true *)

Class Stable (X : St -> Prop) : Prop := stable n fs fs' : ex_grows n fs fs' -> X fs -> X fs'.

#[export] Instance stable_pure (X : Prop) : Stable (fun _ => X).
Proof. by intros n fs fs' _. Qed.

#[export] Instance stable_and X Y : Stable X -> Stable Y -> Stable (fun fs => X fs /\ Y fs).
Proof. intros HX HY n fs fs' Hg [? ?]. split; [by eapply HX|by eapply HY]. Qed.

#[export] Instance stable_interned p : Stable (fun fs => interned fs p).
Proof. intros n fs fs' [_ Hg _ _] [ns Hn]. exists ns. by eapply names_of_keeps. Qed.

#[export] Instance stable_get s name : Stable (fun fs => st_get (fm_intern (ex_fsmap fs)) s = Some name).
Proof. intros n fs fs' [_ Hg _ _] Hs. by apply Hg. Qed.

Definition child_id fs (i : Z) : Prop := 0 < i < fm_next_fileid (ex_fsmap fs).

#[export] Instance stable_child i : Stable (fun fs => child_id fs i).
Proof. intros n fs fs' [_ _ _ Hn] Hi. unfold child_id in *. lia. Qed.

#[export] Instance stable_children l : Stable (fun fs => Forall (child_id fs) l).
Proof. intros n fs fs' Hg Hl. eapply Forall_impl; [exact Hl|]. intros i. exact (stable_child i n fs fs' Hg). Qed.

#[export] Instance stable_children_ok e : Stable (fun fs => children_ok (fm_next_fileid (ex_fsmap fs)) e).
Proof.
  intros n fs fs' [_ _ _ Hn]. unfold children_ok. destruct (fe_children e) as [l|]; [|done].
  intros (Hs & Hl & Hd). split_and!; [done| |done]. eapply Forall_impl; [exact Hl|]. cbn. lia.
Qed.

Lemma interned_snoc fs p s name : interned fs p -> st_get (fm_intern (ex_fsmap fs)) s = Some name -> interned fs (p ++ [s]).
Proof. intros [ns Hn] Hs. exists (ns ++ [name]). by apply names_of_app. Qed.

(** ** Triples *)

(** The states in which a method may have panicked, or not have ended: those in which
    the symbol table is full; the system has just failed to give the attributes of
    an entry that it has just listed; the children of some id have no end; or a stream
    has given more entries than [dir_bound]. *)
Class Blame : Type := mkBlame {
  may_panic : St -> Prop;
  may_diverge : St -> Prop;
  bl_full fs name : st_intern name (fm_intern (ex_fsmap fs)) = None -> may_panic fs;
  bl_gone fs names rd os name rd1 os1 e :
    streaming names rd os -> os_next_entry rd os = ((Ok (Some name), rd1), os1) ->
    os_entry_metadata rd1 name os1 = (Err e, ex_os fs) -> may_panic fs;
  bl_tangled fs id :
    collect_all_children (collect_fuel (fm_id_to_path (ex_fsmap fs))) (fm_id_to_path (ex_fsmap fs)) id = OutOfFuel ->
    may_diverge fs;
  bl_stream fs names rd : length names = S dir_bound -> streaming names rd (ex_os fs) -> may_diverge fs;
}.

(** Any method may panic or not end: what is left is what it does to the map. *)
Definition any_blame : Blame :=
  mkBlame (fun _ => True) (fun _ => True) (fun _ _ _ => Logic.I) (fun _ _ _ _ _ _ _ _ _ _ _ => Logic.I)
    (fun _ _ _ => Logic.I) (fun _ _ _ _ _ => Logic.I).

Context `{B : !Blame}.

Definition excused {A} (r : outcome A * St) : Prop :=
  match fst r with Ret _ => True | Panic => may_panic (snd r) | OutOfFuel => may_diverge (snd r) end.

(** From a state with the invariant, with [n] ids left and [X], the computation
    keeps the invariant; if it returns then [Q], and otherwise it is [excused]. *)
Definition hoare {A} (n : Z) (X : St -> Prop) (c : prog St A) (Q : A -> St -> Prop) : Prop :=
  forall fs, ex_inv fs -> fm_next_fileid (ex_fsmap fs) + n <= u64_MAX -> X fs ->
    excused (c fs) /\ ex_inv (snd (c fs)) /\ ex_grows n fs (snd (c fs)) /\
    forall a, fst (c fs) = Ret a -> Q a (snd (c fs)).

(** The facts [Y] are known to the first computation only. *)
Lemma hoare_consume {A C} n1 n2 n X (Y : St -> Prop) (c : prog St A) Q (k : A -> prog St C) R `{!Stable X} :
  hoare n1 (fun fs => X fs /\ Y fs) c Q -> (forall a, hoare n2 (fun fs => X fs /\ Q a fs) (k a) R) ->
  0 <= n1 -> 0 <= n2 -> n1 + n2 <= n -> hoare n (fun fs => X fs /\ Y fs) (pbind c k) R.
Proof.
  intros Hc Hk H1 H2 Hn fs Hi Hroom HX. unfold pbind.
  destruct (Hc fs Hi ltac:(lia) HX) as (Hp & Hi1 & Hg1 & HQ). destruct HX as [HX _].
  destruct (c fs) as [[a| |] fs1]; cbn [fst snd] in *.
  - pose proof (eg_next _ _ _ Hg1) as Hn1.
    destruct (Hk a fs1 Hi1 ltac:(lia)) as (Hp2 & Hi2 & Hg2 & HR).
    { split; [by eapply stable|by apply HQ]. }
    split_and!; [done|done| |done]. by eapply ex_grows_trans.
  - split_and!; [exact Hp|done| |done]. eapply ex_grows_trans; [exact Hg1|by apply (ex_grows_refl n2)|lia].
  - split_and!; [exact Hp|done| |done]. eapply ex_grows_trans; [exact Hg1|by apply (ex_grows_refl n2)|lia].
Qed.

Lemma hoare_bind {A C} n1 n2 n X (c : prog St A) Q (k : A -> prog St C) R `{!Stable X} :
  hoare n1 X c Q -> (forall a, hoare n2 (fun fs => X fs /\ Q a fs) (k a) R) -> 0 <= n1 -> 0 <= n2 -> n1 + n2 <= n ->
  hoare n X (pbind c k) R.
Proof.
  intros Hc Hk H1 H2 Hn fs Hi Hroom HX.
  apply (hoare_consume n1 n2 n X (fun _ => True) c Q k R); try done. intros fs0 Hi0 Hr0 [HX0 _]. by apply Hc.
Qed.

Lemma hoare_pret {A} n X (a : A) (Q : A -> St -> Prop) : 0 <= n -> (forall fs, ex_inv fs -> X fs -> Q a fs) -> hoare n X (pret a) Q.
Proof. intros Hn HQ fs Hi _ HX. split_and!; [done|done|by apply ex_grows_refl|]. intros ? [= <-]. by apply HQ. Qed.

Lemma hoare_weaken {A} n n' X X' (c : prog St A) (Q Q' : A -> St -> Prop) :
  hoare n X c Q -> n <= n' -> (forall fs, X' fs -> X fs) -> (forall a fs, Q a fs -> Q' a fs) -> hoare n' X' c Q'.
Proof.
  intros Hc Hn HX HQ fs Hi Hroom HX'. destruct (Hc fs Hi ltac:(lia) (HX _ HX')) as (? & ? & [] & ?).
  split_and!; [done|done| |by auto]. split; [done|done|done|lia].
Qed.

(** A computation that does not panic and leaves the map as it is. *)
Lemma hoare_sys {A} X (c : OS -> A * OS) : hoare 0 X (ex_sys c) (fun _ _ => True).
Proof.
  intros fs Hi _ _. unfold ex_sys, ex_on_os, sys. destruct (c (ex_os fs)) as [a os].
  split_and!; [done|exact Hi|by split; [..|cbn; lia]|done].
Qed.

Lemma hoare_read {A} X (k : Map -> A) (Q : A -> St -> Prop) :
  (forall fs, ex_inv fs -> X fs -> Q (k (ex_fsmap fs)) fs) -> hoare 0 X (fun fs => (Ret (k (ex_fsmap fs)), fs)) Q.
Proof. intros Hk fs Hi _ HX. split_and!; [done|done|by apply ex_grows_refl|]. intros ? [= <-]. by apply Hk. Qed.

(** ** System calls that return *)

Definition calm {A} (c : prog OS A) : Prop := forall os, exists a os', c os = (Ret a, os').

Lemma calm_sys {A} (c : OS -> A * OS) : calm (sys c).
Proof. intros os. unfold sys. destruct (c os). by do 2 eexists. Qed.

Lemma calm_pret {A} (a : A) : calm (pret a : prog OS A).
Proof. intros os. by do 2 eexists. Qed.

Lemma calm_bind {A C} (c : prog OS A) (k : A -> prog OS C) : calm c -> (forall a, calm (k a)) -> calm (pbind c k).
Proof. intros Hc Hk os. unfold pbind. destruct (Hc os) as (a & os' & ->). apply Hk. Qed.

Lemma calm_path_setattr (p : path) a : calm (path_setattr p a).
Proof.
  unfold path_setattr, path_set_atime, path_set_mtime, path_set_mode, path_set_size, tbind, map_err.
  repeat first [apply calm_bind; [|intros ?] | apply calm_sys | apply calm_pret | case_match].
Qed.

Lemma calm_file_setattr f a : calm (file_setattr f a).
Proof.
  unfold file_setattr, file_set_mode, tbind, map_err.
  repeat first [apply calm_bind; [|intros ?] | apply calm_sys | apply calm_pret | case_match].
Qed.

Lemma calm_exists (p : path) : calm (exists_no_traverse p).
Proof. apply calm_bind; [apply calm_sys|intros ?; apply calm_pret]. Qed.

Lemma hoare_on_os {A} X (c : prog OS A) : calm c -> hoare 0 X (ex_on_os c) (fun _ _ => True).
Proof.
  intros Hc fs Hi _ _. unfold ex_on_os. destruct (Hc (ex_os fs)) as (a & os & ->).
  split_and!; [done|exact Hi|by split; [..|cbn; lia]|done].
Qed.

(** ** The operations on the map *)

Lemma hoare_find_entry X id :
  hoare 0 X (find_entry id) (fun r fs => match r with
    | Ok e => interned fs (fe_name e) /\ children_ok (fm_next_fileid (ex_fsmap fs)) e
    | Err _ => True
    end).
Proof.
  apply (hoare_read X (fun m => ok_or (fm_id_to_path m !! id) NFS3ERR_NOENT)). intros fs Hi _.
  destruct (_ !! id) as [e|] eqn:E; [|done]. split; [by eapply mi_names|by eapply mi_children].
Qed.

Lemma resolve_path_total (t : T) p acc : is_Some (names_of t p) -> exists q, resolve_path_from t acc p = Ret q.
Proof.
  unfold names_of. intros [ns Hn]. apply mapM_Some in Hn. revert acc.
  induction Hn as [|s n p ns Hs _ IH]; intros acc; cbn; [by eexists|]. rewrite Hs. apply IH.
Qed.

Lemma hoare_path X p : (forall fs, X fs -> interned fs p) -> hoare 0 X (ex_path p) (fun _ _ => True).
Proof.
  intros HX fs Hi _ Hfs. unfold ex_path. destruct (resolve_path_total (fm_intern (ex_fsmap fs)) p (fm_root (ex_fsmap fs)) (HX _ Hfs)) as [q Hq].
  unfold sym_to_path. rewrite Hq. split_and!; [done|done|by apply ex_grows_refl|done].
Qed.

Lemma hoare_find_child X id name : hoare 0 X (find_child id name) (fun _ _ => True).
Proof. intros fs Hi _ _. split_and!; [done|done|by apply ex_grows_refl|done]. Qed.

Lemma alter_dead m id f i :
  i < fm_next_fileid m -> fm_id_to_path m !! i = None -> alter f id (fm_id_to_path m) !! i = None.
Proof. intros _ Hd. rewrite lookup_alter_None. done. Qed.

(** Replacing the attributes or the children of an entry. *)
Lemma map_inv_alter m id f :
  map_inv m -> (forall e, fe_name (f e) = fe_name e) ->
  (forall e, fm_id_to_path m !! id = Some e -> children_ok (fm_next_fileid m) (f e)) ->
  map_inv (fm_set_ids (alter f id (fm_id_to_path m)) m).
Proof.
  intros [H1 H2 H3 H4 H5 H6 H7] Hf Hc.
  assert (forall i e, alter f id (fm_id_to_path m) !! i = Some e ->
    exists e0, fm_id_to_path m !! i = Some e0 /\ fe_name e = fe_name e0 /\ children_ok (fm_next_fileid m) e) as Ha.
  { intros i e [(<- & e0 & E & ->)|[_ E]]%lookup_alter_Some; exists e0 || exists e; eauto. }
  split; cbn; try done.
  - intros p i (e & E & <-)%H2. destruct (decide (id = i)) as [->|Hne].
    + exists (f e). by rewrite lookup_alter_eq, E, Hf.
    + exists e. by rewrite lookup_alter_ne.
  - intros i e (e0 & E & -> & _)%Ha. by eapply H3.
  - intros i e (e0 & E & -> & _)%Ha. by eapply H4.
  - intros i e (e0 & E & _)%Ha. by eapply H5.
  - by intros i e (e0 & E & _ & ?)%Ha.
Qed.

Lemma hoare_update X id f :
  (forall e, fe_name (f e) = fe_name e) ->
  (forall fs e, ex_inv fs -> X fs -> fm_id_to_path (ex_fsmap fs) !! id = Some e ->
     children_ok (fm_next_fileid (ex_fsmap fs)) (f e)) ->
  hoare 0 X (update_entry id f) (fun _ _ => True).
Proof.
  intros Hf Hc fs Hi _ HX. split_and!; [done| |split; [done|done|apply alter_dead|cbn; lia]|done].
  apply map_inv_alter; [done..|]. intros e. by apply Hc.
Qed.

Lemma hoare_set_meta X id meta : hoare 0 X (update_entry id (fe_set_fsmeta meta)) (fun _ _ => True).
Proof. apply hoare_update; [done|]. intros fs e Hi _ E. exact (mi_children _ Hi _ _ E). Qed.

Lemma hoare_intern X name :
  hoare 0 X (ex_intern name) (fun s fs => st_get (fm_intern (ex_fsmap fs)) s = Some name).
Proof.
  intros fs Hi _ _. unfold ex_intern. pose proof (mi_symbols _ Hi) as Ht.
  destruct (st_intern name (fm_intern (ex_fsmap fs))) as [[s t]|] eqn:E; cycle 1.
  { split_and!; [by eapply bl_full|done|by apply ex_grows_refl|done]. }
  assert (forall s2 n2, st_get (fm_intern (ex_fsmap fs)) s2 = Some n2 -> st_get t s2 = Some n2) as Hk
    by (intros; by eapply st_intern_keeps).
  split_and!; [done| |by split; [done|exact Hk|done|cbn; lia]|].
  - destruct Hi as [H1 H2 H3 H4 H5 H6 H7]. split; cbn; try done; [by eapply st_intern_ok|].
    intros i e [ns Hn]%H3. exists ns. by eapply names_of_keeps.
  - intros ? [= <-]. by eapply st_intern_get.
Qed.

(** Removing an id with the path it stands for. *)
Lemma map_inv_forget m i e :
  map_inv m -> fm_id_to_path m !! i = Some e ->
  map_inv (fm_set_paths (delete (fe_name e) (fm_path_to_id m)) (fm_set_ids (delete i (fm_id_to_path m)) m)).
Proof.
  intros [H1 H2 H3 H4 H5 H6 H7] E.
  split; cbn; try done; try (intros j e' [_ E']%lookup_delete_Some; eauto; fail).
  intros p j [Hne (e' & E' & <-)%H2]%lookup_delete_Some. exists e'. split; [|done].
  rewrite lookup_delete_ne; [done|]. intros ->. congruence.
Qed.

Lemma delete_one_inv m i : map_inv m -> map_inv (delete_one m i).
Proof. intros Hm. unfold delete_one. destruct (_ !! i) as [e|] eqn:E; [|done]. by apply map_inv_forget. Qed.

Lemma delete_one_rest m i :
  fm_root (delete_one m i) = fm_root m /\ fm_intern (delete_one m i) = fm_intern m /\
  fm_next_fileid (delete_one m i) = fm_next_fileid m /\ fm_id_to_path (delete_one m i) ⊆ fm_id_to_path m /\
  fm_path_to_id (delete_one m i) ⊆ fm_path_to_id m.
Proof. unfold delete_one. destruct (_ !! i); split_and!; try done; cbn; apply delete_subseteq. Qed.

Lemma delete_all_rest l m :
  fm_root (foldl delete_one m l) = fm_root m /\ fm_intern (foldl delete_one m l) = fm_intern m /\
  fm_next_fileid (foldl delete_one m l) = fm_next_fileid m /\ fm_id_to_path (foldl delete_one m l) ⊆ fm_id_to_path m /\
  fm_path_to_id (foldl delete_one m l) ⊆ fm_path_to_id m.
Proof.
  revert m. induction l as [|i l IH]; intros m; [done|]. cbn.
  destruct (IH (delete_one m i)) as (-> & -> & -> & HA & HB). destruct (delete_one_rest m i) as (-> & -> & -> & HC & HD).
  split_and!; try done; by etrans.
Qed.

Lemma collect_no_panic fuel (ids : gmap Z Entry) id : collect_all_children fuel ids id <> Panic.
Proof.
  revert id. induction fuel as [|fuel IH]; intros id; [done|]. cbn [collect_all_children].
  destruct (ids !! id) as [e|]; [|done]. destruct (fe_children e) as [l|]; [|done].
  generalize [id]. induction l as [|i l IHl]; intros ret; [done|].
  specialize (IH i). destruct (collect_all_children fuel ids i); [apply IHl|done..].
Qed.

Lemma hoare_delete_entry X id : hoare 0 X (delete_entry id) (fun _ _ => True).
Proof.
  intros fs Hi _ _. unfold delete_entry. pose proof (collect_no_panic (collect_fuel (fm_id_to_path (ex_fsmap fs))) (fm_id_to_path (ex_fsmap fs)) id).
  destruct (collect_all_children _ _ id) as [l| |] eqn:E; [|done|]; cycle 1.
  { split_and!; [by eapply bl_tangled|done|by apply ex_grows_refl|done]. }
  destruct (delete_all_rest l (ex_fsmap fs)) as (Hr & Ht & Hn & Hids & _). split_and!; [done| | |done].
  - unfold ex_inv. cbn. clear -Hi. unfold ex_inv in Hi. revert Hi. generalize (ex_fsmap fs).
    induction l as [|i l IH]; intros m Hm; [done|]. cbn. by apply IH, delete_one_inv.
  - split; cbn; rewrite ?Hr, ?Ht, ?Hn; [done|done| |lia]. intros i _ Hd. by eapply lookup_weaken_None.
Qed.

(** Adding an id with its path. *)
Lemma map_inv_add m p e :
  map_inv m -> fm_path_to_id m !! p = None -> is_Some (names_of (fm_intern m) p) -> p <> [] ->
  fm_next_fileid m < u64_MAX -> fe_name e = p -> fe_children e = None ->
  map_inv (mkFSMap (fm_root m) ((fm_next_fileid m + 1) mod 2 ^ 64) (fm_intern m)
    (<[fm_next_fileid m := e]> (fm_id_to_path m)) (<[p := fm_next_fileid m]> (fm_path_to_id m))) /\
  (fm_next_fileid m + 1) mod 2 ^ 64 = fm_next_fileid m + 1.
Proof.
  intros [H1 H2 H3 H4 H5 H6 H7] Hp Hn Hne Hlt He Hc.
  assert ((fm_next_fileid m + 1) mod 2 ^ 64 = fm_next_fileid m + 1) as Hnext.
  { apply Z.mod_small. unfold u64_MAX in *. lia. }
  rewrite Hnext. split; [|done]. split; cbn; [done|..].
  - intros q i [[<- <-]|[Hq (e' & E & <-)%H2]]%lookup_insert_Some.
    + exists e. split; [apply lookup_insert_eq|done].
    + exists e'. split; [|done]. rewrite lookup_insert_ne; [done|]. apply H5 in E. lia.
  - intros i e' [[<- <-]|[_ E]]%lookup_insert_Some; [by rewrite He|by eapply H3].
  - intros i e' [[<- <-]|[_ E]]%lookup_insert_Some; [|by eapply H4]. rewrite He. split; [done|lia].
  - intros i e' [[<- <-]|[_ E]]%lookup_insert_Some; [lia|]. apply H5 in E. lia.
  - unfold u64_MAX in *. lia.
  - intros i e' [[<- <-]|[_ E]]%lookup_insert_Some; [unfold children_ok; by rewrite Hc|].
    apply H7 in E. unfold children_ok in *. destruct (fe_children e'); [|done]. destruct E as (Hs & Hf & Hd). split_and!; [done| |done].
    eapply Forall_impl; [exact Hf|]. cbn. lia.
Qed.

Lemma hoare_create_entry X p meta :
  p <> [] -> (forall fs, X fs -> interned fs p) -> hoare 1 X (create_entry p meta) (fun id fs => child_id fs id).
Proof.
  intros Hne HX fs Hi Hroom Hfs. unfold create_entry. destruct (fm_path_to_id (ex_fsmap fs) !! p) as [id|] eqn:Ep.
  - split_and!; [done| |split; [done|done|apply alter_dead|cbn; lia]|].
    + apply map_inv_alter; [done..|]. intros e E. exact (mi_children _ Hi _ _ E).
    + intros ? [= <-]. destruct (mi_paths _ Hi _ _ Ep) as (e & E & En). unfold child_id. cbn.
      pose proof (mi_range _ Hi _ _ E). pose proof (mi_root _ Hi _ _ E). destruct (decide (id = 0)); [subst; naive_solver|lia].
  - destruct (map_inv_add (ex_fsmap fs) p (mkFSEntry p (metadata_to_fattr3 (fm_next_fileid (ex_fsmap fs)) meta)
      (metadata_to_fattr3 (fm_next_fileid (ex_fsmap fs)) meta) None) Hi Ep (HX _ Hfs) Hne ltac:(lia) eq_refl eq_refl) as [Hm Hnext].
    pose proof (mi_next _ Hi). split_and!; [done|exact Hm| |].
    + split; cbn -[Z.pow]; rewrite ?Hnext; [done|done| |lia]. intros i Hlt Hd. rewrite lookup_insert_ne; [done|lia].
    + intros ? [= <-]. unfold child_id. cbn -[Z.pow]. rewrite Hnext. lia.
Qed.

(** ** Methods *)

Lemma hoare_map_err {A E E'} X (f : E -> E') (c : prog St (result A E)) n :
  hoare n X c (fun _ _ => True) -> 0 <= n -> hoare n X (map_err f c) (fun _ _ => True).
Proof.
  intros Hc Hn fs Hi Hroom HX. unfold map_err, pbind. destruct (Hc fs Hi Hroom HX) as (? & ? & ? & _).
  by destruct (c fs) as [[]].
Qed.

Lemma hoare_any {A} n X (c : prog St A) Q : hoare n X c Q -> hoare n X c (fun _ _ => True).
Proof. intros Hc. by eapply hoare_weaken. Qed.

Lemma hoare_ppanic {A} n X (Q : A -> St -> Prop) : 0 <= n -> (forall fs, X fs -> may_panic fs) -> hoare n X ppanic Q.
Proof. intros Hn HX fs Hi _ Hfs. split_and!; [by apply HX|done|by apply ex_grows_refl|done]. Qed.
End laws.

#[export] Hint Resolve hoare_sys hoare_on_os hoare_find_entry hoare_path hoare_find_child hoare_set_meta hoare_intern
  hoare_delete_entry calm_sys calm_exists calm_path_setattr calm_file_setattr : example.
#[export] Hint Extern 3 (hoare _ _ (io_error _) _) => apply hoare_map_err; [|done] : example.
#[export] Hint Extern 3 (hoare _ _ (map_err _ _) _) => apply hoare_map_err; [|done] : example.
#[export] Hint Extern 1 (Stable _) => apply _ : example.
#[export] Hint Extern 1 (forall fs, _ -> interned fs _) => (cbn beta; intros; destruct_and?; assumption) : example.

(** One step of a method that needs no id. *)
Ltac ex_step :=
  match goal with
  | |- hoare _ _ (pret _) _ => apply hoare_pret; [lia|done]
  | |- hoare ?n _ (pbind _ _) _ => eapply (hoare_bind 0 n n); [apply _|solve [eauto with example]|intros ?; cbn beta|lia..]
  | |- hoare ?n _ (tbind _ _) _ => eapply (hoare_bind 0 n n); [apply _|solve [eauto with example]|intros [?|?]; cbn beta iota|lia..]
  | |- hoare _ _ (match ?r with _ => _ end) _ => destruct r; cbn beta iota
  | |- hoare _ _ (if ?r then _ else _) _ => destruct r
  end.

Section methods.
Context {T Sym OS RD F : Type} `{!SymbolTable T Sym} `{!CheckInterned T Sym} `{Countable Sym}.
Context `{!Os OS RD F} `{!OsMore OS RD F} `{!SymbolTableLaws T Sym}.
Context (dir_bound : nat) `{B : !Blame (T := T) (Sym := Sym) (OS := OS) (dir_bound := dir_bound)}.
Local Abbreviation St := (@ExMirrorFs T Sym OS _ _).
Local Abbreviation ids fs := (fm_id_to_path (ex_fsmap fs)).
Local Abbreviation paths fs := (fm_path_to_id (ex_fsmap fs)).
Local Abbreviation symbols fs := (fm_intern (ex_fsmap fs)).
Implicit Types (fs : St) (X : St -> Prop).

(** The triple of a computation whose causes are known otherwise. *)
Lemma hoare_strict {A} n X (c : prog St A) Q :
  hoare (B := any_blame (dir_bound := dir_bound)) n X c Q -> (forall fs, ex_inv fs -> X fs -> excused (c fs)) -> hoare n X c Q.
Proof. intros Hc Hd fs Hi Hroom HX. destruct (Hc fs Hi Hroom HX) as (_ & ? & ? & ?). split_and!; [by apply Hd|done..]. Qed.

Lemma hoare_fuel {A} n X Q : 0 <= n -> hoare (B := any_blame (dir_bound := dir_bound)) n X (fun fs => (@OutOfFuel A, fs)) Q.
Proof. intros Hn fs Hi _ _. split_and!; [done|done|by apply ex_grows_refl|done]. Qed.

Lemma hoare_refresh_entry X id `{!Stable X} : hoare 0 X (refresh_entry id) (fun _ _ => True).
Proof. unfold refresh_entry. repeat ex_step. Qed.

Lemma hoare_make_object X p object `{!Stable X} : hoare 0 X (make_object p object) (fun _ _ => True).
Proof. unfold make_object. repeat ex_step; eauto with example. Qed.

#[local] Hint Resolve hoare_refresh_entry hoare_make_object : example.

(** ** Listing a directory again *)

Lemma hoare_relist fuel X p rd l `{!Stable X} :
  (forall fs, X fs -> interned fs p) ->
  hoare (B := any_blame (dir_bound := dir_bound)) (Z.of_nat fuel) (fun fs => X fs /\ Forall (child_id fs) l) (relist_loop fuel p rd l)
    (fun r fs => match r with Ok l => Forall (child_id fs) l | Err _ => True end).
Proof.
  intros HX. revert rd l. induction fuel as [|fuel IH]; intros rd l; cbn [relist_loop]; [by apply hoare_fuel|].
  eapply (hoare_bind 0 (Z.of_nat (S fuel))); [apply _|apply hoare_sys|intros [[[name|]|e] rd']; cbn beta iota|lia..].
  - eapply (hoare_bind 0 (Z.of_nat (S fuel))); [apply _|by apply hoare_intern|intros s; cbn beta|lia..].
    eapply (hoare_bind 0 (Z.of_nat (S fuel))); [apply _|apply hoare_sys|intros [meta|e]; cbn beta iota|lia..].
    + eapply (hoare_bind 1 (Z.of_nat fuel)); [apply _|apply hoare_create_entry|intros id; cbn beta|lia..].
      * by destruct p.
      * intros fs Hfs. destruct_and!. by eapply interned_snoc; [apply HX|].
      * eapply hoare_weaken; [apply IH|done|..|done]. cbn. intros fs Hfs. destruct_and!. split; [done|].
        apply Forall_app. by split; [|apply Forall_singleton].
    + by apply hoare_ppanic; [lia|].
  - apply hoare_pret; [lia|]. by intros fs _ [[_ ?] _].
  - by apply hoare_pret; [lia|].
Qed.

(** Why a listing stops without a result. *)
Lemma relist_stops fuel p rd l fs :
  match relist_loop fuel p rd l fs with
  | (Ret _, _) => True
  | (Panic, fs') =>
      (exists name, st_intern name (symbols fs') = None) \/
      exists names rd1 os1 name rd2 os2 e, streamed names rd (ex_os fs) rd1 os1 /\
        os_next_entry rd1 os1 = ((Ok (Some name), rd2), os2) /\ os_entry_metadata rd2 name os2 = (Err e, ex_os fs')
  | (OutOfFuel, fs') => exists names rd', length names = fuel /\ streamed names rd (ex_os fs) rd' (ex_os fs')
  end.
Proof.
  revert rd l fs. induction fuel as [|fuel IH]; intros rd l fs; cbn [relist_loop].
  { exists [], rd. split; [done|constructor]. }
  unfold pbind, ex_sys, ex_on_os, sys. destruct (os_next_entry rd (ex_os fs)) as [[[[name|]|e] rd1] os1] eqn:En; [|done..].
  unfold ex_intern. cbn [ex_fsmap ex_os]. destruct (st_intern _ _) as [[s t]|] eqn:Et; [|by left; exists name].
  cbn [ex_fsmap ex_os]. destruct (os_entry_metadata rd1 name os1) as [[meta|e] os2] eqn:Em; cycle 1.
  { right. exists [], rd, (ex_os fs), name, rd1, os1, e. split; [constructor|done]. }
  unfold create_entry. cbn [ex_fsmap ex_os].
  assert (forall l fs1, ex_os fs1 = os2 -> match relist_loop fuel p rd1 l fs1 with
    | (Ret _, _) => True
    | (Panic, fs') => (exists name, st_intern name (symbols fs') = None) \/
        exists names rd2 os2 name rd3 os3 e, streamed names rd (ex_os fs) rd2 os2 /\
          os_next_entry rd2 os2 = ((Ok (Some name), rd3), os3) /\ os_entry_metadata rd3 name os3 = (Err e, ex_os fs')
    | (OutOfFuel, fs') => exists names rd', length names = S fuel /\ streamed names rd (ex_os fs) rd' (ex_os fs')
    end) as Hrest.
  { intros l1 fs1 <-. specialize (IH rd1 l1 fs1). destruct (relist_loop fuel p rd1 l1 fs1) as [[r| |] fs']; [done|..].
    - destruct IH as [?|(names & rd2 & os2 & n2 & rd3 & os3 & e & Hs & ? & ?)]; [by left|right].
      exists (name :: names), rd2, os2, n2, rd3, os3, e. split; [by eapply streamed_cons|done].
    - destruct IH as (names & rd' & <- & Hs). exists (name :: names), rd'. split; [done|by eapply streamed_cons]. }
  destruct (_ !! _) as [id|]; by apply Hrest.
Qed.

(** The steps before the tables change, and the symbols they add. *)
Lemma find_entry_Ret id fs e fs' : find_entry id fs = (Ret (Ok e), fs') -> ids fs !! id = Some e /\ fs' = fs.
Proof. unfold find_entry. intros [= He <-]. by destruct (ids fs !! id) as [e'|]; simplify_eq/=. Qed.

Lemma ex_intern_Ret name fs s fs' :
  st_ok (symbols fs) -> ex_intern name fs = (Ret s, fs') ->
  ids fs' = ids fs /\ paths fs' = paths fs /\ st_ok (symbols fs') /\ st_get (symbols fs') s = Some name /\
  forall s2 n, st_get (symbols fs) s2 = Some n -> st_get (symbols fs') s2 = Some n.
Proof.
  intros Hok. unfold ex_intern. destruct (st_intern name (symbols fs)) as [[s2 t]|] eqn:E; [|done]. intros [= <- <-].
  split_and!; cbn; try done; [by eapply st_intern_ok|by eapply st_intern_get|]. intros s' n. by eapply st_intern_keeps.
Qed.

Lemma create_entry_Ret p meta fs id fs' :
  create_entry p meta fs = (Ret id, fs') ->
  paths fs ⊆ paths fs' /\ paths fs' !! p = Some id /\ symbols fs' = symbols fs /\ ex_os fs' = ex_os fs.
Proof.
  unfold create_entry. destruct (paths fs !! p) as [i|] eqn:E; intros [= <- <-]; cbn; [done|].
  split; [by apply insert_subseteq|]. split; [apply lookup_insert_eq|done].
Qed.

(** A listing gives one id for each entry of the stream: the id of its path. *)
Lemma relist_lists fuel p rd l fs l' fs' :
  st_ok (symbols fs) -> relist_loop fuel p rd l fs = (Ret (Ok l'), fs') ->
  paths fs ⊆ paths fs' /\ (forall s name, st_get (symbols fs) s = Some name -> st_get (symbols fs') s = Some name) /\
  exists names rd1 os1 new, l' = l ++ new /\ streamed names rd (ex_os fs) rd1 os1 /\
    Forall2 (fun name i => exists s, st_get (symbols fs') s = Some name /\ paths fs' !! (p ++ [s]) = Some i) names new.
Proof.
  revert rd l fs. induction fuel as [|fuel IH]; intros rd l fs Hok; cbn [relist_loop]; [done|].
  intros ([r rd1] & fs1 & E1 & R)%pbind_Ret_inv. unfold ex_sys, ex_on_os, sys in E1.
  destruct (os_next_entry rd (ex_os fs)) as [[r1 rd2] os1] eqn:En. injection E1 as -> -> <-.
  destruct r as [[name|]|e]; [| |done].
  - apply pbind_Ret_inv in R as (s & fs2 & E2 & R). pose proof (f_equal (fun x => ex_os (snd x)) E2) as Hos.
    unfold ex_intern in Hos. cbn in Hos. apply ex_intern_Ret in E2 as (_ & P2 & O2 & G2 & K2); [|done]. cbn in P2, K2.
    assert (ex_os fs2 = os1) as Eos by (destruct (st_intern _ _) as [[? ?]|]; done). clear Hos.
    apply pbind_Ret_inv in R as (meta & fs3 & E3 & R). unfold ex_sys, ex_on_os, sys in E3. rewrite Eos in E3.
    destruct (os_entry_metadata rd1 name os1) as [meta' os3] eqn:Em. injection E3 as -> <-.
    destruct meta as [meta|e]; [|done]. apply pbind_Ret_inv in R as (id & fs4 & E4 & R).
    apply create_entry_Ret in E4 as (P4 & L4 & S4 & O4). cbn in P4, S4, O4. rewrite P2 in P4.
    apply IH in R as (P5 & K5 & names & rd' & os' & new & -> & Hs & Hn); [|by rewrite S4].
    rewrite S4 in K5. rewrite O4 in Hs. split; [by etrans|]. split; [auto|].
    exists (name :: names), rd', os', (id :: new). split; [by rewrite <- app_assoc|]. split; [by eapply streamed_cons|].
    constructor; [|done]. exists s. split; [auto|by eapply lookup_weaken].
  - injection R as <- <-. split; [done|]. split; [done|]. exists [], rd, (ex_os fs), [].
    split; [by rewrite app_nil_r|]. split; constructor.
Qed.

(** Names that differ have ids that differ. *)
Lemma listed_NoDup fs p names new :
  ex_inv fs -> NoDup names ->
  Forall2 (fun name i => exists s, st_get (symbols fs) s = Some name /\ paths fs !! (p ++ [s]) = Some i) names new -> NoDup new.
Proof.
  intros Hi Hnd H2. induction H2 as [|name i names new (s & Hs & Hp) H2 IH]; [constructor|].
  apply NoDup_cons in Hnd as [Hin Hnd]. constructor; [|by apply IH]. intros Hi2. apply Hin.
  apply list_elem_of_lookup_1 in Hi2 as [k Hk]. destruct (Forall2_lookup_r _ _ _ _ _ H2 Hk) as (name2 & Hk2 & s2 & Hs2 & Hp2).
  destruct (mi_paths _ Hi _ _ Hp) as (e & E & En), (mi_paths _ Hi _ _ Hp2) as (e2 & E2 & En2).
  assert (s = s2) as -> by (assert (p ++ [s] = p ++ [s2]) as Hss by congruence; by simplify_list_eq).
  assert (name = name2) as -> by congruence. by eapply list_elem_of_lookup_2.
Qed.

Lemma hoare_relist_new X p rd `{!Stable X} :
  (forall fs, X fs -> interned fs p) ->
  hoare (Z.of_nat (S dir_bound)) (fun fs => X fs /\ exists (q : path) os, os_read_dir q os = (Ok rd, ex_os fs))
    (relist_loop (S dir_bound) p rd [])
    (fun r fs => match r with Ok l => Forall (child_id fs) l /\ (names_distinct -> NoDup l) | Err _ => True end).
Proof.
  intros HX. apply hoare_strict.
  - intros fs Hi Hroom [Hfs (q & os & Hq)].
    destruct (hoare_relist (S dir_bound) X p rd [] HX fs Hi Hroom (conj Hfs (Forall_nil_2 _))) as (Hp & Hi' & Hg & HQ).
    split_and!; [done..|]. intros [l|e] Hl; [|done]. split; [exact (HQ _ Hl)|]. intros Hnd.
    destruct (relist_loop _ p rd [] fs) as [o fs'] eqn:E. cbn in Hl, Hi'. subst o.
    apply relist_lists in E as (_ & _ & names & rd1 & os1 & new & -> & Hs & Hn); [|by apply Hi].
    eapply listed_NoDup; [exact Hi'| |exact Hn]. by apply (Hnd _ rd1 os1); exists q, os, rd, (ex_os fs).
  - intros fs _ [_ (q & os & Hq)]. pose proof (relist_stops (S dir_bound) p rd [] fs) as Hs. unfold excused.
    destruct (relist_loop _ p rd [] fs) as [[r| |] fs']; cbn [fst snd]; [done|..].
    + destruct Hs as [[name Hs]|(names & rd1 & os1 & name & rd2 & os2 & e & Hs & Hn & He)]; [by eapply bl_full|].
      eapply bl_gone; [|exact Hn|exact He]. by exists q, os, rd, (ex_os fs).
    + destruct Hs as (names & rd' & Hlen & Hs). eapply bl_stream; [exact Hlen|]. by exists q, os, rd, (ex_os fs).
Qed.

Lemma merge_sort_children (fs : St) l :
  Forall (child_id fs) l -> (names_distinct -> NoDup l) ->
  Sorted Z.le (merge_sort Z.le l) /\ Forall (child_id fs) (merge_sort Z.le l) /\ (names_distinct -> NoDup (merge_sort Z.le l)).
Proof.
  intros Hl Hd. split; [apply Sorted_merge_sort; intros x y; lia|]. by rewrite merge_sort_Permutation.
Qed.

Lemma hoare_set_children X id l :
  (forall fs, X fs -> Sorted Z.le l /\ Forall (child_id fs) l /\ (names_distinct -> NoDup l)) ->
  hoare 0 X (update_entry id (fe_set_children (Some l))) (fun _ _ => True).
Proof. intros Hl. apply hoare_update; [done|]. intros fs e _ HX _. by apply Hl. Qed.

Lemma hoare_read_dir X p :
  hoare 0 X (ex_sys (os_read_dir p)) (fun r fs => forall rd, r = Ok rd -> exists (q : path) os, os_read_dir q os = (Ok rd, ex_os fs)).
Proof.
  intros fs Hi _ _. unfold ex_sys, ex_on_os, sys. destruct (os_read_dir p (ex_os fs)) as [r os] eqn:E.
  split_and!; [done|exact Hi|by split; [..|cbn; lia]|]. intros ? [= <-] rd ->. eauto.
Qed.

Lemma hoare_refresh_dir_list X id `{!Stable X} :
  hoare (Z.of_nat (S dir_bound)) X (refresh_dir_list dir_bound id) (fun _ _ => True).
Proof.
  unfold refresh_dir_list. ex_step; [|by ex_step]. ex_step; [by ex_step|]. ex_step; [by ex_step|].
  ex_step. eapply (hoare_bind 0 (Z.of_nat (S dir_bound))); [apply _|apply hoare_read_dir|intros [rd|e]; cbn beta|lia..]; [|by ex_step].
  eapply (hoare_consume (Z.of_nat (S dir_bound)) 0); [apply _| |intros [l|e]; cbn beta iota|lia..]; [| |by apply hoare_pret].
  - eapply hoare_weaken; [apply (hoare_relist_new (fun fs => X fs /\ interned fs (fe_name a)))|done|..|intros ? ? HQ; exact HQ].
    + apply _.
    + by intros fs [_ ?].
    + cbn. intros fs Hfs. destruct_and!. eauto.
  - eapply (hoare_bind 0 0); [apply _|apply hoare_find_entry|intros [e|e]; cbn beta iota|lia..]; [|by apply hoare_pret].
    eapply (hoare_bind 0 0); [apply _|apply hoare_set_children|intros ?; by apply hoare_pret|lia..].
    intros fs Hfs. cbn beta in Hfs. destruct_and!. by apply merge_sort_children.
Qed.

Lemma hoare_insert_child X id fileid e `{!Stable X} :
  (forall fs, X fs -> child_id fs fileid /\ children_ok (fm_next_fileid (ex_fsmap fs)) e) ->
  hoare 0 X (insert_child id fileid e) (fun _ _ => True).
Proof.
  intros HX. unfold insert_child. destruct (fe_children e) as [l|] eqn:El; [|by apply hoare_pret].
  destruct (add_child fileid l) as [l'|] eqn:Ea; [|by apply hoare_pret].
  eapply (hoare_bind 0 0); [apply _|apply hoare_set_children|intros ?; by apply hoare_pret|lia..].
  intros fs Hfs. destruct (HX fs Hfs) as [Hc He]. unfold children_ok in He. rewrite El in He. destruct He as (Hs & Hf & Hd).
  destruct (add_child_sorted _ _ _ Hs Ea) as [Hs' Hp]. split_and!; [done|rewrite Hp; by constructor|].
  intros Hn. eapply add_child_NoDup; [exact Hs|exact Ea|by apply Hd].
Qed.

(** ** Sequences whose first step is known only to the second *)

Lemma hoare_seq {A C D} n1 n2 n X (c : prog St A) (k1 : A -> prog St C) Q (k2 : C -> prog St D) R `{!Stable X} :
  hoare n1 X (pbind c k1) Q -> (forall b, hoare n2 (fun fs => X fs /\ Q b fs) (k2 b) R) -> 0 <= n1 -> 0 <= n2 -> n1 + n2 <= n ->
  hoare n X (pbind c (fun a => pbind (k1 a) k2)) R.
Proof.
  intros H1 H2 Hn1 Hn2 Hn fs. rewrite <- (pbind_assoc c k1 k2 fs).
  exact (hoare_bind n1 n2 n X (pbind c k1) Q k2 R H1 H2 Hn1 Hn2 Hn fs).
Qed.

Lemma hoare_forget_child X d id `{!Stable X} : hoare 0 X (forget_child d id) (fun _ _ => True).
Proof.
  apply hoare_update; [done|]. intros fs e Hi _ E. pose proof (mi_children _ Hi _ _ E) as Hc.
  unfold children_ok in *. cbn. destruct (fe_children e) as [l|]; [|done]. destruct Hc as (Hs & Hl & Hd). cbn.
  split_and!; [by apply unlist_child_sorted|by eapply Forall_sublist; [apply unlist_child_sub|]|].
  intros Hn. by apply unlist_child_NoDup, Hd.
Qed.

Lemma lookup_path_bind {A} p (k : option Z -> prog St A) fs :
  pbind (lookup_path_id p) k fs = k (fm_path_to_id (ex_fsmap fs) !! p) fs.
Proof. done. Qed.

(** REMOVE: the path and its id go together. *)
Lemma hoare_forget X p d `{!Stable X} :
  hoare 0 X (do* known := lookup_path_id p in
             match known with
             | Some fileid => do* _ := forget_path fileid p in forget_child d fileid
             | None => pret tt
             end) (fun _ _ => True).
Proof.
  intros fs Hi Hr HX. rewrite lookup_path_bind.
  destruct (fm_path_to_id (ex_fsmap fs) !! p) as [id|] eqn:Ep; [|exact (hoare_pret 0 X tt (fun _ _ => True) ltac:(lia) ltac:(done) fs Hi Hr HX)].
  destruct (mi_paths _ Hi _ _ Ep) as (e & E & <-).
  unfold pbind, forget_path. set (fs1 := mkExMirrorFs _ _).
  assert (ex_inv fs1) as Hi1 by (by apply map_inv_forget).
  assert (ex_grows 0 fs fs1) as Hg.
  { split; [done|done| |cbn; lia]. intros i _ Hd. cbn. by rewrite lookup_delete_None; right. }
  destruct (hoare_forget_child (fun _ => True) d id fs1 Hi1 Hr Logic.I) as (? & ? & ? & ?).
  split_and!; [done|done|by eapply ex_grows_trans|done].
Qed.

Lemma map_inv_move (m : @FSMap T Sym _ _) id e q :
  map_inv m -> fm_path_to_id m !! fe_name e = Some id -> fm_id_to_path m !! id = Some e -> id <> 0 ->
  is_Some (names_of (fm_intern m) q) -> q <> [] ->
  map_inv (fm_set_paths (<[q := id]> (delete (fe_name e) (fm_path_to_id m)))
             (fm_set_ids (<[id := fe_set_name q e]> (fm_id_to_path m)) m)).
Proof.
  intros [H1 H2 H3 H4 H5 H6 H7] Hp E Hid Hq Hne. split; cbn; try done.
  - intros r i [[<- <-]|[Hr [Hr2 (e' & E' & <-)%H2]%lookup_delete_Some]]%lookup_insert_Some.
    + eexists. split; [apply lookup_insert_eq|done].
    + exists e'. split; [|done]. rewrite lookup_insert_ne; [done|]. intros ->. congruence.
  - intros i e' [[<- <-]|[_ E']]%lookup_insert_Some; [done|by eapply H3].
  - intros i e' [[<- <-]|[_ E']]%lookup_insert_Some; [done|by eapply H4].
  - intros i e' [[<- <-]|[_ E']]%lookup_insert_Some; eauto.
  - intros i e' [[<- <-]|[_ E']]%lookup_insert_Some; [exact (H7 _ _ E)|by eapply H7].
Qed.

Lemma hoare_move_child X d d' id `{!Stable X} :
  (forall fs, X fs -> child_id fs id) -> hoare 0 X (move_child d d' id) (fun _ _ => True).
Proof.
  intros HX. unfold move_child. destruct (d' =? d); [by apply hoare_pret|].
  eapply (hoare_bind 0 0); [apply _|by apply hoare_forget_child|intros ?; cbn beta|lia..].
  eapply (hoare_bind 0 0); [apply _|apply hoare_find_entry|intros [e|e]; cbn beta iota|lia..]; [|by apply hoare_pret].
  apply hoare_insert_child; [apply _|]. intros fs Hfs. destruct_and!. split; [by apply HX|done].
Qed.

(** RENAME: the id takes its new path; the [unwrap] finds the entry. *)
Lemma hoare_move X p q d d' `{!Stable X} :
  p <> [] -> q <> [] -> (forall fs, X fs -> interned fs q) ->
  hoare 0 X (do* known := lookup_path_id p in
             match known with
             | Some fileid => do* _ := move_path fileid p q in move_child d d' fileid
             | None => pret (Ok tt)
             end) (fun _ _ => True).
Proof.
  intros Hp Hq HX fs Hi Hr Hfs. rewrite lookup_path_bind.
  destruct (fm_path_to_id (ex_fsmap fs) !! p) as [id|] eqn:Ep; [|exact (hoare_pret 0 X (Ok tt) (fun _ _ => True) ltac:(lia) ltac:(done) fs Hi Hr Hfs)].
  destruct (mi_paths _ Hi _ _ Ep) as (e & E & <-).
  assert (child_id fs id) as Hid.
  { pose proof (mi_range _ Hi _ _ E). pose proof (mi_root _ Hi _ _ E). unfold child_id.
    destruct (decide (id = 0)); [naive_solver|lia]. }
  unfold pbind, move_path. rewrite E. set (fs1 := mkExMirrorFs _ _).
  assert (ex_inv fs1) as Hi1.
  { apply map_inv_move; try done; [unfold child_id in Hid; lia|by apply HX]. }
  assert (ex_grows 0 fs fs1) as Hg.
  { split; [done|done| |cbn; lia]. intros i _ Hd. cbn. rewrite lookup_insert_ne; [done|congruence]. }
  destruct (hoare_move_child (fun fs => child_id fs id) d d' id ltac:(done) fs1 Hi1 Hr Hid) as (? & ? & ? & ?).
  split_and!; [done|done|by eapply ex_grows_trans|done].
Qed.

(** ** Each method *)

Lemma snoc_not_nil {A} (l : list A) x : l ++ [x] <> [].
Proof. by destruct l. Qed.

Lemma hoare_create_fs_object X d name object `{!Stable X} :
  hoare 1 X (create_fs_object d name object) (fun _ _ => True).
Proof.
  unfold create_fs_object. ex_step; [|by ex_step]. ex_step. ex_step; [|by ex_step]. ex_step. ex_step. ex_step; [|by ex_step].
  eapply (hoare_bind 1 0); [apply _|apply hoare_create_entry; [apply snoc_not_nil|]|intros id; cbn beta|lia..].
  - intros fs Hfs. destruct_and!. by eapply interned_snoc.
  - eapply (hoare_bind 0 0); [apply _|apply hoare_find_entry|intros [e|e]; cbn beta iota|lia..]; [|by apply hoare_pret].
    eapply (hoare_bind 0 0); [apply _|apply hoare_insert_child; [apply _|]|intros [?|?]; by apply hoare_pret|lia..].
    intros fs Hfs. by destruct_and!.
Qed.

Lemma hoare_lookup X d name `{!Stable X} : hoare (Z.of_nat (S dir_bound)) X (ex_lookup dir_bound d name) (fun _ _ => True).
Proof.
  unfold ex_lookup. ex_step.
  eapply (hoare_bind 0 (Z.of_nat (S dir_bound)) _ _ _ (fun _ _ => True)); [apply _| |intros [id|]; cbn beta iota|lia..];
    [destruct a; repeat ex_step|by ex_step|].
  ex_step; [|by ex_step]. ex_step. ex_step. ex_step; [by ex_step|]. ex_step; [|by ex_step].
  destruct a3; cbn beta iota; [by ex_step|..];
    (eapply (hoare_bind (Z.of_nat (S dir_bound)) 0); [apply _|apply hoare_refresh_dir_list; apply _|intros ?; apply hoare_find_child|lia..]).
Qed.

Lemma hoare_getattr X id `{!Stable X} : hoare 0 X (ex_getattr id) (fun _ _ => True).
Proof. unfold ex_getattr. repeat ex_step. Qed.

Lemma hoare_ex_read X id offset count `{!Stable X} :
  offset + count <= u64_MAX \/ (forall fs, may_panic fs) -> hoare 0 X (ex_read id offset count) (fun _ _ => True).
Proof.
  intros Hfit. unfold ex_read. ex_step; [|by ex_step]. ex_step. ex_step; [|by ex_step]. ex_step; [|by ex_step].
  destruct (Z.ltb_spec u64_MAX (offset + count)) as [Hover|Hin].
  - apply hoare_ppanic; [lia|]. intros fs _. by destruct Hfit as [?|Hany]; [lia|].
  - cbv zeta. repeat ex_step.
Qed.

Lemma hoare_readlink X id `{!Stable X} : hoare 0 X (ex_readlink id) (fun _ _ => True).
Proof. unfold ex_readlink. repeat ex_step; eauto with example. Qed.

Lemma hoare_iterator X d cookie `{!Stable X} :
  hoare (Z.of_nat (S dir_bound)) X (ex_iterator_new dir_bound d cookie) (fun _ _ => True).
Proof.
  unfold ex_iterator_new. ex_step; [|by ex_step].
  eapply (hoare_bind (Z.of_nat (S dir_bound)) 0); [apply _|apply hoare_refresh_dir_list; apply _|intros [?|?]; cbn beta iota|lia..]; repeat ex_step.
Qed.

Lemma sym_to_fname_total fs p : is_Some (names_of (symbols fs) p) -> exists name, sym_to_fname (ex_fsmap fs) p = Ret name.
Proof.
  intros [ns Hn]. unfold sym_to_fname. destruct (last p) as [s|] eqn:El; [|by eexists].
  apply last_Some in El as [q ->]. unfold names_of in Hn. apply mapM_Some, Forall2_app_inv_l in Hn as (? & ? & _ & Hs & ->).
  apply Forall2_cons_inv_l in Hs as (n & ? & Hs & _). exists n. by rewrite Hs.
Qed.

Lemma hoare_next_from X l i `{!Stable X} : hoare 0 X (ex_next_from l i) (fun _ _ => True).
Proof.
  revert X Stable0 i. induction l as [|id l IH]; intros X HX i; cbn [ex_next_from]; [by apply hoare_pret|].
  ex_step. destruct a as [e|err]; cbn beta iota.
  - eapply (hoare_bind 0 0 _ _ _ (fun _ _ => True)); [apply _| |intros name; by apply hoare_pret|lia..].
    intros fs Hi _ Hfs. destruct_and!. destruct (sym_to_fname_total fs (fe_name e)) as [name ->]; [done|].
    split_and!; [done|done|by apply ex_grows_refl|done].
  - destruct err; cbn beta iota; try (by apply hoare_pret); apply IH; apply _.
Qed.

Lemma hoare_ex_next X it `{!Stable X} : hoare 0 X (ex_next it) (fun _ _ => True).
Proof. eapply (hoare_bind 0 0); [done|by apply hoare_next_from|intros [r i]; by apply hoare_pret|lia..]. Qed.

Lemma hoare_ex_setattr X id a `{!Stable X} : hoare 0 X (ex_setattr id a) (fun _ _ => True).
Proof. unfold ex_setattr. repeat ex_step. Qed.

Lemma hoare_ex_write X id offset data `{!Stable X} : hoare 0 X (ex_write id offset data) (fun _ _ => True).
Proof. unfold ex_write. repeat ex_step. Qed.

Lemma hoare_ex_remove X d name `{!Stable X} : hoare 0 X (ex_remove d name) (fun _ _ => True).
Proof.
  unfold ex_remove. ex_step; [|by ex_step]. do 2 ex_step. destruct a1 as [meta|e]; [|by ex_step].
  eapply (hoare_bind 0 0 _ _ _ (fun _ _ => True)); [apply _| |intros [?|?]; cbn beta iota|lia..]; [|..|by ex_step].
  { apply hoare_map_err; [|done]. destruct (metadata_is_dir meta); apply hoare_sys. }
  ex_step. eapply (hoare_seq 0 0); [apply _|apply hoare_forget; apply _| |lia..]. intros ?. cbn beta. repeat ex_step.
Qed.

Lemma hoare_ex_rename X d from d' to `{!Stable X} : hoare 0 X (ex_rename d from d' to) (fun _ _ => True).
Proof.
  unfold ex_rename. ex_step; [|by ex_step]. ex_step. ex_step; [|by ex_step]. do 2 ex_step. ex_step; [by ex_step|].
  ex_step. ex_step; [by ex_step|]. ex_step; [|by ex_step]. do 2 ex_step. unfold tbind.
  eapply (hoare_seq 0 0); [apply _|apply hoare_move; [apply _|apply snoc_not_nil..|]|intros [?|?]; cbn beta iota|lia..].
  - intros fs Hfs. destruct_and!. by eapply interned_snoc.
  - ex_step. eapply (hoare_bind 0 0 _ _ _ (fun _ _ => True)); [apply _| |intros ?; by ex_step|lia..].
    destruct (negb _); repeat ex_step.
  - by ex_step.
Qed.
End methods.
