(* ===== verification/MirrorExampleProperties.v ===== *)
(** * Properties of the example file system

    The calls of a server on the example, what they keep and why they may panic or not
    end, what a listing yields, and what RENAME does to the map. *)

From stdpp Require Import sorting.
From S2P Require Import Prelude Xdr XdrLaws Nfs3Types Handle Vfs FsUtil NfsHandlersLaws IteratorCache Mirror MirrorLaws.
From S2P Require Import MirrorProperties MirrorExample MirrorExampleLaws.
Open Scope Z_scope.
Open Scope nfs_scope.

(** ** The recursion over the children *)

Section collect.
Context {Sym : Type}.
Implicit Types (ids : gmap Z (@FSEntry Sym)) (l : list Z).

Definition child_of ids (i c : Z) : Prop :=
  exists e l, ids !! i = Some e /\ fe_children e = Some l /\ c ∈ l.

(** The recursion needs more than [n] nested calls exactly when there is a chain
    of [n] children. *)
Lemma collect_chain n ids id :
  collect_all_children n ids id = OutOfFuel <-> exists c, nsteps (child_of ids) n id c.
Proof.
  revert id. induction n as [|n IH]; intros id.
  { split; [|done]. intros _. exists id. constructor. }
  cbn [collect_all_children]. destruct (ids !! id) as [e|] eqn:E; cycle 1.
  { split; [done|]. intros [c Hc]. inversion Hc as [|? ? y ? (e & l & E' & _) _]; congruence. }
  destruct (fe_children e) as [l|] eqn:El; cycle 1.
  { split; [done|]. intros [c Hc]. inversion Hc as [|? ? y ? (e' & l & E' & El' & _) _]. congruence. }
  transitivity (exists i, i ∈ l /\ collect_all_children n ids i = OutOfFuel).
  - clear E El. generalize [id]. induction l as [|i l IHl]; intros ret.
    { split; [done|]. by intros (i & ?%not_elem_of_nil & _). }
    destruct (collect_all_children n ids i) as [more| |] eqn:Ei.
    + rewrite (IHl (ret ++ more)). split; [intros (j & ? & ?); exists j; by rewrite elem_of_cons; auto|].
      intros (j & [->|Hj]%elem_of_cons & Ej); [congruence|by exists j].
    + by destruct (collect_no_panic n ids i).
    + split; [|done]. intros _. exists i. by rewrite elem_of_cons; auto.
  - split.
    + intros (i & Hi & [c Hc]%IH). exists c. econstructor; [|exact Hc]. by exists e, l.
    + intros [c Hc]. inversion Hc as [|? ? y ? (e' & l' & E' & El' & Hy) Hc']; simplify_eq.
      exists y. split; [congruence|]. apply IH. by exists c.
Qed.

(** A chain that comes back to where it started gives chains of any length. *)
Lemma cycle_chains ids i k n : nsteps (child_of ids) (S k) i i -> exists c, nsteps (child_of ids) n i c.
Proof.
  intros Hk. assert (forall m, nsteps (child_of ids) (m * S k) i i) as Hm.
  { induction m as [|m IH]; [constructor|]. cbn [Nat.mul]. by eapply nsteps_trans. }
  specialize (Hm n). destruct (nsteps_add_inv (R := child_of ids) n (n * S k - n) i i) as (c & Hc & _); [|by exists c].
  by replace (n + (n * S k - n))%nat with (n * S k)%nat by lia.
Qed.

(** The steps between two places of a chain. *)
Lemma chain_steps ids l i k a b :
  (forall j x y, l !! j = Some x -> l !! S j = Some y -> child_of ids x y) ->
  l !! i = Some a -> l !! (i + k)%nat = Some b -> nsteps (child_of ids) k a b.
Proof.
  intros Hl. revert i a. induction k as [|k IH]; intros i a Ha Hb.
  - rewrite Nat.add_0_r in Hb. simplify_eq. constructor.
  - destruct (lookup_lt_is_Some_2 l (S i)) as [y Hy].
    { apply lookup_lt_Some in Hb. lia. }
    econstructor; [by eapply Hl|]. eapply (IH (S i)); [done|]. by replace (S i + k)%nat with (i + S k)%nat by lia.
Qed.

Lemma repeated (l : list Z) : ~ NoDup l -> exists i k x, l !! i = Some x /\ l !! (i + S k)%nat = Some x.
Proof.
  induction l as [|y l IH]; intros Hn; [destruct Hn; constructor|].
  destruct (decide (y ∈ l)) as [Hy|Hy].
  - apply list_elem_of_lookup_1 in Hy as [k Hk]. by exists 0%nat, k, y.
  - destruct IH as (i & k & x & H1 & H2); [intros Hl; apply Hn; by constructor|]. by exists (S i), k, x.
Qed.

(** A chain longer than the map repeats an id, so the fuel decides: when it runs
    out, no depth of the stack is enough. *)
Lemma collect_fuel_decides ids id n :
  collect_all_children (collect_fuel ids) ids id = OutOfFuel -> collect_all_children n ids id = OutOfFuel.
Proof.
  intros Hf. apply collect_chain. apply collect_chain in Hf as [c Hc]. unfold collect_fuel in Hc.
  apply nsteps_list in Hc as (l & Hlen & Hhd & _ & Hl).
  assert (forall x, x ∈ take (S (size ids)) l -> x ∈ dom ids) as Hdom.
  { intros x [i Hi]%list_elem_of_lookup_1. apply lookup_take_Some in Hi as [Hi Hlt].
    destruct (lookup_lt_is_Some_2 l (S i)) as [y Hy]; [lia|]. destruct (Hl i x y Hi Hy) as (e & ? & E & _).
    by eapply elem_of_dom_2. }
  destruct (repeated (take (S (size ids)) l)) as (i & k & x & H1 & H2).
  { intros Hnd. assert (length (take (S (size ids)) l) <= size (dom ids))%nat as Hle.
    { rewrite <- (size_list_to_set (C := gset Z)) by done. apply subseteq_size. intros x Hx%elem_of_list_to_set. by apply Hdom. }
    rewrite size_dom, length_take in Hle. lia. }
  apply lookup_take_Some in H1 as [H1 _], H2 as [H2 _].
  destruct (cycle_chains ids x k n) as [c' Hc']; [by eapply (chain_steps ids l i)|].
  assert (nsteps (child_of ids) i id x) as Hpre.
  { apply (chain_steps ids l 0); [done| |done]. by destruct l. }
  pose proof (nsteps_trans _ _ _ _ _ Hpre Hc') as Hall.
  destruct (nsteps_add_inv (R := child_of ids) n i id c') as (y & Hy & _); [|by exists y].
  by replace (n + i)%nat with (i + n)%nat by lia.
Qed.
End collect.

(** ** The calls of a server *)

Inductive ExOp : Type :=
| ExLookup (dirid : Z) (name : filename3)
| ExGetattr (id : Z)
| ExRead (id offset count : Z)
| ExReaddir (dirid cookie : Z)
| ExNext (it : ExIterator)
| ExReadlink (id : Z)
| ExSetattr (id : Z) (attr : sattr3)
| ExWrite (id offset : Z) (data : list byte)
| ExCreate (dirid : Z) (name : filename3) (attr : sattr3)
| ExCreateExclusive (dirid : Z) (name : filename3) (verf : createverf3)
| ExMkdir (dirid : Z) (name : filename3)
| ExSymlink (dirid : Z) (name : filename3) (target : nfspath3) (attr : sattr3)
| ExRemove (dirid : Z) (name : filename3)
| ExRename (from_dirid : Z) (from : filename3) (to_dirid : Z) (to : filename3).

Section properties.
Context {T Sym OS RD F : Type} `{!SymbolTable T Sym} `{!CheckInterned T Sym} `{Countable Sym}.
Context `{!Os OS RD F} `{!OsMore OS RD F} `{!SymbolTableLaws T Sym}.
Context (dir_bound : nat).
Local Abbreviation St := (@ExMirrorFs T Sym OS _ _).
Implicit Types (fs : St).

Definition discard {A} (c : prog St A) : prog St unit := do* _ := c in pret tt.

Definition run_ex_op (op : ExOp) : prog St unit :=
  match op with
  | ExLookup d name => discard (ex_lookup dir_bound d name)
  | ExGetattr id => discard (ex_getattr id)
  | ExRead id offset count => discard (ex_read id offset count)
  | ExReaddir d cookie => discard (ex_iterator_new dir_bound d cookie)
  | ExNext it => discard (ex_next it)
  | ExReadlink id => discard (ex_readlink id)
  | ExSetattr id attr => discard (ex_setattr id attr)
  | ExWrite id offset data => discard (ex_write id offset data)
  | ExCreate d name attr => discard (ex_create d name attr)
  | ExCreateExclusive d name verf => discard (ex_create_exclusive d name verf)
  | ExMkdir d name => discard (ex_mkdir d name)
  | ExSymlink d name target attr => discard (ex_symlink d name target attr)
  | ExRemove d name => discard (ex_remove d name)
  | ExRename d from d' to => discard (ex_rename d from d' to)
  end.

(** Ids are left for a whole listing. *)
Definition ids_left fs : Prop := fm_next_fileid (ex_fsmap fs) + Z.of_nat (S dir_bound) <= u64_MAX.

Definition read_fits (op : ExOp) : Prop :=
  match op with ExRead _ offset count => offset + count <= u64_MAX | _ => True end.

(** One call of a client; between two calls the system changes in any way. *)
Inductive ex_moves fs : St -> Prop :=
| ex_call op : ids_left fs -> ex_moves fs (snd (run_ex_op op fs))
| ex_system os : ex_moves fs (mkExMirrorFs (ex_fsmap fs) os).

(** The states that a server on the directory [root] gets to. *)
Definition ex_reachable (root : path) fs : Prop :=
  exists os m os', fsmap_new root os = (Ret m, os') /\ rtc ex_moves (mkExMirrorFs m os') fs.

(** ** Why a call may panic, or not end *)

Definition table_full fs : Prop := exists name, st_intern name (fm_intern (ex_fsmap fs)) = None.

(** The system has just refused the attributes of an entry that it has just listed. *)
Definition entry_gone fs : Prop := exists names rd os name rd1 os1 e,
  streaming names rd os /\ os_next_entry rd os = ((Ok (Some name), rd1), os1) /\
  os_entry_metadata rd1 name os1 = (Err e, ex_os fs).

(** Some id has children of children without end: no depth of the stack is enough. *)
Definition endless_children fs : Prop := exists id, forall n,
  collect_all_children n (fm_id_to_path (ex_fsmap fs)) id = OutOfFuel.

Definition long_stream fs : Prop := exists names rd, length names = S dir_bound /\ streaming names rd (ex_os fs).

Definition exact_blame : Blame (T := T) (Sym := Sym) (OS := OS) (dir_bound := dir_bound).
Proof.
  refine (mkBlame (fun fs => table_full fs \/ entry_gone fs) (fun fs => endless_children fs \/ long_stream fs) _ _ _ _).
  - intros fs name Hn. left. by exists name.
  - intros fs names rd os name rd1 os1 e Hs Hn He. right. by exists names, rd, os, name, rd1, os1, e.
  - intros fs id Hf. left. exists id. intros n. by apply collect_fuel_decides.
  - intros fs names rd Hlen Hs. right. by exists names, rd.
Defined.

Section blamed.
Context {B : Blame (T := T) (Sym := Sym) (OS := OS) (dir_bound := dir_bound)}.

Lemma hoare_discard {A} n (c : prog St A) :
  0 <= n -> hoare n (fun _ => True) c (fun _ _ => True) -> hoare n (fun _ => True) (discard c) (fun _ _ => True).
Proof. intros Hn Hc. eapply (hoare_bind n 0); [apply _|exact Hc|intros ?; by apply hoare_pret|lia..]. Qed.

Lemma hoare_room {A} n n' (c : prog St A) Q :
  hoare n (fun _ => True) c Q -> n <= n' -> hoare n' (fun _ => True) c (fun _ _ => True).
Proof. intros Hc Hn. by eapply hoare_weaken. Qed.

Ltac method :=
  first [apply hoare_create_fs_object | apply hoare_lookup | apply hoare_getattr | apply hoare_ex_read | apply hoare_iterator
        | apply hoare_ex_next | apply hoare_readlink | apply hoare_ex_setattr | apply hoare_ex_write
        | apply hoare_ex_remove | apply hoare_ex_rename]; first [assumption | apply _].

Lemma hoare_op op fs :
  ex_inv fs -> ids_left fs -> read_fits op \/ (forall fs, may_panic fs) ->
  excused (run_ex_op op fs) /\ ex_inv (snd (run_ex_op op fs)) /\
  ex_grows (Z.of_nat (S dir_bound)) fs (snd (run_ex_op op fs)).
Proof.
  intros Hi Hn Hfit.
  assert (hoare (Z.of_nat (S dir_bound)) (fun _ => True) (run_ex_op op) (fun _ _ => True)) as Hop.
  { destruct op; cbn [run_ex_op read_fits] in *; apply hoare_discard; try lia; try (eapply hoare_room; [method|lia]; fail).
    apply (hoare_room 1 _ _ (fun _ _ => True)); [eapply (hoare_bind 1 0 1); [apply _|apply hoare_create_fs_object; apply _|intros [?|?]; by apply hoare_pret|lia..]|lia]. }
  by destruct (Hop fs Hi Hn Logic.I) as (? & ? & ? & _).
Qed.
End blamed.

(** What a call does to the map, whatever happens in it. *)
Lemma op_inv op fs :
  ex_inv fs -> ids_left fs ->
  ex_inv (snd (run_ex_op op fs)) /\ ex_grows (Z.of_nat (S dir_bound)) fs (snd (run_ex_op op fs)).
Proof. intros Hi Hn. by destruct (hoare_op (B := any_blame) op fs Hi Hn) as (_ & ? & ?); [by right|]. Qed.

Lemma fsmap_new_inv root os m os' : fsmap_new root os = (Ret m, os') -> map_inv m.
Proof.
  unfold fsmap_new, pbind, sys. destruct (os_metadata root os) as [[m1|] os1]; [|done].
  destruct (os_metadata root os1) as [[m2|] os2]; [|done]. intros [= <- <-].
  split; cbn; try done.
  - apply st_new_ok.
  - intros p i [<- <-]%lookup_singleton_Some. eexists. split; [apply lookup_singleton_eq|done].
  - intros i e [<- <-]%lookup_singleton_Some. by eexists.
  - by intros i e [<- <-]%lookup_singleton_Some.
  - intros i e [<- <-]%lookup_singleton_Some. lia.
  - intros i e [<- <-]%lookup_singleton_Some. done.
Qed.

Lemma ex_moves_inv fs fs' : ex_moves fs fs' -> ex_inv fs -> ex_inv fs' /\ exists n, ex_grows n fs fs'.
Proof.
  intros [op Hop|os] Hi.
  - destruct (op_inv op fs Hi Hop) as (? & ?). eauto.
  - split; [done|]. exists 0. split; [done|done|done|cbn; lia].
Qed.

Lemma ex_run_inv fs fs' : rtc ex_moves fs fs' -> ex_inv fs -> ex_inv fs' /\ exists n, ex_grows n fs fs'.
Proof.
  induction 1 as [fs|fs1 fs2 fs3 Hm _ IH]; intros Hi; [by split; [|exists 0; apply ex_grows_refl]|].
  destruct (ex_moves_inv _ _ Hm Hi) as (Hi2 & n1 & G1), (IH ltac:(done)) as (? & n2 & G2).
  split; [done|]. exists (n1 + n2). by eapply ex_grows_trans.
Qed.

Lemma ex_reachable_inv root fs : ex_reachable root fs -> ex_inv fs.
Proof. intros (os & m & os' & Hm%fsmap_new_inv & Hr). by apply (ex_run_inv _ _ Hr). Qed.

(** C32: The example server panics or hangs only for these causes, and keeps its two
    tables in step. In every state it gets to by calls that found ids left for a whole
    listing each, whatever the system answers, take any request that finds them too
    and that, if it is a READ, ends below 2^64. Then it returns; or it panics, with the symbol table full or right
    after the system has refused the attributes of the entry that an open directory
    stream has just given (the code unwraps them); or it does not end, because some
    id has children of children without end, or because a directory stream has given
    more entries than the bound that ids are left for. In each of these cases every
    path of the table leads afterwards to an entry that bears that path. *)
Theorem example_failures_explained root fs op :
  ex_reachable root fs -> ids_left fs -> read_fits op ->
  match run_ex_op op fs with
  | (Ret _, _) => True
  | (Panic, fs') => table_full fs' \/ entry_gone fs'
  | (OutOfFuel, fs') => endless_children fs' \/ long_stream fs'
  end /\
  forall p i, fm_path_to_id (ex_fsmap (snd (run_ex_op op fs))) !! p = Some i ->
    exists e, fm_id_to_path (ex_fsmap (snd (run_ex_op op fs))) !! i = Some e /\ fe_name e = p.
Proof.
  intros Hr%ex_reachable_inv Hn Hop. destruct (hoare_op (B := exact_blame) op fs Hr Hn (or_introl Hop)) as (He & Hi & _).
  split; [|apply Hi]. unfold excused in He. by destruct (run_ex_op op fs) as [[] ?].
Qed.

(** C33: An id is not given out again as long as ids are left: once the example has
    forgotten a file, its id stays unknown, so a later GETATTR of the old handle
    answers NFS3ERR_NOENT and never the attributes of another file. Between the two
    there may be any number of calls, each of which starts with ids left for a whole
    listing (of the 2^64 there are), and any changes of the system; also calls that
    panic, and calls that stop because a directory has too many entries. *)
Theorem example_ids_not_reused root fs fs' id :
  ex_reachable root fs -> id < fm_next_fileid (ex_fsmap fs) -> fm_id_to_path (ex_fsmap fs) !! id = None ->
  rtc ex_moves fs fs' -> ex_getattr id fs' = (Ret (Err NFS3ERR_NOENT), fs').
Proof.
  intros Hr%ex_reachable_inv Hid Hd Hrun. destruct (ex_run_inv _ _ Hrun Hr) as (_ & n & Hg).
  pose proof (eg_dead _ _ _ Hg id Hid Hd) as Hd'.
  unfold ex_getattr, tbind, pbind, refresh_entry, find_entry, tbind, pbind. by rewrite Hd'.
Qed.
End properties.

(** ** What a step does to the tables *)

Section frame.
Context {T Sym OS RD F : Type} `{!SymbolTable T Sym} `{!CheckInterned T Sym} `{Countable Sym}.
Context `{!Os OS RD F} `{!OsMore OS RD F} `{!SymbolTableLaws T Sym}.
Local Abbreviation St := (@ExMirrorFs T Sym OS _ _).
Local Abbreviation ids fs := (fm_id_to_path (ex_fsmap fs)).
Local Abbreviation paths fs := (fm_path_to_id (ex_fsmap fs)).
Local Abbreviation symbols fs := (fm_intern (ex_fsmap fs)).
Implicit Types (fs : St).

(** No id and no path appears, and ids keep their names. *)
Record shrinks fs fs' : Prop := {
  sh_names : forall i e', ids fs' !! i = Some e' -> exists e, ids fs !! i = Some e /\ fe_name e' = fe_name e;
  sh_paths : paths fs' ⊆ paths fs;
  sh_symbols : symbols fs' = symbols fs;
}.

Lemma shrinks_refl fs : shrinks fs fs.
Proof. split; [eauto|done..]. Qed.

Lemma shrinks_trans fs1 fs2 fs3 : shrinks fs1 fs2 -> shrinks fs2 fs3 -> shrinks fs1 fs3.
Proof.
  intros [N1 P1 S1] [N2 P2 S2]. split; [|by etrans|congruence].
  intros i e (e2 & (e1 & E1 & ->)%N1 & ->)%N2. by exists e1.
Qed.

Definition shrinking {A} (c : prog St A) : Prop := forall fs, shrinks fs (snd (c fs)).

Lemma shrinking_same {A} (c : prog St A) :
  (forall fs, ex_fsmap (snd (c fs)) = ex_fsmap fs) -> shrinking c.
Proof. intros Hc fs. split; rewrite Hc; [eauto|done..]. Qed.

Lemma shrinking_pret {A} (a : A) : shrinking (pret a).
Proof. by apply shrinking_same. Qed.

Lemma shrinking_bind {A B} (c : prog St A) (k : A -> prog St B) :
  shrinking c -> (forall a, shrinking (k a)) -> shrinking (pbind c k).
Proof.
  intros Hc Hk fs. unfold pbind. specialize (Hc fs). destruct (c fs) as [[a| |] fs1]; [|done..].
  eapply shrinks_trans; [exact Hc|apply Hk].
Qed.

Lemma shrinking_find id : shrinking (find_entry id).
Proof. by apply shrinking_same. Qed.

Lemma shrinking_path p : shrinking (ex_path p).
Proof. by apply shrinking_same. Qed.

Lemma on_os_map {A} (c : prog OS A) fs : ex_fsmap (snd (ex_on_os c fs)) = ex_fsmap fs.
Proof. unfold ex_on_os. by destruct (c (ex_os fs)). Qed.

Lemma shrinking_on_os {A} (c : prog OS A) : shrinking (ex_on_os c).
Proof. apply shrinking_same, on_os_map. Qed.

Lemma shrinking_update id f : (forall e, fe_name (f e) = fe_name e) -> shrinking (update_entry id f).
Proof.
  intros Hf fs. split; [|done..]. cbn. intros i e [(<- & e0 & E & ->)|[_ E]]%lookup_alter_Some; [exists e0|exists e]; by rewrite ?Hf.
Qed.

Lemma shrinking_delete id : shrinking (delete_entry id).
Proof.
  intros fs. unfold delete_entry. destruct (collect_all_children _ _ _) as [l| |]; [|apply shrinks_refl..].
  destruct (delete_all_rest l (ex_fsmap fs)) as (_ & Ht & _ & Hi & Hp). split; [|done..].
  intros i e E. exists e. split; [|done]. by eapply lookup_weaken.
Qed.

Create HintDb shrink.
Hint Resolve shrinking_pret shrinking_find shrinking_path shrinking_on_os shrinking_delete shrinking_update : shrink.

Ltac shrink :=
  repeat first [progress unfold io_error, map_err, tbind, ex_sys | apply shrinking_bind; [|intros ?] | case_match | by eauto with shrink].

Lemma shrinking_refresh id : shrinking (refresh_entry id).
Proof. unfold refresh_entry. shrink. Qed.

Lemma shrinking_move_child d d' id : shrinking (move_child d d' id).
Proof. unfold move_child, forget_child, insert_child. shrink. Qed.
End frame.

(** ** Listings *)

Section listings.
Context {T Sym OS RD F : Type} `{!SymbolTable T Sym} `{!CheckInterned T Sym} `{Countable Sym}.
Context `{!Os OS RD F} `{!OsMore OS RD F} `{!SymbolTableLaws T Sym}.
Context (dir_bound : nat).
Local Abbreviation St := (@ExMirrorFs T Sym OS _ _).
Local Abbreviation ids fs := (fm_id_to_path (ex_fsmap fs)).
Local Abbreviation paths fs := (fm_path_to_id (ex_fsmap fs)).
Local Abbreviation symbols fs := (fm_intern (ex_fsmap fs)).
Implicit Types (fs : St).

(** The entries that an iterator still gives, called until its end. *)
Fixpoint ex_list_rest (fuel : nat) (it : ExIterator) : prog St (list (DirEntryPlus Z)) :=
  match fuel with
  | O => fun fs => (OutOfFuel, fs)
  | S fuel =>
      do* (r, it) := ex_next it in
      match r with
      | NextOk e => do* es := ex_list_rest fuel it in pret (e :: es)
      | _ => pret []
      end
  end.

(** What is listed of an id: its last name, as the map has it. *)
Definition listed fs (e : DirEntryPlus Z) : Prop :=
  exists entry, ids fs !! dep_fileid e = Some entry /\ sym_to_fname (ex_fsmap fs) (fe_name entry) = Ret (dep_name e) /\
    dep_cookie e = dep_fileid e /\ dep_name_attributes e = Some (fe_fsmeta entry) /\ dep_name_handle e = Some (dep_fileid e).

Lemma ex_next_from_spec fs l i :
  ex_inv fs ->
  (exists pre id l' e, l = pre ++ id :: l' /\ (forall c, c ∈ pre -> ids fs !! c = None) /\ dep_cookie e = id /\ listed fs e /\
     ex_next_from l i fs = (Ret (NextOk e, i + S (length pre))%nat, fs)) \/
  ((forall c, c ∈ l -> ids fs !! c = None) /\ ex_next_from l i fs = (Ret (NextEof, i + length l)%nat, fs)).
Proof.
  intros Hi. revert i. induction l as [|id l IH]; intros i.
  { right. split; [by intros c ?%not_elem_of_nil|]. cbn. by rewrite Nat.add_0_r. }
  cbn [ex_next_from]. unfold pbind, find_entry. destruct (ids fs !! id) as [entry|] eqn:E; cbn [ok_or].
  - left. destruct (sym_to_fname_total fs (fe_name entry)) as [name Hname]; [by eapply mi_names|]. rewrite Hname.
    exists [], id, l. eexists. split; [done|]. split; [by intros c ?%not_elem_of_nil|]. split; [|split; [|by rewrite Nat.add_1_r]]; [done|].
    by exists entry.
  - destruct (IH (S i)) as [(pre & id' & l' & e & -> & Hpre & Hc & He & Hn)|[Hl Hn]]; rewrite Hn.
    + left. exists (id :: pre), id', l', e. split_and!; try done; [|cbn; do 3 f_equal; lia].
      by intros c [->|?%Hpre]%elem_of_cons.
    + right. split; [by intros c [->|?%Hl]%elem_of_cons|]. cbn. do 3 f_equal. lia.
Qed.

Lemma filter_missing fs l : (forall c, c ∈ l -> ids fs !! c = None) -> filter (fun c => is_Some (ids fs !! c)) l = [].
Proof.
  induction l as [|c l IH]; intros Hl; [done|]. rewrite filter_cons, decide_False.
  - apply IH. intros c' ?. apply Hl. by right.
  - rewrite Hl by (by left). by intros [? ?].
Qed.

(** An iterator gives every id it was made with that the map still has, once and
    in their order. *)
Lemma ex_list_rest_spec fs entries fuel i :
  ex_inv fs -> (length (drop i entries) < fuel)%nat ->
  exists out, ex_list_rest fuel (mkExIterator entries i) fs = (Ret out, fs) /\
    map dep_cookie out = filter (fun c => is_Some (ids fs !! c)) (drop i entries) /\ Forall (listed fs) out.
Proof.
  intros Hi. revert i. induction fuel as [|fuel IH]; intros i Hlen; [lia|].
  cbn [ex_list_rest]. unfold ex_next at 1. cbn [exi_index exi_entries].
  destruct (ex_next_from_spec fs (drop i entries) i Hi) as [(pre & id & l' & e & El & Hpre & Hc & He & Hn)|[Hl Hn]].
  - assert (drop (i + S (length pre)) entries = l') as Etl.
    { transitivity (drop (S (length pre)) (drop i entries)); [by rewrite drop_drop|]. rewrite El.
      rewrite drop_app_ge by lia. by rewrite Nat.sub_succ_l, Nat.sub_diag by lia. }
    destruct (IH (i + S (length pre))%nat) as (out & Ho & Hm & Hf).
    { rewrite Etl. rewrite El, length_app in Hlen. cbn in Hlen. lia. }
    exists (e :: out). unfold pbind. rewrite Hn. cbn [fst snd pret]. rewrite Ho. split; [done|]. split; [|by constructor].
    cbn [map]. rewrite Hm, Etl, El, filter_app, (filter_missing fs pre) by done. cbn [app].
    rewrite filter_cons, decide_True by (destruct He as (entry & E & _ & Hce & _); rewrite <- Hc, Hce; eauto).
    by rewrite Hc.
  - exists []. unfold pbind. rewrite Hn. split; [done|]. by rewrite filter_missing.
Qed.
Lemma children_sorted l : Sorted Z.le l -> NoDup l -> StronglySorted Z.lt l.
Proof.
  intros Hs%Zle_StronglySorted Hn. induction Hs as [|x l Hs IH Hx]; [constructor|].
  apply NoDup_cons in Hn as [Hin Hn]. constructor; [by apply IH|].
  rewrite Forall_forall in *. intros y Hy. specialize (Hx y Hy). destruct (decide (x = y)) as [->|]; [done|lia].
Qed.

Lemma filter_sorted (P : Z -> Prop) `{forall x, Decision (P x)} l : StronglySorted Z.lt l -> StronglySorted Z.lt (filter P l).
Proof.
  induction 1 as [|x l Hs IH Hx]; [constructor|]. rewrite filter_cons. case_decide; [|done].
  constructor; [done|]. rewrite Forall_forall in *. intros y [_ Hy]%list_elem_of_filter. by apply Hx.
Qed.

(** What a new iterator holds: the children of the directory past the cookie. *)
Lemma ex_iterator_entries d cookie fs it fs' :
  ex_iterator_new dir_bound d cookie fs = (Ret (Ok it), fs') ->
  exists e l, ids fs' !! d = Some e /\ fe_children e = Some l /\ exi_index it = O /\
    exi_entries it = drop (match binary_search cookie l with Ok pos => S pos | Err pos => pos end) l.
Proof.
  unfold ex_iterator_new, tbind. intros (r1 & fs1 & _ & H1)%pbind_Ret_inv. destruct r1 as [?|?]; [|done].
  apply pbind_Ret_inv in H1 as (r2 & fs2 & _ & H2). destruct r2 as [?|?]; [|done].
  apply pbind_Ret_inv in H2 as ([e|?] & fs3 & Hf & H3); [|done]. apply find_entry_Ret in Hf as [E ->].
  destruct (negb _); [done|]. destruct (fe_children e) as [l|] eqn:El; [|done].
  injection H3 as <- <-. by exists e, l.
Qed.

End listings.

(** ** RENAME *)

Section rename.
Context {T Sym OS RD F : Type} `{!SymbolTable T Sym} `{!CheckInterned T Sym} `{Countable Sym}.
Context `{!Os OS RD F} `{!OsMore OS RD F} `{!SymbolTableLaws T Sym}.
Local Abbreviation St := (@ExMirrorFs T Sym OS _ _).
Local Abbreviation ids fs := (fm_id_to_path (ex_fsmap fs)).
Local Abbreviation paths fs := (fm_path_to_id (ex_fsmap fs)).
Local Abbreviation symbols fs := (fm_intern (ex_fsmap fs)).
Implicit Types (fs : St).

(** The part of RENAME after the system has renamed. *)
Definition rename_rest (d d' : Z) (from to : path) (dd dd' : @FSEntry Sym) : vfs_method St unit :=
  do* oldsym := ex_intern from in
  do* newsym := ex_intern to in
  let from_sympath := fe_name dd ++ [oldsym] in
  let to_sympath := fe_name dd' ++ [newsym] in
  do* known := lookup_path_id from_sympath in
  try* _ := match known with
            | Some fileid =>
                do* _ := move_path fileid from_sympath to_sympath in
                move_child d d' fileid
            | None => pret (Ok tt)
            end in
  do* _ := refresh_entry d in
  do* _ := (if negb (d' =? d) then (do* _ := refresh_entry d' in pret tt) else pret tt) in
  pret (Ok tt).

Lemma ex_rename_Ret d from d' to fs fs' :
  ex_rename d from d' to fs = (Ret (Ok tt), fs') ->
  exists dd dd' fs1, ids fs !! d = Some dd /\ ids fs !! d' = Some dd' /\ ex_fsmap fs1 = ex_fsmap fs /\
    rename_rest d d' from to dd dd' fs1 = (Ret (Ok tt), fs').
Proof.
  unfold ex_rename, tbind.
  intros ([dd|?] & s1 & Hd & R)%pbind_Ret_inv; [|done]. apply find_entry_Ret in Hd as [Hd ->].
  apply pbind_Ret_inv in R as (p & s1 & Hp & R). assert (s1 = fs) as -> by (by injection Hp).
  apply pbind_Ret_inv in R as ([dd'|?] & s1 & Hd' & R); [|done]. apply find_entry_Ret in Hd' as [Hd' ->].
  apply pbind_Ret_inv in R as (p' & s1 & Hp' & R). assert (s1 = fs) as -> by (by injection Hp').
  apply pbind_Ret_inv in R as (b & s1 & E1 & R). destruct (negb b); [done|].
  apply pbind_Ret_inv in R as (b' & s2 & E2 & R). destruct (negb b'); [done|].
  apply pbind_Ret_inv in R as (r & s3 & E3 & R). destruct r as [[]|]; [|done].
  exists dd, dd', s3. split_and!; [done|done| |exact R].
  unfold io_error, map_err in E3. apply pbind_Ret_inv in E3 as (? & s4 & E3 & [= _ ->]).
  pose proof (on_os_map (exists_no_traverse p') fs) as M1. pose proof (on_os_map (exists_no_traverse (path_push p from)) s1) as M2.
  pose proof (on_os_map (sys (os_rename (path_push p from) (path_push p' to))) s2) as M3. unfold ex_sys in E3.
  rewrite E1 in M1. rewrite E2 in M2. rewrite E3 in M3. cbn in *. congruence.
Qed.

(** RENAME moves the handle with the file: after a successful RENAME the id that
    stood for the old path stands for the new one, if the map still has it, the old
    path leads nowhere (unless it is the new one), every other id keeps the path it
    had, and no id appears.  In particular the files below a renamed directory keep
    their old paths. *)
Theorem example_rename_moves_handle d from d' to fs fs' :
  ex_inv fs -> ex_rename d from d' to fs = (Ret (Ok tt), fs') ->
  exists dd dd' s s',
    ids fs !! d = Some dd /\ ids fs !! d' = Some dd' /\
    st_get (symbols fs') s = Some from /\ st_get (symbols fs') s' = Some to /\
    (fe_name dd ++ [s] <> fe_name dd' ++ [s'] -> paths fs' !! (fe_name dd ++ [s]) = None) /\
    forall i e', ids fs' !! i = Some e' -> exists e, ids fs !! i = Some e /\
      fe_name e' = if decide (paths fs !! (fe_name dd ++ [s]) = Some i) then fe_name dd' ++ [s'] else fe_name e.
Proof.
  intros Hi (dd & dd' & fs0 & Hd & Hd' & M0 & R)%ex_rename_Ret. exists dd, dd'. unfold rename_rest, tbind in R.
  apply pbind_Ret_inv in R as (s & fs1 & E1 & R). apply pbind_Ret_inv in R as (s' & fs2 & E2 & R). cbv zeta in R.
  exists s, s'. apply ex_intern_Ret in E1 as (I1 & P1 & O1 & G1 & _); [|rewrite M0; apply Hi].
  apply ex_intern_Ret in E2 as (I2 & P2 & _ & G2 & K2); [|done]. rewrite M0 in *.
  assert (shrinking (do* _ := refresh_entry d in
    do* _ := (if negb (d' =? d) then (do* _ := refresh_entry d' in pret tt) else pret tt) in pret (Ok tt : result unit nfsstat3)) ) as Hlast.
  { apply shrinking_bind; [apply shrinking_refresh|intros _]. apply shrinking_bind; [|intros _; apply shrinking_pret].
    destruct (negb _); [|apply shrinking_pret]. apply shrinking_bind; [apply shrinking_refresh|intros _; apply shrinking_pret]. }
  rewrite lookup_path_bind, P2, P1 in R. apply pbind_Ret_inv in R as (r & fs3 & E3 & R).
  destruct r as [[]|]; [|done]. specialize (Hlast fs3). rewrite R in Hlast. cbn [snd] in Hlast. clear R.
  destruct (paths fs !! (fe_name dd ++ [s])) as [id|] eqn:Ep.
  - apply pbind_Ret_inv in E3 as ([] & fs4 & E4 & E3). unfold move_path in E4. rewrite I2, I1 in E4.
    destruct (mi_paths _ Hi _ _ Ep) as (e0 & E0 & _). rewrite E0 in E4. injection E4 as <-.
    match type of E3 with move_child _ _ _ ?fs4 = _ => pose proof (shrinking_move_child d d' id fs4) as Hm end.
    rewrite E3 in Hm. cbn [snd] in Hm.
    pose proof (shrinks_trans _ _ _ Hm Hlast) as [N P S]. cbn in N, P, S. rewrite S. split_and!; try done; [by apply K2| |].
    + intros Hne. eapply lookup_weaken_None; [|exact P]. rewrite lookup_insert_ne by done. by rewrite lookup_delete_eq.
    + intros i e' (e & [[<- <-]|[Hne E]]%lookup_insert_Some & ->)%N.
      * exists e0. by rewrite decide_True.
      * exists e. by rewrite decide_False by congruence.
  - injection E3 as <-. destruct Hlast as [N P S]. rewrite S. split_and!; try done; [by apply K2| |].
    + intros _. eapply lookup_weaken_None; [|exact P]. by rewrite P2, P1.
    + intros i e' (e & E & ->)%N. rewrite I2, I1 in E. by exists e.
Qed.
End rename.
