(* ===== verification/MirrorExampleDemo.v ===== *)
(** * The example file system on a small tree

    A system whose renames move what is below a directory and whose directories
    change with their entries, and calls of a client on it: the uses of the theorems
    of [MirrorExampleProperties], and two runs that show what RENAME leaves behind
    in the map. *)

From stdpp Require Import sorting.
From S2P Require Import Prelude Xdr XdrLaws Nfs3Types Handle Vfs FsUtil Mirror MirrorLaws MirrorProperties.
From S2P Require Import MirrorExample MirrorExampleLaws MirrorExampleProperties.
Open Scope Z_scope.
Open Scope nfs_scope.

Module DemoTree.
#[export] Existing Instance DemoMirror.vec_table.
#[export] Existing Instance DemoMirror.vec_table_laws.

#[export] Instance vec_check : CheckInterned DemoMirror.table nat := fun t name =>
  option_map fst (list_find (fun n => n = name) t).

Definition System : Type := DemoMirror.System.
Definition flat := DemoMirror.system.

(** A directory stream is the directory and the names left in it. *)
Definition Stream : Type := list byte * list (list byte).

Definition below (p : list byte) (os : System) : list (list byte) := DemoMirror.children (DemoMirror.norm p) os.

(** A directory is changed by each new entry. *)
Definition tree_meta (p : list byte) (os : System) : option Metadata :=
  option_map (fun c : option (list byte) => match c with
    | Some data => mkMetadata FtFile 420 1 7 8 (len data) None (Some 5000000000) None 0 0
    | None => mkMetadata FtDir 493 2 7 8 (len (below p os)) None (Some (1000000000 * len (below p os))) None 0 0
    end) (DemoMirror.find_file p os).

Definition io_of {A} (r : option A) (os : System) : result A ErrorKind * System :=
  (match r with Some a => Ok a | None => Err NotFound end, os).

(** The new name of [r] when [p] becomes [q]. *)
Definition moved (p q r : list byte) : list byte :=
  if decide (r = p \/ take (S (length p)) r = p ++ [x2f]) then q ++ drop (length p) r else r.

Definition move_tree (p q : list byte) (os : System) : System :=
  DemoMirror.mkSystem (map (fun '(r, c) => (moved p q r, c)) (DemoMirror.files (DemoMirror.del_file q os))) (DemoMirror.pos os).

#[export] Instance tree_system : Os System Stream (list byte) := {|
  os_exists := @os_exists _ _ _ flat;
  os_symlink_metadata p os := io_of (tree_meta p os) os;
  os_open := @os_open _ _ _ flat;
  os_file_len := @os_file_len _ _ _ flat;
  os_seek := @os_seek _ _ _ flat;
  os_read_exact := @os_read_exact _ _ _ flat;
  os_write_all := @os_write_all _ _ _ flat;
  os_flush := @os_flush _ _ _ flat;
  os_set_len := @os_set_len _ _ _ flat;
  os_file_set_permissions := @os_file_set_permissions _ _ _ flat;
  os_read_dir p os := match DemoMirror.find_file p os with
                      | Some None => (Ok (p, remove_dups (below p os)), os)
                      | Some (Some _) => (Err NotADirectory, os)
                      | None => (Err NotFound, os)
                      end;
  os_next_entry '(p, names) os := ((Ok (hd_error names), (p, tl names)), os);
  os_create_dir := @os_create_dir _ _ _ flat;
  os_remove_dir := @os_remove_dir _ _ _ flat;
  os_remove_file := @os_remove_file _ _ _ flat;
  os_rename p q os := match DemoMirror.find_file p os with
                      | Some _ => (Ok tt, move_tree p q os)
                      | None => (Err NotFound, os)
                      end;
  os_symlink := @os_symlink _ _ _ flat;
  os_read_link := @os_read_link _ _ _ flat;
  os_set_permissions := @os_set_permissions _ _ _ flat;
  os_set_file_atime := @os_set_file_atime _ _ _ flat;
  os_set_file_mtime := @os_set_file_mtime _ _ _ flat;
  os_filetime_now := @os_filetime_now _ _ _ flat;
  os_instant_now := @os_instant_now _ _ _ flat;
|}.

(** Nothing happens between a name of a stream and its attributes. *)
#[export] Instance tree_more : OsMore System Stream (list byte) := {|
  os_metadata p os := io_of (tree_meta p os) os;
  os_file_metadata f os := io_of (tree_meta f os) os;
  os_entry_metadata rd name os :=
    (Ok (default (mkMetadata FtFile 420 1 7 8 0 None None None 0 0) (tree_meta (path_push (fst rd) name) os)), os);
  os_open_write_create p os :=
    match DemoMirror.find_file p os with
    | Some _ => (Ok p, os)
    | None => (Ok p, DemoMirror.set_file p (Some []) os)
    end;
  os_sync_all _ os := (Ok tt, os);
|}.

Definition bs (s : string) : list byte := bytes_of_string s.
Definition root : list byte := bs "/srv".
Definition os0 : System := DemoMirror.mkSystem [(root, None)] 0.
Definition DemoState : Type := @ExMirrorFs DemoMirror.table nat System _ _.

Definition start : DemoState :=
  match fsmap_new root os0 with
  | (Ret m, os) => mkExMirrorFs m os
  | (_, os) => mkExMirrorFs (mkFSMap root 1 st_new ∅ ∅) os
  end.

(** No directory here has more entries. *)
Definition dir_bound : nat := 8.

Definition call (fs : DemoState) (op : ExOp) : DemoState := snd (run_ex_op dir_bound op fs).
Definition calls (ops : list ExOp) : DemoState := foldl call start ops.

(** MKDIR of [a] and of [a/b], and RENAME of [a] to [c]. *)
Definition renamed : list ExOp :=
  [ExMkdir 0 (bs "a"); ExMkdir 1 (bs "b"); ExReaddir 1 0; ExReaddir 2 0; ExRename 0 (bs "a") 0 (bs "c")].

(** A new [a] and a new [a/b], which is given the id of the old one; [c], with the
    old one in it, moves into the new one. *)
Definition tangled : list ExOp :=
  renamed ++ [ExMkdir 0 (bs "a"); ExMkdir 3 (bs "b"); ExRename 0 (bs "c") 2 (bs "x"); ExRename 0 (bs "a") 0 (bs "z")].
End DemoTree.

Import DemoTree.

(** A stream gives the names that are left in it. *)
Lemma tree_streamed names (rd : Stream) (os : System) rd' os' : streamed names rd os rd' os' -> snd rd = names ++ snd rd'.
Proof.
  induction 1 as [|name names rd rd1 rd' os os1 os2 os' meta Hn He _ IH]; [done|].
  destruct rd as [p [|n ns]]; cbn in Hn; simplify_eq. cbn in He. cbn. by rewrite <- IH.
Qed.

Lemma tree_distinct : names_distinct (OS := System).
Proof.
  intros names rd os (p & os1 & rd1 & os2 & Hr & Hs%tree_streamed). cbn in Hr.
  destruct (DemoMirror.find_file p os1) as [[?|]|]; [done| |done]. injection Hr as <- <-. cbn in Hs.
  pose proof (NoDup_remove_dups (below p os1)) as Hd. rewrite Hs in Hd. by apply NoDup_app in Hd as [? _].
Qed.

Lemma start_reachable : ex_reachable dir_bound root start.
Proof. eexists os0, _, _. split; [vm_compute; reflexivity|]. constructor. Qed.

(** Each call fits in the state it finds. *)
Fixpoint all_fit (fs : DemoState) (ops : list ExOp) : Prop :=
  match ops with
  | [] => True
  | op :: ops => ids_left dir_bound fs /\ all_fit (call fs op) ops
  end.

Fixpoint all_answered (fs : DemoState) (ops : list ExOp) : Prop :=
  match ops with
  | [] => True
  | op :: ops => fst (run_ex_op dir_bound op fs) = Ret tt /\ all_answered (call fs op) ops
  end.

Lemma calls_run fs ops : all_fit fs ops -> rtc (ex_moves dir_bound) fs (foldl call fs ops).
Proof.
  revert fs. induction ops as [|op ops IH]; intros fs; [constructor|]. intros [Hop Hops].
  econstructor; [by apply ex_call|]. by apply IH.
Qed.

Lemma calls_reachable ops : all_fit start ops -> ex_reachable dir_bound root (calls ops).
Proof.
  intros Hops. destruct start_reachable as (os & m & os' & Hm & Hr). exists os, m, os'. split; [done|].
  etrans; [exact Hr|]. by apply calls_run.
Qed.

Ltac fits := repeat (split || exact Logic.I || (vm_compute; first [reflexivity | discriminate])).

Lemma tangled_fits : all_fit start tangled.
Proof. fits. Qed.

Lemma renamed_fits : all_fit start renamed.
Proof. fits. Qed.

(** ** What RENAME leaves behind *)

(** After RENAME of a directory, the handle of a file below it is lost: GETATTR of
    it answers NFS3ERR_NOENT, though the file is there under its new name. *)
Theorem example_rename_loses_children :
  fst (ex_getattr 2 (calls (take 4 renamed))) <> Ret (Err NFS3ERR_NOENT) /\
  fst (ex_rename 0 (bs "a") 0 (bs "c") (calls (take 4 renamed))) = Ret (Ok tt) /\
  fst (ex_getattr 2 (calls renamed)) = Ret (Err NFS3ERR_NOENT) /\
  is_Some (tree_meta (bs "/srv/c/b") (ex_os (calls renamed))).
Proof. split_and!; [vm_compute; discriminate|vm_compute; reflexivity..|]. eexists. vm_compute. reflexivity. Qed.

(** A client can make the example recurse for ever: nine calls, all of them
    answered, bring two directories to be each other's children in the map, and the
    GETATTR that finds one of them gone then collects the children of the children
    with no end: no depth of the stack is enough. *)
Theorem example_delete_diverges :
  ex_reachable dir_bound root (calls tangled) /\ all_answered start tangled /\
  ids_left dir_bound (calls tangled) /\
  fst (run_ex_op dir_bound (ExGetattr 2) (calls tangled)) = OutOfFuel /\
  forall n, collect_all_children n (fm_id_to_path (ex_fsmap (calls tangled))) 2 = OutOfFuel.
Proof.
  split_and!; [apply calls_reachable, tangled_fits|fits..|vm_compute; reflexivity|].
  intros n. apply collect_fuel_decides. vm_compute. reflexivity.
Qed.

(** ** Uses of the theorems *)

(** The id of the directory under its new path, [d]. *)
Lemma example_failures_explained_witness :
  fst (run_ex_op dir_bound (ExRename 0 (bs "c") 0 (bs "d")) (calls renamed)) = Ret tt /\
  exists e, fm_id_to_path (ex_fsmap (snd (run_ex_op dir_bound (ExRename 0 (bs "c") 0 (bs "d")) (calls renamed)))) !! 1 = Some e /\
    fe_name e = [3%nat].
Proof.
  split; [vm_compute; reflexivity|].
  assert (ids_left dir_bound (calls renamed)) as Hn by (vm_compute; discriminate).
  pose proof (example_failures_explained dir_bound root (calls renamed) (ExRename 0 (bs "c") 0 (bs "d"))
    (calls_reachable renamed renamed_fits) Hn Logic.I) as [_ Htables].
  apply (Htables [3%nat] 1). vm_compute. reflexivity.
Defined.

(** The old [a/b] is forgotten by the GETATTR that finds it gone; a new [a] and a new
    [a/b] get other ids. *)
Definition forgetful : DemoState := call (calls renamed) (ExGetattr 2).
Definition later : DemoState := foldl call forgetful [ExMkdir 0 (bs "a"); ExMkdir 3 (bs "b")].

Lemma forgetful_reachable : ex_reachable dir_bound root forgetful.
Proof. apply (calls_reachable (renamed ++ [ExGetattr 2])). fits. Qed.

Lemma later_run : rtc (ex_moves dir_bound) forgetful later.
Proof. apply calls_run. fits. Qed.

Lemma example_ids_not_reused_witness :
  fst (run_ex_op dir_bound (ExMkdir 3 (bs "b")) (call forgetful (ExMkdir 0 (bs "a")))) = Ret tt /\
  ex_getattr 2 later = (Ret (Err NFS3ERR_NOENT), later).
Proof.
  split; [vm_compute; reflexivity|].
  refine (example_ids_not_reused dir_bound root forgetful later 2 forgetful_reachable _ _ later_run);
    vm_compute; reflexivity.
Defined.

Lemma example_rename_moves_handle_witness :
  exists dd dd' s s',
    fm_id_to_path (ex_fsmap (calls (take 4 renamed))) !! 0 = Some dd /\
    fm_id_to_path (ex_fsmap (calls (take 4 renamed))) !! 0 = Some dd' /\
    st_get (fm_intern (ex_fsmap (calls renamed))) s = Some (bs "a") /\
    st_get (fm_intern (ex_fsmap (calls renamed))) s' = Some (bs "c").
Proof.
  assert (ex_rename 0 (bs "a") 0 (bs "c") (calls (take 4 renamed)) = (Ret (Ok tt), calls renamed)) as Hrun
    by (vm_compute; reflexivity).
  assert (ex_inv (calls (take 4 renamed))) as Hi.
  { apply (ex_reachable_inv dir_bound root). apply calls_reachable. fits. }
  destruct (example_rename_moves_handle 0 (bs "a") 0 (bs "c") _ _ Hi Hrun) as (dd & dd' & s & s' & H1 & H2 & H3 & H4 & _).
  exists dd, dd', s, s'. exact (conj H1 (conj H2 (conj H3 H4))).
Defined.

Definition crowd : DemoState := calls [ExMkdir 0 (bs "a"); ExMkdir 0 (bs "b"); ExMkdir 0 (bs "c")].

Definition page : ExIterator := mkExIterator [3] 0.

