(* ===== verification/MirrorExampleValid.v ===== *)
(** * The example file system gives values that can be encoded

    [example_ok t] is the invariant of its state that the interface [ValidFs] asks
    for: ids, attributes and children lists within the types of the protocol, and
    symbols that stand for names within its limits.  It is relative to a table of
    symbols [t], all of which are still there: what a method has interned, or read
    in an entry, stays valid for the rest of it ([post_at], [post_now]). *)

From S2P Require Import Prelude Xdr XdrLaws Nfs3Types RpcTypes RpcWire RpcWireLaws Handle Vfs NfsHandlersLaws MountPortmap Server ServerLaws.
From S2P Require Import Connection ConnectionLaws FsUtil Mirror MirrorProperties Validity ServerValidity MirrorValid.
From S2P Require Import MirrorExample MirrorExampleLaws MirrorExampleDemo.
From stdpp Require Import sorting.
Open Scope Z_scope.
Open Scope nfs_scope.

(** What the system reports of an open file and of the entry of a stream. *)
Class OsMoreValid (OS RD F : Type) `{!Os OS RD F} `{!OsMore OS RD F} : Prop := {
  omv_metadata p os m : (os_metadata p os).1 = Ok m -> metadata_ok m;
  omv_file f os m : (os_file_metadata f os).1 = Ok m -> metadata_ok m;
  omv_entry rd name os m : (os_entry_metadata rd name os).1 = Ok m -> metadata_ok m;
}.

Create HintDb example_ok.

Section valid.
Context {T Sym OS RD F : Type} `{!SymbolTable T Sym} `{!CheckInterned T Sym} `{Countable Sym}.
Context `{!Os OS RD F} `{!OsMore OS RD F} `{!OsValid OS RD F} `{!OsMoreValid OS RD F} `{!SymbolTableLaws T Sym}.
Context (dir_bound : nat).
Local Abbreviation Map := (@FSMap T Sym _ _).
Local Abbreviation St := (@ExMirrorFs T Sym OS _ _).
Local Abbreviation Entry := (@FSEntry Sym).

(** ** The invariant *)

Definition sym_valid (t : T) (s : Sym) : Prop := exists name, st_get t s = Some name /\ valid filename3_codec name.

Definition table_grows (t t' : T) : Prop := forall s name, st_get t s = Some name -> st_get t' s = Some name.

Record entry_valid (t : T) (e : Entry) : Prop := {
  ev_name : Forall (sym_valid t) (fe_name e);
  ev_meta : valid fattr3_codec (fe_fsmeta e);
  ev_children : forall l, fe_children e = Some l -> Forall in_u64 l;
}.

Record map_valid (m : Map) : Prop := {
  mv_symbols : st_ok (fm_intern m);
  mv_next : in_u64 (fm_next_fileid m);
  mv_paths : map_Forall (fun _ id => in_u64 id) (fm_path_to_id m);
  mv_entries : map_Forall (fun id e => in_u64 id /\ entry_valid (fm_intern m) e) (fm_id_to_path m);
}.

Definition example_ok (fs : St) : Prop := map_valid (ex_fsmap fs).
Definition ok_at (t : T) (fs : St) : Prop := example_ok fs /\ table_grows t (fm_intern (ex_fsmap fs)).

Lemma table_grows_refl t : table_grows t t.
Proof. by intros s name. Qed.

Lemma table_grows_trans t1 t2 t3 : table_grows t1 t2 -> table_grows t2 t3 -> table_grows t1 t3.
Proof. intros H1 H2 s name Hs. by apply H2, H1. Qed.

Lemma sym_valid_grows t t' s : table_grows t t' -> sym_valid t s -> sym_valid t' s.
Proof. intros Hg (name & Hs & Hn). exists name. split; [by apply Hg|done]. Qed.

Lemma names_valid_grows t t' l : table_grows t t' -> Forall (sym_valid t) l -> Forall (sym_valid t') l.
Proof. intros Hg Hl. eapply Forall_impl; [exact Hl|]. intros s. by apply sym_valid_grows. Qed.

Lemma entry_valid_grows t t' e : table_grows t t' -> entry_valid t e -> entry_valid t' e.
Proof. intros Hg [H1 H2 H3]. split; [by eapply names_valid_grows|done|done]. Qed.

(** ** Postconditions at a table *)

(** A computation that keeps the invariant and the symbols. *)
Definition post_at {A} (t : T) (Q : A -> Prop) (m : prog St A) : Prop := post (ok_at t) Q m.

(** At every table: at the one of the state it starts from. *)
Lemma post_always {A} (Q : A -> Prop) (m : prog St A) : (forall t, post_at t Q m) -> post example_ok Q m.
Proof. intros Hm fs Hfs. destruct (Hm (fm_intern (ex_fsmap fs)) fs) as [[H1 _] H2]; [split; [done|apply table_grows_refl]|]. by split. Qed.

(** What is learnt of the state may be used as if the computation began there. *)
Lemma post_now {A B} t (Q : T -> A -> Prop) (R : B -> Prop) (m : prog St A) (k : A -> prog St B) :
  (forall fs, ok_at t fs -> ok_at t (m fs).2 /\
     match (m fs).1 with Ret a => Q (fm_intern (ex_fsmap (m fs).2)) a | _ => True end) ->
  (forall t' a, table_grows t t' -> Q t' a -> post_at t' R (k a)) -> post_at t R (pbind m k).
Proof.
  intros Hm Hk fs Hfs. destruct (Hm fs Hfs) as [H1 H2]. unfold pbind.
  destruct (m fs) as [[a| |] fs']; cbn [fst snd] in *; [|done|done].
  destruct H1 as [Hok Hg]. destruct (Hk (fm_intern (ex_fsmap fs')) a Hg H2 fs') as [[Hok2 Hg2] HR]; [split; [done|apply table_grows_refl]|].
  split; [|done]. split; [done|]. by eapply table_grows_trans.
Qed.

Lemma at_pret {A} t (Q : A -> Prop) a : Q a -> post_at t Q (pret a).
Proof. by intros HQ fs Hfs. Qed.

Lemma at_ppanic {A} t (Q : A -> Prop) : post_at t Q ppanic.
Proof. by intros fs Hfs. Qed.

Lemma at_bind {A B} t (Q : A -> Prop) (R : B -> Prop) m (k : A -> prog St B) :
  post_at t Q m -> (forall a, Q a -> post_at t R (k a)) -> post_at t R (pbind m k).
Proof. apply post_bind. Qed.

Lemma at_try {A B} t (Q : A -> Prop) (R : B -> Prop) m (k : A -> prog St (result B nfsstat3)) :
  post_at t (on_ok Q) m -> (forall a, Q a -> post_at t (on_ok R) (k a)) -> post_at t (on_ok R) (tbind m k).
Proof. apply post_try. Qed.

Lemma at_any {A} t (Q : A -> Prop) (m : prog St A) : post_at t Q m -> post_at t (fun _ => True) m.
Proof. apply post_any. Qed.

(** ** The system *)

Lemma ex_on_os_post {A} t (Q : A -> Prop) (c : prog OS A) : post (fun _ => True) Q c -> post_at t Q (ex_on_os c).
Proof.
  intros Hc fs Hfs. unfold ex_on_os. destruct (Hc (ex_os fs) I) as [_ Hq]. by destruct (c (ex_os fs)) as [o os].
Qed.

Lemma any_os {A} (c : prog OS A) : post (fun _ => True) (fun _ => True) c.
Proof. intros os _. by destruct (fst (c os)). Qed.

Lemma ex_on_os_any {A} t (c : prog OS A) : post_at t (fun _ => True) (ex_on_os c).
Proof. apply ex_on_os_post, any_os. Qed.

Lemma ex_sys_post {A} t (Q : A -> Prop) (c : OS -> A * OS) : (forall os, Q (c os).1) -> post_at t Q (ex_sys c).
Proof. intros Hc. apply ex_on_os_post. intros os _. unfold sys. pose proof (Hc os). by destruct (c os). Qed.

Lemma io_error_post {A} t (Q : A -> Prop) (c : OS -> result A ErrorKind * OS) stat : stat <> NFS3_OK ->
  (forall os a, (c os).1 = Ok a -> Q a) -> post_at t (on_ok Q) (map_err (fun _ => stat) (ex_sys c)).
Proof.
  intros Hs Hc. eapply (at_bind _ (on_io Q)).
  - apply ex_sys_post. intros os. destruct (c os).1 as [a|] eqn:E; [by eapply Hc|done].
  - intros [a|e] Ha; by apply at_pret.
Qed.

Lemma io_error_any {A} t (c : OS -> result A ErrorKind * OS) stat : stat <> NFS3_OK ->
  post_at t (on_ok (fun _ => True)) (map_err (fun _ => stat) (ex_sys c)).
Proof. intros Hs. by apply io_error_post. Qed.

Lemma io_error_metadata t p stat : stat <> NFS3_OK ->
  post_at t (on_ok metadata_ok) (map_err (fun _ => stat) (ex_sys (os_symlink_metadata p))).
Proof. intros Hs. apply io_error_post; [done|]. intros os m Hm. by eapply ov_metadata. Qed.

Lemma io_error_file_metadata t f stat : stat <> NFS3_OK ->
  post_at t (on_ok metadata_ok) (map_err (fun _ => stat) (ex_sys (os_file_metadata f))).
Proof. intros Hs. apply io_error_post; [done|]. intros os m Hm. by eapply omv_file. Qed.

Lemma ex_path_post t p : post_at t (fun _ => True) (ex_path p : prog St path).
Proof. intros fs Hfs. split; [done|]. by destruct (ex_path p fs).1. Qed.

Lemma path_setattr_ok p attr : post (fun _ => True) (on_ok (fun _ => True)) (path_setattr p attr).
Proof.
  unfold path_setattr. do 3 (eapply post_bind; [apply any_os|]; intros _ _). unfold path_set_size.
  destruct (sattr3_size attr); [|by apply post_pret].
  do 2 (eapply (post_try _ (fun _ => True)); [eapply post_bind; [apply any_os|]; intros [] _; by apply post_pret|]; intros ? _).
  by apply post_pret.
Qed.

(** ** The map *)

Lemma find_entry_now {B} t (R : B -> Prop) id (k : result Entry nfsstat3 -> prog St B) :
  (forall t' e, table_grows t t' -> in_u64 id -> entry_valid t' e -> post_at t' R (k (Ok e))) ->
  post_at t R (k (Err NFS3ERR_NOENT)) -> post_at t R (pbind (find_entry id) k).
Proof.
  intros Hk He. intros fs Hfs. unfold find_entry, pbind. destruct (fm_id_to_path (ex_fsmap fs) !! id) as [e|] eqn:E.
  - destruct Hfs as [Hok Hg]. destruct (mv_entries _ Hok _ _ E) as [Hid Hev].
    destruct (Hk _ e Hg Hid Hev fs) as [[Hok' Hg'] HR]; [split; [done|apply table_grows_refl]|]. split; [|done].
    split; [done|]. by eapply table_grows_trans.
  - by apply He.
Qed.

Lemma find_entry_try {B} t (R : B -> Prop) id (k : Entry -> prog St (result B nfsstat3)) :
  (forall t' e, table_grows t t' -> in_u64 id -> entry_valid t' e -> post_at t' (on_ok R) (k e)) ->
  post_at t (on_ok R) (tbind (find_entry id) k).
Proof. intros Hk. unfold tbind. apply find_entry_now; [exact Hk|by apply at_pret]. Qed.

Lemma find_entry_any t id : post_at t (on_ok (fun _ => True)) (find_entry id : vfs_method St Entry).
Proof. intros fs Hfs. split; [done|]. cbn. by destruct (fm_id_to_path _ !! id). Qed.

Lemma ex_intern_now {B} t (R : B -> Prop) name (k : Sym -> prog St B) :
  valid filename3_codec name ->
  (forall t' s, table_grows t t' -> sym_valid t' s -> post_at t' R (k s)) -> post_at t R (pbind (ex_intern name) k).
Proof.
  intros Hn Hk. apply (post_now t sym_valid); [|done]. intros fs [Hok Hg]. unfold ex_intern.
  destruct (st_intern name (fm_intern (ex_fsmap fs))) as [[s t']|] eqn:E; [|by split]. cbn [fst snd ex_fsmap fm_set_intern fm_intern].
  destruct Hok as [Hsym Hnext Hpaths Hentries]. assert (table_grows (fm_intern (ex_fsmap fs)) t') as Hg'.
  { intros s2 n2 Hs2. by eapply st_intern_keeps. }
  split; [|exists name; split; [by eapply st_intern_get|done]]. split; [split; cbn|].
  - by eapply st_intern_ok.
  - done.
  - done.
  - intros id e He. destruct (Hentries id e He) as [Hid Hev]. split; [done|]. by eapply entry_valid_grows.
  - by eapply table_grows_trans.
Qed.

Lemma find_child_post t id name : post_at t (on_ok in_u64) (find_child id name : vfs_method St Z).
Proof.
  intros fs Hfs. split; [done|]. unfold find_child. cbn [fst]. destruct (fm_id_to_path _ !! id) as [e|]; [|done].
  destruct (st_check_interned _ _); [|done]. destruct (fm_path_to_id (ex_fsmap fs) !! _) as [i|] eqn:E; [|done].
  destruct Hfs as [Hok _]. exact (mv_paths _ Hok _ _ E).
Qed.

Lemma update_entry_post t id f :
  (forall t' e, table_grows t t' -> entry_valid t' e -> entry_valid t' (f e)) ->
  post_at t (fun _ => True) (update_entry id f : prog St unit).
Proof.
  intros Hf fs [[H1 H2 H3 H4] Hg]. split; [|done]. split; [|done]. split; cbn; [done..|].
  intros i e He. destruct (decide (i = id)) as [->|Hne].
  - rewrite lookup_alter_eq in He. apply fmap_Some in He as (e0 & He0 & ->). destruct (H4 _ _ He0) as [Hi Hv]. auto.
  - rewrite lookup_alter_ne in He by done. by apply H4.
Qed.

Lemma fe_set_fsmeta_valid t e meta : valid fattr3_codec meta -> entry_valid t e -> entry_valid t (fe_set_fsmeta meta e).
Proof. intros Hm [H1 H2 H3]. by split. Qed.

Lemma delete_one_ok t (m : Map) i : map_valid m -> table_grows t (fm_intern m) ->
  map_valid (delete_one m i) /\ table_grows t (fm_intern (delete_one m i)).
Proof.
  intros [H1 H2 H3 H4] Hg. unfold delete_one. destruct (fm_id_to_path m !! i) as [e|]; [|done].
  split; [|done]. split; cbn; [done|done|by apply map_Forall_delete|by apply map_Forall_delete].
Qed.

Lemma delete_entry_post t id : post_at t (fun _ => True) (delete_entry id : prog St unit).
Proof.
  intros fs [Hok Hg]. unfold delete_entry. destruct (collect_all_children _ _ _) as [l| |]; [|by split..]. split; [|done].
  unfold ok_at, example_ok in *. cbn [snd ex_fsmap]. revert Hok Hg. generalize (ex_fsmap fs).
  induction l as [|i l IH]; intros m Hok Hg; [done|]. cbn [foldl]. destruct (delete_one_ok t m i Hok Hg). by apply IH.
Qed.

Lemma create_entry_post t p meta :
  Forall (sym_valid t) p -> metadata_ok meta -> post_at t in_u64 (create_entry p meta : prog St Z).
Proof.
  intros Hp Hm fs [[H1 H2 H3 H4] Hg]. unfold create_entry. destruct (fm_path_to_id (ex_fsmap fs) !! p) as [i|] eqn:E.
  - assert (in_u64 i) as Hi by exact (H3 _ _ E). split; [|done]. split; [|done]. split; cbn; [done..|].
    intros j e He. destruct (decide (j = i)) as [->|Hne].
    + rewrite lookup_alter_eq in He. apply fmap_Some in He as (e0 & He0 & ->). destruct (H4 _ _ He0) as [_ Hv].
      split; [done|]. apply fe_set_fsmeta_valid; [by apply metadata_fattr3_valid|done].
    + rewrite lookup_alter_ne in He by done. by apply H4.
  - split; [|done]. split; [|done]. split; cbn.
    + done.
    + unfold in_u64, u64_MAX. pose proof (Z.mod_pos_bound (fm_next_fileid (ex_fsmap fs) + 1) (2 ^ 64) eq_refl). lia.
    + by apply map_Forall_insert_2.
    + apply map_Forall_insert_2; [|done]. split; [done|]. split; cbn; [by eapply names_valid_grows|by apply metadata_fattr3_valid|done].
Qed.

(** ** Refreshing *)

Lemma refresh_entry_post t id : post_at t (on_ok (fun _ => True)) (refresh_entry id : vfs_method St RefreshResult).
Proof.
  unfold refresh_entry. apply find_entry_try. intros t' e _ Hid _.
  eapply at_bind; [apply ex_path_post|]. intros p _. eapply at_bind; [apply ex_on_os_any|]. intros [] _; cbn [negb].
  - eapply at_try; [by apply io_error_metadata|]. intros m Hm. cbv zeta.
    destruct (negb (fattr3_differ _ _)); [by apply at_pret|]. destruct (negb _).
    + eapply at_bind; [apply delete_entry_post|]. intros _ _. by apply at_pret.
    + eapply at_bind; [apply update_entry_post|]; [|intros _ _; by apply at_pret].
      intros t2 e' _ He'. apply fe_set_fsmeta_valid; [by apply metadata_fattr3_valid|done].
  - eapply at_bind; [apply delete_entry_post|]. intros _ _. by apply at_pret.
Qed.

Lemma snoc_valid t p s : Forall (sym_valid t) p -> sym_valid t s -> Forall (sym_valid t) (p ++ [s]).
Proof. intros Hp Hs. apply Forall_app. by split; [|constructor]. Qed.

Lemma relist_loop_post fuel t cur listing l :
  Forall (sym_valid t) cur -> Forall in_u64 l -> post_at t (on_ok (Forall in_u64)) (relist_loop fuel cur listing l : vfs_method St (list Z)).
Proof.
  revert t listing l. induction fuel as [|fuel IH]; intros t listing l Hcur Hl; [by intros fs Hfs|]. cbn [relist_loop].
  eapply (at_bind _ (fun r => forall name, r.1 = Ok (Some name) -> valid filename3_codec name)).
  { apply ex_sys_post. intros os name. apply ov_name. }
  intros [[[name|]|e] rd'] Hn; cbn [fst] in Hn; [|by apply at_pret..].
  apply ex_intern_now; [by apply Hn|]. intros t' s Hg Hs.
  eapply (at_bind _ (fun r => forall m, r = Ok m -> metadata_ok m)).
  { apply ex_sys_post. intros os m. apply omv_entry. }
  intros [m|e] Hm; [|by apply at_ppanic].
  eapply at_bind; [apply create_entry_post; [apply snoc_valid; [by eapply names_valid_grows|done]|by apply Hm]|].
  intros i Hi. apply IH; [by eapply names_valid_grows|]. apply Forall_app. by split; [|constructor].
Qed.

Lemma set_children_valid t e l : Forall in_u64 l -> entry_valid t e -> entry_valid t (fe_set_children (Some l) e).
Proof. intros Hl [H1 H2 H3]. split; [done..|]. by intros ? [= <-]. Qed.

Lemma refresh_dir_list_post t id : post_at t (on_ok (fun _ => True)) (refresh_dir_list dir_bound id : vfs_method St unit).
Proof.
  unfold refresh_dir_list. apply find_entry_try. intros t' e Hg Hid He.
  destruct (_ && _); [by apply at_pret|]. destruct (negb _); [by apply at_pret|].
  eapply at_bind; [apply ex_path_post|]. intros p _. eapply at_bind; [by apply ex_sys_post with (Q := fun _ => True)|].
  intros [listing|] _; [|by apply at_pret].
  eapply at_try; [apply relist_loop_post; [apply He|constructor]|]. intros l Hl.
  apply find_entry_try. intros t2 e2 _ _ _. eapply at_bind; [apply update_entry_post|]; [|intros _ _; by apply at_pret].
  intros t3 e3 _ He3. apply set_children_valid; [|done]. by rewrite merge_sort_Permutation.
Qed.

(** ** Creating *)

Lemma make_object_post t p o : post_at t (on_ok (fun _ => True)) (make_object p o : vfs_method St unit).
Proof.
  destruct o; cbn [make_object].
  - eapply at_bind; [apply ex_on_os_any|]. intros [] _; [by apply at_pret|by apply io_error_any].
  - eapply at_try; [by apply io_error_any|]. intros f _. eapply at_bind; [apply ex_on_os_any|]. intros r _. by apply at_pret.
  - eapply at_try; [by apply io_error_any|]. intros f _. by apply at_pret.
  - eapply at_bind; [apply ex_on_os_any|]. intros [] _; [by apply at_pret|by apply io_error_any].
Qed.

Lemma add_child_valid i l l' : in_u64 i -> Forall in_u64 l -> add_child i l = Some l' -> Forall in_u64 l'.
Proof.
  intros Hi Hl. unfold add_child. destruct (binary_search i l) as [|pos]; [done|]. intros [= <-].
  unfold vec_insert. rewrite <- (take_drop pos l), Forall_app in Hl. apply Forall_app. by destruct Hl; split; [|constructor].
Qed.

Lemma insert_child_post t t' id i e : in_u64 i -> entry_valid t' e -> post_at t (on_ok (fun _ => True)) (insert_child id i e : vfs_method St unit).
Proof.
  intros Hi He. unfold insert_child. destruct (fe_children e) as [l|] eqn:El; [|by apply at_pret].
  destruct (add_child i l) as [l'|] eqn:Ea; [|by apply at_pret].
  eapply at_bind; [apply update_entry_post|]; [|intros _ _; by apply at_pret]. intros t2 e2 _ He2.
  apply set_children_valid; [|done]. eapply add_child_valid; [done| |done]. by apply (ev_children _ _ He).
Qed.

Lemma create_fs_object_post t dirid name o : valid filename3_codec name ->
  post_at t (on_ok id_attr_ok) (create_fs_object dirid name o : vfs_method St _).
Proof.
  intros Hn. unfold create_fs_object. apply find_entry_try. intros t1 e Hg1 Hid He.
  eapply at_bind; [apply ex_path_post|]. intros p _. eapply at_try; [apply make_object_post|]. intros _ _.
  eapply at_bind; [eapply at_any, refresh_entry_post|]. intros _ _.
  apply ex_intern_now; [done|]. intros t2 s Hg2 Hs.
  eapply at_try; [by apply io_error_metadata|]. intros m Hm.
  eapply at_bind; [apply create_entry_post; [|done]|].
  { apply snoc_valid; [eapply names_valid_grows; [done|apply He]|done]. }
  intros i Hi. apply find_entry_try. intros t3 e3 Hg3 _ He3.
  eapply at_try; [by eapply insert_child_post|]. intros _ _. apply at_pret. by apply metadata_fattr3_valid.
Qed.

(** ** The methods *)

Lemma ex_lookup_post t dirid name : post_at t (on_ok in_u64) (ex_lookup dir_bound dirid name : vfs_method St Z).
Proof.
  unfold ex_lookup. eapply at_bind; [apply find_child_post|]. intros child Hchild.
  eapply (at_bind _ (fun known => match known with Some i => in_u64 i | None => True end)).
  { destruct child as [i|]; [|by apply at_pret]. eapply at_bind; [apply find_entry_any|]. intros [e|] _; by apply at_pret. }
  intros [i|] Hi; [by apply at_pret|]. apply find_entry_try. intros t1 e Hg Hid He.
  eapply at_bind; [apply ex_path_post|]. intros p _. eapply at_bind; [apply ex_on_os_any|]. intros [] _; cbn [negb]; [|by apply at_pret].
  eapply at_try; [apply refresh_entry_post|]. intros [] _; [by apply at_pret|..];
    (eapply at_bind; [eapply at_any, refresh_dir_list_post|]; intros _ _; apply find_child_post).
Qed.

Lemma ex_getattr_post t id : post_at t (on_ok (valid fattr3_codec)) (ex_getattr id : vfs_method St fattr3).
Proof.
  unfold ex_getattr. eapply at_try; [apply refresh_entry_post|]. intros [] _; [by apply at_pret|..];
    (apply find_entry_try; intros t1 e _ _ He; eapply at_bind; [apply ex_path_post|]; intros p _; apply at_pret; apply He).
Qed.

Lemma ex_read_post t id offset count : post_at t (on_ok (fun _ => True)) (ex_read id offset count : vfs_method St _).
Proof.
  unfold ex_read. apply find_entry_try. intros t1 e _ _ _. eapply at_bind; [apply ex_path_post|]. intros p _.
  eapply at_try; [by apply io_error_any|]. intros f _. eapply at_try; [by apply io_error_any|]. intros m _. cbv zeta.
  destruct (_ <? _); [apply at_ppanic|]. do 2 (eapply at_try; [by apply io_error_any|]; intros ? _). by apply at_pret.
Qed.

Lemma ex_readlink_post t id : post_at t (on_ok (valid nfspath3_codec)) (ex_readlink id : vfs_method St nfspath3).
Proof.
  unfold ex_readlink. apply find_entry_try. intros t1 e _ _ _. eapply at_bind; [apply ex_path_post|]. intros p _.
  eapply at_bind; [by apply ex_sys_post with (Q := fun _ => True)|]. intros [m|] _; [|by apply at_pret].
  destruct (metadata_is_symlink m); [|by apply at_pret]. apply io_error_post; [done|]. intros os a. apply ov_target.
Qed.

Lemma ex_iterator_new_post t dirid cookie :
  post_at t (on_ok (fun it => Forall in_u64 (exi_entries it))) (ex_iterator_new dir_bound dirid cookie : vfs_method St ExIterator).
Proof.
  unfold ex_iterator_new. eapply at_try; [apply refresh_entry_post|]. intros _ _. eapply at_try; [apply refresh_dir_list_post|]. intros _ _.
  apply find_entry_try. intros t1 e _ _ He. destruct (negb _); [by apply at_pret|].
  destruct (fe_children e) as [l|] eqn:El; [|by apply at_pret]. apply at_pret. cbn. apply Forall_drop. by apply (ev_children _ _ He).
Qed.

Lemma ex_next_from_post t rest index : Forall in_u64 rest ->
  post_at t (fun r => match r.1 with NextOk e => plus_id_valid e | NextEof => True | NextErr stat => stat <> NFS3_OK end)
    (ex_next_from rest index : prog St _).
Proof.
  intros Hr. revert index. induction Hr as [|i rest Hi Hr IH]; intros index; cbn [ex_next_from]; [by apply at_pret|].
  apply find_entry_now; [|apply IH]. intros t1 e _ _ He.
  eapply (post_now _ (fun _ name => valid filename3_codec name)).
  - intros fs [Hok Hg]. cbn [fst snd]. split; [by split|]. unfold sym_to_fname. destruct (last (fe_name e)) as [s|] eqn:El; [|by vm_compute].
    apply last_Some in El as [p Ep]. pose proof (ev_name _ _ He) as Hp. rewrite Ep, Forall_app, Forall_cons in Hp.
    destruct Hp as (_ & (name & Hs & Hn) & _). by rewrite (Hg _ _ Hs).
  - intros t2 name _ Hn. apply at_pret. cbn [fst]. split; [by split_and!|]. exact (ev_meta _ _ He).
Qed.

Lemma ex_next_post t it : Forall in_u64 (exi_entries it) ->
  post_at t (fun r => Forall in_u64 (exi_entries r.2) /\
    match r.1 with NextOk e => plus_id_valid e | NextEof => True | NextErr stat => stat <> NFS3_OK end) (ex_next it : prog St _).
Proof.
  intros Hit. unfold ex_next. eapply at_bind; [by apply ex_next_from_post, Forall_drop|]. intros [r index] Hr. by apply at_pret.
Qed.

Lemma ex_setattr_post t id attr : post_at t (on_ok (valid fattr3_codec)) (ex_setattr id attr : vfs_method St fattr3).
Proof.
  unfold ex_setattr. apply find_entry_try. intros t1 e _ Hid _. eapply at_bind; [apply ex_path_post|]. intros p _.
  eapply at_try; [apply ex_on_os_post, path_setattr_ok|]. intros _ _. eapply at_try; [by apply io_error_metadata|]. intros m Hm.
  eapply at_bind; [apply update_entry_post|]; [|intros _ _; apply at_pret; by apply metadata_fattr3_valid].
  intros t2 e2 _ He2. apply fe_set_fsmeta_valid; [by apply metadata_fattr3_valid|done].
Qed.

Lemma ex_write_post t id offset data : post_at t (on_ok (valid fattr3_codec)) (ex_write id offset data : vfs_method St fattr3).
Proof.
  unfold ex_write. apply find_entry_try. intros t1 e _ Hid _. eapply at_bind; [apply ex_path_post|]. intros p _.
  do 3 (eapply at_try; [by apply io_error_any|]; intros ? _). do 2 (eapply at_bind; [by apply ex_sys_post with (Q := fun _ => True)|]; intros ? _).
  eapply at_try; [by apply io_error_file_metadata|]. intros m Hm. apply at_pret. by apply metadata_fattr3_valid.
Qed.

Lemma unlist_child_valid i l : Forall in_u64 l -> Forall in_u64 (unlist_child i l).
Proof. apply Forall_sublist, unlist_child_sub. Qed.

Lemma forget_child_post t dirid i : post_at t (fun _ => True) (forget_child dirid i : prog St unit).
Proof.
  apply update_entry_post. intros t' e _ [H1 H2 H3]. split; [done..|]. cbn. intros l Hl.
  apply fmap_Some in Hl as (l0 & E & ->). by apply unlist_child_valid, H3.
Qed.

Lemma lookup_path_id_post t p : post_at t (fun known => match known with Some i => in_u64 i | None => True end) (lookup_path_id p : prog St _).
Proof.
  intros fs Hfs. split; [done|]. cbn. destruct (fm_path_to_id (ex_fsmap fs) !! p) as [i|] eqn:E; [|done].
  destruct Hfs as [Hok _]. exact (mv_paths _ Hok _ _ E).
Qed.

Lemma forget_path_post t i p : post_at t (fun _ => True) (forget_path i p : prog St unit).
Proof.
  intros fs [[H1 H2 H3 H4] Hg]. split; [|done]. split; [|done]. split; cbn; [done|done|by apply map_Forall_delete|by apply map_Forall_delete].
Qed.

Lemma ex_remove_post t dirid name : valid filename3_codec name -> post_at t (on_ok (fun _ => True)) (ex_remove dirid name : vfs_method St unit).
Proof.
  intros Hn. unfold ex_remove. apply find_entry_try. intros t1 e _ _ _. eapply at_bind; [apply ex_path_post|]. intros p _.
  eapply at_bind; [by apply ex_sys_post with (Q := fun _ => True)|]. intros [m|] _; [|by apply at_pret].
  eapply at_try; [by destruct (metadata_is_dir m); apply io_error_any|]. intros _ _.
  apply ex_intern_now; [done|]. intros t2 s _ _. eapply at_bind; [apply lookup_path_id_post|]. intros known _.
  eapply (at_bind _ (fun _ => True)).
  { destruct known as [i|]; [|by apply at_pret]. eapply at_bind; [apply forget_path_post|]. intros _ _. apply forget_child_post. }
  intros _ _. eapply at_bind; [eapply at_any, refresh_entry_post|]. intros _ _. by apply at_pret.
Qed.

Lemma move_path_post t i p q : in_u64 i -> Forall (sym_valid t) q -> post_at t (fun _ => True) (move_path i p q : prog St unit).
Proof.
  intros Hi Hq fs [[H1 H2 H3 H4] Hg]. unfold move_path. destruct (fm_id_to_path (ex_fsmap fs) !! i) as [e|] eqn:E; [|by split].
  split; [|done]. split; [|done]. split; cbn; [done|done|..].
  - apply map_Forall_insert_2; [done|by apply map_Forall_delete].
  - apply map_Forall_insert_2; [|done]. destruct (H4 _ _ E) as [_ [E1 E2 E3]]. split; [done|].
    split; cbn; [by eapply names_valid_grows|done|done].
Qed.

Lemma move_child_post t d1 d2 i : in_u64 i -> post_at t (on_ok (fun _ => True)) (move_child d1 d2 i : vfs_method St unit).
Proof.
  intros Hi. unfold move_child. destruct (_ =? _); [by apply at_pret|]. eapply at_bind; [apply forget_child_post|]. intros _ _.
  apply find_entry_now; [|by apply at_pret]. intros t1 e _ _ He. by eapply insert_child_post.
Qed.

Lemma ex_rename_post t d1 n1 d2 n2 : valid filename3_codec n1 -> valid filename3_codec n2 ->
  post_at t (on_ok (fun _ => True)) (ex_rename d1 n1 d2 n2 : vfs_method St unit).
Proof.
  intros Hn1 Hn2. unfold ex_rename. apply find_entry_try. intros t1 e1 Hg1 _ He1. eapply at_bind; [apply ex_path_post|]. intros p1 _.
  apply find_entry_try. intros t2 e2 Hg2 _ He2. eapply at_bind; [apply ex_path_post|]. intros p2 _.
  eapply at_bind; [apply ex_on_os_any|]. intros [] _; cbn [negb]; [|by apply at_pret].
  eapply at_bind; [apply ex_on_os_any|]. intros [] _; cbn [negb]; [|by apply at_pret].
  eapply at_try; [by apply io_error_any|]. intros _ _.
  apply ex_intern_now; [done|]. intros t3 s1 Hg3 _. apply ex_intern_now; [done|]. intros t4 s2 Hg4 Hs2.
  eapply at_bind; [apply lookup_path_id_post|]. intros known Hk.
  eapply (at_try _ (fun _ => True)).
  { destruct known as [i|]; [|by apply at_pret]. eapply at_bind; [apply move_path_post; [done|]|].
    - apply snoc_valid; [|done]. eapply names_valid_grows; [exact Hg4|]. eapply names_valid_grows; [exact Hg3|]. apply He2.
    - intros _ _. by apply move_child_post. }
  intros _ _. eapply at_bind; [eapply at_any, refresh_entry_post|]. intros _ _. eapply (at_bind _ (fun _ => True)).
  - destruct (negb _); [|by apply at_pret]. eapply at_bind; [eapply at_any, refresh_entry_post|]. intros _ _. by apply at_pret.
  - intros _ _. by apply at_pret.
Qed.

(** ** The instance *)

Section instance.
Context `{Target}.

Lemma ex_handle_post (Q : Z -> Prop) (m : vfs_method St Z) : (forall t, post_at t (on_ok Q) m) ->
  post example_ok (on_ok handle_valid) (do* r := m in pret (with_handle r)).
Proof.
  intros Hm. eapply post_bind; [by apply post_always|]. intros [r|e] Hr; apply post_pret; [apply handle_u64_valid|done].
Qed.

Lemma ex_handle_attr_post (m : vfs_method St (Z * fattr3)) : (forall t, post_at t (on_ok id_attr_ok) m) ->
  post example_ok (on_ok (fun r => handle_valid r.1 /\ valid fattr3_codec r.2)) (do* r := m in pret (with_handle_attr r)).
Proof.
  intros Hm. eapply post_bind; [by apply post_always|].
  intros [[id a]|e] Hr; apply post_pret; [by split; [apply handle_u64_valid|]|done].
Qed.

Lemma example_iterates dirid cookie : iterates example_ok plus_valid ex_readdirplus_iter (ex_readdirplus dir_bound dirid cookie).
Proof.
  exists (fun it => Forall in_u64 (exi_entries it)). split; [apply post_always; intros t; apply ex_iterator_new_post|].
  split; [|intros; by apply post_pret]. intros it Hit. eapply post_bind; [apply post_always; intros t; by apply ex_next_post|].
  intros [[e| |stat] it'] [Hit' Hr]; cbn [fst snd] in *; apply post_pret; (split; [done|]); [|done..].
  destruct Hr as [He Ha]. split; [exact He|]. split; [exact Ha|]. cbn.
  destruct (dep_name_handle e); [apply handle_u64_valid|done].
Qed.

#[export] Instance example_valid : ValidFs (example_file_system dir_bound) example_ok.
Proof.
  split; [split|..]; intros.
  - apply post_pret, handle_u64_valid.
  - eapply post_bind; [apply post_pret, handle_u64_valid|]. intros root Hroot.
    apply lookup_components_post; [|exact Hroot]. intros id name. apply (ex_handle_post in_u64). intros t. apply ex_lookup_post.
  - apply (ex_handle_post in_u64). intros t. apply ex_lookup_post.
  - apply post_always. intros t. apply ex_getattr_post.
  - apply post_always. intros t. apply ex_read_post.
  - eapply map_iterator_iterates; [apply example_iterates|]. intros e He. apply He.
  - apply example_iterates.
  - apply post_always. intros t. apply ex_readlink_post.
  - apply fsinfo_default_post, post_always. intros t. apply ex_getattr_post.
  - by apply post_pret.
  - apply post_always. intros t. apply ex_setattr_post.
  - apply post_always. intros t. apply ex_write_post.
  - apply ex_handle_attr_post. intros t. apply create_fs_object_post; assumption.
  - apply (ex_handle_post (fun _ => True)). intros t. eapply at_try; [apply create_fs_object_post; assumption|]. intros r _. by apply at_pret.
  - apply ex_handle_attr_post. intros t. apply create_fs_object_post; assumption.
  - apply post_always. intros t. apply ex_remove_post; assumption.
  - apply post_always. intros t. match goal with H1 : valid _ name1, H2 : valid _ name2 |- _ => exact (ex_rename_post t _ _ _ _ H1 H2) end.
  - apply ex_handle_attr_post. intros t. apply create_fs_object_post; assumption.
Qed.

(** ** The start *)

Lemma fsmap_new_valid root os m os' : fsmap_new root os = (Ret m, os') -> map_valid m.
Proof.
  unfold fsmap_new, pbind, sys. pose proof (omv_metadata root os) as Hm.
  destruct (os_metadata root os) as [[md|e] os1]; [|discriminate]. cbn [fst] in Hm.
  destruct (os_metadata root os1) as [[md2|e] os2]; [|discriminate].
  unfold pret. intros [= <- <-]. split; cbn -[fattr3_codec].
  - apply st_new_ok.
  - done.
  - by apply map_Forall_singleton.
  - apply map_Forall_singleton. split; [done|]. split; cbn; [constructor| |done]. by apply metadata_fattr3_valid, Hm.
Qed.

(** ** The example behind the server *)

(** C28: No call to a directory served by the example file system is lost to an
    encoding error. Whatever bytes clients send and whatever other processes do to
    the directory, as long as the system reports values within the ranges of its own
    types: each message that a connection has served, and whichever it serves next,
    gets a reply with the xid of its call, unless it is a retransmission (the tracker
    has its xid), the procedure panics or does not end (as for a READ at a huge offset, or
    a directory deleted with itself inside), or it is not a call that can be decoded.
    Every name of the map, which replies spell from symbols interned by earlier
    calls, keeps a symbol that the table still resolves to a valid name; the ids,
    the children lists and the attributes stay within their types. *)
Theorem example_calls_answered (ctx : RPCContext) (s : ServerState St) (input : list byte)
    (acts : list (action St)) (c : Connection St) (evs : list event) :
  let fs := example_file_system dir_bound in
  context_ok ctx -> serving example_ok s ->
  Forall (fun a => match a with AOther s' => serving example_ok s' | _ => True end) acts ->
  Connection.run fs ctx acts (connection_new s input) = Some (c, evs) ->
  serving example_ok (cn_server c) /\
  Forall (served_well fs example_ok ctx) (served evs) /\
  forall packed now now_drop, answered fs ctx packed now (cn_server c)
    (fst (handle_rpc_message fs ctx packed now now_drop (cn_server c))).
Proof.
  intros fs Hctx Hok Hothers Hrun. exact (run_answers _ _ example_valid ctx Hctx acts _ c evs Hrun Hothers Hok).
Qed.
End instance.
End valid.

(** ** A system with one directory *)

Module DemoListed.
#[export] Existing Instance DemoMirror.vec_table.
#[export] Existing Instance DemoMirror.vec_table_laws.
#[export] Existing Instance MirrorExampleDemo.DemoTree.vec_check.
#[export] Existing Instance DemoQuiet.quiet.
#[export] Existing Instance DemoMirror.target.
#[export] Existing Instance DemoQuiet.quiet_valid.

#[export] Instance quiet_more : OsMore unit bool unit := {|
  os_metadata _ os := (Ok DemoQuiet.md, os);
  os_file_metadata _ os := (Ok DemoQuiet.md, os);
  os_entry_metadata _ _ os := (Ok DemoQuiet.md, os);
  os_open_write_create _ os := (Ok tt, os);
  os_sync_all _ os := (Ok tt, os);
|}.

#[export] Instance quiet_more_valid : OsMoreValid unit bool unit.
Proof. split; cbn; by intros; simplify_eq; split_and!. Qed.

Definition DemoState : Type := @ExMirrorFs DemoMirror.table nat unit _ _.

Definition start : DemoState :=
  match fsmap_new [x2f] tt with
  | (Ret m, os) => mkExMirrorFs m os
  | (_, os) => mkExMirrorFs (mkFSMap [x2f] 1 st_new ∅ ∅) os
  end.

(** The directory is listed to look up a name that the map does not know. *)
Definition dir_bound : nat := 2.

(** A client that looks up a name, with its handle in the reply. *)
Definition input : list byte :=
  message_wire ([], call_bytes 7 (mk_call_body 2 NFS3_PROGRAM 3 3 opaque_auth_default opaque_auth_default)
    (to_bytes LOOKUP3args_codec (mk_LOOKUP3args (mk_diropargs3 (fh_to_nfs DemoFs.fhc (fh64_new 0)) DemoQuiet.bs_a)))).
Definition acts : list (action DemoState) :=
  [AReceive (len input); APush (len input); APull 4; APull (len input - 4); AFragment; AServe 0 1 2; AReply].
Definition final :=
  Connection.run (example_file_system dir_bound) DemoServer.ctx acts (connection_new (mkServerState start new_transaction_tracker []) input).
End DemoListed.

Import DemoListed.

Lemma start_ok : example_ok DemoListed.start.
Proof. apply (fsmap_new_valid [x2f] tt _ tt). vm_compute. reflexivity. Qed.

(** The lookup has interned a name. *)
Lemma example_calls_answered_witness :
  match DemoListed.final with
  | Some (c, evs) => length (served evs) = 1%nat /\ size (fm_id_to_path (ex_fsmap (ss_vfs (cn_server c)))) = 2%nat /\
      example_ok (ss_vfs (cn_server c))
  | None => False
  end.
Proof.
  assert (option_map (fun x => (length (served x.2), size (fm_id_to_path (ex_fsmap (ss_vfs (cn_server x.1)))))) DemoListed.final
    = Some (1%nat, 2%nat)) as Hl by (vm_compute; reflexivity).
  destruct DemoListed.final as [[c evs]|] eqn:E; [|discriminate]. injection Hl as Hs Hm.
  split; [exact Hs|]. split; [exact Hm|].
  refine (proj1 (proj1 (example_calls_answered DemoListed.dir_bound DemoServer.ctx (mkServerState start new_transaction_tracker [])
    DemoListed.input DemoListed.acts c evs DemoQuiet.server_context (conj start_ok (ex_intro _ [] tracker_inv_initial)) _ E))).
  by repeat constructor.
Defined.
